(* ===== verification/_CoqProject ===== *)
-Q . S2P
Prelude.v
Interact.v
Safefile.v
FileTree.v
Json.v
Tree.v
Types.v
Catalog.v
Staging.v
Published.v
Config.v
Wire.v
Evidence.v
Domain.v
Recovery.v
Store.v
Window.v
MemoryBundle.v
MemoryPlan.v
PerfBundle.v
Auth.v
Http.v
Source.v
Engine.v
Journal.v
Admission.v
Execution.v
System.v
HostPolicy.v
Provenance.v
Trust.v
HostExec.v
HostJournal.v
Kube.v
Consumers.v
Capacity.v
Candidate.v
Runtime.v
Inventory.v
Runs.v
HostMemory.v
HostPerf.v
Baseline.v
Exports.v
HostRun.v
Effects.v
Cgroup.v
Worker.v
Contained.v
Builds.v
Client.v
Live.v
Dispatch.v
Api.v
Access.v
Advisor.v
Advice.v
Harness.v
Launch.v
Adapters.v
Demo.v
Planning.v
Records.v
Remote.v
Secrecy.v
Commands.v
Exits.v
Sealing.v
Sealed.v
Opening.v
Metrics.v
Summaries.v
