(* ===== verification/Prelude.v ===== *)
(** Workstation Bridge: a verification library for the control plane of one AI workstation.

    The program.  An unprivileged controller ([cmd/bridged]) serves a management API over an
    embedded store.  A caller plans a change (a typed draft checked against the canonical
    source and the observed hardware), applies the plan under an idempotency key, and a single
    worker executes queued operations through an adapter; a failed or uncertain operation
    must be settled by an explicit recovery before anything else may change.  Privileged
    effects go to a root helper ([cmd/bridge-hostd]) with its own policy and journal;
    builds go to a build worker ([cmd/bridge-worker]) that runs one sandboxed compiler at a
    time inside a delegated cgroup.  An owner drives it from another machine with a command line
    ([cmd/bridgectl]) that can also seal evidence and launch a configured coding client.

    How the library follows it, bottom up (a file for each part; definitions keep the names of
    the source, record fields carry a short prefix per struct):

    - [Prelude] (this file): Go errors as values, guarded returns, 64-bit wrap-around, clocks,
      strings, paths, [strconv], outcomes of durable writes; tactics shared by all files.
    - [Interact]: computations that interact with a world answering each request as it likes:
      the histories that end one ([leaf]), those that starve it, predicates on all requests.
    - [Safefile] ([internal/safefile]): path checks, bounded reads, the write-rename-sync
      replacement over a file tree whose every system call may fail.
    - [FileTree]: a managed directory behind [os.Root] with failing system calls, and the monad
      of computations over it; [Catalog], [Staging], [Published] ([internal/catalog/catalog.go],
      [internal/adapters/staging.go]): the reviewed models, the stager that downloads, proves
      and publishes them, and what a published model is.
    - [Json], [Types] ([internal/domain/types.go], [memory.go], [performance.go]): the wire data,
      its zero values, field assignments and the trees [encoding/json] marshals.  [Tree]: how the
      code walks and edits trees decoded into [any], with the laws of lookups and edits.
    - [Config] ([internal/config]): strict JSON, the start-up policy and its validation.
    - [Wire]: how [encoding/json] fills the request structs; [Evidence]: the sanitized
      summaries, how stored ones are read back, and the view an advisor may see.
    - [Window], [MemoryBundle], [MemoryPlan] ([internal/memory]): telemetry windows, the sealed
      evidence bundle, and the controller's own recomputation of a memory plan.  [PerfBundle]
      ([internal/performance]): performance bundles and the fence of the experimental cache codec.
      [Sealing], [Sealed] ([internal/memory/seal.go], the [Verify] and [Copy] of both packages):
      the same bundles as directories of a disk, read, sealed and copied by writes that may fail.
      [Opening] ([config.Load], [store.Open], the lock of [internal/safefile]): what the controller
      reads, locks and creates when it starts.
    - [Domain] ([internal/domain]): roles, actions, [ValidateDraft], [Desired].
    - [Recovery] ([internal/domain/recovery.go]): the parent walk and the recovery chain.
    - [Store] ([internal/store]): state, retention, the copy-on-write [Update] and its file.
    - [Auth] ([internal/auth], [internal/admin]): credentials, sessions, revocation.
    - [Source] ([internal/source]): the canonical configuration and its compare-and-swap.
    - [Engine] ([internal/engine]): [CreatePlan], [Apply], [Cancel], [Recover], the worker's
      [execute], [finish], [Start], inspection.  [Journal], [Admission], [Execution] hold its lemmas
      and theorems; [System] interleaves it with handlers, failing writes and crashes.
    - [Http], [Api], [Access] ([internal/api]): guard, limiter, authentication, routing and every
      handler, composed from [Engine], [Store] and [Auth]; what callers may do and see.
    - [Advisor], [Advice] ([internal/advisor]): a session with the remote advisor: its budget,
      its tools and its cancellation.  [Metrics], [Summaries] ([internal/telemetry]): the fixed
      queries, the cached summary, and the labels and states of the exports.
    - [HostPolicy], [HostExec], [HostJournal] ([internal/hostexec/policy.go], [protocol.go],
      [executor.go]): the root helper's policy, admission, journal, restart and settlement.
      [Provenance], [Trust] ([policy.go]): loading the policy from a disk with links, trusted
      paths, the hashes of the installed runtime and tools, and both manifest commands.
    - [Kube] (the pure parts of [runtime.go], [inventory.go], [hardware.go]): quantities, capacity,
      the serving candidate, hardware reports, the serving status; [Capacity] and [Candidate] hold
      its theorems.  [Runtime] ([runtime.go], [hardware.go], [models.go]): a run of the helper as
      a sequence of commands, reads and writes, with [HostMemory], [HostPerf] ([memory.go],
      [performance.go]) its evidence adapters and [HostRun] its dispatch over every action;
      [Effects], [Exports]: what such a run may start, store and export.  [Inventory], [Runs]
      ([inventory.go]): the snapshot, and what runs of commands have in common.
    - [Client] ([protocol.go], [server.go], the client of [internal/worker]): both ends of the
      helper's protocol and the client of the worker.  [Live] ([internal/adapters/adapter.go]):
      the live adapter's dispatch records, executions and probes; [Dispatch]: its theorems,
      over interleaved executions, failing writes and crashes.  [Adapters], [Planning] (the rest
      of that package): start-up checks, inventory, validation and previews; [Demo]: the
      demonstration adapter.
    - [Harness], [Launch] ([internal/catalog/harness.go], [internal/client/bundle.go]): the native
      configurations of the coding clients, their directory on a disk, and the launched command.
    - [Records], [Remote], [Secrecy] ([internal/client/client.go]): what the management client
      reads, its credential, its one request and the answers it accepts.  [Commands], [Exits]
      ([internal/cli]): flags, every command of the command line, and its exit codes.
    - [Cgroup], [Worker], [Contained], [Builds] ([internal/worker]): the build worker's budgets,
      journal and HTTP handler, its cgroup, the contained build and its evidence, and the worker over time.

    How components meet.  [Engine] takes the adapter as a record of answers and theorems hold for
    every one; the stores see files only through [write_outcome], which [Safefile] shows to be
    what the replacement does; [Worker] and [Contained] reach the kernel through the class
    [cgroupFiles], whose laws [cgroupFrame] states; [HostJournal] and [Engine] share the functions of
    [Recovery].  Code that is not in the repository (SHA-256, URL and address parsing, the text
    of JSON, processes, the kernel) is an operational class or an argument, with named laws
    where a theorem needs one; each theorem with hypotheses has a closed witness.

    What the theorems show.
    - Dispatch: over every interleaving of worker, handlers, failing writes, crashes and
      restarts an operation's effects are started at most once, as it was accepted, after its
      intent is durable ([System]); one activation settles its record when storage is healthy and
      starts nothing before every precondition held ([Execution]); the straight-line [execute] is a
      schedule of the interleaved system (a refinement).
    - Admission: [Apply] accepts exactly current, intact, authorised plans within capacity and
      replays retries ([Admission]); drafts fit the observed hardware next to every reserve
      ([Domain], with the overflow that a missing bound allows).
    - Access: the store changes only for a live credential and within its role; owner-only
      material is answered only to owners; an advisory run can at most propose one plan;
      guessing is bounded ([Access], [Http]); sessions round-trip and revocation is complete ([Auth]).
      The advisor is asked only at its origin and within its budget, and succeeds only with an
      explanation of a turn that ended ([Advice]).  A telemetry summary calls nothing available
      that is older than 90 seconds, cached or not ([Summaries]).
    - Root helper: it runs an identifier once, one at a time, reports no success that is not durable,
      and fences everything behind outstanding recovery ([HostJournal]).  Before a run starts
      any change everything the code means to check was checked, and its record tells whether
      something was started ([Effects]); an accepted budget fits the node ([Capacity]); a
      rendered Deployment changes exactly what is configured, once ([Candidate]).  An accepted
      policy speaks for what is installed ([Trust]); an inventory reports only what it checked
      ([Runs]); an exported memory plan rests on preconditions that held before and after it
      was computed ([Exports]).
    - Live adapter: the effects of an operation are started at most once, bound to a record on
      disk; what is recorded is what an executor said, or asks for recovery; a probe changes
      nothing; polling is the only unbounded part ([Dispatch]).  A preview is a checked one, and
      an exported client bundle is what the client accepts ([Planning]).
    - Client: a configuration is complete or cannot be launched, and a launch runs only what was
      reviewed ([Launch]); the credential leaves only in the request and never in a message that
      can be redacted ([Secrecy]); a run of the command line posts at most once, exits with 0 only
      if nothing failed, and ends ([Exits]).
    - Builds: one at a time, each once, within request, policy and host reserves; success only
      after verified inputs, retained limits and a group seen empty ([Builds]).
    - Data: [Update] is atomic, retention keeps recovery roots ([Store]); recovery roots are
      exactly the well-formed parent paths and the walk ends on every journal ([Recovery]); a
      replaced file holds the old or the new content ([Safefile]); strict JSON is exact and drafts
      round-trip ([Config], [Wire]).
    - Models: staging publishes a model complete and verified or not at all, whatever system
      call fails, and a successful verification means a complete snapshot ([Published]).
    - Memory evidence: an accepted window is exactly a chain of valid readings ([Window]), a
      complete bundle is exactly its manifest ([MemoryBundle]), and an accepted plan is
      conservative, by numbers recomputed from the telemetry ([MemoryPlan]).  A performance
      bundle is exactly its manifest, with no unbound experimental codec ([PerfBundle]).  A seal
      lists exactly what is there and overwrites nothing; a copy is byte for byte ([Sealed]).
    - Start: a loaded policy is protected from those it governs; opening the store overwrites
      nothing and holds the lock exactly when it succeeds ([Opening]).

    Bounds and fuel.  [root_loop] and [mark_ancestors] carry fuel two above the number of
    records, which a walk that never revisits a record cannot use up (proved); [check_ancestors]
    the length of the path; [poll_group] the thirty polls of the code.  The polling loops of [Live]
    carry one unit per timer tick, as does [wait] of the command line, and [Dispatch] and [Exits]
    show that fuel runs out only after that many ticks; the polling of [Advisor] carries the
    request budget, which [Advice] shows to be enough.  Every other recursion is
    structural; [ancestors] has the length of the path, and [resolve] the bound on links that [os.Root]
    sets.  Go [int] and [int64] are [Z] with [wrap64] where the code adds or multiplies;
    times are nanoseconds in [Z], differences saturate as [Time.Sub] does.  A clock is a
    function from the index of a reading, so no two readings need agree.

    Not modelled.  Sockets: listeners, peer credentials, TLS and the transport of one HTTP
    request, whose outcome is an argument where it matters; the OpenTelemetry
    exporters; the start-up code of the programs under [cmd], which wires these parts together; the replacement of the process by
    a launched client.  Static web assets, generated contract text and the validation and
    packaging tools carry no logic of the running system.  On a [Disk] nothing else writes while an
    operation runs; evidence that changes under a reader is what the second verification of a
    copy is for, which is modelled as a check of the same disk.  Handlers are atomic per store
    transaction; contexts and timeouts appear where a loop or a walk consults them, log
    output is left out; [sync.Mutex] sections are the steps of [System]. *)
From stdpp Require Export base gmap strings list fin_maps sets.
From stdpp Require Import sorting.
From Stdlib Require Export ZArith Lia.
From Stdlib Require Export Ascii.

(** ** Errors and results *)

(** The two kinds of Go [error] value the program distinguishes: a
    [*domain.Failure] with a wire code, and a plain [errors.New] value. *)
Inductive error :=
| Failure (code message : string)
| Plain (message : string).

(** [e.Error()]. *)
Definition error_text (e : error) : string := match e with Failure _ m | Plain m => m end.

Inductive result (A : Type) :=
| Ok (a : A)
| Err (e : error).
Arguments Ok {A} a.
Arguments Err {A} e.

#[export] Instance error_eq_dec : EqDecision error.
Proof. solve_decision. Defined.

#[export] Instance result_eq_dec {A} `{EqDecision A} : EqDecision (result A).
Proof. solve_decision. Defined.

#[export] Instance result_ret : MRet result := λ A a, Ok a.
#[export] Instance result_bind : MBind result := λ A B f m,
  match m with Ok a => f a | Err e => Err e end.

Definition is_ok {A} (r : result A) : bool := match r with Ok _ => true | Err _ => false end.

(** [errors.As(err, &f)] for [f *domain.Failure]. *)
Definition as_failure (e : error) : option (string * string) :=
  match e with Failure c m => Some (c, m) | Plain _ => None end.

Declare Scope go_scope.
Delimit Scope go_scope with go.

(** A guarded early return: [if cond { return err }; rest]. *)
Notation "'reject' c 'with' e ';;' k" := (if c then Err e else k)
  (at level 10, c at level 99, e at level 99, k at level 200,
   format "'reject'  c  'with'  e  ';;' '//' k") : go_scope.

(** Field update written in the order of the Go assignments. *)
Notation "r '|>' f" := (f r) (at level 61, left associativity, only parsing) : go_scope.

(** Go string (in)equality as a boolean. *)
Notation "a =s b" := (String.eqb a b) (at level 70, no associativity) : go_scope.
Notation "a <>s b" := (negb (String.eqb a b)) (at level 70, no associativity) : go_scope.
#[global] Open Scope go_scope.
#[global] Open Scope string_scope.
#[global] Open Scope list_scope.
#[global] Open Scope Z_scope.
#[export] Set Warnings "-clear-no-such-hyp".

(** ** Booleans and strings *)

Definition is_some {A} (o : option A) : bool := match o with Some _ => true | None => false end.

Definition str_in (s : string) (l : list string) : bool := existsb (String.eqb s) l.

Lemma existsb_false {A} (f : A → bool) (l : list A) : existsb f l = false ↔ Forall (λ x, f x = false) l.
Proof.
  induction l as [|x l IH]; simpl; [split; auto|]. rewrite orb_false_iff, IH. split.
  - intros []. by constructor.
  - by inversion 1.
Qed.

Lemma str_in_spec s l : str_in s l = true ↔ s ∈ l.
Proof.
  unfold str_in. rewrite existsb_exists, list_elem_of_In. split.
  - intros (x & Hin & ->%String.eqb_eq). done.
  - intros Hin. exists s. by rewrite String.eqb_refl.
Qed.

Lemma eqb_str_refl s : (s =s s) = true.
Proof. apply String.eqb_refl. Qed.

Lemma neqb_str s t : s ≠ t → (s =s t) = false.
Proof. apply String.eqb_neq. Qed.

Lemma surjective_pairing2 {A B C} (p : A * B * C) : p = (p.1.1, p.1.2, p.2).
Proof. by destruct p as [[]]. Qed.

Lemma bind_ok {A B} (m : result A) (f : A → result B) b :
  m ≫= f = Ok b → ∃ a, m = Ok a ∧ f a = Ok b.
Proof. destruct m as [a|e]; [eauto|done]. Qed.

(** ** Case analysis tactics *)

(** Split one [if]/[match] of a hypothesis that fixes the outcome of a guarded
    computation, discarding the branches whose outcome differs. *)
Ltac split_hyp H :=
  repeat (cbv beta zeta in H;
    lazymatch type of H with
    | Ok ?a = Ok ?a => clear H
    | Ok _ = Ok _ => injection H; clear H; intros; subst
    | Err _ = Err _ => injection H; clear H; intros; subst
    | Ok _ = Err _ => discriminate H
    | Err _ = Ok _ => discriminate H
    | mbind _ _ = Ok _ =>
        let Hb := fresh "Hb" in apply bind_ok in H; destruct H as (? & Hb & H)
    | (if ?c then _ else _) = _ => destruct c eqn:?; try discriminate H
    | match ?c with _ => _ end = _ => destruct c eqn:?; try discriminate H
    end; try discriminate).

(** Turn boolean hypotheses over the Go operators into propositions. *)
Ltac bool_hyps :=
  repeat match goal with
  | H : (_ || _) = false |- _ => apply orb_false_iff in H; destruct H
  | H : (_ && _) = true |- _ => apply andb_true_iff in H; destruct H
  | H : negb _ = false |- _ => apply negb_false_iff in H
  | H : negb _ = true |- _ => apply negb_true_iff in H
  | H : String.eqb _ _ = true |- _ => apply String.eqb_eq in H
  | H : String.eqb _ _ = false |- _ => apply String.eqb_neq in H
  | H : Z.ltb _ _ = false |- _ => apply Z.ltb_ge in H
  | H : Z.ltb _ _ = true |- _ => apply Z.ltb_lt in H
  | H : Z.leb _ _ = false |- _ => apply Z.leb_gt in H
  | H : Z.leb _ _ = true |- _ => apply Z.leb_le in H
  | H : Z.gtb _ _ = false |- _ => rewrite Z.gtb_ltb in H; apply Z.ltb_ge in H
  | H : Z.gtb _ _ = true |- _ => rewrite Z.gtb_ltb in H; apply Z.ltb_lt in H
  | H : Z.geb _ _ = false |- _ => rewrite Z.geb_leb in H; apply Z.leb_gt in H
  | H : Z.geb _ _ = true |- _ => rewrite Z.geb_leb in H; apply Z.leb_le in H
  | H : Z.eqb _ _ = true |- _ => apply Z.eqb_eq in H
  | H : Z.eqb _ _ = false |- _ => apply Z.eqb_neq in H
  | H : Nat.ltb _ _ = true |- _ => apply Nat.ltb_lt in H
  | H : Nat.ltb _ _ = false |- _ => apply Nat.ltb_ge in H
  | H : Nat.leb _ _ = true |- _ => apply Nat.leb_le in H
  | H : Nat.leb _ _ = false |- _ => apply Nat.leb_gt in H
  end.

(** Split the outermost [if]/[match] of the goal. *)
Ltac split_goal :=
  match goal with
  | |- context [if ?c then _ else _] => destruct c eqn:?
  | |- context [match ?c with _ => _ end] => destruct c eqn:?
  end.

(** ** Machine integers *)

(** Go [int] and [int64] on the 64-bit targets: arithmetic wraps. *)
Definition wrap64 (z : Z) : Z := (z + 2^63) mod 2^64 - 2^63.
Definition add64 (a b : Z) : Z := wrap64 (a + b).
Definition mul64 (a b : Z) : Z := wrap64 (a * b).
Definition shl64 (a n : Z) : Z := wrap64 (Z.shiftl a n).
Definition in_int64 (z : Z) : Prop := - 2^63 ≤ z < 2^63.
Definition sub64 (a b : Z) : Z := wrap64 (a - b).
(** Go [uint64] increment. *)
Definition incu64 (n : Z) : Z := (n + 1) mod 2^64.

Lemma wrap64_id z : in_int64 z → wrap64 z = z.
Proof. unfold in_int64, wrap64. intros. rewrite Z.mod_small; lia. Qed.

Lemma add64_id a b : in_int64 (a + b) → add64 a b = a + b.
Proof. apply wrap64_id. Qed.

Lemma wrap64_range z : in_int64 (wrap64 z).
Proof.
  unfold in_int64, wrap64.
  pose proof (Z.mod_pos_bound (z + 2^63) (2^64) ltac:(lia)). lia.
Qed.

Lemma mul64_id a b : in_int64 (a * b) → mul64 a b = a * b.
Proof. apply wrap64_id. Qed.

(** Replace wrapping operations by integer ones where the context bounds them. *)
Ltac unwrap64 :=
  repeat match goal with
  | H : context [add64 ?a ?b] |- _ => rewrite (add64_id a b) in H by (unfold in_int64; lia)
  | H : context [mul64 ?a ?b] |- _ => rewrite (mul64_id a b) in H by (unfold in_int64; lia)
  end.

(** ** Time *)

(** [time.Time] as nanoseconds since the Unix epoch (no location), [time.Duration]
    as nanoseconds in an [int64]. *)
Abbreviation time := Z.
Abbreviation duration := Z.
Definition Second : duration := 1000000000.
Definition Minute : duration := 60 * Second.
Definition Hour : duration := 60 * Minute.
(** The zero [time.Time]: 1 January of year 1, UTC. *)
Definition zeroTime : time := -62135596800 * Second.

(** [t.Sub(u)] saturates at the bounds of [time.Duration]. *)
Definition time_sub (t u : time) : duration := Z.max (- 2^63) (Z.min (2^63 - 1) (t - u)).
(** [t.After(u)] and [t.Before(u)]. *)
Definition after (t u : time) : bool := Z.ltb u t.
Definition before (t u : time) : bool := Z.ltb t u.

(** The successive readings of [time.Now()] in one activation; nothing relates
    two readings. *)
Abbreviation clock := (nat → time).

(** ** Durable writes *)

(** What a write-rename-sync replacement of a file did: it succeeded, or it returned an
    error with or without the file having been replaced. *)
Inductive write_outcome := Written | WriteFailed (replaced : bool).

(** ** Bounded suffixes *)

(** [s[len(s)-n:]] when the slice is longer than [n], the slice itself otherwise. *)
Definition keep_last {A} (n : nat) (l : list A) : list A := drop (length l - n) l.

Lemma length_keep_last {A} n (l : list A) : length (keep_last n l) = Nat.min n (length l).
Proof. unfold keep_last. rewrite length_drop. lia. Qed.

Lemma keep_last_suffix {A} n (l : list A) : keep_last n l `suffix_of` l.
Proof. unfold keep_last. exists (take (length l - n) l). by rewrite take_drop. Qed.

Lemma keep_last_elem {A} n (l : list A) x : x ∈ keep_last n l → x ∈ l.
Proof. destruct (keep_last_suffix n l) as [k Hk]. intros. rewrite Hk. apply elem_of_app. auto. Qed.

Lemma keep_last_all {A} n (l : list A) : (length l ≤ n)%nat → keep_last n l = l.
Proof. intros. unfold keep_last. replace (length l - n)%nat with 0%nat by lia. done. Qed.

(** Appending one element to a bounded log never loses it. *)
Lemma keep_last_snoc {A} n (l : list A) x : (0 < n)%nat → last (keep_last n (l ++ [x])) = Some x.
Proof.
  intros Hn. unfold keep_last. rewrite length_app. simpl.
  rewrite drop_app_le by lia. by rewrite last_snoc.
Qed.

(** ** Character classes and the source's regular expressions *)

Abbreviation chars := String.list_ascii_of_string.

Definition chr_between (lo hi c : ascii) : bool :=
  (N_of_ascii lo <=? N_of_ascii c)%N && (N_of_ascii c <=? N_of_ascii hi)%N.
Definition is_digit : ascii → bool := chr_between "0"%char "9"%char.
Definition is_lower : ascii → bool := chr_between "a"%char "z"%char.
Definition is_upper : ascii → bool := chr_between "A"%char "Z"%char.
Definition is_alnum (c : ascii) : bool := is_lower c || is_upper c || is_digit c.
Definition is_hex (c : ascii) : bool := chr_between "a"%char "f"%char c || is_digit c.
Definition all_chars (p : ascii → bool) (s : string) : bool := forallb p (chars s).
Definition str_len (s : string) : Z := Z.of_nat (String.length s).

(** [^\[a-f0-9\]{n}$]. *)
Definition hex_string (n : Z) (s : string) : bool := (str_len s =? n) && all_chars is_hex s.
(** [^\[a-zA-Z0-9\]rest{lo,hi}$]: an alphanumeric head and [lo..hi] further characters. *)
Definition headed_name (rest : ascii → bool) (lo hi : Z) (s : string) : bool :=
  match s with
  | EmptyString => false
  | String c t => is_alnum c && (lo <=? str_len t) && (str_len t <=? hi) && all_chars rest t
  end.

(** [strings.HasPrefix], [strings.Contains]. *)
Definition has_prefix (s p : string) : bool := String.prefix p s.
Definition contains (s sub : string) : bool := is_some (String.index 0 sub s).
(** [strings.HasSuffix], [strings.TrimPrefix]. *)
Fixpoint has_suffix (s suffix : string) : bool :=
  String.eqb s suffix || match s with String _ s => has_suffix s suffix | EmptyString => false end.
Definition trim_prefix (s p : string) : string :=
  if has_prefix s p then String.substring (String.length p) (String.length s - String.length p) s else s.
(** [strings.TrimSuffix]. *)
Definition trim_suffix (s suffix : string) : string :=
  if has_suffix s suffix then String.substring 0 (String.length s - String.length suffix) s else s.
(** [strings.Cut] at the first equals sign. *)
Definition cut_equals (line : string) : option (string * string) :=
  match String.index 0 "=" line with
  | Some n => Some (String.substring 0 n line, String.substring (S n) (String.length line) line)
  | None => None
  end.
(** [strings.TrimFunc]. *)
Fixpoint trim_left (p : ascii → bool) (s : string) : string :=
  match s with String c t => if p c then trim_left p t else s | EmptyString => s end.
Definition string_rev (s : string) : string := String.string_of_list_ascii (rev (chars s)).
Definition trim_by (p : ascii → bool) (s : string) : string := string_rev (trim_left p (string_rev (trim_left p s))).

(** [strings.Split(s, c)] for a one-character separator. *)
Fixpoint split_on (c : ascii) (s : string) : list string :=
  match s with
  | EmptyString => [""]
  | String a s =>
    let rest := split_on c s in
    if Ascii.eqb a c then "" :: rest
    else match rest with [] => [String a ""] | w :: ws => String a w :: ws end
  end.

(** [filepath.IsAbs(p) && filepath.Clean(p) == p] on Unix: the path is ["/"] or
    has no empty, ["."] or [".."] component after the leading slash. *)
Definition canonical_path (p : string) : bool :=
  match p with
  | String "/"%char "" => true
  | String "/"%char s => forallb (λ w, negb (str_in w [""; "."; ".."])) (split_on "/"%char s)
  | _ => false
  end.

Definition is_space (c : ascii) : bool := chr_between "009"%char "013"%char c || Ascii.eqb c " "%char.
(** [strings.TrimSpace]: leading and trailing white space, the encodings of the wide spaces
    included. *)
Definition byte_in (c : ascii) (l : list N) : bool := existsb (N.eqb (N_of_ascii c)) l.
Definition wide2 (a b : ascii) : bool := byte_in a [194%N] && byte_in b [133; 160]%N.
Definition wide3 (a b c : ascii) : bool :=
  (byte_in a [225%N] && byte_in b [154%N] && byte_in c [128%N])
  || (byte_in a [226%N] && byte_in b [128%N] && (chr_between "128"%char "138"%char c || byte_in c [168; 169; 175]%N))
  || (byte_in a [226%N] && byte_in b [129%N] && byte_in c [159%N]) || (byte_in a [227%N] && byte_in b [128%N] && byte_in c [128%N]).
Fixpoint skip_space (ordered : bool) (l : list ascii) : list ascii :=
  match l with
  | [] => []
  | a :: l1 =>
    if is_space a then skip_space ordered l1 else
    match l1 with
    | [] => l
    | b :: l2 =>
      if (if ordered then wide2 a b else wide2 b a) then skip_space ordered l2 else
      match l2 with
      | [] => l
      | c :: l3 => if (if ordered then wide3 a b c else wide3 c b a) then skip_space ordered l3 else l
      end
    end
  end.
Definition TrimSpace (s : string) : string :=
  String.string_of_list_ascii (rev (skip_space false (rev (skip_space true (chars s))))).

(** [strings.Fields] on ASCII text: the maximal runs without white space. *)
Fixpoint fields_from (cur s : string) : list string :=
  match s with
  | EmptyString => if cur =s "" then [] else [cur]
  | String c s =>
    if is_space c then (if cur =s "" then fields_from "" s else cur :: fields_from "" s)
    else fields_from (cur +:+ String c "") s
  end.
Definition fields : string → list string := fields_from "".
Definition newline : ascii := "010"%char.

(** [filepath.Clean] on Unix: the components of the path on a stack, [rooted] when it
    starts with a slash. *)
Definition clean_push (rooted : bool) (stack : list string) (w : string) : list string :=
  if (w =s "") || (w =s ".") then stack
  else if w =s ".." then
    match stack with
    | [] => if rooted then [] else [".."]
    | top :: below => if top =s ".." then w :: stack else below
    end
  else w :: stack.
Definition clean (p : string) : string :=
  let rooted := has_prefix p "/" in
  let body := String.concat "/" (rev (fold_left (clean_push rooted) (split_on "/"%char p) [])) in
  if rooted then "/" +:+ body else if body =s "" then "." else body.
(** [filepath.Join] of a directory and a name. *)
Definition path_join (dir name : string) : string :=
  if dir =s "" then (if name =s "" then "" else clean name)
  else clean (dir +:+ "/" +:+ name).
Definition is_abs (p : string) : bool := has_prefix p "/".

(** [strconv.ParseInt(s, 10, 64)] and [strconv.ParseUint(s, 10, 64)]: [None] is an error. *)
Fixpoint digits_value (acc : Z) (s : string) : option Z :=
  match s with
  | EmptyString => Some acc
  | String c s => if is_digit c then digits_value (10 * acc + (Z.of_N (N_of_ascii c) - 48)) s else None
  end.
Definition ParseUint (s : string) : option Z :=
  match s with
  | EmptyString => None
  | _ => match digits_value 0 s with
         | Some v => if v <? 2^64 then Some v else None
         | None => None
         end
  end.
Definition parse_signed (neg : bool) (s : string) : option Z :=
  match s with
  | EmptyString => None
  | _ => match digits_value 0 s with
         | Some v => let v := if neg then - v else v in
             if (- 2^63 <=? v) && (v <? 2^63) then Some v else None
         | None => None
         end
  end.
Definition ParseInt (s : string) : option Z :=
  match s with
  | EmptyString => None
  | String c t => if Ascii.eqb c "+" then parse_signed false t
                  else if Ascii.eqb c "-" then parse_signed true t else parse_signed false s
  end.

Lemma ParseInt_range s v : ParseInt s = Some v → in_int64 v.
Proof.
  unfold in_int64. assert (∀ neg t, parse_signed neg t = Some v → - 2^63 ≤ v < 2^63) as Hs.
  { intros neg t. unfold parse_signed. destruct t as [|c t]; [done|]. destruct (digits_value _ _) as [n|]; [|done]. cbv zeta.
    destruct (_ && _) eqn:Hb; [|done]. intros [= <-]. bool_hyps. lia. }
  unfold ParseInt. destruct s as [|c s]; [done|]. destruct (Ascii.eqb c "+"); [apply Hs|].
  destruct (Ascii.eqb c "-"); apply Hs.
Qed.

Lemma length_chars s : length (chars s) = String.length s.
Proof. induction s; simpl; congruence. Qed.

(** The order of [sort.Strings], of [slices.Sort] and of directory listings. *)
Definition str_le (a b : string) : Prop := String.leb a b = true.
#[export] Instance str_le_dec a b : Decision (str_le a b).
Proof. unfold str_le. apply _. Defined.
Definition sort_strings (l : list string) : list string := merge_sort str_le l.

(** File stems in the order of a listing of the files [stem.json]. *)
Definition stem_le (a b : string) : Prop := str_le (a +:+ ".json") (b +:+ ".json").
#[export] Instance stem_le_dec a b : Decision (stem_le a b).
Proof. unfold stem_le. apply _. Defined.
Definition sort_files (l : list string) : list string := merge_sort stem_le l.

Lemma elem_of_sort_files l x : x ∈ sort_files l ↔ x ∈ l.
Proof. unfold sort_files. by rewrite merge_sort_Permutation. Qed.

Lemma elem_of_sort_strings l x : x ∈ sort_strings l ↔ x ∈ l.
Proof. unfold sort_strings. by rewrite merge_sort_Permutation. Qed.

(** ** Finite sets *)

(** Marking one more element of a finite universe shrinks what is left to mark:
    the measure of the program's worklist loops. *)
Lemma size_mark (X seen : gset string) (x : string) :
  x ∈ X → x ∉ seen → (size (X ∖ ({[x]} ∪ seen)) < size (X ∖ seen))%nat.
Proof.
  intros Hx Hs. apply subset_size. split; [set_solver|].
  intros Hsub. apply (not_elem_of_empty (C:=gset string) x).
  assert (x ∈ X ∖ ({[x]} ∪ seen)) as Hin by (apply Hsub; set_solver). clear -Hin. set_solver.
Qed.

(** A duplicate-free list within a finite set of the same size covers it. *)
Lemma covers_all (l : list string) (X : gset string) :
  NoDup l → (∀ x, x ∈ l → x ∈ X) → length l = size X → ∀ x, x ∈ X → x ∈ l.
Proof.
  intros Hnd Hin Hlen x Hx.
  assert (list_to_set l = X) as <-; [|by apply elem_of_list_to_set in Hx].
  apply set_subseteq_size_eq; [set_solver|]. rewrite size_list_to_set by done. lia.
Qed.

(** ** Paths *)

Lemma split_on_nonempty c s : ∃ w ws, split_on c s = w :: ws.
Proof. destruct s as [|a s]; simpl; [eauto|]. destruct (Ascii.eqb a c); [eauto|]. destruct (split_on c s); eauto. Qed.

Lemma split_on_app c s t : split_on c (s +:+ String c t) = split_on c s ++ split_on c t.
Proof.
  induction s as [|a s IH]; simpl.
  - rewrite Ascii.eqb_refl. done.
  - rewrite IH. destruct (Ascii.eqb a c); [done|].
    destruct (split_on_nonempty c s) as (w & ws & ->). done.
Qed.

(** One path component: not empty, no slash, not ["."] or [".."]. *)
Definition plain_name (n : string) : bool :=
  negb (str_in n [""; "."; ".."]) && all_chars (λ c, negb (Ascii.eqb c "/"%char)) n.

Lemma split_on_plain n : plain_name n = true → split_on "/"%char n = [n].
Proof.
  unfold plain_name, all_chars. intros [_ Hc]%andb_true_iff. induction n as [|a n IH]; [done|]. simpl in *.
  apply andb_true_iff in Hc as [Ha%negb_true_iff Hc]. rewrite Ha, IH by done. done.
Qed.

Lemma append_str_assoc (s t u : string) : s +:+ (t +:+ u) = (s +:+ t) +:+ u.
Proof. induction s as [|a s IH]; [done|]. exact (f_equal (String a) IH). Qed.

Lemma concat_snoc l : ∃ pre, ∀ n, String.concat "/" (l ++ [n]) = pre +:+ n.
Proof.
  induction l as [|w l [pre IH]]; [by exists ""|]. exists (w +:+ "/" +:+ pre). intros n.
  rewrite <- !append_str_assoc, <- IH. simpl. by destruct l.
Qed.

Lemma has_slash a s : has_prefix (String a s) "/" = Ascii.eqb "/" a.
Proof.
  unfold has_prefix. cbn [String.prefix]. generalize "/"%char as c. intros c.
  destruct (ascii_dec c a) as [<-|Hne]; [rewrite Ascii.eqb_refl; by destruct s|].
  symmetry. by apply Ascii.eqb_neq.
Qed.

(** The names of a directory get distinct paths. *)
Lemma path_join_prefix dir : ∃ pre, ∀ n, plain_name n = true → path_join dir n = pre +:+ n.
Proof.
  destruct (concat_snoc (rev (fold_left (clean_push (has_prefix (dir +:+ "/") "/")) (split_on "/"%char dir) []))) as [pre Hpre].
  exists (if dir =s "" then "" else if has_prefix (dir +:+ "/") "/" then "/" +:+ pre else pre). intros n Hn.
  pose proof (split_on_plain n Hn) as Hs. unfold plain_name in Hn. apply andb_true_iff in Hn as [Hn Hc].
  assert (∀ r st, clean_push r st n = n :: st) as Hpush.
  { intros r st. unfold clean_push, str_in in *. simpl in Hn.
    destruct (String.eqb n ""), (String.eqb n "."), (String.eqb n ".."); done. }
  unfold path_join. destruct (String.eqb_spec dir "") as [->|Hne].
  - assert ((n =s "") = false) as He by (unfold str_in in Hn; simpl in Hn; by destruct (String.eqb n "")).
    rewrite He. unfold clean. rewrite Hs. simpl. rewrite Hpush. simpl.
    assert (has_prefix n "/" = false) as ->; [|by rewrite He].
    destruct n as [|a n]; [done|]. unfold all_chars in Hc. simpl in Hc. unfold has_prefix, String.prefix.
    destruct (ascii_dec "/" a) as [<-|]; done.
  - change ("/" +:+ n) with (String "/" n). unfold clean. rewrite (split_on_app "/"%char dir n), Hs, fold_left_app. simpl. rewrite Hpush. simpl.
    assert (has_prefix (dir +:+ String "/" n) "/" = has_prefix (dir +:+ "/") "/") as -> by (destruct dir as [|a dir]; [done|]; exact (eq_trans (has_slash a _) (eq_sym (has_slash a _)))).
    rewrite Hpre. destruct (has_prefix (dir +:+ "/") "/"); [by rewrite append_str_assoc|].
    destruct (String.eqb_spec (pre +:+ n) "") as [He|]; [|done].
    destruct pre, n; simpl in *; done.
Qed.

Lemma path_join_inj dir a b :
  plain_name a = true → plain_name b = true → path_join dir a = path_join dir b → a = b.
Proof.
  destruct (path_join_prefix dir) as [pre Hp]. intros Ha Hb. rewrite !Hp by done. apply (inj (String.append pre)).
Qed.
