(* ===== verification/Interact.v ===== *)
(** Methods as trees of interactions: each node is one call to another component or one
    section under a lock, and the branches are its possible answers.  What a method may do
    and conclude is then a statement about its paths. *)
From S2P Require Import Prelude.

(** [Stuck]: the fuel of a loop ran out. *)
Inductive Run {E : Type} (answer : E → Type) (A : Type) : Type :=
| Ret (a : A)
| Do (e : E) (k : answer e → Run answer A)
| Stuck.
Arguments Ret {E answer A} a.
Arguments Do {E answer A} e k.
Arguments Stuck {E answer A}.

Section Interact.
Context {E : Type} {answer : E → Type}.
#[local] Abbreviation Run := (Run answer).

Fixpoint run_bind {A B} (f : A → Run B) (m : Run A) : Run B :=
  match m with
  | Ret a => f a
  | Do e k => Do e (λ v, run_bind f (k v))
  | Stuck => Stuck
  end.
#[export] Instance run_ret : MRet Run := λ A a, Ret a.
#[export] Instance run_mbind : MBind Run := λ A B f m, run_bind f m.
Definition act (e : E) : Run (answer e) := Do e Ret.

(** ** Histories *)

(** An interaction with its answer. *)
Abbreviation event := {e : E & answer e}.
Definition ev (e : E) (v : answer e) : event := existT e v.

(** [leaf m h a]: answered as in [h], the method returns [a]. *)
Fixpoint leaf {A} (m : Run A) (h : list event) (a : A) : Prop :=
  match m with
  | Ret b => h = [] ∧ a = b
  | Stuck => False
  | Do e k => ∃ v h', h = ev e v :: h' ∧ leaf (k v) h' a
  end.
(** [starved m h]: answered as in [h], the method runs out of fuel. *)
Fixpoint starved {A} (m : Run A) (h : list event) : Prop :=
  match m with
  | Ret _ => False
  | Stuck => h = []
  | Do e k => ∃ v h', h = ev e v :: h' ∧ starved (k v) h'
  end.
(** [every P m]: whatever is answered, each interaction satisfies [P]. *)
Fixpoint every (P : E → Prop) {A} (m : Run A) : Prop :=
  match m with Ret _ | Stuck => True | Do e k => P e ∧ ∀ v, every P (k v) end.
(** [total m]: the fuel never runs out. *)
Fixpoint total {A} (m : Run A) : Prop := match m with Ret _ => True | Stuck => False | Do e k => ∀ v, total (k v) end.

Lemma leaf_bind {A B} (f : A → Run B) m : ∀ h b,
  leaf (m ≫= f) h b ↔ ∃ h1 a h2, h = h1 ++ h2 ∧ leaf m h1 a ∧ leaf (f a) h2 b.
Proof.
  induction m as [a|e k IH|]; intros h b.
  - split; [intros Hl; by exists [], a, h|]. intros (h1 & a' & h2 & -> & [-> ->] & Hl). done.
  - change (leaf (Do e k ≫= f) h b) with (∃ v h', h = ev e v :: h' ∧ leaf (k v ≫= f) h' b). split.
    + intros (v & h' & -> & (h1 & a & h2 & -> & H1 & H2)%IH). exists (ev e v :: h1), a, h2. split; [done|]. split; [|done]. by exists v, h1.
    + intros (h1 & a & h2 & -> & (v & h' & -> & H1) & H2). exists v, (h' ++ h2). split; [done|]. apply IH. eauto 10.
  - split; [done|]. by intros (? & ? & ? & _ & [] & _).
Qed.
Lemma starved_bind {A B} (f : A → Run B) m : ∀ h,
  starved (m ≫= f) h → starved m h ∨ ∃ h1 a h2, h = h1 ++ h2 ∧ leaf m h1 a ∧ starved (f a) h2.
Proof.
  induction m as [a|e k IH|]; intros h.
  - intros Hl. right. by exists [], a, h.
  - intros (v & h' & -> & [Hs|(h1 & a & h2 & -> & H1 & H2)]%IH).
    + left. by exists v, h'.
    + right. exists (ev e v :: h1), a, h2. split; [done|]. split; [|done]. by exists v, h1.
  - by left.
Qed.
Lemma every_bind P {A B} (f : A → Run B) m : every P m → (∀ a, every P (f a)) → every P (m ≫= f).
Proof. intros Hm Hf. induction m as [a|e k IH|]; [apply Hf| |done]. destruct Hm as [He Hk]. split; [done|]. intros v. by apply IH. Qed.
Lemma every_impl (P Q : E → Prop) {A} (m : Run A) : (∀ e, P e → Q e) → every P m → every Q m.
Proof. intros HPQ. induction m as [a|e k IH|]; [done| |done]. intros [He Hk]. split; [auto|]. intros v. by apply IH. Qed.
Lemma every_leaf P {A} (m : Run A) : ∀ h a, every P m → leaf m h a → Forall (λ i : event, P (projT1 i)) h.
Proof.
  induction m as [b|e k IH|]; intros h a; [intros _ [-> _]; constructor| |done].
  intros [He Hk] (v & h' & -> & Hl). constructor; [done|]. by eapply IH.
Qed.
Lemma total_bind {A B} (f : A → Run B) m : total m → (∀ a, total (f a)) → total (m ≫= f).
Proof. intros Hm Hf. induction m as [a|e k IH|]; [apply Hf| |done]. intros v. apply IH, Hm. Qed.
Lemma total_after {A B} (f : A → Run B) m : total m → (∀ h a, leaf m h a → total (f a)) → total (m ≫= f).
Proof.
  induction m as [a|e k IH|]; intros Hm Hf; [by apply (Hf [] a)| |done]. intros v. apply IH; [apply Hm|].
  intros h a Hl. apply (Hf (ev e v :: h)). by exists v, h.
Qed.
Lemma total_starved {A} (m : Run A) : total m → ∀ h, ¬ starved m h.
Proof. induction m as [a|e k IH|]; intros Ht h; [by intros []| |done]. intros (v & h' & -> & Hs). by apply (IH v (Ht v) h'). Qed.

(** A method under an environment that answers every interaction. *)
Fixpoint play {A} (o : ∀ e, answer e) (m : Run A) : option (list event * A) :=
  match m with
  | Ret a => Some ([], a)
  | Stuck => None
  | Do e k => match play o (k (o e)) with Some (h, a) => Some (ev e (o e) :: h, a) | None => None end
  end.
Lemma play_leaf {A} o (m : Run A) : ∀ h a, play o m = Some (h, a) → leaf m h a.
Proof.
  induction m as [b|e k IH|]; intros h a; cbn; [by intros [= <- <-]| |done].
  destruct (play o (k (o e))) as [[h' b]|] eqn:Hp; [|done]. intros [= <- <-]. exists (o e), h'. split; [done|]. by apply IH.
Qed.
End Interact.

(** Read a history off the interactions of a method. *)
Ltac leaf_inv H :=
  repeat first
    [ progress cbn beta iota zeta in H
    | match type of H with
      | leaf (mbind _ _) _ _ =>
        let h1 := fresh "h" in let a := fresh "a" in let h2 := fresh "h" in let H1 := fresh "Hl" in
        apply leaf_bind in H as (h1 & a & h2 & -> & H1 & H); leaf_inv H1
      | leaf (mret _) _ _ => destruct H as [-> ->]
      | leaf (Ret _) _ _ => destruct H as [-> ->]
      | leaf Stuck _ _ => destruct H
      | leaf (act _) _ _ =>
        let v := fresh "v" in let h := fresh "h" in
        destruct H as (v & h & -> & H); destruct H as [-> ->]
      end ].

(** Structural part of a proof about every interaction of a method, and about its fuel. *)
Ltac every_act :=
  repeat first
    [ done
    | progress intros
    | progress cbn beta iota zeta
    | match goal with
      | |- every _ (mbind _ _) => apply every_bind
      | |- every _ (mret _) => exact I
      | |- every _ (act _) => split; [done|]
      | |- every _ (match ?c with _ => _ end) => destruct c
      end ].
Ltac total :=
  repeat first
    [ done
    | progress intros
    | progress cbn beta iota zeta
    | match goal with
      | |- total (mbind _ _) => apply total_bind
      | |- total (mret _) => exact I
      | |- total (act _) => intro; exact I
      | |- total (match ?c with _ => _ end) => destruct c
      end ].
