(* ===== verification/Safefile.v ===== *)
(** Bounded reads and durable replacements ([internal/safefile/files.go]).

    The file system is a table of nodes by canonical path; each system call that may fail
    takes its answer from the environment.  The theorems justify the abstraction the
    other files use: a replacement is one [write_outcome]. *)
From S2P Require Import Prelude.

(** [NFile] carries the permission bits and the content. *)
Inductive Node := NDir (perm : Z) | NSymlink | NFile (perm : Z) (content : string).
Abbreviation FileSystem := (gmap string Node).

(** The answers of the system calls of one function. *)
Record Sys := mkSys {
  (** [os.Lstat] fails for a reason other than absence *)
  sy_lstat : string → bool;
  (** the name [os.CreateTemp] drew *)
  sy_temp : option string;
  sy_open : bool;
  sy_chmod : bool;
  sy_chown : bool;
  sy_write : bool;
  sy_sync : bool;
  sy_close : bool;
  (** what is in a file whose write, sync or close failed: a part, or anything else *)
  sy_left : string;
  sy_rename : bool;
  sy_syncdir : bool;
  sy_remove : bool }.

(** [filepath.Dir]: what stands before the last slash, cleaned. *)
Definition path_dir (p : string) : string :=
  clean (String.concat "/" (removelast (split_on "/"%char p) ++ [""])).

(** The loop of [CheckPath] from the path up to the root; a canonical path has fewer
    ancestors than characters. *)
Fixpoint check_ancestors (sy : Sys) (fs : FileSystem) (fuel : nat) (p : string) : result unit :=
  match fuel with
  | O => Err (Plain "path has too many components")
  | S fuel =>
    reject sy_lstat sy p with Plain "lstat" ;;
    reject match fs !! p with Some NSymlink => true | _ => false end with Plain "symlink paths are forbidden" ;;
    if path_dir p =s p then Ok tt else check_ancestors sy fs fuel (path_dir p)
  end.

Definition CheckPath (sy : Sys) (fs : FileSystem) (p : string) : result unit :=
  reject negb (is_abs p) || (clean p <>s p) with Plain "path must be absolute and canonical" ;;
  check_ancestors sy fs (S (String.length p)) p.

(** [Read]: [grown] is what [io.ReadAll] delivers, which may exceed the size seen first. *)
Definition safe_Read (sy : Sys) (fs : FileSystem) (p : string) (max : Z) (grown : string) : result string :=
  _ ← CheckPath sy fs p;
  reject negb (sy_open sy) with Plain "open" ;;
  match fs !! p with
  | Some (NFile _ content) =>
    reject str_len content >? max with Plain "not a bounded regular file" ;;
    reject str_len grown >? max with Plain "file exceeds size limit" ;;
    Ok grown
  | None => Err (Plain "open")
  | Some _ => Err (Plain "not a bounded regular file")
  end.

(** What a new file holds after its chmod, chown, write, sync and close, in this order: what a
    step leaves undone is not there, and a failed write, sync or close leaves [sy_left]. *)
Definition written (sy : Sys) (b : string) : string :=
  if sy_chown sy then if sy_write sy && sy_sync sy && sy_close sy then b else sy_left sy else "".
(** [Replace] after the destination was inspected, with the permission bits to set. *)
Definition replace_at (sy : Sys) (fs : FileSystem) (p b : string) (mode : Z) : FileSystem * result unit :=
  match sy_temp sy with
  | None => (fs, Err (Plain "temp"))
  | Some name =>
    if is_some (fs !! name) then (fs, Err (Plain "temp")) else
    let drop (fs : FileSystem) := if sy_remove sy then delete name fs else fs in
    let temp := if sy_chmod sy then NFile mode (written sy b) else NFile 384 "" in
    let fs1 := <[name := temp]> fs in
    if negb (sy_chmod sy && sy_chown sy && sy_write sy && sy_sync sy && sy_close sy) then (drop fs1, Err (Plain "write"))
    else if negb (sy_rename sy) then (drop fs1, Err (Plain "rename"))
    else
      let fs2 := <[p := temp]> (delete name fs1) in
      (fs2, if sy_syncdir sy then Ok tt else Err (Plain "sync"))
  end.

Definition Replace (sy : Sys) (fs : FileSystem) (p b : string) (mode : Z) : FileSystem * result unit :=
  match CheckPath sy fs p with
  | Err e => (fs, Err e)
  | Ok _ =>
    match fs !! p with
    | Some (NFile perm _) => replace_at sy fs p b perm
    | Some _ => (fs, Err (Plain "destination is not a regular file"))
    | None => replace_at sy fs p b mode
    end
  end.

Definition CreateSecret (sy : Sys) (fs : FileSystem) (p b : string) : FileSystem * result unit :=
  match CheckPath sy fs p with
  | Err e => (fs, Err e)
  | Ok _ =>
    match fs !! path_dir p with
    | Some (NDir perm) =>
      if negb (Z.land perm 63 =? 0) then (fs, Err (Plain "credential output directory must be owner-only (0700)"))
      else if is_some (fs !! p) || negb (sy_open sy) then (fs, Err (Plain "open"))
      else
        let fs := <[p := NFile 384 (written sy b)]> fs in
        if negb (sy_chown sy && sy_write sy && sy_sync sy && sy_close sy && sy_syncdir sy)
        then (if sy_remove sy then delete p fs else fs, Err (Plain "write"))
        else (fs, Ok tt)
    | _ => (fs, Err (Plain "stat"))
    end
  end.

(** ** The abstraction *)

(** What a replacement looks like to its callers. *)
Definition content_at (fs : FileSystem) (p : string) : option string :=
  match fs !! p with Some (NFile _ c) => Some c | _ => None end.

(** The abstract write of a file's content. *)
Definition apply_write (w : write_outcome) (b : string) (old : option string) : option string * bool :=
  match w with
  | Written => (Some b, true)
  | WriteFailed replaced => (if replaced then Some b else old, false)
  end.

Lemma check_ancestors_ok sy fs fuel : ∀ p, check_ancestors sy fs fuel p = Ok tt → fs !! p ≠ Some NSymlink.
Proof.
  destruct fuel as [|fuel]; intros p; simpl; [done|]. destruct (sy_lstat sy p); [done|].
  destruct (fs !! p) as [[]|]; done.
Qed.

Lemma CheckPath_canonical sy fs p : CheckPath sy fs p = Ok tt → is_abs p = true ∧ clean p = p ∧ fs !! p ≠ Some NSymlink.
Proof.
  unfold CheckPath. destruct (_ || _) eqn:Hb; [done|]. bool_hyps. intros Hc.
  split_and!; [done|done|]. by apply check_ancestors_ok in Hc.
Qed.

Lemma replace_at_outcome sy fs p b mode fs' r :
  sy_temp sy ≠ Some p → replace_at sy fs p b mode = (fs', r) →
  (∃ w, (content_at fs' p, is_ok r) = apply_write w b (content_at fs p)) ∧
  (∀ q, q ≠ p → sy_temp sy ≠ Some q → fs' !! q = fs !! q) ∧
  (is_ok r = true → fs' !! p = Some (NFile mode b)).
Proof.
  intros Hp. unfold replace_at. destruct (sy_temp sy) as [name|]; [|intros [= <- <-]; split; [by exists (WriteFailed false)|done]].
  destruct (fs !! name) eqn:Hn; simpl; [intros [= <- <-]; split; [by exists (WriteFailed false)|done]|]. cbv zeta.
  set (temp := if sy_chmod sy then _ else _). set (drop := if sy_remove sy then _ else _).
  assert (∀ q, Some name ≠ Some q → drop !! q = fs !! q) as Hdrop.
  { intros q Hq. unfold drop. destruct (sy_remove sy); [by rewrite delete_insert_id|]. rewrite lookup_insert_ne; [done|congruence]. }
  assert ((∃ w, (content_at drop p, false) = apply_write w b (content_at fs p)) ∧ (∀ q, q ≠ p → Some name ≠ Some q → drop !! q = fs !! q)) as Hkeep.
  { split; [|auto]. exists (WriteFailed false). unfold content_at. by rewrite Hdrop. }
  clearbody drop. destruct (negb (_ && _)) eqn:Hw; [intros [= <- <-]; by destruct Hkeep|]. destruct (negb (sy_rename sy)); [intros [= <- <-]; by destruct Hkeep|].
  assert (temp = NFile mode b) as ->.
  { unfold temp, written. bool_hyps. by repeat match goal with K : _ = true |- _ => rewrite K; clear K end. }
  intros [= <- <-]. split_and!.
  - exists (if sy_syncdir sy then Written else WriteFailed true). unfold content_at. rewrite lookup_insert_eq. by destruct (sy_syncdir sy).
  - intros q Hqp Hq. rewrite lookup_insert_ne by done. rewrite lookup_delete_ne by congruence. apply lookup_insert_ne. congruence.
  - intros _. apply lookup_insert_eq.
Qed.

(** C37: A replacement is one abstract write: whatever the system calls answer, callers see
    either the complete new content or the old content, an error leaves one of the two, and
    success means the new content under the old permissions; no other file but the
    temporary one, which has a name of its own and may be left with anything in it, changes;
    and the destination is never reached through a symbolic link. *)
Theorem Replace_refines sy fs p b mode fs' r :
  sy_temp sy ≠ Some p → Replace sy fs p b mode = (fs', r) →
  (∃ w, (content_at fs' p, is_ok r) = apply_write w b (content_at fs p)) ∧
  (∀ q, q ≠ p → sy_temp sy ≠ Some q → fs' !! q = fs !! q) ∧
  (is_ok r = true → is_abs p = true ∧ clean p = p ∧
     fs' !! p = Some (NFile match fs !! p with Some (NFile perm _) => perm | _ => mode end b)) ∧
  (fs !! p = Some NSymlink → fs' = fs).
Proof.
  intros Hne. unfold Replace. destruct (CheckPath sy fs p) as [[]|e] eqn:Hc;
    [|intros [= <- <-]; split_and!; [by exists (WriteFailed false)|done..]].
  apply CheckPath_canonical in Hc as (Ha & Hcl & Hs).
  destruct (fs !! p) as [[perm| |perm c]|] eqn:Hp;
    [intros [= <- <-]; split_and!; [by exists (WriteFailed false)|done..]|done| |];
    intros Hr; destruct (replace_at_outcome _ _ _ _ _ _ _ Hne Hr) as (Hw & Hq & Hm); (split_and!; [done|done| |done]); intros Hok; (split_and!; [done|done|by apply Hm]).
Qed.

(** A secret is created, never overwritten: the file appears only where nothing was, in a
    directory closed to others, with mode 0600 and the complete content; after an error
    nothing is left when the clean-up succeeds, and no other file changes in any case. *)
Theorem CreateSecret_exclusive sy fs p b fs' r :
  CreateSecret sy fs p b = (fs', r) →
  (∀ q, q ≠ p → fs' !! q = fs !! q) ∧
  (is_some (fs !! p) = true → is_ok r = false ∧ fs' = fs) ∧
  match r with
  | Ok _ => fs !! p = None ∧ fs' !! p = Some (NFile 384 b) ∧ ∃ perm, fs !! path_dir p = Some (NDir perm) ∧ Z.land perm 63 = 0
  | Err _ => sy_remove sy = true → fs' = fs
  end.
Proof.
  unfold CreateSecret. destruct (CheckPath sy fs p); [|by intros [= <- <-]].
  destruct (fs !! path_dir p) as [[perm| |]|]; [|by intros [= <- <-]..].
  destruct (Z.eqb_spec (Z.land perm 63) 0) as [Hperm|]; simpl; [|by intros [= <- <-]].
  destruct (fs !! p) eqn:Hp; simpl; [by intros [= <- <-]|]. destruct (sy_open sy); simpl; [|by intros [= <- <-]].
  assert (∀ q c, q ≠ p → <[p:=NFile 384 c]> fs !! q = fs !! q) as Hq by (intros; by apply lookup_insert_ne).
  destruct (negb _) eqn:Hw; intros [= <- <-].
  - split_and!; [|done|].
    + intros q Hne. destruct (sy_remove sy); [|by apply Hq]. by rewrite delete_insert_id.
    + intros ->. by apply delete_insert_id.
  - assert (written sy b = b) as -> by (unfold written; bool_hyps; by repeat match goal with K : _ = true |- _ => rewrite K; clear K end).
    split_and!; [by intros; apply Hq|done|done|apply lookup_insert_eq|eauto].
Qed.

Module SafefileFixture.
Definition sys : Sys := mkSys (λ _, false) (Some "/state/.bridge-write-1") true true true true true true "" true false true.
Definition disk : FileSystem := list_to_map [("/state", NDir 448); ("/state/state.json", NFile 384 "old")].
End SafefileFixture.
Import SafefileFixture.

Lemma Replace_refines_witness :
  Replace sys disk "/state/state.json" "new" 384 = (<["/state/state.json" := NFile 384 "new"]> disk, Err (Plain "sync")) ∧
  ∃ w, (content_at (<["/state/state.json" := NFile 384 "new"]> disk) "/state/state.json", false) = apply_write w "new" (Some "old").
Proof.
  assert (Replace sys disk "/state/state.json" "new" 384 = (<["/state/state.json" := NFile 384 "new"]> disk, Err (Plain "sync"))) as Hr
    by (vm_compute; reflexivity).
  split; [exact Hr|]. refine (proj1 (Replace_refines sys _ _ _ _ _ _ _ Hr)). discriminate.
Defined.

Lemma CreateSecret_exclusive_witness :
  CreateSecret sys disk "/state/state.json" "secret" = (disk, Err (Plain "open")) ∧ content_at disk "/state/state.json" = Some "old".
Proof.
  assert (CreateSecret sys disk "/state/state.json" "secret" = (disk, Err (Plain "open"))) as Hr by (vm_compute; reflexivity).
  split; [exact Hr|]. destruct (CreateSecret_exclusive _ _ _ _ _ _ Hr) as (_ & _ & _). vm_compute. reflexivity.
Defined.
