(* ===== verification/FileTree.v ===== *)
(** A managed directory as [os.Root] shows it: a tree of directories, regular files and
    symbolic links with their mode and group, and the system calls the model stager makes
    on it.  Any call may fail; which ones do is an argument, indexed by the calls made so
    far, so a theorem about a run covers every pattern of failures. *)
From S2P Require Import Prelude Safefile.
#[local] Open Scope Z_scope.

(** ** The tree *)

(** [mode] holds the permission bits and the set-user, set-group and sticky bits. *)
Inductive TNode :=
| TDir (mode gid : Z)
| TFile (mode gid : Z) (content : string)
| TLink (target : string)
| TSpecial.
(** A node is keyed by its path components from the root, [[]]. *)
Abbreviation Tree := (gmap (list string) TNode).

Definition plain_node (n : TNode) : bool := match n with TDir _ _ | TFile _ _ _ => true | _ => false end.

Definition perm (mode : Z) : Z := Z.land mode 511.
Definition setuid (mode : Z) : bool := Z.testbit mode 11.
Definition setgid (mode : Z) : bool := Z.testbit mode 10.
Definition sticky (mode : Z) : bool := Z.testbit mode 9.

Definition parts (p : string) : list string := split_on "/"%char p.
Definition join_path (l : list string) : string := String.concat "/" l.

(** The node a path leads to: links inside the path are followed (at most [links] of them,
    never above the root or to an absolute target), the last one only with [follow].
    [None] is a path that cannot be walked; the location itself may be empty. *)
Fixpoint resolve (follow : bool) (t : Tree) (links : nat) (cur l : list string) {struct links} : option (list string) :=
  (fix go (cur l : list string) {struct l} : option (list string) :=
    match l with
    | [] => Some cur
    | x :: rest =>
      if (x =s "") || (x =s ".") then go cur rest
      else if x =s ".." then match cur with [] => None | _ => go (removelast cur) rest end
      else match t !! (cur ++ [x]) with
      | Some (TDir _ _) => go (cur ++ [x]) rest
      | Some (TLink target) =>
        if negb follow && match rest with [] => true | _ => false end then Some (cur ++ [x])
        else if is_abs target then None
        else match links with O => None | S links => resolve follow t links cur (parts target ++ rest) end
      | _ => match rest with [] => Some (cur ++ [x]) | _ => None end
      end
    end) cur l.

(** ** Computations over the tree *)

Record World := mkWorld { w_tree : Tree; w_calls : nat }.
Definition FS (A : Type) : Type := World → World * result A.

#[export] Instance FS_ret : MRet FS := λ A a w, (w, Ok a).
#[export] Instance FS_bind : MBind FS := λ A B f m w,
  match m w with (w, Ok a) => f a w | (w, Err e) => (w, Err e) end.
Definition throw {A} (e : error) : FS A := λ w, (w, Err e).
Definition lift {A} (r : result A) : FS A := λ w, (w, r).
Definition tree : FS Tree := λ w, (w, Ok (w_tree w)).
Definition set_tree (t : Tree) : FS unit := λ w, (mkWorld t (w_calls w), Ok tt).
(** [m] without its error: [if e := m; e == nil]. *)
Definition try {A} (m : FS A) : FS (result A) := λ w, let '(w, r) := m w in (w, Ok r).

Definition ErrExist : error := Plain "file exists".
Definition ErrNotExist : error := Plain "file does not exist".
Definition ErrCall : error := Plain "system call failed".

Notation "'refuse' b 'with' e ';;' k" := (if b then throw e else k)
  (at level 10, b at level 99, e at level 99, k at level 200,
   format "'refuse'  b  'with'  e  ';;' '//' k") : go_scope.

(** Iteration in order, stopping at the first error. *)
Fixpoint each {A : Type} (f : A → FS unit) (l : list A) : FS unit :=
  match l with [] => mret tt | x :: l => f x;; each f l end.

Section Calls.
(** Which calls fail, how many bytes a failing write has written, how many links a walk may
    follow, and the identity of the service. *)
Context (fail : nat → bool) (short : nat → nat) (links : nat) (umask egid : Z).

Definition syscall : FS unit := λ w,
  (mkWorld (w_tree w) (S (w_calls w)), if fail (w_calls w) then Err ErrCall else Ok tt).

Definition locate (follow : bool) (t : Tree) (p : string) : option (list string) := resolve follow t links [] (parts p).
Definition find (t : Tree) (p : string) : option TNode := q ← locate false t p; t !! q.

(** [Root.Lstat]; [Root.Open] gives the location behind the descriptor. *)
Definition Lstat (p : string) : FS TNode :=
  syscall;; t ← tree;
  match find t p with Some n => mret n | None => throw ErrNotExist end.
Definition Open (p : string) : FS (list string) :=
  syscall;; t ← tree;
  match locate true t p with
  | Some q => if is_some (t !! q) then mret q else throw ErrNotExist
  | None => throw ErrNotExist
  end.
(** [File.Sync]. *)
Definition Sync : FS unit := syscall.

(** What a new node takes from the umask, and from a parent directory with the set-group bit. *)
Definition node_mode (is_dir : bool) (parent mode : Z) : Z :=
  let m := Z.land mode (Z.lnot umask) in if is_dir && setgid parent then Z.lor m 1024 else m.
Definition node_gid (parent gid : Z) : Z := if setgid parent then gid else egid.

(** A new node at a free name in an existing directory; the name may be a dangling link. *)
Definition create (p : string) (mk : Z → Z → TNode) : FS (list string) :=
  syscall;; t ← tree;
  match locate false t p with
  | None => throw ErrNotExist
  | Some q =>
    if is_some (t !! q) then throw ErrExist else
    match t !! removelast q with
    | Some (TDir pm pg) => set_tree (<[q := mk pm (node_gid pm pg)]> t);; mret q
    | _ => throw ErrNotExist
    end
  end.
Definition Mkdir (p : string) (mode : Z) : FS unit := create p (λ pm g, TDir (node_mode true pm mode) g);; mret tt.
(** [Root.OpenFile] with [O_CREATE|O_EXCL]. *)
Definition Create (p : string) (mode : Z) : FS (list string) := create p (λ pm g, TFile (node_mode false pm mode) g "").
(** Writing through a descriptor: a write that fails leaves a part of the content. *)
Definition calls : FS nat := λ w, (w, Ok (w_calls w)).
Definition WriteTo (q : list string) (content : string) : FS unit :=
  n ← calls; done ← try syscall; t ← tree;
  match t !! q with
  | Some (TFile m g _) =>
    set_tree (<[q := TFile m g (if is_ok done then content else String.substring 0 (short n) content)]> t);; lift done
  | _ => throw ErrCall
  end.
(** [File.Chmod]. *)
Definition Chmod (q : list string) (mode : Z) : FS unit :=
  syscall;; t ← tree;
  match t !! q with
  | Some (TDir _ g) => set_tree (<[q := TDir mode g]> t)
  | Some (TFile _ g c) => set_tree (<[q := TFile mode g c]> t)
  | _ => throw ErrCall
  end.

(** The nodes at and below a location, and the tree without them. *)
Fixpoint strip_prefix (a l : list string) : option (list string) :=
  match a, l with
  | [], _ => Some l
  | x :: a, y :: l => if x =s y then strip_prefix a l else None
  | _, [] => None
  end.
Definition under (a : list string) (p : list string) : bool := is_some (strip_prefix a p).
Definition below (t : Tree) (a : list string) : list (list string * TNode) :=
  omap (λ kv, rel ← strip_prefix a kv.1; Some (rel, kv.2)) (map_to_list t).
Definition prune_at (a : list string) (t : Tree) : Tree := filter (λ kv, under a kv.1 = false) t.
Definition moved (a b : list string) (t : Tree) : Tree :=
  list_to_map ((λ rn, (b ++ rn.1, rn.2)) <$> below t a) ∪ prune_at b (prune_at a t).

(** [Root.Rename] of a directory: onto nothing, or onto an empty directory. *)
Definition Rename (p1 p2 : string) : FS unit :=
  syscall;; t ← tree;
  match locate false t p1, locate false t p2 with
  | Some a, Some b =>
    match t !! a, t !! removelast b with
    | Some (TDir _ _), Some (TDir _ _) =>
      if under a b then throw ErrCall else
      match t !! b with
      | None => set_tree (moved a b t)
      | Some (TDir _ _) => if Nat.eqb (length (below t b)) 1 then set_tree (moved a b t) else throw ErrExist
      | Some _ => throw ErrCall
      end
    | _, _ => throw ErrNotExist
    end
  | _, _ => throw ErrNotExist
  end.
(** [Root.Remove] of an empty directory or a file. *)
Definition Remove (p : string) : FS unit :=
  syscall;; t ← tree;
  match locate false t p with
  | Some q => if Nat.eqb (length (below t q)) 1 then set_tree (delete q t) else throw ErrCall
  | None => throw ErrNotExist
  end.
End Calls.

(** ** Runs *)

Section Runs.
Context {A B : Type}.
Implicit Types (m : FS A) (f : A → FS B) (w : World).

Lemma FS_bind_inv m f w w' r :
  (m ≫= f) w = (w', r) →
  (∃ e, m w = (w', Err e) ∧ r = Err e) ∨ (∃ w1 a, m w = (w1, Ok a) ∧ f a w1 = (w', r)).
Proof. unfold mbind, FS_bind. destruct (m w) as [w1 [a|e]]; [eauto|]. intros [= <- <-]. eauto. Qed.

Lemma FS_bind_ok m f w w' b :
  (m ≫= f) w = (w', Ok b) → ∃ w1 a, m w = (w1, Ok a) ∧ f a w1 = (w', Ok b).
Proof. intros [(e & _ & [=])|?]%FS_bind_inv. done. Qed.

Lemma refuse_ok (c : bool) e m w w' a : (refuse c with e ;; m) w = (w', Ok a) → c = false ∧ m w = (w', Ok a).
Proof. destruct c; [done|auto]. Qed.
End Runs.

(** What every run of a computation does to the tree, as a preorder of trees. *)
Definition keeps (R : relation Tree) {A} (m : FS A) : Prop := ∀ w, R (w_tree w) (w_tree (m w).1).

Section Keeps.
Context (R : relation Tree) `{!PreOrder R}.

Lemma keeps_ret {A : Type} (a : A) : keeps R (mret a).
Proof. intros w. reflexivity. Qed.
Lemma keeps_throw {A : Type} e : keeps R (throw (A:=A) e).
Proof. intros w. reflexivity. Qed.
Lemma keeps_lift {A : Type} (r : result A) : keeps R (lift r).
Proof. intros w. reflexivity. Qed.
Lemma keeps_tree : keeps R tree.
Proof. intros w. reflexivity. Qed.
Lemma keeps_syscall fail : keeps R (syscall fail).
Proof. intros w. reflexivity. Qed.
Lemma keeps_bind {A B : Type} (m : FS A) (f : A → FS B) : keeps R m → (∀ a, keeps R (f a)) → keeps R (m ≫= f).
Proof.
  intros Hm Hf w. unfold mbind, FS_bind. specialize (Hm w). destruct (m w) as [w1 [a|e]]; simpl in *; [|done].
  etrans; [exact Hm|]. apply (Hf a w1).
Qed.
Lemma keeps_try {A : Type} (m : FS A) : keeps R m → keeps R (try m).
Proof. intros Hm w. unfold try. specialize (Hm w). by destruct (m w). Qed.
Lemma keeps_refuse {A : Type} (c : bool) e (m : FS A) : keeps R m → keeps R (refuse c with e ;; m).
Proof. intros Hm. destruct c; [apply keeps_throw|done]. Qed.
End Keeps.

Lemma keeps_pure {A : Type} (R : relation Tree) `{!PreOrder R} (m : FS A) : keeps eq m → keeps R m.
Proof. intros Hm w. rewrite <- (Hm w). reflexivity. Qed.
Lemma pure_run {A : Type} (m : FS A) w w' r : keeps eq m → m w = (w', r) → w_tree w' = w_tree w.
Proof. intros Hm E. specialize (Hm w). rewrite E in Hm. done. Qed.

Lemma each_keeps {A : Type} (R : relation Tree) `{!PreOrder R} (f : A → FS unit) l : (∀ x, keeps R (f x)) → keeps R (each f l).
Proof.
  intros Hf. induction l as [|x l IH]; simpl; [apply keeps_ret; apply _|].
  apply keeps_bind; [apply _|done|]. by intros.
Qed.
Lemma each_ok {A : Type} (R : relation Tree) `{!PreOrder R} (P : A → Tree → Prop) (f : A → FS unit) l :
  (∀ x, keeps R (f x)) → (∀ x w w', f x w = (w', Ok tt) → P x (w_tree w')) → (∀ x t t', R t t' → P x t → P x t') →
  ∀ w w', each f l w = (w', Ok tt) → ∀ x, x ∈ l → P x (w_tree w').
Proof.
  intros Hk Hf Hs. induction l as [|x l IH]; intros w w' He y Hy; [by apply elem_of_nil in Hy|].
  cbn [each] in He. apply FS_bind_ok in He as (w1 & [] & Hx & Hl). cbn beta in Hl. apply elem_of_cons in Hy as [->|Hy]; [|by eapply IH].
  apply Hf in Hx. pose proof (each_keeps R f l Hk w1) as Hr. rewrite Hl in Hr. by eapply Hs.
Qed.

Create HintDb fs discriminated.
#[export] Hint Resolve keeps_ret keeps_throw keeps_lift keeps_tree keeps_syscall keeps_try : fs.
(** Structural part of a [keeps] proof; the leaves are hints. *)
Ltac keeps :=
  repeat first
    [ progress intros
    | progress cbv beta
    | solve [auto with fs typeclass_instances]
    | apply keeps_bind; [apply _| |]
    | apply keeps_refuse; [apply _|]
    | apply each_keeps; [apply _|]
    | match goal with |- keeps _ (match ?x with _ => _ end) => destruct x end
    | match goal with |- keeps _ (let _ := ?x in _) => cbv zeta end ].

Lemma Lstat_pure fail links p : keeps eq (Lstat fail links p).
Proof. unfold Lstat. keeps. Qed.
Lemma Open_pure fail links p : keeps eq (Open fail links p).
Proof. unfold Open. keeps. Qed.
#[export] Hint Resolve Lstat_pure Open_pure : fs.
#[export] Hint Extern 5 (keeps ?R _) =>
  lazymatch R with eq => fail | _ => apply keeps_pure; [apply _|]; solve [auto with fs] end : fs.

(** ** Paths *)

Lemma plain_name_ne n : plain_name n = true → n ≠ "" ∧ n ≠ "." ∧ n ≠ "..".
Proof. unfold plain_name, str_in. intros [Hn _]%andb_true_iff. simpl in Hn. repeat split; intros ->; done. Qed.

Lemma join_cons x y l : join_path (x :: y :: l) = x +:+ String "/"%char (join_path (y :: l)).
Proof. done. Qed.

Lemma parts_app s u : parts (s +:+ "/" +:+ u) = parts s ++ parts u.
Proof. apply split_on_app. Qed.

Definition no_slash (n : string) : bool := all_chars (λ c, negb (Ascii.eqb c "/"%char)) n.
Lemma plain_no_slash n : plain_name n = true → no_slash n = true.
Proof. by intros [_ ?]%andb_true_iff. Qed.
Lemma split_no_slash n : no_slash n = true → parts n = [n].
Proof.
  unfold no_slash, all_chars. induction n as [|a n IH]; intros Hc; [done|]. unfold parts in *. simpl in *.
  apply andb_true_iff in Hc as [Ha%negb_true_iff Hc]. rewrite Ha, IH by done. done.
Qed.
Lemma parts_no_slash s : Forall (λ n, no_slash n = true) (parts s).
Proof.
  unfold parts. induction s as [|c s IH]; simpl; [by repeat constructor|]. destruct (Ascii.eqb c "/") eqn:Hc; [by constructor|].
  destruct (split_on_nonempty "/"%char s) as (w & ws & Hs). rewrite Hs in *. apply Forall_cons in IH as [Hw Hws]. constructor; [|done].
  unfold no_slash, all_chars in *. simpl. by rewrite Hc.
Qed.

Lemma parts_join_raw l : Forall (λ n, no_slash n = true) l → l ≠ [] → parts (join_path l) = l.
Proof.
  induction l as [|x [|y l] IH]; intros Hl Hne; [done| |]; apply Forall_cons in Hl as [Hx Hl].
  - by apply split_no_slash.
  - rewrite join_cons. unfold parts. rewrite split_on_app. change (split_on "/"%char) with parts.
    rewrite split_no_slash by done. simpl. f_equal. by apply IH.
Qed.
Lemma parts_join l : Forall (λ n, plain_name n = true) l → l ≠ [] → parts (join_path l) = l.
Proof. intros Hl. apply parts_join_raw. eapply Forall_impl; [exact Hl|]. apply plain_no_slash. Qed.

Lemma join_parts s : join_path (parts s) = s.
Proof.
  induction s as [|c s IH]; [done|]. unfold parts in *. simpl. destruct (Ascii.eqb_spec c "/"%char) as [->|Hc].
  - destruct (split_on_nonempty "/"%char s) as (w & ws & Hs). rewrite Hs in *. by rewrite join_cons, IH.
  - destruct (split_on_nonempty "/"%char s) as (w & ws & Hs). rewrite Hs in *. rewrite <- IH. by destruct ws.
Qed.

Lemma clean_push_plain rooted stack n : plain_name n = true → clean_push rooted stack n = n :: stack.
Proof.
  intros (?&?&?)%plain_name_ne. unfold clean_push.
  destruct (String.eqb_spec n ""), (String.eqb_spec n "."), (String.eqb_spec n ".."); done.
Qed.
Lemma fold_push_plain rooted l : ∀ stack, Forall (λ n, plain_name n = true) l → fold_left (clean_push rooted) l stack = rev l ++ stack.
Proof.
  induction l as [|n l IH]; intros stack Hl; [done|]. apply Forall_cons in Hl as [Hn Hl]. simpl.
  rewrite clean_push_plain, IH by done. by rewrite <- app_assoc.
Qed.

Lemma join_head n l : plain_name n = true → has_prefix (join_path (n :: l)) "/" = false ∧ join_path (n :: l) ≠ "".
Proof.
  intros Hn. destruct n as [|c n]; [done|]. assert (Ascii.eqb "/" c = false) as Hc.
  { unfold plain_name, all_chars in Hn. simpl in Hn. apply andb_true_iff in Hn as [_ Hn]. apply andb_true_iff in Hn as [Hn _].
    destruct (Ascii.eqb_spec c "/"); [done|]. by apply Ascii.eqb_neq. }
  assert (∃ s, join_path (String c n :: l) = String c s) as [s ->] by (destruct l; eexists; reflexivity).
  split; [by rewrite has_slash|done].
Qed.

(** A trailing slash, or none, is cleaned away. *)
Lemma clean_join l : Forall (λ n, plain_name n = true) l → l ≠ [] → clean (join_path l) = join_path l.
Proof.
  intros Hl Hne. destruct l as [|n l]; [done|]. destruct (join_head n l) as [Ha Hb]; [by apply Forall_cons in Hl as []|].
  unfold clean. change (split_on "/"%char) with parts. rewrite Ha, parts_join, fold_push_plain by done. rewrite app_nil_r, rev_involutive.
  change (String.concat "/" (n :: l)) with (join_path (n :: l)). by destruct (String.eqb_spec (join_path (n :: l)) "").
Qed.
Lemma join_trailing l : l ≠ [] → join_path (l ++ [""]) = join_path l +:+ "/".
Proof.
  induction l as [|x [|y l] IH]; intros Hne; [done|done|]. change ((x :: y :: l) ++ [""]) with (x :: y :: (l ++ [""])).
  rewrite !join_cons. change (y :: (l ++ [""])) with ((y :: l) ++ [""]). rewrite IH by done. by rewrite <- append_str_assoc.
Qed.
Lemma clean_trailing l : Forall (λ n, plain_name n = true) l → l ≠ [] → clean (join_path (l ++ [""])) = join_path l.
Proof.
  intros Hl Hne. rewrite <- (clean_join l) by done. rewrite join_trailing by done. destruct l as [|n l]; [done|].
  unfold clean. change (split_on "/"%char) with parts.
  change (join_path (n :: l) +:+ "/") with (join_path (n :: l) +:+ "/" +:+ ""). rewrite parts_app, parts_join, fold_left_app by done.
  assert (∀ s u, s ≠ "" → has_prefix (s +:+ u) "/" = has_prefix s "/") as Hp by (intros [|c s] u ?; [done|]; change (String c s +:+ u) with (String c (s +:+ u)); by rewrite !has_slash).
  rewrite Hp by (by destruct (join_head n l) as []; [apply Forall_cons in Hl as []|]). done.
Qed.

Lemma join_snoc l x : l ≠ [] → join_path (l ++ [x]) = join_path l +:+ "/" +:+ x.
Proof.
  induction l as [|y [|z l] IH]; intros Hne; [done|done|]. change ((y :: z :: l) ++ [x]) with (y :: z :: (l ++ [x])).
  rewrite !join_cons. change (z :: (l ++ [x])) with ((z :: l) ++ [x]). rewrite IH by done. by rewrite <- append_str_assoc.
Qed.
Lemma path_dir_join l x :
  Forall (λ n, plain_name n = true) l → no_slash x = true → path_dir (join_path (l ++ [x])) = if decide (l = []) then "." else join_path l.
Proof.
  intros Hl Hx. unfold path_dir. change (split_on "/"%char) with parts. rewrite parts_join_raw.
  - rewrite removelast_app by done. cbn [removelast]. rewrite app_nil_r. destruct (decide (l = [])) as [->|Hne]; [done|by apply clean_trailing].
  - apply Forall_app. split; [|by constructor]. eapply Forall_impl; [exact Hl|]. apply plain_no_slash.
  - by destruct l.
Qed.
Lemma path_join_join l x :
  Forall (λ n, plain_name n = true) l → plain_name x = true → path_join (join_path l) x = join_path (l ++ [x]).
Proof.
  intros Hl Hx. unfold path_join. destruct (decide (l = [])) as [->|Hne].
  - simpl. pose proof (plain_name_ne x Hx) as (?&_&_). destruct (String.eqb_spec x ""); [done|]. by apply (clean_join [x]); [constructor|].
  - destruct l as [|n l]; [done|]. destruct (join_head n l) as [_ Hb]; [by apply Forall_cons in Hl as []|].
    destruct (String.eqb_spec (join_path (n :: l)) ""); [done|]. rewrite <- join_snoc by done. apply clean_join; [|done].
    apply Forall_app. split; [done|by constructor].
Qed.

(** A cleaned relative path that does not climb has only plain components. *)
Lemma length_push rooted l : ∀ st, (length (fold_left (clean_push rooted) l st) ≤ length l + length st)%nat.
Proof.
  induction l as [|x l IH]; intros st; simpl; [lia|]. etrans; [apply IH|]. unfold clean_push.
  destruct (_ || _); [lia|]. destruct (x =s ".."); [|simpl; lia]. destruct st as [|y st]; [destruct rooted; simpl; lia|].
  destruct (y =s ".."); simpl; lia.
Qed.
Lemma pushed_plain l : ∀ top st, top ≠ ".." →
  length (fold_left (clean_push false) l (top :: st)) = (length l + S (length st))%nat → Forall (λ x, x ≠ "" ∧ x ≠ "." ∧ x ≠ "..") l.
Proof.
  induction l as [|x l IH]; intros top st Ht Hl; [constructor|]. simpl in Hl. unfold clean_push at 2 in Hl.
  destruct (String.eqb_spec x "") as [->|Hx]; simpl in Hl; [pose proof (length_push false l (top :: st)); simpl in *; lia|].
  destruct (String.eqb_spec x ".") as [->|Hx1]; simpl in Hl; [pose proof (length_push false l (top :: st)); simpl in *; lia|].
  destruct (String.eqb_spec x "..") as [->|Hx2].
  - destruct (String.eqb_spec top ".."); [done|]. pose proof (length_push false l st). lia.
  - constructor; [done|]. eapply (IH x (top :: st)); [done|simpl; lia].
Qed.
Lemma clean_plain p :
  clean p = p → has_prefix p "/" = false → p ≠ "." → p ≠ ".." → has_prefix p "../" = false → Forall (λ n, plain_name n = true) (parts p).
Proof.
  unfold clean. intros Hc Ha Hd Hdd Hup. rewrite Ha in Hc. change (split_on "/"%char) with parts in Hc.
  set (st := fold_left (clean_push false) (parts p) []) in *. change (String.concat "/" (rev st)) with (join_path (rev st)) in Hc.
  destruct (String.eqb_spec (join_path (rev st)) "") as [|Hne]; [congruence|].
  assert (Forall (λ n, no_slash n = true) st) as Hst.
  { assert (∀ l s, Forall (λ n, no_slash n = true) l → Forall (λ n, no_slash n = true) s →
      Forall (λ n, no_slash n = true) (fold_left (clean_push false) l s)) as Hf; [|apply Hf; [apply parts_no_slash|constructor]].
    induction l as [|x l IH]; intros s Hl Hs; [done|]. apply Forall_cons in Hl as [Hx Hl]. apply IH; [done|]. unfold clean_push.
    destruct (_ || _); [done|]. destruct (x =s ".."); [|by constructor]. destruct s as [|y s]; [by constructor|].
    apply Forall_cons in Hs as [??]. destruct (y =s ".."); [by repeat constructor|done]. }
  assert (parts p = rev st) as Hp.
  { rewrite <- Hc at 1. apply parts_join_raw; [by apply Forall_rev|]. intros Hr. by rewrite Hr in Hne. }
  assert (length st = length (parts p)) as Hlen by (rewrite Hp; by rewrite length_rev).
  pose proof (parts_no_slash p) as Hns. pose proof (join_parts p) as Hjoin.
  destruct (parts p) as [|x l] eqn:Hparts; [constructor|].
  assert (Forall (λ x, x ≠ "" ∧ x ≠ "." ∧ x ≠ "..") (x :: l)) as Hall.
  { subst st. simpl in Hlen. unfold clean_push at 2 in Hlen.
    destruct (String.eqb_spec x "") as [->|Hx]; simpl in Hlen; [pose proof (length_push false l []); simpl in *; lia|].
    destruct (String.eqb_spec x ".") as [->|Hx1]; simpl in Hlen; [pose proof (length_push false l []); simpl in *; lia|].
    destruct (String.eqb_spec x "..") as [->|Hx2].
    - exfalso. rewrite <- Hjoin in Hup, Hdd. destruct l as [|y l]; [done|]. rewrite join_cons in Hup.
      change (String.prefix "../" (String "." (String "." (String "/" (join_path (y :: l))))) = false) in Hup. simpl in Hup. by destruct (join_path (y :: l)).
    - constructor; [done|]. eapply (pushed_plain l x []); [done|simpl; lia]. }
  rewrite Forall_forall in *. intros n Hn. specialize (Hall n Hn) as (?&?&?). specialize (Hns n Hn).
  unfold plain_name, str_in. simpl. unfold no_slash in Hns. rewrite Hns.
  destruct (String.eqb_spec n ""), (String.eqb_spec n "."), (String.eqb_spec n ".."); done.
Qed.

(** ** Walks *)

Lemma resolve_nil follow t n cur : resolve follow t n cur [] = Some cur.
Proof. by destruct n. Qed.
Lemma resolve_cons follow t n cur x rest :
  resolve follow t n cur (x :: rest) =
    if (x =s "") || (x =s ".") then resolve follow t n cur rest
    else if x =s ".." then match cur with [] => None | _ => resolve follow t n (removelast cur) rest end
    else match t !! (cur ++ [x]) with
    | Some (TDir _ _) => resolve follow t n (cur ++ [x]) rest
    | Some (TLink target) =>
      if negb follow && match rest with [] => true | _ => false end then Some (cur ++ [x])
      else if is_abs target then None
      else match n with O => None | S n => resolve follow t n cur (parts target ++ rest) end
    | _ => match rest with [] => Some (cur ++ [x]) | _ => None end
    end.
Proof. by destruct n. Qed.

(** Where no link is met, the walk is the path itself. *)
Definition unlinked (t : Tree) (q : list string) : Prop := ∀ rel target, t !! (q ++ rel) ≠ Some (TLink target).

Definition names (l : list string) : list string := List.filter (λ x, negb (x =s ".")) l.
Lemma names_plain l : Forall (λ x, plain_name x = true) l → names l = l.
Proof.
  induction 1 as [|x l Hx _ IH]; [done|]. simpl. apply plain_name_ne in Hx as (_&Hx&_). destruct (String.eqb_spec x "."); simpl; congruence.
Qed.
Lemma resolve_unlinked follow t n l : ∀ cur q,
  unlinked t cur → Forall (λ x, plain_name x = true ∨ x = ".") l → resolve follow t n cur l = Some q → q = cur ++ names l.
Proof.
  induction l as [|x l IH]; intros cur q Hu Hl Hr; [rewrite resolve_nil in Hr; injection Hr as <-; by rewrite app_nil_r|].
  apply Forall_cons in Hl as [[(Hx&Hx1&Hx2)%plain_name_ne| ->] Hl]; rewrite resolve_cons in Hr; [|by apply IH in Hr].
  simpl. destruct (String.eqb_spec x ""), (String.eqb_spec x "."), (String.eqb_spec x ".."); try done. cbn [orb negb] in *.
  assert (unlinked t (cur ++ [x])) as Hu' by (intros rel tg; rewrite <- app_assoc; apply Hu).
  assert (∀ q', (match l with [] => Some (cur ++ [x]) | _ => None end) = Some q' → q' = cur ++ x :: names l) as Hend
    by (intros q' Hq; destruct l; simplify_eq; done).
  destruct (t !! (cur ++ [x])) as [[| |tg|]|] eqn:Hn; [|by apply Hend in Hr| |by apply Hend in Hr..].
  - apply IH in Hr as ->; [|done..]. by rewrite <- app_assoc.
  - by destruct (Hu [x] tg).
Qed.
Lemma resolve_plain follow t n l cur q :
  unlinked t cur → Forall (λ x, plain_name x = true) l → resolve follow t n cur l = Some q → q = cur ++ l.
Proof.
  intros Hu Hl Hr. apply resolve_unlinked in Hr; [by rewrite names_plain in Hr by done|done|].
  eapply Forall_impl; [exact Hl|]. auto.
Qed.

(** Through a directory, the walk goes on from it. *)
Lemma resolve_dir follow t n cur x rest m g :
  plain_name x = true → t !! (cur ++ [x]) = Some (TDir m g) → resolve follow t n cur (x :: rest) = resolve follow t n (cur ++ [x]) rest.
Proof.
  intros (?&?&?)%plain_name_ne Ht. rewrite resolve_cons, Ht.
  destruct (String.eqb_spec x ""), (String.eqb_spec x "."), (String.eqb_spec x ".."); done.
Qed.

(** A walk that ends on a node that is no link ends there when links are followed, too. *)
Lemma resolve_follow t n l : ∀ cur q, resolve false t n cur l = Some q → (∀ tg, t !! q ≠ Some (TLink tg)) → resolve true t n cur l = Some q.
Proof.
  revert l. induction n as [n IHn] using lt_wf_ind. induction l as [|x l IH]; intros cur q Hr Hq; [by rewrite resolve_nil in *|].
  rewrite resolve_cons in *. destruct (_ || _); [by apply IH|]. destruct (x =s ".."); [destruct cur; [done|by apply IH]|].
  destruct (t !! (cur ++ [x])) as [[| |tg|]|] eqn:Hn; try done; [by apply IH|].
  cbn [negb andb] in *. destruct l as [|y l]; cbn [andb] in *.
  - injection Hr as <-. by destruct (Hq tg).
  - destruct (is_abs tg); [done|]. destruct n as [|n]; [done|]. apply IHn; [lia|done|done].
Qed.

Lemma find_single links t x n : plain_name x = true → find links t x = Some n → t !! [x] = Some n.
Proof.
  intros Hp Hf. unfold find, locate, parts in Hf. rewrite split_on_plain in Hf by done. rewrite resolve_cons in Hf.
  apply plain_name_ne in Hp as (?&?&?). destruct (String.eqb_spec x ""), (String.eqb_spec x "."), (String.eqb_spec x ".."); try done.
  cbn [orb app] in Hf. destruct (t !! [x]) as [[| |tg|]|] eqn:Ht; rewrite ?resolve_nil in Hf; simpl in Hf; congruence.
Qed.

(** ** Renamed trees *)

Lemma strip_prefix_spec a : ∀ l rel, strip_prefix a l = Some rel ↔ l = a ++ rel.
Proof.
  induction a as [|x a IH]; intros l rel; simpl; [split; congruence|]. destruct l as [|y l]; [split; [done|by intros [=]]|].
  destruct (String.eqb_spec x y) as [->|Hne]; [rewrite IH; split; [by intros ->|by intros [= ->]]|split; [done|intros [=]; done]].
Qed.
Lemma strip_prefix_app a rel : strip_prefix a (a ++ rel) = Some rel.
Proof. by apply strip_prefix_spec. Qed.
Lemma under_spec a p : under a p = true ↔ ∃ rel, p = a ++ rel.
Proof.
  unfold under. destruct (strip_prefix a p) as [rel|] eqn:Hs; simpl.
  - apply strip_prefix_spec in Hs. split; [eauto|done].
  - split; [done|]. intros [rel ->]. by rewrite strip_prefix_app in Hs.
Qed.
Lemma elem_of_below t a rel n : (rel, n) ∈ below t a ↔ t !! (a ++ rel) = Some n.
Proof.
  unfold below. rewrite list_elem_of_omap. split.
  - intros ([p n'] & Hp & Hs). apply elem_of_map_to_list in Hp. simpl in Hs. destruct (strip_prefix a p) as [r|] eqn:Hr; [|done].
    apply strip_prefix_spec in Hr as ->. simpl in Hs. by injection Hs as -> ->.
  - intros Ht. exists (a ++ rel, n). split; [by apply elem_of_map_to_list|]. simpl. by rewrite strip_prefix_app.
Qed.
Lemma lookup_moved a b t rel : moved a b t !! (b ++ rel) = t !! (a ++ rel).
Proof.
  unfold moved. set (l := (λ rn : list string * TNode, (b ++ rn.1, rn.2)) <$> below t a).
  assert (∀ n, (b ++ rel, n) ∈ l ↔ t !! (a ++ rel) = Some n) as Hl.
  { intros n. unfold l. rewrite list_elem_of_fmap. split.
    - intros ([r n'] & [= Hr ->] & Hb). apply app_inv_head in Hr as <-. by apply elem_of_below.
    - intros Hb. exists (rel, n). split; [done|by apply elem_of_below]. }
  assert (prune_at b (prune_at a t) !! (b ++ rel) = None) as Hnone.
  { unfold prune_at. apply map_lookup_filter_None. right. intros n _. simpl. intros Hu. assert (under b (b ++ rel) = true) by (apply under_spec; eauto). congruence. }
  destruct (t !! (a ++ rel)) as [n|] eqn:Ht.
  - apply lookup_union_Some_l. apply elem_of_list_to_map_1'; [|by apply Hl]. intros n' Hn'. apply Hl in Hn'. congruence.
  - rewrite lookup_union_r; [done|]. apply not_elem_of_list_to_map_1. intros Hin.
    apply list_elem_of_fmap in Hin as ([p n] & Hp & Hin). simpl in Hp. subst p. apply Hl in Hin. done.
Qed.

(** ** Confined changes *)

(** Directories and regular files under plain names. *)
Definition tidy (t : Tree) : Prop := ∀ p n, t !! p = Some n → plain_node n = true ∧ Forall (λ x, plain_name x = true) p.

Lemma tidy_unlinked t q : tidy t → unlinked t q.
Proof. intros Ht rel tg Hl. by apply Ht in Hl as [? _]. Qed.
Lemma tidy_insert t p n : tidy t → plain_node n = true → Forall (λ x, plain_name x = true) p → tidy (<[p := n]> t).
Proof. intros Ht Hn Hp p' n' [[<- <-]|[_ Hl]]%lookup_insert_Some; [done|by apply Ht in Hl]. Qed.

(** A tidy tree stays tidy and changes only where [own] says. *)
Definition touches (own : list string → bool) (t t' : Tree) : Prop :=
  tidy t → tidy t' ∧ ∀ p, own p = false → t' !! p = t !! p.
#[export] Instance touches_preorder own : PreOrder (touches own).
Proof.
  split; [by intros t Ht|]. intros t1 t2 t3 H12 H23 Ht. destruct (H12 Ht) as [Ht2 E12]. destruct (H23 Ht2) as [Ht3 E23].
  split; [done|]. intros p Hp. by rewrite E23, E12.
Qed.
Lemma touches_insert own t p n :
  (tidy t → own p = true ∧ plain_node n = true ∧ Forall (λ x, plain_name x = true) p) → touches own t (<[p := n]> t).
Proof.
  intros Hp Ht. destruct (Hp Ht) as (Ho & Hn & Hpl). split; [by apply tidy_insert|]. intros p' Hp'. apply lookup_insert_ne. congruence.
Qed.

(** The locations a path may lead to in a tidy tree. *)
Definition owned (own : list string → bool) (p : string) : Prop :=
  Forall (λ x, plain_name x = true ∨ x = ".") (parts p) ∧ own (names (parts p)) = true.

Lemma owned_locate own links follow t p q : owned own p → tidy t → locate links follow t p = Some q → own q = true ∧ Forall (λ x, plain_name x = true) q.
Proof.
  intros [Hp Ho] Ht Hl. apply resolve_unlinked in Hl; [|by apply tidy_unlinked|done]. simpl in Hl. subst q. split; [done|].
  rewrite Forall_forall in *. intros x Hx. unfold names in Hx. apply list_elem_of_In, filter_In in Hx as [Hx Hd].
  apply list_elem_of_In in Hx. destruct (Hp x Hx) as [| ->]; done.
Qed.

Section Touches.
Context (fail : nat → bool) (links : nat) (umask egid : Z) (own : list string → bool).

Lemma create_touches p mk : owned own p → (∀ m g, plain_node (mk m g) = true) → keeps (touches own) (create fail links egid p mk).
Proof.
  intros Ho Hmk w. unfold create. cbv [mbind FS_bind syscall tree set_tree throw mret FS_ret]. destruct (fail (w_calls w)); [reflexivity|]. simpl.
  destruct (locate links false (w_tree w) p) as [q|] eqn:Hq; [|reflexivity]. destruct (w_tree w !! q); [reflexivity|]. simpl.
  destruct (w_tree w !! removelast q) as [[pm pg| | |]|]; try reflexivity. simpl. apply touches_insert. intros Ht.
  destruct (owned_locate _ _ _ _ _ _ Ho Ht Hq). auto.
Qed.
Lemma create_locates p mk w w' q : create fail links egid p mk w = (w', Ok q) → locate links false (w_tree w) p = Some q ∧ ∃ m g, w_tree w' !! q = Some (mk m g).
Proof.
  unfold create. cbv [mbind FS_bind syscall tree set_tree throw mret FS_ret]. destruct (fail (w_calls w)); [done|]. simpl.
  destruct (locate links false (w_tree w) p) as [q'|] eqn:Hq; [|done]. destruct (w_tree w !! q'); [done|]. simpl.
  destruct (w_tree w !! removelast q') as [[pm pg| | |]|]; try done. intros [= <- <-]. split; [done|]. simpl. rewrite lookup_insert_eq. eauto.
Qed.
Lemma Mkdir_touches p mode : owned own p → keeps (touches own) (Mkdir fail links umask egid p mode).
Proof. intros Ho. unfold Mkdir. apply keeps_bind; [apply _|by apply create_touches|]. intros. apply keeps_ret. apply _. Qed.
Lemma WriteTo_touches short q c : (own q = true ∧ Forall (λ x, plain_name x = true) q) → keeps (touches own) (WriteTo fail short q c).
Proof.
  intros [Ho Hq] w. unfold WriteTo. cbv [mbind FS_bind calls try syscall tree set_tree throw lift]. cbn [w_tree]. destruct (w_tree w !! q) as [[| | |]|]; try reflexivity.
  simpl. apply touches_insert. auto.
Qed.
Lemma Chmod_touches q mode : (own q = true ∧ Forall (λ x, plain_name x = true) q) → keeps (touches own) (Chmod fail q mode).
Proof.
  intros [Ho Hq] w. unfold Chmod. cbv [mbind FS_bind syscall tree set_tree throw]. destruct (fail (w_calls w)); [reflexivity|]. simpl.
  destruct (w_tree w !! q) as [[| | |]|]; try reflexivity; simpl; apply touches_insert; auto.
Qed.
Lemma Open_located p w w' q : Open fail links p w = (w', Ok q) → w_tree w' = w_tree w ∧ locate links true (w_tree w) p = Some q ∧ is_Some (w_tree w !! q).
Proof.
  unfold Open. cbv [mbind FS_bind syscall tree throw mret FS_ret]. destruct (fail (w_calls w)); [done|]. simpl.
  destruct (locate links true (w_tree w) p) as [q'|]; [|done]. destruct (w_tree w !! q') eqn:Hn; [|done]. intros [= <- <-]. simpl. eauto.
Qed.
Lemma Lstat_found p w w' n : Lstat fail links p w = (w', Ok n) → w_tree w' = w_tree w ∧ find links (w_tree w) p = Some n.
Proof.
  unfold Lstat. cbv [mbind FS_bind syscall tree throw mret FS_ret]. destruct (fail (w_calls w)); [done|]. simpl.
  destruct (find links (w_tree w) p); [|done]. by intros [= <- <-].
Qed.
End Touches.

Lemma lookup_moved_other a b t p : under a p = false → under b p = false → moved a b t !! p = t !! p.
Proof.
  intros Ha Hb. unfold moved, prune_at. rewrite lookup_union_r.
  - destruct (t !! p) as [n|] eqn:Hn.
    + apply map_lookup_filter_Some. split; [|done]. apply map_lookup_filter_Some. split; [done|done].
    + apply map_lookup_filter_None. left. apply map_lookup_filter_None. by left.
  - apply not_elem_of_list_to_map_1. intros Hin. apply list_elem_of_fmap in Hin as ([q n] & -> & Hin).
    apply list_elem_of_fmap in Hin as ([rel n'] & [= -> ->] & _). simpl in Hb.
    assert (under b (b ++ rel) = true) by (apply under_spec; eauto). congruence.
Qed.
Lemma Rename_cases fail links p1 p2 w w' r : Rename fail links p1 p2 w = (w', r) →
  match r with
  | Ok _ => ∃ a b, locate links false (w_tree w) p1 = Some a ∧ locate links false (w_tree w) p2 = Some b ∧ w_tree w' = moved a b (w_tree w)
  | Err _ => w_tree w' = w_tree w
  end.
Proof.
  unfold Rename. cbv [mbind FS_bind syscall tree set_tree throw]. destruct (fail (w_calls w)); [by intros [= <- <-]|]. simpl.
  destruct (locate links false (w_tree w) p1) as [a|], (locate links false (w_tree w) p2) as [b|]; try by intros [= <- <-].
  destruct (w_tree w !! a) as [[]|]; try by intros [= <- <-].
  destruct (w_tree w !! removelast b) as [[]|]; try by intros [= <- <-]. destruct (under a b); [by intros [= <- <-]|].
  destruct (w_tree w !! b) as [[]|]; try by intros [= <- <-].
  - destruct (Nat.eqb _ _); intros [= <- <-]; [by exists a, b|done].
  - intros [= <- <-]. by exists a, b.
Qed.
Lemma Remove_cases fail links p w w' r : Remove fail links p w = (w', r) →
  w_tree w' = w_tree w ∨ ∃ q, locate links false (w_tree w) p = Some q ∧ w_tree w' = delete q (w_tree w).
Proof.
  unfold Remove. cbv [mbind FS_bind syscall tree set_tree throw]. destruct (fail (w_calls w)); [intros [= <- <-]; by left|]. simpl.
  destruct (locate links false (w_tree w) p) as [q|]; [|intros [= <- <-]; by left].
  destruct (Nat.eqb _ _); intros [= <- <-]; eauto.
Qed.
