(* ===== verification/Json.v ===== *)
(** Values handed to [encoding/json] and the content hash over them.

    [domain.Hash] is [hex(sha256(json.Marshal(v)))]: the model keeps the value
    passed to the encoder as a tree (field order, tags and [omitempty] included)
    and takes the digest of the encoded bytes as the operational class [Sha256]. *)
From S2P Require Import Prelude.
From Stdlib Require Import SpecFloat.
From stdpp Require Import pretty.
#[local] Set Warnings "-register-all".

(** IEEE binary64 values ([float64]) as the Standard Library's [spec_float]. *)
Abbreviation float64 := spec_float.

#[export] Instance float64_eq_dec : EqDecision float64.
Proof. solve_decision. Defined.

(** The binary64 values of the source's decimal literals. *)
Definition f0_1 : float64 := S754_finite false 7205759403792794 (-56).
Definition f0_95 : float64 := S754_finite false 8556839292003942 (-53).
Definition f0_5 : float64 := S754_finite false 4503599627370496 (-53).
Definition f0_2 : float64 := S754_finite false 7205759403792794 (-55).
Definition f0_8 : float64 := S754_finite false 7205759403792794 (-53).
Definition f0 : float64 := S754_zero false.
Definition f1 : float64 := S754_finite false 4503599627370496 (-52).
(** [float64(n)]. *)
Definition float_of (n : Z) : float64 := binary_normalize 53 1024 n 0 false.

Inductive JSON :=
| JNull
| JBool (b : bool)
| JInt (z : Z)
| JFloat (f : float64)
| JString (s : string)
| JTime (t : time)
| JArray (l : list JSON)
| JObject (fields : list (string * JSON)).

(** The digest of the encoding of a tree: standard-library code the program calls. *)
Class Sha256 := sha256_hex : JSON → string.

(** A struct field, and a struct field tagged [omitempty]. *)
Definition field (k : string) (v : JSON) : list (string * JSON) := [(k, v)].
Definition omit_str (k s : string) : list (string * JSON) :=
  if s =s "" then [] else [(k, JString s)].
Definition omit_int (k : string) (z : Z) : list (string * JSON) :=
  if Z.eqb z 0 then [] else [(k, JInt z)].
Definition omit_ptr {A} (k : string) (f : A → JSON) (o : option A) : list (string * JSON) :=
  match o with Some a => [(k, f a)] | None => [] end.
Definition omit_list {A} (k : string) (f : A → JSON) (l : list A) : list (string * JSON) :=
  match l with [] => [] | _ => [(k, JArray (f <$> l))] end.

(** A Go map with string keys: the encoder emits the keys in one fixed order. *)
Definition JMap {A} (f : A → JSON) (m : gmap string A) : JSON :=
  JObject (prod_map id f <$> map_to_list m).

Lemma omit_str_inj k s t rest rest' :
  (∀ v, (k, v) ∉ rest) → (∀ v, (k, v) ∉ rest') →
  omit_str k s ++ rest = omit_str k t ++ rest' → s = t ∧ rest = rest'.
Proof.
  intros Hr Hr'. unfold omit_str.
  destruct (String.eqb_spec s "") as [->|], (String.eqb_spec t "") as [->|]; simpl; intros Heq; eauto.
  - destruct (Hr (JString t)). rewrite Heq. constructor.
  - destruct (Hr' (JString s)). rewrite <- Heq. constructor.
  - by simplify_eq.
Qed.

(** The string payload of a tree, the inverse of [JString]. *)
Definition as_str (v : JSON) : string := match v with JString s => s | _ => "" end.

Lemma as_str_pairs (l : list (string * string)) :
  prod_map id as_str <$> (prod_map id JString <$> l) = l.
Proof. induction l as [|[k v] l IH]; [done|]. csimpl. by rewrite IH. Qed.

Lemma JMap_str_inj (m m' : gmap string string) : JMap JString m = JMap JString m' → m = m'.
Proof.
  unfold JMap. intros Heq. injection Heq as Heq.
  apply (f_equal (fmap (prod_map id as_str))) in Heq.
  rewrite !as_str_pairs in Heq.
  rewrite <- (list_to_map_to_list m), <- (list_to_map_to_list m'). by rewrite Heq.
Qed.

(** ** A concrete digest for examples

    [render] writes a tree out in full; as an instance of [Sha256] it lets the
    definitions run on concrete inputs. *)
Fixpoint render (j : JSON) : string :=
  match j with
  | JNull => "null"
  | JBool b => if b then "true" else "false"
  | JInt z => pretty z
  | JFloat f => match f with
                | S754_zero _ => "0.0"
                | S754_infinity _ => "inf"
                | S754_nan => "nan"
                | S754_finite s m e => (if s then "-" else "") +:+ pretty (Zpos m) +:+ "p" +:+ pretty e
                end
  | JString s => "'" +:+ s +:+ "'"
  | JTime t => "@" +:+ pretty t
  | JArray l => "[" +:+ foldr (λ v acc, render v +:+ "," +:+ acc) "]" l
  | JObject fs => "{" +:+ foldr (λ kv acc, kv.1 +:+ ":" +:+ render kv.2 +:+ "," +:+ acc) "}" fs
  end.

Definition render_hash : Sha256 := render.
