(* ===== verification/Tree.v ===== *)
(** Values decoded into [any]: trees whose objects list each key once in key order and whose
    numbers are doubles, so that [reflect.DeepEqual] is structural equality and the encoder's
    output, which sorts map keys, is the tree itself. *)
From S2P Require Import Prelude Json.
From Stdlib Require Import SpecFloat.
#[local] Open Scope Z_scope.

(** ** Reading *)

Definition get (k : string) (v : JSON) : JSON :=
  match v with JObject l => default JNull (option_map snd (find (λ kv, kv.1 =s k) l)) | _ => JNull end.
(** [nested]: absent keys and other values read as nil. *)
Definition Nested (v : JSON) (keys : list string) : JSON := fold_left (λ v k, get k v) keys v.
(** [list] and [str] give the zero value for a value of another kind. *)
Definition list_of (v : JSON) : list JSON := match v with JArray l => l | _ => [] end.
Definition str (v : JSON) : string := match v with JString s => s | _ => "" end.
Definition is_null (v : JSON) : bool := match v with JNull => true | _ => false end.
Definition is_object (v : JSON) : bool := match v with JObject _ => true | _ => false end.
Definition members (v : JSON) : list (string * JSON) := match v with JObject l => l | _ => [] end.

(** ** Assignment *)

(** Assignment to a key of an object, keeping the key order. *)
Fixpoint put (k : string) (x : JSON) (l : list (string * JSON)) : list (string * JSON) :=
  match l with
  | [] => [(k, x)]
  | (k', v) :: l => if k =s k' then (k, x) :: l else if String.leb k k' then (k, x) :: (k', v) :: l else (k', v) :: put k x l
  end.
Definition set_key (k : string) (x : JSON) (v : JSON) : JSON := match v with JObject l => JObject (put k x l) | _ => v end.
Definition remove_key (k : string) (v : JSON) : JSON := match v with JObject l => JObject (List.filter (λ kv, kv.1 <>s k) l) | _ => v end.
(** A change of the value under a path of keys. *)
Fixpoint edit (keys : list string) (f : JSON → JSON) (v : JSON) : JSON :=
  match keys with [] => f v | k :: keys => set_key k (edit keys f (get k v)) v end.

(** [reflect.DeepEqual] on such trees; doubles compare with [==]. *)
Fixpoint deep_equal (a b : JSON) {struct a} : bool :=
  match a, b with
  | JNull, JNull => true
  | JBool x, JBool y => Bool.eqb x y
  | JInt x, JInt y => x =? y
  | JFloat x, JFloat y => SFeqb x y
  | JString x, JString y => x =s y
  | JTime x, JTime y => x =? y
  | JArray l, JArray l' =>
    (fix list_equal l l' := match l, l' with
      | [], [] => true
      | x :: l, y :: l' => deep_equal x y && list_equal l l'
      | _, _ => false end) l l'
  | JObject l, JObject l' =>
    (fix fields_equal l l' := match l, l' with
      | [], [] => true
      | (k, x) :: l, (k', y) :: l' => (k =s k') && deep_equal x y && fields_equal l l'
      | _, _ => false end) l l'
  | _, _ => false
  end.

(** ** Numbers *)

(** [int64(f)] for a double in range: truncation towards zero. *)
Definition int_of (f : float64) : Z :=
  match f with
  | S754_finite s m e => let v := if 0 <=? e then Zpos m * 2^e else Zpos m / 2^(- e) in if s then - v else v
  | _ => 0
  end.
(** [int64(f)] on amd64: what is no number or out of range gives the least integer. *)
Definition int64_of (f : float64) : Z :=
  match f with
  | S754_nan | S754_infinity _ => - 2^63
  | _ => if bool_decide (in_int64 (int_of f)) then int_of f else - 2^63
  end.

(** [strconv.ParseFloat(s, 64)], with whether there was no error, and
    [strconv.FormatFloat(f, 'f', -1, 64)]. *)
Class FloatText := { parse_float : string → float64 * bool; format_float : float64 → string }.

(** [number]. *)
Definition number `{FloatText} (v : JSON) : float64 :=
  match v with JFloat f => f | JString s => (parse_float s).1 | _ => f0 end.

(** [json.Unmarshal] of a text into a [map\[string\]any]: the tree of an object, or nil for
    [null]. *)
Class AnyText := any_object : string → option JSON.

(** ** Laws *)

Lemma get_put k x l : get k (JObject (put k x l)) = x.
Proof.
  unfold get. induction l as [|[k' v] l IH]; cbn; [by rewrite String.eqb_refl|].
  destruct (String.eqb_spec k k') as [->|Hk]; cbn; [by rewrite String.eqb_refl|].
  destruct (String.leb k k'); cbn; [by rewrite String.eqb_refl|].
  rewrite (proj2 (String.eqb_neq k' k)) by congruence. exact IH.
Qed.
Lemma get_put_ne k k' x l : k' ≠ k → get k' (JObject (put k x l)) = get k' (JObject l).
Proof.
  intros Hk. unfold get. induction l as [|[j v] l IH]; cbn; [by rewrite (proj2 (String.eqb_neq k k')) by congruence|].
  destruct (String.eqb_spec k j) as [->|Hj]; cbn; [by rewrite (proj2 (String.eqb_neq j k')) by congruence|].
  destruct (String.leb k j); cbn; [by rewrite (proj2 (String.eqb_neq k k')) by congruence|].
  destruct (j =s k'); [done|]. exact IH.
Qed.
Lemma put_put k x y l : put k x (put k y l) = put k x l.
Proof.
  induction l as [|[j v] l IH]; cbn; [by rewrite String.eqb_refl|].
  destruct (k =s j) eqn:Hj; cbn; [by rewrite String.eqb_refl|].
  destruct (String.leb k j) eqn:Hl; cbn; [by rewrite String.eqb_refl|]. by rewrite Hj, Hl, IH.
Qed.

Lemma get_set k x v : is_object v = true → get k (set_key k x v) = x.
Proof. destruct v; try done. intros _. apply get_put. Qed.
Lemma get_set_ne k k' x v : k' ≠ k → get k' (set_key k x v) = get k' v.
Proof. destruct v; try done. intros. by apply get_put_ne. Qed.
Lemma set_set k x y v : set_key k x (set_key k y v) = set_key k x v.
Proof. destruct v; try done. cbn. by rewrite put_put. Qed.
Lemma set_object k x v : is_object (set_key k x v) = is_object v.
Proof. by destruct v. Qed.

(** Every object on the path exists. *)
Fixpoint path_ok (keys : list string) (v : JSON) : bool :=
  match keys with [] => true | k :: keys => is_object v && path_ok keys (get k v) end.

Lemma Nested_edit keys f v : path_ok keys v = true → Nested (edit keys f v) keys = f (Nested v keys).
Proof.
  revert v. induction keys as [|k keys IH]; intros v; [done|]. intros [Hv Hp]%andb_true_iff.
  cbn [edit]. unfold Nested in *. cbn [fold_left]. rewrite get_set by done. by apply IH.
Qed.
Lemma edit_edit keys f g v : path_ok keys v = true → edit keys f (edit keys g v) = edit keys (λ x, f (g x)) v.
Proof.
  revert v. induction keys as [|k keys IH]; intros v; [done|]. intros [Hv Hp]%andb_true_iff.
  cbn [edit]. rewrite get_set by done. by rewrite set_set, IH.
Qed.
Lemma edit_ext keys f g v : f (Nested v keys) = g (Nested v keys) → edit keys f v = edit keys g v.
Proof.
  revert v. induction keys as [|k keys IH]; intros v Hfg; [done|]. cbn [edit]. by rewrite (IH (get k v)).
Qed.
Lemma path_edit keys f v : path_ok keys v = true → path_ok keys (edit keys f v) = true.
Proof.
  revert v. induction keys as [|k keys IH]; intros v; [done|]. intros [Hv Hp]%andb_true_iff.
  cbn [edit path_ok]. rewrite set_object, Hv, get_set by done. by apply IH.
Qed.
(** A value that is not nil is reached through objects. *)
Lemma path_of_value keys v : is_null (Nested v keys) = false → path_ok keys v = true.
Proof.
  revert v. induction keys as [|k keys IH]; intros v Hn; [done|]. cbn [path_ok]. unfold Nested in Hn. cbn [fold_left] in Hn.
  assert (path_ok keys (get k v) = true) as -> by (by apply IH). destruct v; try done; exfalso; cbn in Hn.
  all: assert (∀ ks, fold_left (λ v k, get k v) ks JNull = JNull) as Hnull by (intros ks; induction ks; done).
  all: rewrite Hnull in Hn; done.
Qed.
