(* ===== verification/Types.v ===== *)
(** The versioned management contract of [internal/domain]: data types, their
    zero values, field updates and the trees they marshal to.  Field names carry
    the source's name behind a short prefix naming the struct. *)
From S2P Require Import Prelude Json.

(** ** Configuration *)

Record Serving := mkServing {
  sv_Model : string;
  sv_Context : Z;
  sv_Concurrency : Z;
  sv_MemoryFraction : float64;
  sv_CPUOffloadGiB : Z;
  sv_MaxRequestTokens : Z;
  sv_MaxOutputTokens : Z }.

Record Resources := mkResources {
  rs_CPU : Z;
  rs_MemoryMiB : Z;
  rs_SharedMemoryMiB : Z;
  rs_GPUCount : Z;
  rs_PhysicalGPU : string }.

Record CacheBudgets := mkCacheBudgets {
  cb_ModelsGiB : Z;
  cb_CompilerGiB : Z;
  cb_ShaderGiB : Z;
  cb_BuildJobs : Z;
  cb_BuildMemoryMiB : Z;
  cb_ScratchGiB : Z }.

Record Configuration := mkConfiguration {
  cf_Revision : string;
  cf_Serving : Serving;
  cf_Resources : Resources;
  cf_Caches : CacheBudgets }.

Record MemoryRequest := mkMemoryRequest {
  mr_EvidenceID : string;
  mr_EvidenceSHA256 : string;
  mr_OtherMiB : Z }.

Record PerformanceRequest := mkPerformanceRequest {
  pr_EvidenceID : string;
  pr_EvidenceSHA256 : string;
  pr_Kind : string }.

Record Draft := mkDraft {
  d_Action : string;
  d_Target : string;
  d_SourceRevision : string;
  d_Model : string;
  d_Profile : string;
  d_Recipe : string;
  d_RecoveryID : string;
  d_Serving : option Serving;
  d_Resources : option Resources;
  d_Caches : option CacheBudgets;
  d_Memory : option MemoryRequest;
  d_Performance : option PerformanceRequest }.

(** ** Plans and operations *)

Record Change := mkChange {
  ch_Field : string;
  ch_Before : JSON;
  ch_After : JSON }.

(** [pv_Preconditions = None] is the nil map, which [reflect.DeepEqual]
    distinguishes from an empty one. *)
Record Preview := mkPreview {
  pv_Changes : list Change;
  pv_Consequences : list string;
  pv_Warnings : list string;
  pv_Preconditions : option (gmap string string) }.

Record Plan := mkPlan {
  pl_ID : string;
  pl_Actor : string;
  pl_Draft : Draft;
  pl_Desired : Configuration;
  pl_Preview : Preview;
  pl_CreatedAt : time;
  pl_ExpiresAt : time;
  pl_Hash : string }.

Record Progress := mkProgress {
  pg_Phase : string;
  pg_Message : string;
  pg_Bytes : Z }.

Record Artifact := mkArtifact {
  ar_Name : string;
  ar_SHA256 : string;
  ar_Size : Z;
  ar_SourceRevision : string;
  ar_Qualification : string;
  ar_Content : string }.

Record Result := mkResult {
  re_State : string;
  re_Phase : string;
  re_Message : string;
  re_RecoveryRequired : bool;
  re_Artifacts : list Artifact }.

Record Execution := mkExecution {
  ex_ID : string;
  ex_Actor : string;
  ex_Plan : Plan }.

Record Operation := mkOperation {
  op_ID : string;
  op_Actor : string;
  op_Plan : Plan;
  op_State : string;
  op_Phase : string;
  op_Message : string;
  op_Revision : Z;
  op_CreatedAt : time;
  op_UpdatedAt : time;
  op_SourceUpdated : bool;
  op_Dispatched : bool;
  op_LiveApplied : bool;
  op_RecoveryRequired : bool;
  op_CancelRequested : bool;
  op_Events : list Progress;
  op_Artifacts : list Artifact }.

(** ** Inventory *)

Record ModelFile := mkModelFile {
  mf_Path : string;
  mf_SHA256 : string;
  mf_GitSHA1 : string;
  mf_Size : Z;
  mf_URL : string }.

Record Model := mkModel {
  md_ID : string;
  md_Repository : string;
  md_Revision : string;
  md_Quantization : string;
  md_License : string;
  md_Size : Z;
  md_Status : string;
  md_Qualification : string;
  md_GPUCount : Z;
  md_Files : list ModelFile }.

Record GPU := mkGPU {
  gp_ID : string;
  gp_Model : string;
  gp_RenderPath : string;
  gp_MemoryMiB : Z }.

Record Hardware := mkHardware {
  hw_Status : string;
  hw_ObservedAt : time;
  hw_BootID : string;
  hw_CurrentBootID : string;
  hw_MemoryMiB : Z;
  hw_DIMMs : Z;
  hw_TrainedSpeed : string;
  hw_Channels : string;
  hw_CPUThreads : Z;
  hw_SMTWidth : Z;
  hw_TopologyKnown : bool;
  hw_CPUManagerPolicy : string;
  hw_FullPCPUsOnly : bool;
  hw_HostReserveMiB : Z;
  hw_KubeReserveMiB : Z;
  hw_OtherMemoryMiB : Z;
  hw_ReservedCPU : Z;
  hw_OtherCPU : Z;
  hw_OtherGPUs : Z;
  hw_GPUs : list GPU;
  hw_Warnings : list string }.

Record Recipe := mkRecipe {
  rc_ID : string;
  rc_Revision : string;
  rc_Status : string;
  rc_Reason : string;
  rc_Output : string;
  rc_Qualification : string }.

Record Cache := mkCache {
  ca_Name : string;
  ca_UsedBytes : Z;
  ca_BudgetBytes : Z;
  ca_Status : string;
  ca_CleanupPreview : list string }.

Record Harness := mkHarness {
  hn_ID : string;
  hn_Version : string;
  hn_Modes : list string;
  hn_Limitations : list string }.

Record ServingStatus := mkServingStatus {
  ss_State : string;
  ss_KubernetesReady : option bool;
  ss_RepresentativeWarmup : string;
  ss_Reason : string;
  ss_ObservedAt : time;
  ss_Identity : string }.

Record Inventory := mkInventory {
  in_Mode : string;
  in_Target : string;
  in_Environment : string;
  in_SourceRevision : string;
  in_ClusterAvailable : bool;
  in_ClusterMessage : string;
  in_Profile : string;
  in_ServingStatus : ServingStatus;
  in_Hardware : Hardware;
  in_Models : list Model;
  in_Recipes : list Recipe;
  in_Caches : list Cache;
  in_Harnesses : list Harness }.

(** ** Zero values *)

Definition Serving0 := mkServing "" 0 0 f0 0 0 0.
Definition Resources0 := mkResources 0 0 0 0 "".
Definition CacheBudgets0 := mkCacheBudgets 0 0 0 0 0 0.
Definition Configuration0 := mkConfiguration "" Serving0 Resources0 CacheBudgets0.
Definition Draft0 := mkDraft "" "" "" "" "" "" "" None None None None None.
Definition Preview0 := mkPreview [] [] [] None.
Definition Plan0 := mkPlan "" "" Draft0 Configuration0 Preview0 zeroTime zeroTime "".
Definition Result0 := mkResult "" "" "" false [].
Definition Operation0 := mkOperation "" "" Plan0 "" "" "" 0 zeroTime zeroTime
  false false false false false [] [].
Definition Hardware0 := mkHardware "" zeroTime "" "" 0 0 "" "" 0 0 false "" false 0 0 0 0 0 0 [] [].
Definition ServingStatus0 := mkServingStatus "" None "" "" zeroTime "".
Definition Inventory0 := mkInventory "" "" "" "" false "" "" ServingStatus0 Hardware0 [] [] [] [].

(** ** Field assignments *)

Definition set_sv_Model (v : string) (r : Serving) : Serving :=
  mkServing v (sv_Context r) (sv_Concurrency r) (sv_MemoryFraction r) (sv_CPUOffloadGiB r) (sv_MaxRequestTokens r) (sv_MaxOutputTokens r).

Definition set_cf_Revision (v : string) (r : Configuration) : Configuration :=
  mkConfiguration v (cf_Serving r) (cf_Resources r) (cf_Caches r).
Definition set_cf_Serving (v : Serving) (r : Configuration) : Configuration :=
  mkConfiguration (cf_Revision r) v (cf_Resources r) (cf_Caches r).
Definition set_cf_Resources (v : Resources) (r : Configuration) : Configuration :=
  mkConfiguration (cf_Revision r) (cf_Serving r) v (cf_Caches r).
Definition set_cf_Caches (v : CacheBudgets) (r : Configuration) : Configuration :=
  mkConfiguration (cf_Revision r) (cf_Serving r) (cf_Resources r) v.

Definition set_d_SourceRevision (v : string) (r : Draft) : Draft :=
  mkDraft (d_Action r) (d_Target r) v (d_Model r) (d_Profile r) (d_Recipe r) (d_RecoveryID r) (d_Serving r) (d_Resources r) (d_Caches r) (d_Memory r) (d_Performance r).

Definition set_pv_Changes (v : list Change) (r : Preview) : Preview :=
  mkPreview v (pv_Consequences r) (pv_Warnings r) (pv_Preconditions r).
Definition set_pv_Consequences (v : list string) (r : Preview) : Preview :=
  mkPreview (pv_Changes r) v (pv_Warnings r) (pv_Preconditions r).
Definition set_pv_Warnings (v : list string) (r : Preview) : Preview :=
  mkPreview (pv_Changes r) (pv_Consequences r) v (pv_Preconditions r).
Definition set_pv_Preconditions (v : option (gmap string string)) (r : Preview) : Preview :=
  mkPreview (pv_Changes r) (pv_Consequences r) (pv_Warnings r) v.

Definition set_pl_Draft (v : Draft) (r : Plan) : Plan :=
  mkPlan (pl_ID r) (pl_Actor r) v (pl_Desired r) (pl_Preview r) (pl_CreatedAt r) (pl_ExpiresAt r) (pl_Hash r).
Definition set_pl_Desired (v : Configuration) (r : Plan) : Plan :=
  mkPlan (pl_ID r) (pl_Actor r) (pl_Draft r) v (pl_Preview r) (pl_CreatedAt r) (pl_ExpiresAt r) (pl_Hash r).
Definition set_pl_Hash (v : string) (r : Plan) : Plan :=
  mkPlan (pl_ID r) (pl_Actor r) (pl_Draft r) (pl_Desired r) (pl_Preview r) (pl_CreatedAt r) (pl_ExpiresAt r) v.

Definition set_op_State (v : string) (r : Operation) : Operation :=
  mkOperation (op_ID r) (op_Actor r) (op_Plan r) v (op_Phase r) (op_Message r) (op_Revision r) (op_CreatedAt r) (op_UpdatedAt r) (op_SourceUpdated r) (op_Dispatched r) (op_LiveApplied r) (op_RecoveryRequired r) (op_CancelRequested r) (op_Events r) (op_Artifacts r).
Definition set_op_Phase (v : string) (r : Operation) : Operation :=
  mkOperation (op_ID r) (op_Actor r) (op_Plan r) (op_State r) v (op_Message r) (op_Revision r) (op_CreatedAt r) (op_UpdatedAt r) (op_SourceUpdated r) (op_Dispatched r) (op_LiveApplied r) (op_RecoveryRequired r) (op_CancelRequested r) (op_Events r) (op_Artifacts r).
Definition set_op_Message (v : string) (r : Operation) : Operation :=
  mkOperation (op_ID r) (op_Actor r) (op_Plan r) (op_State r) (op_Phase r) v (op_Revision r) (op_CreatedAt r) (op_UpdatedAt r) (op_SourceUpdated r) (op_Dispatched r) (op_LiveApplied r) (op_RecoveryRequired r) (op_CancelRequested r) (op_Events r) (op_Artifacts r).
Definition set_op_Revision (v : Z) (r : Operation) : Operation :=
  mkOperation (op_ID r) (op_Actor r) (op_Plan r) (op_State r) (op_Phase r) (op_Message r) v (op_CreatedAt r) (op_UpdatedAt r) (op_SourceUpdated r) (op_Dispatched r) (op_LiveApplied r) (op_RecoveryRequired r) (op_CancelRequested r) (op_Events r) (op_Artifacts r).
Definition set_op_UpdatedAt (v : time) (r : Operation) : Operation :=
  mkOperation (op_ID r) (op_Actor r) (op_Plan r) (op_State r) (op_Phase r) (op_Message r) (op_Revision r) (op_CreatedAt r) v (op_SourceUpdated r) (op_Dispatched r) (op_LiveApplied r) (op_RecoveryRequired r) (op_CancelRequested r) (op_Events r) (op_Artifacts r).
Definition set_op_SourceUpdated (v : bool) (r : Operation) : Operation :=
  mkOperation (op_ID r) (op_Actor r) (op_Plan r) (op_State r) (op_Phase r) (op_Message r) (op_Revision r) (op_CreatedAt r) (op_UpdatedAt r) v (op_Dispatched r) (op_LiveApplied r) (op_RecoveryRequired r) (op_CancelRequested r) (op_Events r) (op_Artifacts r).
Definition set_op_Dispatched (v : bool) (r : Operation) : Operation :=
  mkOperation (op_ID r) (op_Actor r) (op_Plan r) (op_State r) (op_Phase r) (op_Message r) (op_Revision r) (op_CreatedAt r) (op_UpdatedAt r) (op_SourceUpdated r) v (op_LiveApplied r) (op_RecoveryRequired r) (op_CancelRequested r) (op_Events r) (op_Artifacts r).
Definition set_op_LiveApplied (v : bool) (r : Operation) : Operation :=
  mkOperation (op_ID r) (op_Actor r) (op_Plan r) (op_State r) (op_Phase r) (op_Message r) (op_Revision r) (op_CreatedAt r) (op_UpdatedAt r) (op_SourceUpdated r) (op_Dispatched r) v (op_RecoveryRequired r) (op_CancelRequested r) (op_Events r) (op_Artifacts r).
Definition set_op_RecoveryRequired (v : bool) (r : Operation) : Operation :=
  mkOperation (op_ID r) (op_Actor r) (op_Plan r) (op_State r) (op_Phase r) (op_Message r) (op_Revision r) (op_CreatedAt r) (op_UpdatedAt r) (op_SourceUpdated r) (op_Dispatched r) (op_LiveApplied r) v (op_CancelRequested r) (op_Events r) (op_Artifacts r).
Definition set_op_CancelRequested (v : bool) (r : Operation) : Operation :=
  mkOperation (op_ID r) (op_Actor r) (op_Plan r) (op_State r) (op_Phase r) (op_Message r) (op_Revision r) (op_CreatedAt r) (op_UpdatedAt r) (op_SourceUpdated r) (op_Dispatched r) (op_LiveApplied r) (op_RecoveryRequired r) v (op_Events r) (op_Artifacts r).
Definition set_op_Events (v : list Progress) (r : Operation) : Operation :=
  mkOperation (op_ID r) (op_Actor r) (op_Plan r) (op_State r) (op_Phase r) (op_Message r) (op_Revision r) (op_CreatedAt r) (op_UpdatedAt r) (op_SourceUpdated r) (op_Dispatched r) (op_LiveApplied r) (op_RecoveryRequired r) (op_CancelRequested r) v (op_Artifacts r).
Definition set_op_Artifacts (v : list Artifact) (r : Operation) : Operation :=
  mkOperation (op_ID r) (op_Actor r) (op_Plan r) (op_State r) (op_Phase r) (op_Message r) (op_Revision r) (op_CreatedAt r) (op_UpdatedAt r) (op_SourceUpdated r) (op_Dispatched r) (op_LiveApplied r) (op_RecoveryRequired r) (op_CancelRequested r) (op_Events r) v.

Definition set_in_Target (v : string) (r : Inventory) : Inventory :=
  mkInventory (in_Mode r) v (in_Environment r) (in_SourceRevision r) (in_ClusterAvailable r) (in_ClusterMessage r) (in_Profile r) (in_ServingStatus r) (in_Hardware r) (in_Models r) (in_Recipes r) (in_Caches r) (in_Harnesses r).

(** ** Decidable equality *)

#[export] Instance Serving_eq_dec : EqDecision Serving.
Proof. solve_decision. Defined.
#[export] Instance Resources_eq_dec : EqDecision Resources.
Proof. solve_decision. Defined.
#[export] Instance CacheBudgets_eq_dec : EqDecision CacheBudgets.
Proof. solve_decision. Defined.
#[export] Instance Configuration_eq_dec : EqDecision Configuration.
Proof. solve_decision. Defined.
#[export] Instance Progress_eq_dec : EqDecision Progress.
Proof. solve_decision. Defined.

(** ** Marshalled trees *)

Definition Serving_json (s : Serving) : JSON := JObject [
  ("model", JString (sv_Model s)); ("context", JInt (sv_Context s));
  ("concurrency", JInt (sv_Concurrency s)); ("memory_fraction", JFloat (sv_MemoryFraction s));
  ("cpu_offload_gib", JInt (sv_CPUOffloadGiB s));
  ("max_request_tokens", JInt (sv_MaxRequestTokens s));
  ("max_output_tokens", JInt (sv_MaxOutputTokens s))].
Definition Resources_json (r : Resources) : JSON := JObject (
  [("cpu", JInt (rs_CPU r)); ("memory_mib", JInt (rs_MemoryMiB r));
   ("shared_memory_mib", JInt (rs_SharedMemoryMiB r)); ("gpu_count", JInt (rs_GPUCount r))]
  ++ omit_str "physical_gpu" (rs_PhysicalGPU r)).
Definition CacheBudgets_json (b : CacheBudgets) : JSON := JObject [
  ("models_gib", JInt (cb_ModelsGiB b)); ("compiler_gib", JInt (cb_CompilerGiB b));
  ("shader_gib", JInt (cb_ShaderGiB b)); ("build_jobs", JInt (cb_BuildJobs b));
  ("build_memory_mib", JInt (cb_BuildMemoryMiB b)); ("scratch_gib", JInt (cb_ScratchGiB b))].
Definition Configuration_json (c : Configuration) : JSON := JObject [
  ("revision", JString (cf_Revision c)); ("serving", Serving_json (cf_Serving c));
  ("resources", Resources_json (cf_Resources c)); ("caches", CacheBudgets_json (cf_Caches c))].
Definition MemoryRequest_json (m : MemoryRequest) : JSON := JObject [
  ("evidence_id", JString (mr_EvidenceID m)); ("evidence_sha256", JString (mr_EvidenceSHA256 m));
  ("other_mib", JInt (mr_OtherMiB m))].
Definition PerformanceRequest_json (p : PerformanceRequest) : JSON := JObject [
  ("evidence_id", JString (pr_EvidenceID p)); ("evidence_sha256", JString (pr_EvidenceSHA256 p));
  ("kind", JString (pr_Kind p))].
Definition Draft_json (d : Draft) : JSON := JObject (
  [("action", JString (d_Action d)); ("target", JString (d_Target d));
   ("source_revision", JString (d_SourceRevision d))]
  ++ omit_str "model" (d_Model d) ++ omit_str "profile" (d_Profile d)
  ++ omit_str "recipe" (d_Recipe d) ++ omit_str "recovery_id" (d_RecoveryID d)
  ++ omit_ptr "serving" Serving_json (d_Serving d)
  ++ omit_ptr "resources" Resources_json (d_Resources d)
  ++ omit_ptr "caches" CacheBudgets_json (d_Caches d)
  ++ omit_ptr "memory" MemoryRequest_json (d_Memory d)
  ++ omit_ptr "performance" PerformanceRequest_json (d_Performance d)).
Definition Change_json (c : Change) : JSON := JObject [
  ("field", JString (ch_Field c)); ("before", ch_Before c); ("after", ch_After c)].
Definition Preview_json (p : Preview) : JSON := JObject [
  ("changes", JArray (Change_json <$> pv_Changes p));
  ("consequences", JArray (JString <$> pv_Consequences p));
  ("warnings", JArray (JString <$> pv_Warnings p));
  ("preconditions", match pv_Preconditions p with Some m => JMap JString m | None => JNull end)].
Definition Plan_json (p : Plan) : JSON := JObject [
  ("id", JString (pl_ID p)); ("actor", JString (pl_Actor p)); ("draft", Draft_json (pl_Draft p));
  ("desired", Configuration_json (pl_Desired p)); ("preview", Preview_json (pl_Preview p));
  ("created_at", JTime (pl_CreatedAt p)); ("expires_at", JTime (pl_ExpiresAt p));
  ("hash", JString (pl_Hash p))].
Definition Artifact_json (a : Artifact) : JSON := JObject (
  [("name", JString (ar_Name a)); ("sha256", JString (ar_SHA256 a)); ("size", JInt (ar_Size a));
   ("source_revision", JString (ar_SourceRevision a));
   ("qualification", JString (ar_Qualification a))] ++ omit_str "content" (ar_Content a)).
Definition Result_json (r : Result) : JSON := JObject (
  [("state", JString (re_State r)); ("phase", JString (re_Phase r));
   ("message", JString (re_Message r)); ("recovery_required", JBool (re_RecoveryRequired r))]
  ++ omit_list "artifacts" Artifact_json (re_Artifacts r)).

(** *** The trees determine the values *)

Lemma Serving_json_inj s s' : Serving_json s = Serving_json s' → s = s'.
Proof. destruct s, s'; unfold Serving_json; simpl; congruence. Qed.
Lemma omit_str_end_inj k s s' : omit_str k s = omit_str k s' → s = s'.
Proof.
  rewrite <- (app_nil_r (omit_str k s)), <- (app_nil_r (omit_str k s')).
  intros [? _]%omit_str_inj; auto using not_elem_of_nil.
Qed.
Lemma Resources_json_inj r r' : Resources_json r = Resources_json r' → r = r'.
Proof.
  destruct r, r'; unfold Resources_json; simpl. intros Heq.
  injection Heq as -> -> -> -> Heq. by apply omit_str_end_inj in Heq as ->.
Qed.
Lemma CacheBudgets_json_inj b b' : CacheBudgets_json b = CacheBudgets_json b' → b = b'.
Proof. destruct b, b'; unfold CacheBudgets_json; simpl; congruence. Qed.
(** One named member of a tree, [JNull] when absent. *)
Definition member (i : nat) (v : JSON) : JSON :=
  match v with JObject fs => default JNull (snd <$> fs !! i) | _ => JNull end.
Lemma Configuration_json_inj c c' : Configuration_json c = Configuration_json c' → c = c'.
Proof.
  intros Heq. pose proof (λ i, f_equal (member i) Heq) as Hm.
  pose proof (Hm 0%nat) as H0; pose proof (Hm 1%nat) as H1;
  pose proof (Hm 2%nat) as H2; pose proof (Hm 3%nat) as H3.
  cbv [member Configuration_json lookup list_lookup fmap option_fmap option_map default id snd] in *.
  injection H0 as H0. apply Serving_json_inj in H1. apply Resources_json_inj in H2.
  apply CacheBudgets_json_inj in H3. destruct c, c'; simpl in *; congruence.
Qed.
