(* ===== verification/Catalog.v ===== *)
(** The reviewed model catalogue ([internal/catalog/catalog.go]) and the literal lock file it
    is checked against.  The embedded table of models is a parameter. *)
From S2P Require Import Prelude Json.
#[local] Open Scope Z_scope.

Record CatalogFile := mkCatalogFile {
  cf_Path : string;
  cf_Size : Z;
  cf_Algorithm : string;
  cf_Digest : string }.
Record CatalogModel := mkCatalogModel {
  cm_ID : string;
  cm_Repository : string;
  cm_Revision : string;
  cm_License : string;
  cm_Quantization : string;
  cm_Files : list CatalogFile;
  cm_Size : Z;
  cm_GPUs : Z;
  cm_Context : Z;
  cm_Status : string }.
Record CatalogInventory := mkCatalogInventory {
  ci_Models : list CatalogModel;
  ci_LockHash : string;
  ci_SourceRevision : string;
  ci_Locks : gmap string string }.

Definition CatalogFile_json (f : CatalogFile) : JSON :=
  JObject [("path", JString (cf_Path f)); ("size", JInt (cf_Size f)); ("algorithm", JString (cf_Algorithm f)); ("digest", JString (cf_Digest f))].

Section Catalog.
(** [modelData] as decoded. *)
Context (modelData : list CatalogModel).

Definition select (m : CatalogModel) : CatalogModel :=
  let id := trim_prefix (cm_Repository m) "Qwen/" in
  let size := fold_left (λ n f, add64 n (cf_Size f)) (cm_Files m) (cm_Size m) in
  let '(quantization, gpus, context) :=
    if id =s "Qwen3.8-27B-FP8" then ("serialized-blockwise-FP8", 2, 32768)
    else if id =s "Qwen3.5-9B" then ("BF16", 1, 4096)
    else ("BF16", cm_GPUs m, cm_Context m) in
  mkCatalogModel id (cm_Repository m) (cm_Revision m) (cm_License m) quantization (cm_Files m) size gpus context "not-staged-not-qualified".
Definition Selected : list CatalogModel := select <$> modelData.

Definition Find (id : string) : result CatalogModel :=
  match find (λ m, id =s cm_ID m) Selected with
  | Some m => Ok m
  | None => Err (Plain "model is outside the reviewed catalog")
  end.

(** [^\[A-Z\]\[A-Z0-9_\]*$] *)
Definition lock_key (k : string) : bool :=
  match k with
  | EmptyString => false
  | String c t => is_upper c && all_chars (λ c, is_upper c || is_digit c || Ascii.eqb c "_") t
  end.
Definition inert (c : ascii) : bool :=
  negb (existsb (Ascii.eqb c) ["000"%char; "013"%char; "010"%char; "`"%char; "$"%char]).

(** The lines a scanner delivers, and its own error. *)
Fixpoint parse_lines (lines : list string) (values : gmap string string) : result (gmap string string) :=
  match lines with
  | [] => Ok values
  | raw :: lines =>
    let line := TrimSpace raw in
    if (line =s "") || has_prefix line "#" then parse_lines lines values else
    match cut_equals line with
    | None => Err (Plain "unsupported configuration assignment")
    | Some (k, v) =>
      reject negb (lock_key k) || negb (all_chars inert v) with Plain "unsupported configuration assignment" ;;
      reject is_some (values !! k) with Plain ("duplicate configuration key " +:+ k) ;;
      parse_lines lines (<[k := v]> values)
    end
  end.
Definition ParseAssignments (lines : list string) (scan_err : option error) : result (gmap string string) :=
  values ← parse_lines lines ∅;
  match scan_err with Some e => Err e | None => Ok values end.

Definition HarnessPins : gmap string string := list_to_map [
  ("QWEN_CODE_VERSION", "0.23.2"); ("QWEN_CODE_COMMIT", "f56de980b316cd5410f067fbb62357481ebd66b8");
  ("DSH_COMMIT", "c389f96bf3a9b6807cb71ed6bdad5849be0df6d8"); ("HERMES_AGENT_COMMIT", "13fb5e1eceba51fc45a48b5d95a357e144d42689")].

(** The models of the lock keys, in the order of the catalogue; a catalogue with fewer models
    would stop the program. *)
Definition lock_keys : list string := ["SGLANG_DUAL_MODEL"; "SGLANG_SINGLE_MODEL"; "RAG_EMBEDDING"].
Definition lock_of (locks : gmap string string) (k : string) : string := default "" (locks !! k).
Definition check_locks (locks : gmap string string) (models : list CatalogModel) : bool :=
  forallb (λ km, (lock_of locks (km.1 +:+ "_REPOSITORY") =s cm_Repository km.2) && (lock_of locks (km.1 +:+ "_REVISION") =s cm_Revision km.2))
    (zip lock_keys models).
Definition check_pins (locks : gmap string string) : bool :=
  forallb (λ kv, lock_of locks kv.1 =s kv.2) (map_to_list HarnessPins).

(** [Import] on the lock file: its kind and size, its bytes and their lines.  The message of
      a drift also names the pin. *)
Definition Import (info : result (bool * Z)) (content : result string) (scan : string → list string * option error)
    (digest : string → string) : result CatalogInventory :=
  '(regular, size) ← info;
  reject negb regular || (size >? 2^20) with Plain "versions.lock must be a bounded regular file" ;;
  b ← content;
  locks ← ParseAssignments (scan b).1 (scan b).2;
  reject negb (check_locks locks Selected) with Plain "selected model lock changed; review and regenerate Bridge catalog before import" ;;
  reject negb (check_pins locks) with Plain "harness contract drift: " ;;
  Ok (mkCatalogInventory Selected (digest b) ("sha256:" +:+ digest b) locks).
End Catalog.
