(* ===== verification/Staging.v ===== *)
(** The model stager ([internal/adapters/staging.go]): downloads reviewed files into a private
    tree, proves them, fixes their permissions and publishes them with one rename.

    The code runs on the tree of [FileTree].  What upstream answers, the clock, the progress
    callback, SHA-1, SHA-256 and the text of a receipt are arguments. *)
From S2P Require Import Prelude Json Types Safefile FileTree Catalog.
From stdpp Require Import pretty sorting.
#[local] Open Scope Z_scope.

Record stagedReceipt := mkReceipt {
  rc_Model : string;
  rc_Revision : string;
  rc_ManifestHash : string;
  rc_Status : string;
  rc_Files : list Artifact;
  (** [None] is the zero time *)
  rc_VerifiedAt : option time }.

#[export] Instance Artifact_eq_dec : EqDecision Artifact.
Proof. solve_decision. Defined.

Definition readerDirectoryMode : Z := 488.
Definition readerFileMode : Z := 416.
Definition receipt_name : string := ".bridge-receipt.json".

(** ** Download destinations *)

(** An address as [netip] unmaps it. *)
Inductive Address := V4 (a : Z) | V6 (a : Z).
Definition within (bits width : Z) (net a : Z) : bool := Z.shiftr a (width - bits) =? Z.shiftr net (width - bits).
Definition v4 (a b c d : Z) : Z := ((a * 256 + b) * 256 + c) * 256 + d.
(** [IsMulticast], [IsLoopback], [IsLinkLocalUnicast], [IsUnspecified], [IsPrivate] and the
    limited broadcast address. *)
Definition special_address (ip : Address) : bool :=
  match ip with
  | V4 a => (a =? 0) || (a =? 2^32 - 1) || within 4 32 (v4 224 0 0 0) a || within 8 32 (v4 127 0 0 0) a
            || within 16 32 (v4 169 254 0 0) a || within 8 32 (v4 10 0 0 0) a || within 12 32 (v4 172 16 0 0) a || within 16 32 (v4 192 168 0 0) a
  | V6 a => (a =? 0) || (a =? 1) || within 8 128 (Z.shiftl 255 120) a || within 10 128 (Z.shiftl 65152 112) a || within 7 128 (Z.shiftl 252 120) a
  end.
Definition reserved_blocks : list (Z * Z) :=
  [(8, v4 0 0 0 0); (10, v4 100 64 0 0); (16, v4 169 254 0 0); (24, v4 192 0 0 0); (24, v4 192 0 2 0); (15, v4 198 18 0 0);
   (24, v4 198 51 100 0); (24, v4 203 0 113 0); (4, v4 240 0 0 0)].
Definition publicAddress (ip : Address) : bool :=
  negb (special_address ip) &&
  match ip with
  | V4 a => negb (existsb (λ b, within b.1 32 b.2 a) reserved_blocks)
  | V6 a => negb (within 32 128 (Z.shiftl 536939960 96) a)
  end.

(** What [net/url] parsed. *)
Record URL := mkURL { ur_Scheme : string; ur_User : bool; ur_Hostname : string; ur_Port : string; ur_Path : string; ur_Fragment : string }.
Definition origins : list string :=
  ["huggingface.co"; "cdn-lfs.huggingface.co"; "cdn-lfs.hf.co"; "cdn-lfs-us-1.hf.co"; "cas-bridge.xethub.hf.co"].
Definition to_lower (c : ascii) : ascii := if is_upper c then ascii_of_N (N_of_ascii c + 32) else c.
Definition ToLower (s : string) : string := String.string_of_list_ascii (to_lower <$> chars s).
Definition reviewedURL (u : URL) : bool :=
  (ur_Scheme u =s "https") && negb (ur_User u) && str_in (ToLower (ur_Hostname u)) origins
  && ((ur_Port u =s "") || (ur_Port u =s "443")) && (ur_Fragment u =s "").
(** [CheckRedirect] and the dialer of the download client; [dial] is whether a connection to
    an address succeeds. *)
Definition CheckRedirect (via : Z) (u : URL) : result unit :=
  reject (via >? 5) || negb (reviewedURL u) with Plain "download redirect is outside reviewed HTTPS origins" ;;
  Ok tt.
Definition DialContext (lookup : option (list Address)) (dial : Address → bool) : result Address :=
  match lookup with
  | None => Err (Plain "download DNS resolution failed")
  | Some [] => Err (Plain "download host has no address")
  | Some ips =>
    reject negb (forallb publicAddress ips) with Plain "download destination is not a public address" ;;
    match List.find dial ips with Some ip => Ok ip | None => Err (Plain "download connection failed") end
  end.

(** [NewStager] on what [Lstat] shows of the root: the mode of a directory, [None] for anything
    else. *)
Definition NewStager (root : string) (budget : Z) (info : result (option Z)) : result unit :=
  reject negb (is_abs root) || (root =s "/") || (budget <? 1) with Plain "managed model root and byte budget are required" ;;
  mode ← info;
  reject match mode with Some m => negb (setgid m) || negb (perm m =? readerDirectoryMode) | None => true end
    with Plain "model root must be a real 2750 setgid directory with the reviewed workload reader group" ;;
  Ok tt.

(** ** Names and digests *)

(** [safeRelative]: no path it accepts holds a NUL, a backslash or a step upwards. *)
Definition safeRelative (p : string) : bool :=
  (p <>s "") && (clean p =s p) && negb (has_prefix p "/") && negb (contains p "\") && negb (contains p (String "000" ""))
  && (p <>s "..") && negb (has_prefix p "../").

Definition model_char (c : ascii) : bool := is_alnum c || existsb (Ascii.eqb c) ["."%char; "_"%char; "-"%char].
Definition modelPrefix (m : CatalogModel) : result string :=
  reject negb (headed_name model_char 0 100 (cm_ID m)) || negb (hex_string 40 (cm_Revision m)) with Plain "invalid model identity" ;;
  Ok (cm_ID m +:+ "/" +:+ cm_Revision m).

(** The ancestors of a manifest path up to ["."]; the loop does not end on an absolute path
    ([None]), which no reviewed manifest has. *)
Fixpoint ancestors (fuel : nat) (dir : string) : option (list string) :=
  match fuel with
  | O => None
  | S fuel => if dir =s "." then Some [] else cons dir <$> ancestors fuel (path_dir dir)
  end.
Definition snapshotDirectories (m : CatalogModel) : result (list string) :=
  match mapM (λ f, ancestors (S (S (String.length (cf_Path f)))) (path_dir (cf_Path f))) (cm_Files m) with
  | Some l => Ok (merge_sort str_le (elements (list_to_set ("" :: concat l) : gset string)))
  | None => Err (Plain "does not return")
  end.
Definition joinSnapshot (snapshot rel : string) : string := if rel =s "" then snapshot else snapshot +:+ "/" +:+ rel.

(** What upstream delivers for one file. *)
Record Reply := mkReply { rp_Status : Z; rp_Length : Z; rp_Body : string; rp_Broken : bool }.

Section Stager.
Context `{Sha256}.
(** Hexadecimal SHA-256 and SHA-1 of a text. *)
Context (sha256 sha1 : string → string).
(** The system, the receipt's text, upstream, the clock, the progress callback and the name
    [os.MkdirTemp] draws. *)
Context (fail : nat → bool) (short : nat → nat) (links : nat) (umask egid : Z).
Context (enc_receipt : stagedReceipt → string) (dec_receipt : string → option stagedReceipt).
Context (fetch : URL → option Reply) (now : time) (progress : string → Z → bool) (temp : string).

#[local] Abbreviation syscall := (syscall fail).
#[local] Abbreviation Lstat := (Lstat fail links).
#[local] Abbreviation Open := (Open fail links).
#[local] Abbreviation Sync := (Sync fail).
#[local] Abbreviation Mkdir := (Mkdir fail links umask egid).
#[local] Abbreviation Create := (Create fail links umask egid).
#[local] Abbreviation Chmod := (Chmod fail).
#[local] Abbreviation WriteTo := (WriteTo fail short).

(** [hashFor] and the digest it yields for a content of the file's size. *)
Definition hashFor (f : CatalogFile) : result (string → string) :=
  if cf_Algorithm f =s "sha256" then
    reject negb (str_len (cf_Digest f) =? 64) with Plain "invalid SHA256" ;; Ok sha256
  else if cf_Algorithm f =s "git-sha1" then
    reject negb (str_len (cf_Digest f) =? 40) with Plain "invalid Git blob hash" ;;
    Ok (λ c, sha1 ("blob " +:+ pretty (cf_Size f) +:+ String "000" "" +:+ c))
  else Err (Plain "unsupported artifact digest").

Definition manifest_hash (m : CatalogModel) : string := sha256_hex (JArray (CatalogFile_json <$> cm_Files m)).

Fixpoint artifacts_match (got want : list Artifact) : bool :=
  match got, want with
  | [], [] => true
  | g :: got, w :: want =>
    bool_decide (g = mkArtifact (ar_Name w) (ar_SHA256 w) (ar_Size w) (ar_SourceRevision w) "staged-inputs-not-qualified" (ar_Content w))
    && artifacts_match got want
  | _, _ => false
  end.
Definition receiptMatches (r : stagedReceipt) (m : CatalogModel) (artifacts : list Artifact) : bool :=
  (rc_Model r =s cm_ID m) && (rc_Revision r =s cm_Revision m) && (rc_ManifestHash r =s manifest_hash m)
  && (rc_Status r =s "verified-inputs-not-qualified") && is_some (rc_VerifiedAt r) && Nat.eqb (length (rc_Files r)) (length artifacts)
  && artifacts_match (rc_Files r) artifacts.

(** ** Checks of one node *)

Definition rootGroup : FS Z :=
  syscall;; t ← tree;
  match t !! [] with Some (TDir _ g) => mret g | _ => throw (Plain "model root group cannot be observed") end.

Definition checkedDirectory (p : string) (group : Z) : FS Z :=
  n ← Lstat p;
  match n with
  | TDir mode g => refuse negb (g =? group) with Plain "model directory does not retain the reviewed reader group" ;; mret mode
  | _ => throw (Plain "managed path contains a symlink or non-directory")
  end.
Definition checkedRegularFile (p : string) (group : Z) : FS (Z * string) :=
  n ← Lstat p;
  match n with
  | TFile mode g content => refuse negb (g =? group) with Plain "model file does not retain the reviewed reader group" ;; mret (mode, content)
  | _ => throw (Plain "model file is missing, symlinked or not regular")
  end.

Definition reader_directory (mode : Z) : bool := (perm mode =? readerDirectoryMode) && negb (setuid mode) && negb (sticky mode).
Definition reader_file (mode : Z) : bool := (perm mode =? readerFileMode) && negb (setuid mode) && negb (setgid mode) && negb (sticky mode).
Definition requireReaderDirectory (p : string) (group : Z) : FS unit :=
  mode ← checkedDirectory p group;
  refuse negb (reader_directory mode) with Plain "published model directory is not group-traversable mode 0750 or legacy 2750" ;; mret tt.
Definition requireReaderFile (p : string) (group : Z) : FS unit :=
  '(mode, _) ← checkedRegularFile p group;
  refuse negb (reader_file mode) with Plain "published model file is not group-readable mode 0640" ;; mret tt.
Definition requirePrivateStagingDirectory (p : string) : FS unit :=
  group ← rootGroup; mode ← checkedDirectory p group;
  refuse negb (perm mode =? 448) || setuid mode || sticky mode with Plain "partial model directory must be owner-only" ;; mret tt.

(** [chmodAndSync]: the descriptor is of the node seen before. *)
Definition chmodAndSync (p : string) (mode : Z) : FS unit :=
  before ← Lstat p;
  refuse match before with TDir _ _ | TFile _ _ _ => false | _ => true end with Plain "refusing permissions on non-managed inode" ;;
  q ← Open p; syscall;; Chmod q mode;; Sync.

(** [rootParents]: the directories above [p], made where they are missing. *)
Fixpoint parents_from (group : Z) (cur : string) (l : list string) : FS unit :=
  match l with
  | [] => mret tt
  | part :: l =>
    if part =s "." then parents_from group cur l else
    let cur := path_join cur part in
    made ← try (Mkdir cur readerDirectoryMode);
    match made with
    | Err e => refuse negb (bool_decide (e = ErrExist)) with e ;; mret tt
    | Ok _ => mret tt
    end;;
    checkedDirectory cur group;; parents_from group cur l
  end.
Definition rootParents (p : string) : FS unit := group ← rootGroup; parents_from group "" (parts (path_dir p)).

(** ** Snapshots *)

Definition snapshot_files (m : CatalogModel) : list string := (cf_Path <$> cm_Files m) ++ [receipt_name].

(** One file of the reviewed manifest. *)
Definition validate_file (snapshot : string) (m : CatalogModel) (requireModes : bool) (group : Z) (f : CatalogFile) : FS Artifact :=
  refuse negb (safeRelative (cf_Path f)) with Plain "unsafe manifest path" ;;
  syscall;;
  let p := snapshot +:+ "/" +:+ cf_Path f in
  found ← try (checkedRegularFile p group);
  content ← match found with
    | Ok (_, content) => refuse negb (str_len content =? cf_Size f) with Plain "model file missing, symlinked or wrong size" ;; mret content
    | Err _ => throw (Plain "model file missing, symlinked or wrong size")
    end;
  (if requireModes then requireReaderFile p group else mret tt);;
  Open p;;
  h ← lift (hashFor f);
  syscall;;
  refuse h content <>s cf_Digest f with Plain "staged model digest mismatch" ;;
  mret (mkArtifact (cf_Path f) (sha256 content) (cf_Size f) (cm_Revision m) "verified-inputs-not-qualified" "").
Fixpoint validate_files (snapshot : string) (m : CatalogModel) (requireModes : bool) (group : Z) (l : list CatalogFile) : FS (list Artifact) :=
  match l with
  | [] => mret []
  | f :: l => a ← validate_file snapshot m requireModes group f; rest ← validate_files snapshot m requireModes group l; mret (a :: rest)
  end.

(** One entry of the walk below the snapshot, by its name relative to it; the order of the walk
    only decides which refusal is reported. *)
Definition reviewed_entry (directories expected : list string) (e : list string * TNode) : bool :=
  match e.2 with
  | TDir _ _ => str_in (join_path e.1) directories
  | TFile _ _ _ => str_in (join_path e.1) expected
  | TLink _ | TSpecial => false
  end.
Definition walk_snapshot (snapshot : string) (directories expected : list string) : FS unit :=
  q ← Open snapshot; t ← tree;
  refuse negb (forallb (reviewed_entry directories expected) (below t q)) with Plain "staged model contains unreviewed extra file" ;;
  mret tt.

Definition validateSnapshot (snapshot : string) (m : CatalogModel) (requireModes : bool) : FS (list Artifact) :=
  group ← rootGroup;
  directories ← lift (snapshotDirectories m);
  each (λ dir, let p := joinSnapshot snapshot dir in
    if requireModes then requireReaderDirectory p group else checkedDirectory p group;; mret tt) directories;;
  result ← validate_files snapshot m requireModes group (cm_Files m);
  let receiptPath := snapshot +:+ "/" +:+ receipt_name in
  (if requireModes then requireReaderFile receiptPath group else checkedRegularFile receiptPath group;; mret tt);;
  q ← Open receiptPath; t ← tree;
  syscall;;
  let content := match t !! q with Some (TFile _ _ c) => c | _ => "" end in
  refuse negb match dec_receipt content with Some r => receiptMatches r m result | None => false end
    with Plain "staged model receipt does not match verified manifest" ;;
  walk_snapshot snapshot directories (snapshot_files m);;
  mret result.

Definition setPublishedSnapshotPermissions (snapshot : string) (m : CatalogModel) : FS unit :=
  group ← rootGroup;
  directories ← lift (snapshotDirectories m);
  each (λ dir, let p := joinSnapshot snapshot dir in
    checkedDirectory p group;; chmodAndSync p readerDirectoryMode;; requireReaderDirectory p group) directories;;
  each (λ f, let p := snapshot +:+ "/" +:+ f in
    checkedRegularFile p group;; chmodAndSync p readerFileMode;; requireReaderFile p group) (snapshot_files m).

Definition setModelParentPermissions (prefix : string) : FS unit :=
  let parent := path_dir prefix in
  group ← rootGroup; checkedDirectory parent group;; chmodAndSync parent readerDirectoryMode;; requireReaderDirectory parent group.

Definition publishedReaderModes (prefix : string) (m : CatalogModel) : FS unit :=
  group ← rootGroup;
  requireReaderDirectory (path_dir prefix) group;;
  directories ← lift (snapshotDirectories m);
  each (λ dir, requireReaderDirectory (joinSnapshot prefix dir) group) directories;;
  each (λ f, requireReaderFile (prefix +:+ "/" +:+ f) group) (snapshot_files m).

(** [usedBytes]: every entry of the tree is a directory or a regular file. *)
Definition node_size (n : TNode) : Z := match n with TFile _ _ c => str_len c | _ => 0 end.
Definition usedBytes : FS Z :=
  syscall;; t ← tree;
  refuse negb (forallb (λ kv, plain_node kv.2) (map_to_list t)) with Plain "managed tree contains symlink or special file" ;;
  mret (fold_left (λ n kv, add64 n (node_size kv.2)) (map_to_list t) 0).

(** ** Operations of the stager *)

Definition repairPublishedPermissions (prefix : string) (m : CatalogModel) : FS (list Artifact) :=
  result ← validateSnapshot prefix m false;
  setModelParentPermissions prefix;;
  setPublishedSnapshotPermissions prefix m;;
  validateSnapshot prefix m true;;
  mret result.

(** The checks of the manifest, and the bytes it needs. *)
Fixpoint needed_bytes (budget : Z) (l : list CatalogFile) (seen : list string) (needed : Z) : result Z :=
  match l with
  | [] => Ok needed
  | f :: l =>
    reject negb (safeRelative (cf_Path f)) || str_in (cf_Path f) seen || (cf_Size f <? 0) with Plain "unsafe or duplicate model file" ;;
    _ ← hashFor f;
    let needed := add64 needed (cf_Size f) in
    reject needed >? budget with Plain "model snapshot exceeds budget" ;;
    needed_bytes budget l (cf_Path f :: seen) needed
  end.

Definition model_url (m : CatalogModel) (f : CatalogFile) : URL :=
  mkURL "https" false "huggingface.co" "" ("/" +:+ cm_Repository m +:+ "/resolve/" +:+ cm_Revision m +:+ "/" +:+ cf_Path f) "".

(** The download of one file: the copy stops one byte past the reviewed size. *)
Definition download_file (snapshot : string) (m : CatalogModel) (f : CatalogFile) (copied : Z) : FS Artifact :=
  syscall;;
  let rel := snapshot +:+ "/" +:+ cf_Path f in
  rootParents rel;;
  let u := model_url m f in
  refuse negb (reviewedURL u) with Plain "model origin not reviewed" ;;
  match fetch u with
  | None => throw (Plain "model download failed; partial files retained without publication")
  | Some r =>
    refuse negb (rp_Status r =? 200) with Plain ("model download HTTP status " +:+ pretty (rp_Status r)) ;;
    refuse (0 <=? rp_Length r) && negb (rp_Length r =? cf_Size f) with Plain "upstream file size differs from reviewed manifest" ;;
    out ← Create rel readerFileMode;
    t ← tree;
    refuse match t !! out, t !! [] with Some (TFile _ g _), Some (TDir _ rg) => negb (g =? rg) | _, _ => true end
      with Plain "model file did not inherit reviewed reader group" ;;
    let content := String.substring 0 (Z.to_nat (cf_Size f + 1)) (rp_Body r) in
    written ← try (WriteTo out content);
    synced ← try Sync;
    closed ← try syscall;
    refuse rp_Broken r || negb (is_ok written) || negb (is_ok synced) || negb (is_ok closed) || negb (str_len content =? cf_Size f)
      with Plain "interrupted or incomplete model file; partial retained" ;;
    h ← lift (hashFor f);
    refuse h content <>s cf_Digest f with Plain "model integrity check failed; partial retained" ;;
    refuse negb (progress (cf_Path f) (add64 copied (str_len content))) with Plain "progress" ;;
    mret (mkArtifact (cf_Path f) (sha256 content) (str_len content) (cm_Revision m) "staged-inputs-not-qualified" "")
  end.
Fixpoint download_files (snapshot : string) (m : CatalogModel) (l : list CatalogFile) (copied : Z) : FS (list Artifact) :=
  match l with
  | [] => mret []
  | f :: l =>
    a ← download_file snapshot m f copied;
    rest ← download_files snapshot m l (add64 copied (ar_Size a));
    mret (a :: rest)
  end.

Definition receipt_of (m : CatalogModel) (artifacts : list Artifact) : stagedReceipt :=
  mkReceipt (cm_ID m) (cm_Revision m) (manifest_hash m) "verified-inputs-not-qualified" artifacts (Some now).
Definition write_receipt (snapshot : string) (m : CatalogModel) (artifacts : list Artifact) : FS unit :=
  q ← Create (snapshot +:+ "/" +:+ receipt_name) readerFileMode;
  written ← try (WriteTo q (enc_receipt (receipt_of m artifacts));; Sync);
  closed ← try syscall;
  lift written;; lift closed.

(** Opening a directory and syncing it. *)
Definition SyncDir (p : string) : FS unit := Open p;; Sync.

(** The private tree, up to the publication. *)
Definition build_snapshot (tmpName : string) (m : CatalogModel) : FS (list Artifact) :=
  let snapshot := tmpName +:+ "/snapshot" in
  requirePrivateStagingDirectory tmpName;;
  Mkdir snapshot 448;;
  requirePrivateStagingDirectory snapshot;;
  artifacts ← download_files snapshot m (cm_Files m) 0;
  write_receipt snapshot m artifacts;;
  SyncDir snapshot;;
  mret artifacts.
(** Its proof, its permissions and the rename. *)
Definition publish (tmpName prefix : string) (m : CatalogModel) : FS unit :=
  let snapshot := tmpName +:+ "/snapshot" in
  rootParents prefix;;
  setModelParentPermissions prefix;;
  validateSnapshot snapshot m false;;
  setPublishedSnapshotPermissions snapshot m;;
  requirePrivateStagingDirectory tmpName;;
  present ← try (Lstat prefix);
  refuse is_ok present with Plain "model publication conflict" ;;
  Rename fail links snapshot prefix.
Definition conclude_stage (tmpName prefix : string) (m : CatalogModel) : FS unit :=
  SyncDir (path_dir prefix);;
  removed ← try (Remove fail links tmpName);
  refuse negb (is_ok removed) with Plain "published model snapshot but could not remove private staging directory" ;;
  SyncDir ".";;
  validateSnapshot prefix m true;;
  mret tt.

(** [Stage]: [free] is what the file system reports for the root. *)
Definition Stage (budget : Z) (free : result Z) (m : CatalogModel) : FS (list Artifact) :=
  syscall;;
  prefix ← lift (modelPrefix m);
  present ← try (Lstat prefix);
  if is_ok present then repairPublishedPermissions prefix m else
  needed ← lift (needed_bytes budget (cm_Files m) [] 0);
  used ← usedBytes;
  free ← lift free;
  refuse (needed >? sub64 budget used) || (add64 needed (256 * 1024 * 1024) >? free)
    with Plain "insufficient managed storage budget or free space" ;;
  let tmpName := ".partial-" +:+ temp in
  Mkdir tmpName 448;;
  artifacts ← build_snapshot tmpName m;
  publish tmpName prefix m;;
  conclude_stage tmpName prefix m;;
  mret artifacts.

Definition StagerVerify (m : CatalogModel) : FS (list Artifact) :=
  syscall;;
  prefix ← lift (modelPrefix m);
  publishedReaderModes prefix m;;
  validateSnapshot prefix m true.
Definition RepairPublishedPermissions (m : CatalogModel) : FS (list Artifact) :=
  syscall;; prefix ← lift (modelPrefix m); repairPublishedPermissions prefix m.
Definition VerifyContent (m : CatalogModel) : FS (list Artifact) :=
  syscall;; prefix ← lift (modelPrefix m); validateSnapshot prefix m false.

Definition snapshotPresent (m : CatalogModel) : FS bool :=
  prefix ← lift (modelPrefix m);
  syscall;;
  found ← try (Lstat prefix);
  match found with
  | Ok _ => mret true
  | Err e => if bool_decide (e = ErrNotExist) then mret false else throw e
  end.

(** [Status]; [format] is the RFC 3339 text of a time. *)
Definition StagerStatus (format : option time → string) (m : CatalogModel) : FS string :=
  match modelPrefix m with
  | Err _ => mret "invalid"
  | Ok p =>
    opened ← try syscall;
    if negb (is_ok opened) then mret "unavailable" else
    found ← try (Open (p +:+ "/" +:+ receipt_name));
    match found with
    | Err _ => mret "not-staged"
    | Ok q =>
      t ← tree;
      match match t !! q with Some (TFile _ _ c) => dec_receipt c | _ => None end with
      | None => mret "verification-required"
      | Some r =>
        if (rc_ManifestHash r <>s manifest_hash m) || (rc_Revision r <>s cm_Revision m) then mret "verification-required" else
        modes ← try (publishedReaderModes p m);
        if is_ok modes then mret (rc_Status r +:+ " at " +:+ format (rc_VerifiedAt r)) else mret "verification-required"
      end
    end
  end.

(** [CacheUsage], from the sizes and names the walk and the listing deliver. *)
Definition CacheUsage (name : string) (budget : Z) (listing : result (list string)) : FS Cache :=
  opened ← try syscall;
  if negb (is_ok opened) then mret (mkCache name 0 budget "unavailable" []) else
  used ← try usedBytes;
  match used with
  | Err _ => mret (mkCache name 0 budget "unsafe-path" [])
  | Ok n =>
    let partials := match listing with
      | Ok l => (λ e, e +:+ " — incomplete transfer; owner review only") <$> List.filter (λ e, has_prefix e ".partial-") l
      | Err _ => [] end in
    mret (mkCache name n budget "observed" partials)
  end.
End Stager.
