(* ===== verification/Published.v ===== *)
(** What the stager guarantees about published models: a snapshot reaches its public name only
    complete, proved and readable, whatever fails on the way ([Staging], over [FileTree]). *)
From stdpp Require Import sorting pretty.
From S2P Require Import Prelude Json Types Safefile FileTree Catalog Staging.
#[local] Open Scope Z_scope.

(** ** Changes of mode *)

Definition published_mode (n : TNode) : bool :=
  match n with TDir m _ => reader_directory m | TFile m _ _ => reader_file m | _ => false end.
(** A node without its mode. *)
Definition strip (n : TNode) : TNode := match n with TDir _ g => TDir 0 g | TFile _ g c => TFile 0 g c | _ => n end.

(** A node is as it was, except that its mode may have become the published one of its kind. *)
Definition as_was (t t' : Tree) (p : list string) : Prop :=
  strip <$> t' !! p = strip <$> t !! p ∧ (t' !! p = t !! p ∨ ∃ n', t' !! p = Some n' ∧ published_mode n' = true).
#[export] Instance as_was_preorder p : PreOrder (λ t t', as_was t t' p).
Proof.
  split.
  - intros t. split; [done|by left].
  - intros t1 t2 t3 [E12 M12] [E23 M23]. split; [congruence|]. destruct M23 as [->|]; [|by right]. done.
Qed.
(** All nodes are. *)
Definition remoded (t t' : Tree) : Prop := ∀ p, as_was t t' p.
#[export] Instance remoded_preorder : PreOrder remoded.
Proof. split; [intros t p; apply as_was_preorder|intros t1 t2 t3 H12 H23 p; exact (transitivity (R := λ t t', as_was t t' p) (H12 p) (H23 p))]. Qed.
Lemma remoded_mode t t' p n n' : as_was t t' p → t !! p = Some n → t' !! p = Some n' → published_mode n = true → published_mode n' = true.
Proof. intros [_ [E|(x & E & Hx)]] Hn Hn' Hm; congruence. Qed.

Definition same_nodes (t t' : Tree) : Prop := ∀ p, strip <$> t' !! p = strip <$> t !! p.

Lemma same_nodes_lookup t t' p : same_nodes t t' →
  match t !! p, t' !! p with
  | Some n, Some n' => strip n' = strip n
  | None, None => True
  | _, _ => False
  end.
Proof. intros Hs. specialize (Hs p). destruct (t !! p), (t' !! p); try done. by injection Hs. Qed.

Lemma resolve_same follow t t' : same_nodes t t' → ∀ n l cur, resolve follow t' n cur l = resolve follow t n cur l.
Proof.
  intros Hs. induction n as [n IHn] using lt_wf_ind. induction l as [|x l IH]; intros cur; [by rewrite !resolve_nil|].
  rewrite !resolve_cons. destruct (_ || _); [done|]. destruct (x =s ".."); [by destruct cur|].
  pose proof (same_nodes_lookup _ _ (cur ++ [x]) Hs) as Hn.
  destruct (t !! (cur ++ [x])) as [[| | |]|], (t' !! (cur ++ [x])) as [[| | |]|]; simpl in Hn; try done.
  injection Hn as ->. destruct (_ && _); [done|]. destruct (is_abs target); [done|]. destruct n as [|n]; [done|]. apply IHn. lia.
Qed.

Lemma remoded_same t t' : remoded t t' → same_nodes t t'.
Proof. intros Hr p. apply Hr. Qed.

Lemma find_remoded links t t' p n : remoded t t' → find links t p = Some n →
  ∃ n', find links t' p = Some n' ∧ strip n' = strip n ∧ (published_mode n = true → published_mode n' = true).
Proof.
  intros Hr Hf. unfold find, locate in *. rewrite (resolve_same _ t t') by by apply remoded_same.
  destruct (resolve false t links [] (parts p)) as [q|]; [|done]. simpl in *. pose proof (Hr q) as Hq. destruct (Hr q) as [He _]. rewrite Hf in He.
  destruct (t' !! q) as [n'|] eqn:Hn'; [|done]. simpl in He. injection He as He. eauto using remoded_mode.
Qed.

Lemma find_located links t p n : find links t p = Some n → (∀ tg, n ≠ TLink tg) → ∃ q, locate links true t p = Some q ∧ t !! q = Some n.
Proof.
  unfold find, locate. intros Hf Hn. destruct (resolve false t links [] (parts p)) as [q|] eqn:Hq; [|done]. simpl in Hf.
  exists q. split; [|done]. apply resolve_follow; [done|]. intros tg Ht. rewrite Hf in Ht. injection Ht as ->. by destruct (Hn tg).
Qed.

Section Published.
Context `{Sha256} (sha256 sha1 : string → string) (fail : nat → bool) (short : nat → nat) (links : nat) (umask egid : Z).
Context (enc_receipt : stagedReceipt → string) (dec_receipt : string → option stagedReceipt).
Context (fetch : URL → option Reply) (now : time) (progress : string → Z → bool) (temp : string).
Implicit Types (w : World) (t : Tree) (m : CatalogModel).

#[local] Abbreviation rootGroup := (rootGroup fail).
#[local] Abbreviation find := (find links).
#[local] Abbreviation hashFor := (hashFor sha256 sha1).
#[local] Abbreviation checkedDirectory := (checkedDirectory fail links).
#[local] Abbreviation checkedRegularFile := (checkedRegularFile fail links).
#[local] Abbreviation requireReaderDirectory := (requireReaderDirectory fail links).
#[local] Abbreviation requireReaderFile := (requireReaderFile fail links).
#[local] Abbreviation chmodAndSync := (chmodAndSync fail links).
#[local] Abbreviation validateSnapshot := (validateSnapshot sha256 sha1 fail links dec_receipt).
#[local] Abbreviation setPublishedSnapshotPermissions := (setPublishedSnapshotPermissions fail links).
#[local] Abbreviation setModelParentPermissions := (setModelParentPermissions fail links).
#[local] Abbreviation publishedReaderModes := (publishedReaderModes fail links).

(** ** Checks change nothing and mean what they say *)

Lemma rootGroup_pure : keeps eq rootGroup.
Proof. unfold rootGroup. keeps. Qed.
Lemma checkedDirectory_pure p g : keeps eq (checkedDirectory p g).
Proof. unfold checkedDirectory. keeps. Qed.
Lemma checkedRegularFile_pure p g : keeps eq (checkedRegularFile p g).
Proof. unfold checkedRegularFile. keeps. Qed.
#[local] Hint Resolve rootGroup_pure checkedDirectory_pure checkedRegularFile_pure : fs.
Lemma requireReaderDirectory_pure p g : keeps eq (requireReaderDirectory p g).
Proof. unfold requireReaderDirectory. keeps. Qed.
Lemma requireReaderFile_pure p g : keeps eq (requireReaderFile p g).
Proof. unfold requireReaderFile. keeps. Qed.
Lemma requirePrivate_pure p : keeps eq (requirePrivateStagingDirectory fail links p).
Proof. unfold requirePrivateStagingDirectory. keeps. Qed.
#[local] Hint Resolve requireReaderDirectory_pure requireReaderFile_pure requirePrivate_pure : fs.
Lemma validate_file_pure s m b g f : keeps eq (validate_file sha256 sha1 fail links s m b g f).
Proof. unfold validate_file. keeps. Qed.
#[local] Hint Resolve validate_file_pure : fs.
Lemma validate_files_pure s m b g l : keeps eq (validate_files sha256 sha1 fail links s m b g l).
Proof. induction l; simpl; keeps. Qed.
#[local] Hint Resolve validate_files_pure : fs.
Lemma walk_snapshot_pure s d e : keeps eq (walk_snapshot fail links s d e).
Proof. unfold walk_snapshot. keeps. Qed.
#[local] Hint Resolve walk_snapshot_pure : fs.
Lemma validateSnapshot_pure s m b : keeps eq (validateSnapshot s m b).
Proof. unfold validateSnapshot. keeps. Qed.
Lemma publishedReaderModes_pure p m : keeps eq (publishedReaderModes p m).
Proof. unfold publishedReaderModes. keeps. Qed.
#[local] Hint Resolve validateSnapshot_pure publishedReaderModes_pure : fs.

Definition root_group t (g : Z) : Prop := ∃ mode, t !! [] = Some (TDir mode g).
Lemma rootGroup_ok w w' g : rootGroup w = (w', Ok g) → w_tree w' = w_tree w ∧ root_group (w_tree w) g.
Proof.
  unfold rootGroup. cbv [mbind FS_bind syscall tree throw mret FS_ret]. destruct (fail (w_calls w)); [done|]. simpl.
  destruct (w_tree w !! []) as [[mode g'| | |]|] eqn:Ht; try done. intros [= <- <-]. split; [done|]. by exists mode.
Qed.
Lemma checkedDirectory_ok p g w w' mode : checkedDirectory p g w = (w', Ok mode) → w_tree w' = w_tree w ∧ find (w_tree w) p = Some (TDir mode g).
Proof.
  unfold checkedDirectory. intros (w1 & n & [Ht Hf]%Lstat_found & Hn)%FS_bind_ok. destruct n as [mode' g'| | |]; try done.
  apply refuse_ok in Hn as [Hg [= -> ->]]. bool_hyps. by subst g'.
Qed.
Lemma checkedRegularFile_ok p g w w' mode c :
  checkedRegularFile p g w = (w', Ok (mode, c)) → w_tree w' = w_tree w ∧ find (w_tree w) p = Some (TFile mode g c).
Proof.
  unfold checkedRegularFile. intros (w1 & n & [Ht Hf]%Lstat_found & Hn)%FS_bind_ok. destruct n as [|mode' g' c'| |]; try done.
  apply refuse_ok in Hn as [Hg [= -> -> ->]]. bool_hyps. by subst g'.
Qed.
Lemma requireReaderDirectory_ok p g w w' : requireReaderDirectory p g w = (w', Ok tt) →
  w_tree w' = w_tree w ∧ ∃ mode, find (w_tree w) p = Some (TDir mode g) ∧ reader_directory mode = true.
Proof.
  unfold requireReaderDirectory. intros (w1 & mode & [Ht Hf]%checkedDirectory_ok & Hn)%FS_bind_ok.
  apply refuse_ok in Hn as [Hr [= <-]]. bool_hyps. eauto.
Qed.
Lemma requireReaderFile_ok p g w w' : requireReaderFile p g w = (w', Ok tt) →
  w_tree w' = w_tree w ∧ ∃ mode c, find (w_tree w) p = Some (TFile mode g c) ∧ reader_file mode = true.
Proof.
  unfold requireReaderFile. intros (w1 & [mode c] & [Ht Hf]%checkedRegularFile_ok & Hn)%FS_bind_ok.
  apply refuse_ok in Hn as [Hr [= <-]]. bool_hyps. eauto.
Qed.
Lemma requirePrivate_ok p w w' : requirePrivateStagingDirectory fail links p w = (w', Ok tt) → ∃ mode g, find (w_tree w) p = Some (TDir mode g).
Proof.
  unfold requirePrivateStagingDirectory. intros (w1 & g & [Ht _]%rootGroup_ok & Hn)%FS_bind_ok.
  apply FS_bind_ok in Hn as (w2 & mode & [_ Hf]%checkedDirectory_ok & _). rewrite Ht in Hf. eauto.
Qed.

(** A content that is what the review approved. *)
Definition reviewed (f : CatalogFile) (c : string) : Prop := str_len c = cf_Size f ∧ ∃ h, hashFor f = Ok h ∧ h c = cf_Digest f.
Definition receipted m (c : string) : Prop := ∃ r, dec_receipt c = Some r ∧
  rc_Model r = cm_ID m ∧ rc_Revision r = cm_Revision m ∧ rc_ManifestHash r = manifest_hash m ∧ rc_VerifiedAt r ≠ None.

(** What [validateSnapshot] saw through paths; [modes] is whether it asked for reader modes. *)
Record validated (modes : bool) t (s : string) m (g : Z) : Prop := {
  va_group : root_group t g;
  va_dirs : ∃ ds, snapshotDirectories m = Ok ds ∧
    (∀ d, d ∈ ds → ∃ mode, find t (joinSnapshot s d) = Some (TDir mode g) ∧ (modes = true → reader_directory mode = true)) ∧
    ∃ q, locate links true t s = Some q ∧ Forall (λ e, reviewed_entry ds (snapshot_files m) e = true) (below t q);
  va_files f : f ∈ cm_Files m → safeRelative (cf_Path f) = true ∧
    ∃ mode c, find t (s +:+ "/" +:+ cf_Path f) = Some (TFile mode g c) ∧ reviewed f c ∧ (modes = true → reader_file mode = true);
  va_receipt : ∃ mode c, find t (s +:+ "/" +:+ receipt_name) = Some (TFile mode g c) ∧ receipted m c ∧ (modes = true → reader_file mode = true) }.

Lemma validate_file_ok s m modes g f w w' a :
  validate_file sha256 sha1 fail links s m modes g f w = (w', Ok a) →
  safeRelative (cf_Path f) = true ∧ ar_Name a = cf_Path f ∧
  ∃ mode c, find (w_tree w) (s +:+ "/" +:+ cf_Path f) = Some (TFile mode g c) ∧ reviewed f c ∧ (modes = true → reader_file mode = true).
Proof.
  unfold validate_file. intros [Hs Hv]%refuse_ok. apply FS_bind_ok in Hv as (w1 & [] & H1 & Hv).
  apply pure_run in H1; [|apply keeps_syscall; apply _]. cbv zeta in Hv. apply FS_bind_ok in Hv as (w2 & found & H2 & Hv).
  unfold try in H2. destruct (checkedRegularFile _ g w1) as [w3 r] eqn:H3. injection H2 as <- <-.
  destruct r as [[mode c]|]; [|by apply FS_bind_ok in Hv as (? & ? & [=] & _)]. apply checkedRegularFile_ok in H3 as [E3 Hf].
  apply FS_bind_ok in Hv as (w4 & c' & [Hlen [= -> ->]]%refuse_ok & Hv). apply FS_bind_ok in Hv as (w5 & [] & H5 & Hv).
  rewrite H1 in Hf. assert (w_tree w5 = w_tree w4 ∧ (modes = true → reader_file mode = true)) as [E5 Hm].
  { destruct modes; [|by injection H5 as <-]. apply requireReaderFile_ok in H5 as [E5 (mode' & c & Hf' & Hr)]. rewrite E3, H1, Hf in Hf'.
    injection Hf' as <- <-. auto. }
  apply FS_bind_ok in Hv as (w6 & q & H6 & Hv). apply FS_bind_ok in Hv as (w7 & h & [= <- Hh] & Hv).
  apply FS_bind_ok in Hv as (w8 & [] & _ & [Hd [= _ <-]]%refuse_ok). bool_hyps. unfold reviewed. simpl.
  split_and!; [done|done|]. exists mode, c'. split_and!; [done|lia|eauto|done].
Qed.

Lemma validate_files_ok s m modes g l : ∀ w w' arts, validate_files sha256 sha1 fail links s m modes g l w = (w', Ok arts) →
  ar_Name <$> arts = cf_Path <$> l ∧ ∀ f, f ∈ l → safeRelative (cf_Path f) = true ∧
  ∃ mode c, find (w_tree w) (s +:+ "/" +:+ cf_Path f) = Some (TFile mode g c) ∧ reviewed f c ∧ (modes = true → reader_file mode = true).
Proof.
  induction l as [|f l IH]; intros w w' arts; cbn [validate_files].
  { intros [= <- <-]. split; [done|]. intros f Hf. by apply elem_of_nil in Hf. }
  intros (w1 & a & H1 & Hv)%FS_bind_ok. apply FS_bind_ok in Hv as (w2 & rest & H2 & [= <- <-]).
  pose proof (pure_run _ _ _ _ (validate_file_pure s m modes g f) H1) as E1. apply validate_file_ok in H1 as (Hs & Hn & Hf).
  apply IH in H2 as [Hns H2]. rewrite E1 in H2. split; [by rewrite !fmap_cons, Hn, Hns|].
  intros f' [->|Hf']%elem_of_cons; [done|by apply H2].
Qed.

Lemma receiptMatches_ok r m arts : receiptMatches r m arts = true →
  rc_Model r = cm_ID m ∧ rc_Revision r = cm_Revision m ∧ rc_ManifestHash r = manifest_hash m ∧ rc_VerifiedAt r ≠ None.
Proof. unfold receiptMatches. intros Hr. bool_hyps. split_and!; try done. by destruct (rc_VerifiedAt r). Qed.

Lemma validateSnapshot_ok s m modes w w' arts :
  validateSnapshot s m modes w = (w', Ok arts) →
  w_tree w' = w_tree w ∧ ar_Name <$> arts = cf_Path <$> cm_Files m ∧ ∃ g, validated modes (w_tree w) s m g.
Proof.
  intros Hv. split; [by eapply pure_run; [apply validateSnapshot_pure|]|]. revert Hv. unfold validateSnapshot, Staging.validateSnapshot.
  intros (w1 & g & [E1 Hg]%rootGroup_ok & Hv)%FS_bind_ok. apply FS_bind_ok in Hv as (w2 & ds & [= <- Hds] & Hv).
  apply FS_bind_ok in Hv as (w3 & [] & H3 & Hv).
  assert (w_tree w3 = w_tree w1) as E3 by (eapply pure_run; [|exact H3]; keeps).
  assert (∀ d, d ∈ ds → ∃ mode, find (w_tree w3) (joinSnapshot s d) = Some (TDir mode g) ∧ (modes = true → reader_directory mode = true)) as Hdirs.
  { eapply (each_ok eq (λ d t, ∃ mode, find t (joinSnapshot s d) = Some (TDir mode g) ∧ (modes = true → reader_directory mode = true)));
      [..|exact H3]; [intros; keeps| |by intros ? ? ? ->]. intros d v v' Hd. destruct modes.
    - apply requireReaderDirectory_ok in Hd as [-> (mode & ? & ?)]. eauto.
    - apply FS_bind_ok in Hd as (v1 & mode & [Ev Hd]%checkedDirectory_ok & [= <-]). rewrite Ev. exists mode. done. }
  apply FS_bind_ok in Hv as (w4 & result & H4 & Hv). pose proof (pure_run _ _ _ _ (validate_files_pure s m modes g (cm_Files m)) H4) as E4.
  apply validate_files_ok in H4 as [Hnames Hfiles]. cbv zeta in Hv. apply FS_bind_ok in Hv as (w5 & [] & H5 & Hv).
  assert (w_tree w5 = w_tree w4 ∧ ∃ mode c, find (w_tree w4) (s +:+ "/" +:+ receipt_name) = Some (TFile mode g c) ∧ (modes = true → reader_file mode = true))
    as (E5 & mode & c & Hfind & Hmode).
  { destruct modes.
    - apply requireReaderFile_ok in H5 as [-> (mode & c & ? & ?)]. split; [done|]. by exists mode, c.
    - apply FS_bind_ok in H5 as (v1 & [mode c] & [Ev Hd]%checkedRegularFile_ok & [= <-]). rewrite Ev. split; [done|]. by exists mode, c. }
  apply FS_bind_ok in Hv as (w6 & q & [E6 [Hq _]]%Open_located & Hv). apply FS_bind_ok in Hv as (w7 & t7 & [= <- <-] & Hv).
  apply FS_bind_ok in Hv as (w8 & [] & H8 & Hv). assert (w_tree w8 = w_tree w6) as E8 by (eapply pure_run; [|exact H8]; keeps).
  apply refuse_ok in Hv as [Hr Hv]. apply FS_bind_ok in Hv as (w9 & [] & H9 & [= <- <-]).
  unfold walk_snapshot in H9. apply FS_bind_ok in H9 as (w10 & q' & [E10 [Hq' _]]%Open_located & Hwalk).
  apply FS_bind_ok in Hwalk as (w11 & t11 & [= <- <-] & [Hwalk _]%refuse_ok).
  rewrite E10, E8, E6, E5, E4, E3, E1 in *. split; [done|]. exists g. pose proof Hfind as (q1 & Hq1 & Hl1)%find_located; [|done].
  assert (q1 = q) as -> by congruence. rewrite Hl1 in Hr. split; [done| |done|].
  - exists ds. split_and!; [done|done|]. exists q'. split; [done|]. apply negb_false_iff in Hwalk.
    rewrite forallb_forall in Hwalk. apply Forall_forall. intros e He. apply Hwalk. by apply list_elem_of_In.
  - exists mode, c. split_and!; [done|destruct (dec_receipt c) as [r|] eqn:Hd; [|done]; exists r; split; [done|]; apply negb_false_iff in Hr; by apply receiptMatches_ok in Hr|done].
Qed.

(** ** Complete snapshots *)

(** The subtree at [q] is exactly the reviewed snapshot: nothing but directories and regular
    files of the reader group; every file is a reviewed one with the reviewed content, or the
    receipt; every reviewed file is there; the receipt is of this manifest. *)
Record published (modes : bool) t (q : list string) m (g : Z) : Prop := {
  pb_group : root_group t g;
  pb_nodes rel n : t !! (q ++ rel) = Some n →
    match n with
    | TDir mode g' => g' = g ∧ (modes = true → reader_directory mode = true)
    | TFile mode g' c => g' = g ∧ (modes = true → reader_file mode = true) ∧
        (rel = [receipt_name] ∨ ∃ f, f ∈ cm_Files m ∧ rel = parts (cf_Path f) ∧ reviewed f c)
    | _ => False
    end;
  pb_files f : f ∈ cm_Files m → ∃ mode c, t !! (q ++ parts (cf_Path f)) = Some (TFile mode g c) ∧ reviewed f c;
  pb_receipt : ∃ mode c, t !! (q ++ [receipt_name]) = Some (TFile mode g c) ∧ receipted m c }.

(** Keys of a real tree have no empty or dotted components and no slashes. *)
Definition named t : Prop := ∀ p n, t !! p = Some n → Forall (λ x, plain_name x = true) p.

Lemma safe_parts p : safeRelative p = true → p ≠ "." → Forall (λ n, plain_name n = true) (parts p).
Proof. unfold safeRelative. intros Hs Hd. bool_hyps. apply clean_plain; try done; by apply String.eqb_neq. Qed.

Lemma directories_root m ds : snapshotDirectories m = Ok ds → "" ∈ ds.
Proof.
  unfold snapshotDirectories. destruct (mapM _ _) as [l|]; [|done]. intros [= <-]. rewrite merge_sort_Permutation.
  apply elem_of_elements. set_solver.
Qed.

Section Located.
Context (t : Tree) (a b : string) (ma ga mb gb : Z).
Context (Ha : plain_name a = true) (Hb : plain_name b = true) (Hda : t !! [a] = Some (TDir ma ga)) (Hdb : t !! [a; b] = Some (TDir mb gb)).
Let s := a +:+ "/" +:+ b.

Lemma parts_pair : parts s = [a; b].
Proof. unfold s. rewrite parts_app. unfold parts. by rewrite !split_on_plain. Qed.
Lemma resolve_pair follow n l : resolve follow t n [] (a :: b :: l) = resolve follow t n [a; b] l.
Proof. rewrite (resolve_dir _ _ _ [] a _ ma ga), (resolve_dir _ _ _ [a] b _ mb gb) by done. done. Qed.
Lemma locate_pair follow : locate links follow t s = Some [a; b].
Proof. unfold locate. rewrite parts_pair, resolve_pair. apply resolve_nil. Qed.
Lemma find_below x n : unlinked t [a; b] → Forall (λ x, plain_name x = true) (parts x) → find t (s +:+ "/" +:+ x) = Some n → t !! ([a; b] ++ parts x) = Some n.
Proof.
  intros Hu Hx. unfold FileTree.find, locate. rewrite parts_app, parts_pair. cbn [app]. rewrite resolve_pair.
  destruct (resolve _ _ _ _ _) as [q|] eqn:Hq; [|done]. apply resolve_plain in Hq as ->; done.
Qed.
Lemma find_dot n : find t (s +:+ "/" +:+ ".") = Some n → n = TDir mb gb.
Proof.
  unfold FileTree.find, locate. rewrite parts_app, parts_pair. cbn [app]. rewrite resolve_pair. change (parts ".") with ["."]. rewrite resolve_cons. cbn [orb].
  change ("." =s ".") with true. cbv iota. rewrite resolve_nil. simpl. rewrite Hdb. congruence.
Qed.
End Located.

Lemma validated_published modes t a b m g ma ga :
  plain_name a = true → plain_name b = true → named t → t !! [a] = Some (TDir ma ga) →
  validated modes t (a +:+ "/" +:+ b) m g → published modes t [a; b] m g.
Proof.
  intros Ha Hb Hn Hda [Hg (ds & Hds & Hdirs & q & Hq & Hwalk) Hfiles Hreceipt].
  destruct (Hdirs "" (directories_root _ _ Hds)) as (mb & Hroot & _). unfold joinSnapshot in Hroot. change ("" =s "") with true in Hroot. cbv iota in Hroot.
  assert (t !! [a; b] = Some (TDir mb g)) as Hdb.
  { unfold FileTree.find, locate in Hroot. rewrite parts_pair, (resolve_dir _ _ _ [] a _ ma ga) in Hroot by done. rewrite resolve_cons in Hroot.
    pose proof (plain_name_ne b Hb) as (?&?&?). destruct (String.eqb_spec b ""), (String.eqb_spec b "."), (String.eqb_spec b ".."); try done.
    cbn [orb app] in Hroot. destruct (t !! [a; b]) as [[| |tg|]|] eqn:Ht; rewrite ?resolve_nil in Hroot; simpl in Hroot; congruence. }
  rewrite (locate_pair t a b ma ga mb g) in Hq by done. injection Hq as <-. rewrite Forall_forall in Hwalk.
  assert (∀ rel n, t !! ([a; b] ++ rel) = Some n → reviewed_entry ds (snapshot_files m) (rel, n) = true) as Hentry
    by (intros rel n Hl; apply Hwalk; by apply elem_of_below).
  assert (unlinked t [a; b]) as Hu by (intros rel tg Hl; by apply Hentry in Hl).
  assert (∀ f, f ∈ cm_Files m → Forall (λ n, plain_name n = true) (parts (cf_Path f)) ∧
    ∃ mode c, t !! ([a; b] ++ parts (cf_Path f)) = Some (TFile mode g c) ∧ reviewed f c ∧ (modes = true → reader_file mode = true)) as Hkeys.
  { intros f Hf. destruct (Hfiles f Hf) as (Hsafe & mode & c & Hfind & Hrev & Hmode).
    assert (cf_Path f ≠ ".") as Hdot by (intros Hd; rewrite Hd in Hfind; by apply (find_dot t a b ma ga mb g) in Hfind).
    split; [by apply safe_parts|]. apply (find_below t a b ma ga mb g) in Hfind; [eauto|try done; by apply safe_parts..]. }
  assert (parts receipt_name = [receipt_name] ∧ plain_name receipt_name = true) as [Hrn Hrp] by done.
  destruct Hreceipt as (mr & cr & Hfr & Hcr & Hmr). apply (find_below t a b ma ga mb g) in Hfr; [|try done; rewrite Hrn; by constructor..].
  rewrite Hrn in Hfr. split; [done| | |by eauto].
  - intros rel n Hl. pose proof (Hentry _ _ Hl) as He. pose proof (Hn _ _ Hl) as Hrel. apply Forall_app in Hrel as [_ Hrel].
    unfold reviewed_entry in He. simpl in He. destruct n as [mode g'|mode g' c| |]; [| |done|done].
    + apply str_in_spec in He. apply Hdirs in He as (mode' & Hf & Hm).
      assert (Some (TDir mode g') = Some (TDir mode' g)) as [= <- ->]; [|done]. rewrite <- Hl. unfold joinSnapshot in Hf.
      destruct rel as [|x rel]; [change (join_path []) with "" in Hf; change ("" =s "") with true in Hf; cbv iota in Hf|].
      * rewrite app_nil_r, Hdb in *. unfold FileTree.find in Hf. rewrite (locate_pair t a b ma ga mb g) in Hf by done. simpl in Hf. congruence.
      * destruct (join_head x rel) as [_ Hj]; [by apply Forall_cons in Hrel as []|]. destruct (String.eqb_spec (join_path (x :: rel)) ""); [done|].
        apply (find_below t a b ma ga mb g) in Hf; rewrite ?parts_join in * by done; done.
    + assert (rel ≠ []) as Hne by (intros ->; rewrite app_nil_r in Hl; congruence).
      apply str_in_spec in He. unfold snapshot_files in He.
      apply elem_of_app in He as [(f & Hp & Hf)%list_elem_of_fmap|Hr%list_elem_of_singleton].
      * destruct (Hkeys f Hf) as (Hpl & mode' & c' & Hkey & Hrev & Hmode). rewrite <- Hp, parts_join in Hkey by done.
        rewrite Hl in Hkey. injection Hkey as <- <- <-. split_and!; [done|done|right]. exists f. rewrite <- Hp, parts_join by done. done.
      * assert (rel = [receipt_name]) as -> by (rewrite <- (parts_join rel) by done; by rewrite Hr). rewrite Hl in Hfr. injection Hfr as <- <- <-. auto.
  - intros f Hf. destruct (Hkeys f Hf) as (_ & mode & c & ? & ? & _). eauto.
Qed.

(** ** Permissions *)

Lemma remoded_insert t q n n' : t !! q = Some n → strip n' = strip n → published_mode n' = true → remoded t (<[q := n']> t).
Proof.
  intros Hq Hs Hp p. destruct (decide (p = q)) as [->|Hne].
  - split; [rewrite lookup_insert_eq, Hq; simpl; by f_equal|]. right. exists n'. by rewrite lookup_insert_eq.
  - split; [by rewrite lookup_insert_ne|left; by rewrite lookup_insert_ne].
Qed.

(** A node that just passed its check gets the published mode of its kind. *)
Definition with_mode (n : TNode) (mode : Z) : TNode := match n with TDir _ g => TDir mode g | TFile _ g c => TFile mode g c | _ => n end.
Lemma chmodAndSync_remoded p mode w n :
  find (w_tree w) p = Some n → published_mode (with_mode n mode) = true → remoded (w_tree w) (w_tree (chmodAndSync p mode w).1).
Proof.
  intros Hf Hp. destruct (chmodAndSync p mode w) as [w' r] eqn:Hc. simpl. unfold chmodAndSync, Staging.chmodAndSync in Hc.
  apply FS_bind_inv in Hc as [(e & He & _)|(w1 & before & H1 & Hc)].
  { apply pure_run in He as ->; [reflexivity|apply Lstat_pure]. }
  apply Lstat_found in H1 as [E1 H1]. rewrite Hf in H1. injection H1 as <-.
  destruct (match n with TDir _ _ | TFile _ _ _ => false | _ => true end) eqn:Hk; [injection Hc as <- _; by rewrite E1|].
  apply FS_bind_inv in Hc as [(e & He & _)|(w2 & q & H2 & Hc)]; [apply pure_run in He as ->; [by rewrite E1|apply Open_pure]|].
  apply Open_located in H2 as (E2 & Hq & _). apply find_located in Hf as (q' & Hq' & Hn); [|by intros tg ->].
  rewrite E1 in Hq. assert (q' = q) as -> by congruence.
  apply FS_bind_inv in Hc as [(e & He & _)|(w3 & [] & H3 & Hc)]; [injection He as <- _; simpl; by rewrite E2, E1|].
  assert (w_tree w3 = w_tree w) as E3 by (apply pure_run in H3; [congruence|apply keeps_syscall; apply _]).
  assert (remoded (w_tree w) (w_tree (Chmod fail q mode w3).1)) as Hr.
  { unfold Chmod. cbv [mbind FS_bind syscall tree set_tree throw]. destruct (fail (w_calls w3)); simpl; [by rewrite E3|].
    rewrite E3, Hn. destruct n; simpl in *; try done; by eapply remoded_insert. }
  apply FS_bind_inv in Hc as [(e & He & _)|(w4 & [] & H4 & Hc)]; [by rewrite He in Hr|].
  rewrite H4 in Hr. apply pure_run in Hc as ->; [done|apply keeps_syscall; apply _].
Qed.

Lemma chmod_directory_keeps p g : keeps remoded (checkedDirectory p g;; chmodAndSync p readerDirectoryMode;; requireReaderDirectory p g).
Proof.
  intros w. unfold mbind at 1, FS_bind at 1. destruct (checkedDirectory p g w) as [w1 [mode|e]] eqn:H1; simpl.
  - apply checkedDirectory_ok in H1 as [E1 Hf]. rewrite <- E1 in *. eapply (chmodAndSync_remoded p readerDirectoryMode) in Hf; [|done].
    etrans; [exact Hf|]. unfold mbind, FS_bind. destruct (chmodAndSync p readerDirectoryMode w1) as [w2 [[]|]]; simpl; [|reflexivity].
    rewrite <- (requireReaderDirectory_pure p g w2). reflexivity.
  - apply pure_run in H1 as ->; [reflexivity|auto with fs typeclass_instances].
Qed.
Lemma chmod_file_keeps p g : keeps remoded (checkedRegularFile p g;; chmodAndSync p readerFileMode;; requireReaderFile p g).
Proof.
  intros w. unfold mbind at 1, FS_bind at 1. destruct (checkedRegularFile p g w) as [w1 [[mode c]|e]] eqn:H1; simpl.
  - apply checkedRegularFile_ok in H1 as [E1 Hf]. rewrite <- E1 in *. eapply (chmodAndSync_remoded p readerFileMode) in Hf; [|done].
    etrans; [exact Hf|]. unfold mbind, FS_bind. destruct (chmodAndSync p readerFileMode w1) as [w2 [[]|]]; simpl; [|reflexivity].
    rewrite <- (requireReaderFile_pure p g w2). reflexivity.
  - apply pure_run in H1 as ->; [reflexivity|auto with fs typeclass_instances].
Qed.
#[local] Hint Resolve chmod_directory_keeps chmod_file_keeps : fs.
Lemma setPublished_remoded s m : keeps remoded (setPublishedSnapshotPermissions s m).
Proof.
  unfold setPublishedSnapshotPermissions, Staging.setPublishedSnapshotPermissions.
  apply keeps_bind; [apply _|auto with fs typeclass_instances|intros g]. apply keeps_bind; [apply _|auto with fs typeclass_instances|intros ds].
  apply keeps_bind; [apply _|apply each_keeps; [apply _|]; intros; apply chmod_directory_keeps|intros _].
  apply each_keeps; [apply _|]. intros. apply chmod_file_keeps.
Qed.
Lemma setModelParent_remoded p : keeps remoded (setModelParentPermissions p).
Proof.
  unfold setModelParentPermissions, Staging.setModelParentPermissions. cbv zeta.
  apply keeps_bind; [apply _|auto with fs typeclass_instances|intros g]. apply chmod_directory_keeps.
Qed.

(** Reader modes seen once stay. *)
Definition reader_at g (p : string) t : Prop :=
  (∃ mode, find t p = Some (TDir mode g) ∧ reader_directory mode = true) ∨ (∃ mode c, find t p = Some (TFile mode g c) ∧ reader_file mode = true).
Lemma reader_at_remoded g p t t' : remoded t t' → reader_at g p t → reader_at g p t'.
Proof.
  intros Hr [(mode & Hf & Hm)|(mode & c & Hf & Hm)]; destruct (find_remoded _ _ _ _ _ Hr Hf) as (n' & Hf' & Hs & Hp); destruct n'; simplify_eq/=.
  - left. eexists. split; [exact Hf'|]. by apply Hp.
  - right. eexists _, _. split; [exact Hf'|]. by apply Hp.
Qed.
Lemma root_group_remoded t t' g : remoded t t' → root_group t g → root_group t' g.
Proof.
  intros Hr (mode & Hl). destruct (Hr []) as [He _]. rewrite Hl in He. destruct (t' !! []) as [n|] eqn:Hn; [|done]. simpl in He.
  injection He as He. destruct n; simplify_eq/=. by eexists.
Qed.
Lemma root_group_det t g g' : root_group t g → root_group t g' → g = g'.
Proof. intros [? H1] [? H2]. congruence. Qed.

Lemma setPublished_ok s m w w' g : setPublishedSnapshotPermissions s m w = (w', Ok tt) → root_group (w_tree w) g →
  ∃ ds, snapshotDirectories m = Ok ds ∧ (∀ d, d ∈ ds → reader_at g (joinSnapshot s d) (w_tree w')) ∧
    ∀ f, f ∈ snapshot_files m → reader_at g (s +:+ "/" +:+ f) (w_tree w').
Proof.
  unfold setPublishedSnapshotPermissions, Staging.setPublishedSnapshotPermissions.
  intros (w1 & g' & [E1 Hg']%rootGroup_ok & Hv)%FS_bind_ok Hg. pose proof (root_group_det _ _ _ Hg Hg') as <-. apply FS_bind_ok in Hv as (w2 & ds & [= <- Hds] & Hv).
  apply FS_bind_ok in Hv as (w3 & [] & H3 & H4). exists ds. split_and!; [done| |].
  - assert (∀ d, d ∈ ds → reader_at g (joinSnapshot s d) (w_tree w3)) as Hd.
    { eapply (each_ok remoded (λ d t, reader_at g (joinSnapshot s d) t)); [..|exact H3]; [intros; apply chmod_directory_keeps| |intros; by eapply reader_at_remoded].
      intros d v v' Hd. apply FS_bind_ok in Hd as (v1 & ? & _ & Hd). apply FS_bind_ok in Hd as (v2 & [] & _ & Hd).
      apply requireReaderDirectory_ok in Hd as [-> Hd]. by left. }
    intros d Hin. eapply reader_at_remoded; [|by apply Hd].
    assert (keeps remoded (each (λ f, let p := s +:+ "/" +:+ f in checkedRegularFile p g;; chmodAndSync p readerFileMode;; requireReaderFile p g) (snapshot_files m))) as Hk
      by (apply each_keeps; [apply _|]; intros; apply chmod_file_keeps).
    specialize (Hk w3). cbv zeta in Hk, H4. by rewrite H4 in Hk.
  - eapply (each_ok remoded (λ f t, reader_at g (s +:+ "/" +:+ f) t)); [..|exact H4]; [intros; apply chmod_file_keeps| |intros; by eapply reader_at_remoded].
    intros d v v' Hd. apply FS_bind_ok in Hd as (v1 & ? & _ & Hd). apply FS_bind_ok in Hd as (v2 & [] & _ & Hd).
    apply requireReaderFile_ok in Hd as [-> Hd]. by right.
Qed.

(** Reader modes added to a validated snapshot. *)
Lemma below_remoded t t' q rel n' : remoded t t' → t' !! (q ++ rel) = Some n' → ∃ n, t !! (q ++ rel) = Some n ∧ strip n' = strip n.
Proof.
  intros Hr Hl. destruct (Hr (q ++ rel)) as [He _]. rewrite Hl in He. destruct (t !! (q ++ rel)) as [n|] eqn:Hn; [|done].
  simpl in He. injection He as He. eauto.
Qed.
Lemma validated_reader t t' s m g ds :
  validated false t s m g → remoded t t' → snapshotDirectories m = Ok ds →
  (∀ d, d ∈ ds → reader_at g (joinSnapshot s d) t') → (∀ f, f ∈ snapshot_files m → reader_at g (s +:+ "/" +:+ f) t') → validated true t' s m g.
Proof.
  intros [Hg (ds' & Hds' & Hdirs & q & Hq & Hwalk) Hfiles (mr & cr & Hfr & Hcr & _)] Hr Hds Hd Hf.
  assert (ds' = ds) as -> by congruence.
  assert (∀ f mode c, f ∈ snapshot_files m → find t (s +:+ "/" +:+ f) = Some (TFile mode g c) →
    ∃ mode', find t' (s +:+ "/" +:+ f) = Some (TFile mode' g c) ∧ reader_file mode' = true) as Hfile.
  { intros f mode c Hin Hfind. destruct (find_remoded _ _ _ _ _ Hr Hfind) as (n' & Hf' & Hs & _).
    destruct n' as [|mode' g' c'| |]; simplify_eq/=. exists mode'. split; [done|].
    destruct (Hf f Hin) as [(? & Hx & _)|(? & ? & Hx & ?)]; congruence. }
  split.
  - by eapply root_group_remoded.
  - exists ds. split; [done|]. split.
    + intros d Hin. destruct (Hdirs d Hin) as (mode & Hfind & _). destruct (find_remoded _ _ _ _ _ Hr Hfind) as (n' & Hf' & Hs & _).
      destruct n' as [mode' g'| | |]; simplify_eq/=. exists mode'. split; [done|]. intros _.
      destruct (Hd d Hin) as [(? & Hx & ?)|(? & ? & Hx & ?)]; congruence.
    + exists q. split; [unfold locate in *; by rewrite (resolve_same _ t t') by by apply remoded_same|].
      rewrite Forall_forall in *. intros [rel n'] Hin%elem_of_below. apply (below_remoded _ _ _ _ _ Hr) in Hin as (n & Hn & Hs).
      assert (reviewed_entry ds (snapshot_files m) (rel, n) = true) as He by (apply Hwalk; by apply elem_of_below).
      unfold reviewed_entry in *. simpl in *. destruct n, n'; simplify_eq/=; done.
  - intros f Hin. destruct (Hfiles f Hin) as (? & mode & c & Hfind & ? & _). split; [done|].
    apply Hfile in Hfind as (mode' & ? & ?); [eauto|]. unfold snapshot_files. apply elem_of_app. left. apply list_elem_of_fmap. eauto.
  - apply Hfile in Hfr as (mode' & ? & ?); [eauto|]. unfold snapshot_files. apply elem_of_app. right. by constructor.
Qed.

(** ** What staging touches *)

Definition staging_own (tmpName id : string) (p : list string) : bool :=
  match p with
  | [] => false
  | [x] => (x =s tmpName) || (x =s id)
  | x :: _ => x =s tmpName
  end.

Lemma create_bind {A : Type} own p mk (f : list string → FS A) :
  owned own p → (∀ mo g, plain_node (mk mo g) = true) →
  (∀ q, own q = true → Forall (λ x, plain_name x = true) q → keeps (touches own) (f q)) →
  keeps (touches own) (create fail links egid p mk ≫= f).
Proof.
  intros Ho Hmk Hf w. pose proof (create_touches fail links egid own p mk Ho Hmk w) as Hc. unfold mbind, FS_bind.
  destruct (create fail links egid p mk w) as [w1 [q|e]] eqn:H1; simpl in *; [|done]. intros Ht.
  apply create_locates in H1 as [Hq _]. destruct (owned_locate _ _ _ _ _ _ Ho Ht Hq) as [Hoq Hpq].
  exact (transitivity (R:=touches own) Hc (Hf q Hoq Hpq w1) Ht).
Qed.
Lemma open_bind {A : Type} own p (f : list string → FS A) :
  owned own p → (∀ q, own q = true → Forall (λ x, plain_name x = true) q → keeps (touches own) (f q)) →
  keeps (touches own) (Open fail links p ≫= f).
Proof.
  intros Ho Hf w. unfold mbind, FS_bind. destruct (Open fail links p w) as [w1 [q|e]] eqn:H1; simpl.
  - apply Open_located in H1 as (E1 & Hq & _). intros Ht. destruct (owned_locate _ _ _ _ _ _ Ho Ht Hq) as [Hoq Hpq].
    pose proof (Hf q Hoq Hpq w1) as Hk. rewrite E1 in Hk. exact (Hk Ht).
  - apply pure_run in H1 as ->; [reflexivity|apply Open_pure].
Qed.

Lemma chmodAndSync_touches own p mode : owned own p → keeps (touches own) (chmodAndSync p mode).
Proof.
  intros Ho. unfold chmodAndSync, Staging.chmodAndSync. apply keeps_bind; [apply _|auto with fs typeclass_instances|intros n].
  apply keeps_refuse; [apply _|]. apply open_bind; [done|]. intros q Hq Hp.
  apply keeps_bind; [apply _|auto with fs typeclass_instances|intros _].
  apply keeps_bind; [apply _|by apply Chmod_touches|intros _]. unfold Sync. auto with fs typeclass_instances.
Qed.

Lemma owned_join own l : Forall (λ x, plain_name x = true) l → l ≠ [] → own l = true → owned own (join_path l).
Proof.
  intros Hl Hne Ho. unfold owned. rewrite parts_join by done. split; [|by rewrite names_plain].
  eapply Forall_impl; [exact Hl|]. auto.
Qed.

Lemma parents_from_touches own g l : ∀ lc, Forall (λ x, plain_name x = true) (lc ++ l) →
  (∀ l1 l2, l = l1 ++ l2 → l1 ≠ [] → own (lc ++ l1) = true) → keeps (touches own) (parents_from fail links umask egid g (join_path lc) l).
Proof.
  induction l as [|x l IH]; intros lc Hp Ho; cbn [parents_from]; [auto with fs typeclass_instances|].
  pose proof Hp as Hall. apply Forall_app in Hp as [Hlc Hp]. apply Forall_cons in Hp as [Hx Hl].
  pose proof (plain_name_ne x Hx) as (_&Hd&_). destruct (String.eqb_spec x "."); [done|]. cbv zeta. rewrite path_join_join by done.
  assert (owned own (join_path (lc ++ [x]))) as Hown.
  { apply owned_join; [by rewrite Forall_app; repeat constructor|by destruct lc|]. by apply (Ho [x] l). }
  apply keeps_bind; [apply _|apply keeps_try, Mkdir_touches; done|intros made].
  apply keeps_bind; [apply _|destruct made; [auto with fs typeclass_instances|apply keeps_refuse; [apply _|]; auto with fs typeclass_instances]|intros _].
  apply keeps_bind; [apply _|auto with fs typeclass_instances|intros _].
  apply IH; [by rewrite <- app_assoc|]. intros l1 l2 -> Hne. rewrite <- app_assoc. by apply (Ho (x :: l1) l2).
Qed.
Lemma rootParents_touches own l x : Forall (λ x, plain_name x = true) l → no_slash x = true → l ≠ [] →
  (∀ l1 l2, l = l1 ++ l2 → l1 ≠ [] → own l1 = true) → keeps (touches own) (rootParents fail links umask egid (join_path (l ++ [x]))).
Proof.
  intros Hl Hx Hne Ho. unfold rootParents. apply keeps_bind; [apply _|auto with fs typeclass_instances|intros g].
  rewrite path_dir_join by done. rewrite decide_False by done. rewrite parts_join by done. by apply (parents_from_touches own g l []).
Qed.

Section StagingTree.
Context (tmp id : string) (Htmp : plain_name tmp = true) (Hid : plain_name id = true).
Let own := staging_own tmp id.
Let snapshot := tmp +:+ "/snapshot".

Lemma own_tmp l : own (tmp :: l) = true.
Proof. unfold own, staging_own. destruct l; by rewrite String.eqb_refl. Qed.
Lemma parts_snapshot p : parts (snapshot +:+ "/" +:+ p) = tmp :: "snapshot" :: parts p.
Proof. unfold snapshot. change (tmp +:+ "/snapshot") with (tmp +:+ "/" +:+ "snapshot"). rewrite !parts_app. unfold parts at 1. by rewrite split_on_plain. Qed.

Lemma staged_path p : safeRelative p = true → ∃ l x, snapshot +:+ "/" +:+ p = join_path ((tmp :: "snapshot" :: l) ++ [x]) ∧
  Forall (λ n, plain_name n = true) l ∧ no_slash x = true ∧ owned own (snapshot +:+ "/" +:+ p).
Proof.
  intros Hs. assert (Forall (λ n, plain_name n = true ∨ n = ".") (parts p) ∧ ∃ l x, parts p = l ++ [x] ∧ Forall (λ n, plain_name n = true) l ∧ no_slash x = true)
    as (Hall & l & x & Hp & Hl & Hx).
  { destruct (decide (p = ".")) as [->|Hd]; [split; [by repeat constructor; right|by exists [], "."]|].
    pose proof (safe_parts p Hs Hd) as Hpl. split; [eapply Forall_impl; [exact Hpl|]; auto|].
    destruct (exists_last (l:=parts p)) as (l & x & Hlx); [unfold parts; by destruct (split_on_nonempty "/"%char p) as (? & ? & ->)|].
    rewrite Hlx in Hpl. apply Forall_app in Hpl as [Hl [Hx _]%Forall_cons]. exists l, x. split_and!; [done|done|by apply plain_no_slash]. }
  exists l, x. split_and!; [|done|done|].
  - rewrite <- (join_parts (snapshot +:+ _)), parts_snapshot, Hp. done.
  - unfold owned. rewrite parts_snapshot. split; [constructor; [by left|constructor; [by left|done]]|].
    unfold names. simpl. pose proof (plain_name_ne tmp Htmp) as (_&Hd&_). destruct (String.eqb_spec tmp "."); [done|]. apply own_tmp.
Qed.

Context (m : CatalogModel) (Hsafe : ∀ f, f ∈ cm_Files m → safeRelative (cf_Path f) = true).
#[local] Abbreviation download_file := (download_file sha256 sha1 fail short links umask egid fetch progress).
#[local] Abbreviation download_files := (download_files sha256 sha1 fail short links umask egid fetch progress).

Lemma download_file_touches f copied : safeRelative (cf_Path f) = true → keeps (touches own) (download_file snapshot m f copied).
Proof.
  intros Hs. destruct (staged_path _ Hs) as (l & x & Hj & Hl & Hx & Ho). unfold download_file, Staging.download_file. cbv zeta.
  apply keeps_bind; [apply _|auto with fs typeclass_instances|intros _]. apply keeps_bind; [apply _| |intros _].
  { rewrite Hj. apply rootParents_touches; [by repeat constructor|done|done|].
    intros l1 l2 Heq Hne. destruct l1 as [|y l1]; [done|]. injection Heq as <- _. apply own_tmp. }
  apply keeps_refuse; [apply _|]. destruct (fetch _) as [r|]; [|auto with fs typeclass_instances].
  do 2 (apply keeps_refuse; [apply _|]). apply create_bind; [done|done|]. intros q Hq Hqp.
  apply keeps_bind; [apply _|auto with fs typeclass_instances|intros t]. apply keeps_refuse; [apply _|].
  apply keeps_bind; [apply _|by apply keeps_try, WriteTo_touches|intros written].
  apply keeps_bind; [apply _|apply keeps_try; unfold Sync; auto with fs typeclass_instances|intros synced].
  apply keeps_bind; [apply _|apply keeps_try; auto with fs typeclass_instances|intros closed]. keeps.
Qed.
Lemma download_files_touches l : ∀ copied, (∀ f, f ∈ l → safeRelative (cf_Path f) = true) → keeps (touches own) (download_files snapshot m l copied).
Proof.
  induction l as [|f l IH]; intros copied Hl; cbn [Staging.download_files]; [auto with fs typeclass_instances|].
  apply keeps_bind; [apply _|apply download_file_touches, Hl; by constructor|intros a].
  apply keeps_bind; [apply _|apply IH; intros; apply Hl; by constructor|intros]. auto with fs typeclass_instances.
Qed.

Lemma snapshot_owned : owned own snapshot.
Proof.
  unfold snapshot. change (tmp +:+ "/snapshot") with (join_path [tmp; "snapshot"]). apply owned_join; [by repeat constructor|done|apply own_tmp].
Qed.
Lemma SyncDir_pure p : keeps eq (SyncDir fail links p).
Proof. unfold SyncDir, Sync. keeps. Qed.

Lemma build_touches : keeps (touches own) (build_snapshot sha256 sha1 fail short links umask egid enc_receipt fetch now progress tmp m).
Proof.
  unfold build_snapshot. cbv zeta. apply keeps_bind; [apply _|auto with fs typeclass_instances|intros _].
  apply keeps_bind; [apply _|apply Mkdir_touches, snapshot_owned|intros _].
  apply keeps_bind; [apply _|auto with fs typeclass_instances|intros _].
  apply keeps_bind; [apply _|by apply download_files_touches|intros arts].
  apply keeps_bind; [apply _| |intros _].
  { unfold write_receipt. apply create_bind; [|done|].
    - destruct (staged_path receipt_name eq_refl) as (l & x & _ & _ & _ & Ho). exact Ho.
    - intros q Hq Hp. apply keeps_bind; [apply _|apply keeps_try|intros written].
      { apply keeps_bind; [apply _|by apply WriteTo_touches|intros _]. unfold Sync. auto with fs typeclass_instances. }
      apply keeps_bind; [apply _|apply keeps_try; auto with fs typeclass_instances|intros closed]. keeps. }
  pose proof SyncDir_pure. keeps.
Qed.

(** The parent of the published snapshot. *)
Lemma setModelParent_touches rev : plain_name rev = true → keeps (touches own) (setModelParentPermissions (id +:+ "/" +:+ rev)).
Proof.
  intros Hr. unfold setModelParentPermissions, Staging.setModelParentPermissions. cbv zeta.
  change (id +:+ "/" +:+ rev) with (join_path ([id] ++ [rev])). rewrite path_dir_join by (done || by repeat constructor || by apply plain_no_slash). simpl.
  apply keeps_bind; [apply _|auto with fs typeclass_instances|intros g].
  apply keeps_bind; [apply _|auto with fs typeclass_instances|intros _].
  apply keeps_bind; [apply _| |intros _; auto with fs typeclass_instances].
  apply chmodAndSync_touches. change id with (join_path [id]). apply owned_join; [by repeat constructor|done|].
  unfold own, staging_own. by rewrite String.eqb_refl, orb_true_r.
Qed.
Lemma prefixParents_touches rev : plain_name rev = true → keeps (touches own) (rootParents fail links umask egid (id +:+ "/" +:+ rev)).
Proof.
  intros Hr. change (id +:+ "/" +:+ rev) with (join_path ([id] ++ [rev])).
  apply rootParents_touches; [by repeat constructor|by apply plain_no_slash|done|].
  intros [|y [|z l1]] l2 Heq Hne; try done; injection Heq as <- _.
  unfold own, staging_own. by rewrite String.eqb_refl, orb_true_r.
Qed.
End StagingTree.

(** ** Publication *)

#[local] Abbreviation Stage := (Stage sha256 sha1 fail short links umask egid enc_receipt dec_receipt fetch now progress temp).
#[local] Abbreviation repairPublishedPermissions := (repairPublishedPermissions sha256 sha1 fail links dec_receipt).
#[local] Abbreviation publish := (publish sha256 sha1 fail links umask egid dec_receipt).
#[local] Abbreviation conclude_stage := (conclude_stage sha256 sha1 fail links dec_receipt).

Lemma tidy_remoded t t' : remoded t t' → tidy t → tidy t'.
Proof.
  intros Hr Ht p n Hl. destruct (Hr p) as [He _]. rewrite Hl in He. destruct (t !! p) as [n0|] eqn:Hn; [|done]. simpl in He. injection He as He.
  apply Ht in Hn as [? ?]. split; [|done]. destruct n, n0; simplify_eq/=; done.
Qed.
Lemma named_remoded t t' : remoded t t' → named t → named t'.
Proof.
  intros Hr Ht p n Hl. destruct (Hr p) as [He _]. rewrite Hl in He. destruct (t !! p) as [n0|] eqn:Hn; [|done]. by apply Ht in Hn.
Qed.
Lemma tidy_named t : tidy t → named t.
Proof. intros Ht p n Hl. by apply Ht in Hl as []. Qed.

Lemma published_moved t a b m g x y : published true t a m g → a = [x; y] → b ≠ [] → under b [] = false →
  published true (moved a b t) b m g.
Proof.
  intros [Hg Hnodes Hfiles Hr] -> Hb Hub. split.
  - destruct Hg as [mode Hl]. exists mode. rewrite lookup_moved_other by done. done.
  - intros rel n. rewrite lookup_moved. apply Hnodes.
  - intros f Hf. rewrite lookup_moved. by apply Hfiles.
  - by rewrite lookup_moved.
Qed.
Lemma published_delete t q m g x : q ≠ [] → published true t q m g → under q [x] = false → published true (delete [x] t) q m g.
Proof.
  intros Hne [Hg Hnodes Hfiles Hr] Hx. assert (∀ rel, delete [x] t !! (q ++ rel) = t !! (q ++ rel)) as He.
  { intros rel. apply lookup_delete_ne. intros Heq. assert (under q [x] = true) by (apply under_spec; eauto). congruence. }
  split.
  - destruct Hg as [mode Hl]. exists mode. by rewrite lookup_delete_ne.
  - intros rel n. rewrite He. apply Hnodes.
  - intros f Hf. rewrite He. by apply Hfiles.
  - by rewrite He.
Qed.

Lemma model_names m prefix : modelPrefix m = Ok prefix →
  prefix = cm_ID m +:+ "/" +:+ cm_Revision m ∧ plain_name (cm_ID m) = true ∧ plain_name (cm_Revision m) = true ∧ has_prefix (cm_ID m) "." = false.
Proof.
  unfold modelPrefix. destruct (_ || _) eqn:Hb; [done|]. intros [= <-]. apply orb_false_iff in Hb as [Hi Hr].
  apply negb_false_iff in Hi, Hr. split; [done|].
  assert (∀ (f : ascii → bool) s, f "/"%char = false → all_chars f s = true → no_slash s = true) as Hns.
  { intros f s Hf. unfold no_slash, all_chars. rewrite !forallb_forall. intros Hall c Hc. specialize (Hall c Hc).
    destruct (Ascii.eqb_spec c "/"); [congruence|done]. }
  unfold plain_name, str_in. split_and!.
  - destruct (cm_ID m) as [|c s]; [done|]. unfold headed_name in Hi. apply andb_true_iff in Hi as [Hi Ht].
    apply andb_true_iff in Hi as [Hi _]. apply andb_true_iff in Hi as [Hc _].
    assert (c ≠ "."%char) as Hdot by (intros ->; done). assert (no_slash (String c s) = true) as Hs.
    { apply (Hns model_char); [done|]. unfold all_chars. simpl. unfold model_char at 1. rewrite Hc. done. }
    unfold no_slash in Hs. rewrite Hs. simpl. apply Ascii.eqb_neq in Hdot. by rewrite Hdot.
  - unfold hex_string in Hr. apply andb_true_iff in Hr as [Hl Hh]. pose proof (Hns is_hex _ eq_refl Hh) as Hs. unfold no_slash in Hs. rewrite Hs.
    unfold str_len in Hl. bool_hyps. simpl.
    destruct (String.eqb_spec (cm_Revision m) "") as [E|]; [by rewrite E in Hl|].
    destruct (String.eqb_spec (cm_Revision m) ".") as [E|]; [by rewrite E in Hl|].
    destruct (String.eqb_spec (cm_Revision m) "..") as [E|]; [by rewrite E in Hl|]. done.
  - destruct (cm_ID m) as [|c s]; [done|]. unfold headed_name in Hi. apply andb_true_iff in Hi as [Hi Ht].
    apply andb_true_iff in Hi as [Hi _]. apply andb_true_iff in Hi as [Hc _].
    unfold has_prefix. cbn [String.prefix]. destruct (ascii_dec "." c) as [<-|]; [done|done].
Qed.

(** A complete snapshot that the readers can reach: the directory of the model is theirs too. *)
Definition complete m t : Prop := ∃ g, published true t [cm_ID m; cm_Revision m] m g ∧
  ∃ mode, t !! [cm_ID m] = Some (TDir mode g) ∧ reader_directory mode = true.
Lemma setModelParent_ok id rev w w' : plain_name id = true → plain_name rev = true → setModelParentPermissions (id +:+ "/" +:+ rev) w = (w', Ok tt) →
  ∃ g mode, root_group (w_tree w) g ∧ w_tree w' !! [id] = Some (TDir mode g) ∧ reader_directory mode = true.
Proof.
  intros Hid Hrev H2. unfold setModelParentPermissions, Staging.setModelParentPermissions in H2. cbv zeta in H2.
  change (id +:+ "/" +:+ rev) with (join_path ([id] ++ [rev])) in H2.
  rewrite path_dir_join in H2 by (done || by repeat constructor || by apply plain_no_slash). simpl in H2.
  apply FS_bind_ok in H2 as (v1 & g1 & [E1 Hg]%rootGroup_ok & H2). apply FS_bind_ok in H2 as (v2 & ? & _ & H2). apply FS_bind_ok in H2 as (v3 & [] & _ & H2).
  apply requireReaderDirectory_ok in H2 as (E2 & mode & Hf & Hm). apply find_single in Hf; [|done]. exists g1, mode. by rewrite E2.
Qed.

Section OneModel.
Context (m : CatalogModel) (prefix : string) (Hprefix : modelPrefix m = Ok prefix).
Context (Hsafe : ∀ f, f ∈ cm_Files m → safeRelative (cf_Path f) = true).
Let id := cm_ID m.
Let rev := cm_Revision m.
Let tmp := ".partial-" +:+ temp.
Context (Htmp : plain_name tmp = true).
Let own := staging_own tmp id.
Let snapshot := tmp +:+ "/snapshot".

Lemma publish_steps w w' r : tidy (w_tree w) → publish tmp prefix m w = (w', r) →
  ∃ t1 t2, touches own (w_tree w) t1 ∧ remoded t1 t2 ∧
    match r with
    | Err _ => w_tree w' = t2
    | Ok _ => w_tree w' = moved [tmp; "snapshot"] [id; rev] t2 ∧ complete m (w_tree w')
    end.
Proof.
  intros Htidy Hp. destruct (model_names _ _ Hprefix) as (Hpre & Hid & Hrev & Hdot).
  unfold publish, Staging.publish in Hp. cbv zeta in Hp. fold snapshot in Hp. rewrite Hpre in Hp. fold id in Hp, Hid, Hdot. fold rev in Hp, Hrev.
  pose proof (prefixParents_touches tmp id Hid rev Hrev w) as K1.
  apply FS_bind_inv in Hp as [(e & He & ->)|(w1 & [] & H1 & Hp)]; [rewrite He in K1; exists (w_tree w'), (w_tree w'); done|]. rewrite H1 in K1.
  pose proof (setModelParent_touches tmp id Hid rev Hrev w1) as K2.
  assert (touches own (w_tree w) (w_tree (setModelParentPermissions (id +:+ "/" +:+ rev) w1).1)) as K12 by (etrans; [exact K1|exact K2]).
  apply FS_bind_inv in Hp as [(e & He & ->)|(w2 & [] & H2 & Hp)]; [rewrite He in K12; exists (w_tree w'), (w_tree w'); done|]. rewrite H2 in K12, K2.
  pose proof (setModelParent_ok _ _ _ _ Hid Hrev H2) as (gp & mp & Hgp & Hparent & Hmp).
  simpl in K12. exists (w_tree w2).
  apply FS_bind_inv in Hp as [(e & He & ->)|(w3 & arts & H3 & Hp)].
  { apply pure_run in He; [|auto with fs typeclass_instances]. exists (w_tree w'). rewrite He. done. }
  apply validateSnapshot_ok in H3 as (E3 & _ & g & Hval).
  pose proof (setPublished_remoded snapshot m w3) as K4.
  apply FS_bind_inv in Hp as [(e & He & ->)|(w4 & [] & H4 & Hp)]; [rewrite He, E3 in K4; by exists (w_tree w')|]. rewrite H4, E3 in K4. simpl in K4.
  exists (w_tree w4). split; [done|]. split; [done|].
  apply FS_bind_inv in Hp as [(e & He & ->)|(w5 & [] & H5 & Hp)]; [by apply pure_run in He; [|auto with fs typeclass_instances]|].
  pose proof (pure_run _ _ _ _ (requirePrivate_pure tmp) H5) as E5. apply requirePrivate_ok in H5 as (mt & gt & Hft). apply find_single in Hft; [|done].
  apply FS_bind_inv in Hp as [(e & He & ->)|(w6 & present & H6 & Hp)]; [by apply pure_run in He; [congruence|auto with fs typeclass_instances]|].
  apply pure_run in H6; [|auto with fs typeclass_instances].
  destruct (is_ok present); [injection Hp as <- <-; congruence|]. apply Rename_cases in Hp. destruct r as [[]|e]; [|congruence].
  destruct Hp as (a & b & Ha & Hb & E7). rewrite H6, E5 in *.
  destruct (K12 Htidy) as [Ht2 _]. pose proof (tidy_remoded _ _ K4 Ht2) as Ht4.
  apply resolve_plain in Ha; [|by apply tidy_unlinked|]; cycle 1.
  { unfold snapshot. change (tmp +:+ "/snapshot") with (tmp +:+ "/" +:+ "snapshot"). rewrite parts_app. unfold parts. rewrite !split_on_plain by done. by repeat constructor. }
  apply resolve_plain in Hb; [|by apply tidy_unlinked|by rewrite parts_app; unfold parts; rewrite !split_on_plain by done; repeat constructor].
  rewrite parts_app in Hb. unfold snapshot in Ha. change (tmp +:+ "/snapshot") with (tmp +:+ "/" +:+ "snapshot") in Ha. rewrite parts_app in Ha.
  unfold parts in Ha, Hb. rewrite !split_on_plain in Ha, Hb by done. simpl in Ha, Hb. subst a b. split; [done|].
  assert (root_group (w_tree w3) g) as Hg by (rewrite E3; apply (va_group _ _ _ _ _ Hval)).
  assert (gp = g) as ->.
  { apply (root_group_det (w_tree w2)); [|by rewrite <- E3]. destruct Hgp as [mg Hgp]. exists mg. rewrite <- Hgp. destruct (K1 Htidy) as [Ht1 _].
    by destruct (K2 Ht1) as [_ ->]. }
  exists g. rewrite E7. split; cycle 1.
  { destruct (K4 [id]) as [Hsame _]. rewrite Hparent in Hsame. destruct (w_tree w4 !! [id]) as [[mi gi| | |]|] eqn:Hi; simplify_eq/=.
    exists mi. rewrite lookup_moved_other; [|destruct (under _ _) eqn:Hu; [by apply under_spec in Hu as [? [=]]|done]..].
    split; [done|]. by eapply (remoded_mode _ _ _ _ _ (K4 [id]) Hparent Hi). }
  eapply published_moved; [|done|done|done].
  destruct (setPublished_ok _ _ _ _ _ H4 Hg) as (ds & Hds & Hd & Hf).
  eapply (validated_published true (w_tree w4) tmp "snapshot" m g); [done|done|by apply tidy_named|exact Hft|].
  by eapply validated_reader.
Qed.

Lemma conclude_steps w w' r : conclude_stage tmp prefix m w = (w', r) → tidy (w_tree w) → w_tree w' = w_tree w ∨ w_tree w' = delete [tmp] (w_tree w).
Proof.
  unfold conclude_stage, Staging.conclude_stage. intros Hc Ht. pose proof SyncDir_pure as Hsync.
  apply FS_bind_inv in Hc as [(e & He & ->)|(w1 & [] & H1 & Hc)]; [left; by eapply pure_run|]. apply pure_run in H1; [|done].
  apply FS_bind_inv in Hc as [(e & He & ->)|(w2 & removed & H2 & Hc)]; [unfold try in He; by destruct (Remove _ _ _ _)|].
  assert (w_tree w' = w_tree w2) as E by (eapply pure_run; [|exact Hc]; keeps).
  unfold try in H2. destruct (Remove fail links tmp w1) as [w3 r3] eqn:H3. injection H2 as <- _.
  apply Remove_cases in H3 as [H3|(q & Hq & H3)]; [left; congruence|]. right. rewrite E, H3, H1 in *.
  apply resolve_plain in Hq; [|by apply tidy_unlinked|by unfold parts; rewrite split_on_plain; repeat constructor].
  unfold parts in Hq. rewrite split_on_plain in Hq by done. by subst q.
Qed.

(** The outcome of a first publication, whatever failed. *)
Lemma fresh_stage w w' r arts0 : tidy (w_tree w) →
  (artifacts ← build_snapshot sha256 sha1 fail short links umask egid enc_receipt fetch now progress tmp m;
   publish tmp prefix m;; conclude_stage tmp prefix m;; mret artifacts) w = (w', r) →
  (r = Ok arts0 → complete m (w_tree w')) ∧
  ((∃ t1, touches own (w_tree w) t1 ∧ remoded t1 (w_tree w')) ∨
   (complete m (w_tree w') ∧ ∀ x p, x ≠ id → x ≠ tmp → as_was (w_tree w) (w_tree w') (x :: p))).
Proof.
  intros Ht Hs. destruct (model_names _ _ Hprefix) as (Hpre & Hid & Hrev & Hdot). fold id in Hid, Hdot. fold rev in Hrev.
  pose proof (build_touches tmp id Htmp m Hsafe w) as K1. fold own in K1.
  apply FS_bind_inv in Hs as [(e & He & ->)|(w1 & arts & H1 & Hs)].
  { rewrite He in K1. split; [done|left]. by exists (w_tree w'). }
  rewrite H1 in K1. simpl in K1. destruct (K1 Ht) as [Ht1 F1].
  apply FS_bind_inv in Hs as [(e & He & ->)|(w2 & [] & H2 & Hs)].
  { apply publish_steps in He as (t1 & t2 & ? & ? & ->); [|done]. split; [done|left]. exists t1. split; [by etrans|done]. }
  apply publish_steps in H2 as (t1 & t2 & K2 & R2 & Hmoved & g & Hpub & mode & Hparent & Hmode); [|done].
  assert (touches own (w_tree w) t1) as K12 by by etrans. destruct (K12 Ht) as [Htt F12]. pose proof (tidy_remoded _ _ R2 Htt) as Ht2.
  assert (tidy (w_tree w2)) as Htw2.
  { rewrite Hmoved. intros p n Hl. destruct (under [id; rev] p) eqn:Hu.
    - apply under_spec in Hu as [rel ->]. rewrite lookup_moved in Hl. apply Ht2 in Hl as [Hn Hp]. split; [done|].
      apply Forall_app in Hp as [_ Hp]. apply Forall_app. split; [by repeat constructor|done].
    - destruct (under [tmp; "snapshot"] p) eqn:Hu'; [|rewrite lookup_moved_other in Hl by done; by apply Ht2 in Hl].
      exfalso. apply under_spec in Hu' as [rel ->]. unfold moved, prune_at in Hl. apply lookup_union_Some_raw in Hl as [Hl|[_ Hl]].
      + apply elem_of_list_to_map_2, list_elem_of_fmap in Hl as ([rel' n'] & [= Hx _] & _). fold tmp in Hx. rewrite <- Hx in Hdot. done.
      + apply map_lookup_filter_Some in Hl as [Hl _]. apply map_lookup_filter_Some in Hl as [_ Hl]. cbn [fst] in Hl.
        by rewrite (proj2 (under_spec _ _) (ex_intro _ rel eq_refl)) in Hl. }
  assert (∀ x p, x ≠ id → x ≠ tmp → as_was (w_tree w) (w_tree w2) (x :: p)) as Hother.
  { intros x p Hx1 Hx2. assert (∀ a b l, x ≠ a → under [a; b] (x :: l) = false) as Hu.
    { intros a b l Hne. destruct (under [a; b] (x :: l)) eqn:Hu; [|done]. by apply under_spec in Hu as [rel [= ? _]]. }
    assert (w_tree w2 !! (x :: p) = t2 !! (x :: p)) as Hx by (rewrite Hmoved; by apply lookup_moved_other; apply Hu).
    unfold as_was. rewrite Hx. assert (t1 !! (x :: p) = w_tree w !! (x :: p)) as <-; [|apply R2]. apply F12.
    unfold own, staging_own. apply String.eqb_neq in Hx1, Hx2. by destruct p; rewrite ?Hx1, Hx2. }
  assert (tmp ≠ id) as Hne by (intros Heq; rewrite <- Heq in Hdot; done).
  assert (w_tree w' = w_tree w2 ∨ w_tree w' = delete [tmp] (w_tree w2)) as Hend.
  { apply FS_bind_inv in Hs as [(e & He & ->)|(w3 & [] & H3 & [= <- _])]; by eapply conclude_steps. }
  assert (complete m (w_tree w')) as Hfinal.
  { exists g. destruct Hend as [-> | ->]; [eauto|]. split; [|exists mode; split; [|done]; rewrite lookup_delete_ne; [done|intros [= E]; done]]. apply published_delete; [done|done|]. destruct (under [id; rev] [tmp]) eqn:Hu; [|done]. by apply under_spec in Hu as [rel [=]]. }
  split; [done|right]. split; [done|]. intros x p Hx1 Hx2. destruct Hend as [-> | ->]; [by apply Hother|].
  unfold as_was. rewrite lookup_delete_ne; [by apply Hother|]. intros [= ->]. done.
Qed.
End OneModel.

Lemma repair_steps prefix m w w' r : repairPublishedPermissions prefix m w = (w', r) → remoded (w_tree w) (w_tree w').
Proof.
  intros Hr. assert (keeps remoded (repairPublishedPermissions prefix m)) as Hk.
  { unfold repairPublishedPermissions, Staging.repairPublishedPermissions. pose proof (setPublished_remoded prefix m). pose proof (setModelParent_remoded prefix). keeps. }
  specialize (Hk w). by rewrite Hr in Hk.
Qed.
Lemma repair_published m prefix w w' arts : modelPrefix m = Ok prefix → named (w_tree w) →
  repairPublishedPermissions prefix m w = (w', Ok arts) →
  complete m (w_tree w') ∧ ar_Name <$> arts = cf_Path <$> cm_Files m.
Proof.
  intros Hprefix Hn Hr. pose proof (repair_steps _ _ _ _ _ Hr) as Hrem. destruct (model_names _ _ Hprefix) as (-> & Hid & Hrev & _).
  unfold repairPublishedPermissions, Staging.repairPublishedPermissions in Hr.
  apply FS_bind_ok in Hr as (w1 & result & (E1 & Hnames & _)%validateSnapshot_ok & Hr). apply FS_bind_ok in Hr as (w2 & [] & H2 & Hr).
  apply FS_bind_ok in Hr as (w3 & [] & H3 & Hr). apply FS_bind_ok in Hr as (w4 & arts' & (E4 & _ & g & Hv)%validateSnapshot_ok & [= <- <-]).
  split; [|done]. exists g. apply (setModelParent_ok _ _ _ _ Hid Hrev) in H2 as (g' & mode & Hg' & Hf & Hm).
  pose proof (setPublished_remoded (cm_ID m +:+ "/" +:+ cm_Revision m) m w2) as Hk. rewrite H3 in Hk.
  assert (root_group (w_tree w4) g') as Hg by (eapply root_group_remoded; [exact Hrem|by rewrite <- E1]).
  rewrite E4 in *. pose proof (root_group_det _ _ _ Hg (va_group _ _ _ _ _ Hv)) as ->.
  destruct (Hk [cm_ID m]) as [Hsame _]. rewrite Hf in Hsame. cbn [fst] in *. destruct (w_tree w3 !! [cm_ID m]) as [[mode' g2| | |]|] eqn:Hf'; simplify_eq/=.
  split; [|exists mode'; split; [done|by eapply (remoded_mode _ _ _ _ _ (Hk [cm_ID m]) Hf Hf')]].
  eapply validated_published; [done|done|exact (named_remoded _ _ Hrem Hn)|exact Hf'|done].
Qed.

Lemma needed_safe budget l : ∀ seen n n', needed_bytes sha256 sha1 budget l seen n = Ok n' → ∀ f, f ∈ l → safeRelative (cf_Path f) = true.
Proof.
  induction l as [|f l IH]; intros seen n n'; cbn [needed_bytes]; [intros _ f Hf; by apply elem_of_nil in Hf|].
  destruct (_ || (cf_Size f <? 0)) eqn:Hb; [done|]. intros (h & _ & Hn)%bind_ok. cbv zeta in Hn. destruct (_ >? budget); [done|].
  bool_hyps. intros f' [->|Hf]%elem_of_cons; [done|by eapply IH].
Qed.
Lemma usedBytes_plain w w' n : usedBytes fail w = (w', Ok n) → w_tree w' = w_tree w ∧ (named (w_tree w) → tidy (w_tree w)).
Proof.
  unfold usedBytes. intros (w1 & [] & H1 & Hu)%FS_bind_ok. apply pure_run in H1; [|auto with fs typeclass_instances].
  apply FS_bind_ok in Hu as (w2 & t & [= <- <-] & [Hp [= <- _]]%refuse_ok). split; [done|]. intros Hn p n' Hl. split; [|by eapply Hn].
  apply negb_false_iff in Hp. rewrite forallb_forall in Hp. apply (Hp (p, n')). apply list_elem_of_In, elem_of_map_to_list. by rewrite H1.
Qed.

(** What a run that began on [t] and ended on [t'] did to the models. *)
Record outcome m t t' (ok : bool) : Prop := {
  oc_model : (∀ rel, as_was t t' ([cm_ID m; cm_Revision m] ++ rel)) ∨ complete m t';
  oc_ok : ok = true → complete m t';
  oc_others x p : x ≠ cm_ID m → x ≠ ".partial-" +:+ temp → as_was t t' (x :: p) }.

Lemma outcome_remoded m t t' ok : remoded t t' → (ok = true → complete m t') → outcome m t t' ok.
Proof. intros Hr Hc. split; [left|done|]; intros; apply Hr. Qed.
Lemma outcome_pure {A : Type} m (f : FS A) w w' e : keeps eq f → f w = (w', Err e) → outcome m (w_tree w) (w_tree w') false.
Proof. intros Hk He. apply pure_run in He as ->; [|done]. by apply outcome_remoded. Qed.

(** The run after the admission checks. *)
Lemma outcome_fresh m prefix w w' r : modelPrefix m = Ok prefix → (∀ f, f ∈ cm_Files m → safeRelative (cf_Path f) = true) →
  plain_name (".partial-" +:+ temp) = true → tidy (w_tree w) →
  (Mkdir fail links umask egid (".partial-" +:+ temp) 448;;
   artifacts ← build_snapshot sha256 sha1 fail short links umask egid enc_receipt fetch now progress (".partial-" +:+ temp) m;
   publish (".partial-" +:+ temp) prefix m;; conclude_stage (".partial-" +:+ temp) prefix m;; mret artifacts) w = (w', r) →
  outcome m (w_tree w) (w_tree w') (is_ok r).
Proof.
  intros Hprefix Hsafe Htmp Ht Hs. destruct (model_names _ _ Hprefix) as (_ & Hid & _ & Hdot).
  set (tmp := ".partial-" +:+ temp) in *. set (own := staging_own tmp (cm_ID m)).
  assert (owned own tmp) as Hown by (change tmp with (join_path [tmp]); apply owned_join; [by repeat constructor|done|]; apply own_tmp).
  assert (∀ t t', touches own (w_tree w) t → remoded t t' → outcome m (w_tree w) t' false) as Hstaged.
  { intros t t' Hk Hr. destruct (Hk Ht) as [_ Hf]. assert (tmp ≠ cm_ID m) as Hne by (intros E; by rewrite <- E in Hdot).
    assert (∀ p, own p = false → as_was (w_tree w) t' p) as Hw by (intros p Hp; unfold as_was; rewrite <- (Hf p Hp); apply Hr).
    split; [left; intros rel|done|intros x p Hx1 Hx2]; apply Hw; unfold own, staging_own.
    - cbn [app]. apply String.eqb_neq. done.
    - fold tmp in Hx2. apply String.eqb_neq in Hx1, Hx2. by destruct p; rewrite ?Hx1, Hx2. }
  pose proof (Mkdir_touches fail links umask egid own tmp 448 Hown w) as Km.
  apply FS_bind_inv in Hs as [(e & He & ->)|(w1 & [] & H1 & Hs)]; [rewrite He in Km; by apply (Hstaged (w_tree w'))|].
  rewrite H1 in Km. destruct (Km Ht) as [Ht1 Hf1]. cbn [fst] in *.
  pose proof (fresh_stage m prefix Hprefix Hsafe Htmp w1 w' r) as Hfresh. fold tmp in Hfresh.
  assert (∀ arts, (∃ t, touches own (w_tree w1) t ∧ remoded t (w_tree w')) ∨
    (complete m (w_tree w') ∧ ∀ x p, x ≠ cm_ID m → x ≠ tmp → as_was (w_tree w1) (w_tree w') (x :: p)) →
    (r = Ok arts → complete m (w_tree w')) → (∀ arts', r = Ok arts' → arts' = arts) → outcome m (w_tree w) (w_tree w') (is_ok r)) as Hend.
  { intros arts [(t & Hk & Hr)|[Hc Ho]] Hok Hu.
    - destruct (Hstaged t (w_tree w')) as [Hm _ Ho]; [etrans; [exact Km|exact Hk]|done|]. split; [done| |done].
      destruct r as [arts'|]; [|done]. intros _. by rewrite (Hu arts' eq_refl) in *; apply Hok.
    - split; [by right|done|]. intros x p Hx1 Hx2. fold tmp in Hx2. unfold as_was. rewrite <- (Hf1 (x :: p)); [by apply Ho|].
      unfold own, staging_own. apply String.eqb_neq in Hx1, Hx2. by destruct p; rewrite ?Hx1, Hx2. }
  destruct r as [arts|e].
  - destruct (Hfresh arts Ht1 Hs) as [Hok Hcase]. apply (Hend arts Hcase Hok). by intros ? [= ->].
  - destruct (Hfresh [] Ht1 Hs) as [Hok Hcase]. by apply (Hend [] Hcase Hok).
Qed.

(** C30: Publication is atomic. Whatever system calls fail and whatever upstream delivers, a run
    of [Stage] on a tree of ordinary names leaves, at the public name of the model, either what
    was there before, except that the modes of some nodes may now be the published ones (a
    repair that failed midway), or a complete snapshot: exactly the reviewed files with the
    reviewed sizes and digests and a receipt for this manifest, all in the reader group with
    reader modes, below a model directory that the reader group can enter. A run that succeeds
    leaves the latter. The same exception apart, nothing changes outside the model's own
    directory and the private partial one. *)
Theorem Stage_atomic budget free m w w' r :
  named (w_tree w) → plain_name (".partial-" +:+ temp) = true → Stage budget free m w = (w', r) →
  outcome m (w_tree w) (w_tree w') (is_ok r).
Proof.
  intros Hn Htmp Hs. unfold Stage, Staging.Stage in Hs.
  apply FS_bind_inv in Hs as [(e & He & ->)|(w1 & [] & E1 & Hs)]; [eapply outcome_pure; [|exact He]; auto with fs typeclass_instances|].
  apply pure_run in E1; [|auto with fs typeclass_instances].
  apply FS_bind_inv in Hs as [(e & [= <- _] & ->)|(w2 & prefix & [= <- Hprefix] & Hs)]; [rewrite E1; by apply outcome_remoded|].
  apply FS_bind_inv in Hs as [(e & He & ->)|(w3 & present & E3 & Hs)]; [unfold try in He; by destruct (Lstat _ _ _ _)|].
  apply pure_run in E3; [|auto with fs typeclass_instances]. assert (w_tree w3 = w_tree w) as E by congruence. rewrite <- E in *. clear E1 E3.
  destruct (is_ok present).
  { apply outcome_remoded; [by eapply repair_steps|]. destruct r as [arts|]; [|done]. intros _. by eapply repair_published in Hs as [Hc _]. }
  apply FS_bind_inv in Hs as [(e & [= <- _] & ->)|(w4 & needed & [= <- Hneeded] & Hs)]; [by apply outcome_remoded|].
  apply FS_bind_inv in Hs as [(e & He & ->)|(w5 & used & [E5 Htidy]%usedBytes_plain & Hs)].
  { eapply outcome_pure; [|exact He]. unfold usedBytes. keeps. }
  specialize (Htidy Hn). rewrite <- E5 in *.
  apply FS_bind_inv in Hs as [(e & [= <- _] & ->)|(w6 & free' & [= <- _] & Hs)]; [by apply outcome_remoded|].
  destruct (_ || (_ >? free')); [injection Hs as <- <-; by apply outcome_remoded|].
  eapply outcome_fresh; [done|by eapply needed_safe|done|done|exact Hs].
Qed.

(** What [Verify] answers for is a complete, readable snapshot, and it changes nothing. *)
Theorem StagerVerify_complete m w w' arts :
  named (w_tree w) → StagerVerify sha256 sha1 fail links dec_receipt m w = (w', Ok arts) →
  w_tree w' = w_tree w ∧ complete m (w_tree w) ∧ ar_Name <$> arts = cf_Path <$> cm_Files m.
Proof.
  intros Hn Hv. unfold StagerVerify in Hv. apply FS_bind_ok in Hv as (w1 & [] & E1 & Hv). apply pure_run in E1; [|auto with fs typeclass_instances].
  apply FS_bind_ok in Hv as (w2 & prefix & [= <- Hprefix] & Hv). apply FS_bind_ok in Hv as (w3 & [] & H3 & Hv).
  pose proof (pure_run _ _ _ _ (publishedReaderModes_pure prefix m) H3) as E3.
  apply validateSnapshot_ok in Hv as (E4 & Hnames & g & Hval). destruct (model_names _ _ Hprefix) as (-> & Hid & Hrev & _).
  unfold publishedReaderModes, Staging.publishedReaderModes in H3. apply FS_bind_ok in H3 as (w5 & g5 & [E5 Hg5]%rootGroup_ok & H3).
  change (cm_ID m +:+ "/" +:+ cm_Revision m) with (join_path ([cm_ID m] ++ [cm_Revision m])) in H3.
  rewrite path_dir_join in H3 by (done || by repeat constructor || by apply plain_no_slash). simpl in H3.
  apply FS_bind_ok in H3 as (w6 & [] & (E6 & mode & Hf & Hm)%requireReaderDirectory_ok & _). apply find_single in Hf; [|done].
  rewrite E4, E3, E1 in *. rewrite E5 in Hf. split_and!; [done| |done]. pose proof (root_group_det _ _ _ Hg5 (va_group _ _ _ _ _ Hval)) as ->.
  exists g. split; [by eapply validated_published|eauto].
Qed.
End Published.

(** ** A concrete publication *)

Module StagingFixture.
#[export] Existing Instance render_hash.
Definition hex (n : nat) (c : string) : string := String.substring 0 n (pretty (str_len c) +:+ "0000000000000000000000000000000000000000000000000000000000000000").
Definition sha256 : string → string := hex 64.
Definition sha1 : string → string := hex 40.
Definition weights : string := "model weights".
Definition model : CatalogModel := mkCatalogModel "Qwen3.5-9B" "Qwen/Qwen3.5-9B" "0123456789012345678901234567890123456789" "" ""
  [mkCatalogFile "config.json" 2 "sha256" (sha256 "{}"); mkCatalogFile "shards/w-1.bin" 13 "git-sha1" (sha1 ("blob 13" +:+ String "000" weights))] 15 1 4096 "".
Definition staged : list Artifact := [
  mkArtifact "config.json" (sha256 "{}") 2 (cm_Revision model) "staged-inputs-not-qualified" "";
  mkArtifact "shards/w-1.bin" (sha256 weights) 13 (cm_Revision model) "staged-inputs-not-qualified" ""].
Definition receipt : stagedReceipt := receipt_of 7 model staged.
Definition enc (r : stagedReceipt) : string := "receipt of " +:+ rc_Model r.
Definition dec (c : string) : option stagedReceipt := if c =s enc receipt then Some receipt else None.
Definition upstream (u : URL) : option Reply := Some (mkReply 200 (-1) (if has_suffix (ur_Path u) ".json" then "{}" else weights) false).
Definition root : World := mkWorld {[ [] := TDir 1512 50 ]} 0.
(** [failing n]: only the call [n] fails. *)
Definition run (failing : option nat) : World * result (list Artifact) :=
  Stage sha256 sha1 (λ n, bool_decide (failing = Some n)) (λ _, 3%nat) 8 63 1000 enc dec upstream 7 (λ _ _, true) "1" (2^30) (Ok (2^40)) model root.
End StagingFixture.
Import StagingFixture.

(** The last call fails: the snapshot is already public, and whole. *)
Example late_failure : is_ok (run (Some 120%nat)).2 = false ∧ w_tree (run (Some 120%nat)).1 = w_tree (run None).1.
Proof. split; [vm_compute; reflexivity|]. vm_cast_no_check (@eq_refl Tree (w_tree (run None).1)). Qed.

Lemma Stage_atomic_witness : is_ok (run None).2 = true ∧ complete sha256 sha1 dec model (w_tree (run None).1).
Proof.
  assert (is_ok (run None).2 = true) as Hok by (vm_compute; reflexivity). split; [exact Hok|].
  destruct (run None) as [w' r] eqn:Hr.
  refine (oc_ok _ _ _ _ _ _ _ _ (Stage_atomic sha256 sha1 _ (λ _, 3%nat) 8 63 1000 enc dec upstream 7 (λ _ _, true) "1" (2^30) (Ok (2^40)) model root w' r _ _ Hr) Hok).
  - intros p n Hl. change (({[ [] := TDir 1512 50 ]} : Tree) !! p = Some n) in Hl. apply lookup_singleton_Some in Hl as [<- _]. constructor.
  - vm_compute. reflexivity.
Defined.

Definition published_root : World := mkWorld (w_tree (run None).1) 0.
Lemma StagerVerify_complete_witness :
  ∃ w' arts, StagerVerify sha256 sha1 (λ _, false) 8 dec model published_root = (w', Ok arts) ∧
    w_tree w' = w_tree published_root ∧ ar_Name <$> arts = ["config.json"; "shards/w-1.bin"].
Proof.
  assert (is_ok (StagerVerify sha256 sha1 (λ _, false) 8 dec model published_root).2 = true) as Hok by (vm_compute; reflexivity).
  destruct (StagerVerify sha256 sha1 (λ _, false) 8 dec model published_root) as [w' [arts|]] eqn:Hv; [|done].
  exists w', arts.
  assert (named (w_tree published_root)) as Hn.
  { assert (map_Forall (λ p _, Forall (λ x, plain_name x = true) p) (w_tree published_root)) as Hm by (apply (bool_decide_unpack _); vm_compute; exact I).
    intros p n Hl. exact (Hm p n Hl). }
  destruct (StagerVerify_complete sha256 sha1 (λ _, false) (λ _, 0%nat) 8 dec 7 (λ _ _, true) "1" model published_root w' arts Hn Hv) as (Ht & _ & Hnames).
  exact (conj eq_refl (conj Ht Hnames)).
Defined.
