(* ===== verification/Config.v ===== *)
(** Administrator policy of the controller ([internal/config]): strict JSON, the
    browser-session boundary, and what [Validate] guarantees of a configuration.

    URL and address parsing ([net/url], [net]) are standard-library functions: the
    operational classes give their results on a string. *)
From S2P Require Import Prelude Json Safefile.
From Stdlib Require Import SpecFloat.

(** ** Strict documents *)

(** The loops of [uniqueJSON] over an object and an array. *)
Definition unique_object (check : JSON → result unit) : gset string → list (string * JSON) → result unit :=
  fix object seen fields :=
    match fields with
    | [] => Ok tt
    | (name, v) :: fields =>
      reject bool_decide (name ∈ seen) with Plain "duplicate JSON key" ;;
      match check v with Ok _ => object ({[name]} ∪ seen) fields | Err e => Err e end
    end.
Definition unique_array (check : JSON → result unit) : list JSON → result unit :=
  fix array l :=
    match l with
    | [] => Ok tt
    | v :: l => match check v with Ok _ => array l | Err e => Err e end
    end.

(** [uniqueJSON] on the token stream of a syntactically valid document: objects keep the
    order and multiplicity of their keys. *)
Fixpoint uniqueJSON (v : JSON) (depth : Z) : result unit :=
  reject depth >? 32 with Plain "JSON nesting limit exceeded" ;;
  match v with
  | JObject fields => unique_object (λ v, uniqueJSON v (depth + 1)) ∅ fields
  | JArray l => unique_array (λ v, uniqueJSON v (depth + 1)) l
  | _ => Ok tt
  end.

(** [Decode]: the bytes parse as the documents [docs] ([None]: not JSON); [shape] is the
    decoder of the target type, which refuses unknown fields. *)
Definition Decode {A} (shape : JSON → option A) (docs : option (list JSON)) : result A :=
  match docs with
  | None | Some [] => Err (Plain "invalid JSON")
  | Some (v :: rest) =>
    _ ← uniqueJSON v 0;
    match shape v with
    | None => Err (Plain "invalid JSON or unknown field")
    | Some a => reject negb (Nat.eqb (length rest) 0) with Plain "one JSON document is required" ;; Ok a
    end
  end.

(** ** Addresses and origins *)

Record IPAddr := mkIPAddr { ip_Loopback : bool; ip_Private : bool; ip_Unspecified : bool }.
Record URL := mkURL {
  u_Scheme : string;
  u_Opaque : string;
  u_User : bool;
  u_Host : string;
  u_Hostname : string;
  u_Port : string;
  u_Path : string;
  u_RawPath : string;
  u_RawQuery : string;
  u_ForceQuery : bool;
  u_Fragment : string;
  u_RawFragment : string }.

(** [net.ParseIP], [url.Parse], [net.SplitHostPort] and [strings.ToLower] for [EqualFold]. *)
Class NetParse := {
  ParseIP : string → option IPAddr;
  url_Parse : string → option URL;
  SplitHostPort : string → option (string * string);
  EqualFold : string → string → bool }.

(** ** The policy *)

Record Telemetry := mkTelemetry {
  tl_Enabled : bool;
  tl_OTLPEndpoint : string;
  tl_TraceSampleRatio : float64;
  tl_PrometheusURL : string }.

Record Advisor := mkAdvisor {
  av_Enabled : bool;
  av_Model : string;
  av_APIKeyFile : string;
  av_TimeoutSeconds : Z;
  av_MaxToolCalls : Z;
  av_MaxSessionsPerHour : Z;
  av_ProjectBudgetAcknowledged : bool }.

Record Config := mkConfig {
  co_Mode : string;
  co_StateDir : string;
  co_SourcePath : string;
  co_Listen : string;
  co_AllowedHosts : list string;
  co_ExternalURL : string;
  co_TLSCertFile : string;
  co_TLSKeyFile : string;
  co_BrowserSessions : bool;
  co_OwnerUID : Z;
  co_Target : string;
  co_Environment : string;
  co_ReferenceRoot : string;
  co_ModelRoot : string;
  co_CompilerCacheRoot : string;
  co_ShaderCacheRoot : string;
  co_HostSocket : string;
  co_WorkerSocket : string;
  co_ClientBaseURL : string;
  co_QueueDepth : Z;
  co_OperationTimeoutSeconds : Z;
  co_Telemetry : Telemetry;
  co_Advisor : Advisor }.

Definition BrowserSessionsEnabled (c : Config) : bool := (co_Mode c =s "demo") || co_BrowserSessions c.
Definition BrowserSessionCookieName (c : Config) : string :=
  if co_Mode c =s "live" then "__Host-bridge_session_v2" else "bridge_demo_session_v2".
Definition BrowserSessionPurpose (c : Config) : string :=
  if co_Mode c =s "live" then "live-browser-v2" else "demo-browser-v2".

(** [strings.ContainsAny]. *)
Definition contains_any (s set : string) : bool := existsb (λ c, existsb (Ascii.eqb c) (chars set)) (chars s).

Section Config.
Context `{NetParse}.

Definition validateBrowserSessionPolicy (c : Config) (origin : URL) : result unit :=
  if (co_Mode c <>s "live") || negb (co_BrowserSessions c) then Ok tt else
  reject (u_Scheme origin <>s "https") || (co_TLSCertFile c =s "") || (co_TLSKeyFile c =s "")
    with Plain "live browser sessions require HTTPS with certificate and key files" ;;
  let host := u_Hostname origin in
  reject (host =s "") || negb (contains host ".") || EqualFold host "localhost" || is_some (ParseIP host)
    with Plain "live browser sessions require a dedicated trusted DNS management hostname, not localhost, a single-label host or an IP literal" ;;
  Ok tt.

(** [strconv.Atoi] of a port within its range. *)
Definition valid_port (s : string) : bool :=
  match ParseInt s with Some p => (1 <=? p) && (p <=? 65535) | None => false end.

Definition ValidateTelemetryEndpoint (endpoint : string) : result unit :=
  let invalid := Plain "telemetry endpoint must be an explicit loopback HTTP(S) or private-IP HTTPS origin with port, without credentials, path, query or fragment" in
  match url_Parse endpoint with
  | None => Err invalid
  | Some u =>
    reject (str_len endpoint >? 256) || contains_any endpoint "?#" || (u_Opaque u <>s "") || u_User u || (u_RawPath u <>s "")
        || (u_Path u <>s "") || (u_RawQuery u <>s "") || u_ForceQuery u || (u_Fragment u <>s "") || (u_RawFragment u <>s "")
      with invalid ;;
    match ParseIP (u_Hostname u) with
    | None => Err invalid
    | Some ip =>
      reject (negb (ip_Loopback ip) && negb (ip_Private ip)) || negb (valid_port (u_Port u)) with invalid ;;
      reject (u_Scheme u <>s "https") && negb ((u_Scheme u =s "http") && ip_Loopback ip) with invalid ;;
      Ok tt
    end
  end.

(** [math.IsNaN], [math.IsInf] and the range of a ratio. *)
Definition ratio_ok (f : float64) : bool :=
  match f with
  | S754_nan | S754_infinity _ => false
  | _ => negb (SFltb f f0) && negb (SFltb f1 f)
  end.

Definition Telemetry_Validate (c : Telemetry) : result unit :=
  reject negb (ratio_ok (tl_TraceSampleRatio c)) with Plain "telemetry trace_sample_ratio must be between 0 and 1" ;;
  reject tl_Enabled c && (tl_OTLPEndpoint c =s "") with Plain "enabled telemetry requires an explicit otlp_endpoint" ;;
  _ ← (if tl_OTLPEndpoint c =s "" then Ok tt else ValidateTelemetryEndpoint (tl_OTLPEndpoint c));
  if tl_PrometheusURL c =s "" then Ok tt else ValidateTelemetryEndpoint (tl_PrometheusURL c).

(** [^\[A-Za-z0-9\]\[A-Za-z0-9._-\]{0,127}$]. *)
Definition model_char (c : ascii) : bool :=
  is_alnum c || Ascii.eqb c "."%char || Ascii.eqb c "_"%char || Ascii.eqb c "-"%char.

Definition Advisor_Validate (c : Advisor) : result unit :=
  if negb (av_Enabled c) then Ok tt else
  reject negb (headed_name model_char 0 127 (av_Model c)) with Plain "enabled advisor requires an explicit model identifier" ;;
  reject negb (is_abs (av_APIKeyFile c)) || (clean (av_APIKeyFile c) <>s av_APIKeyFile c) || (av_APIKeyFile c =s "/")
      || negb (all_chars (λ c, negb ((N_of_ascii c <=? 32)%N || (N_of_ascii c =? 127)%N)) (av_APIKeyFile c))
    with Plain "enabled advisor requires a canonical absolute api_key_file" ;;
  reject (av_TimeoutSeconds c <? 5) || (av_TimeoutSeconds c >? 20) || (av_MaxToolCalls c <? 3) || (av_MaxToolCalls c >? 8)
      || (av_MaxSessionsPerHour c <? 1) || (av_MaxSessionsPerHour c >? 60)
    with Plain "advisor requires timeout_seconds 5..20, max_tool_calls 3..8, and max_sessions_per_hour 1..60" ;;
  reject negb (av_ProjectBudgetAcknowledged c)
    with Plain "enabled advisor requires acknowledgement of a separately managed provider project budget; local limits are not a dollar ceiling" ;;
  Ok tt.

Fixpoint check_paths (sy : Sys) (fs : FileSystem) (l : list string) : result unit :=
  match l with
  | [] => Ok tt
  | p :: l => _ ← CheckPath sy fs p; check_paths sy fs l
  end.

(** The dedicated directories. *)
Fixpoint check_managed (sy : Sys) (fs : FileSystem) (home : string) (l : list string) : result unit :=
  match l with
  | [] => Ok tt
  | p :: l =>
    _ ← CheckPath sy fs p;
    reject (p =s "/") || (p =s home) with Plain "use a dedicated managed directory" ;;
    check_managed sy fs home l
  end.

(** The hosts loop; the answer is whether the external host was listed. *)
Fixpoint check_hosts (external : string) (found : bool) (l : list string) : result bool :=
  match l with
  | [] => Ok found
  | h :: l =>
    reject (h =s "") || contains_any h (String "/" (String "*" (String "\" (String "013" (String "010" (String "009" "@ "))))))
      with Plain "invalid allowed host" ;;
    check_hosts external (found || (h =s external)) l
  end.

(** The reading of [Validate] up to the parsed listener and origin. *)
Definition validate_identity (sy : Sys) (fs : FileSystem) (home : string) (c : Config) : result unit :=
  reject (co_Mode c <>s "demo") && (co_Mode c <>s "live") with Plain "mode must explicitly be demo or live" ;;
  reject (co_OwnerUID c <? 0) || (co_Target c =s "") || contains_any (co_Target c) (String " " (String "/" (String "\" (String "009" (String "010" "")))))
      || (str_len (co_Target c) >? 63)
    with Plain "explicit owner UID and target are required" ;;
  reject (co_QueueDepth c <? 1) || (co_QueueDepth c >? 16) || (co_OperationTimeoutSeconds c <? 10) || (co_OperationTimeoutSeconds c >? 86400)
    with Plain "queue depth must be 1..16 and timeout 10..86400 seconds" ;;
  reject (co_Environment c <>s "dev") && (co_Environment c <>s "tst") && (co_Environment c <>s "int")
    with Plain "target requires explicit dev, tst or int classification; production is not supported" ;;
  _ ← check_managed sy fs home [co_StateDir c; co_SourcePath c];
  reject path_dir (co_SourcePath c) <>s co_StateDir c
    with Plain "source_path must be a file directly inside the dedicated state_dir" ;;
  Ok tt.

(** The transport rules over the parsed listener address and origin. *)
Definition validate_transport (c : Config) (ip : IPAddr) (u : URL) : result unit :=
  reject negb (ip_Loopback ip) && ((u_Scheme u <>s "https") || (co_TLSCertFile c =s "") || (co_TLSKeyFile c =s ""))
    with Plain "non-loopback management requires authenticated HTTPS and a reviewed explicit interface" ;;
  reject (u_Scheme u =s "http")
      && (negb (ip_Loopback ip) || negb ((u_Hostname u =s "localhost") || match ParseIP (u_Hostname u) with Some e => ip_Loopback e | None => false end))
    with Plain "plaintext management must remain loopback" ;;
  reject (u_Scheme u =s "https") && ((co_TLSCertFile c =s "") || (co_TLSKeyFile c =s ""))
    with Plain "HTTPS requires certificate and key files" ;;
  Ok tt.

Definition Validate (sy : Sys) (fs : FileSystem) (home : string) (linux : bool) (c : Config) : result unit :=
  _ ← Advisor_Validate (co_Advisor c);
  reject (co_Mode c =s "demo") && av_Enabled (co_Advisor c) with Plain "demo cannot contact a live advisory provider" ;;
  _ ← Telemetry_Validate (co_Telemetry c);
  _ ← validate_identity sy fs home c;
  match SplitHostPort (co_Listen c) with
  | None => Err (Plain "listen requires a literal IP and port")
  | Some (host, port) =>
    match ParseIP host with
    | None => Err (Plain "wildcard/DNS listeners are forbidden; choose an explicit IP and port")
    | Some ip =>
      reject ip_Unspecified ip || negb (valid_port port)
        with Plain "wildcard/DNS listeners are forbidden; choose an explicit IP and port" ;;
      match url_Parse (co_ExternalURL c) with
      | None => Err (Plain "external_url must be the exact management origin")
      | Some u =>
        reject u_User u || (u_Host u =s "") || (u_Path u <>s "") || (u_RawQuery u <>s "") || (u_Fragment u <>s "")
          with Plain "external_url must be the exact management origin" ;;
        reject (u_Scheme u <>s "http") && (u_Scheme u <>s "https") with Plain "HTTP or HTTPS origin required" ;;
        reject Nat.eqb (length (co_AllowedHosts c)) 0 || Nat.ltb 8 (length (co_AllowedHosts c))
          with Plain "explicit allowed_hosts required" ;;
        found ← check_hosts (u_Host u) false (co_AllowedHosts c);
        reject negb found with Plain "external_url host must be in allowed_hosts" ;;
        _ ← validateBrowserSessionPolicy c u;
        _ ← validate_transport c ip u;
        reject (co_Mode c =s "demo") && negb (ip_Loopback ip) with Plain "demo must bind loopback" ;;
        reject (co_Mode c =s "demo")
            && ((co_HostSocket c <>s "") || (co_WorkerSocket c <>s "") || (co_ReferenceRoot c <>s "") || (co_ModelRoot c <>s "")
                || (co_CompilerCacheRoot c <>s "") || (co_ShaderCacheRoot c <>s ""))
          with Plain "demo policy must not configure live adapters" ;;
        if co_Mode c =s "live" then
          reject negb linux with Plain "live controller requires Linux; use the remote CLI on macOS" ;;
          check_paths sy fs [co_ReferenceRoot c; co_ModelRoot c; co_HostSocket c; co_WorkerSocket c; co_CompilerCacheRoot c; co_ShaderCacheRoot c]
        else Ok tt
      end
    end
  end.
End Config.

(** ** Strictness *)

(** Nesting depth, and the absence of repeated keys at every level. *)
Fixpoint json_height (v : JSON) : Z :=
  match v with
  | JObject fields => foldr (λ kv m, Z.max (1 + json_height kv.2) m) 0 fields
  | JArray l => foldr (λ v m, Z.max (1 + json_height v) m) 0 l
  | _ => 0
  end.

Fixpoint keys_unique (v : JSON) : Prop :=
  match v with
  | JObject fields => NoDup fields.*1 ∧ foldr (λ kv P, keys_unique kv.2 ∧ P) True fields
  | JArray l => foldr (λ v P, keys_unique v ∧ P) True l
  | _ => True
  end.

(** Induction on documents. *)
Lemma JSON_nested_ind (P : JSON → Prop) :
  P JNull → (∀ b, P (JBool b)) → (∀ z, P (JInt z)) → (∀ f, P (JFloat f)) → (∀ s, P (JString s)) → (∀ t, P (JTime t)) →
  (∀ l, Forall P l → P (JArray l)) → (∀ fields, Forall (λ kv : string * JSON, P kv.2) fields → P (JObject fields)) → ∀ v, P v.
Proof.
  intros Hn Hb Hi Hf Hs Ht Ha Ho. fix IH 1. intros [|b|z|f|s|t|l|fields]; [done|apply Hb|apply Hi|apply Hf|apply Hs|apply Ht| |].
  - apply Ha. induction l as [|v l IHl]; constructor; [apply IH|exact IHl].
  - apply Ho. induction fields as [|[k v] l IHl]; constructor; [apply IH|exact IHl].
Qed.

Lemma unique_array_spec check (P : JSON → Prop) l :
  Forall (λ v, check v = Ok tt ↔ P v) l → unique_array check l = Ok tt ↔ Forall P l.
Proof.
  induction 1 as [|v l Hv _ IH]; simpl; [intuition constructor|].
  rewrite Forall_cons, <- Hv, <- IH. destruct (check v) as [[]|]; naive_solver.
Qed.

Lemma unique_object_spec check (P : JSON → Prop) fields : ∀ seen,
  Forall (λ kv : string * JSON, check kv.2 = Ok tt ↔ P kv.2) fields →
  unique_object check seen fields = Ok tt ↔
  (NoDup fields.*1 ∧ Forall (λ k, k ∉ seen) fields.*1) ∧ Forall (λ kv : string * JSON, P kv.2) fields.
Proof.
  induction fields as [|[k v] fields IH]; intros seen Hc.
  { simpl. split; [|done]. intros _. repeat constructor. }
  inversion Hc as [|? ? Hv Hc']; subst. csimpl. rewrite NoDup_cons, !Forall_cons, <- Hv. simpl.
  case_bool_decide as Hs; [naive_solver|]. destruct (check v) as [[]|]; [|naive_solver].
  rewrite (IH _ Hc'), !Forall_forall. set_solver.
Qed.

(** Folded conjunctions and maxima over the members, as [Forall]. *)
Lemma fold_members {A} (f : A → JSON) (d : Z) (l : list A) :
  d ≤ 32 →
  (foldr (λ a P, keys_unique (f a) ∧ P) True l ∧ d + foldr (λ a m, Z.max (1 + json_height (f a)) m) 0 l ≤ 32) ↔
  Forall (λ a, keys_unique (f a) ∧ d + 1 + json_height (f a) ≤ 32) l.
Proof.
  intros Hd. induction l as [|a l IH]; simpl; [split; [constructor|lia]|]. rewrite Forall_cons, <- IH. intuition lia.
Qed.

Lemma fold_height_nonneg {A} (f : A → JSON) (l : list A) : 0 ≤ foldr (λ a m, Z.max (1 + json_height (f a)) m) 0 l.
Proof. induction l; simpl; lia. Qed.

Lemma json_height_nonneg v : 0 ≤ json_height v.
Proof. destruct v; simpl; try lia; [apply (fold_height_nonneg id)|apply (fold_height_nonneg snd)]. Qed.

(** Strict decoding is exact: [uniqueJSON] accepts a document if and only if no object at
    any level repeats a key and the nesting stays within thirty-two levels; it never
    refuses another document. *)
Theorem uniqueJSON_spec v depth : uniqueJSON v depth = Ok tt ↔ keys_unique v ∧ depth + json_height v ≤ 32.
Proof.
  revert depth. induction v as [|b|z|f|s|t|l IH|fields IH] using JSON_nested_ind; intros depth; cbn [uniqueJSON];
    (destruct (depth >? 32) eqn:Hd; bool_hyps);
    try match goal with |- context [json_height ?v] => pose proof (json_height_nonneg v); split; [done|lia] end;
    try (simpl; intuition lia).
  - rewrite (unique_array_spec _ (λ v, keys_unique v ∧ depth + 1 + json_height v ≤ 32)); [|by eapply Forall_impl].
    symmetry. by apply (fold_members id).
  - rewrite (unique_object_spec _ (λ v, keys_unique v ∧ depth + 1 + json_height v ≤ 32)); [|by eapply Forall_impl].
    cbn [keys_unique json_height]. rewrite <- (fold_members snd) by done. rewrite Forall_forall. split; [tauto|]. intros ((? & ?) & ?). split_and!; [done| |done..]. set_solver.
Qed.

Lemma Decode_ok {A} (shape : JSON → option A) docs a :
  Decode shape docs = Ok a ↔ ∃ v, docs = Some [v] ∧ shape v = Some a ∧ uniqueJSON v 0 = Ok tt.
Proof.
  split.
  - unfold Decode. destruct docs as [[|v rest]|]; [done| |done]. intros (u & Hu & Hd)%bind_ok. destruct u.
    destruct (shape v) as [a'|] eqn:Hs; [|done]. destruct rest; [|done]. injection Hd as <-. by exists v.
  - intros (v & -> & Hs & Hu). unfold Decode. rewrite Hu. cbn [mbind result_bind]. by rewrite Hs.
Qed.

(** ** What a validated policy exposes *)

Section Exposure.
Context `{NetParse}.

Lemma telemetry_endpoint_private e : ValidateTelemetryEndpoint e = Ok tt →
  ∃ u ip, url_Parse e = Some u ∧ u_User u = false ∧ ParseIP (u_Hostname u) = Some ip ∧
    (ip_Loopback ip = true ∨ ip_Private ip = true ∧ u_Scheme u = "https").
Proof.
  unfold ValidateTelemetryEndpoint. cbv zeta. intros Hv. split_hyp Hv. bool_hyps.
  match goal with Hu : url_Parse e = Some ?u, Hip : ParseIP _ = Some ?ip |- _ => exists u, ip end.
  split_and!; [done..|].
  repeat match goal with Hb : (_ && _) = false |- _ => apply andb_false_iff in Hb end. bool_hyps.
  destruct (ip_Loopback _); [by left|right]. split; [intuition (bool_hyps; congruence)|].
  intuition (bool_hyps; rewrite ?andb_false_r in *; try done; try congruence).
Qed.

Lemma check_hosts_found external l : ∀ found, check_hosts external found l = Ok true → found = true ∨ external ∈ l.
Proof.
  induction l as [|h l IH]; intros found; simpl; [intros [= ->]; by left|].
  destruct (_ || contains_any _ _); [done|]. intros [Hf|Hin]%IH; [|right; by constructor].
  apply orb_true_iff in Hf as [->|Heq%String.eqb_eq]; [by left|]. subst. right. constructor.
Qed.

Definition loopback_name (h : string) : Prop :=
  h = "localhost" ∨ ∃ ip, ParseIP h = Some ip ∧ ip_Loopback ip = true.

Lemma transport_safe c ip u : validate_transport c ip u = Ok tt →
  (u_Scheme u = "http" → ip_Loopback ip = true ∧ loopback_name (u_Hostname u)) ∧
  (u_Scheme u = "https" → co_TLSCertFile c ≠ "" ∧ co_TLSKeyFile c ≠ "").
Proof.
  unfold validate_transport, loopback_name. intros Hv. split_hyp Hv.
  repeat match goal with Hb : (_ && _) = false |- _ => apply andb_false_iff in Hb end.
  split; intros Hs; rewrite Hs in *; simpl in *.
  - match goal with Hb : _ = false ∨ (_ || _) = false |- _ => destruct Hb as [|Hb]; [done|] end. bool_hyps.
    split; [done|]. match goal with Hb : (_ || _) = true |- _ => apply orb_true_iff in Hb as [Hb|Hb] end; [left; by apply String.eqb_eq|].
    right. destruct (ParseIP (u_Hostname u)) as [e|]; [|done]. by exists e.
  - repeat match goal with Hb : _ = false ∨ (_ || _) = false |- _ => destruct Hb as [|Hb]; [done|] end; bool_hyps; done.
Qed.

Lemma browser_policy_safe c u : validateBrowserSessionPolicy c u = Ok tt → co_Mode c = "live" → co_BrowserSessions c = true →
  u_Scheme u = "https" ∧ contains (u_Hostname u) "." = true ∧ ParseIP (u_Hostname u) = None.
Proof.
  unfold validateBrowserSessionPolicy. intros Hv Hm Hb. rewrite Hm, Hb in Hv. simpl in Hv. split_hyp Hv. bool_hyps.
  split_and!; [done|done|]. by destruct (ParseIP (u_Hostname u)).
Qed.

(** A validated policy bounds what the controller exposes: it listens on a literal
    address, never on all of them; plaintext management stays on loopback at both ends and
    HTTPS has its certificate and key; the external origin is one of the allowed hosts; live
    browser sessions exist only on an HTTPS DNS origin; a demo is loopback-only, without
    live adapters or an advisory provider; and telemetry leaves only for loopback or, over
    TLS, for a private address. *)
Theorem Validate_exposure sy fs home linux c :
  Validate sy fs home linux c = Ok tt →
  (∃ host port ip u, SplitHostPort (co_Listen c) = Some (host, port) ∧ ParseIP host = Some ip ∧ ip_Unspecified ip = false ∧
     valid_port port = true ∧ url_Parse (co_ExternalURL c) = Some u ∧ u_Host u ∈ co_AllowedHosts c ∧
     (u_Scheme u = "http" ∨ u_Scheme u = "https") ∧
     (u_Scheme u = "http" → ip_Loopback ip = true ∧ loopback_name (u_Hostname u)) ∧
     (u_Scheme u = "https" → co_TLSCertFile c ≠ "" ∧ co_TLSKeyFile c ≠ "") ∧
     (co_Mode c = "live" → BrowserSessionsEnabled c = true →
        u_Scheme u = "https" ∧ contains (u_Hostname u) "." = true ∧ ParseIP (u_Hostname u) = None) ∧
     (co_Mode c = "demo" → ip_Loopback ip = true ∧ av_Enabled (co_Advisor c) = false ∧ co_HostSocket c = "" ∧ co_WorkerSocket c = "")) ∧
  (∀ e, e ∈ [tl_OTLPEndpoint (co_Telemetry c); tl_PrometheusURL (co_Telemetry c)] → e ≠ "" →
     ∃ u ip, url_Parse e = Some u ∧ u_User u = false ∧ ParseIP (u_Hostname u) = Some ip ∧
       (ip_Loopback ip = true ∨ ip_Private ip = true ∧ u_Scheme u = "https")).
Proof.
  unfold Validate. intros Hv. apply bind_ok in Hv as ([] & _ & Hv). destruct ((co_Mode c =s "demo") && av_Enabled _) eqn:Hdemo; [done|].
  apply bind_ok in Hv as ([] & Htel & Hv). apply bind_ok in Hv as ([] & _ & Hv).
  destruct (SplitHostPort (co_Listen c)) as [[host port]|]; [|done]. destruct (ParseIP host) as [ip|] eqn:Hip; [|done].
  destruct (ip_Unspecified ip || _) eqn:Hun; [done|]. bool_hyps.
  destruct (url_Parse (co_ExternalURL c)) as [u|] eqn:Hu; [|done]. destruct (u_User u || _ || _ || _ || _); [done|].
  destruct (_ && _) eqn:Hsch in Hv; [done|]. destruct (_ || Nat.ltb _ _); [done|].
  apply bind_ok in Hv as (found & Hf & Hv). destruct found; [|done]. simpl in Hv.
  apply bind_ok in Hv as ([] & Hb & Hv). apply bind_ok in Hv as ([] & Ht & Hv).
  destruct ((co_Mode c =s "demo") && negb (ip_Loopback ip)) eqn:Hlo; [done|].
  apply check_hosts_found in Hf as [|Hf]; [done|]. apply transport_safe in Ht as [Hhttp Hhttps]. split.
  - exists host, port, ip, u. split_and!; try done.
    + apply andb_false_iff in Hsch as [Hs|Hs]; apply negb_false_iff, String.eqb_eq in Hs; auto.
    + intros Hm He. apply (browser_policy_safe _ _ Hb Hm). unfold BrowserSessionsEnabled in He. by rewrite Hm in He.
    + intros Hm. rewrite Hm in *. simpl in *. bool_hyps. split_hyp Hv. bool_hyps. done.
  - unfold Telemetry_Validate in Htel. destruct (negb _); [done|]. destruct (tl_Enabled _ && _); [done|].
    apply bind_ok in Htel as ([] & Hotlp & Hprom). intros e He Hne. apply telemetry_endpoint_private.
    apply elem_of_cons in He as [->|He]; [|apply list_elem_of_singleton in He as ->].
    + by rewrite (neqb_str _ _ Hne) in Hotlp.
    + by rewrite (neqb_str _ _ Hne) in Hprom.
Qed.
End Exposure.

Module ConfigFixture.
(** A parser that knows two addresses and two origins. *)
#[export] Instance parser : NetParse := {|
  ParseIP s := if s =s "127.0.0.1" then Some (mkIPAddr true false false)
               else if s =s "10.0.0.5" then Some (mkIPAddr false true false) else None;
  url_Parse s :=
    if s =s "https://bridge.example.net" then Some (mkURL "https" "" false "bridge.example.net" "bridge.example.net" "" "" "" "" false "" "")
    else if s =s "https://10.0.0.5:4318" then Some (mkURL "https" "" false "10.0.0.5:4318" "10.0.0.5" "4318" "" "" "" false "" "") else None;
  SplitHostPort s := if s =s "10.0.0.5:8443" then Some ("10.0.0.5", "8443") else None;
  EqualFold := String.eqb |}.
Definition sys : Sys := mkSys (λ _, false) None true true true true true true "" true true true.
Definition live : Config :=
  mkConfig "live" "/var/lib/bridge" "/var/lib/bridge/source.json" "10.0.0.5:8443" ["bridge.example.net"] "https://bridge.example.net"
    "/etc/cert" "/etc/key" true 1000 "ws" "dev" "/opt/ref" "/models" "/cache/c" "/cache/s" "/run/h.sock" "/run/w.sock" "" 4 600
    (mkTelemetry true "https://10.0.0.5:4318" f0_5 "") (mkAdvisor false "" "" 0 0 0 false).
End ConfigFixture.
Import ConfigFixture.

Lemma Validate_exposure_witness :
  Validate sys ∅ "/root" true live = Ok tt ∧
  ∃ u ip, url_Parse "https://10.0.0.5:4318" = Some u ∧ ParseIP (u_Hostname u) = Some ip ∧
    (ip_Loopback ip = true ∨ ip_Private ip = true ∧ u_Scheme u = "https").
Proof.
  assert (Validate sys ∅ "/root" true live = Ok tt) as Hv by (vm_compute; reflexivity). split; [exact Hv|].
  destruct (proj2 (Validate_exposure _ _ _ _ _ Hv) "https://10.0.0.5:4318") as (u & ip & Hu & _ & Hip & Hs); [constructor|discriminate|].
  exists u, ip. exact (conj Hu (conj Hip Hs)).
Defined.
