(* ===== verification/Wire.v ===== *)
(** Request bodies on the wire: how [encoding/json] fills the structs that the API decodes
    with [config.Decode] (tags, [EqualFold] key matching, [null], unknown fields), and that
    a draft survives its own encoding. *)
From S2P Require Import Prelude Json Safefile Types Config.
From Stdlib Require Import SpecFloat.

(** ** Struct decoding *)

(** The decoder of a Go type: it updates the value already there, [None] is an error. *)
Abbreviation decoder A := (JSON → A → option A).

Definition dec_string : decoder string := λ v cur,
  match v with JNull => Some cur | JString s => Some s | _ => None end.
(** [int] and [int64]: a literal out of range is an error. *)
Definition dec_int : decoder Z := λ v cur,
  match v with
  | JNull => Some cur
  | JInt z => if (- 2^63 <=? z) && (z <? 2^63) then Some z else None
  | _ => None
  end.
Definition dec_bool : decoder bool := λ v cur, match v with JNull => Some cur | JBool b => Some b | _ => None end.
(** [float64]: an integer literal is rounded to the nearest double. *)
Definition dec_float : decoder float64 := λ v cur,
  match v with
  | JNull => Some cur
  | JFloat f => Some f
  | JInt z => Some (binary_normalize 53 1024 z 0 false)
  | _ => None
  end.
(** A pointer: [null] clears it, any other value is decoded into its target. *)
Definition dec_ptr {A} (zero : A) (d : decoder A) : decoder (option A) := λ v cur,
  match v with JNull => Some None | _ => Some <$> d v (default zero cur) end.

(** The folding under which keys match: ASCII letters, and the two other runes whose
    simple folding is an ASCII letter (U+212A and U+017F). *)
Definition upper (c : ascii) : ascii := if is_lower c then ascii_of_N (N_of_ascii c - 32) else c.
Fixpoint fold_name (s : string) : string :=
  match s with
  | String "226"%char (String "132"%char (String "170"%char s)) => String "K"%char (fold_name s)
  | String "197"%char (String "191"%char s) => String "S"%char (fold_name s)
  | String c s => String (upper c) (fold_name s)
  | EmptyString => EmptyString
  end.

(** The field a key selects: the exact name, else the first that matches under folding. *)
Definition find_field {A} (fs : list (string * decoder A)) (k : string) : option (decoder A) :=
  match find (λ f, f.1 =s k) fs with
  | Some f => Some f.2
  | None => option_map snd (find (λ f, fold_name f.1 =s fold_name k) fs)
  end.

(** The members of an object in their order; an unknown key is an error. *)
Fixpoint dec_members {A} (fs : list (string * decoder A)) (l : list (string * JSON)) (cur : A) : option A :=
  match l with
  | [] => Some cur
  | (k, v) :: l => d ← find_field fs k; cur ← d v cur; dec_members fs l cur
  end.
Definition dec_struct {A} (fs : list (string * decoder A)) : decoder A := λ v cur,
  match v with JNull => Some cur | JObject l => dec_members fs l cur | _ => None end.

(** One field: its tag, how it is read from and stored into the struct. *)
Definition at_key {A B} (name : string) (d : decoder B) (get : A → B) (set : B → A → A) : string * decoder A :=
  (name, λ v a, b ← d v (get a); Some (set b a)).

(** ** The request types *)

Definition serving_members : list (string * decoder Serving) := [
  at_key "model" dec_string sv_Model set_sv_Model;
  at_key "context" dec_int sv_Context (λ x '(mkServing a _ c d e f g), mkServing a x c d e f g);
  at_key "concurrency" dec_int sv_Concurrency (λ x '(mkServing a b _ d e f g), mkServing a b x d e f g);
  at_key "memory_fraction" dec_float sv_MemoryFraction (λ x '(mkServing a b c _ e f g), mkServing a b c x e f g);
  at_key "cpu_offload_gib" dec_int sv_CPUOffloadGiB (λ x '(mkServing a b c d _ f g), mkServing a b c d x f g);
  at_key "max_request_tokens" dec_int sv_MaxRequestTokens (λ x '(mkServing a b c d e _ g), mkServing a b c d e x g);
  at_key "max_output_tokens" dec_int sv_MaxOutputTokens (λ x '(mkServing a b c d e f _), mkServing a b c d e f x)].
Definition dec_Serving : decoder Serving := dec_struct serving_members.

Definition resources_members : list (string * decoder Resources) := [
  at_key "cpu" dec_int rs_CPU (λ x '(mkResources _ b c d e), mkResources x b c d e);
  at_key "memory_mib" dec_int rs_MemoryMiB (λ x '(mkResources a _ c d e), mkResources a x c d e);
  at_key "shared_memory_mib" dec_int rs_SharedMemoryMiB (λ x '(mkResources a b _ d e), mkResources a b x d e);
  at_key "gpu_count" dec_int rs_GPUCount (λ x '(mkResources a b c _ e), mkResources a b c x e);
  at_key "physical_gpu" dec_string rs_PhysicalGPU (λ x '(mkResources a b c d _), mkResources a b c d x)].
Definition dec_Resources : decoder Resources := dec_struct resources_members.

Definition caches_members : list (string * decoder CacheBudgets) := [
  at_key "models_gib" dec_int cb_ModelsGiB (λ x '(mkCacheBudgets _ b c d e f), mkCacheBudgets x b c d e f);
  at_key "compiler_gib" dec_int cb_CompilerGiB (λ x '(mkCacheBudgets a _ c d e f), mkCacheBudgets a x c d e f);
  at_key "shader_gib" dec_int cb_ShaderGiB (λ x '(mkCacheBudgets a b _ d e f), mkCacheBudgets a b x d e f);
  at_key "build_jobs" dec_int cb_BuildJobs (λ x '(mkCacheBudgets a b c _ e f), mkCacheBudgets a b c x e f);
  at_key "build_memory_mib" dec_int cb_BuildMemoryMiB (λ x '(mkCacheBudgets a b c d _ f), mkCacheBudgets a b c d x f);
  at_key "scratch_gib" dec_int cb_ScratchGiB (λ x '(mkCacheBudgets a b c d e _), mkCacheBudgets a b c d e x)].
Definition dec_CacheBudgets : decoder CacheBudgets := dec_struct caches_members.

Definition memory_members : list (string * decoder MemoryRequest) := [
  at_key "evidence_id" dec_string mr_EvidenceID (λ x '(mkMemoryRequest _ b c), mkMemoryRequest x b c);
  at_key "evidence_sha256" dec_string mr_EvidenceSHA256 (λ x '(mkMemoryRequest a _ c), mkMemoryRequest a x c);
  at_key "other_mib" dec_int mr_OtherMiB (λ x '(mkMemoryRequest a b _), mkMemoryRequest a b x)].
Definition dec_MemoryRequest : decoder MemoryRequest := dec_struct memory_members.

Definition performance_members : list (string * decoder PerformanceRequest) := [
  at_key "evidence_id" dec_string pr_EvidenceID (λ x '(mkPerformanceRequest _ b c), mkPerformanceRequest x b c);
  at_key "evidence_sha256" dec_string pr_EvidenceSHA256 (λ x '(mkPerformanceRequest a _ c), mkPerformanceRequest a x c);
  at_key "kind" dec_string pr_Kind (λ x '(mkPerformanceRequest a b _), mkPerformanceRequest a b x)].
Definition dec_PerformanceRequest : decoder PerformanceRequest := dec_struct performance_members.

Definition MemoryRequest0 : MemoryRequest := mkMemoryRequest "" "" 0.
Definition PerformanceRequest0 : PerformanceRequest := mkPerformanceRequest "" "" "".

(** The members of a draft, given how its parts are read. *)
Definition draft_members_of (dec_Serving : decoder Serving) (dec_Resources : decoder Resources) (dec_CacheBudgets : decoder CacheBudgets)
    (dec_MemoryRequest : decoder MemoryRequest) (dec_PerformanceRequest : decoder PerformanceRequest) : list (string * decoder Draft) := [
  at_key "action" dec_string d_Action (λ x '(mkDraft _ b c d e f g h i j k l), mkDraft x b c d e f g h i j k l);
  at_key "target" dec_string d_Target (λ x '(mkDraft a _ c d e f g h i j k l), mkDraft a x c d e f g h i j k l);
  at_key "source_revision" dec_string d_SourceRevision set_d_SourceRevision;
  at_key "model" dec_string d_Model (λ x '(mkDraft a b c _ e f g h i j k l), mkDraft a b c x e f g h i j k l);
  at_key "profile" dec_string d_Profile (λ x '(mkDraft a b c d _ f g h i j k l), mkDraft a b c d x f g h i j k l);
  at_key "recipe" dec_string d_Recipe (λ x '(mkDraft a b c d e _ g h i j k l), mkDraft a b c d e x g h i j k l);
  at_key "recovery_id" dec_string d_RecoveryID (λ x '(mkDraft a b c d e f _ h i j k l), mkDraft a b c d e f x h i j k l);
  at_key "serving" (dec_ptr Serving0 dec_Serving) d_Serving (λ x '(mkDraft a b c d e f g _ i j k l), mkDraft a b c d e f g x i j k l);
  at_key "resources" (dec_ptr Resources0 dec_Resources) d_Resources (λ x '(mkDraft a b c d e f g h _ j k l), mkDraft a b c d e f g h x j k l);
  at_key "caches" (dec_ptr CacheBudgets0 dec_CacheBudgets) d_Caches (λ x '(mkDraft a b c d e f g h i _ k l), mkDraft a b c d e f g h i x k l);
  at_key "memory" (dec_ptr MemoryRequest0 dec_MemoryRequest) d_Memory (λ x '(mkDraft a b c d e f g h i j _ l), mkDraft a b c d e f g h i j x l);
  at_key "performance" (dec_ptr PerformanceRequest0 dec_PerformanceRequest) d_Performance (λ x '(mkDraft a b c d e f g h i j k _), mkDraft a b c d e f g h i j k x)].
Definition draft_members : list (string * decoder Draft) := draft_members_of dec_Serving dec_Resources dec_CacheBudgets dec_MemoryRequest dec_PerformanceRequest.
Definition dec_Draft : decoder Draft := dec_struct draft_members.

(** The bodies with one or two string fields, and the empty struct. *)
Definition dec_empty : decoder unit := dec_struct [].
Definition dec_string1 (k : string) : decoder string := dec_struct [at_key k dec_string id (λ x _, x)].
Definition dec_string2 (k k' : string) : decoder (string * string) := dec_struct [
  at_key k dec_string fst (λ x p, (x, p.2)); at_key k' dec_string snd (λ x p, (p.1, x))].

(** ** A draft survives its encoding *)

Lemma dec_int_ok z cur : in_int64 z → dec_int (JInt z) cur = Some z.
Proof. unfold in_int64, dec_int. intros Hz. by replace ((- 2^63 <=? z) && (z <? 2^63)) with true by lia. Qed.

(** What the integer types of the structs guarantee. *)
Definition Serving_ranged (s : Serving) : Prop :=
  in_int64 (sv_Context s) ∧ in_int64 (sv_Concurrency s) ∧ in_int64 (sv_CPUOffloadGiB s) ∧
  in_int64 (sv_MaxRequestTokens s) ∧ in_int64 (sv_MaxOutputTokens s).
Definition Resources_ranged (r : Resources) : Prop :=
  in_int64 (rs_CPU r) ∧ in_int64 (rs_MemoryMiB r) ∧ in_int64 (rs_SharedMemoryMiB r) ∧ in_int64 (rs_GPUCount r).
Definition CacheBudgets_ranged (b : CacheBudgets) : Prop :=
  in_int64 (cb_ModelsGiB b) ∧ in_int64 (cb_CompilerGiB b) ∧ in_int64 (cb_ShaderGiB b) ∧
  in_int64 (cb_BuildJobs b) ∧ in_int64 (cb_BuildMemoryMiB b) ∧ in_int64 (cb_ScratchGiB b).
Definition draft_ranged (d : Draft) : Prop :=
  (∀ s, d_Serving d = Some s → Serving_ranged s) ∧ (∀ r, d_Resources d = Some r → Resources_ranged r) ∧
  (∀ b, d_Caches d = Some b → CacheBudgets_ranged b) ∧ (∀ m, d_Memory d = Some m → in_int64 (mr_OtherMiB m)).

Lemma dec_field {A B} (fs : list (string * decoder A)) k (d : decoder B) get set v l cur x :
  find_field fs k = Some (λ v a, b ← d v (get a); Some (set b a)) → d v (get cur) = Some x →
  dec_members fs ((k, v) :: l) cur = dec_members fs l (set x cur).
Proof. intros Hk Hd. cbn [dec_members]. rewrite Hk. simpl. by rewrite Hd. Qed.

(** Evaluate a decoder on an encoding, field by field. *)
Ltac decode_fields :=
  cbv beta iota delta [dec_struct];
  repeat (erewrite dec_field; [|reflexivity|solve [apply dec_int_ok; assumption|reflexivity]]).

Lemma Serving_decoded s cur : Serving_ranged s → dec_Serving (Serving_json s) cur = Some s.
Proof.
  destruct s, cur. intros Hr. hnf in Hr. simpl in Hr. destruct_and! Hr. unfold dec_Serving, serving_members, Serving_json. by decode_fields.
Qed.
Lemma Resources_decoded r : Resources_ranged r → dec_Resources (Resources_json r) Resources0 = Some r.
Proof.
  destruct r as [c m s g gpu]. intros Hr. hnf in Hr. simpl in Hr. destruct_and! Hr.
  unfold dec_Resources, resources_members, Resources_json, omit_str. cbn [rs_CPU rs_MemoryMiB rs_SharedMemoryMiB rs_GPUCount rs_PhysicalGPU].
  destruct (String.eqb_spec gpu "") as [->|_]; cbn [app]; by decode_fields.
Qed.
Lemma CacheBudgets_decoded b cur : CacheBudgets_ranged b → dec_CacheBudgets (CacheBudgets_json b) cur = Some b.
Proof.
  destruct b, cur. intros Hr. hnf in Hr. simpl in Hr. destruct_and! Hr. unfold dec_CacheBudgets, caches_members, CacheBudgets_json. by decode_fields.
Qed.
Lemma MemoryRequest_decoded m cur : in_int64 (mr_OtherMiB m) → dec_MemoryRequest (MemoryRequest_json m) cur = Some m.
Proof. destruct m, cur. intros Hr. cbn in Hr. unfold dec_MemoryRequest, memory_members, MemoryRequest_json. by decode_fields. Qed.
Lemma PerformanceRequest_decoded p cur : dec_PerformanceRequest (PerformanceRequest_json p) cur = Some p.
Proof. destruct p, cur. unfold dec_PerformanceRequest, performance_members, PerformanceRequest_json. by decode_fields. Qed.

Lemma dec_members_app {A} (fs : list (string * decoder A)) l l' cur :
  dec_members fs (l ++ l') cur = dec_members fs l cur ≫= dec_members fs l'.
Proof.
  revert cur. induction l as [|[k v] l IH]; intros cur; [done|]. cbn [dec_members app].
  destruct (find_field fs k) as [d|]; [|done]. simpl. destruct (d v cur) as [x|]; [|done]. simpl. apply IH.
Qed.

(** A field tagged [omitempty] decodes back whether it is present or not. *)
Lemma dec_omit_str {A} (fs : list (string * decoder A)) k get set s l cur :
  find_field fs k = Some (λ v a, b ← dec_string v (get a); Some (set b a)) → set "" cur = cur →
  dec_members fs (omit_str k s ++ l) cur = dec_members fs l (set s cur).
Proof.
  intros Hk H0. unfold omit_str. destruct (String.eqb_spec s "") as [->|]; [by rewrite H0|].
  cbn [app]. by erewrite dec_field.
Qed.
Lemma dec_omit_ptr {A B} (fs : list (string * decoder A)) k (d : decoder B) zero (json : B → JSON) get set o l cur :
  find_field fs k = Some (λ v a, b ← dec_ptr zero d v (get a); Some (set b a)) → set None cur = cur → get cur = None →
  (∀ x, o = Some x → json x ≠ JNull ∧ d (json x) zero = Some x) →
  dec_members fs (omit_ptr k json o ++ l) cur = dec_members fs l (set o cur).
Proof.
  intros Hk H0 Hg Hx. unfold omit_ptr. destruct o as [x|]; [|by rewrite H0].
  cbn [app]. erewrite dec_field; [done|done|]. destruct (Hx x eq_refl) as [Hn Hd]. rewrite Hg. unfold dec_ptr. cbn [default].
  rewrite Hd. by destruct (json x).
Qed.

Lemma dec_Draft_json d : draft_ranged d → dec_Draft (Draft_json d) Draft0 = Some d.
Proof.
  destruct d as [a t r m p rc ri os or ob om op]. intros (Hs & Hr & Hb & Hm).
  unfold dec_Draft, Draft_json, Draft0. cbv beta iota delta [dec_struct]. cbn [d_Action d_Target d_SourceRevision d_Model d_Profile d_Recipe d_RecoveryID d_Serving d_Resources d_Caches d_Memory d_Performance app].
  do 3 (erewrite dec_field; [|reflexivity|reflexivity]).
  do 4 (erewrite dec_omit_str; [|reflexivity|reflexivity]).
  erewrite dec_omit_ptr; [|reflexivity|reflexivity|reflexivity|by split; [|eauto using Serving_decoded]].
  erewrite dec_omit_ptr; [|reflexivity|reflexivity|reflexivity|by split; [|eauto using Resources_decoded]].
  erewrite dec_omit_ptr; [|reflexivity|reflexivity|reflexivity|by split; [|eauto using CacheBudgets_decoded]].
  erewrite dec_omit_ptr; [|reflexivity|reflexivity|reflexivity|by split; [|eauto using MemoryRequest_decoded]].
  rewrite <- (app_nil_r (omit_ptr "performance" _ _)).
  erewrite dec_omit_ptr; [|reflexivity|reflexivity|reflexivity|by split; [|eauto using PerformanceRequest_decoded]].
  reflexivity.
Qed.

(** The keys of an encoded draft are distinct: they are some of its tags, in order. *)
Lemma omit_str_keys k s : (omit_str k s).*1 `sublist_of` [k].
Proof. unfold omit_str. destruct (s =s ""); cbn; [apply sublist_nil_l|done]. Qed.
Lemma omit_ptr_keys {A} k (json : A → JSON) o : (omit_ptr k json o).*1 `sublist_of` [k].
Proof. destruct o; cbn; [done|apply sublist_nil_l]. Qed.

Definition unique_value (v : JSON) : Prop := uniqueJSON v 1 = Ok tt.
Lemma omit_str_unique k s : Forall (λ kv : string * JSON, unique_value kv.2) (omit_str k s).
Proof. unfold omit_str. destruct (s =s ""); by repeat constructor. Qed.
Lemma omit_ptr_unique {A} k (json : A → JSON) o :
  (∀ x, o = Some x → unique_value (json x)) → Forall (λ kv : string * JSON, unique_value kv.2) (omit_ptr k json o).
Proof. destruct o; cbn; intros Hx; repeat constructor. by apply Hx. Qed.

Lemma Draft_json_unique d : uniqueJSON (Draft_json d) 0 = Ok tt.
Proof.
  apply (unique_object_spec _ unique_value); [by apply Forall_true|]. split; [split|].
  - eapply sublist_NoDup; [|rewrite !fmap_app; repeat (first [apply sublist_app | apply omit_str_keys | apply omit_ptr_keys]); reflexivity].
    by apply (bool_decide_unpack _).
  - apply Forall_true. set_solver.
  - unfold Draft_json. repeat apply Forall_app_2; first [by repeat constructor | apply omit_str_unique | apply omit_ptr_unique; intros x _].
    all: try (by destruct x). destruct x as [c m s g gpu]. unfold Resources_json, omit_str. cbn [rs_PhysicalGPU]. by destruct (gpu =s "").
Qed.

(** The management API reads back exactly the draft that a client encodes: for every draft
    whose numbers are in the range of their Go types, strict decoding (unique keys, bounded
    nesting, known fields, one document) accepts its encoding and rebuilds it, the fields
    that [omitempty] leaves out included. *)
Theorem Draft_roundtrip d : draft_ranged d → Decode (λ v, dec_Draft v Draft0) (Some [Draft_json d]) = Ok d.
Proof. intros Hd. apply Decode_ok. exists (Draft_json d). eauto using dec_Draft_json, Draft_json_unique. Qed.

Module WireFixture.
Definition draft : Draft :=
  mkDraft "serving.configure" "ws" "r1" "m" "" "" "" (Some (mkServing "m" 8192 2 f0_5 0 4096 (2^63 - 1))) None None None None.
End WireFixture.

Lemma Draft_roundtrip_witness :
  draft_ranged WireFixture.draft ∧ Decode (λ v, dec_Draft v Draft0) (Some [Draft_json WireFixture.draft]) = Ok WireFixture.draft.
Proof.
  assert (draft_ranged WireFixture.draft) as Hd.
  { split_and!; try done. intros s [= <-]. repeat split; simpl; lia. }
  split; [exact Hd|exact (Draft_roundtrip _ Hd)].
Defined.

(** Keys match up to case, and a key of another type, an unknown key or a number out of
    range refuses the document. *)
Example fold_key : dec_string1 "credential" (JObject [("CREDENTIAL", JString "t")]) "" = Some "t".
Proof. reflexivity. Qed.
Example unknown_key : dec_empty (JObject [("x", JNull)]) tt = None.
Proof. reflexivity. Qed.
Example wide_number : dec_MemoryRequest (JObject [("other_mib", JInt (2^63))]) MemoryRequest0 = None.
Proof. reflexivity. Qed.

(** Duplicate keys are compared exactly, fields are matched up to case: a document that
    names one field twice in different cases is accepted and the later value wins. *)
Example folded_duplicate :
  Decode (λ v, dec_string2 "plan_id" "target" v ("", "")) (Some [JObject [("target", JString "a"); ("Target", JString "b")]]) = Ok ("", "b").
Proof. reflexivity. Qed.
