(* ===== verification/Evidence.v ===== *)
(** Evidence as the controller reports it: the sanitized summaries of [internal/domain]
    (memory, performance, telemetry), how stored summaries are read back, and the view of
    memory evidence that may leave for a cloud advisor ([internal/api/memory.go]). *)
From S2P Require Import Prelude Json Types Safefile Config Wire.
#[local] Open Scope Z_scope.

(** ** Memory summaries *)

Record MemoryWindow := mkMemoryWindow {
  mw_Samples : Z;
  mw_DurationSeconds : float64;
  mw_SampledPeakBytes : Z;
  mw_LifetimePeakBytes : Z;
  mw_SharedMemoryBytes : Z;
  mw_HostAvailableMinBytes : Z }.
Definition MemoryWindow0 : MemoryWindow := mkMemoryWindow 0 f0 0 0 0 0.

Record MemoryObservation := mkMemoryObservation {
  mo_Phase : string;
  mo_PodID : string;
  mo_Startup : MemoryWindow;
  mo_Steady : MemoryWindow }.
Definition MemoryObservation0 : MemoryObservation := mkMemoryObservation "" "" MemoryWindow0 MemoryWindow0.

Record MemorySummary := mkMemorySummary {
  ms_EvidenceID : string;
  ms_SHA256 : string;
  ms_Status : string;
  ms_Reason : string;
  ms_BaselineMiB : Z;
  ms_LimitedMiB : Z;
  ms_CandidateMiB : Z;
  ms_MinimumCandidateMiB : Z;
  ms_SharedMemoryMiB : Z;
  ms_OtherMiB : Z;
  ms_TelemetryProfile : string;
  ms_TelemetryReserveMiB : Z;
  ms_TelemetryComponentLimitsMiB : gmap string Z;
  ms_TelemetryMarginMiB : Z;
  ms_TelemetryCalculatedAllowanceMiB : Z;
  ms_AllocatableMiB : Z;
  ms_EnvelopeBytes : Z;
  ms_HeadroomBytes : Z;
  ms_Cold : Z;
  ms_Warm : Z;
  ms_Observations : list MemoryObservation;
  ms_Preconditions : gmap string string;
  ms_Limitations : list string;
  ms_Artifacts : list Artifact }.
Definition MemorySummary0 : MemorySummary := mkMemorySummary "" "" "" "" 0 0 0 0 0 0 "" 0 ∅ 0 0 0 0 0 0 0 [] ∅ [] [].

(** ** Performance summaries *)

Record PerformanceField := mkPerformanceField {
  pf_Name : string;
  pf_Value : string;
  pf_Unit : string;
  pf_State : string }.
Definition PerformanceField0 : PerformanceField := mkPerformanceField "" "" "" "".

Record PerformanceSummary := mkPerformanceSummary {
  ps_Schema : Z;
  ps_EvidenceID : string;
  ps_SHA256 : string;
  ps_Kind : string;
  ps_Status : string;
  ps_Reason : string;
  ps_ObservedAt : time;
  ps_Fields : list PerformanceField;
  ps_Limitations : list string;
  ps_Preconditions : gmap string string;
  ps_Artifacts : list Artifact }.
Definition PerformanceSummary0 : PerformanceSummary := mkPerformanceSummary 0 "" "" "" "" "" zeroTime [] [] ∅ [].

(** ** Reading a stored summary *)

(** A slice: [null] is the empty slice, elements start from their zero value. *)
Fixpoint dec_elements {A} (zero : A) (d : decoder A) (l : list JSON) : option (list A) :=
  match l with
  | [] => Some []
  | v :: l => a ← d v zero; rest ← dec_elements zero d l; Some (a :: rest)
  end.
Definition dec_list {A} (zero : A) (d : decoder A) : decoder (list A) := λ v _,
  match v with JNull => Some [] | JArray l => dec_elements zero d l | _ => None end.
(** A map with string keys: members are added to what is there, [null] is the nil map. *)
Fixpoint dec_entries {A} (zero : A) (d : decoder A) (l : list (string * JSON)) (m : gmap string A) : option (gmap string A) :=
  match l with
  | [] => Some m
  | (k, v) :: l => a ← d v zero; dec_entries zero d l (<[k := a]> m)
  end.
Definition dec_map {A} (zero : A) (d : decoder A) : decoder (gmap string A) := λ v cur,
  match v with JNull => Some ∅ | JObject l => dec_entries zero d l cur | _ => None end.

Definition Artifact0 : Artifact := mkArtifact "" "" 0 "" "" "".
Definition artifact_members : list (string * decoder Artifact) := [
  at_key "name" dec_string ar_Name (λ x '(mkArtifact _ b c d e f), mkArtifact x b c d e f);
  at_key "sha256" dec_string ar_SHA256 (λ x '(mkArtifact a _ c d e f), mkArtifact a x c d e f);
  at_key "size" dec_int ar_Size (λ x '(mkArtifact a b _ d e f), mkArtifact a b x d e f);
  at_key "source_revision" dec_string ar_SourceRevision (λ x '(mkArtifact a b c _ e f), mkArtifact a b c x e f);
  at_key "qualification" dec_string ar_Qualification (λ x '(mkArtifact a b c d _ f), mkArtifact a b c d x f);
  at_key "content" dec_string ar_Content (λ x '(mkArtifact a b c d e _), mkArtifact a b c d e x)].
Definition dec_Artifact : decoder Artifact := dec_struct artifact_members.

Definition dec_MemoryWindow : decoder MemoryWindow := dec_struct [
  at_key "samples" dec_int mw_Samples (λ x s, mkMemoryWindow x (mw_DurationSeconds s) (mw_SampledPeakBytes s) (mw_LifetimePeakBytes s) (mw_SharedMemoryBytes s) (mw_HostAvailableMinBytes s));
  at_key "duration_seconds" dec_float mw_DurationSeconds (λ x s, mkMemoryWindow (mw_Samples s) x (mw_SampledPeakBytes s) (mw_LifetimePeakBytes s) (mw_SharedMemoryBytes s) (mw_HostAvailableMinBytes s));
  at_key "sampled_peak_bytes" dec_int mw_SampledPeakBytes (λ x s, mkMemoryWindow (mw_Samples s) (mw_DurationSeconds s) x (mw_LifetimePeakBytes s) (mw_SharedMemoryBytes s) (mw_HostAvailableMinBytes s));
  at_key "lifetime_peak_bytes" dec_int mw_LifetimePeakBytes (λ x s, mkMemoryWindow (mw_Samples s) (mw_DurationSeconds s) (mw_SampledPeakBytes s) x (mw_SharedMemoryBytes s) (mw_HostAvailableMinBytes s));
  at_key "shared_memory_bytes" dec_int mw_SharedMemoryBytes (λ x s, mkMemoryWindow (mw_Samples s) (mw_DurationSeconds s) (mw_SampledPeakBytes s) (mw_LifetimePeakBytes s) x (mw_HostAvailableMinBytes s));
  at_key "host_available_min_bytes" dec_int mw_HostAvailableMinBytes (λ x s, mkMemoryWindow (mw_Samples s) (mw_DurationSeconds s) (mw_SampledPeakBytes s) (mw_LifetimePeakBytes s) (mw_SharedMemoryBytes s) x)].

Definition dec_MemoryObservation : decoder MemoryObservation := dec_struct [
  at_key "phase" dec_string mo_Phase (λ x s, mkMemoryObservation x (mo_PodID s) (mo_Startup s) (mo_Steady s));
  at_key "pod_id" dec_string mo_PodID (λ x s, mkMemoryObservation (mo_Phase s) x (mo_Startup s) (mo_Steady s));
  at_key "startup" dec_MemoryWindow mo_Startup (λ x s, mkMemoryObservation (mo_Phase s) (mo_PodID s) x (mo_Steady s));
  at_key "steady" dec_MemoryWindow mo_Steady (λ x s, mkMemoryObservation (mo_Phase s) (mo_PodID s) (mo_Startup s) x)].

Definition dec_MemorySummary : decoder MemorySummary := dec_struct [
  at_key "evidence_id" dec_string ms_EvidenceID (λ x s, mkMemorySummary x (ms_SHA256 s) (ms_Status s) (ms_Reason s) (ms_BaselineMiB s) (ms_LimitedMiB s) (ms_CandidateMiB s) (ms_MinimumCandidateMiB s) (ms_SharedMemoryMiB s) (ms_OtherMiB s) (ms_TelemetryProfile s) (ms_TelemetryReserveMiB s) (ms_TelemetryComponentLimitsMiB s) (ms_TelemetryMarginMiB s) (ms_TelemetryCalculatedAllowanceMiB s) (ms_AllocatableMiB s) (ms_EnvelopeBytes s) (ms_HeadroomBytes s) (ms_Cold s) (ms_Warm s) (ms_Observations s) (ms_Preconditions s) (ms_Limitations s) (ms_Artifacts s));
  at_key "sha256" dec_string ms_SHA256 (λ x s, mkMemorySummary (ms_EvidenceID s) x (ms_Status s) (ms_Reason s) (ms_BaselineMiB s) (ms_LimitedMiB s) (ms_CandidateMiB s) (ms_MinimumCandidateMiB s) (ms_SharedMemoryMiB s) (ms_OtherMiB s) (ms_TelemetryProfile s) (ms_TelemetryReserveMiB s) (ms_TelemetryComponentLimitsMiB s) (ms_TelemetryMarginMiB s) (ms_TelemetryCalculatedAllowanceMiB s) (ms_AllocatableMiB s) (ms_EnvelopeBytes s) (ms_HeadroomBytes s) (ms_Cold s) (ms_Warm s) (ms_Observations s) (ms_Preconditions s) (ms_Limitations s) (ms_Artifacts s));
  at_key "status" dec_string ms_Status (λ x s, mkMemorySummary (ms_EvidenceID s) (ms_SHA256 s) x (ms_Reason s) (ms_BaselineMiB s) (ms_LimitedMiB s) (ms_CandidateMiB s) (ms_MinimumCandidateMiB s) (ms_SharedMemoryMiB s) (ms_OtherMiB s) (ms_TelemetryProfile s) (ms_TelemetryReserveMiB s) (ms_TelemetryComponentLimitsMiB s) (ms_TelemetryMarginMiB s) (ms_TelemetryCalculatedAllowanceMiB s) (ms_AllocatableMiB s) (ms_EnvelopeBytes s) (ms_HeadroomBytes s) (ms_Cold s) (ms_Warm s) (ms_Observations s) (ms_Preconditions s) (ms_Limitations s) (ms_Artifacts s));
  at_key "reason" dec_string ms_Reason (λ x s, mkMemorySummary (ms_EvidenceID s) (ms_SHA256 s) (ms_Status s) x (ms_BaselineMiB s) (ms_LimitedMiB s) (ms_CandidateMiB s) (ms_MinimumCandidateMiB s) (ms_SharedMemoryMiB s) (ms_OtherMiB s) (ms_TelemetryProfile s) (ms_TelemetryReserveMiB s) (ms_TelemetryComponentLimitsMiB s) (ms_TelemetryMarginMiB s) (ms_TelemetryCalculatedAllowanceMiB s) (ms_AllocatableMiB s) (ms_EnvelopeBytes s) (ms_HeadroomBytes s) (ms_Cold s) (ms_Warm s) (ms_Observations s) (ms_Preconditions s) (ms_Limitations s) (ms_Artifacts s));
  at_key "baseline_mib" dec_int ms_BaselineMiB (λ x s, mkMemorySummary (ms_EvidenceID s) (ms_SHA256 s) (ms_Status s) (ms_Reason s) x (ms_LimitedMiB s) (ms_CandidateMiB s) (ms_MinimumCandidateMiB s) (ms_SharedMemoryMiB s) (ms_OtherMiB s) (ms_TelemetryProfile s) (ms_TelemetryReserveMiB s) (ms_TelemetryComponentLimitsMiB s) (ms_TelemetryMarginMiB s) (ms_TelemetryCalculatedAllowanceMiB s) (ms_AllocatableMiB s) (ms_EnvelopeBytes s) (ms_HeadroomBytes s) (ms_Cold s) (ms_Warm s) (ms_Observations s) (ms_Preconditions s) (ms_Limitations s) (ms_Artifacts s));
  at_key "limited_mib" dec_int ms_LimitedMiB (λ x s, mkMemorySummary (ms_EvidenceID s) (ms_SHA256 s) (ms_Status s) (ms_Reason s) (ms_BaselineMiB s) x (ms_CandidateMiB s) (ms_MinimumCandidateMiB s) (ms_SharedMemoryMiB s) (ms_OtherMiB s) (ms_TelemetryProfile s) (ms_TelemetryReserveMiB s) (ms_TelemetryComponentLimitsMiB s) (ms_TelemetryMarginMiB s) (ms_TelemetryCalculatedAllowanceMiB s) (ms_AllocatableMiB s) (ms_EnvelopeBytes s) (ms_HeadroomBytes s) (ms_Cold s) (ms_Warm s) (ms_Observations s) (ms_Preconditions s) (ms_Limitations s) (ms_Artifacts s));
  at_key "candidate_mib" dec_int ms_CandidateMiB (λ x s, mkMemorySummary (ms_EvidenceID s) (ms_SHA256 s) (ms_Status s) (ms_Reason s) (ms_BaselineMiB s) (ms_LimitedMiB s) x (ms_MinimumCandidateMiB s) (ms_SharedMemoryMiB s) (ms_OtherMiB s) (ms_TelemetryProfile s) (ms_TelemetryReserveMiB s) (ms_TelemetryComponentLimitsMiB s) (ms_TelemetryMarginMiB s) (ms_TelemetryCalculatedAllowanceMiB s) (ms_AllocatableMiB s) (ms_EnvelopeBytes s) (ms_HeadroomBytes s) (ms_Cold s) (ms_Warm s) (ms_Observations s) (ms_Preconditions s) (ms_Limitations s) (ms_Artifacts s));
  at_key "minimum_candidate_mib" dec_int ms_MinimumCandidateMiB (λ x s, mkMemorySummary (ms_EvidenceID s) (ms_SHA256 s) (ms_Status s) (ms_Reason s) (ms_BaselineMiB s) (ms_LimitedMiB s) (ms_CandidateMiB s) x (ms_SharedMemoryMiB s) (ms_OtherMiB s) (ms_TelemetryProfile s) (ms_TelemetryReserveMiB s) (ms_TelemetryComponentLimitsMiB s) (ms_TelemetryMarginMiB s) (ms_TelemetryCalculatedAllowanceMiB s) (ms_AllocatableMiB s) (ms_EnvelopeBytes s) (ms_HeadroomBytes s) (ms_Cold s) (ms_Warm s) (ms_Observations s) (ms_Preconditions s) (ms_Limitations s) (ms_Artifacts s));
  at_key "shared_memory_mib" dec_int ms_SharedMemoryMiB (λ x s, mkMemorySummary (ms_EvidenceID s) (ms_SHA256 s) (ms_Status s) (ms_Reason s) (ms_BaselineMiB s) (ms_LimitedMiB s) (ms_CandidateMiB s) (ms_MinimumCandidateMiB s) x (ms_OtherMiB s) (ms_TelemetryProfile s) (ms_TelemetryReserveMiB s) (ms_TelemetryComponentLimitsMiB s) (ms_TelemetryMarginMiB s) (ms_TelemetryCalculatedAllowanceMiB s) (ms_AllocatableMiB s) (ms_EnvelopeBytes s) (ms_HeadroomBytes s) (ms_Cold s) (ms_Warm s) (ms_Observations s) (ms_Preconditions s) (ms_Limitations s) (ms_Artifacts s));
  at_key "other_mib" dec_int ms_OtherMiB (λ x s, mkMemorySummary (ms_EvidenceID s) (ms_SHA256 s) (ms_Status s) (ms_Reason s) (ms_BaselineMiB s) (ms_LimitedMiB s) (ms_CandidateMiB s) (ms_MinimumCandidateMiB s) (ms_SharedMemoryMiB s) x (ms_TelemetryProfile s) (ms_TelemetryReserveMiB s) (ms_TelemetryComponentLimitsMiB s) (ms_TelemetryMarginMiB s) (ms_TelemetryCalculatedAllowanceMiB s) (ms_AllocatableMiB s) (ms_EnvelopeBytes s) (ms_HeadroomBytes s) (ms_Cold s) (ms_Warm s) (ms_Observations s) (ms_Preconditions s) (ms_Limitations s) (ms_Artifacts s));
  at_key "telemetry_profile" dec_string ms_TelemetryProfile (λ x s, mkMemorySummary (ms_EvidenceID s) (ms_SHA256 s) (ms_Status s) (ms_Reason s) (ms_BaselineMiB s) (ms_LimitedMiB s) (ms_CandidateMiB s) (ms_MinimumCandidateMiB s) (ms_SharedMemoryMiB s) (ms_OtherMiB s) x (ms_TelemetryReserveMiB s) (ms_TelemetryComponentLimitsMiB s) (ms_TelemetryMarginMiB s) (ms_TelemetryCalculatedAllowanceMiB s) (ms_AllocatableMiB s) (ms_EnvelopeBytes s) (ms_HeadroomBytes s) (ms_Cold s) (ms_Warm s) (ms_Observations s) (ms_Preconditions s) (ms_Limitations s) (ms_Artifacts s));
  at_key "telemetry_reserve_mib" dec_int ms_TelemetryReserveMiB (λ x s, mkMemorySummary (ms_EvidenceID s) (ms_SHA256 s) (ms_Status s) (ms_Reason s) (ms_BaselineMiB s) (ms_LimitedMiB s) (ms_CandidateMiB s) (ms_MinimumCandidateMiB s) (ms_SharedMemoryMiB s) (ms_OtherMiB s) (ms_TelemetryProfile s) x (ms_TelemetryComponentLimitsMiB s) (ms_TelemetryMarginMiB s) (ms_TelemetryCalculatedAllowanceMiB s) (ms_AllocatableMiB s) (ms_EnvelopeBytes s) (ms_HeadroomBytes s) (ms_Cold s) (ms_Warm s) (ms_Observations s) (ms_Preconditions s) (ms_Limitations s) (ms_Artifacts s));
  at_key "telemetry_component_limits_mib" (dec_map 0 dec_int) ms_TelemetryComponentLimitsMiB (λ x s, mkMemorySummary (ms_EvidenceID s) (ms_SHA256 s) (ms_Status s) (ms_Reason s) (ms_BaselineMiB s) (ms_LimitedMiB s) (ms_CandidateMiB s) (ms_MinimumCandidateMiB s) (ms_SharedMemoryMiB s) (ms_OtherMiB s) (ms_TelemetryProfile s) (ms_TelemetryReserveMiB s) x (ms_TelemetryMarginMiB s) (ms_TelemetryCalculatedAllowanceMiB s) (ms_AllocatableMiB s) (ms_EnvelopeBytes s) (ms_HeadroomBytes s) (ms_Cold s) (ms_Warm s) (ms_Observations s) (ms_Preconditions s) (ms_Limitations s) (ms_Artifacts s));
  at_key "telemetry_margin_mib" dec_int ms_TelemetryMarginMiB (λ x s, mkMemorySummary (ms_EvidenceID s) (ms_SHA256 s) (ms_Status s) (ms_Reason s) (ms_BaselineMiB s) (ms_LimitedMiB s) (ms_CandidateMiB s) (ms_MinimumCandidateMiB s) (ms_SharedMemoryMiB s) (ms_OtherMiB s) (ms_TelemetryProfile s) (ms_TelemetryReserveMiB s) (ms_TelemetryComponentLimitsMiB s) x (ms_TelemetryCalculatedAllowanceMiB s) (ms_AllocatableMiB s) (ms_EnvelopeBytes s) (ms_HeadroomBytes s) (ms_Cold s) (ms_Warm s) (ms_Observations s) (ms_Preconditions s) (ms_Limitations s) (ms_Artifacts s));
  at_key "telemetry_calculated_allowance_mib" dec_int ms_TelemetryCalculatedAllowanceMiB (λ x s, mkMemorySummary (ms_EvidenceID s) (ms_SHA256 s) (ms_Status s) (ms_Reason s) (ms_BaselineMiB s) (ms_LimitedMiB s) (ms_CandidateMiB s) (ms_MinimumCandidateMiB s) (ms_SharedMemoryMiB s) (ms_OtherMiB s) (ms_TelemetryProfile s) (ms_TelemetryReserveMiB s) (ms_TelemetryComponentLimitsMiB s) (ms_TelemetryMarginMiB s) x (ms_AllocatableMiB s) (ms_EnvelopeBytes s) (ms_HeadroomBytes s) (ms_Cold s) (ms_Warm s) (ms_Observations s) (ms_Preconditions s) (ms_Limitations s) (ms_Artifacts s));
  at_key "allocatable_mib" dec_int ms_AllocatableMiB (λ x s, mkMemorySummary (ms_EvidenceID s) (ms_SHA256 s) (ms_Status s) (ms_Reason s) (ms_BaselineMiB s) (ms_LimitedMiB s) (ms_CandidateMiB s) (ms_MinimumCandidateMiB s) (ms_SharedMemoryMiB s) (ms_OtherMiB s) (ms_TelemetryProfile s) (ms_TelemetryReserveMiB s) (ms_TelemetryComponentLimitsMiB s) (ms_TelemetryMarginMiB s) (ms_TelemetryCalculatedAllowanceMiB s) x (ms_EnvelopeBytes s) (ms_HeadroomBytes s) (ms_Cold s) (ms_Warm s) (ms_Observations s) (ms_Preconditions s) (ms_Limitations s) (ms_Artifacts s));
  at_key "envelope_bytes" dec_int ms_EnvelopeBytes (λ x s, mkMemorySummary (ms_EvidenceID s) (ms_SHA256 s) (ms_Status s) (ms_Reason s) (ms_BaselineMiB s) (ms_LimitedMiB s) (ms_CandidateMiB s) (ms_MinimumCandidateMiB s) (ms_SharedMemoryMiB s) (ms_OtherMiB s) (ms_TelemetryProfile s) (ms_TelemetryReserveMiB s) (ms_TelemetryComponentLimitsMiB s) (ms_TelemetryMarginMiB s) (ms_TelemetryCalculatedAllowanceMiB s) (ms_AllocatableMiB s) x (ms_HeadroomBytes s) (ms_Cold s) (ms_Warm s) (ms_Observations s) (ms_Preconditions s) (ms_Limitations s) (ms_Artifacts s));
  at_key "headroom_bytes" dec_int ms_HeadroomBytes (λ x s, mkMemorySummary (ms_EvidenceID s) (ms_SHA256 s) (ms_Status s) (ms_Reason s) (ms_BaselineMiB s) (ms_LimitedMiB s) (ms_CandidateMiB s) (ms_MinimumCandidateMiB s) (ms_SharedMemoryMiB s) (ms_OtherMiB s) (ms_TelemetryProfile s) (ms_TelemetryReserveMiB s) (ms_TelemetryComponentLimitsMiB s) (ms_TelemetryMarginMiB s) (ms_TelemetryCalculatedAllowanceMiB s) (ms_AllocatableMiB s) (ms_EnvelopeBytes s) x (ms_Cold s) (ms_Warm s) (ms_Observations s) (ms_Preconditions s) (ms_Limitations s) (ms_Artifacts s));
  at_key "cold" dec_int ms_Cold (λ x s, mkMemorySummary (ms_EvidenceID s) (ms_SHA256 s) (ms_Status s) (ms_Reason s) (ms_BaselineMiB s) (ms_LimitedMiB s) (ms_CandidateMiB s) (ms_MinimumCandidateMiB s) (ms_SharedMemoryMiB s) (ms_OtherMiB s) (ms_TelemetryProfile s) (ms_TelemetryReserveMiB s) (ms_TelemetryComponentLimitsMiB s) (ms_TelemetryMarginMiB s) (ms_TelemetryCalculatedAllowanceMiB s) (ms_AllocatableMiB s) (ms_EnvelopeBytes s) (ms_HeadroomBytes s) x (ms_Warm s) (ms_Observations s) (ms_Preconditions s) (ms_Limitations s) (ms_Artifacts s));
  at_key "warm" dec_int ms_Warm (λ x s, mkMemorySummary (ms_EvidenceID s) (ms_SHA256 s) (ms_Status s) (ms_Reason s) (ms_BaselineMiB s) (ms_LimitedMiB s) (ms_CandidateMiB s) (ms_MinimumCandidateMiB s) (ms_SharedMemoryMiB s) (ms_OtherMiB s) (ms_TelemetryProfile s) (ms_TelemetryReserveMiB s) (ms_TelemetryComponentLimitsMiB s) (ms_TelemetryMarginMiB s) (ms_TelemetryCalculatedAllowanceMiB s) (ms_AllocatableMiB s) (ms_EnvelopeBytes s) (ms_HeadroomBytes s) (ms_Cold s) x (ms_Observations s) (ms_Preconditions s) (ms_Limitations s) (ms_Artifacts s));
  at_key "observations" (dec_list MemoryObservation0 dec_MemoryObservation) ms_Observations (λ x s, mkMemorySummary (ms_EvidenceID s) (ms_SHA256 s) (ms_Status s) (ms_Reason s) (ms_BaselineMiB s) (ms_LimitedMiB s) (ms_CandidateMiB s) (ms_MinimumCandidateMiB s) (ms_SharedMemoryMiB s) (ms_OtherMiB s) (ms_TelemetryProfile s) (ms_TelemetryReserveMiB s) (ms_TelemetryComponentLimitsMiB s) (ms_TelemetryMarginMiB s) (ms_TelemetryCalculatedAllowanceMiB s) (ms_AllocatableMiB s) (ms_EnvelopeBytes s) (ms_HeadroomBytes s) (ms_Cold s) (ms_Warm s) x (ms_Preconditions s) (ms_Limitations s) (ms_Artifacts s));
  at_key "preconditions" (dec_map "" dec_string) ms_Preconditions (λ x s, mkMemorySummary (ms_EvidenceID s) (ms_SHA256 s) (ms_Status s) (ms_Reason s) (ms_BaselineMiB s) (ms_LimitedMiB s) (ms_CandidateMiB s) (ms_MinimumCandidateMiB s) (ms_SharedMemoryMiB s) (ms_OtherMiB s) (ms_TelemetryProfile s) (ms_TelemetryReserveMiB s) (ms_TelemetryComponentLimitsMiB s) (ms_TelemetryMarginMiB s) (ms_TelemetryCalculatedAllowanceMiB s) (ms_AllocatableMiB s) (ms_EnvelopeBytes s) (ms_HeadroomBytes s) (ms_Cold s) (ms_Warm s) (ms_Observations s) x (ms_Limitations s) (ms_Artifacts s));
  at_key "limitations" (dec_list "" dec_string) ms_Limitations (λ x s, mkMemorySummary (ms_EvidenceID s) (ms_SHA256 s) (ms_Status s) (ms_Reason s) (ms_BaselineMiB s) (ms_LimitedMiB s) (ms_CandidateMiB s) (ms_MinimumCandidateMiB s) (ms_SharedMemoryMiB s) (ms_OtherMiB s) (ms_TelemetryProfile s) (ms_TelemetryReserveMiB s) (ms_TelemetryComponentLimitsMiB s) (ms_TelemetryMarginMiB s) (ms_TelemetryCalculatedAllowanceMiB s) (ms_AllocatableMiB s) (ms_EnvelopeBytes s) (ms_HeadroomBytes s) (ms_Cold s) (ms_Warm s) (ms_Observations s) (ms_Preconditions s) x (ms_Artifacts s));
  at_key "artifacts" (dec_list Artifact0 dec_Artifact) ms_Artifacts (λ x s, mkMemorySummary (ms_EvidenceID s) (ms_SHA256 s) (ms_Status s) (ms_Reason s) (ms_BaselineMiB s) (ms_LimitedMiB s) (ms_CandidateMiB s) (ms_MinimumCandidateMiB s) (ms_SharedMemoryMiB s) (ms_OtherMiB s) (ms_TelemetryProfile s) (ms_TelemetryReserveMiB s) (ms_TelemetryComponentLimitsMiB s) (ms_TelemetryMarginMiB s) (ms_TelemetryCalculatedAllowanceMiB s) (ms_AllocatableMiB s) (ms_EnvelopeBytes s) (ms_HeadroomBytes s) (ms_Cold s) (ms_Warm s) (ms_Observations s) (ms_Preconditions s) (ms_Limitations s) x)].

(** The documents a stored text parses as: [encoding/json] on text. *)
Class JSONText := json_docs : string → option (list JSON).
(** [json.Unmarshal] of one document, and into a struct whose unknown members are skipped. *)
Section Text.
Context `{JSONText}.
Definition unmarshal (b : string) : option JSON := match json_docs b with Some [v] => Some v | _ => None end.
End Text.
Definition dec_raw : decoder JSON := λ v _, Some v.
Definition dec_lenient {A} (fs : list (string * decoder A)) : decoder A := λ v cur,
  match v with
  | JNull => Some cur
  | JObject l => dec_members fs (List.filter (λ kv, is_some (find_field fs kv.1)) l) cur
  | _ => None
  end.

(** The text [json.Marshal] gives, where the program stores or measures it. *)
Class JSONRender := json_text : JSON → string.

(** [time.Time] from its text. *)
Class TimeText := time_text : string → option time.
Section PerformanceText.
Context `{TimeText}.
Definition dec_time : decoder time := λ v cur,
  match v with JNull => Some cur | JString s => time_text s | _ => None end.
Definition dec_PerformanceField : decoder PerformanceField := dec_struct [
  at_key "name" dec_string pf_Name (λ x '(mkPerformanceField _ b c d), mkPerformanceField x b c d);
  at_key "value" dec_string pf_Value (λ x '(mkPerformanceField a _ c d), mkPerformanceField a x c d);
  at_key "unit" dec_string pf_Unit (λ x '(mkPerformanceField a b _ d), mkPerformanceField a b x d);
  at_key "state" dec_string pf_State (λ x '(mkPerformanceField a b c _), mkPerformanceField a b c x)].
Definition dec_PerformanceSummary : decoder PerformanceSummary := dec_struct [
  at_key "schema" dec_int ps_Schema (λ x '(mkPerformanceSummary _ b c d e f g h i j k), mkPerformanceSummary x b c d e f g h i j k);
  at_key "evidence_id" dec_string ps_EvidenceID (λ x '(mkPerformanceSummary a _ c d e f g h i j k), mkPerformanceSummary a x c d e f g h i j k);
  at_key "sha256" dec_string ps_SHA256 (λ x '(mkPerformanceSummary a b _ d e f g h i j k), mkPerformanceSummary a b x d e f g h i j k);
  at_key "kind" dec_string ps_Kind (λ x '(mkPerformanceSummary a b c _ e f g h i j k), mkPerformanceSummary a b c x e f g h i j k);
  at_key "status" dec_string ps_Status (λ x '(mkPerformanceSummary a b c d _ f g h i j k), mkPerformanceSummary a b c d x f g h i j k);
  at_key "reason" dec_string ps_Reason (λ x '(mkPerformanceSummary a b c d e _ g h i j k), mkPerformanceSummary a b c d e x g h i j k);
  at_key "observed_at" dec_time ps_ObservedAt (λ x '(mkPerformanceSummary a b c d e f _ h i j k), mkPerformanceSummary a b c d e f x h i j k);
  at_key "fields" (dec_list PerformanceField0 dec_PerformanceField) ps_Fields (λ x '(mkPerformanceSummary a b c d e f g _ i j k), mkPerformanceSummary a b c d e f g x i j k);
  at_key "limitations" (dec_list "" dec_string) ps_Limitations (λ x '(mkPerformanceSummary a b c d e f g h _ j k), mkPerformanceSummary a b c d e f g h x j k);
  at_key "preconditions" (dec_map "" dec_string) ps_Preconditions (λ x '(mkPerformanceSummary a b c d e f g h i _ k), mkPerformanceSummary a b c d e f g h i x k);
  at_key "artifacts" (dec_list Artifact0 dec_Artifact) ps_Artifacts (λ x '(mkPerformanceSummary a b c d e f g h i j _), mkPerformanceSummary a b c d e f g h i j x)].
End PerformanceText.

(** ** Marshalled summaries

    A slice or map is written as its elements: the model does not tell a nil one, which the
    encoder writes as [null], from an empty one. *)
Definition MemoryWindow_json (w : MemoryWindow) : JSON := JObject [
  ("samples", JInt (mw_Samples w)); ("duration_seconds", JFloat (mw_DurationSeconds w));
  ("sampled_peak_bytes", JInt (mw_SampledPeakBytes w)); ("lifetime_peak_bytes", JInt (mw_LifetimePeakBytes w));
  ("shared_memory_bytes", JInt (mw_SharedMemoryBytes w)); ("host_available_min_bytes", JInt (mw_HostAvailableMinBytes w))].

Definition MemoryObservation_json (o : MemoryObservation) : JSON := JObject [
  ("phase", JString (mo_Phase o)); ("pod_id", JString (mo_PodID o));
  ("startup", MemoryWindow_json (mo_Startup o)); ("steady", MemoryWindow_json (mo_Steady o))].
Definition MemorySummary_json (s : MemorySummary) : JSON := JObject (
  [("evidence_id", JString (ms_EvidenceID s)); ("sha256", JString (ms_SHA256 s)); ("status", JString (ms_Status s));
   ("reason", JString (ms_Reason s)); ("baseline_mib", JInt (ms_BaselineMiB s)); ("limited_mib", JInt (ms_LimitedMiB s));
   ("candidate_mib", JInt (ms_CandidateMiB s)); ("minimum_candidate_mib", JInt (ms_MinimumCandidateMiB s));
   ("shared_memory_mib", JInt (ms_SharedMemoryMiB s)); ("other_mib", JInt (ms_OtherMiB s))]
  ++ omit_str "telemetry_profile" (ms_TelemetryProfile s) ++ omit_int "telemetry_reserve_mib" (ms_TelemetryReserveMiB s)
  ++ (if bool_decide (ms_TelemetryComponentLimitsMiB s = ∅) then [] else [("telemetry_component_limits_mib", JMap JInt (ms_TelemetryComponentLimitsMiB s))])
  ++ omit_int "telemetry_margin_mib" (ms_TelemetryMarginMiB s)
  ++ omit_int "telemetry_calculated_allowance_mib" (ms_TelemetryCalculatedAllowanceMiB s)
  ++ [("allocatable_mib", JInt (ms_AllocatableMiB s)); ("envelope_bytes", JInt (ms_EnvelopeBytes s));
      ("headroom_bytes", JInt (ms_HeadroomBytes s)); ("cold", JInt (ms_Cold s)); ("warm", JInt (ms_Warm s));
      ("observations", JArray (MemoryObservation_json <$> ms_Observations s)); ("preconditions", JMap JString (ms_Preconditions s));
      ("limitations", JArray (JString <$> ms_Limitations s)); ("artifacts", JArray (Artifact_json <$> ms_Artifacts s))]).
Definition PerformanceField_json (f : PerformanceField) : JSON := JObject [
  ("name", JString (pf_Name f)); ("value", JString (pf_Value f)); ("unit", JString (pf_Unit f)); ("state", JString (pf_State f))].
Definition PerformanceSummary_json (s : PerformanceSummary) : JSON := JObject [
  ("schema", JInt (ps_Schema s)); ("evidence_id", JString (ps_EvidenceID s)); ("sha256", JString (ps_SHA256 s));
  ("kind", JString (ps_Kind s)); ("status", JString (ps_Status s)); ("reason", JString (ps_Reason s));
  ("observed_at", JTime (ps_ObservedAt s)); ("fields", JArray (PerformanceField_json <$> ps_Fields s));
  ("limitations", JArray (JString <$> ps_Limitations s)); ("preconditions", JMap JString (ps_Preconditions s));
  ("artifacts", JArray (Artifact_json <$> ps_Artifacts s))].

(** ** The view for the advisor *)

(** The loop over the observations: cold and warm ones, twenty at most. *)
Fixpoint cloud_windows (l : list MemoryObservation) (windows : list JSON) : list JSON :=
  match l with
  | [] => windows
  | o :: l =>
    let windows :=
      if (mo_Phase o =s "cold") || (mo_Phase o =s "warm")
      then windows ++ [JObject [("phase", JString (mo_Phase o)); ("startup", MemoryWindow_json (mo_Startup o)); ("steady", MemoryWindow_json (mo_Steady o))]]
      else windows in
    if Nat.eqb (length windows) 20 then windows else cloud_windows l windows
  end.

Definition cloud_statuses : list string :=
  ["incomplete"; "imported-unqualified"; "ready-for-plan"; "plan-only-unqualified"; "demo-only"].

Definition cloudMemory (s : MemorySummary) : JSON :=
  let status := if str_in (ms_Status s) cloud_statuses then ms_Status s else "unavailable" in
  JObject [
    ("status", JString status);
    ("requested_mib", JInt (ms_BaselineMiB s)); ("limited_mib", JInt (ms_LimitedMiB s));
    ("shm_ceiling_mib", JInt (ms_SharedMemoryMiB s)); ("other_mib", JInt (ms_OtherMiB s));
    ("candidate_mib", JInt (ms_CandidateMiB s)); ("envelope_bytes", JInt (ms_EnvelopeBytes s));
    ("headroom_bytes", JInt (ms_HeadroomBytes s)); ("cold_observations", JInt (ms_Cold s));
    ("warm_observations", JInt (ms_Warm s)); ("windows", JArray (cloud_windows (ms_Observations s) []))].

(** ** Nothing but numbers and fixed words leaves *)

(** The strings a tree carries as values. *)
Fixpoint json_strings (v : JSON) : list string :=
  match v with
  | JString s => [s]
  | JArray l => flat_map json_strings l
  | JObject fields => flat_map (λ kv, json_strings kv.2) fields
  | _ => []
  end.

Definition cloud_words : list string := "unavailable" :: "cold" :: "warm" :: cloud_statuses.

Lemma cloud_windows_spec l : ∀ windows,
  (length windows < 20)%nat → Forall (λ v, ∀ s, s ∈ json_strings v → s ∈ cloud_words) windows →
  Forall (λ v, ∀ s, s ∈ json_strings v → s ∈ cloud_words) (cloud_windows l windows) ∧
  (length (cloud_windows l windows) ≤ 20)%nat.
Proof.
  induction l as [|o l IH]; intros windows Hn Hw; cbn [cloud_windows]; [split; [done|lia]|]. cbv zeta.
  set (windows' := if _ : bool then _ else windows).
  assert ((length windows' ≤ 20)%nat ∧ Forall (λ v, ∀ s, s ∈ json_strings v → s ∈ cloud_words) windows') as [Hn' Hw'].
  { subst windows'. destruct ((mo_Phase o =s "cold") || (mo_Phase o =s "warm")) eqn:Hp; [|split; [lia|done]].
    rewrite length_app, Forall_app, Forall_singleton. split; [simpl; lia|]. split; [done|]. simpl. intros s Hs%list_elem_of_singleton. subst s.
    apply orb_true_iff in Hp as [Hp%String.eqb_eq|Hp%String.eqb_eq]; rewrite Hp; unfold cloud_words; set_solver. }
  clearbody windows'. destruct (Nat.eqb_spec (length windows') 20); [split; [done|lia]|]. apply IH; [lia|done].
Qed.

Lemma flat_map_strings l s : s ∈ flat_map json_strings l → ∃ v, v ∈ l ∧ s ∈ json_strings v.
Proof. rewrite list_elem_of_In, in_flat_map. intros (v & Hv & Hs). exists v. by rewrite !list_elem_of_In. Qed.

(** What the advisor reads of memory evidence carries no text of the evidence: every string
    value in the view is one of eight fixed words, whatever the summary holds, and at most
    twenty observation windows are reported. *)
Theorem cloudMemory_sanitized s :
  (∀ w, w ∈ json_strings (cloudMemory s) → w ∈ cloud_words) ∧ (length (cloud_windows (ms_Observations s) []) ≤ 20)%nat.
Proof.
  destruct (cloud_windows_spec (ms_Observations s) [] ltac:(simpl; lia) ltac:(constructor)) as [Hw Hn]. split; [|done].
  intros w. unfold cloudMemory. cbv zeta. cbn [json_strings flat_map snd app]. rewrite app_nil_r, elem_of_cons.
  intros [->|(v & Hv & Hs)%flat_map_strings].
  - destruct (str_in (ms_Status s) cloud_statuses) eqn:Hst; [|unfold cloud_words; set_solver].
    apply str_in_spec in Hst. unfold cloud_words. rewrite !elem_of_cons. tauto.
  - rewrite Forall_forall in Hw. eauto.
Qed.
