(* ===== verification/Domain.v ===== *)
(** Draft validation of [internal/domain]: which typed request is admissible
    against the current configuration and inventory, and the configuration it
    asks for. *)
From S2P Require Import Prelude Json Types.
From Stdlib Require Import SpecFloat.

Section Hashing.
Context `{Sha256}.

(** [c.Revision = ""; return Hash(c)]. *)
Definition ContentRevision (c : Configuration) : string :=
  sha256_hex (Configuration_json (set_cf_Revision "" c)).

Definition Desired (current : Configuration) (d : Draft) : Configuration :=
  let c := current in
  let c := match d_Serving d with Some s => set_cf_Serving s c | None => c end in
  let c := match d_Resources d with Some r => set_cf_Resources r c | None => c end in
  let c := match d_Caches d with Some b => set_cf_Caches b c | None => c end in
  let c := if (d_Model d <>s "") && (d_Action d =s "serving.configure")
           then set_cf_Serving (set_sv_Model (d_Model d) (cf_Serving c)) c else c in
  set_cf_Revision (ContentRevision c) c.
End Hashing.

Definition Terminal (s : string) : bool :=
  (s =s "succeeded") || (s =s "failed") || (s =s "cancelled") || (s =s "recovery-required").

Definition RoleAllows (role action : string) : bool :=
  if role =s "owner" then true
  else (role =s "operator") && ((action =s "profile.switch") || (action =s "profile.restore")).

Definition MemoryAction (action : string) : bool :=
  (action =s "memory.evidence.import") || (action =s "memory.plan.export").
Definition PerformanceAction (action : string) : bool :=
  (action =s "performance.export") || (action =s "performance.profile.select").
Definition EvidenceAction (action : string) : bool := MemoryAction action || PerformanceAction action.
Definition PerformanceKind (kind : string) : bool :=
  str_in kind ["comparison"; "coding-eval"; "loading"; "queue"; "warm-status"; "cache";
               "profile-selection"; "profile-status"].

(** [^\[a-zA-Z0-9\]\[a-zA-Z0-9-\]{7,79}$] *)
Definition evidence_id (s : string) : bool :=
  headed_name (λ c, is_alnum c || Ascii.eqb c "-"%char) 7 79 s.

Definition ValidateMemoryRequest (d : Draft) : result unit :=
  if negb (MemoryAction (d_Action d)) then
    reject is_some (d_Memory d)
      with Failure "invalid" "memory fields belong only to memory evidence import or plan export" ;;
    Ok tt
  else
  match d_Memory d with
  | None => Err (Failure "invalid" "memory requires a managed evidence ID, SHA-256 and bounded other-workload MiB")
  | Some m =>
    reject negb (evidence_id (mr_EvidenceID m)) || negb (hex_string 64 (mr_EvidenceSHA256 m))
        || (mr_OtherMiB m <? 0) || (mr_OtherMiB m >? 2^30)
      with Failure "invalid" "memory requires a managed evidence ID, SHA-256 and bounded other-workload MiB" ;;
    reject is_some (d_Serving d) || is_some (d_Resources d) || is_some (d_Caches d)
        || (d_Model d <>s "") || (d_Recipe d <>s "") || (d_Profile d <>s "") || (d_RecoveryID d <>s "")
      with Failure "invalid" "memory evidence operations cannot change configuration or recover GPU operations" ;;
    Ok tt
  end.

Definition ValidatePerformanceRequest (d : Draft) : result unit :=
  if negb (PerformanceAction (d_Action d)) then
    reject is_some (d_Performance d)
      with Failure "invalid" "performance fields belong only to performance operations" ;;
    Ok tt
  else
  match d_Performance d with
  | None => Err (Failure "invalid" "performance requires a reviewed kind, managed evidence ID and SHA-256")
  | Some p =>
    reject negb (evidence_id (pr_EvidenceID p)) || negb (hex_string 64 (pr_EvidenceSHA256 p))
        || negb (PerformanceKind (pr_Kind p))
      with Failure "invalid" "performance requires a reviewed kind, managed evidence ID and SHA-256" ;;
    reject negb (Bool.eqb (d_Action d =s "performance.profile.select") (pr_Kind p =s "profile-selection"))
      with Failure "invalid" "measured profile selection requires its separate explicit owner action" ;;
    reject is_some (d_Serving d) || is_some (d_Resources d) || is_some (d_Caches d)
        || is_some (d_Memory d) || (d_Model d <>s "") || (d_Profile d <>s "") || (d_Recipe d <>s "")
        || (d_RecoveryID d <>s "")
      with Failure "invalid" "performance analysis cannot change live configuration, run a build or resolve GPU recovery" ;;
    Ok tt
  end.

(** The [switch d.Action] of [ValidateDraft]. *)
Definition known_action (a : string) : bool :=
  str_in a ["serving.configure"; "resources.configure"; "caches.configure"; "serving.start";
    "serving.stop"; "serving.restart"; "model.stage"; "model.verify"; "profile.switch";
    "profile.restore"; "hardware.refresh"; "build.start"; "cpu-policy.export";
    "operation.reconcile"; "memory.evidence.import"; "memory.plan.export"; "performance.export";
    "performance.profile.select"].

(** The shape of both selection loops of [ValidateDraft]: every selected item is
    tested in order, the first bad one refuses, and some item must be selected. *)
Fixpoint check_selected {A} (sel : A → bool) (bad : A → option error) (missing : error)
    (l : list A) (found : bool) : result unit :=
  match l with
  | [] => reject negb found with missing ;; Ok tt
  | x :: l =>
    if sel x then
      match bad x with
      | Some e => Err e
      | None => check_selected sel bad missing l true
      end
    else check_selected sel bad missing l found
  end.

Definition check_recipes (id : string) (l : list Recipe) : result unit :=
  check_selected (λ r, rc_ID r =s id)
    (λ r, if rc_Status r <>s "available" then Some (Failure "unavailable" (rc_Reason r)) else None)
    (Failure "unsupported" "select a reviewed build recipe") l false.

Definition check_models (id : string) (gpus : Z) (l : list Model) : result unit :=
  check_selected (λ m, md_ID m =s id)
    (λ m, if md_GPUCount m >? gpus then Some (Failure "capacity"
       "selected model requires its reviewed GPU count; quantization and context were not reduced") else None)
    (Failure "unsupported" "select a reviewed model") l false.

(** The budget block of [ValidateDraft] (serving, resources, hardware evidence). *)
Definition validate_budget (clk : clock) (s : Serving) (r : Resources) (inv : Inventory) : result unit :=
  let h := in_Hardware inv in
  reject (sv_Context s <? 128) || (sv_Context s >? 131072) || (sv_Concurrency s <? 1)
      || (sv_Concurrency s >? 32) || SFltb (sv_MemoryFraction s) f0_1
      || SFltb f0_95 (sv_MemoryFraction s) || (sv_CPUOffloadGiB s <? 0) || (sv_CPUOffloadGiB s >? 32)
    with Failure "invalid" "serving options exceed reviewed limits" ;;
  reject negb (sv_MaxRequestTokens s =? 0) || negb (sv_MaxOutputTokens s =? 0)
    with Failure "unsupported" "the pinned deployment cannot enforce global per-request input/output caps; use client limits" ;;
  reject rs_PhysicalGPU r <>s ""
    with Failure "unsupported" "device-plugin GPU counts cannot select a physical card" ;;
  reject (rs_CPU r <? 1) || (rs_CPU r >? 4096) || (rs_MemoryMiB r <? 1024) || (rs_MemoryMiB r >? 2^30)
      || (rs_SharedMemoryMiB r <? 64) || (rs_SharedMemoryMiB r >=? rs_MemoryMiB r)
      || (rs_GPUCount r <? 1) || (rs_GPUCount r >? 2)
    with Failure "invalid" "invalid workload budget" ;;
  reject negb (hw_TopologyKnown h) || (hw_SMTWidth h <? 1)
    with Failure "unavailable" "CPU topology is unknown; collect current hardware evidence" ;;
  reject (hw_MemoryMiB h <=? 0) || (hw_MemoryMiB h >? 2^30) || (hw_CPUThreads h <? 1)
      || (hw_CPUThreads h >? 4096) || (hw_HostReserveMiB h <? 0) || (hw_KubeReserveMiB h <? 0)
      || (hw_OtherMemoryMiB h <? 0) || (hw_ReservedCPU h <? 0) || (hw_OtherCPU h <? 0) || (hw_OtherGPUs h <? 0)
    with Failure "unavailable" "invalid or incomplete resource accounting evidence" ;;
  reject (hw_BootID h =s "") || (hw_BootID h <>s hw_CurrentBootID h)
      || (time_sub (clk 0%nat) (hw_ObservedAt h) >? 24 * Hour)
      || (time_sub (hw_ObservedAt h) (clk 1%nat) >? Minute)
    with Failure "stale_evidence" "hardware evidence is stale or belongs to another boot" ;;
  reject (hw_CPUManagerPolicy h <>s "static") || negb (hw_FullPCPUsOnly h)
      || negb (Z.rem (rs_CPU r) (hw_SMTWidth h) =? 0)
    with Failure "invalid" "Guaranteed QoS requires whole discovered SMT cores and static/full-pcpus-only CPU Manager; export a host maintenance plan" ;;
  reject (add64 (add64 (rs_CPU r) (hw_ReservedCPU h)) (hw_OtherCPU h) >? hw_CPUThreads h)
      || (add64 (add64 (add64 (rs_MemoryMiB r) (hw_HostReserveMiB h)) (hw_KubeReserveMiB h)) (hw_OtherMemoryMiB h) >? hw_MemoryMiB h)
      || (add64 (rs_GPUCount r) (hw_OtherGPUs h) >? Z.of_nat (length (hw_GPUs h)))
    with Failure "capacity" "budget exceeds capacity after host, Kubernetes and other workload reserves" ;;
  reject add64 (mul64 (sv_CPUOffloadGiB s) 1024) (rs_SharedMemoryMiB r) >=? rs_MemoryMiB r
    with Failure "capacity" "offload and shared-memory budget leave no process memory" ;;
  check_models (sv_Model s) (rs_GPUCount r) (in_Models inv).

Definition validate_caches (b : CacheBudgets) : result unit :=
  reject (cb_ModelsGiB b <? 1) || (cb_ModelsGiB b >? 8192) || (cb_CompilerGiB b <? 1)
      || (cb_CompilerGiB b >? 1024) || (cb_ShaderGiB b <? 1) || (cb_ShaderGiB b >? 1024)
      || (cb_BuildJobs b <? 1) || (cb_BuildJobs b >? 24) || (cb_BuildMemoryMiB b <? 2048)
      || (cb_BuildMemoryMiB b >? 49152) || (cb_ScratchGiB b <? 1) || (cb_ScratchGiB b >? 1024)
    with Failure "invalid" "cache/build budgets exceed reviewed bounds" ;;
  Ok tt.

(** The actions whose desired budgets are checked against the hardware. *)
Definition budget_action (a : string) : bool :=
  (a =s "serving.configure") || (a =s "resources.configure") || (a =s "serving.start") || (a =s "serving.restart").

(** The field-ownership checks of [ValidateDraft]: a draft carries only the
    payload its action owns. *)
Definition validate_fields (d : Draft) : result unit :=
  let a := d_Action d in
  reject is_some (d_Serving d) && (a <>s "serving.configure")
    with Failure "invalid" "serving fields belong only to serving.configure" ;;
  reject (d_Model d <>s "") && (a <>s "serving.configure") && (a <>s "model.stage") && (a <>s "model.verify")
    with Failure "invalid" "serving fields do not belong to this action" ;;
  reject match d_Serving d with
         | Some s => (d_Model d <>s "") && (sv_Model s <>s d_Model d)
         | None => false end
    with Failure "invalid" "model selection conflicts with serving.model" ;;
  reject is_some (d_Resources d) && (a <>s "resources.configure") && (a <>s "serving.configure")
    with Failure "invalid" "resource fields do not belong to this action" ;;
  reject is_some (d_Caches d) && (a <>s "caches.configure")
    with Failure "invalid" "cache fields do not belong to this action" ;;
  reject (d_Profile d <>s "") && (a <>s "profile.switch")
    with Failure "invalid" "profile does not belong to this action" ;;
  reject (d_Recipe d <>s "") && (a <>s "build.start")
    with Failure "invalid" "recipe does not belong to this action" ;;
  reject (a =s "profile.switch") && (d_Profile d <>s "ai") && (d_Profile d <>s "gaming") && (d_Profile d <>s "maintenance")
    with Failure "invalid" "profile must be ai, gaming or maintenance" ;;
  Ok tt.

Definition ValidateDraft `{Sha256} (clk : clock) (d : Draft) (c : Configuration) (inv : Inventory) : result unit :=
  let a := d_Action d in
  reject d_Target d <>s in_Target inv
    with Failure "target_mismatch" "confirm the configured target exactly" ;;
  reject d_SourceRevision d <>s cf_Revision c
    with Failure "source_drift" "source changed; refresh configuration and create a new plan" ;;
  reject negb (known_action a) with Failure "unsupported" "unsupported operation" ;;
  _ ← ValidateMemoryRequest d;
  _ ← ValidatePerformanceRequest d;
  _ ← validate_fields d;
  reject ((a =s "model.stage") || (a =s "model.verify"))
      && negb (existsb (λ m, md_ID m =s d_Model d) (in_Models inv))
    with Failure "invalid" "select a reviewed model ID" ;;
  _ ← (if a =s "build.start" then check_recipes (d_Recipe d) (in_Recipes inv) else Ok tt);
  let next := Desired c d in
  _ ← (if budget_action a then validate_budget clk (cf_Serving next) (cf_Resources next) inv else Ok tt);
  if a =s "caches.configure" then validate_caches (cf_Caches next) else Ok tt.

(** ** What an admitted draft guarantees *)

Lemma check_selected_ok {A} (sel : A → bool) bad missing l f :
  check_selected sel bad missing l f = Ok tt →
  (f = true ∨ ∃ x, x ∈ l ∧ sel x = true) ∧ (∀ x, x ∈ l → sel x = true → bad x = None).
Proof.
  revert f. induction l as [|x l IH]; intros f Hc; simpl in Hc.
  - destruct f; [|done]. split; [auto|intros ? Hx; by apply elem_of_nil in Hx].
  - destruct (sel x) eqn:Hs; [destruct (bad x) eqn:Hb; [done|]|];
      destruct (IH _ Hc) as [Hf Hall].
    + split; [right; exists x; split; [constructor|done]|].
      intros y [->|Hy]%elem_of_cons ?; eauto.
    + split.
      * destruct Hf as [?|(y & ? & ?)]; [auto|right; exists y; split; [by constructor|done]].
      * intros y [->|Hy]%elem_of_cons ?; [congruence|eauto].
Qed.

Lemma check_models_ok id g l :
  check_models id g l = Ok tt →
  (∃ m, m ∈ l ∧ md_ID m = id) ∧ (∀ m, m ∈ l → md_ID m = id → md_GPUCount m ≤ g).
Proof.
  intros [[?|(m & Hin & Hm)] Hall]%check_selected_ok; [done|]. bool_hyps.
  split; [eauto|]. intros m' Hin' Hid. specialize (Hall m' Hin').
  rewrite (proj2 (String.eqb_eq _ _) Hid) in Hall. specialize (Hall eq_refl).
  destruct (_ >? _) eqn:?; [done|]. by bool_hyps.
Qed.

Lemma check_recipes_ok id l :
  check_recipes id l = Ok tt →
  (∃ r, r ∈ l ∧ rc_ID r = id) ∧ (∀ r, r ∈ l → rc_ID r = id → rc_Status r = "available").
Proof.
  intros [[?|(m & Hin & Hm)] Hall]%check_selected_ok; [done|]. bool_hyps.
  split; [eauto|]. intros m' Hin' Hid. specialize (Hall m' Hin').
  rewrite (proj2 (String.eqb_eq _ _) Hid) in Hall. specialize (Hall eq_refl).
  destruct (_ =s _) eqn:?; [|done]. by bool_hyps.
Qed.

(** The checks of [ValidateDraft] an accepted draft has passed. *)
Record admitted `{Sha256} (clk : clock) (d : Draft) (c : Configuration) (inv : Inventory) : Prop := {
  adm_target : d_Target d = in_Target inv;
  adm_revision : d_SourceRevision d = cf_Revision c;
  adm_known : known_action (d_Action d) = true;
  adm_memory : ValidateMemoryRequest d = Ok tt;
  adm_performance : ValidatePerformanceRequest d = Ok tt;
  adm_fields : validate_fields d = Ok tt;
  adm_recipe : d_Action d = "build.start" → check_recipes (d_Recipe d) (in_Recipes inv) = Ok tt;
  adm_budget : budget_action (d_Action d) = true →
    validate_budget clk (cf_Serving (Desired c d)) (cf_Resources (Desired c d)) inv = Ok tt;
  adm_caches : d_Action d = "caches.configure" → validate_caches (cf_Caches (Desired c d)) = Ok tt }.

Lemma ValidateDraft_admitted `{Sha256} clk d c inv :
  ValidateDraft clk d c inv = Ok tt → admitted clk d c inv.
Proof.
  unfold ValidateDraft. intros Hv.
  split_hyp Hv; bool_hyps; repeat match goal with u : unit |- _ => destruct u end;
    constructor; try done; intros; try congruence;
    repeat match goal with Hb : (if ?b then _ else _) = Ok tt |- _ => destruct b eqn:?; bool_hyps end;
    try done; try congruence.
Qed.

Section Frame.
Context `{Sha256}.

Lemma Desired_serving_other c d :
  validate_fields d = Ok tt → d_Action d ≠ "serving.configure" →
  cf_Serving (Desired c d) = cf_Serving c.
Proof.
  unfold validate_fields, Desired. intros Hf Hne%String.eqb_neq. rewrite Hne in *.
  destruct (d_Serving d); [by split_hyp Hf|].
  rewrite andb_false_r. by destruct (d_Resources d), (d_Caches d).
Qed.

Lemma Desired_resources_other c d :
  validate_fields d = Ok tt → d_Action d ≠ "serving.configure" → d_Action d ≠ "resources.configure" →
  cf_Resources (Desired c d) = cf_Resources c.
Proof.
  unfold validate_fields, Desired. intros Hf Hne%String.eqb_neq Hne2%String.eqb_neq.
  rewrite Hne, Hne2 in *. destruct (d_Resources d); [by split_hyp Hf|].
  rewrite andb_false_r. by destruct (d_Serving d), (d_Caches d).
Qed.

Lemma Desired_caches_other c d :
  validate_fields d = Ok tt → d_Action d ≠ "caches.configure" →
  cf_Caches (Desired c d) = cf_Caches c.
Proof.
  unfold validate_fields, Desired. intros Hf Hne%String.eqb_neq. rewrite Hne in *.
  destruct (d_Caches d); [by split_hyp Hf|].
  repeat case_match; done.
Qed.

Lemma ContentRevision_set rev c : ContentRevision (set_cf_Revision rev c) = ContentRevision c.
Proof. done. Qed.

(** The revision of a desired configuration is its content revision. *)
Lemma Desired_revision c d : cf_Revision (Desired c d) = ContentRevision (Desired c d).
Proof. unfold Desired. by rewrite ContentRevision_set. Qed.

Lemma Configuration_content_eq c c' :
  cf_Serving c = cf_Serving c' → cf_Resources c = cf_Resources c' → cf_Caches c = cf_Caches c' →
  cf_Revision c = ContentRevision c → cf_Revision c' = ContentRevision c' → c = c'.
Proof.
  destruct c, c'; unfold ContentRevision, set_cf_Revision; simpl. intros -> -> ->. congruence.
Qed.
End Frame.

(** ** Properties of draft validation *)

(** The resource accounting an accepted budget satisfies, over the integers. *)
Record within_capacity (s : Serving) (r : Resources) (inv : Inventory) : Prop := {
  cap_cpu : rs_CPU r + hw_ReservedCPU (in_Hardware inv) + hw_OtherCPU (in_Hardware inv)
              ≤ hw_CPUThreads (in_Hardware inv);
  cap_memory : rs_MemoryMiB r + hw_HostReserveMiB (in_Hardware inv) + hw_KubeReserveMiB (in_Hardware inv)
              + hw_OtherMemoryMiB (in_Hardware inv) ≤ hw_MemoryMiB (in_Hardware inv);
  cap_gpus : rs_GPUCount r + hw_OtherGPUs (in_Hardware inv) ≤ Z.of_nat (length (hw_GPUs (in_Hardware inv)));
  cap_process : sv_CPUOffloadGiB s * 1024 + rs_SharedMemoryMiB r < rs_MemoryMiB r;
  cap_cores : Z.rem (rs_CPU r) (hw_SMTWidth (in_Hardware inv)) = 0;
  cap_boot : hw_BootID (in_Hardware inv) = hw_CurrentBootID (in_Hardware inv);
  cap_model : (∃ m, m ∈ in_Models inv ∧ md_ID m = sv_Model s)
              ∧ ∀ m, m ∈ in_Models inv → md_ID m = sv_Model s → md_GPUCount m ≤ rs_GPUCount r }.

(** Accounting evidence whose reserves stay below 2{^61}: sums of three of them
    and a bounded budget stay inside [int64]. *)
Definition small_reserves (h : Hardware) : Prop :=
  hw_HostReserveMiB h ≤ 2^61 ∧ hw_KubeReserveMiB h ≤ 2^61 ∧ hw_OtherMemoryMiB h ≤ 2^61 ∧
  hw_ReservedCPU h ≤ 2^61 ∧ hw_OtherCPU h ≤ 2^61 ∧ hw_OtherGPUs h ≤ 2^61.

Lemma validate_budget_capacity clk s r inv :
  small_reserves (in_Hardware inv) → validate_budget clk s r inv = Ok tt → within_capacity s r inv.
Proof.
  intros (H1 & H2 & H3 & H4 & H5 & H6) Hv. unfold validate_budget in Hv. split_hyp Hv. bool_hyps.
  apply check_models_ok in Hv.
  unwrap64. constructor; auto; lia.
Qed.

(** C40: A draft [ValidateDraft] accepts for a budgeted action asks for CPU, memory
    and GPU budgets that fit the observed hardware next to every reserve, leaves
    process memory after offload and shared memory, allots whole SMT cores on the
    current boot and names a reviewed model that fits its GPU budget, whenever the
    reported reserves are below 2{^61}. *)
Theorem ValidateDraft_capacity `{Sha256} clk d c inv :
  ValidateDraft clk d c inv = Ok tt →
  budget_action (d_Action d) = true →
  small_reserves (in_Hardware inv) →
  within_capacity (cf_Serving (Desired c d)) (cf_Resources (Desired c d)) inv.
Proof.
  intros Hv%ValidateDraft_admitted Hb Hs. eapply validate_budget_capacity, adm_budget; eauto.
Qed.

Module DomainFixture.
Definition serving := mkServing "qwen" 8192 4 f0_5 0 0 0.
Definition resources := mkResources 8 16384 1024 1 "".
Definition caches := mkCacheBudgets 100 10 10 4 8192 20.
Definition config `{Sha256} : Configuration :=
  let c := mkConfiguration "" serving resources caches in set_cf_Revision (ContentRevision c) c.
Definition gpu := mkGPU "0000:03:00.0" "AMD" "/dev/dri/renderD128" 32768.
Definition hardware (otherCPU : Z) : Hardware :=
  mkHardware "observed" (10 * Hour) "boot" "boot" 65536 4 "6000" "unknown" 32 2 true "static" true
    12288 6144 0 6 otherCPU 0 [gpu] [].
Definition model := mkModel "qwen" "org/qwen" "rev" "awq" "apache" 1 "staged" "qualified" 1 [].
Definition inventory (otherCPU : Z) : Inventory :=
  mkInventory "live" "ws" "dev" "" true "" "ai" ServingStatus0 (hardware otherCPU) [model] [] [] [].
Definition clk : clock := λ _, 11 * Hour.
Definition configure `{Sha256} : Draft :=
  mkDraft "serving.configure" "ws" (cf_Revision config) "" "" "" "" (Some serving) None None None None.
End DomainFixture.

#[local] Existing Instance render_hash.

Lemma ValidateDraft_capacity_witness :
  within_capacity (cf_Serving (Desired DomainFixture.config DomainFixture.configure))
    (cf_Resources (Desired DomainFixture.config DomainFixture.configure)) (DomainFixture.inventory 2).
Proof.
  apply (ValidateDraft_capacity DomainFixture.clk); [vm_compute; reflexivity..|].
  unfold small_reserves; simpl; lia.
Defined.

(** Without a bound on the reported reserves the capacity check can be passed
    by evidence whose other workloads already exceed every CPU thread: the Go sum
    wraps to a negative number. *)
Theorem ValidateDraft_capacity_wraps :
  ∃ h, hw_OtherCPU h = 2^63 - 1 ∧ hw_CPUThreads h = 32 ∧
    ValidateDraft DomainFixture.clk DomainFixture.configure DomainFixture.config
      (DomainFixture.inventory (hw_OtherCPU h)) = Ok tt ∧
    in_Hardware (DomainFixture.inventory (hw_OtherCPU h)) = h ∧
    ¬ within_capacity (cf_Serving (Desired DomainFixture.config DomainFixture.configure))
        (cf_Resources (Desired DomainFixture.config DomainFixture.configure)) (DomainFixture.inventory (hw_OtherCPU h)).
Proof.
  exists (DomainFixture.hardware (2^63 - 1)). repeat split; try (vm_compute; reflexivity).
  intros [Hc]. vm_compute in Hc. by apply Hc.
Qed.

(** An accepted draft changes only the sections its action owns: serving fields
    for [serving.configure], resources for it and [resources.configure], caches for
    [caches.configure]. Every other action leaves a configuration with a valid
    revision exactly as it is, so it cannot cause a source update. *)
Theorem ValidateDraft_frame `{Sha256} clk d c inv :
  ValidateDraft clk d c inv = Ok tt → cf_Revision c = ContentRevision c →
  let c' := Desired c d in
  (d_Action d ≠ "serving.configure" → cf_Serving c' = cf_Serving c) ∧
  (d_Action d ≠ "serving.configure" → d_Action d ≠ "resources.configure" →
     cf_Resources c' = cf_Resources c) ∧
  (d_Action d ≠ "caches.configure" → cf_Caches c' = cf_Caches c) ∧
  (d_Action d ∉ ["serving.configure"; "resources.configure"; "caches.configure"] → c' = c).
Proof.
  intros Hv%ValidateDraft_admitted Hrev c'. pose proof (adm_fields _ _ _ _ Hv) as Hf.
  split_and!; eauto using Desired_serving_other, Desired_resources_other, Desired_caches_other.
  intros Ha. rewrite !not_elem_of_cons in Ha. destruct Ha as (Ha1 & Ha2 & Ha3 & _).
  apply Configuration_content_eq; [| | |apply Desired_revision|done]; subst c';
    eauto using Desired_serving_other, Desired_resources_other, Desired_caches_other.
Qed.

Lemma ValidateDraft_frame_witness :
  Desired DomainFixture.config (mkDraft "serving.stop" "ws" (cf_Revision DomainFixture.config) "" "" "" ""
     None None None None None) = DomainFixture.config.
Proof.
  apply (ValidateDraft_frame DomainFixture.clk _ _ (DomainFixture.inventory 2)); [vm_compute; reflexivity..|].
  vm_compute. intros Hin. repeat (apply elem_of_cons in Hin as [Hin|Hin]; [discriminate|]).
  by apply elem_of_nil in Hin.
Defined.
