(* ===== verification/Recovery.v ===== *)
(** Recovery linkage of [internal/domain/recovery.go]: the parent walk that finds
    the root of a recovery chain and the set of records sharing that root.  Both
    the controller's journal and the root helper's journal use these functions. *)
From S2P Require Import Prelude.

Record RecoveryLink := mkRecoveryLink {
  rl_Parent : string;
  rl_Target : string;
  rl_Action : string }.

Definition HostRestoreRequired (action : string) : bool :=
  str_in action ["profile.switch"; "profile.restore"; "serving.configure"; "resources.configure";
                 "serving.start"; "serving.stop"; "serving.restart"].

(** The actions that may carry a parent link. *)
Definition recovery_action (a : string) : bool := (a =s "profile.restore") || (a =s "operation.reconcile").

(** The [for] loop of [RecoveryRoot]; [None] when the fuel runs out. *)
Fixpoint root_loop (fuel : nat) (links : gmap string RecoveryLink) (seen : gset string)
    (target id : string) : option (result string) :=
  match fuel with
  | O => None
  | S fuel =>
    match links !! id with
    | None => Some (Err (Plain "recovery linkage is missing or cyclic; preserve journals for owner review"))
    | Some link =>
      if bool_decide (id ∈ seen) || (rl_Target link =s "")
      then Some (Err (Plain "recovery linkage is missing or cyclic; preserve journals for owner review"))
      else if (target <>s "") && (target <>s rl_Target link)
      then Some (Err (Plain "recovery linkage crosses targets"))
      else if rl_Parent link =s "" then Some (Ok id)
      else if (rl_Action link <>s "profile.restore") && (rl_Action link <>s "operation.reconcile")
      then Some (Err (Plain "recovery linkage belongs to a non-recovery action"))
      else match links !! rl_Parent link with
           | None => Some (Err (Plain "recovery linkage crosses executors or has a missing parent"))
           | Some parent =>
             if (rl_Action link =s "profile.restore") && negb (HostRestoreRequired (rl_Action parent))
             then Some (Err (Plain "recovery linkage crosses executors or has a missing parent"))
             else root_loop fuel links ({[id]} ∪ seen) (rl_Target link) (rl_Parent link)
           end
    end
  end.

(** Every iteration marks a new key of [links] as seen, so one more iteration than
    [links] has keys is enough. *)
Definition RecoveryRoot (links : gmap string RecoveryLink) (id : string) : result string :=
  default (Err (Plain "out of fuel")) (root_loop (S (size links)) links ∅ "" id).

Definition RecoveryChain (links : gmap string RecoveryLink) (id : string) : result (gset string) :=
  root ← RecoveryRoot links id;
  Ok (dom (filter (λ kv : string * RecoveryLink, RecoveryRoot links kv.1 = Ok root) links)).

(** ** The declarative reading *)

Section Path.
Context (links : gmap string RecoveryLink).

(** [root_path n id r]: following [n] parent links from [id], each between a
    recovery action and an existing record of the same target (a host effect when
    the action is a restore), ends in the parentless record [r]. *)
Inductive root_path : nat → string → string → Prop :=
| root_here id l :
    links !! id = Some l → rl_Target l ≠ "" → rl_Parent l = "" → root_path 0 id id
| root_step n id l p r :
    links !! id = Some l → rl_Target l ≠ "" → rl_Parent l ≠ "" →
    recovery_action (rl_Action l) = true →
    links !! rl_Parent l = Some p →
    (rl_Action l = "profile.restore" → HostRestoreRequired (rl_Action p) = true) →
    rl_Target p = rl_Target l →
    root_path n (rl_Parent l) r → root_path (S n) id r.

Lemma root_path_det n m id r r' : root_path n id r → root_path m id r' → n = m ∧ r = r'.
Proof.
  intros Hp. revert m r'. induction Hp as [id l Hl Ht Hn|n id l p r Hl Ht Hn Ha Hp Hh Ht' Hr IH];
    intros m r' Hp'; inversion Hp'; simplify_eq; try done.
  edestruct IH as [-> ->]; eauto.
Qed.

Lemma root_path_in_dom n id r : root_path n id r → id ∈ dom links ∧ r ∈ dom links.
Proof.
  induction 1; rewrite !elem_of_dom in *; [eauto|]. destruct_and!. eauto.
Qed.

(** All records on a path share one target. *)
Lemma root_path_target n id r l :
  root_path n id r → links !! id = Some l → ∃ lr, links !! r = Some lr ∧ rl_Target lr = rl_Target l
    ∧ rl_Parent lr = "".
Proof.
  intros Hp. revert l. induction Hp; intros l' Hl'; simplify_eq; [eauto|].
  destruct (IHHp _ ltac:(eassumption)) as (lr & ? & ? & ?). exists lr. split_and!; congruence.
Qed.

(** The walk follows the path, whatever it has already seen, provided the seen
    records are further from the root. *)
Lemma root_loop_complete n id r : root_path n id r → ∀ fuel seen target,
  (n < fuel)%nat →
  (∀ s m r', s ∈ seen → root_path m s r' → (n < m)%nat) →
  (target = "" ∨ ∃ l, links !! id = Some l ∧ rl_Target l = target) →
  root_loop fuel links seen target id = Some (Ok r).
Proof.
  induction 1 as [id l Hl Ht Hn|n id l p r Hl Ht Hn Ha Hp Hh Ht' Hr IH];
    intros [|fuel] seen target Hf Hs Htg; try lia; simpl; rewrite Hl.
  - rewrite bool_decide_eq_false_2, (neqb_str _ _ Ht); simpl.
    + rewrite Hn; simpl. destruct Htg as [->|(?&?&<-)]; simplify_eq; [done|].
      by rewrite eqb_str_refl, andb_false_r.
    + intros Hin. specialize (Hs _ 0%nat id Hin). assert (root_path 0 id id) by by econstructor.
      by apply Hs in H; lia.
  - rewrite bool_decide_eq_false_2, (neqb_str _ _ Ht); simpl.
    + assert ((target <>s "") && (target <>s rl_Target l) = false) as ->.
      { destruct Htg as [->|(?&?&<-)]; simplify_eq; [done|]. by rewrite eqb_str_refl, andb_false_r. }
      rewrite (neqb_str _ _ Hn). unfold recovery_action in Ha.
      assert ((rl_Action l <>s "profile.restore") && (rl_Action l <>s "operation.reconcile") = false) as ->.
      { by destruct (_ =s "profile.restore"), (_ =s "operation.reconcile"). }
      rewrite Hp.
      assert ((rl_Action l =s "profile.restore") && negb (HostRestoreRequired (rl_Action p)) = false) as ->.
      { destruct (String.eqb_spec (rl_Action l) "profile.restore"); [|done]. by rewrite Hh. }
      apply IH; [lia| |eauto].
      intros s m r' [->%elem_of_singleton|Hin]%elem_of_union Hm.
      * assert (root_path (S n) id r) as Hid by by econstructor.
        destruct (root_path_det _ _ _ _ _ Hm Hid). lia.
      * specialize (Hs _ _ _ Hin Hm). lia.
    + intros Hin. assert (root_path (S n) id r) as Hid by by econstructor.
      specialize (Hs _ _ _ Hin Hid). lia.
Qed.

Lemma root_loop_sound fuel : ∀ seen target id r,
  root_loop fuel links seen target id = Some (Ok r) →
  ∃ n l, root_path n id r ∧ links !! id = Some l ∧ (target = "" ∨ rl_Target l = target).
Proof.
  induction fuel as [|fuel IH]; intros seen target id r Hl; simpl in Hl; [done|].
  destruct (links !! id) as [l|] eqn:Hid; [|done].
  destruct (_ || _) eqn:Hseen; [done|]. apply orb_false_iff in Hseen as [_ Ht%String.eqb_neq].
  destruct ((target <>s _) && _) eqn:Htg; [done|].
  assert (target = "" ∨ rl_Target l = target) as Htl.
  { apply andb_false_iff in Htg as [?|?]; bool_hyps; auto. }
  destruct (String.eqb_spec (rl_Parent l) "") as [Hp|Hp].
  { simplify_eq. exists 0%nat, l. split_and!; [by econstructor|done..]. }
  destruct ((rl_Action l <>s _) && _) eqn:Ha; [done|].
  destruct (links !! rl_Parent l) as [p|] eqn:Hpar; [|done].
  destruct ((rl_Action l =s _) && _) eqn:Hh; [done|].
  apply IH in Hl as (n & lp & Hpath & Hlp & Hlt). simplify_eq.
  exists (S n), l. split_and!; [|done..]. eapply root_step; try done.
  - apply andb_false_iff in Ha as [?|?]; bool_hyps; unfold recovery_action; rewrite H; done.
  - intros He. rewrite He in Hh. simpl in Hh. by bool_hyps.
  - destruct Hlt; congruence.
Qed.

Lemma root_loop_total fuel : ∀ seen target id,
  (size (dom links ∖ seen) < fuel)%nat → is_Some (root_loop fuel links seen target id).
Proof.
  induction fuel as [|fuel IH]; intros seen target id Hf; [lia|]. simpl.
  destruct (links !! id) as [l|] eqn:Hid; [|eauto].
  destruct (bool_decide_reflect (id ∈ seen)) as [|Hns]; [eauto|]. simpl.
  repeat case_match; eauto. apply IH.
  apply elem_of_dom_2 in Hid. pose proof (size_mark (dom links) seen id Hid Hns). lia.
Qed.
End Path.

(** ** Facts the journals use *)

Section Chain.
Context (links : gmap string RecoveryLink).

Lemma root_loop_mono f g seen target id x :
  root_loop f links seen target id = Some x → (f ≤ g)%nat → root_loop g links seen target id = Some x.
Proof.
  revert g seen target id. induction f as [|f IH]; intros [|g] seen target id Hx Hle; try done; [lia|].
  simpl in *. repeat case_match; try done. apply IH; [done|lia].
Qed.

Lemma RecoveryRoot_path id r : RecoveryRoot links id = Ok r ↔ ∃ n, root_path links n id r.
Proof.
  unfold RecoveryRoot. split.
  - destruct (root_loop _ _ _ _ _) as [res|] eqn:Hl; simpl; [|done]. intros ->.
    apply root_loop_sound in Hl as (n & l & ? & _). eauto.
  - intros [n Hp]. destruct (root_loop_total links (S (size links)) ∅ "" id) as [res Hres].
    { rewrite difference_empty_L, size_dom. lia. }
    assert (root_loop (S n + S (size links)) links ∅ "" id = Some (Ok r)) as Hc.
    { apply (root_loop_complete links n); [done|lia|set_solver|auto]. }
    rewrite (root_loop_mono _ _ _ _ _ _ Hres) in Hc by lia. rewrite Hres. simpl. congruence.
Qed.

Lemma RecoveryChain_spec id chain :
  RecoveryChain links id = Ok chain ↔
  ∃ r, RecoveryRoot links id = Ok r ∧ (∀ k, k ∈ chain ↔ RecoveryRoot links k = Ok r).
Proof.
  unfold RecoveryChain. destruct (RecoveryRoot links id) as [r|e] eqn:Hr; simpl.
  - assert (∀ k, k ∈ dom (filter (λ kv : string * RecoveryLink, RecoveryRoot links kv.1 = Ok r) links)
      ↔ RecoveryRoot links k = Ok r) as Hd.
    { intros k. rewrite elem_of_dom. split.
      - intros [l Hl]. by apply map_lookup_filter_Some in Hl as [_ ?].
      - intros Hk. pose proof Hk as [n Hp]%RecoveryRoot_path.
        destruct (root_path_in_dom _ _ _ _ Hp) as [[l Hl]%elem_of_dom _].
        exists l. by apply map_lookup_filter_Some. }
    split.
    + intros [= <-]. eauto.
    + intros (r' & [= <-] & Hc). f_equal. apply set_eq. intros k. by rewrite Hd, Hc.
  - split; [done|]. by intros (? & ? & _).
Qed.

Lemma RecoveryChain_self id chain : RecoveryChain links id = Ok chain → id ∈ chain.
Proof. rewrite RecoveryChain_spec. intros (r & Hr & Hc). by apply Hc. Qed.

Lemma RecoveryChain_same id chain k :
  RecoveryChain links id = Ok chain → k ∈ chain → RecoveryChain links k = Ok chain.
Proof.
  rewrite !RecoveryChain_spec. intros (r & Hr & Hc) Hk. exists r. split; [by apply Hc|done].
Qed.

Lemma RecoveryChain_dom id chain : RecoveryChain links id = Ok chain → chain ⊆ dom links.
Proof.
  rewrite RecoveryChain_spec. intros (r & _ & Hc) k [n Hp]%Hc%RecoveryRoot_path.
  by apply root_path_in_dom in Hp as [? _].
Qed.

Lemma RecoveryChain_target id chain k l l' :
  RecoveryChain links id = Ok chain → k ∈ chain →
  links !! id = Some l → links !! k = Some l' → rl_Target l' = rl_Target l.
Proof.
  rewrite RecoveryChain_spec.
  intros (r & [n Hp]%RecoveryRoot_path & Hc) [m Hm]%Hc%RecoveryRoot_path Hl Hl'.
  destruct (root_path_target _ _ _ _ _ Hp Hl) as (lr & Hlr & Ht & _).
  destruct (root_path_target _ _ _ _ _ Hm Hl') as (lr' & Hlr' & Ht' & _). congruence.
Qed.

End Chain.

(** ** Properties *)

(** The parent walk terminates on every journal, cyclic and dangling links
    included: with one iteration more than the journal has records it always
    returns, so the [for] loop of [RecoveryRoot] cannot spin. *)
Theorem RecoveryRoot_terminates links id :
  is_Some (root_loop (S (size links)) links ∅ "" id).
Proof. apply root_loop_total. rewrite difference_empty_L, size_dom. lia. Qed.

(** C39: [RecoveryRoot] succeeds exactly on well-formed linkage: it returns [r] iff a
    finite path of recovery actions leads from the record to the parentless [r]
    through existing records of one target, restores pointing only at host effects.
    Missing, cyclic, cross-target and cross-executor linkage is refused. *)
Theorem RecoveryRoot_correct links id r :
  RecoveryRoot links id = Ok r ↔ ∃ n, root_path links n id r.
Proof. apply RecoveryRoot_path. Qed.

(** Chains partition the journal: a chain contains its own record and root, every
    member yields the same chain, two chains are equal or disjoint, and all members
    act on one target. *)
Theorem RecoveryChain_partition links id chain :
  RecoveryChain links id = Ok chain →
  id ∈ chain ∧ chain ⊆ dom links ∧
  (∀ k, k ∈ chain → RecoveryChain links k = Ok chain) ∧
  (∀ id' chain', RecoveryChain links id' = Ok chain' → chain' = chain ∨ chain ## chain') ∧
  (∀ k l l', k ∈ chain → links !! id = Some l → links !! k = Some l' → rl_Target l' = rl_Target l).
Proof.
  intros Hc. split_and!;
    eauto using RecoveryChain_self, RecoveryChain_dom, RecoveryChain_same, RecoveryChain_target.
  intros id' chain' Hc'. destruct (decide (chain ## chain')) as [|Hnd]; [by right|left].
  assert (∃ k, k ∈ chain ∧ k ∈ chain') as (k & Hk & Hk').
  { destruct (set_choose_or_empty (chain ∩ chain')) as [[k Hk]|He]; [set_solver|].
    exfalso. apply Hnd. set_solver. }
  pose proof (RecoveryChain_same _ _ _ _ Hc Hk). pose proof (RecoveryChain_same _ _ _ _ Hc' Hk').
  congruence.
Qed.

Module RecoveryFixture.
(** A failed switch with a failed restore and a retry of it, next to another root. *)
Definition links : gmap string RecoveryLink := list_to_map [
  ("s", mkRecoveryLink "" "ws" "profile.switch");
  ("r", mkRecoveryLink "s" "ws" "profile.restore");
  ("t", mkRecoveryLink "r" "ws" "profile.restore");
  ("o", mkRecoveryLink "" "ws" "serving.stop");
  ("c", mkRecoveryLink "c" "ws" "profile.restore")].
Definition chain : gset string := {["s"; "r"; "t"]}.
End RecoveryFixture.

Lemma RecoveryChain_partition_witness :
  RecoveryChain RecoveryFixture.links "t" = Ok RecoveryFixture.chain ∧ "t" ∈ RecoveryFixture.chain ∧
  is_ok (RecoveryRoot RecoveryFixture.links "c") = false.
Proof.
  assert (RecoveryChain RecoveryFixture.links "t" = Ok RecoveryFixture.chain) as Hc by (vm_compute; reflexivity).
  destruct (RecoveryChain_partition RecoveryFixture.links "t" RecoveryFixture.chain Hc) as [Hin _].
  split; [exact Hc|]. split; [exact Hin|]. vm_compute; reflexivity.
Defined.
