(* ===== verification/Store.v ===== *)
(** The controller's embedded store ([internal/store]): the durable state, its
    retention rule and the copy-on-write transaction every mutation goes through.

    [clone] detaches a snapshot by a JSON round trip; records are immutable values
    here, so it is the identity.  The file next to the in-memory state is explicit
    because a failed write may or may not have replaced it ([safefile.Replace] can
    fail after its rename). *)
From S2P Require Import Prelude Json Types Domain Recovery.

Definition MaxBytes : Z := 32 * 2^20.

Record Credential := mkCredential {
  cr_ID : string;
  cr_Name : string;
  cr_Role : string;
  cr_Verifier : string;
  cr_CreatedAt : time;
  cr_ExpiresAt : time;
  cr_Revoked : bool }.

Record Session := mkSession {
  se_Verifier : string;
  se_CredentialID : string;
  se_CSRF : string;
  se_ExpiresAt : time;
  se_Purpose : string }.

Record Audit := mkAudit {
  au_At : time;
  au_Actor : string;
  au_Action : string;
  au_Object : string;
  au_Result : string }.

Record Idempotency := mkIdempotency {
  id_PayloadHash : string;
  id_OperationID : string }.

Record State := mkState {
  s_Schema : Z;
  s_Mode : string;
  s_Revision : Z;
  s_Credentials : gmap string Credential;
  s_Sessions : gmap string Session;
  s_Plans : gmap string Plan;
  s_Operations : gmap string Operation;
  s_Idempotency : gmap string Idempotency;
  s_Audit : list Audit }.

Definition set_s_Revision v s := mkState (s_Schema s) (s_Mode s) v (s_Credentials s) (s_Sessions s)
  (s_Plans s) (s_Operations s) (s_Idempotency s) (s_Audit s).
Definition set_s_Credentials v s := mkState (s_Schema s) (s_Mode s) (s_Revision s) v (s_Sessions s)
  (s_Plans s) (s_Operations s) (s_Idempotency s) (s_Audit s).
Definition set_s_Sessions v s := mkState (s_Schema s) (s_Mode s) (s_Revision s) (s_Credentials s) v
  (s_Plans s) (s_Operations s) (s_Idempotency s) (s_Audit s).
Definition set_s_Plans v s := mkState (s_Schema s) (s_Mode s) (s_Revision s) (s_Credentials s)
  (s_Sessions s) v (s_Operations s) (s_Idempotency s) (s_Audit s).
Definition set_s_Operations v s := mkState (s_Schema s) (s_Mode s) (s_Revision s) (s_Credentials s)
  (s_Sessions s) (s_Plans s) v (s_Idempotency s) (s_Audit s).
Definition set_s_Idempotency v s := mkState (s_Schema s) (s_Mode s) (s_Revision s) (s_Credentials s)
  (s_Sessions s) (s_Plans s) (s_Operations s) v (s_Audit s).
Definition set_s_Audit v s := mkState (s_Schema s) (s_Mode s) (s_Revision s) (s_Credentials s)
  (s_Sessions s) (s_Plans s) (s_Operations s) (s_Idempotency s) v.

(** [st_file] is the content of [state.json]. *)
Record Store := mkStore {
  st_state : State;
  st_poisoned : bool;
  st_file : State }.

Definition NewState (mode : string) : State := mkState 1 mode 0 ∅ ∅ ∅ ∅ ∅ [].

(** [Event] appends to the audit log. *)
Definition Event (now : time) (actor action object result : string) (v : State) : State :=
  set_s_Audit (s_Audit v ++ [mkAudit now actor action object result]) v.

(** ** Retention *)

Definition op_parent (o : Operation) : string := d_RecoveryID (pl_Draft (op_Plan o)).

(** The records whose retention starts a walk. *)
Definition keep_root (now : time) (o : Operation) : bool :=
  negb (Terminal (op_State o)) || op_RecoveryRequired o
    || (time_sub now (op_UpdatedAt o) <=? 30 * 24 * Hour).

(** The inner loop of [prune]: mark a record and its recovery ancestors. *)
Fixpoint mark_ancestors (fuel : nat) (ops : gmap string Operation) (retained : gset string)
    (id : string) : gset string :=
  match fuel with
  | O => retained
  | S fuel =>
    if (id =s "") || bool_decide (id ∈ retained) then retained
    else
      let retained := {[id]} ∪ retained in
      match ops !! id with
      | None => retained
      | Some parent => mark_ancestors fuel ops retained (op_parent parent)
      end
  end.

Definition retained_ids (now : time) (ops : gmap string Operation) : gset string :=
  foldl (λ retained (kv : string * Operation),
           if keep_root now kv.2 then mark_ancestors (S (S (size ops))) ops retained kv.1 else retained)
    ∅ (map_to_list ops).

Definition prune (now : time) (v : State) : State :=
  let v := set_s_Sessions (filter (λ kv : string * Session, after now (se_ExpiresAt kv.2) = false) (s_Sessions v)) v in
  let v := set_s_Plans (filter (λ kv : string * Plan, after now (pl_ExpiresAt kv.2 + Hour) = false) (s_Plans v)) v in
  let v := set_s_Audit (keep_last 2000 (s_Audit v)) v in
  let retained := retained_ids now (s_Operations v) in
  let v := set_s_Operations
    (filter (λ kv : string * Operation, ¬ ((kv.1 ∉ retained) ∧ Terminal (op_State kv.2) = true ∧
               op_RecoveryRequired kv.2 = false ∧ (time_sub now (op_UpdatedAt kv.2) >? 30 * 24 * Hour) = true))
       (s_Operations v)) v in
  set_s_Idempotency
    (filter (λ kv : string * Idempotency, is_Some (s_Operations v !! id_OperationID kv.2)) (s_Idempotency v)) v.

(** ** The transaction *)

(** The size of the encoded snapshot, [None] when marshalling fails. *)
Class Encoding := encoded_len : State → option Z.

Definition persist `{Encoding} (w : write_outcome) (v : State) (file : State) : State * bool :=
  match encoded_len v with
  | None => (file, false)
  | Some n =>
    if n >? MaxBytes then (file, false)
    else match w with
         | Written => (v, true)
         | WriteFailed replaced => (if replaced then v else file, false)
         end
  end.

Definition Update `{Encoding} {A} (clk : clock) (w : write_outcome)
    (fn : clock → State → result (State * A)) (s : Store) : Store * result A :=
  if st_poisoned s
  then (s, Err (Failure "storage_unavailable" "durable storage failed; mutations disabled until recovery"))
  else
    let v := prune (clk 0%nat) (st_state s) in
    match fn (λ i, clk (2 + i)%nat) v with
    | Err e => (s, Err e)
    | Ok (v, a) =>
      let v := prune (clk 1%nat) v in
      let v := set_s_Revision (incu64 (s_Revision v)) v in
      match persist w v (st_file s) with
      | (file, true) => (mkStore v false file, Ok a)
      | (file, false) =>
        (mkStore (st_state s) true file,
         Err (Failure "storage_unavailable" "durable persistence failed; stop and inspect state before recovery"))
      end
    end.

(** ** Reads *)

Definition st_Operation (s : Store) (id : string) : option Operation := s_Operations (st_state s) !! id.
Definition OperationRecords (s : Store) : gmap string Operation := s_Operations (st_state s).
Definition st_Plan (s : Store) (id : string) : option Plan := s_Plans (st_state s) !! id.
Definition AuditRecords (s : Store) : list Audit := s_Audit (st_state s).
Definition AuthState (s : Store) : State :=
  set_s_Sessions (s_Sessions (st_state s))
    (set_s_Credentials (s_Credentials (st_state s)) (mkState 0 "" 0 ∅ ∅ ∅ ∅ ∅ [])).
Definition Healthy (s : Store) : bool := negb (st_poisoned s).

(** The scan of [OldestQueuedOperation], over any enumeration of the map. *)
Fixpoint oldest_queued (l : list Operation) (next : option Operation) : option Operation :=
  match l with
  | [] => next
  | o :: l =>
    if (op_State o =s "queued")
       && match next with None => true | Some n => before (op_CreatedAt o) (op_CreatedAt n) end
    then oldest_queued l (Some o) else oldest_queued l next
  end.
Definition OldestQueuedOperation (s : Store) : option Operation :=
  oldest_queued ((map_to_list (s_Operations (st_state s))).*2) None.

Record TelemetryOperations := mkTelemetryOperations {
  to_Queued : Z;
  to_Running : Z;
  to_RecoveryRequired : Z }.

Definition count_operation (out : TelemetryOperations) (op : Operation) : TelemetryOperations :=
  let q := if op_State op =s "queued" then to_Queued out + 1 else to_Queued out in
  let r := if (op_State op =s "running") || (op_State op =s "cancel-requested")
           then to_Running out + 1 else to_Running out in
  let n := if op_RecoveryRequired op then to_RecoveryRequired out + 1 else to_RecoveryRequired out in
  mkTelemetryOperations q r n.
Definition TelemetrySnapshot (s : Store) : TelemetryOperations * bool :=
  (foldl count_operation (mkTelemetryOperations 0 0 0) (map_to_list (s_Operations (st_state s))).*2,
   negb (st_poisoned s)).

(** The recovery links of an operation journal ([operationLinks] of the engine). *)
Definition op_link (o : Operation) : RecoveryLink :=
  mkRecoveryLink (d_RecoveryID (pl_Draft (op_Plan o))) (d_Target (pl_Draft (op_Plan o)))
    (d_Action (pl_Draft (op_Plan o))).
Definition operationLinks (ops : gmap string Operation) : gmap string RecoveryLink := op_link <$> ops.

(** ** Retention lemmas *)

Section Retention.
Context (now : time) (ops : gmap string Operation).

(** One recovery link up. *)
Definition parent_of (a b : string) : Prop :=
  b ≠ "" ∧ ∃ o, ops !! a = Some o ∧ op_parent o = b.

(** [pending id R]: every marked record has its parent marked, or equal to [id]. *)
Definition pending (id : string) (R : gset string) : Prop :=
  ∀ a b, a ∈ R → parent_of a b → b ∈ R ∨ b = id.

Lemma mark_ancestors_mono fuel R id : R ⊆ mark_ancestors fuel ops R id.
Proof.
  revert R id. induction fuel as [|fuel IH]; intros R id; simpl; [done|].
  repeat case_match; [done| |set_solver]. etrans; [|apply IH]. set_solver.
Qed.

Lemma mark_ancestors_closed fuel R id :
  (size (dom ops ∖ R) + 1 < fuel)%nat → pending id R →
  pending "" (mark_ancestors fuel ops R id) ∧ (id = "" ∨ id ∈ mark_ancestors fuel ops R id).
Proof.
  revert R id. induction fuel as [|fuel IH]; intros R id Hf Hp; [lia|]. simpl.
  destruct (String.eqb_spec id "") as [->|Hne]; simpl; [auto|].
  destruct (bool_decide_reflect (id ∈ R)) as [Hin|Hnin].
  { split; [|auto]. intros a b Ha Hab. destruct (Hp a b Ha Hab) as [?| ->]; auto. }
  destruct (ops !! id) as [o|] eqn:Ho.
  - assert (id ∈ dom ops) as Hd by (apply elem_of_dom; eauto).
    pose proof (size_mark _ _ _ Hd Hnin).
    destruct (IH ({[id]} ∪ R) (op_parent o)) as [Hc _]; [lia| |].
    + intros a b [->%elem_of_singleton|Ha]%elem_of_union Hab.
      * destruct Hab as (_ & o' & ? & ?). simplify_eq. auto.
      * destruct (Hp a b Ha Hab) as [?| ->]; set_solver.
    + split; [done|]. right. eapply mark_ancestors_mono. set_solver.
  - split; [|right; set_solver].
    intros a b [->%elem_of_singleton|Ha]%elem_of_union Hab.
    + destruct Hab as (_ & o' & ? & _). congruence.
    + destruct (Hp a b Ha Hab) as [?| ->]; set_solver.
Qed.

Lemma mark_ancestors_sound fuel R id k :
  k ∈ mark_ancestors fuel ops R id → k ∈ R ∨ (id ≠ "" ∧ rtc parent_of id k).
Proof.
  revert R id. induction fuel as [|fuel IH]; intros R id; simpl; [auto|].
  destruct (String.eqb_spec id "") as [->|Hne]; simpl; [auto|].
  destruct (bool_decide _); [auto|]. destruct (ops !! id) as [o|] eqn:Ho.
  - intros [[->%elem_of_singleton|?]%elem_of_union|[Hp Hk]]%IH; [|auto|].
    + right. split; [done|constructor].
    + right. split; [done|]. eapply rtc_l; [|done]. split; [done|eauto].
  - intros [->%elem_of_singleton|?]%elem_of_union; [right; split; [done|constructor]|auto].
Qed.

(** The outer loop, as a fold over any list of records of the journal. *)
Definition mark_all (l : list (string * Operation)) (R : gset string) : gset string :=
  foldl (λ retained (kv : string * Operation),
           if keep_root now kv.2 then mark_ancestors (S (S (size ops))) ops retained kv.1 else retained) R l.

Lemma mark_all_spec l R :
  pending "" R →
  pending "" (mark_all l R) ∧ R ⊆ mark_all l R ∧
  (∀ k o, (k, o) ∈ l → keep_root now o = true → k ≠ "" → k ∈ mark_all l R) ∧
  (∀ k, k ∈ mark_all l R → k ∈ R ∨
     ∃ id o, (id, o) ∈ l ∧ keep_root now o = true ∧ id ≠ "" ∧ rtc parent_of id k).
Proof.
  revert R. induction l as [|[id o] l IH]; intros R Hp; simpl.
  { split_and!; auto. intros ? ? Hin. by apply elem_of_nil in Hin. }
  destruct (keep_root now o) eqn:Hk.
  - destruct (mark_ancestors_closed (S (S (size ops))) R id) as [Hc Hid].
    { assert (size (dom ops ∖ R) ≤ size (dom ops))%nat by (apply subseteq_size; set_solver).
      rewrite size_dom in *. lia. }
    { intros a b Ha Hab. destruct (Hp a b Ha Hab) as [?| ->]; [auto|]. by destruct Hab. }
    destruct (IH _ Hc) as (Hcl & Hsub & Hroot & Hs). split_and!; [done| | |].
    + etrans; [apply mark_ancestors_mono|exact Hsub].
    + intros k o' [[= -> ->]|Hin]%elem_of_cons ? Hne; [|eauto].
      destruct Hid as [->|Hid]; [done|by apply Hsub].
    + intros k Hin. destruct (Hs k Hin) as [Hin'|(i & o' & ? & ? & ? & ?)].
      * apply mark_ancestors_sound in Hin' as [?|[? ?]]; [auto|].
        right. exists id, o. split_and!; [constructor|done..].
      * right. exists i, o'. split_and!; [by constructor|done..].
  - destruct (IH _ Hp) as (Hcl & Hsub & Hroot & Hs). split_and!; [done..| |].
    + intros k o' [[= -> ->]|Hin]%elem_of_cons ? ?; [congruence|eauto].
    + intros k Hin. destruct (Hs k Hin) as [?|(i & o' & ? & ? & ? & ?)]; [auto|].
      right. exists i, o'. split_and!; [by constructor|done..].
Qed.

Lemma retained_spec k :
  k ∈ retained_ids now ops ↔
  ∃ id o, ops !! id = Some o ∧ keep_root now o = true ∧ id ≠ "" ∧ rtc parent_of id k.
Proof.
  destruct (mark_all_spec (map_to_list ops) ∅) as (Hcl & _ & Hroot & Hs).
  { intros a b Ha. set_solver. }
  change (retained_ids now ops) with (mark_all (map_to_list ops) ∅). split.
  - intros [?|(id & o' & Hin & ?)]%Hs; [set_solver|].
    apply elem_of_map_to_list in Hin. eauto.
  - intros (id & o' & Ho' & Hk & Hid & Hr).
    assert (id ∈ mark_all (map_to_list ops) ∅) as Hin.
    { eapply Hroot; [|done..]. by apply elem_of_map_to_list. }
    clear -Hr Hin Hcl. induction Hr as [|a b c Hab Hbc IH]; [done|].
    apply IH. destruct (Hcl a b Hin Hab) as [?| ->]; [done|]. by destruct Hab.
Qed.

(** A record is kept for its own sake, or as an ancestor of a record kept so. *)
Definition kept (k : string) (o : Operation) : Prop :=
  keep_root now o = true ∨ k ∈ retained_ids now ops.

Lemma kept_parent k o p o' :
  ops !! "" = None → ops !! k = Some o → kept k o → parent_of k p → ops !! p = Some o' → kept p o'.
Proof.
  intros Hempty Ho Hk Hp Ho'. right. destruct Hk as [Hk|Hk].
  - apply retained_spec. exists k, o. split_and!; [done..|congruence|by apply rtc_once].
  - apply retained_spec in Hk as (id & oi & ? & ? & ? & ?).
    apply retained_spec. exists id, oi. split_and!; [done..|]. by eapply rtc_r.
Qed.
End Retention.

Lemma prune_Operations_lookup now v k o :
  s_Operations (prune now v) !! k = Some o ↔
  s_Operations v !! k = Some o ∧ kept now (s_Operations v) k o.
Proof.
  unfold prune, kept, keep_root. simpl. rewrite map_lookup_filter_Some. simpl.
  rewrite Z.gtb_ltb, Z.ltb_antisym, !orb_true_iff, !negb_true_iff.
  split; intros [Hl Hk]; split; try done.
  - destruct (decide (k ∈ retained_ids now (s_Operations v))); [auto|left].
    destruct (Terminal (op_State o)), (op_RecoveryRequired o), (_ <=? _) eqn:?; auto.
    exfalso. by apply Hk.
  - intros (Hn & Ht & Hr & Hle). destruct Hk as [[[?|?]|?]|?]; try congruence.
Qed.

Lemma prune_Operations_subseteq now v : s_Operations (prune now v) ⊆ s_Operations v.
Proof. apply map_subseteq_spec. intros k o [? _]%prune_Operations_lookup. done. Qed.

(** Links of a smaller journal are links of the larger one. *)
Lemma root_path_mono (links links' : gmap string RecoveryLink) n id r :
  links' ⊆ links → root_path links' n id r → root_path links n id r.
Proof. intros Hsub. induction 1; econstructor; eauto using lookup_weaken. Qed.

Lemma prune_root_path now v n k r :
  s_Operations v !! "" = None →
  root_path (operationLinks (s_Operations v)) n k r →
  k ∈ dom (s_Operations (prune now v)) →
  root_path (operationLinks (s_Operations (prune now v))) n k r.
Proof.
  intros Hempty Hp. induction Hp as [id l Hl Ht Hn|n id l p r Hl Ht Hn Ha Hp Hh Ht' Hr IH];
    intros [o Ho]%elem_of_dom; pose proof Ho as [Ho' Hkept]%prune_Operations_lookup;
    unfold operationLinks in Hl; rewrite lookup_fmap, Ho' in Hl; injection Hl as <-.
  - eapply root_here; [unfold operationLinks; by rewrite lookup_fmap, Ho|done..].
  - unfold operationLinks in Hp. rewrite lookup_fmap in Hp.
    destruct (s_Operations v !! rl_Parent (op_link o)) as [op|] eqn:Hop; [|done].
    injection Hp as <-.
    assert (s_Operations (prune now v) !! rl_Parent (op_link o) = Some op) as Hpar.
    { apply prune_Operations_lookup. split; [done|].
      eapply kept_parent; [done|exact Ho'|done| |done]. split; [done|eauto]. }
    eapply root_step; [by unfold operationLinks; rewrite lookup_fmap, Ho|done..| | | |].
    + by unfold operationLinks; rewrite lookup_fmap, Hpar.
    + done.
    + done.
    + apply IH. apply elem_of_dom. eauto.
Qed.

Lemma prune_Idempotency now v k i :
  s_Idempotency (prune now v) !! k = Some i →
  s_Idempotency v !! k = Some i ∧ is_Some (s_Operations (prune now v) !! id_OperationID i).
Proof. intros [? ?]%map_lookup_filter_Some. done. Qed.

Lemma prune_Idempotency_keep now v k i :
  s_Idempotency v !! k = Some i → is_Some (s_Operations (prune now v) !! id_OperationID i) →
  s_Idempotency (prune now v) !! k = Some i.
Proof. intros. by apply map_lookup_filter_Some. Qed.

(** ** Transactions *)

Section Transaction.
Context `{Encoding} {A : Type}.
Implicit Types (s : Store) (fn : clock → State → result (State * A)).

(** The snapshot a transaction commits. *)
Definition committed (clk : clock) (v : State) : State :=
  let v := prune (clk 1%nat) v in set_s_Revision (incu64 (s_Revision v)) v.

Lemma Update_ok clk w fn s s' a :
  Update clk w fn s = (s', Ok a) →
  st_poisoned s = false ∧ ∃ v, fn (λ i, clk (2 + i)%nat) (prune (clk 0%nat) (st_state s)) = Ok (v, a) ∧
    s' = mkStore (committed clk v) false (committed clk v).
Proof.
  unfold Update, persist. destruct (st_poisoned s); [done|]. intros Hu. split; [done|].
  destruct (fn _ _) as [[v b]|e]; [|done]. exists v.
  destruct (encoded_len _); [|done]. destruct (_ >? _); [done|]. destruct w; simplify_eq. done.
Qed.

Lemma Update_err clk w fn s s' e :
  Update clk w fn s = (s', Err e) →
  st_state s' = st_state s ∧ (s' = s ∨ (st_poisoned s' = true ∧ st_poisoned s = false ∧
    ∃ v a, fn (λ i, clk (2 + i)%nat) (prune (clk 0%nat) (st_state s)) = Ok (v, a) ∧
      (st_file s' = st_file s ∨ st_file s' = committed clk v))).
Proof.
  unfold Update, persist. destruct (st_poisoned s) eqn:Hp; [intros [= <- _]; auto|].
  destruct (fn _ _) as [[v b]|e']; [|intros [= <- _]; auto].
  destruct (encoded_len _); [destruct (_ >? _); [|destruct w as [|[]]]|]; intros [= <- _]; simpl;
    (split; [done|right]); eauto 10.
Qed.

Lemma Update_fail clk w fn s e :
  st_poisoned s = false → fn (λ i, clk (2 + i)%nat) (prune (clk 0%nat) (st_state s)) = Err e →
  Update clk w fn s = (s, Err e).
Proof. unfold Update. by intros -> ->. Qed.

Lemma Update_run clk w fn s v a :
  st_poisoned s = false → fn (λ i, clk (2 + i)%nat) (prune (clk 0%nat) (st_state s)) = Ok (v, a) →
  Update clk w fn s = (mkStore (committed clk v) false (committed clk v), Ok a) ∨
  ∃ file m, Update clk w fn s = (mkStore (st_state s) true file, Err (Failure "storage_unavailable" m)).
Proof.
  unfold Update. intros -> ->. fold (committed clk v). unfold persist.
  destruct (encoded_len _); [destruct (_ >? _); [|destruct w as [|[]]]|]; eauto.
Qed.

(** A healthy transaction whose snapshot fits is committed when the write succeeds. *)
Lemma Update_commit clk fn s v a n :
  st_poisoned s = false → fn (λ i, clk (2 + i)%nat) (prune (clk 0%nat) (st_state s)) = Ok (v, a) →
  encoded_len (committed clk v) = Some n → n ≤ MaxBytes →
  Update clk Written fn s = (mkStore (committed clk v) false (committed clk v), Ok a).
Proof.
  unfold Update. intros -> ->. fold (committed clk v). unfold persist. intros -> Hn.
  rewrite Z.gtb_ltb. by apply Z.ltb_ge in Hn as ->.
Qed.

(** The in-memory state is what the file holds, until a write fails. *)
Definition coherent s : Prop := st_poisoned s = false → st_file s = st_state s.

Lemma Update_coherent clk w fn s : coherent s → coherent (Update clk w fn s).1.
Proof.
  intros Hc. destruct (Update clk w fn s) as [s' [a|e]] eqn:Hu; simpl.
  - apply Update_ok in Hu as (_ & v & _ & ->). done.
  - apply Update_err in Hu as (Hs & [->|(Hp & _)]); [done|]. unfold coherent. by rewrite Hp.
Qed.
End Transaction.

(** Structural invariants every committed snapshot satisfies. *)
Record bounded (v : State) : Prop := {
  bd_audit : (length (s_Audit v) ≤ 2000)%nat;
  bd_idem : ∀ k i, s_Idempotency v !! k = Some i → is_Some (s_Operations v !! id_OperationID i) }.

Lemma prune_bounded now v : bounded (prune now v).
Proof.
  split.
  - change (s_Audit (prune now v)) with (keep_last 2000 (s_Audit v)). rewrite length_keep_last. lia.
  - intros k i [_ ?]%prune_Idempotency. done.
Qed.

Lemma committed_bounded clk v : bounded (committed clk v).
Proof. destruct (prune_bounded (clk 1%nat) v). by split. Qed.

(** ** Properties *)

(** Retention keeps exactly the records that are unfinished, uncertain or at most
    thirty days old, and the recovery ancestors of those: a pruned record is
    terminal, certain, expired and no retained record's recovery chain passes
    through it. *)
Theorem prune_retention now v k o :
  s_Operations (prune now v) !! k = Some o ↔
  s_Operations v !! k = Some o ∧
  (Terminal (op_State o) = false ∨ op_RecoveryRequired o = true ∨
   time_sub now (op_UpdatedAt o) ≤ 30 * 24 * Hour ∨
   ∃ id o', s_Operations v !! id = Some o' ∧ keep_root now o' = true ∧ id ≠ "" ∧
     rtc (parent_of (s_Operations v)) id k).
Proof.
  rewrite prune_Operations_lookup. unfold kept. rewrite retained_spec.
  unfold keep_root at 1. rewrite !orb_true_iff, negb_true_iff, Z.leb_le. naive_solver.
Qed.

(** Pruning never changes the recovery linkage of a record it keeps: the root of
    every retained record is found exactly when it was found before, and is the same
    record. *)
Theorem prune_preserves_roots now v k r :
  s_Operations v !! "" = None →
  is_Some (s_Operations (prune now v) !! k) →
  RecoveryRoot (operationLinks (s_Operations (prune now v))) k = Ok r ↔
  RecoveryRoot (operationLinks (s_Operations v)) k = Ok r.
Proof.
  intros Hempty Hk. rewrite !RecoveryRoot_path. split; intros [n Hp]; exists n.
  - eapply root_path_mono; [|done]. apply map_fmap_mono, prune_Operations_subseteq.
  - apply prune_root_path; [done..|]. by apply elem_of_dom.
Qed.

(** C38: A transaction is atomic. On success the state, the file and the result are
    those of the closure run on the pruned snapshot, with audit and idempotency
    bounds restored. On any error the in-memory state is untouched, and either the
    whole store is untouched or the store is poisoned with a file holding the old or
    the complete new snapshot. A poisoned store refuses every mutation. *)
Theorem Update_atomic `{Encoding} {A} clk w (fn : clock → State → result (State * A)) s s' r :
  coherent s → Update clk w fn s = (s', r) →
  coherent s' ∧
  match r with
  | Ok a => st_poisoned s = false ∧ st_poisoned s' = false ∧ bounded (st_state s') ∧
      ∃ v, fn (λ i, clk (2 + i)%nat) (prune (clk 0%nat) (st_state s)) = Ok (v, a) ∧
           st_state s' = committed clk v ∧ st_file s' = committed clk v
  | Err e => st_state s' = st_state s ∧
      (s' = s ∨ st_poisoned s' = true ∧
        (st_file s' = st_state s ∨ ∃ v a, fn (λ i, clk (2 + i)%nat) (prune (clk 0%nat) (st_state s)) = Ok (v, a)
           ∧ st_file s' = committed clk v)) ∧
      (st_poisoned s = true → s' = s)
  end.
Proof.
  intros Hc Hu. split.
  { pose proof (Update_coherent clk w fn s Hc) as Hc'. by rewrite Hu in Hc'. }
  destruct r as [a|e].
  - apply Update_ok in Hu as (Hp & v & Hv & ->). split_and!; eauto using committed_bounded.
  - pose proof Hu as (Hs & [->|(Hp & Hps & v & a & Hf & Hd)])%Update_err; [by auto|].
    split_and!; [done| |congruence]. right. split; [done|].
    destruct Hd as [Hd|Hd]; [left; rewrite Hd; auto|right; eauto].
Qed.

Lemma oldest_queued_spec l next :
  (∀ n, next = Some n → op_State n = "queued") →
  match oldest_queued l next with
  | None => next = None ∧ (∀ o, o ∈ l → op_State o ≠ "queued")
  | Some n => op_State n = "queued" ∧ (n ∈ l ∨ next = Some n) ∧
      (∀ o, o ∈ l ∨ next = Some o → op_State o = "queued" → op_CreatedAt n ≤ op_CreatedAt o)
  end.
Proof.
  revert next. induction l as [|o l IH]; intros next Hn; simpl.
  - destruct next as [n|]; [|split; [done|intros ? Hin; by apply elem_of_nil in Hin]].
    split_and!; [by apply Hn|auto|]. intros o [Ho|[= ->]] _; [by apply elem_of_nil in Ho|done].
  - destruct (_ && _) eqn:Hb.
    + apply andb_true_iff in Hb as [Hq%String.eqb_eq Hb].
      specialize (IH (Some o)). destruct (oldest_queued l (Some o)) as [n|].
      * destruct IH as (? & Hin & Hmin); [by intros ? [= <-]|]. split_and!; [done| |].
        { destruct Hin as [?|[= ->]]; left; [by constructor|constructor]. }
        intros o' [[->|Hin']%elem_of_cons| ->] Hq'; [apply Hmin; auto..|].
        unfold before in Hb. apply Z.ltb_lt in Hb.
        specialize (Hmin o (or_intror eq_refl) Hq). lia.
      * destruct IH as [? _]; [by intros ? [= <-]|done].
    + specialize (IH next Hn). destruct (oldest_queued l next) as [n|] eqn:Hres.
      * destruct IH as (? & Hin & Hmin). split_and!; [done| |].
        { destruct Hin; [left; by constructor|auto]. }
        intros o' [[->|Hin']%elem_of_cons| ->] Hq'; [|apply Hmin; auto..].
        rewrite Hq', eqb_str_refl in Hb. destruct next as [n'|]; [|done]. unfold before in Hb.
        apply Z.ltb_ge in Hb. specialize (Hmin n' (or_intror eq_refl) (Hn _ eq_refl)). lia.
      * destruct IH as [-> Hall]. split; [done|].
        intros o' [->|Hin]%elem_of_cons; [|by apply Hall]. rewrite andb_true_r in Hb. by apply String.eqb_neq.
Qed.

Lemma elem_of_operations (ops : gmap string Operation) (o : Operation) :
  o ∈ (map_to_list ops).*2 ↔ ∃ k, ops !! k = Some o.
Proof.
  rewrite list_elem_of_fmap. split.
  - intros ([k o'] & -> & Hin%elem_of_map_to_list). eauto.
  - intros [k Hk]. exists (k, o). split; [done|]. by apply elem_of_map_to_list.
Qed.

Lemma OldestQueuedOperation_queued s op :
  OldestQueuedOperation s = Some op → ∃ k, s_Operations (st_state s) !! k = Some op.
Proof.
  unfold OldestQueuedOperation. intros Hq.
  pose proof (oldest_queued_spec ((map_to_list (s_Operations (st_state s))).*2) None) as Hs.
  rewrite Hq in Hs. destruct Hs as (_ & [Hin|?] & _); [done| |done]. by apply elem_of_operations.
Qed.

(** The queue is served oldest first: [OldestQueuedOperation] returns a queued
    record no queued record precedes, and nothing only when no record is queued. *)
Theorem OldestQueuedOperation_fifo s :
  match OldestQueuedOperation s with
  | Some n => op_State n = "queued" ∧ (∃ k, s_Operations (st_state s) !! k = Some n) ∧
      ∀ k o, s_Operations (st_state s) !! k = Some o → op_State o = "queued" →
        op_CreatedAt n ≤ op_CreatedAt o
  | None => ∀ k o, s_Operations (st_state s) !! k = Some o → op_State o ≠ "queued"
  end.
Proof.
  pose proof (oldest_queued_spec ((map_to_list (s_Operations (st_state s))).*2) None) as Hs.
  unfold OldestQueuedOperation. destruct (oldest_queued _ None) as [n|].
  - destruct Hs as (? & [Hin|?] & Hmin); [done| |done]. rewrite elem_of_operations in Hin.
    split_and!; [done..|]. intros k o Ho. apply Hmin. left. apply elem_of_operations. eauto.
  - destruct Hs as [_ Hs]; [done|]. intros k o Ho. apply Hs, elem_of_operations. eauto.
Qed.

(** Projections of a pruned snapshot; from here on [prune] is reasoned about by lemmas. *)
Lemma prune_Credentials now v : s_Credentials (prune now v) = s_Credentials v.
Proof. done. Qed.

Lemma committed_Credentials clk v : s_Credentials (committed clk v) = s_Credentials v.
Proof. done. Qed.

Lemma prune_Sessions now v k se :
  s_Sessions (prune now v) !! k = Some se ↔ s_Sessions v !! k = Some se ∧ now ≤ se_ExpiresAt se.
Proof.
  change (s_Sessions (prune now v)) with
    (filter (λ kv : string * Session, after now (se_ExpiresAt kv.2) = false) (s_Sessions v)).
  rewrite map_lookup_filter_Some. simpl. unfold after. by rewrite Z.ltb_ge.
Qed.

Lemma committed_Sessions clk v k se :
  s_Sessions (committed clk v) !! k = Some se ↔ s_Sessions v !! k = Some se ∧ clk 1%nat ≤ se_ExpiresAt se.
Proof. apply prune_Sessions. Qed.

Lemma prune_Plans now v k p :
  s_Plans (prune now v) !! k = Some p ↔ s_Plans v !! k = Some p ∧ now ≤ pl_ExpiresAt p + Hour.
Proof.
  change (s_Plans (prune now v)) with
    (filter (λ kv : string * Plan, after now (pl_ExpiresAt kv.2 + Hour) = false) (s_Plans v)).
  rewrite map_lookup_filter_Some. simpl. unfold after. by rewrite Z.ltb_ge.
Qed.

Lemma committed_Operations clk v : s_Operations (committed clk v) = s_Operations (prune (clk 1%nat) v).
Proof. done. Qed.

Lemma committed_Plans clk v : s_Plans (committed clk v) = s_Plans (prune (clk 1%nat) v).
Proof. done. Qed.

Lemma committed_Idempotency clk v : s_Idempotency (committed clk v) = s_Idempotency (prune (clk 1%nat) v).
Proof. done. Qed.

#[global] Opaque prune committed.

(** ** Examples *)

Module StoreFixture.
Definition small_encoding : Encoding := λ _, Some 4096.
Definition draft (action parent : string) : Draft :=
  mkDraft action "ws" "rev" "" "" "" parent None None None None None.
Definition plan (d : Draft) : Plan := mkPlan "p" "u" d Configuration0 Preview0 0 (10 * Minute) "".
(** A record with the given action, recovery parent, state and age. *)
Definition record (id action parent state : string) (uncertain : bool) (updated : time) : Operation :=
  mkOperation id "u" (plan (draft action parent)) state "" "" 1 0 updated
    false false false uncertain false [] [].
(** An expired failed switch ["a"], resolved, whose restore ["b"] is uncertain, and an
    expired success ["c"]. *)
Definition state : State := set_s_Operations (list_to_map [
  ("a", record "a" "profile.switch" "" "failed" false 0);
  ("b", record "b" "profile.restore" "a" "recovery-required" true 0);
  ("c", record "c" "serving.stop" "" "succeeded" false 0)]) (NewState "live").
Definition store : Store := mkStore state false state.
Definition late : time := 60 * 24 * Hour.
Definition touch (clk : clock) (v : State) : result (State * unit) :=
  Ok (Event (clk 0%nat) "u" "touch" "x" "ok" v, tt).
End StoreFixture.

Lemma prune_preserves_roots_witness :
  (RecoveryRoot (operationLinks (s_Operations (prune StoreFixture.late StoreFixture.state))) "b" = Ok "a" ↔
   RecoveryRoot (operationLinks (s_Operations StoreFixture.state)) "b" = Ok "a") ∧
  s_Operations (prune StoreFixture.late StoreFixture.state) !! "c" = None.
Proof.
  split; [|vm_compute; reflexivity].
  apply (prune_preserves_roots StoreFixture.late StoreFixture.state "b" "a").
  - vm_compute. reflexivity.
  - eexists. vm_compute. reflexivity.
Defined.

Lemma Update_atomic_witness :
  let enc := StoreFixture.small_encoding in
  coherent (Update (λ _, 0) (WriteFailed true) StoreFixture.touch StoreFixture.store).1.
Proof.
  intros enc.
  apply (Update_atomic (λ _, 0) (WriteFailed true) StoreFixture.touch StoreFixture.store
    (Update (λ _, 0) (WriteFailed true) StoreFixture.touch StoreFixture.store).1
    (Update (λ _, 0) (WriteFailed true) StoreFixture.touch StoreFixture.store).2).
  - intros _. reflexivity.
  - apply surjective_pairing.
Defined.
