(* ===== verification/Window.v ===== *)
(** Memory telemetry windows ([internal/memory/window.go]): what the planner reads from the
    counters of a pod's cgroup while it serves, and what an accepted window proves.

    One scanned line is the sample [encoding/json] reads from it ([None]: it does not
    decode); the scanner's own error is an argument. *)
From S2P Require Import Prelude Json Types.
From Stdlib Require Import SpecFloat.
#[local] Open Scope Z_scope.

(** ** Counters *)

(** [strings.TrimSpace] and the lines of a text. *)
Definition text_lines (s : string) : list string := split_on newline (TrimSpace s).

(** A nonnegative decimal counter. *)
Definition parse_counter (s : string) : option Z :=
  match ParseInt s with Some n => if n <? 0 then None else Some n | None => None end.

Fixpoint counters_from (lines : list string) (out : gmap string Z) : option (gmap string Z) :=
  match lines with
  | [] => Some out
  | line :: lines =>
    match fields line with
    | [k; v] =>
      if is_some (out !! k) then None
      else match parse_counter v with Some n => counters_from lines (<[k := n]> out) | None => None end
    | _ => None
    end
  end.
Definition counters (s : string) : option (gmap string Z) := counters_from (text_lines s) ∅.

(** The [total=] field of one pressure line: exactly one, nonnegative. *)
Fixpoint psi_total (l : list string) (found : option Z) : option (option Z) :=
  match l with
  | [] => Some found
  | f :: l =>
    if has_prefix f "total=" then
      match parse_counter (trim_prefix f "total="), found with
      | Some n, None => psi_total l (Some n)
      | _, _ => None
      end
    else psi_total l found
  end.
Fixpoint psi_lines (lines : list string) (out : gmap string Z) : option (gmap string Z) :=
  match lines with
  | [] => Some out
  | line :: lines =>
    match fields line with
    | scope :: f :: l =>
      if is_some (out !! scope) then None
      else match psi_total (f :: l) None with
           | Some (Some n) => psi_lines lines (<[scope := n]> out)
           | _ => None
           end
    | _ => None
    end
  end.
Definition parsePSI (s : string) : option (gmap string Z) :=
  match psi_lines (text_lines s) ∅ with
  | Some out => if is_some (out !! "some") && is_some (out !! "full") && Nat.eqb (size out) 2 then Some out else None
  | None => None
  end.

(** The lines of [/proc/meminfo] the planner needs; others are ignored. *)
Fixpoint host_memory (lines : list string) (host : gmap string Z) : option (gmap string Z) :=
  match lines with
  | [] => Some host
  | line :: lines =>
    match fields line with
    | [] => host_memory lines host
    | k :: rest =>
      if str_in k ["MemTotal:"; "MemAvailable:"; "SwapTotal:"] then
        match rest with
        | [v; unit] =>
          if unit <>s "kB" then None
          else match parse_counter v with
               | Some n => if is_some (host !! k) then None else host_memory lines (<[k := n]> host)
               | None => None
               end
        | _ => None
        end
      else host_memory lines host
    end
  end.

(** ** One sample *)

Record Sample := mkSample {
  sm_Mono : Z;
  sm_Unix : Z;
  sm_Host : string;
  sm_ID : string;
  sm_Path : string;
  sm_Values : gmap string string }.

(** What a sample contributes once it passed the checks that concern it alone. *)
Record Reading := mkReading {
  rd_Mono : Z;
  rd_Unix : Z;
  rd_ID : string;
  rd_Path : string;
  rd_Current : Z;
  rd_Peak : Z;
  rd_Stat : gmap string Z;
  rd_PSI : gmap string Z;
  rd_Available : Z }.

(** A missing key of a Go map reads as zero. *)
Definition at0 (m : gmap string Z) (k : string) : Z := default 0 (m !! k).

Definition read_value (s : Sample) (k : string) : option Z := parse_counter (default "" (sm_Values s !! k)).

Definition zero_event (m : gmap string Z) (k : string) : bool := match m !! k with Some n => n =? 0 | None => false end.

Definition read_sample (limit total : Z) (s : option Sample) : option Reading :=
  s ← s;
  if (sm_Mono s <=? 0) || (sm_Unix s <=? 0) || (sm_ID s =s "") || (sm_Path s =s "") then None else
  current ← read_value s "memory.current";
  peak ← read_value s "memory.peak";
  maximum ← read_value s "memory.max";
  if negb (maximum =? shl64 limit 20) || (current <=? 0) || (current >? peak) || (peak >? maximum) then None else
  swap ← read_value s "memory.swap.current";
  if negb (swap =? 0) then None else
  stat ← counters (default "" (sm_Values s !! "memory.stat"));
  if negb (forallb (λ k, is_some (stat !! k)) ["anon"; "file"; "shmem"]) then None else
  if (at0 stat "shmem" >? at0 stat "file") || (at0 stat "shmem" >? current) then None else
  events ← counters (default "" (sm_Values s !! "memory.events"));
  if negb (forallb (zero_event events) ["high"; "max"; "oom"; "oom_kill"]) then None else
  pressure ← parsePSI (default "" (sm_Values s !! "memory.pressure"));
  host ← host_memory (split_on newline (sm_Host s)) ∅;
  if negb (Nat.eqb (size host) 3) || negb (at0 host "MemTotal:" / 1024 =? total) || negb (at0 host "SwapTotal:" =? 0) then None else
  Some (mkReading (sm_Mono s) (sm_Unix s) (sm_ID s) (sm_Path s) current peak stat pressure (mul64 (at0 host "MemAvailable:") 1024)).

(** ** The window *)

Record Window := mkWindow {
  wn_Samples : Z;
  wn_Duration : float64;
  wn_CgroupID : string;
  wn_FirstMono : Z;
  wn_LastMono : Z;
  wn_Path : string;
  wn_FirstUnix : Z;
  wn_LastUnix : Z;
  wn_Sampled : Z;
  wn_Peak : Z;
  wn_Stat : gmap string Z;
  wn_Available : Z;
  wn_Envelope : Z }.

(** The window under construction with [psi], [lastMono], [lastUnix], [lastPeak]. *)
Record Scan := mkScan { sc_w : Window; sc_psi : gmap string Z; sc_mono : Z; sc_unix : Z; sc_peak : Z }.

Definition Window0 : Window := mkWindow 0 f0 "" 0 0 "" 0 0 0 0 ∅ 0 0.
Definition Scan0 : Scan := mkScan Window0 ∅ 0 0 0.

Definition stat_keys : list string := ["anon"; "file"; "shmem"].
Definition max_stat (stat : gmap string Z) (m : gmap string Z) (k : string) : gmap string Z := <[k := Z.max (at0 m k) (at0 stat k)]> m.

Definition observe_step (st : Scan) (r : Reading) : option Scan :=
  let w := sc_w st in
  '(w, psi) ← (if wn_Samples w =? 0 then
      Some (mkWindow 0 f0 (rd_ID r) (rd_Mono r) (wn_LastMono w) (rd_Path r) (rd_Unix r) (wn_LastUnix w)
              (wn_Sampled w) (wn_Peak w) (wn_Stat w) (rd_Available r) (wn_Envelope w), rd_PSI r)
    else if (wn_CgroupID w <>s rd_ID r) || (wn_Path w <>s rd_Path r) || (rd_Mono r <=? sc_mono st)
            || (sub64 (rd_Mono r) (sc_mono st) >? 30000000000) || (rd_Unix r <=? sc_unix st) || (rd_Peak r <? sc_peak st)
            || negb (at0 (rd_PSI r) "some" =? at0 (sc_psi st) "some") || negb (at0 (rd_PSI r) "full" =? at0 (sc_psi st) "full")
    then None
    else Some (w, sc_psi st));
  if wn_Samples w + 1 >? 100000 then None else
  Some (mkScan
    (mkWindow (wn_Samples w + 1) f0 (wn_CgroupID w) (wn_FirstMono w) (wn_LastMono w) (wn_Path w) (wn_FirstUnix w) (wn_LastUnix w)
       (Z.max (wn_Sampled w) (rd_Current r)) (Z.max (wn_Peak w) (rd_Peak r)) (foldl (max_stat (rd_Stat r)) (wn_Stat w) stat_keys)
       (Z.min (wn_Available w) (rd_Available r)) (wn_Envelope w))
    psi (rd_Mono r) (rd_Unix r) (rd_Peak r)).

Fixpoint observe_lines (limit total : Z) (lines : list (option Sample)) (st : Scan) : option Scan :=
  match lines with
  | [] => Some st
  | line :: lines => r ← read_sample limit total line; st ← observe_step st r; observe_lines limit total lines st
  end.

(** The division of two doubles. *)
Definition float_div (a b : float64) : float64 := SFdiv 53 1024 a b.

Definition observeWindow (lines : list (option Sample)) (scan_err : option error) (limit shm total : Z) : result Window :=
  let invalid := Err (Plain "invalid or incomplete memory telemetry window") in
  match observe_lines limit total lines Scan0 with
  | None => invalid
  | Some st =>
    match scan_err with
    | Some e => Err e
    | None =>
      let w := sc_w st in
      if wn_Samples w <? 2 then invalid else
      Ok (mkWindow (wn_Samples w) (float_div (float_of (sub64 (sc_mono st) (wn_FirstMono w))) (float_of 1000000000))
            (wn_CgroupID w) (wn_FirstMono w) (sc_mono st) (wn_Path w) (wn_FirstUnix w) (sc_unix st)
            (wn_Sampled w) (wn_Peak w) (wn_Stat w) (wn_Available w) (add64 (wn_Peak w) (shl64 shm 20)))
    end
  end.

(** ** What an accepted window is *)

(** One reading after another in the window that began with [r0]. *)
Record follows (r0 r r' : Reading) : Prop := {
  fo_ID : rd_ID r' = rd_ID r0;
  fo_Path : rd_Path r' = rd_Path r0;
  fo_Mono : rd_Mono r < rd_Mono r';
  fo_gap : sub64 (rd_Mono r') (rd_Mono r) ≤ 30000000000;
  fo_Unix : rd_Unix r < rd_Unix r';
  fo_Peak : rd_Peak r ≤ rd_Peak r';
  fo_some : at0 (rd_PSI r') "some" = at0 (rd_PSI r0) "some";
  fo_full : at0 (rd_PSI r') "full" = at0 (rd_PSI r0) "full" }.
Fixpoint chained (r0 r : Reading) (rs : list Reading) : Prop :=
  match rs with [] => True | r' :: rs => follows r0 r r' ∧ chained r0 r' rs end.

Definition final (r0 : Reading) (rs : list Reading) : Reading := default r0 (last rs).
Definition greatest (f : Reading → Z) (rs : list Reading) : Z := foldl (λ m r, Z.max m (f r)) 0 rs.
Definition least (f : Reading → Z) (r0 : Reading) (rs : list Reading) : Z := foldl (λ m r, Z.min m (f r)) (f r0) rs.
Definition stat_of (rs : list Reading) : gmap string Z :=
  <["shmem" := greatest (λ r, at0 (rd_Stat r) "shmem") rs]> (<["file" := greatest (λ r, at0 (rd_Stat r) "file") rs]>
    {["anon" := greatest (λ r, at0 (rd_Stat r) "anon") rs]}).

(** The window of a chain of readings, from the maxima and minima over it. *)
Definition window_of (shm : Z) (r0 : Reading) (rs : list Reading) : Window :=
  let all := r0 :: rs in let l := final r0 rs in
  mkWindow (Z.of_nat (length all)) (float_div (float_of (sub64 (rd_Mono l) (rd_Mono r0))) (float_of 1000000000))
    (rd_ID r0) (rd_Mono r0) (rd_Mono l) (rd_Path r0) (rd_Unix r0) (rd_Unix l)
    (greatest rd_Current all) (greatest rd_Peak all) (stat_of all) (least rd_Available r0 rs)
    (add64 (greatest rd_Peak all) (shl64 shm 20)).

Definition scan_of (r0 : Reading) (rs : list Reading) : Scan :=
  let all := r0 :: rs in let l := final r0 rs in
  mkScan (mkWindow (Z.of_nat (length all)) f0 (rd_ID r0) (rd_Mono r0) 0 (rd_Path r0) (rd_Unix r0) 0
            (greatest rd_Current all) (greatest rd_Peak all) (stat_of all) (least rd_Available r0 rs) 0)
    (rd_PSI r0) (rd_Mono l) (rd_Unix l) (rd_Peak l).

Lemma greatest_snoc f rs r : greatest f (rs ++ [r]) = Z.max (greatest f rs) (f r).
Proof. unfold greatest. by rewrite foldl_app. Qed.
Lemma least_snoc f r0 rs r : least f r0 (rs ++ [r]) = Z.min (least f r0 rs) (f r).
Proof. unfold least. by rewrite foldl_app. Qed.
Lemma final_snoc r0 rs r : final r0 (rs ++ [r]) = r.
Proof. unfold final. by rewrite last_snoc. Qed.

Lemma stat_of_snoc rs r : stat_of (rs ++ [r]) = foldl (max_stat (rd_Stat r)) (stat_of rs) stat_keys.
Proof.
  unfold stat_of, max_stat, stat_keys, at0. rewrite !greatest_snoc. cbn [foldl].
  apply map_eq. intros k. repeat first [rewrite lookup_insert_eq | rewrite lookup_insert_ne by done | rewrite lookup_singleton_eq].
  simpl. destruct (decide (k = "shmem")) as [->|]; [by rewrite !lookup_insert_eq|].
  rewrite !(lookup_insert_ne _ "shmem") by done. destruct (decide (k = "file")) as [->|]; [by rewrite !lookup_insert_eq|].
  rewrite !(lookup_insert_ne _ "file") by done. destruct (decide (k = "anon")) as [->|]; [by rewrite lookup_insert_eq, lookup_singleton_eq|].
  rewrite (lookup_insert_ne _ "anon") by done. rewrite !lookup_singleton_ne by done.
  rewrite (lookup_insert_ne _ "shmem"), (lookup_insert_ne _ "file"), lookup_singleton_ne by done. done.
Qed.

Lemma observe_first r : observe_step Scan0 r = Some (scan_of r []).
Proof.
  unfold observe_step, scan_of. simpl. unfold greatest, least, final. simpl. rewrite Z.min_id. do 3 f_equal.
Qed.

Lemma observe_next r0 rs r st :
  observe_step (scan_of r0 rs) r = Some st ↔
  follows r0 (final r0 rs) r ∧ Z.of_nat (length rs) + 2 ≤ 100000 ∧ st = scan_of r0 (rs ++ [r]).
Proof.
  assert (scan_of r0 (rs ++ [r]) = mkScan
    (mkWindow (Z.of_nat (length rs) + 2) f0 (rd_ID r0) (rd_Mono r0) 0 (rd_Path r0) (rd_Unix r0) 0
       (Z.max (greatest rd_Current (r0 :: rs)) (rd_Current r)) (Z.max (greatest rd_Peak (r0 :: rs)) (rd_Peak r))
       (foldl (max_stat (rd_Stat r)) (stat_of (r0 :: rs)) stat_keys) (Z.min (least rd_Available r0 rs) (rd_Available r)) 0)
    (rd_PSI r0) (rd_Mono r) (rd_Unix r) (rd_Peak r)) as ->.
  { unfold scan_of. rewrite final_snoc, app_comm_cons, !greatest_snoc, least_snoc, stat_of_snoc.
    do 2 f_equal. rewrite length_app. simpl. lia. }
  unfold observe_step, scan_of. cbn [sc_w sc_psi sc_mono sc_unix sc_peak wn_Samples wn_CgroupID wn_Path wn_FirstMono wn_LastMono wn_FirstUnix wn_LastUnix wn_Sampled wn_Peak wn_Stat wn_Available wn_Envelope].
  set (l := final r0 rs). replace (Z.of_nat (length (r0 :: rs)) =? 0) with false by (symmetry; apply Z.eqb_neq; simpl; lia).
  destruct (_ || negb (at0 (rd_PSI r) "full" =? _)) eqn:Hf.
  - split; [done|]. intros ([? ? ? ? ? ? ? ?] & _). exfalso.
    repeat (apply orb_true_iff in Hf as [Hf|Hf]); bool_hyps; try congruence; lia.
  - bool_hyps. simpl. replace (Z.of_nat (S (length rs)) + 1) with (Z.of_nat (length rs) + 2) by lia.
    destruct (Z.of_nat (length rs) + 2 >? 100000) eqn:Hn; bool_hyps; split.
    + done.
    + intros (_ & ? & _). lia.
    + intros [= <-]. split_and!; [|lia|done]. split; try done; try lia; congruence.
    + intros (_ & _ & ->). done.
Qed.

(** The readings of a window that the scan accepts, and only those. *)
Lemma observe_lines_spec limit total lines r0 : ∀ rs st,
  observe_lines limit total lines (scan_of r0 rs) = Some st ↔
  ∃ rs', mapM (read_sample limit total) lines = Some rs' ∧ chained r0 (final r0 rs) rs' ∧
    (rs' ≠ [] → Z.of_nat (length rs) + Z.of_nat (length rs') < 100000) ∧ st = scan_of r0 (rs ++ rs').
Proof.
  induction lines as [|line lines IH]; intros rs st; cbn [observe_lines].
  - split.
    + intros [= <-]. exists []. split_and!; try done. by rewrite app_nil_r.
    + intros (rs' & [= <-] & _ & _ & ->). by rewrite app_nil_r.
  - cbn [mapM]. destruct (read_sample limit total line) as [r|]; simpl; [|by split; [|intros (? & ? & _)]].
    destruct (observe_step (scan_of r0 rs) r) as [st1|] eqn:Hs; simpl.
    + apply observe_next in Hs as (Hf & Hn & ->). rewrite IH, final_snoc. split.
      * intros (rs' & -> & Hc & Hl & ->). exists (r :: rs'). simpl. rewrite <- app_assoc. split_and!; try done.
        intros _. destruct rs'; [simpl; lia|]. specialize (Hl ltac:(done)). rewrite length_app in Hl. simpl in *. lia.
      * intros (rs' & Hm & Hc & Hl & ->). destruct (mapM _ lines) as [rs1|]; [|done]. injection Hm as <-. destruct Hc as [_ Hc].
        exists rs1. rewrite <- app_assoc. split_and!; try done. intros _. specialize (Hl ltac:(done)). rewrite length_app. simpl in *. lia.
    + split; [done|]. intros (rs' & Hm & Hc & Hl & ->). destruct (mapM _ lines) as [rs1|]; [|done]. injection Hm as <-.
      destruct Hc as [Hf _]. specialize (Hl ltac:(done)). simpl in Hl.
      assert (observe_step (scan_of r0 rs) r = Some (scan_of r0 (rs ++ [r]))) as Hs' by (apply observe_next; split_and!; [done|lia|done]).
      congruence.
Qed.

(** A telemetry window is accepted exactly when every line is a sample within the declared
    limits (no swap, no reclaim or out-of-memory event, current at most peak at most the
    limit), two to a hundred thousand samples of one cgroup follow each other at
    increasing times without a gap above thirty seconds, a falling peak or memory
    pressure; and its result is then the maxima and minima over all of them, with the
    full shared memory on top of the peak. *)
Theorem observeWindow_spec lines err limit shm total w :
  observeWindow lines err limit shm total = Ok w ↔
  err = None ∧ ∃ r0 rs, mapM (read_sample limit total) lines = Some (r0 :: rs) ∧ 1 ≤ Z.of_nat (length rs) < 100000 ∧
    chained r0 r0 rs ∧ w = window_of shm r0 rs.
Proof.
  unfold observeWindow. destruct lines as [|line lines].
  { simpl. destruct err; split; try done; intros (_ & r0 & rs & ? & _); done. }
  cbn [observe_lines mapM]. destruct (read_sample limit total line) as [r0|]; cbn [mbind option_bind]; [|split; [done|by intros (_ & ? & ? & ? & _)]].
  rewrite observe_first. cbn [mbind option_bind]. destruct (observe_lines limit total lines (scan_of r0 [])) as [st|] eqn:Ho.
  - apply observe_lines_spec in Ho as (rs & Hm & Hc & Hl & ->). rewrite Hm. cbn [mbind option_bind app] in *.
    destruct err as [e|]; [split; [done|intros Hx; by destruct Hx]|]. cbv zeta.
    change (wn_Samples (sc_w (scan_of r0 rs))) with (Z.of_nat (S (length rs))).
    destruct (Z.of_nat (S (length rs)) <? 2) eqn:Hn; bool_hyps; split; try done.
    + intros (_ & r1 & rs1 & [= -> ->] & ? & _). lia.
    + intros [= <-]. split; [done|]. exists r0, rs. split_and!; [done|lia| |done..].
      destruct rs; [simpl in *; lia|specialize (Hl ltac:(done)); simpl in *; lia].
    + intros (_ & r1 & rs1 & [= <- <-] & _ & _ & ->). done.
  - split; [done|]. intros (_ & r1 & rs1 & Hm & Hl & Hc & _). destruct (mapM _ lines) as [rs|] eqn:Hrs; [|done]. injection Hm as <- <-.
    assert (observe_lines limit total lines (scan_of r0 []) = Some (scan_of r0 rs)) as Hs; [|congruence].
    apply observe_lines_spec. exists rs. split_and!; try done. intros _. simpl. lia.
Qed.
