(* ===== verification/MemoryBundle.v ===== *)
(** The memory evidence bundle ([internal/memory/evidence.go], [telemetry.go], [output.go]):
    which trees of files are a sealed bundle, when it is complete, and the telemetry
    allowance it may declare.

    File contents reach the model as the answers of [Read], [HashFile] and the directory
    walk; [Sum] (hex SHA-256) is standard-library code and stays a parameter. *)
From S2P Require Import Prelude Json Types.
#[local] Open Scope Z_scope.

(** ** The manifest *)

Record Manifest := mkManifest {
  mf_Schema : Z;
  mf_Kind : string;
  mf_BootID : string;
  mf_HardwareSHA256 : string;
  mf_SourceRevision : string;
  mf_Observations : list string;
  mf_Files : gmap string string }.

Definition Digest : string → bool := hex_string 64.
Definition name_char (c : ascii) : bool := is_alnum c || Ascii.eqb c "-"%char.
Definition ObservationID : string → bool := headed_name name_char 0 39.
(** [^\[a-f0-9\]{8}(?:-\[a-f0-9\]{4}){3}-\[a-f0-9\]{12}$]. *)
Definition boot_id (s : string) : bool :=
  match split_on "-"%char s with
  | [a; b; c; d; e] => hex_string 8 a && hex_string 4 b && hex_string 4 c && hex_string 4 d && hex_string 12 e
  | _ => false
  end.

Definition ObservationFiles : list string :=
  ["startup/startup.json"; "startup/memory.jsonl"; "serving/result.json"; "serving/host-telemetry.jsonl";
   "serving/after/runtime.json"; "serving/after/pod.json"].
Definition BaselineFiles : list string := ["deployment.json"; "workload.json"; "resource-plan.json"].
Definition observation_file (id f : string) : string := "observations/" +:+ id +:+ "/" +:+ f.

(** A missing digest of a Go map reads as the empty string. *)
Definition file_digest (m : Manifest) (name : string) : string := default "" (mf_Files m !! name).

(** The loop over the observation identifiers. *)
Fixpoint allow_observations (ids : list string) (seen allowed : gset string) : result (gset string) :=
  match ids with
  | [] => Ok allowed
  | id :: ids =>
    reject negb (ObservationID id) || bool_decide (id ∈ seen) with Plain "invalid or duplicate observation ID" ;;
    allow_observations ids ({[id]} ∪ seen) (allowed ∪ list_to_set (observation_file id <$> ObservationFiles))
  end.
Definition baseline_allowed : gset string := list_to_set (BaselineFiles ++ ["telemetry/evidence.json"]).

(** The parent directories of a relative name. *)
Fixpoint prefixes (pre : string) (parts : list string) : list string :=
  match parts with
  | [] | [_] => []
  | d :: parts => let p := if pre =s "" then d else pre +:+ "/" +:+ d in p :: prefixes p parts
  end.
Definition parents (name : string) : list string := prefixes "" (split_on "/"%char name).
Definition bundle_dirs (m : Manifest) : gset string :=
  {["."]} ∪ list_to_set (flat_map (λ kv, parents kv.1) (map_to_list (mf_Files m))).

(** ** The tree *)

(** One entry the walk visits: [en_Hash] is what [HashFile] returned. *)
Record Entry := mkEntry {
  en_Path : string;
  en_Symlink : bool;
  en_Dir : bool;
  en_Hash : option (string * Z) }.

Definition MaxBundle : Z := 2^30.

Fixpoint walk_bundle (m : Manifest) (dirs : gset string) (l : list (option Entry)) (total count : Z) : result Z :=
  match l with
  | [] => Ok count
  | None :: _ => Err (Plain "walk")
  | Some e :: l =>
    reject en_Symlink e with Plain "memory evidence symlink refused" ;;
    if en_Dir e then
      reject negb (bool_decide (en_Path e ∈ dirs)) with Plain "unexpected memory evidence directory" ;;
      walk_bundle m dirs l total count
    else if en_Path e =s "manifest.json" then walk_bundle m dirs l total count
    else match mf_Files m !! en_Path e with
    | None => Err (Plain "unexpected memory evidence file")
    | Some want =>
      match en_Hash e with
      | None => Err (Plain "memory file exceeds bounds")
      | Some (got, n) =>
        reject total + n >? MaxBundle with Plain "memory evidence bundle exceeds 1 GiB" ;;
        reject got <>s want with Plain "memory evidence file hash changed" ;;
        walk_bundle m dirs l (total + n) (count + 1)
      end
    end
  end.

(** The file [manifest.json] as read: the digest of its bytes and what they decode to. *)
Definition Verify (manifest : result (string * result Manifest)) (entries : list (option Entry)) (want : string) : result Manifest :=
  '(sum, decoded) ← manifest;
  reject negb (Digest want) || (sum <>s want) with Plain "memory evidence manifest hash changed" ;;
  m ← decoded;
  reject negb (mf_Schema m =? 1) || (mf_Kind m <>s "sglang-memory-evidence") || negb (Digest (mf_SourceRevision m))
      || negb (Digest (mf_HardwareSHA256 m)) || negb (boot_id (mf_BootID m)) || (Z.of_nat (length (mf_Observations m)) >? 20)
    with Plain "invalid memory evidence manifest" ;;
  allowed ← allow_observations (mf_Observations m) ∅ baseline_allowed;
  reject negb (forallb (λ name, Digest (file_digest m name)) BaselineFiles) with Plain "missing baseline evidence" ;;
  reject negb (bool_decide (map_Forall (λ name digest, name ∈ allowed ∧ Digest digest = true) (mf_Files m)))
    with Plain "unapproved memory evidence file" ;;
  count ← walk_bundle m (bundle_dirs m) entries 0 0;
  reject negb (count =? Z.of_nat (size (mf_Files m))) with Plain "memory evidence files missing" ;;
  Ok m.

Definition Names (m : Manifest) : list string := sort_strings (elements (dom (mf_Files m))).

Definition Complete (m : Manifest) : bool :=
  negb (Z.of_nat (length (mf_Observations m)) <? 4)
  && forallb (λ id, forallb (λ f, file_digest m (observation_file id f) <>s "") ObservationFiles) (mf_Observations m).

Definition PrivateName (name : string) : bool := str_in name ["plan.json"; "patch.json"; "rollback.json"].

(** ** The private output directory *)

(** What [Lstat] and [ReadDir] show of it: three entries exactly. *)
Record OutputEntry := mkOutputEntry { oe_Name : string; oe_Regular : bool; oe_Perm : Z; oe_Size : Z }.
Definition private_perm (perm : Z) : bool := Z.land perm 63 =? 0.
Definition checkOutputTree (path_ok : result unit) (dir : option (bool * Z)) (entries : option (list OutputEntry)) : result unit :=
  _ ← path_ok;
  match dir with
  | None => Err (Plain "lstat")
  | Some (is_dir, perm) =>
    reject negb is_dir || negb (private_perm perm) with Plain "memory output directory must remain private" ;;
    match entries with
    | None => Err (Plain "readdir")
    | Some l =>
      reject negb (Nat.eqb (length l) 3) with Plain "memory output requires exactly three retained artifacts" ;;
      reject negb (forallb (λ e, PrivateName (oe_Name e) && oe_Regular e && private_perm (oe_Perm e)
                                 && (0 <? oe_Size e) && (oe_Size e <=? 2 * 2^20)) l)
        with Plain "memory output must contain only bounded private regular artifacts" ;;
      Ok tt
    end
  end.

(** ** The telemetry allowance *)

Record TelemetryAllowance := mkTelemetryAllowance {
  ta_Profile : string;
  ta_ReserveMiB : Z;
  ta_ComponentLimitsMiB : gmap string Z;
  ta_MarginMiB : Z;
  ta_CalculatedAllowanceMiB : Z }.

(** The fields of [telemetryEvidence] that are checked. *)
Record telemetryEvidence := mkTelemetryEvidence {
  tle_Schema : Z;
  tle_Status : string;
  tle_Profile : string;
  tle_ReserveMiB : Z;
  tle_StackLimitMiB : Z;
  tle_ComponentLimitsMiB : gmap string Z;
  tle_MarginMiB : Z;
  tle_CalculatedAllowanceMiB : Z }.

Definition components : list string := ["cluster_stack_mib"; "host_alloy_mib"; "hardware_sampler_mib"].

(** The loop over the components: the sum and the copied limits. *)
Fixpoint sum_components (limits : gmap string Z) (l : list string) (sum : Z) (out : gmap string Z) : result (Z * gmap string Z) :=
  match l with
  | [] => Ok (sum, out)
  | name :: l =>
    match limits !! name with
    | None => Err (Plain "invalid telemetry profile allowance")
    | Some value =>
      reject (value <? 0) || (value >? 2^30) with Plain "invalid telemetry profile allowance" ;;
      sum_components limits l (add64 sum value) (<[name := value]> out)
    end
  end.

(** [Telemetry] on the evidence file as read: its digest and what it decodes to. *)
Definition Telemetry (m : Manifest) (file : result (string * result telemetryEvidence)) : result (option TelemetryAllowance) :=
  match mf_Files m !! "telemetry/evidence.json" with
  | None => Ok None
  | Some want =>
    '(sum, decoded) ← file;
    reject negb (Digest want) || (sum <>s want) with Plain "telemetry evidence hash changed" ;;
    match decoded with
    | Err _ => Err (Plain "invalid telemetry evidence JSON")
    | Ok e =>
      reject (negb (tle_Schema e =? 1) && negb (tle_Schema e =? 2))
          || ((tle_Status e <>s "generated-not-deployed") && (tle_Status e <>s "disabled-not-deployed"))
          || (tle_ReserveMiB e <=? 0) || (tle_ReserveMiB e >? 2^30) || (tle_StackLimitMiB e <? 0) || (tle_StackLimitMiB e >? 2^30)
        with Plain "invalid telemetry evidence status or bounded reserve" ;;
      if tle_Schema e =? 1 then
        reject (tle_Profile e <>s "") && (tle_Profile e <>s "full") with Plain "legacy telemetry evidence supports full profile only" ;;
        Ok (Some (mkTelemetryAllowance "full" (tle_ReserveMiB e) ∅ 0 0))
      else
        reject ((tle_Profile e <>s "full") && (tle_Profile e <>s "metrics")) || (tle_MarginMiB e <=? 0) || (tle_MarginMiB e >? 2^30)
            || negb (Nat.eqb (size (tle_ComponentLimitsMiB e)) 3)
            || negb (default 0 (tle_ComponentLimitsMiB e !! "cluster_stack_mib") =? tle_StackLimitMiB e)
          with Plain "invalid telemetry profile allowance" ;;
        '(sum, limits) ← sum_components (tle_ComponentLimitsMiB e) components 0 ∅;
        reject (sum >? sub64 (2^30) (tle_MarginMiB e)) || negb (tle_CalculatedAllowanceMiB e =? add64 sum (tle_MarginMiB e))
            || (tle_ReserveMiB e <? tle_CalculatedAllowanceMiB e)
          with Plain "invalid telemetry profile allowance" ;;
        Ok (Some (mkTelemetryAllowance (tle_Profile e) (tle_ReserveMiB e) limits (tle_MarginMiB e) (tle_CalculatedAllowanceMiB e)))
    end
  end.

(** ** Accepted bundles *)

(** The regular files of the walk other than the manifest. *)
Definition bundle_files (l : list (option Entry)) : list Entry :=
  List.filter (λ e, negb (en_Dir e) && (en_Path e <>s "manifest.json")) (omap id l).
Definition entry_size (e : Entry) : Z := match en_Hash e with Some (_, n) => n | None => 0 end.
Definition total_size (l : list Entry) : Z := foldr (λ e n, entry_size e + n) 0 l.

Lemma walk_bundle_ok m dirs l : ∀ total count n,
  total ≤ MaxBundle → walk_bundle m dirs l total count = Ok n →
  n = count + Z.of_nat (length (bundle_files l)) ∧
  total + total_size (bundle_files l) ≤ MaxBundle ∧
  (∀ e, e ∈ omap id l → en_Symlink e = false ∧ (en_Dir e = true → en_Path e ∈ dirs)) ∧
  (∀ e, e ∈ bundle_files l → ∃ d k, mf_Files m !! en_Path e = Some d ∧ en_Hash e = Some (d, k)).
Proof.
  induction l as [|[e|] l IH]; intros total count n Ht; csimpl; [intros [= <-]| |done].
  { split_and!; [unfold bundle_files; simpl; lia|unfold bundle_files; simpl; lia| |]; intros e He; by apply elem_of_nil in He. }
  destruct (en_Symlink e) eqn:Hs; [done|]. unfold bundle_files in *. csimpl. destruct (en_Dir e) eqn:Hdir; csimpl.
  { destruct (bool_decide (en_Path e ∈ dirs)) eqn:Hd; [|done]. csimpl. apply bool_decide_eq_true in Hd.
    intros (-> & ? & Hl & Hf)%IH; [|done]. split_and!; [done..| |done]. intros x [->|Hx]%elem_of_cons; auto. }
  destruct (String.eqb_spec (en_Path e) "manifest.json") as [Hm|Hm]; csimpl.
  { intros (-> & ? & Hl & Hf)%IH; [|done]. split_and!; [done..| |done]. intros x [->|Hx]%elem_of_cons; [|auto].
    split; [done|]. by rewrite Hdir. }
  destruct (mf_Files m !! en_Path e) as [d|] eqn:Hd; [|done]. destruct (en_Hash e) as [[got k]|] eqn:Hh; [|done].
  destruct (total + k >? MaxBundle) eqn:Hk; [done|]. destruct (String.eqb_spec got d) as [->|]; [|done]. csimpl. bool_hyps.
  intros (-> & Hsz & Hl & Hf)%IH; [|lia]. unfold entry_size at 1. rewrite Hh. split_and!; [lia|lia| |].
  - intros x [->|Hx]%elem_of_cons; [|auto]. split; [done|]. by rewrite Hdir.
  - intros x [->|Hx]%elem_of_cons; eauto.
Qed.

Lemma allow_observations_ok ids : ∀ seen allowed out,
  allow_observations ids seen allowed = Ok out →
  NoDup ids ∧ (∀ id, id ∈ ids → (id ∉ seen) ∧ ObservationID id = true) ∧
  (∀ name, name ∈ out → name ∈ allowed ∨ (∃ id f, id ∈ ids ∧ f ∈ ObservationFiles ∧ name = observation_file id f)).
Proof.
  induction ids as [|id ids IH]; intros seen allowed out; cbn [allow_observations].
  - intros [= <-]. split_and!; [constructor| |auto]. intros id Hid. by apply elem_of_nil in Hid.
  - destruct (negb (ObservationID id) || bool_decide (id ∈ seen)) eqn:Hb; [done|].
    apply orb_false_iff in Hb as [Hid%negb_false_iff Hs%bool_decide_eq_false].
    intros (Hnd & Hids & Hout)%IH. split_and!.
    + constructor; [|done]. intros Hin%Hids. set_solver.
    + intros x [->|Hx]%elem_of_cons; [done|]. apply Hids in Hx as []. set_solver.
    + intros name [Hin|(x & f & ? & ? & ->)]%Hout; [|right; exists x, f; split_and!; [by constructor|done..]].
      apply elem_of_union in Hin as [|Hin]; [by left|right].
      apply elem_of_list_to_set, list_elem_of_fmap in Hin as (f & -> & Hf). exists id, f. split_and!; [constructor|done..].
Qed.

(** What a verified bundle is. *)
Record verified (m : Manifest) (entries : list (option Entry)) : Prop := {
  vf_files name digest : mf_Files m !! name = Some digest ↔
    ∃ e n, e ∈ bundle_files entries ∧ en_Path e = name ∧ en_Hash e = Some (digest, n);
  vf_plain e : e ∈ omap id entries → en_Symlink e = false ∧ (en_Dir e = true → en_Path e ∈ bundle_dirs m);
  vf_size : total_size (bundle_files entries) ≤ MaxBundle;
  vf_names name digest : mf_Files m !! name = Some digest → Digest digest = true ∧
    (name ∈ baseline_allowed ∨ ∃ id f, id ∈ mf_Observations m ∧ f ∈ ObservationFiles ∧ name = observation_file id f);
  vf_observations : NoDup (mf_Observations m) ∧ (length (mf_Observations m) ≤ 20)%nat }.

Lemma Verify_verified manifest entries want m :
  Verify manifest entries want = Ok m → NoDup (en_Path <$> bundle_files entries) →
  manifest = Ok (want, Ok m) ∧ verified m entries.
Proof.
  unfold Verify. intros Hv Hnd. apply bind_ok in Hv as ([sum decoded] & -> & Hv).
  destruct (negb (Digest want) || (sum <>s want)) eqn:Hw; [done|]. apply bind_ok in Hv as (m' & -> & Hv).
  destruct (_ || (Z.of_nat (length (mf_Observations m')) >? 20)) eqn:Hh; [done|].
  apply bind_ok in Hv as (allowed & Ha & Hv). destruct (negb (forallb _ _)); [done|].
  destruct (bool_decide _) eqn:Hn; [|done]. apply bool_decide_eq_true in Hn. cbn [negb] in Hv.
  apply bind_ok in Hv as (count & Hc & Hv). destruct (count =? _) eqn:Hcount; [|done]. injection Hv as ->. bool_hyps. subst.
  split; [done|]. apply walk_bundle_ok in Hc as (Hlen & Hsz & Hplain & Hf); [|unfold MaxBundle; lia].
  apply allow_observations_ok in Ha as (Hids & _ & Hout). split; [|done|simpl in Hsz; lia| |split; [done|lia]].
  - intros name digest. split.
    + intros Hl. assert (name ∈ en_Path <$> bundle_files entries) as Hx.
      { apply (covers_all _ (dom (mf_Files m)) Hnd).
        - intros x (e & -> & He)%list_elem_of_fmap. apply Hf in He as (d & k & Hd & _). by apply elem_of_dom_2 in Hd.
        - rewrite length_fmap, size_dom. lia.
        - by apply elem_of_dom_2 in Hl. }
      apply list_elem_of_fmap in Hx as (e & -> & He). destruct (Hf _ He) as (d & k & Hd & Hk). simplify_eq. eauto.
    + intros (e & n & He & <- & Hh'). destruct (Hf _ He) as (d & k & Hd & Hk). congruence.
  - intros name digest Hl. destruct (Hn _ _ Hl) as [Hin Hd]. split; [done|]. by apply Hout in Hin.
Qed.

(** A complete memory bundle is whole: when [Verify] accepts a bundle under the approved
    digest and [Complete] holds, the directory holds exactly the files the manifest lists,
    each with the listed digest, within one GiB and reached without symbolic links, every
    name is a known evidence file, and each of the four to twenty distinct observations
    has every one of its phase files among them. *)
Theorem complete_bundle manifest entries want m :
  Verify manifest entries want = Ok m → NoDup (en_Path <$> bundle_files entries) → Complete m = true →
  manifest = Ok (want, Ok m) ∧ verified m entries ∧ (4 ≤ length (mf_Observations m))%nat ∧
  ∀ id f, id ∈ mf_Observations m → f ∈ ObservationFiles →
    ∃ e digest n, e ∈ bundle_files entries ∧ en_Path e = observation_file id f ∧ en_Hash e = Some (digest, n).
Proof.
  intros Hv Hnd Hc. apply Verify_verified in Hv as [-> Hvf]; [|done]. unfold Complete in Hc. bool_hyps.
  split_and!; [done..|lia|]. intros id f Hid Hf.
  match goal with Hall : forallb _ (mf_Observations m) = true |- _ => rewrite forallb_forall in Hall; specialize (Hall id ltac:(by apply list_elem_of_In)) end.
  match goal with Hall : forallb _ ObservationFiles = true |- _ => rewrite forallb_forall in Hall; specialize (Hall f ltac:(by apply list_elem_of_In)) end.
  bool_hyps. unfold file_digest in *. destruct (mf_Files m !! observation_file id f) as [d|] eqn:Hd; [|done].
  apply (vf_files _ _ Hvf) in Hd as (e & n & ? & ? & ?). eauto 10.
Qed.

(** ** The declared allowance *)

Lemma sum_components_ok limits : ∀ l sum out sum' out',
  0 ≤ sum → sum + Z.of_nat (length l) * 2^30 < 2^62 → sum_components limits l sum out = Ok (sum', out') →
  sum' = sum + foldr (λ name n, default 0 (limits !! name) + n) 0 l ∧
  Forall (λ name, 0 ≤ default 0 (limits !! name) ≤ 2^30) l ∧
  (∀ name, out' !! name = (if bool_decide (name ∈ l) then limits !! name else out !! name)).
Proof.
  induction l as [|name l IH]; intros sum out sum' out' H0 Hb; cbn [sum_components].
  - intros [= <- <-]. split_and!; [simpl; lia|constructor|]. intros x. by rewrite bool_decide_false by set_solver.
  - destruct (limits !! name) as [v|] eqn:Hv; [|done]. destruct ((v <? 0) || (v >? 2^30)) eqn:Hr; [done|]. bool_hyps.
    cbn [length] in Hb. rewrite add64_id by (unfold in_int64; lia). intros (-> & Hf & Hout)%IH; [|lia..].
    split_and!; [simpl; rewrite Hv; simpl; lia|constructor; [rewrite Hv; simpl; lia|done]|].
    intros x. rewrite Hout. destruct (decide (x ∈ l)) as [Hx|Hx]; [by rewrite !bool_decide_true by set_solver|].
    rewrite bool_decide_false by done. destruct (decide (x = name)) as [->|Hne].
    + rewrite lookup_insert_eq, bool_decide_true by set_solver. done.
    + rewrite lookup_insert_ne, bool_decide_false by set_solver. done.
Qed.

(** A declared telemetry allowance adds up: an accepted schema-2 declaration covers the
    three components with nonnegative bounded limits, its calculated allowance is exactly
    their sum and a positive margin, without overflow, and its reserve is no smaller; a
    legacy declaration claims no calculated allowance. *)
Theorem Telemetry_allowance m file a :
  Telemetry m file = Ok (Some a) →
  0 < ta_ReserveMiB a ≤ 2^30 ∧
  ((ta_Profile a = "full" ∧ ta_ComponentLimitsMiB a = ∅ ∧ ta_CalculatedAllowanceMiB a = 0) ∨
   (let limit name := default 0 (ta_ComponentLimitsMiB a !! name) in
    (∀ name, name ∈ components → 0 ≤ limit name ≤ 2^30) ∧ 0 < ta_MarginMiB a ∧
    ta_CalculatedAllowanceMiB a = limit "cluster_stack_mib" + limit "host_alloy_mib" + limit "hardware_sampler_mib" + ta_MarginMiB a ∧
    ta_CalculatedAllowanceMiB a ≤ ta_ReserveMiB a)).
Proof.
  unfold Telemetry. destruct (mf_Files m !! _) as [want|]; [|done]. intros Ht. apply bind_ok in Ht as ([sum decoded] & _ & Ht).
  destruct (negb (Digest want) || (sum <>s want)); [done|]. destruct decoded as [e|]; [|done].
  destruct (_ || (tle_StackLimitMiB e >? 2^30)) eqn:Hh; [done|]. bool_hyps. destruct (tle_Schema e =? 1) eqn:Hs.
  - destruct ((tle_Profile e <>s "") && _); [done|]. injection Ht as <-. simpl. split; [lia|by left].
  - destruct (_ || negb (_ =? tle_StackLimitMiB e)) eqn:Hp; [done|]. bool_hyps.
    apply bind_ok in Ht as ([total limits] & Hc & Ht). destruct (_ || (tle_ReserveMiB e <? _)) eqn:Hr; [done|]. injection Ht as <-. bool_hyps.
    apply sum_components_ok in Hc as (-> & Hf & Hout); [|lia|simpl; lia]. simpl in *. split; [lia|right].
    assert (∀ name, name ∈ components → default 0 (limits !! name) = default 0 (tle_ComponentLimitsMiB e !! name)) as Heq.
    { intros name Hn. by rewrite Hout, bool_decide_true by done. }
    rewrite Forall_forall in Hf.
    assert (∀ name, name ∈ components → 0 ≤ default 0 (limits !! name) ≤ 2^30) as Hall by (intros name Hn; rewrite Heq by done; by apply Hf).
    pose proof (Hall "cluster_stack_mib" ltac:(set_solver)). pose proof (Hall "host_alloy_mib" ltac:(set_solver)).
    pose proof (Hall "hardware_sampler_mib" ltac:(set_solver)).
    rewrite <- !Heq in * by set_solver. rewrite add64_id in * by (unfold in_int64; lia). split_and!; [done|lia|lia|lia].
Qed.

(** ** A concrete bundle *)

Module BundleFixture.
Definition digest : string := "aaaaaaaaaaaaaaaaaaaaaaaaaaaaaaaaaaaaaaaaaaaaaaaaaaaaaaaaaaaaaaaa".
Definition ids : list string := ["cold-1"; "cold-2"; "warm-1"; "warm-2"].
Definition names : list string :=
  BaselineFiles ++ ["telemetry/evidence.json"] ++ flat_map (λ id, observation_file id <$> ObservationFiles) ids.
Definition manifest : Manifest := mkManifest 1 "sglang-memory-evidence" "01234567-89ab-cdef-0123-456789abcdef" digest digest ids
  (list_to_map ((λ n, (n, digest)) <$> names)).
Definition file (n : string) : Entry := mkEntry n false false (Some (digest, 1000)).
Definition entries : list (option Entry) :=
  Some (mkEntry "." false true None) :: Some (file "manifest.json")
  :: ((λ d, Some (mkEntry d false true None)) <$> remove_dups (flat_map parents names)) ++ ((λ n, Some (file n)) <$> names).
Definition allowance : telemetryEvidence := mkTelemetryEvidence 2 "generated-not-deployed" "metrics" 2048 512
  (list_to_map [("cluster_stack_mib", 512); ("host_alloy_mib", 256); ("hardware_sampler_mib", 0)]) 256 1024.
End BundleFixture.

Lemma fixture_accepted :
  Verify (Ok (BundleFixture.digest, Ok BundleFixture.manifest)) BundleFixture.entries BundleFixture.digest = Ok BundleFixture.manifest.
Proof. vm_cast_no_check (@eq_refl (result Manifest) (Ok BundleFixture.manifest)). Qed.
Lemma fixture_paths : NoDup (en_Path <$> bundle_files BundleFixture.entries).
Proof. apply (bool_decide_unpack _). vm_compute. exact I. Qed.

Lemma complete_bundle_witness :
  verified BundleFixture.manifest BundleFixture.entries ∧
  ∃ e digest n, e ∈ bundle_files BundleFixture.entries ∧ en_Path e = observation_file "warm-2" "serving/result.json" ∧
    en_Hash e = Some (digest, n).
Proof.
  destruct (complete_bundle _ _ _ _ fixture_accepted fixture_paths) as (_ & Hv & _ & Hall).
  - vm_compute. reflexivity.
  - split; [exact Hv|]. apply (Hall "warm-2" "serving/result.json"); by apply (bool_decide_unpack _); vm_compute.
Defined.

Lemma Telemetry_allowance_witness :
  ∃ a, Telemetry BundleFixture.manifest (Ok (BundleFixture.digest, Ok BundleFixture.allowance)) = Ok (Some a) ∧
    ta_CalculatedAllowanceMiB a = 1024 ∧ 0 < ta_ReserveMiB a.
Proof.
  eexists. split; [vm_compute; reflexivity|]. split; [done|].
  apply (Telemetry_allowance BundleFixture.manifest (Ok (BundleFixture.digest, Ok BundleFixture.allowance))). vm_compute. reflexivity.
Defined.
