(* ===== verification/MemoryPlan.v ===== *)
(** The validation of an offline memory plan ([ValidateOutput] and [Observe] of
    [internal/memory/plan.go]): the controller recomputes the windows, the budget and the
    patch from the sealed evidence before it calls the planner's output valid.

    Every file the function reads is an answer of the environment; values decoded into
    [any] are the trees of [Tree]. *)
From S2P Require Import Prelude Json Tree Types Safefile Config Wire Evidence Window MemoryBundle.
From Stdlib Require Import SpecFloat.
From stdpp Require Import pretty.
#[local] Open Scope Z_scope.

(** The runes of valid UTF-8 text; a stray byte reads as U+FFFD. *)
Definition byte (c : ascii) : Z := Z.of_N (N_of_ascii c).
Fixpoint runes (l : list ascii) : list Z :=
  match l with
  | [] => []
  | a :: l1 =>
    if byte a <? 128 then byte a :: runes l1 else
    match l1 with
    | b :: l2 =>
      if (192 <=? byte a) && (byte a <? 224) then (64 * (byte a - 192) + (byte b - 128)) :: runes l2 else
      match l2 with
      | c :: l3 =>
        if (224 <=? byte a) && (byte a <? 240) then (4096 * (byte a - 224) + 64 * (byte b - 128) + (byte c - 128)) :: runes l3 else
        match l3 with
        | d :: l4 =>
          if 240 <=? byte a
          then (262144 * (byte a - 240) + 4096 * (byte b - 128) + 64 * (byte c - 128) + (byte d - 128)) :: runes l4
          else 65533 :: runes l1
        | [] => 65533 :: runes l1
        end
      | [] => 65533 :: runes l1
      end
    | [] => [65533]
    end
  end.
(** [\u%04x] of a code unit, and of a rune outside ASCII (a surrogate pair above U+FFFF). *)
Definition hex_digit (n : Z) : ascii := ascii_of_N (Z.to_N (if n <? 10 then 48 + n else 87 + n)).
Definition escape_unit (n : Z) : string :=
  "\u" +:+ String.string_of_list_ascii (hex_digit <$> [n / 4096 mod 16; n / 256 mod 16; n / 16 mod 16; n mod 16]).
Definition escape_rune (r : Z) : string :=
  if r <? 128 then String (ascii_of_N (Z.to_N r)) ""
  else if r <=? 65535 then escape_unit r
  else escape_unit (55296 + (r - 65536) / 1024) +:+ escape_unit (56320 + (r - 65536) mod 1024).
Definition ascii_json (text : string) : string := String.concat "" (escape_rune <$> runes (chars text)).

Section Plan.
Context `{JSONText} `{JSONRender}.
(** [Sum]. *)
Context (Sum : string → string).

(** [MiB] of a Kubernetes quantity. *)
Definition MiB (v : JSON) : option Z :=
  match v with
  | JString s =>
    let body := String.substring 0 (String.length s - 2) s in
    let parse mult := match json_docs body with
      | Some [d] => match dec_int d 0 with Some n => if (n <=? 0) || (n >? 2^30) then None else Some (mul64 n mult) | None => None end
      | _ => None end in
    if has_suffix s "Gi" then parse 1024 else if has_suffix s "Mi" then parse 1 else None
  | _ => None
  end.

(** ** The plan document *)

Record Observation := mkObservation { ob_Phase : string; ob_PodUID : string; ob_Startup : Window; ob_Steady : Window }.
Record Patch := mkPatch { pt_Op : string; pt_Path : string; pt_Value : JSON }.
Record MemPlan := mkMemPlan {
  mp_Schema : Z;
  mp_Kind : string;
  mp_Status : string;
  mp_Baseline : Z;
  mp_Candidate : Z;
  mp_Minimum : Z;
  mp_WorkloadHash : string;
  mp_RuntimeIdentity : string;
  mp_BaselineHash : string;
  mp_CandidateHash : string;
  mp_Other : Z;
  mp_Allocatable : Z;
  mp_SHM : Z;
  mp_Envelope : Z;
  mp_Headroom : Z;
  mp_Observations : list Observation;
  mp_Evidence : gmap string string;
  mp_Tools : gmap string string;
  mp_Artifacts : gmap string string;
  mp_Limitations : list string }.

(** The answers to the reads of one validation. *)
Record PlanFiles := mkPlanFiles {
  pf_tree : result unit;
  pf_plan : result MemPlan;
  pf_telemetry : result (string * result telemetryEvidence);
  pf_lock : result string;
  pf_tool : string → result string;
  pf_deployment : result JSON;
  pf_resource : result JSON;
  pf_patch : result (list Patch);
  pf_rollback : result (list Patch);
  pf_start : string → result JSON;
  pf_serving : string → result JSON;
  pf_startup_lines : string → result (list (option Sample) * option error);
  pf_steady_lines : string → result (list (option Sample) * option error);
  pf_output : string → result string }.

Definition Tools : list string :=
  ["serving_memory.py"; "measurement.py"; "performance.sh"; "serving.py"; "model_kernels.py"; "telemetry.py"].

(** [Identity]: the digest of the canonical text of a tree, outside ASCII escaped. *)
Definition Identity (v : JSON) : string := Sum (ascii_json (json_text v)).

Definition invalid {A} : result A := Err (Plain "installer memory plan schema, identity or conservative-budget verification failed").

(** ** Stages of the validation *)

(** Schema, identities and the declared budget. *)
Definition plan_header (p : MemPlan) (m : Manifest) (other : Z) : bool :=
  (mp_Schema p =? 1) && (mp_Kind p =s "sglang-host-memory-plan") && (mp_Status p =s "plan-only-unqualified")
  && (0 <? mp_Baseline p) && (mp_Baseline p <=? 2^30) && (0 <? mp_Candidate p) && (mp_Candidate p <? mp_Baseline p)
  && (mp_Candidate p =? mp_Minimum p) && (Z.rem (mp_Candidate p) 256 =? 0)
  && (4 <=? Z.of_nat (length (mp_Observations p))) && (Z.of_nat (length (mp_Observations p)) <=? 20)
  && Nat.eqb (length (mp_Limitations p)) 6
  && forallb Digest [mp_WorkloadHash p; mp_RuntimeIdentity p; mp_BaselineHash p; mp_CandidateHash p]
  && (mp_WorkloadHash p =s file_digest m "workload.json") && (mp_Other p =? other) && (0 <=? other)
  && (0 <? mp_Allocatable p) && (add64 (mp_Candidate p) other <=? mp_Allocatable p)
  && (0 <? mp_SHM p) && (mp_SHM p <? mp_Baseline p).

Fixpoint check_tools (f : PlanFiles) (p : MemPlan) (l : list string) : result unit :=
  match l with
  | [] => Ok tt
  | name :: l =>
    h ← pf_tool f name;
    if default "" (mp_Tools p !! name) <>s h then invalid else check_tools f p l
  end.

(** The evidence the plan must name: the installed lock and every sealed file. *)
Definition expected_evidence (input runtime lock : string) (m : Manifest) : gmap string string :=
  list_to_map ((λ kv : string * string, (path_join input kv.1, kv.2)) <$> map_to_list (mf_Files m))
  ∪ {[path_join runtime "versions.lock" := lock]}.

(** The [shm] volumes: each has the planned limit, and there is one. *)
Fixpoint check_shm (shm : Z) (volumes : list JSON) (found : bool) : bool :=
  match volumes with
  | [] => found
  | v :: volumes =>
    match get "name" v with
    | JString n =>
      if n =s "shm" then
        match MiB (Nested v ["emptyDir"; "sizeLimit"]) with
        | Some k => if k =? shm then check_shm shm volumes true else false
        | None => false
        end
      else check_shm shm volumes found
    | _ => check_shm shm volumes found
    end
  end.

Definition patch_shape (rows : list Patch) : bool :=
  match rows with
  | [a; b] => (pt_Op a =s "test") && (pt_Path a =s "/spec/template/spec") && (pt_Op b =s "replace")
              && (pt_Path b =s "/spec/template/spec/containers/0/resources")
  | _ => false
  end.

(** The resources with another memory request and limit. *)
Definition resized (candidate : Z) (resources : JSON) : option JSON :=
  match resources, get "requests" resources, get "limits" resources with
  | JObject l, JObject requests, JObject limits =>
    let mem := JString (pretty candidate +:+ "Mi") in
    Some (JObject (put "limits" (JObject (put "memory" mem limits)) (put "requests" (JObject (put "memory" mem requests)) l)))
  | _, _, _ => None
  end.

(** The patch and its rollback against the deployed pod specification: the one container
    keeps everything but its memory request and limit. *)
Definition check_patch (p : MemPlan) (spec : JSON) (patch rollback : list Patch) : bool :=
  match patch, rollback, spec with
  | [p0; p1], [r0; r1], JObject fields =>
    patch_shape patch && patch_shape rollback && deep_equal (pt_Value p0) spec && (Identity spec =s mp_BaselineHash p) &&
    match get "containers" spec with
    | JArray [JObject c] =>
      match get "name" (JObject c), get "resources" (JObject c) with
      | JString name, JObject resources =>
        let original := JObject resources in
        (name =s "sglang") && deep_equal (get "requests" original) (get "limits" original) &&
        match MiB (Nested original ["limits"; "memory"]) with Some old => old =? mp_Baseline p | None => false end &&
        match resized (mp_Candidate p) original with
        | Some res =>
          let candidate := JObject (put "containers" (JArray [JObject (put "resources" res c)]) fields) in
          deep_equal (pt_Value p1) res && deep_equal (pt_Value r0) candidate && deep_equal (pt_Value r1) original
          && (Identity candidate =s mp_CandidateHash p)
        | None => false
        end
      | _, _ => false
      end
    | _ => false
    end
  | _, _, _ => false
  end.

Definition window_equal (a b : Window) : bool :=
  (wn_Samples a =? wn_Samples b) && SFeqb (wn_Duration a) (wn_Duration b) && (wn_CgroupID a =s wn_CgroupID b)
  && (wn_FirstMono a =? wn_FirstMono b) && (wn_LastMono a =? wn_LastMono b) && (wn_Path a =s wn_Path b)
  && (wn_FirstUnix a =? wn_FirstUnix b) && (wn_LastUnix a =? wn_LastUnix b) && (wn_Sampled a =? wn_Sampled b)
  && (wn_Peak a =? wn_Peak b) && bool_decide (wn_Stat a = wn_Stat b) && (wn_Available a =? wn_Available b)
  && (wn_Envelope a =? wn_Envelope b).

Definition is_finite (f : float64) : bool := match f with S754_nan | S754_infinity _ => false | _ => true end.

(** The checks of one recorded window; [steady] windows last a minute or more. *)
Definition check_window (p : MemPlan) (steady : bool) (w : Window) : bool :=
  (2 <=? wn_Samples w) && (wn_Samples w <=? 100000) && negb (SFltb (wn_Duration w) f0) && is_finite (wn_Duration w)
  && (0 <? wn_FirstMono w) && (wn_FirstMono w <? wn_LastMono w) && (0 <? wn_FirstUnix w) && (wn_FirstUnix w <? wn_LastUnix w)
  && (0 <? wn_Sampled w) && (wn_Sampled w <=? wn_Peak w) && (wn_Peak w <=? shl64 (mp_Baseline p) 20) && (0 <=? wn_Available w)
  && Nat.eqb (size (wn_Stat w)) 3 && (0 <=? at0 (wn_Stat w) "anon") && (0 <=? at0 (wn_Stat w) "file") && (0 <=? at0 (wn_Stat w) "shmem")
  && (at0 (wn_Stat w) "shmem" <=? at0 (wn_Stat w) "file") && (wn_Envelope w =? add64 (wn_Peak w) (shl64 (mp_SHM p) 20))
  && (wn_CgroupID w <>s "") && (wn_Path w <>s "") && negb (steady && SFltb (wn_Duration w) (float_of 60)).

(** The running state of the observation loop. *)
Record Tally := mkTally { ty_cold : Z; ty_warm : Z; ty_seen : gset string; ty_envelope : Z; ty_rows : list MemoryObservation }.

Definition summaryWindow (w : Window) : MemoryWindow :=
  mkMemoryWindow (wn_Samples w) (wn_Duration w) (wn_Sampled w) (wn_Peak w) (at0 (wn_Stat w) "shmem") (wn_Available w).

(** [memory.total_mib] of the resource evidence. *)
Definition total_mib (resource : JSON) : option Z :=
  match Nested resource ["memory"; "total_mib"] with
  | JFloat t => if negb (SFltb f0 t) || SFltb (float_of (2^30)) t then None else Some (int_of t)
  | _ => None
  end.

Definition is_string (v : JSON) (s : string) : bool := match v with JString t => t =s s | _ => false end.

(** The window re-observed from its telemetry. *)
Definition reobserve (p : MemPlan) (total : Z) (lines : result (list (option Sample) * option error)) : result Window :=
  '(l, err) ← lines; observeWindow l err (mp_Baseline p) (mp_SHM p) total.

Definition check_observation (f : PlanFiles) (p : MemPlan) (resource : JSON) (id : string) (o : Observation) (t : Tally) : result Tally :=
  start ← pf_start f id;
  served ← pf_serving f id;
  let key := JObject [("image_id", Nested served ["pod"; "image_id"]); ("node", Nested served ["pod"; "node"]); ("runtime", get "runtime" served)] in
  if (Identity key <>s mp_RuntimeIdentity p) || negb (is_string (get "cache_state" start) (ob_Phase o))
     || negb (is_string (Nested served ["pod"; "uid"]) (ob_PodUID o)) || negb (is_string (Nested start ["pod"; "uid"]) (ob_PodUID o))
     || negb (is_string (get "status" start) "observed-not-qualified") || negb (is_string (get "status" served) "measured-not-qualified")
  then invalid else
  match total_mib resource with
  | None => invalid
  | Some total =>
    startup ← reobserve p total (pf_startup_lines f id);
    steady ← reobserve p total (pf_steady_lines f id);
    if negb (window_equal startup (ob_Startup o)) || negb (window_equal steady (ob_Steady o)) then invalid else
    if bool_decide (ob_PodUID o ∈ ty_seen t) || negb (str_len (ob_PodUID o) =? 36) then invalid else
    if negb (str_in (ob_Phase o) ["cold"; "warm"]) then invalid else
    if negb (check_window p false (ob_Startup o)) || negb (check_window p true (ob_Steady o)) then invalid else
    if (wn_CgroupID (ob_Startup o) <>s wn_CgroupID (ob_Steady o)) || (wn_Path (ob_Startup o) <>s wn_Path (ob_Steady o))
       || (wn_FirstUnix (ob_Steady o) <? wn_LastUnix (ob_Startup o)) then invalid else
    Ok (mkTally (if ob_Phase o =s "cold" then ty_cold t + 1 else ty_cold t) (if ob_Phase o =s "warm" then ty_warm t + 1 else ty_warm t)
          ({[ob_PodUID o]} ∪ ty_seen t) (Z.max (Z.max (ty_envelope t) (wn_Envelope (ob_Startup o))) (wn_Envelope (ob_Steady o)))
          (ty_rows t ++ [mkMemoryObservation (ob_Phase o) (ob_PodUID o) (summaryWindow (ob_Startup o)) (summaryWindow (ob_Steady o))]))
  end.

Fixpoint check_observations (f : PlanFiles) (p : MemPlan) (resource : JSON) (l : list (string * Observation)) (t : Tally) : result Tally :=
  match l with
  | [] => Ok t
  | (id, o) :: l => t ← check_observation f p resource id o t; check_observations f p resource l t
  end.

(** Headroom: a quarter of the envelope, two GiB at least; the candidate is rounded up to
    256 MiB. *)
Definition headroom_bytes (envelope : Z) : Z := Z.max (shl64 2048 20) (add64 envelope 3 / 4).
Definition candidate_mib (envelope headroom : Z) : Z :=
  mul64 (sub64 (add64 (add64 envelope headroom) (shl64 256 20)) 1 / shl64 256 20) 256.

Definition outputs : list string := ["plan.json"; "patch.json"; "rollback.json"].

Fixpoint collect_artifacts (f : PlanFiles) (revision : string) (l : list string) : result (list Artifact) :=
  match l with
  | [] => Ok []
  | name :: l =>
    b ← pf_output f name;
    let a := mkArtifact name (Sum b) (str_len b) revision "plan-only-unqualified" "" in
    reject str_len (json_text (Artifact_json (mkArtifact name (Sum b) (str_len b) revision "plan-only-unqualified" b))) >? 3 * 2^20
      with Plain "private memory artifact exceeds bounded helper export response" ;;
    rest ← collect_artifacts f revision l; Ok (a :: rest)
  end.

Definition check_output_digest (f : PlanFiles) (p : MemPlan) (name : string) : result unit :=
  b ← pf_output f name; if Sum b <>s default "" (mp_Artifacts p !! name) then invalid else Ok tt.

Definition limitations : list string :=
  ["Unqualified offline candidate; no resize, restart, source update or qualification.";
   "Cold/warm labels are owner declarations; lifetime peak includes unsampled startup.";
   "Full shm growth is reserved inside the Pod budget; sampled shmem is not /dev/shm attribution.";
   "Repeat startup, steady memory, numerical/coding correctness and latency/throughput at the smaller limit.";
   "On OOM, PSI or quality/performance regression retain and use the exact preconditioned rollback.";
   "Regenerate compilation-worker resource plans after resizing."].

Definition ValidateOutput (f : PlanFiles) (input runtime : string) (m : Manifest) (other : Z) : result MemorySummary :=
  _ ← pf_tree f;
  p ← pf_plan f;
  if negb (plan_header p m other) then invalid else
  telemetry ← (match Telemetry m (pf_telemetry f) with Ok t => Ok t | Err _ => invalid end);
  if match telemetry with Some t => other <? ta_ReserveMiB t | None => false end then invalid else
  lock ← pf_lock f;
  if negb (bool_decide (expected_evidence input runtime lock m = mp_Evidence p)) || negb (Nat.eqb (size (mp_Tools p)) (length Tools)) then invalid else
  _ ← check_tools f p Tools;
  deployment ← pf_deployment f;
  let spec := Nested deployment ["spec"; "template"; "spec"] in
  resource ← pf_resource f;
  if negb (match Nested resource ["memory"; "allocatable_mib"] with JFloat a => SFeqb a (float_of (mp_Allocatable p)) | _ => false end)
     || negb (Nat.eqb (length (mf_Observations m)) (length (mp_Observations p))) then invalid else
  if negb (check_shm (mp_SHM p) (match get "volumes" spec with JArray l => l | _ => [] end) false) then invalid else
  patch ← pf_patch f;
  rollback ← pf_rollback f;
  if negb (Nat.eqb (size (mp_Artifacts p)) 2) || negb (check_patch p spec patch rollback) then invalid else
  t ← check_observations f p resource (zip (mf_Observations m) (mp_Observations p)) (mkTally 0 0 ∅ 0 []);
  let headroom := headroom_bytes (ty_envelope t) in
  if (ty_cold t <? 2) || (ty_warm t <? 2) || negb (mp_Envelope p =? ty_envelope t) || negb (mp_Headroom p =? headroom)
     || negb (candidate_mib (ty_envelope t) headroom =? mp_Minimum p) then invalid else
  _ ← check_output_digest f p "patch.json";
  _ ← check_output_digest f p "rollback.json";
  artifacts ← collect_artifacts f (mf_SourceRevision m) outputs;
  let a := default (mkTelemetryAllowance "" 0 ∅ 0 0) telemetry in
  Ok (mkMemorySummary "" "" (mp_Status p) "conservative_lifetime_peak_plus_full_shm_and_headroom" (mp_Baseline p) (mp_Baseline p)
        (mp_Candidate p) (mp_Minimum p) (mp_SHM p) other (ta_Profile a) (ta_ReserveMiB a) (ta_ComponentLimitsMiB a) (ta_MarginMiB a)
        (ta_CalculatedAllowanceMiB a) (mp_Allocatable p) (ty_envelope t) headroom (ty_cold t) (ty_warm t) (ty_rows t) ∅ limitations artifacts).

(** ** The preview of an incomplete or unplanned bundle *)

(** [Observe]: the windows of the observations, up to the first that is not valid. *)
Definition observe_one (f : PlanFiles) (total limit shm : Z) (id : string) : result MemoryObservation :=
  start ← pf_start f id;
  match get "cache_state" start, Nested start ["pod"; "uid"] with
  | JString phase, JString pod =>
    reject negb (str_in phase ["cold"; "warm"]) || negb (str_len pod =? 36) || negb (is_string (get "status" start) "observed-not-qualified")
      with Plain "failed or incomplete startup" ;;
    reject match pf_serving f id with Ok served => negb (is_string (get "status" served) "measured-not-qualified") | Err _ => true end
      with Plain "failed or incomplete serving observation" ;;
    a ← ('(l, err) ← pf_startup_lines f id; observeWindow l err limit shm total);
    b ← ('(l, err) ← pf_steady_lines f id; observeWindow l err limit shm total);
    Ok (mkMemoryObservation phase pod (summaryWindow a) (summaryWindow b))
  | _, _ => Err (Plain "failed or incomplete startup")
  end.
Fixpoint observe_rows (f : PlanFiles) (total limit shm : Z) (ids : list string) (rows : list MemoryObservation)
    : list MemoryObservation * result unit :=
  match ids with
  | [] => (rows, Ok tt)
  | id :: ids =>
    match observe_one f total limit shm id with
    | Err e => (rows, Err e)
    | Ok row => observe_rows f total limit shm ids (rows ++ [row])
    end
  end.
Definition Observe (f : PlanFiles) (m : Manifest) (limit shm : Z) : list MemoryObservation * result unit :=
  match pf_resource f with
  | Err e => ([], Err e)
  | Ok r =>
    match total_mib r with
    | None => ([], Err (Plain "resource memory missing"))
    | Some total => observe_rows f total limit shm (mf_Observations m) []
    end
  end.

(** ** Lemmas *)

(** The budget arithmetic stays within 64 bits for real envelopes and is exact. *)
Lemma budget_exact env :
  0 < env ≤ 2^51 →
  let h := headroom_bytes env in let c := candidate_mib env h in
  2^31 ≤ h ∧ env ≤ 4 * h ∧ (h = 2^31 ∨ 4 * h ≤ env + 3) ∧ c mod 256 = 0 ∧ env + h ≤ c * 2^20 ∧ (c - 256) * 2^20 < env + h.
Proof.
  intros He. cbv zeta.
  assert (headroom_bytes env = Z.max (2^31) ((env + 3) / 4)) as Hh.
  { unfold headroom_bytes. change (shl64 2048 20) with (2^31). by rewrite add64_id by (unfold in_int64; lia). }
  pose proof (Z.div_mod (env + 3) 4 ltac:(lia)). pose proof (Z.mod_pos_bound (env + 3) 4 ltac:(lia)).
  assert (2^31 ≤ headroom_bytes env ≤ 2^50) as Hb by (rewrite Hh; lia).
  set (h := headroom_bytes env) in *.
  assert (candidate_mib env h = (env + h + 2^28 - 1) / 2^28 * 256) as ->.
  { unfold candidate_mib. change (shl64 256 20) with (2^28). rewrite (add64_id env h), add64_id by (unfold in_int64; lia).
    unfold sub64. rewrite wrap64_id by (unfold in_int64; lia). apply mul64_id. unfold in_int64.
    assert (0 ≤ (env + h + 2^28 - 1) / 2^28 < 2^40) by (split; [apply Z.div_pos; lia|apply Z.div_lt_upper_bound; lia]). lia. }
  pose proof (Z.div_mod (env + h + 2^28 - 1) (2^28) ltac:(lia)). pose proof (Z.mod_pos_bound (env + h + 2^28 - 1) (2^28) ltac:(lia)).
  split_and!; try lia. apply Z.mod_mul. lia.
Qed.

(** The memory a window accounts for with the full shared-memory limit. *)
Definition envelope_of (p : MemPlan) (w : Window) : Z := wn_Peak w + mp_SHM p * 2^20.

Lemma shl20 n : 0 ≤ n ≤ 2^30 → shl64 n 20 = n * 2^20.
Proof. intros ?. unfold shl64. rewrite Z.shiftl_mul_pow2 by lia. apply wrap64_id. unfold in_int64. lia. Qed.

Lemma window_equal_peak a b : window_equal a b = true → wn_Peak a = wn_Peak b ∧ wn_Envelope a = wn_Envelope b.
Proof. unfold window_equal. intros ?. bool_hyps. lia. Qed.

Lemma check_window_ok p steady w :
  0 < mp_SHM p < mp_Baseline p → mp_Baseline p ≤ 2^30 → check_window p steady w = true →
  wn_Envelope w = envelope_of p w ∧ 0 < envelope_of p w ≤ 2^51 ∧ (steady = true → SFltb (wn_Duration w) (float_of 60) = false).
Proof.
  unfold check_window, envelope_of. intros Hs Hb Hc. bool_hyps. rewrite (shl20 (mp_SHM p)), (shl20 (mp_Baseline p)) in * by lia.
  rewrite add64_id in * by (unfold in_int64; lia). split_and!; [lia|lia|lia|]. intros ->. done.
Qed.

(** The observation [id] has these two windows in the sealed telemetry. *)
Definition observed (f : PlanFiles) (p : MemPlan) (total : Z) (id : string) (ws : Window * Window) : Prop :=
  reobserve p total (pf_startup_lines f id) = Ok ws.1 ∧ reobserve p total (pf_steady_lines f id) = Ok ws.2.
Definition peak_envelope (p : MemPlan) (ws : list (Window * Window)) (start : Z) : Z :=
  foldl (λ m w, Z.max (Z.max m (envelope_of p w.1)) (envelope_of p w.2)) start ws.

Lemma check_observation_ok f p resource id o t t' :
  0 < mp_SHM p < mp_Baseline p → mp_Baseline p ≤ 2^30 → check_observation f p resource id o t = Ok t' →
  ∃ total a b row, total_mib resource = Some total ∧ observed f p total id (a, b) ∧
    ty_envelope t' = peak_envelope p [(a, b)] (ty_envelope t) ∧ 0 < ty_envelope t' ∧ ty_envelope t' ≤ Z.max (ty_envelope t) (2^51) ∧
    ty_cold t' + ty_warm t' = ty_cold t + ty_warm t + 1 ∧ ty_rows t' = ty_rows t ++ [row] ∧
    (mo_PodID row ∉ ty_seen t) ∧ ty_seen t' = {[mo_PodID row]} ∪ ty_seen t.
Proof.
  intros Hs Hb Hc. unfold check_observation in Hc. apply bind_ok in Hc as (start & _ & Hc). apply bind_ok in Hc as (served & _ & Hc).
  cbv zeta in Hc. destruct (_ || negb (is_string (get "status" served) _)); [done|]. destruct (total_mib resource) as [total|]; [|done].
  apply bind_ok in Hc as (a & Ha & Hc). apply bind_ok in Hc as (b & Hb' & Hc).
  destruct (negb (window_equal a _) || _) eqn:Hw; [done|]. destruct (bool_decide _ || _) eqn:Hp; [done|].
  destruct (str_in (ob_Phase o) _) eqn:Hph; [|done]. destruct (negb (check_window p false _) || _) eqn:Hk; [done|].
  destruct (_ || (wn_FirstUnix _ <? _)); [done|]. injection Hc as <-. bool_hyps. simpl in *.
  match goal with Hx : bool_decide _ = false |- _ => apply bool_decide_eq_false in Hx end.
  destruct (window_equal_peak a (ob_Startup o)) as [Ea Fa]; [done|]. destruct (window_equal_peak b (ob_Steady o)) as [Eb Fb]; [done|].
  destruct (check_window_ok p false (ob_Startup o)) as (Wa & Ra & _); [done..|]. destruct (check_window_ok p true (ob_Steady o)) as (Wb & Rb & _); [done..|].
  eexists total, a, b, _. unfold peak_envelope, observed, envelope_of in *. simpl. rewrite Ea, Eb, <- Wa, <- Wb. split_and!; try done; try lia.
  unfold str_in in Hph. cbn [existsb] in Hph. destruct (String.eqb_spec (ob_Phase o) "cold") as [E|_]; [by rewrite E; simpl; lia|].
  destruct (String.eqb_spec (ob_Phase o) "warm") as [_|_]; [lia|done].
Qed.

Lemma check_observations_ok f p resource l : 0 < mp_SHM p < mp_Baseline p → mp_Baseline p ≤ 2^30 → ∀ t t',
  check_observations f p resource l t = Ok t' → NoDup (mo_PodID <$> ty_rows t) → ty_seen t = list_to_set (mo_PodID <$> ty_rows t) →
  ∃ ws, Forall2 (λ io ws, ∃ total, total_mib resource = Some total ∧ observed f p total io.1 ws) l ws ∧
    ty_envelope t' = peak_envelope p ws (ty_envelope t) ∧ (0 ≤ ty_envelope t ≤ 2^51 → 0 ≤ ty_envelope t' ≤ 2^51) ∧
    (l ≠ [] → 0 < ty_envelope t') ∧
    ty_cold t' + ty_warm t' = ty_cold t + ty_warm t + Z.of_nat (length l) ∧
    length (ty_rows t') = (length (ty_rows t) + length l)%nat ∧ NoDup (mo_PodID <$> ty_rows t').
Proof.
  intros Hs Hb. induction l as [|[id o] l IH]; intros t t'; cbn [check_observations].
  { intros [= <-] ? _. exists []. split_and!; try done; [simpl; lia..]. }
  intros Hc Hnd Hseen. apply bind_ok in Hc as (t1 & Hone & Hc).
  apply check_observation_ok in Hone as (total & a & b & row & Ht & Ho & He & Hpos & Hm & Hn & Hrows & Hfresh & Hs1); [|done..].
  apply IH in Hc as (ws & Hws & He' & Hr' & Hpos' & Hn' & Hl' & Hnd').
  - exists ((a, b) :: ws). split_and!; [constructor; [by exists total|done]|by rewrite He', He|intros ?; apply Hr'; lia| | |rewrite Hl', Hrows, length_app; simpl; lia|done].
    + intros _. destruct l; [apply Forall2_nil_inv_l in Hws as ->; simpl in He'; lia|by apply Hpos'].
    + simpl. lia.
  - rewrite Hrows, fmap_app. apply NoDup_app. split_and!; [done| |apply NoDup_singleton].
    intros x Hx. simpl. rewrite list_elem_of_singleton. intros ->. apply Hfresh. rewrite Hseen. by apply elem_of_list_to_set.
  - rewrite Hs1, Hseen, Hrows, fmap_app. simpl. set_solver.
Qed.

Lemma Forall2_zip {A B C} (P : A → C → Prop) (l : list A) (k : list B) ws :
  length l = length k → Forall2 (λ io w, P io.1 w) (zip l k) ws → Forall2 P l ws.
Proof.
  revert k ws. induction l as [|x l IH]; intros [|y k] ws Hl Hf; try done; simpl in *.
  - by apply Forall2_nil_inv_l in Hf as ->.
  - apply Forall2_cons_inv_l in Hf as (w & ws' & ? & ? & ->). constructor; [done|]. eapply IH; [|done]. lia.
Qed.

(** ** What the sealed deployment and resource evidence say *)

(** A whole number of Gi or Mi, in MiB. *)
Definition mebibytes (v : JSON) (n : Z) : Prop := ∃ s d k, v = JString s ∧
  json_docs (String.substring 0 (String.length s - 2) s) = Some [d] ∧ dec_int d 0 = Some k ∧ 0 < k ≤ 2^30 ∧
  (has_suffix s "Gi" = true ∧ n = 1024 * k ∨ has_suffix s "Mi" = true ∧ n = k).
Lemma MiB_ok v n : MiB v = Some n → mebibytes v n.
Proof.
  destruct v as [| | | |s| | |]; try done. unfold MiB, mebibytes. set (body := String.substring _ _ s). intros Hm.
  assert (∀ mult, 1 ≤ mult ≤ 1024 → (match json_docs body with
    | Some [d] => match dec_int d 0 with Some n => if (n <=? 0) || (n >? 2^30) then None else Some (mul64 n mult) | None => None end
    | _ => None end) = Some n → ∃ d k, json_docs body = Some [d] ∧ dec_int d 0 = Some k ∧ 0 < k ≤ 2^30 ∧ n = mult * k) as Hp.
  { intros mult Hr. destruct (json_docs body) as [[|d []]|]; try done. destruct (dec_int d 0) as [k|] eqn:Hk; [|done]. destruct (_ || _) eqn:Hb; [done|].
    bool_hyps. intros [= <-]. exists d, k. split_and!; try done; try lia. rewrite mul64_id by (unfold in_int64; nia). lia. }
  destruct (has_suffix s "Gi") eqn:Hg; [|destruct (has_suffix s "Mi") eqn:Hi; [|done]]; apply Hp in Hm as (d & k & ? & ? & ? & ->); try lia;
    exists s, d, k; (split_and!; [done..| | |]; try lia); [left|right]; (split; [done|lia]).
Qed.
Definition is_shm (v : JSON) : Prop := get "name" v = JString "shm".
Lemma check_shm_ok shm volumes : ∀ found, check_shm shm volumes found = true →
  (∀ v, v ∈ volumes → is_shm v → mebibytes (Nested v ["emptyDir"; "sizeLimit"]) shm) ∧ (found = false → ∃ v, v ∈ volumes ∧ is_shm v).
Proof.
  unfold is_shm. induction volumes as [|v volumes IH]; intros found; cbn [check_shm]; [intros ->; split; [by intros v ?%elem_of_nil|done]|].
  assert (∀ found', check_shm shm volumes found' = true → (get "name" v = JString "shm" → mebibytes (Nested v ["emptyDir"; "sizeLimit"]) shm) →
    (found = false → found' = true → get "name" v = JString "shm") →
    (∀ x, x ∈ v :: volumes → get "name" x = JString "shm" → mebibytes (Nested x ["emptyDir"; "sizeLimit"]) shm) ∧
    (found = false → ∃ x, x ∈ v :: volumes ∧ get "name" x = JString "shm")) as Hgo.
  { intros found' [Ha He]%IH Hv Hf. split; [intros x [->|Hx]%elem_of_cons; auto|]. intros Hz. destruct found'.
    - exists v. split; [apply list_elem_of_here|auto].
    - destruct (He eq_refl) as (x & ? & ?). exists x. split; [by apply list_elem_of_further|done]. }
  destruct (get "name" v) as [| | | |n| | |] eqn:Hn; try (intros Hc; apply (Hgo _ Hc); [done|congruence]).
  destruct (String.eqb_spec n "shm") as [->|Hne]; [|intros Hc; apply (Hgo _ Hc); congruence].
  destruct (MiB _) as [k|] eqn:Hk; [|done]. destruct (Z.eqb_spec k shm) as [->|]; [|done]. intros Hc. apply (Hgo _ Hc); [|done]. intros _. by apply MiB_ok.
Qed.
Lemma check_patch_baseline p spec patch rollback : check_patch p spec patch rollback = true →
  ∃ c, get "containers" spec = JArray [c] ∧ mebibytes (Nested c ["resources"; "limits"; "memory"]) (mp_Baseline p).
Proof.
  unfold check_patch. destruct patch as [|p0 [|p1 []]], rollback as [|r0 [|r1 []]]; try done. destruct spec as [| | | | | | |fields]; try done.
  intros Hc. bool_hyps. destruct (get "containers" _) as [| | | | | |l|] eqn:Hg; try done. destruct l as [|c []]; try done; destruct c as [| | | | | | |c]; try done.
  destruct (get "name" _); try done. destruct (get "resources" _) as [| | | | | | |res] eqn:Hr; try done. bool_hyps.
  exists (JObject c). split; [done|]. apply MiB_ok. change (Nested (JObject c) ["resources"; "limits"; "memory"]) with (Nested (get "resources" (JObject c)) ["limits"; "memory"]).
  rewrite Hr. destruct (MiB _); [|done]. f_equal. lia.
Qed.
(** The limits of a summary are those of the deployment and of the resource evidence: the
    memory limit of the one container, the size of every [shm] volume, of which there is one,
    and the allocatable memory of the node. *)
Definition evident (deployment resource : JSON) (s : MemorySummary) : Prop :=
  let spec := Nested deployment ["spec"; "template"; "spec"] in
  (∃ c, get "containers" spec = JArray [c] ∧ mebibytes (Nested c ["resources"; "limits"; "memory"]) (ms_BaselineMiB s)) ∧
  (∃ v, v ∈ list_of (get "volumes" spec) ∧ is_shm v) ∧
  (∀ v, v ∈ list_of (get "volumes" spec) → is_shm v → mebibytes (Nested v ["emptyDir"; "sizeLimit"]) (ms_SharedMemoryMiB s)) ∧
  ∃ a, Nested resource ["memory"; "allocatable_mib"] = JFloat a ∧ SFeqb a (float_of (ms_AllocatableMiB s)) = true.

(** C36: The plan is conservative. When [ValidateOutput] accepts a planner output (and the
    other workloads are declared below 2^62 MiB), its numbers follow from the sealed
    evidence and not from the plan: the baseline is the memory limit of the deployed
    container, the shared memory the size of every [shm] volume of the deployment, and the
    allocatable memory that of the resource evidence; the envelope is the greatest recomputed lifetime peak of
    any startup or steady window plus the full shared-memory limit; the headroom is a quarter
    of it and at least two GiB; the candidate is the least multiple of 256 MiB that covers
    both, is below the baseline, fits the allocatable memory next to the other workloads and
    leaves the telemetry reserve inside them. There are at least two cold and two warm
    observations, each of a different pod. *)
Theorem ValidateOutput_conservative f input runtime m other s :
  other < 2^62 → ValidateOutput f input runtime m other = Ok s →
  ∃ p deployment resource total ws, let c := ms_CandidateMiB s in let env := ms_EnvelopeBytes s in let h := ms_HeadroomBytes s in
    pf_deployment f = Ok deployment ∧ pf_resource f = Ok resource ∧ evident deployment resource s ∧
    (∃ t, Nested resource ["memory"; "total_mib"] = JFloat t ∧ total = int_of t) ∧
    Forall2 (observed f p total) (mf_Observations m) ws ∧
    mp_Baseline p = ms_BaselineMiB s ∧ mp_SHM p = ms_SharedMemoryMiB s ∧
    env = peak_envelope p ws 0 ∧ 2^31 ≤ h ∧ env ≤ 4 * h ∧
    (∃ k, c = 256 * k ∧ 256 * (k - 1) * 2^20 < env + h ≤ c * 2^20) ∧
    c < ms_BaselineMiB s ∧ 0 ≤ other ∧ c + other ≤ ms_AllocatableMiB s ∧ ms_OtherMiB s = other ∧
    (∃ reserve, Telemetry m (pf_telemetry f) = Ok reserve ∧ ms_TelemetryReserveMiB s = match reserve with Some t => ta_ReserveMiB t | None => 0 end) ∧
    ms_TelemetryReserveMiB s ≤ other ∧
    2 ≤ ms_Cold s ∧ 2 ≤ ms_Warm s ∧ ms_Cold s + ms_Warm s = Z.of_nat (length (mf_Observations m)) ∧
    length (ms_Observations s) = length (mf_Observations m) ∧ NoDup (mo_PodID <$> ms_Observations s).
Proof.
  intros Hother Hv. unfold ValidateOutput in Hv. cbv zeta in Hv.
  apply bind_ok in Hv as (_ & _ & Hv). apply bind_ok in Hv as (p & _ & Hv).
  destruct (plan_header p m other) eqn:Hh; [|done]. apply bind_ok in Hv as (tel & Htelemetry & Hv).
  destruct (match tel with Some _ => _ | None => false end) eqn:Htel; [done|].
  apply bind_ok in Hv as (lock & _ & Hv). destruct (negb (bool_decide _) || _); [done|].
  apply bind_ok in Hv as (_ & _ & Hv). apply bind_ok in Hv as (deployment & Hdeployment & Hv). apply bind_ok in Hv as (resource & Hresource & Hv).
  destruct (_ || negb (Nat.eqb (length (mf_Observations m)) _)) eqn:Hlen; [done|]. destruct (check_shm _ _ _) eqn:Hshm; [|done].
  apply bind_ok in Hv as (patch & _ & Hv). apply bind_ok in Hv as (rollback & _ & Hv). destruct (_ || negb (check_patch _ _ _ _)) eqn:Hpatch; [done|].
  apply bind_ok in Hv as (t & Ht & Hv). destruct (_ || negb (_ =? mp_Minimum p)) eqn:Hbudget; [done|].
  apply bind_ok in Hv as (_ & _ & Hv). apply bind_ok in Hv as (_ & _ & Hv). apply bind_ok in Hv as (artifacts & _ & Hv). injection Hv as <-.
  apply orb_false_iff in Hpatch as [_ Hpatch%negb_false_iff]. apply check_patch_baseline in Hpatch. apply check_shm_ok in Hshm as [Hshm Hfound].
  assert (∃ a, Nested resource ["memory"; "allocatable_mib"] = JFloat a ∧ SFeqb a (float_of (mp_Allocatable p)) = true) as Halloc.
  { apply orb_false_iff in Hlen as [Ha%negb_false_iff _]. destruct (Nested resource _) as [| | |a| | | |]; try done. by exists a. }
  unfold plan_header in Hh. bool_hyps. rewrite add64_id in * by (unfold in_int64; lia).
  apply check_observations_ok in Ht as (ws & Hws & He & Hr & Hpos & Hn & Hl & Hnd); [|lia|lia|constructor|done].
  simpl in *. apply Nat.eqb_eq in H7. rewrite length_zip, H7, Nat.min_id in *. apply (Forall2_zip (λ id w, ∃ n, total_mib resource = Some n ∧ observed f p n id w)) in Hws; [|done].
  assert (0 < ty_envelope t ≤ 2^51) as Hr'.
  { split; [|apply Hr; lia]. apply Hpos. intros Hz%(f_equal length). rewrite length_zip in Hz. simpl in Hz. lia. }
  destruct (budget_exact _ Hr') as (? & ? & _ & Hc & ? & ?). rewrite H2 in *.
  destruct (total_mib resource) as [total|] eqn:Htotal; [|destruct Hws as [|? ? ? ? (? & [=] & _)]; simpl in *; lia].
  exists p, deployment, resource, total, ws. split_and!; try done; try lia.
  - split_and!; [exact Hpatch|by apply Hfound|exact Hshm|exact Halloc].
  - unfold total_mib in Htotal. destruct (Nested resource _) as [| | |t'| | | |] eqn:Ht'; try done. destruct (_ || _); [done|]. injection Htotal as <-.
    exists t'. split; [exact Ht'|done].
  - eapply Forall2_impl; [exact Hws|]. intros ? ? (? & [= <-] & ?). done.
  - apply Z.div_exact in Hc; [|lia]. exists (mp_Minimum p / 256). split; [lia|]. split; lia.
  - exists tel. split; [destruct (Telemetry m _); [by injection Htelemetry as ->|done]|]. by destruct tel.
  - destruct tel; simpl; lia.
Qed.
End Plan.

(** ** A concrete plan: four observations of a pod limited to 8 GiB *)

Module PlanFixture.
Definition digits : JSONText := λ s, option_map (λ n, [JInt n]) (ParseInt s).
(** A digest with the right shape that tells texts of different length apart. *)
Definition Sum (s : string) : string :=
  let n := str_len s in String.string_of_list_ascii (hex_digit <$> [n / 4096 mod 16; n / 256 mod 16; n / 16 mod 16; n mod 16])
  +:+ "000000000000000000000000000000000000000000000000000000000000".
#[local] Existing Instance digits.
#[local] Instance text : JSONRender := render.

Definition line (t : Z) (peak : string) : option Sample := Some (mkSample (t * 10^9) t
  ("MemTotal: 33554432 kB" +:+ String newline ("MemAvailable: 20000000 kB" +:+ String newline "SwapTotal: 0 kB")) "cg" "/pod"
  (list_to_map [("memory.current", "1073741824"); ("memory.peak", peak); ("memory.max", "8589934592"); ("memory.swap.current", "0");
    ("memory.stat", "anon 500" +:+ String newline ("file 400" +:+ String newline "shmem 300"));
    ("memory.events", "high 0" +:+ String newline ("max 0" +:+ String newline ("oom 0" +:+ String newline "oom_kill 0")));
    ("memory.pressure", "some avg10=0.00 total=0" +:+ String newline "full avg10=0.00 total=0")])).
Definition startup_lines := [line 1 "1200000000"; line 2 "1300000000"].
Definition steady_lines := [line 10 "2000000000"; line 40 "2147483648"; line 70 "2147483648"].
Definition window (l : list (option Sample)) : Window := match observeWindow l None 8192 1024 32768 with Ok w => w | Err _ => Window0 end.

Definition resources (mem : string) : JSON :=
  JObject [("limits", JObject [("memory", JString mem)]); ("requests", JObject [("memory", JString mem)])].
Definition spec (mem : string) : JSON := JObject [
  ("containers", JArray [JObject [("name", JString "sglang"); ("resources", resources mem)]]);
  ("volumes", JArray [JObject [("emptyDir", JObject [("sizeLimit", JString "1Gi")]); ("name", JString "shm")]])].
Definition patch (a b : string) : list Patch :=
  [mkPatch "test" "/spec/template/spec" (spec a); mkPatch "replace" "/spec/template/spec/containers/0/resources" (resources b)].

Definition pod (id : string) : string := id +:+ "34567890123456789012345678901234567".
Definition phase (id : string) : string := if str_in id ["a"; "b"] then "cold" else "warm".
Definition served (id : string) : JSON := JObject [
  ("pod", JObject [("image_id", JString "img"); ("node", JString "n"); ("uid", JString (pod id))]);
  ("runtime", JString "r"); ("status", JString "measured-not-qualified")].
Definition key : JSON := JObject [("image_id", JString "img"); ("node", JString "n"); ("runtime", JString "r")].

Definition manifest : Manifest := mkManifest 1 "sglang-memory-evidence" "" "" "rev" ["a"; "b"; "c"; "d"] {["workload.json" := Sum ""]}.
Definition plan : MemPlan := mkMemPlan 1 "sglang-host-memory-plan" "plan-only-unqualified" 8192 5120 5120 (Sum "") (Identity Sum key)
  (Identity Sum (spec "8Gi")) (Identity Sum (spec "5120Mi")) 1024 16384 1024 3221225472 2147483648
  ((λ id, mkObservation (phase id) (pod id) (window startup_lines) (window steady_lines)) <$> ["a"; "b"; "c"; "d"])
  (expected_evidence "/in" "/rt" (Sum "lock") manifest) (list_to_map ((λ n, (n, Sum n)) <$> Tools))
  {["patch.json" := Sum "patch"; "rollback.json" := Sum "rollback"]} ["1"; "2"; "3"; "4"; "5"; "6"].
Definition files : PlanFiles := mkPlanFiles (Ok tt) (Ok plan) (Err (Plain "none")) (Ok (Sum "lock")) (λ n, Ok (Sum n))
  (Ok (JObject [("spec", JObject [("template", JObject [("spec", spec "8Gi")])])]))
  (Ok (JObject [("memory", JObject [("allocatable_mib", JFloat (float_of 16384)); ("total_mib", JFloat (float_of 32768))])]))
  (Ok (patch "8Gi" "5120Mi")) (Ok (patch "5120Mi" "8Gi"))
  (λ id, Ok (JObject [("cache_state", JString (phase id)); ("pod", JObject [("uid", JString (pod id))]); ("status", JString "observed-not-qualified")]))
  (λ id, Ok (served id)) (λ _, Ok (startup_lines, None)) (λ _, Ok (steady_lines, None))
  (λ name, Ok (if name =s "patch.json" then "patch" else if name =s "rollback.json" then "rollback" else "plan")).
End PlanFixture.

#[local] Existing Instance PlanFixture.digits.
#[local] Existing Instance PlanFixture.text.
Lemma ValidateOutput_conservative_witness :
  ∃ s p deployment resource total ws, ValidateOutput PlanFixture.Sum PlanFixture.files "/in" "/rt" PlanFixture.manifest 1024 = Ok s ∧
    ms_CandidateMiB s = 5120 ∧ evident deployment resource s ∧ Forall2 (observed PlanFixture.files p total) (mf_Observations PlanFixture.manifest) ws ∧
    ms_EnvelopeBytes s = peak_envelope p ws 0.
Proof.
  assert (∃ s, ValidateOutput PlanFixture.Sum PlanFixture.files "/in" "/rt" PlanFixture.manifest 1024 = Ok s ∧ ms_CandidateMiB s = 5120)
    as (s & Hs & Hc) by (eexists; split; [vm_compute; reflexivity|reflexivity]).
  destruct (ValidateOutput_conservative PlanFixture.Sum PlanFixture.files "/in" "/rt" PlanFixture.manifest 1024 s ltac:(lia) Hs)
    as (p & deployment & resource & total & ws & _ & _ & Hev & _ & Hws & _ & _ & He & _).
  exists s, p, deployment, resource, total, ws. exact (conj Hs (conj Hc (conj Hev (conj Hws He)))).
Defined.
