(* ===== verification/PerfBundle.v ===== *)
(** The performance evidence bundle ([internal/performance/bundle.go], [experimental_kv.go]):
    which trees of files are a sealed bundle, the bounds of a summary, and the fence around
    an experimental cache runtime in a comparison.

    File contents reach the model as the answers of [safefile.Read] and of the directory
    walk; [Sum] (hex SHA-256) is standard-library code and stays a parameter. *)
From S2P Require Import Prelude Json Types Safefile Config Wire Evidence Domain MemoryBundle.
#[local] Open Scope Z_scope.

Definition MaxFile : Z := 64 * 2^20.
Definition MaxBundle : Z := 256 * 2^20.
Definition MaxArtifact : Z := 512 * 2^10.

Definition Digest : string → bool := hex_string 64.
Definition name_char (c : ascii) : bool := is_alnum c || existsb (Ascii.eqb c) ["_"%char; "."%char; "-"%char].
Definition Name : string → bool := headed_name name_char 0 99.

Definition Relative (name : string) : bool :=
  negb ((name =s "") || (str_len name >? 240) || (clean name <>s name) || is_abs name)
  && forallb (λ part, Name part && (part <>s ".") && (part <>s "..")) (split_on "/"%char name).

Record Manifest := mkManifest {
  pm_Schema : Z;
  pm_Kind : string;
  pm_Target : string;
  pm_SourceRevision : string;
  pm_Files : gmap string string }.
Definition Manifest0 : Manifest := mkManifest 0 "" "" "" ∅.
Definition dec_Manifest : decoder Manifest := dec_struct [
  at_key "schema" dec_int pm_Schema (λ x '(mkManifest _ b c d e), mkManifest x b c d e);
  at_key "kind" dec_string pm_Kind (λ x '(mkManifest a _ c d e), mkManifest a x c d e);
  at_key "target" dec_string pm_Target (λ x '(mkManifest a b _ d e), mkManifest a b x d e);
  at_key "source_revision" dec_string pm_SourceRevision (λ x '(mkManifest a b c _ e), mkManifest a b c x e);
  at_key "files" (dec_map "" dec_string) pm_Files (λ x '(mkManifest a b c d _), mkManifest a b c d x)].

(** ** The bounds of a summary *)

Fixpoint check_artifacts (l : list Artifact) (seen : list string) : result unit :=
  match l with
  | [] => Ok tt
  | a :: l =>
    reject str_in (ar_Name a) seen || negb (Relative (ar_Name a)) || (ar_Content a <>s "") || negb (Digest (ar_SHA256 a))
        || (ar_Size a <? 1) || (ar_Size a >? MaxArtifact)
      with Plain "invalid private performance artifact metadata" ;;
    check_artifacts l (ar_Name a :: seen)
  end.

Definition ValidateSummary (s : PerformanceSummary) : result unit :=
  reject negb (ps_Schema s =? 1) || negb (PerformanceKind (ps_Kind s)) || negb (Digest (ps_SHA256 s))
      || (str_len (ps_Status s) =? 0) || (str_len (ps_Status s) >? 80) || (str_len (ps_Reason s) =? 0) || (str_len (ps_Reason s) >? 300)
      || (Z.of_nat (length (ps_Fields s)) >? 40) || (Z.of_nat (length (ps_Artifacts s)) >? 100)
      || (Z.of_nat (length (ps_Limitations s)) >? 20) || (Z.of_nat (size (ps_Preconditions s)) >? 20)
    with Plain "invalid bounded performance summary" ;;
  reject existsb (λ f, (str_len (pf_Name f) >? 80) || (str_len (pf_Value f) >? 256) || (str_len (pf_Unit f) >? 40) || (str_len (pf_State f) >? 80))
      (ps_Fields s)
    with Plain "performance summary field exceeds bounds" ;;
  reject existsb (λ note, str_len note >? 500) (ps_Limitations s) with Plain "performance limitation exceeds bound" ;;
  reject existsb (λ kv, negb (Name kv.1) || (str_len kv.2 >? 256)) (map_to_list (ps_Preconditions s))
    with Plain "invalid performance precondition" ;;
  check_artifacts (ps_Artifacts s) [].

(** ** The experimental cache descriptor *)

Record ExperimentalKVConfiguration := mkKVConfiguration {
  kc_GPUArch : string;
  kc_TensorParallel : Z;
  kc_ComputeDType : string;
  kc_Attention : string;
  kc_HeadDimension : Z;
  kc_KVHeads : Z;
  kc_QueryHeads : Z;
  kc_PageSize : Z;
  kc_Rotation : string }.
Definition KVConfiguration0 : ExperimentalKVConfiguration := mkKVConfiguration "" 0 "" "" 0 0 0 0 "".

Record ExperimentalKVDescriptor := mkKVDescriptor {
  kd_Schema : Z;
  kd_Runtime : string;
  kd_SourceRepository : string;
  kd_SourceRevision : string;
  kd_SourceTreeSHA256 : string;
  kd_PatchSHA256 : string;
  kd_BinarySHA256 : option string;
  kd_CompilerRevision : string;
  kd_DependenciesSHA256 : string;
  kd_Codec : string;
  kd_ConfigurationSHA256 : string;
  kd_Configuration : ExperimentalKVConfiguration;
  kd_RequestedMode : string;
  kd_ObservedMode : string;
  kd_Qualification : string;
  kd_RestartRequired : bool }.
Definition KVDescriptor0 : ExperimentalKVDescriptor :=
  mkKVDescriptor 0 "" "" "" "" "" None "" "" "" "" KVConfiguration0 "" "" "" false.

Definition dec_KVConfiguration : decoder ExperimentalKVConfiguration := dec_struct [
  at_key "gpu_arch" dec_string kc_GPUArch (λ x '(mkKVConfiguration _ b c d e f g h i), mkKVConfiguration x b c d e f g h i);
  at_key "tensor_parallel" dec_int kc_TensorParallel (λ x '(mkKVConfiguration a _ c d e f g h i), mkKVConfiguration a x c d e f g h i);
  at_key "compute_dtype" dec_string kc_ComputeDType (λ x '(mkKVConfiguration a b _ d e f g h i), mkKVConfiguration a b x d e f g h i);
  at_key "attention" dec_string kc_Attention (λ x '(mkKVConfiguration a b c _ e f g h i), mkKVConfiguration a b c x e f g h i);
  at_key "head_dimension" dec_int kc_HeadDimension (λ x '(mkKVConfiguration a b c d _ f g h i), mkKVConfiguration a b c d x f g h i);
  at_key "kv_heads" dec_int kc_KVHeads (λ x '(mkKVConfiguration a b c d e _ g h i), mkKVConfiguration a b c d e x g h i);
  at_key "query_heads" dec_int kc_QueryHeads (λ x '(mkKVConfiguration a b c d e f _ h i), mkKVConfiguration a b c d e f x h i);
  at_key "page_size" dec_int kc_PageSize (λ x '(mkKVConfiguration a b c d e f g _ i), mkKVConfiguration a b c d e f g x i);
  at_key "rotation" dec_string kc_Rotation (λ x '(mkKVConfiguration a b c d e f g h _), mkKVConfiguration a b c d e f g h x)].
Definition dec_KVDescriptor : decoder ExperimentalKVDescriptor := dec_struct [
  at_key "schema" dec_int kd_Schema (λ x '(mkKVDescriptor _ b c d e f g h i j k l m n o p), mkKVDescriptor x b c d e f g h i j k l m n o p);
  at_key "runtime" dec_string kd_Runtime (λ x '(mkKVDescriptor a _ c d e f g h i j k l m n o p), mkKVDescriptor a x c d e f g h i j k l m n o p);
  at_key "source_repository" dec_string kd_SourceRepository (λ x '(mkKVDescriptor a b _ d e f g h i j k l m n o p), mkKVDescriptor a b x d e f g h i j k l m n o p);
  at_key "source_revision" dec_string kd_SourceRevision (λ x '(mkKVDescriptor a b c _ e f g h i j k l m n o p), mkKVDescriptor a b c x e f g h i j k l m n o p);
  at_key "source_tree_sha256" dec_string kd_SourceTreeSHA256 (λ x '(mkKVDescriptor a b c d _ f g h i j k l m n o p), mkKVDescriptor a b c d x f g h i j k l m n o p);
  at_key "patch_sha256" dec_string kd_PatchSHA256 (λ x '(mkKVDescriptor a b c d e _ g h i j k l m n o p), mkKVDescriptor a b c d e x g h i j k l m n o p);
  at_key "binary_sha256" (dec_ptr "" dec_string) kd_BinarySHA256 (λ x '(mkKVDescriptor a b c d e f _ h i j k l m n o p), mkKVDescriptor a b c d e f x h i j k l m n o p);
  at_key "compiler_revision" dec_string kd_CompilerRevision (λ x '(mkKVDescriptor a b c d e f g _ i j k l m n o p), mkKVDescriptor a b c d e f g x i j k l m n o p);
  at_key "dependencies_sha256" dec_string kd_DependenciesSHA256 (λ x '(mkKVDescriptor a b c d e f g h _ j k l m n o p), mkKVDescriptor a b c d e f g h x j k l m n o p);
  at_key "codec" dec_string kd_Codec (λ x '(mkKVDescriptor a b c d e f g h i _ k l m n o p), mkKVDescriptor a b c d e f g h i x k l m n o p);
  at_key "configuration_sha256" dec_string kd_ConfigurationSHA256 (λ x '(mkKVDescriptor a b c d e f g h i j _ l m n o p), mkKVDescriptor a b c d e f g h i j x l m n o p);
  at_key "configuration" dec_KVConfiguration kd_Configuration (λ x '(mkKVDescriptor a b c d e f g h i j k _ m n o p), mkKVDescriptor a b c d e f g h i j k x m n o p);
  at_key "requested_mode" dec_string kd_RequestedMode (λ x '(mkKVDescriptor a b c d e f g h i j k l _ n o p), mkKVDescriptor a b c d e f g h i j k l x n o p);
  at_key "observed_mode" dec_string kd_ObservedMode (λ x '(mkKVDescriptor a b c d e f g h i j k l m _ o p), mkKVDescriptor a b c d e f g h i j k l m x o p);
  at_key "qualification" dec_string kd_Qualification (λ x '(mkKVDescriptor a b c d e f g h i j k l m n _ p), mkKVDescriptor a b c d e f g h i j k l m n x p);
  at_key "restart_required" dec_bool kd_RestartRequired (λ x '(mkKVDescriptor a b c d e f g h i j k l m n o _), mkKVDescriptor a b c d e f g h i j k l m n o x)].

(** [^\[A-Za-z0-9\]\[A-Za-z0-9 ._+:/-\]{0,239}$] *)
Definition compiler_char (c : ascii) : bool :=
  is_alnum c || existsb (Ascii.eqb c) [" "%char; "."%char; "_"%char; "+"%char; ":"%char; "/"%char; "-"%char].
Definition compilerRevision : string → bool := headed_name compiler_char 0 239.
Definition codec : string := "ultraquant-rdna4-v1".
Definition validExperimentalKVHeadDimension (v : Z) : bool := (v =? 32) || (v =? 64) || (v =? 128) || (v =? 256).

Section Bundle.
Context `{Sha256} `{JSONText} (Sum : string → string).

(** The members in the order of their keys, as the encoder of a map emits them. *)
Definition canonicalExperimentalKVConfiguration (c : ExperimentalKVConfiguration) : string := sha256_hex (JObject [
  ("attention", JString (kc_Attention c)); ("compute_dtype", JString (kc_ComputeDType c)); ("gpu_arch", JString (kc_GPUArch c));
  ("head_dimension", JInt (kc_HeadDimension c)); ("kv_heads", JInt (kc_KVHeads c)); ("page_size", JInt (kc_PageSize c));
  ("query_heads", JInt (kc_QueryHeads c)); ("rotation", JString (kc_Rotation c)); ("tensor_parallel", JInt (kc_TensorParallel c))]).

Definition ValidateExperimentalKVDescriptor (d : ExperimentalKVDescriptor) (measured : bool) : result unit :=
  reject negb (kd_Schema d =? 1) || (kd_Runtime d <>s "sglang") || (kd_SourceRepository d <>s "sgl-project/sglang")
      || negb (hex_string 40 (kd_SourceRevision d)) || negb (Digest (kd_SourceTreeSHA256 d)) || negb (Digest (kd_PatchSHA256 d))
      || negb (Digest (kd_DependenciesSHA256 d)) || negb (compilerRevision (kd_CompilerRevision d))
      || (kd_Codec d <>s codec) || (kd_RequestedMode d <>s codec) || (kd_Qualification d <>s "unqualified") || negb (kd_RestartRequired d)
    with Plain "invalid experimental KV descriptor identity" ;;
  reject match kd_BinarySHA256 d with Some b => negb (Digest b) | None => false end with Plain "invalid experimental KV binary digest" ;;
  let c := kd_Configuration d in
  reject (kc_GPUArch c <>s "gfx1201") || negb (kc_TensorParallel c =? 1) || (kc_ComputeDType c <>s "float16")
      || (kc_Attention c <>s "causal-full") || negb (validExperimentalKVHeadDimension (kc_HeadDimension c))
      || (kc_KVHeads c <? 1) || (kc_KVHeads c >? 64) || (kc_QueryHeads c <? kc_KVHeads c) || (kc_QueryHeads c >? 128)
      || negb (Z.rem (kc_QueryHeads c) (kc_KVHeads c) =? 0) || negb (kc_PageSize c =? 1) || (kc_Rotation c <>s "post-rope-qk")
    with Plain "unsupported experimental KV configuration" ;;
  reject kd_ConfigurationSHA256 d <>s canonicalExperimentalKVConfiguration c with Plain "experimental KV configuration digest changed" ;;
  reject (kd_ObservedMode d <>s "not-run") && (kd_ObservedMode d <>s "compressed-gpu") with Plain "invalid experimental KV observed mode" ;;
  reject (kd_ObservedMode d =s "compressed-gpu") && negb (is_some (kd_BinarySHA256 d))
    with Plain "compressed experimental KV observation lacks binary digest" ;;
  reject measured && ((kd_ObservedMode d <>s "compressed-gpu") || negb (is_some (kd_BinarySHA256 d)))
    with Plain "experimental KV measured evidence requires compressed GPU execution" ;;
  Ok tt.

Definition raw_members (data : string) : option (gmap string JSON) :=
  match unmarshal data with Some v => dec_map JNull dec_raw v ∅ | None => None end.

Definition DecodeExperimentalKVDescriptor (data : string) (measured : bool) : result (option ExperimentalKVDescriptor) :=
  match raw_members data with
  | None => Err (Plain "experimental KV runtime evidence is malformed")
  | Some raw =>
    match raw !! "experimental_kv" with
    | None => Ok None
    | Some JNull => Err (Plain "experimental KV descriptor cannot be null")
    | Some v =>
      match dec_KVDescriptor v KVDescriptor0 with
      | None => Err (Plain "experimental KV descriptor is malformed")
      | Some d => _ ← ValidateExperimentalKVDescriptor d measured; Ok (Some d)
      end
    end
  end.

Definition nestedEvidencePath (prefix name : string) : option string :=
  if negb (Relative prefix) || negb (Relative name) then None else
  let joined := path_join prefix name in if Relative joined then Some joined else None.

Definition runtimeRequestedExperimentalKV (data : string) : bool :=
  match unmarshal data ≫= λ v, dec_lenient [at_key "launch" (dec_list ∅ (dec_map JNull dec_raw)) id (λ x _, x)] v [] with
  | None => false
  | Some launches =>
    existsb (λ launch : gmap string JSON,
      match launch !! "--attention-backend" with Some (JString backend) => backend =s codec | _ => false end) launches
  end.
Definition runtimeHasExperimentalKVDescriptor (data : string) : bool :=
  match raw_members data with Some raw => is_some (raw !! "experimental_kv") | None => false end.

(** [safefile.Read] below the root of the bundle. *)
Context (read : string → result string).
Definition file_digest (m : Manifest) (name : string) : string := default "" (pm_Files m !! name).

(** The runtime evidence of one profile, where the typed references lead to it. *)
Definition profile_runtime (m : Manifest) (bundle : string) : option string :=
  profileManifest ← nestedEvidencePath bundle "manifest.json";
  if negb (Digest (file_digest m profileManifest)) then None else
  match read profileManifest with
  | Err _ => None
  | Ok profileData =>
    v ← unmarshal profileData;
    sources ← dec_lenient [at_key "sources" (dec_map JNull dec_raw) id (λ x _, x)] v ∅;
    rawRuntime ← (sources : gmap string JSON) !! "runtime";
    runtimeName ← dec_string rawRuntime "";
    runtimePath ← nestedEvidencePath bundle runtimeName;
    if negb (Digest (file_digest m runtimePath)) then None else
    match read runtimePath with Err _ => None | Ok runtime => Some runtime end
  end.
Definition profileDescriptor (m : Manifest) (bundle : string) : result (option ExperimentalKVDescriptor) :=
  match profile_runtime m bundle with
  | None => Ok None
  | Some runtime =>
    let requested := runtimeRequestedExperimentalKV runtime in
    if negb requested && negb (runtimeHasExperimentalKVDescriptor runtime) then Ok None else
    descriptor ← DecodeExperimentalKVDescriptor runtime false;
    reject requested && negb (is_some descriptor) with Plain "requested experimental KV runtime lacks a sealed descriptor" ;;
    Ok descriptor
  end.

(** The two bundles a comparison names. *)
Definition comparison_spec : option (string * string) :=
  match read "spec.json" with
  | Err _ => None
  | Ok data =>
    v ← unmarshal data;
    spec ← dec_lenient [at_key "baseline_bundle" dec_string fst (λ x p, (x, p.2));
                        at_key "candidate_bundle" dec_string snd (λ x p, (p.1, x))] v ("", "");
    if negb (Relative spec.1) || negb (Relative spec.2) then None else Some spec
  end.
Definition validateExperimentalKVBundle (m : Manifest) : result unit :=
  if pm_Kind m <>s "comparison" then Ok tt else
  match comparison_spec with
  | None => Ok tt
  | Some (baselineBundle, candidateBundle) =>
    baseline ← profileDescriptor m baselineBundle;
    candidate ← profileDescriptor m candidateBundle;
    reject is_some baseline with Plain "experimental KV comparison baseline must remain unchanged" ;;
    reject match candidate with
           | Some d => (kd_ObservedMode d =s "compressed-gpu") && negb (is_some (kd_BinarySHA256 d))
           | None => false
           end with Plain "experimental KV comparison candidate lacks mapped binary digest" ;;
    Ok tt
  end.

(** ** The sealed tree *)

(** One entry the walk visits; [pe_Read] is what [safefile.Read] answers for it. *)
Record PerfEntry := mkPerfEntry {
  pe_Path : string;
  pe_Symlink : bool;
  pe_Perm : Z;
  pe_Dir : bool;
  pe_Read : result string }.

Definition perf_dirs (m : Manifest) : gset string :=
  {["."]} ∪ list_to_set (flat_map (λ kv, parents kv.1) (map_to_list (pm_Files m))).

Fixpoint walk_performance (m : Manifest) (l : list (option PerfEntry)) (total count : Z) : result Z :=
  match l with
  | [] => Ok count
  | None :: _ => Err (Plain "walk")
  | Some e :: l =>
    reject pe_Symlink e || negb (private_perm (pe_Perm e)) with Plain "performance evidence must be private and symlink-free" ;;
    if pe_Dir e then
      reject negb (bool_decide (pe_Path e ∈ perf_dirs m)) with Plain "unexpected performance directory" ;;
      walk_performance m l total count
    else if pe_Path e =s "manifest.json" then walk_performance m l total count
    else match pm_Files m !! pe_Path e with
    | None => Err (Plain "unexpected performance evidence file")
    | Some want =>
      b ← pe_Read e;
      reject total + str_len b >? MaxBundle with Plain "performance evidence exceeds storage bound" ;;
      reject Sum b <>s want with Plain "performance evidence file changed" ;;
      walk_performance m l (total + str_len b) (count + 1)
    end
  end.

Definition Verify (manifest : result string) (entries : list (option PerfEntry)) (digest : string) : result Manifest :=
  b ← manifest;
  reject negb (Digest digest) || (Sum b <>s digest) with Plain "performance manifest hash changed" ;;
  m ← Decode (λ v, dec_Manifest v Manifest0) (json_docs b);
  reject negb (pm_Schema m =? 1) || negb (PerformanceKind (pm_Kind m)) || negb (Digest (pm_SourceRevision m)) || negb (Name (pm_Target m))
      || (Z.of_nat (size (pm_Files m)) =? 0) || (Z.of_nat (size (pm_Files m)) >? 256) || negb (Digest (file_digest m "spec.json"))
    with Plain "unsupported or incomplete performance bundle" ;;
  reject existsb (λ kv, negb (Relative kv.1) || (kv.1 =s "manifest.json") || negb (Digest kv.2)) (map_to_list (pm_Files m))
    with Plain "unsafe performance manifest entry" ;;
  count ← walk_performance m entries 0 0;
  reject negb (count =? Z.of_nat (size (pm_Files m))) with Plain "performance evidence file missing" ;;
  _ ← validateExperimentalKVBundle m;
  Ok m.
End Bundle.

(** ** Accepted bundles *)

Section Sealed.
Context `{Sha256} `{JSONText} (Sum : string → string).

(** The regular files of the walk other than the manifest. *)
Definition perf_files (l : list (option PerfEntry)) : list PerfEntry :=
  List.filter (λ e, negb (pe_Dir e) && (pe_Path e <>s "manifest.json")) (omap id l).
Definition perf_size (l : list PerfEntry) : Z :=
  foldr (λ e n, match pe_Read e with Ok b => str_len b | Err _ => 0 end + n) 0 l.

Lemma walk_performance_ok m l : ∀ total count n,
  total ≤ MaxBundle → walk_performance Sum m l total count = Ok n →
  n = count + Z.of_nat (length (perf_files l)) ∧
  total + perf_size (perf_files l) ≤ MaxBundle ∧
  (∀ e, e ∈ omap id l → pe_Symlink e = false ∧ private_perm (pe_Perm e) = true ∧ (pe_Dir e = true → pe_Path e ∈ perf_dirs m)) ∧
  (∀ e, e ∈ perf_files l → ∃ b, pe_Read e = Ok b ∧ pm_Files m !! pe_Path e = Some (Sum b)).
Proof.
  induction l as [|[e|] l IH]; intros total count n Ht; csimpl; [intros [= <-]| |done].
  { split_and!; [unfold perf_files; simpl; lia|unfold perf_files; simpl; lia| |]; intros e He; by apply elem_of_nil in He. }
  destruct (pe_Symlink e || negb (private_perm (pe_Perm e))) eqn:Hs; [done|]. bool_hyps. unfold perf_files in *. csimpl.
  destruct (pe_Dir e) eqn:Hdir; csimpl.
  { destruct (bool_decide (pe_Path e ∈ perf_dirs m)) eqn:Hd; [|done]. csimpl. apply bool_decide_eq_true in Hd.
    intros (-> & ? & Hl & Hf)%IH; [|done]. split_and!; [done..| |done]. intros x [->|Hx]%elem_of_cons; auto. }
  destruct (String.eqb_spec (pe_Path e) "manifest.json") as [Hm|Hm]; csimpl.
  { intros (-> & ? & Hl & Hf)%IH; [|done]. split_and!; [done..| |done]. intros x [->|Hx]%elem_of_cons; [|auto].
    split_and!; [done|done|]. by rewrite Hdir. }
  destruct (pm_Files m !! pe_Path e) as [d|] eqn:Hd; [|done]. destruct (pe_Read e) as [b|] eqn:Hb; [|done]. csimpl.
  destruct (total + str_len b >? MaxBundle) eqn:Hk; [done|]. destruct (String.eqb_spec (Sum b) d) as [<-|]; [|done]. csimpl. bool_hyps.
  intros (-> & Hsz & Hl & Hf)%IH; [|lia]. split_and!; [lia|lia| |].
  - intros x [->|Hx]%elem_of_cons; [|auto]. split_and!; [done|done|]. by rewrite Hdir.
  - intros x [->|Hx]%elem_of_cons; eauto.
Qed.

(** What a sealed bundle is. *)
Record sealed (m : Manifest) (entries : list (option PerfEntry)) : Prop := {
  sl_files name digest : pm_Files m !! name = Some digest ↔
    ∃ e b, e ∈ perf_files entries ∧ pe_Path e = name ∧ pe_Read e = Ok b ∧ Sum b = digest;
  sl_private e : e ∈ omap id entries →
    pe_Symlink e = false ∧ private_perm (pe_Perm e) = true ∧ (pe_Dir e = true → pe_Path e ∈ perf_dirs m);
  sl_size : perf_size (perf_files entries) ≤ MaxBundle;
  sl_names name digest : pm_Files m !! name = Some digest → Relative name = true ∧ name ≠ "manifest.json" ∧ Digest digest = true }.

Lemma sealed_files m entries :
  (∀ e, e ∈ perf_files entries → ∃ b, pe_Read e = Ok b ∧ pm_Files m !! pe_Path e = Some (Sum b)) →
  NoDup (pe_Path <$> perf_files entries) → length (perf_files entries) = size (pm_Files m) →
  ∀ name digest, pm_Files m !! name = Some digest ↔
    ∃ e b, e ∈ perf_files entries ∧ pe_Path e = name ∧ pe_Read e = Ok b ∧ Sum b = digest.
Proof.
  intros Hf Hnd Hlen name digest. split.
  - intros Hl. assert (name ∈ pe_Path <$> perf_files entries) as Hx.
    { apply (covers_all _ (dom (pm_Files m)) Hnd).
      - intros x (e & -> & He)%list_elem_of_fmap. apply Hf in He as (b & _ & Hd). by apply elem_of_dom_2 in Hd.
      - by rewrite length_fmap, size_dom.
      - by apply elem_of_dom_2 in Hl. }
    apply list_elem_of_fmap in Hx as (e & -> & He). destruct (Hf _ He) as (b & Hb & Hd). simplify_eq. eauto 10.
  - intros (e & b & He & <- & Hb & <-). destruct (Hf _ He) as (b' & Hb' & Hd). congruence.
Qed.

(** The text of a runtime that the fence lets pass, and what a passing descriptor says. *)
Definition unfenced (runtime : string) : Prop :=
  runtimeRequestedExperimentalKV runtime = false ∧ runtimeHasExperimentalKVDescriptor runtime = false.
Record described (runtime : string) (d : ExperimentalKVDescriptor) : Prop := {
  ds_decodes : DecodeExperimentalKVDescriptor runtime false = Ok (Some d);
  ds_unqualified : kd_Qualification d = "unqualified" ∧ kd_RestartRequired d = true;
  ds_configuration : kd_ConfigurationSHA256 d = canonicalExperimentalKVConfiguration (kd_Configuration d);
  ds_heads : 1 ≤ kc_KVHeads (kd_Configuration d) ≤ 64 ∧ (kc_KVHeads (kd_Configuration d) | kc_QueryHeads (kd_Configuration d));
  ds_binary : kd_ObservedMode d = "compressed-gpu" → ∃ b, kd_BinarySHA256 d = Some b ∧ Digest b = true }.

Lemma decoded_described runtime d : DecodeExperimentalKVDescriptor runtime false = Ok (Some d) → described runtime d.
Proof.
  intros Hd. pose proof Hd as Hd'. unfold DecodeExperimentalKVDescriptor in Hd'. destruct (raw_members runtime) as [raw|]; [|done].
  destruct (raw !! "experimental_kv") as [v|]; [|done].
  assert (∃ d', dec_KVDescriptor v KVDescriptor0 = Some d' ∧ ValidateExperimentalKVDescriptor d' false = Ok tt ∧ d' = d) as (d' & _ & Hv & ->).
  { destruct v; try done;
      (destruct (dec_KVDescriptor _ KVDescriptor0) as [d'|]; [|done]; apply bind_ok in Hd' as ([] & Hv & [= <-]); eauto). }
  clear Hd'. unfold ValidateExperimentalKVDescriptor in Hv.
  destruct (_ || negb (kd_RestartRequired d)) eqn:H1; [done|]. destruct (match kd_BinarySHA256 d with Some b => negb (Digest b) | None => false end) eqn:Hbin; [done|].
  cbv zeta in Hv. destruct (_ || (kc_Rotation _ <>s _)) eqn:H2; [done|].
  destruct (kd_ConfigurationSHA256 d <>s _) eqn:H3; [done|]. destruct ((kd_ObservedMode d <>s "not-run") && _) eqn:H4; [done|].
  destruct ((kd_ObservedMode d =s "compressed-gpu") && _) eqn:H5; [done|]. bool_hyps.
  split; [done|done|done| |].
  - split; [lia|]. match goal with Hr : Z.rem _ _ = 0 |- _ => apply Z.rem_divide in Hr; [done|lia] end.
  - intros Hm. rewrite Hm in H5. cbn in H5. destruct (kd_BinarySHA256 d) as [b|]; [|done]. exists b. by bool_hyps.
Qed.

Lemma profileDescriptor_ok read m bundle r runtime :
  profileDescriptor read m bundle = Ok r → profile_runtime read m bundle = Some runtime →
  match r with None => unfenced runtime | Some d => described runtime d end.
Proof.
  unfold profileDescriptor, unfenced. intros Hp Hrun. rewrite Hrun in Hp. cbv zeta in Hp. destruct (runtimeRequestedExperimentalKV runtime) eqn:Hr; cbn [negb andb] in Hp.
  - apply bind_ok in Hp as (d & Hd & Hp). destruct d as [d|]; [|done]. injection Hp as <-. by apply decoded_described.
  - destruct (runtimeHasExperimentalKVDescriptor runtime) eqn:Hh; cbn [negb] in Hp; [|by injection Hp as <-].
    apply bind_ok in Hp as (d & Hd & Hp). injection Hp as ->. destruct r as [d|]; [by apply decoded_described|].
    exfalso. unfold runtimeHasExperimentalKVDescriptor, DecodeExperimentalKVDescriptor in *. destruct (raw_members runtime) as [raw|]; [|done].
    destruct (raw !! "experimental_kv") as [v|]; [|done]. destruct v; try done;
      (destruct (dec_KVDescriptor _ KVDescriptor0); [|done]; by apply bind_ok in Hd as ([] & _ & [=])).
Qed.

(** An accepted performance bundle is sealed and fenced: the directory holds exactly the
    files the manifest lists, each with the listed digest, private, free of symbolic links
    and within 256 MiB; and when it is a comparison, the runtime evidence of its baseline
    neither requests nor describes the experimental cache codec, while a candidate that
    does either carries a well-formed descriptor, unqualified, bound to its configuration
    by hash and, once it ran compressed, to the digest of the binary. *)
Theorem Verify_sealed read manifest entries digest m :
  Verify Sum read manifest entries digest = Ok m → NoDup (pe_Path <$> perf_files entries) →
  (∃ b, manifest = Ok b ∧ Sum b = digest) ∧ sealed m entries ∧
  (∀ baseline candidate, pm_Kind m = "comparison" → comparison_spec read = Some (baseline, candidate) →
    (∀ runtime, profile_runtime read m baseline = Some runtime → unfenced runtime) ∧
    (∀ runtime, profile_runtime read m candidate = Some runtime → unfenced runtime ∨ ∃ d, described runtime d)).
Proof.
  unfold Verify. intros Hv Hnd. apply bind_ok in Hv as (b & -> & Hv).
  destruct (negb (Digest digest) || _) eqn:Hw; [done|]. apply bind_ok in Hv as (m' & _ & Hv).
  destruct (_ || negb (Digest (file_digest m' "spec.json"))) eqn:Hh; [done|]. destruct (existsb _ _) eqn:Hn; [done|].
  apply bind_ok in Hv as (count & Hc & Hv). destruct (count =? _) eqn:Hcount; [|done].
  apply bind_ok in Hv as ([] & Hkv & [= <-]). bool_hyps.
  apply walk_performance_ok in Hc as (-> & Hsz & Hplain & Hf); [|unfold MaxBundle; lia]. split; [eauto|]. split.
  { split; [apply sealed_files; [done|done|lia]|done|simpl in Hsz; lia|]. intros name d Hd.
    apply existsb_false in Hn. rewrite Forall_forall in Hn. specialize (Hn (name, d) ltac:(by apply elem_of_map_to_list)).
    cbn in Hn. by bool_hyps. }
  intros bb cb Hk Hs. unfold validateExperimentalKVBundle in Hkv. rewrite Hk, Hs in Hkv. cbn [negb String.eqb Ascii.eqb Bool.eqb] in Hkv.
  apply bind_ok in Hkv as (rb & Hb & Hkv). apply bind_ok in Hkv as (rc & Hcd & Hkv). destruct rb; [done|].
  split; intros runtime Hr; [by apply (profileDescriptor_ok _ _ _ None _ Hb)|].
  pose proof (profileDescriptor_ok _ _ _ _ _ Hcd Hr). destruct rc; eauto.
Qed.
End Sealed.

(** ** A concrete comparison *)

Module PerfFixture.
#[export] Existing Instance render_hash.
Definition digest : string := "aaaaaaaaaaaaaaaaaaaaaaaaaaaaaaaaaaaaaaaaaaaaaaaaaaaaaaaaaaaaaaaa".
Definition Sum : string → string := λ _, digest.
Definition kv : ExperimentalKVConfiguration := mkKVConfiguration "gfx1201" 1 "float16" "causal-full" 128 8 32 1 "post-rope-qk".
Definition descriptor : JSON := JObject [
  ("schema", JInt 1); ("runtime", JString "sglang"); ("source_repository", JString "sgl-project/sglang");
  ("source_revision", JString "bbbbbbbbbbbbbbbbbbbbbbbbbbbbbbbbbbbbbbbb"); ("source_tree_sha256", JString digest);
  ("patch_sha256", JString digest); ("binary_sha256", JString digest); ("compiler_revision", JString "hipcc 6.4");
  ("dependencies_sha256", JString digest); ("codec", JString codec);
  ("configuration_sha256", JString (canonicalExperimentalKVConfiguration kv));
  ("configuration", JObject [
     ("gpu_arch", JString "gfx1201"); ("tensor_parallel", JInt 1); ("compute_dtype", JString "float16");
     ("attention", JString "causal-full"); ("head_dimension", JInt 128); ("kv_heads", JInt 8); ("query_heads", JInt 32);
     ("page_size", JInt 1); ("rotation", JString "post-rope-qk")]);
  ("requested_mode", JString codec); ("observed_mode", JString "compressed-gpu"); ("qualification", JString "unqualified");
  ("restart_required", JBool true)].
Definition files : list string :=
  ["spec.json"; "base/manifest.json"; "base/run.json"; "cand/manifest.json"; "cand/run.json"].
(** The texts of the bundle, and what they parse as. *)
#[export] Instance docs : JSONText := λ text,
  if text =s "manifest" then Some [JObject [("schema", JInt 1); ("kind", JString "comparison"); ("target", JString "ws");
      ("source_revision", JString digest); ("files", JObject ((λ n, (n, JString digest)) <$> files))]]
  else if text =s "spec" then Some [JObject [("baseline_bundle", JString "base"); ("candidate_bundle", JString "cand"); ("note", JNull)]]
  else if text =s "profile" then Some [JObject [("sources", JObject [("runtime", JString "run.json")])]]
  else if text =s "plain" then Some [JObject [("launch", JArray [JObject [("--attention-backend", JString "triton")]])]]
  else if text =s "candidate" then Some [JObject [("launch", JArray [JObject [("--attention-backend", JString codec)]]); ("experimental_kv", descriptor)]]
  else None.
Definition contents : gmap string string := list_to_map [
  ("spec.json", "spec"); ("base/manifest.json", "profile"); ("base/run.json", "plain");
  ("cand/manifest.json", "profile"); ("cand/run.json", "candidate")].
Definition read (name : string) : result string :=
  match contents !! name with Some b => Ok b | None => Err (Plain "open") end.
Definition file (n : string) : option PerfEntry := Some (mkPerfEntry n false 384 false (read n)).
Definition entries : list (option PerfEntry) :=
  [Some (mkPerfEntry "." false 448 true (Err (Plain ""))); Some (mkPerfEntry "base" false 448 true (Err (Plain ""))); file "base/manifest.json"; file "base/run.json";
   Some (mkPerfEntry "cand" false 448 true (Err (Plain ""))); file "cand/manifest.json"; file "cand/run.json"; file "manifest.json"; file "spec.json"].
Definition accepted : result Manifest := Verify Sum read (Ok "manifest") entries digest.
Definition manifest : Manifest := match accepted with Ok m => m | Err _ => Manifest0 end.
End PerfFixture.
Import PerfFixture.

Lemma perf_accepted : Verify PerfFixture.Sum read (Ok "manifest") entries digest = Ok manifest.
Proof. vm_compute. reflexivity. Qed.

Lemma Verify_sealed_witness :
  sealed PerfFixture.Sum manifest entries ∧ profile_runtime read manifest "cand" = Some "candidate" ∧
  ∃ d, described "candidate" d ∧ kd_ObservedMode d = "compressed-gpu".
Proof.
  destruct (Verify_sealed _ _ _ _ _ _ perf_accepted) as (_ & Hs & Hkv); [apply (bool_decide_unpack _); vm_compute; exact I|].
  assert (profile_runtime read manifest "cand" = Some "candidate") as Hc by (vm_compute; reflexivity).
  destruct (Hkv "base" "cand") as [_ Hcand]; [vm_compute; reflexivity|vm_compute; reflexivity|].
  split; [exact Hs|]. split; [exact Hc|]. destruct (Hcand _ Hc) as [[Hr _]|[d Hd]].
  - exfalso. vm_compute in Hr. discriminate Hr.
  - exists d. split; [exact Hd|]. destruct Hd as [Hdec _ _ _ _]. vm_compute in Hdec. injection Hdec as <-. reflexivity.
Defined.
