(* ===== verification/Auth.v ===== *)
(** Credentials and browser sessions: [internal/auth], the offline
    [internal/admin] commands and the credential routes of [internal/api].

    Random secrets and identifiers are arguments; [Verifier] (hex SHA-256 of a
    token) is standard-library code and stays a parameter. *)
From S2P Require Import Prelude Json Types Domain Store.

Record Actor := mkActor { a_ID : string; a_Name : string; a_Role : string }.

Record CredentialInfo := mkCredentialInfo {
  ci_ID : string;
  ci_Name : string;
  ci_Role : string;
  ci_CreatedAt : time;
  ci_ExpiresAt : time;
  ci_Revoked : bool }.

Definition Info (c : Credential) : CredentialInfo :=
  mkCredentialInfo (cr_ID c) (cr_Name c) (cr_Role c) (cr_CreatedAt c) (cr_ExpiresAt c) (cr_Revoked c).

Class TokenHash := Verifier : string → string.

Definition set_cr_Revoked (b : bool) (c : Credential) : Credential :=
  mkCredential (cr_ID c) (cr_Name c) (cr_Role c) (cr_Verifier c) (cr_CreatedAt c) (cr_ExpiresAt c) b.

Section Auth.
Context `{TokenHash} `{Encoding}.

(** [NewCredential] with the drawn identifier and token. *)
Definition NewCredential (now : time) (id token name role : string) (ttl : duration)
    : result (Credential * string) :=
  reject (str_len name <? 1) || (str_len name >? 80)
    with Plain "credential name must be 1..80 characters" ;;
  reject negb (all_chars (λ c, negb ((N_of_ascii c <? 32)%N || (N_of_ascii c =? 127)%N)) name)
    with Plain "credential name contains control characters" ;;
  reject (role <>s "owner") && (role <>s "operator") && (role <>s "viewer")
    with Plain "role must be owner, operator or viewer" ;;
  reject (ttl <? Minute) || (ttl >? 90 * 24 * Hour)
    with Plain "credential TTL must be 1 minute..90 days" ;;
  Ok (mkCredential id name role (Verifier token) now (now + ttl) false, token).

(** The scan of [Bearer] over one enumeration of the credentials; each test reads
    the clock again. *)
Fixpoint bearer_scan (clk : clock) (h : string) (l : list Credential) : result Actor :=
  match l with
  | [] => Err (Failure "unauthorized" "invalid or expired credential")
  | c :: l =>
    if (h =s cr_Verifier c) && negb (cr_Revoked c) && before (clk 0%nat) (cr_ExpiresAt c)
    then Ok (mkActor (cr_ID c) (cr_Name c) (cr_Role c))
    else bearer_scan (λ i, clk (S i)) h l
  end.

Definition Bearer (clk : clock) (s : State) (token : string) : result Actor :=
  reject negb (str_len token =? 43)
    with Failure "unauthorized" "invalid or expired credential" ;;
  bearer_scan clk (Verifier token) ((map_to_list (s_Credentials s)).*2).

(** [auth.Session]. *)
Definition SessionActor (clk : clock) (s : State) (token purpose : string) : result (Actor * Session) :=
  reject negb (str_len token =? 43) || (purpose =s "")
    with Failure "unauthorized" "browser session expired; sign in again" ;;
  match s_Sessions s !! Verifier token with
  | None => Err (Failure "unauthorized" "browser session expired; sign in again")
  | Some session =>
    reject (se_Purpose session <>s purpose) || after (clk 0%nat) (se_ExpiresAt session)
      with Failure "unauthorized" "browser session expired; sign in again" ;;
    match s_Credentials s !! se_CredentialID session with
    | None => Err (Failure "unauthorized" "browser credential revoked or expired")
    | Some c =>
      reject cr_Revoked c || after (clk 1%nat) (cr_ExpiresAt c)
        with Failure "unauthorized" "browser credential revoked or expired" ;;
      Ok (mkActor (cr_ID c) (cr_Name c) (cr_Role c), session)
    end
  end.

(** The transaction of [Login]: the credential is checked again on the snapshot. *)
Definition login_tx (token csrf credential purpose : string) (clk : clock) (s : State)
    : result (State * (Actor * Session)) :=
  a ← Bearer (λ i, clk (2 + i)%nat) s credential;
  reject Z.of_nat (size (s_Sessions s)) >=? 128
    with Failure "capacity" "browser session capacity reached; revoke old sessions" ;;
  let expires := clk 0%nat + 30 * Minute in
  (* a missing key reads as the zero credential *)
  let cexp := match s_Credentials s !! a_ID a with Some c => cr_ExpiresAt c | None => zeroTime end in
  let expires := if before cexp expires then cexp else expires in
  let session := mkSession (Verifier token) (a_ID a) csrf expires purpose in
  Ok (Event (clk 1%nat) (a_ID a) "login" (a_ID a) "succeeded"
        (set_s_Sessions (<[se_Verifier session := session]> (s_Sessions s)) s), (a, session)).

Definition Login (clk : clock) (w : write_outcome) (token csrf credential purpose : string) (db : Store)
    : Store * result (Actor * string * Session) :=
  if purpose =s ""
  then (db, Err (Failure "unauthorized" "browser session policy is unavailable"))
  else match Bearer (λ i, clk (10 + 2 * i)%nat) (AuthState db) credential with
  | Err e => (db, Err e)
  | Ok _ =>
    match Update (λ i, clk (1 + 2 * i)%nat) w (login_tx token csrf credential purpose) db with
    | (db, Ok (a, session)) => (db, Ok (a, token, session))
    | (db, Err e) => (db, Err e)
    end
  end.

(** The transaction shared by the [revoke] route and [bridgectl admin revoke]. *)
Definition revoke_tx (by_ id : string) (missing : error) (clk : clock) (s : State) : result (State * unit) :=
  match s_Credentials s !! id with
  | None => Err missing
  | Some c =>
    let s := set_s_Credentials (<[id := set_cr_Revoked true c]> (s_Credentials s)) s in
    let s := set_s_Sessions
      (filter (λ kv : string * Session, se_CredentialID kv.2 ≠ id) (s_Sessions s)) s in
    Ok (Event (clk 0%nat) by_ "credential.revoke" id "succeeded" s, tt)
  end.

(** [Server.revoke] behind its owner gate. *)
Definition api_revoke (clk : clock) (w : write_outcome) (a : Actor) (id : string) (db : Store)
    : Store * result unit :=
  if a_Role a <>s "owner" then (db, Err (Failure "forbidden" "owner role required"))
  else Update clk w (revoke_tx (a_ID a) id (Failure "not_found" "credential not found")) db.

(** The deletion of [Server.logout]. *)
Definition logout_tx (a : Actor) (cookie : string) (clk : clock) (s : State) : result (State * unit) :=
  Ok (Event (clk 0%nat) (a_ID a) "logout" (a_ID a) "succeeded"
        (set_s_Sessions (delete (Verifier cookie) (s_Sessions s)) s), tt).

Definition Authorized (uid owner : Z) : bool := (uid =? 0) || (uid =? owner).

(** The credential activation of [admin.Run] for bootstrap, recover and issue. *)
Definition activate_tx (action : string) (cr : Credential) (clk : clock) (s : State) : result (State * unit) :=
  reject (Z.of_nat (size (s_Credentials s)) >=? 128) && (action <>s "recover")
    with Plain "credential capacity reached; use local recovery to reset expired history" ;;
  let s := if action =s "recover" then set_s_Sessions ∅ (set_s_Credentials ∅ s) else s in
  Ok (Event (clk 0%nat) "local-owner" ("credential." +:+ action) (cr_ID cr) "succeeded"
        (set_s_Credentials (<[cr_ID cr := cr]> (s_Credentials s)) s), tt).

(** [admin.Run] after the configuration, owner and store checks; [created] tells
    whether the secret file could be created. *)
Definition admin_run (clk : clock) (w : write_outcome) (created : bool) (id token action role name : string)
    (ttl : duration) (db : Store) : Store * result (option CredentialInfo) :=
  if action =s "revoke" then
    match Update clk w (revoke_tx "local-owner" name (Plain "credential ID does not exist")) db with
    | (db, Ok _) => (db, Ok None)
    | (db, Err e) => (db, Err e)
    end
  else if (action <>s "bootstrap") && (action <>s "recover") && (action <>s "issue")
  then (db, Err (Plain "admin action must be bootstrap, recover, issue, list or revoke"))
  else if (action =s "bootstrap") && negb (bool_decide (size (s_Credentials (st_state db)) = 0%nat))
  then (db, Err (Plain "owner already bootstrapped; use explicit stopped-service recovery"))
  else if (action =s "issue") && bool_decide (size (s_Credentials (st_state db)) = 0%nat)
  then (db, Err (Plain "bootstrap an owner first"))
  else
    let fixed := (action =s "bootstrap") || (action =s "recover") in
    let role := if fixed then "owner" else role in
    let name := if fixed && (name =s "") then "local-owner" else name in
    match NewCredential (clk 0%nat) id token name role ttl with
    | Err e => (db, Err e)
    | Ok (cr, _) =>
      if negb created then (db, Err (Plain "credential output file refused"))
      else match Update (λ i, clk (S i)) w (activate_tx action cr) db with
           | (db, Ok _) => (db, Ok (Some (Info cr)))
           | (db, Err _) => (db, Err (Plain "credential activation failed; output file may exist but must not be used; inspect stopped-service state"))
           end
    end.

(** ** Lemmas *)

(** Credentials are stored under their identifier. *)
Definition keyed (s : State) : Prop := ∀ k c, s_Credentials s !! k = Some c → cr_ID c = k.

Lemma bearer_scan_ok clk h l a :
  bearer_scan clk h l = Ok a →
  ∃ c i, c ∈ l ∧ cr_Verifier c = h ∧ cr_Revoked c = false ∧ clk i < cr_ExpiresAt c ∧
    a = mkActor (cr_ID c) (cr_Name c) (cr_Role c).
Proof.
  revert clk. induction l as [|c l IH]; intros clk Hb; simpl in Hb; [done|].
  destruct (_ && _) eqn:Hc.
  - unfold before in Hc. bool_hyps. injection Hb as <-.
    exists c, 0%nat. split_and!; [constructor|done..].
  - apply IH in Hb as (c' & i & ? & ? & ? & ? & ?). exists c', (S i). split_and!; [by constructor|done..].
Qed.

Lemma Bearer_ok clk s token a :
  Bearer clk s token = Ok a →
  ∃ k c i, s_Credentials s !! k = Some c ∧ cr_Verifier c = Verifier token ∧ cr_Revoked c = false ∧
    clk i < cr_ExpiresAt c ∧ a = mkActor (cr_ID c) (cr_Name c) (cr_Role c).
Proof.
  unfold Bearer. intros Hb. split_hyp Hb. apply bearer_scan_ok in Hb as (c & i & Hin & ?).
  apply list_elem_of_fmap in Hin as ([k c'] & -> & Hin%elem_of_map_to_list). exists k, c', i. done.
Qed.

Lemma login_tx_ok token csrf credential purpose clk s s' a se :
  keyed s → login_tx token csrf credential purpose clk s = Ok (s', (a, se)) →
  ∃ c, s_Credentials s !! a_ID a = Some c ∧ cr_Verifier c = Verifier credential ∧ cr_Revoked c = false ∧
    a = mkActor (cr_ID c) (cr_Name c) (cr_Role c) ∧
    s_Credentials s' = s_Credentials s ∧ s_Sessions s' = <[Verifier token := se]> (s_Sessions s) ∧
    (size (s_Sessions s) < 128)%nat ∧
    se = mkSession (Verifier token) (cr_ID c) csrf (Z.min (cr_ExpiresAt c) (clk 0%nat + 30 * Minute)) purpose.
Proof.
  intros Hk. unfold login_tx. intros Hl. split_hyp Hl. bool_hyps.
  apply Bearer_ok in Hb as (k & c & i & Hc & Hv & Hr & _ & ->). simpl in *.
  rewrite (Hk _ _ Hc), Hc in *. exists c. rewrite (Hk _ _ Hc). split_and!; try done; [lia|].
  f_equal. unfold before. destruct (Z.ltb_spec (cr_ExpiresAt c) (clk 0%nat + 30 * Minute)); lia.
Qed.

Lemma SessionActor_ok clk s token purpose a se :
  SessionActor clk s token purpose = Ok (a, se) ↔
  str_len token = 43 ∧ purpose ≠ "" ∧ s_Sessions s !! Verifier token = Some se ∧
  se_Purpose se = purpose ∧ clk 0%nat ≤ se_ExpiresAt se ∧
  ∃ c, s_Credentials s !! se_CredentialID se = Some c ∧ cr_Revoked c = false ∧
    clk 1%nat ≤ cr_ExpiresAt c ∧ a = mkActor (cr_ID c) (cr_Name c) (cr_Role c).
Proof.
  unfold SessionActor, after. split.
  - intros Hs. split_hyp Hs; bool_hyps. split_and!; eauto.
  - intros (Hl & Hp & Hse & Hpu & Ht & c & Hc & Hr & Hct & ->).
    rewrite (proj2 (Z.eqb_eq _ _) Hl), (neqb_str _ _ Hp), Hse, Hpu, eqb_str_refl, Hc, Hr. simpl.
    by rewrite (proj2 (Z.ltb_ge _ _) Ht), (proj2 (Z.ltb_ge _ _) Hct).
Qed.

Lemma Login_ok clk w token csrf credential purpose db db' a token' se :
  Login clk w token csrf credential purpose db = (db', Ok (a, token', se)) →
  purpose ≠ "" ∧ token' = token ∧ ∃ v,
    login_tx token csrf credential purpose (λ i, clk (1 + 2 * (2 + i))%nat)
      (prune (clk 1%nat) (st_state db)) = Ok (v, (a, se)) ∧
    st_state db' = committed (λ i, clk (1 + 2 * i)%nat) v.
Proof.
  unfold Login. destruct (String.eqb_spec purpose ""); [done|].
  destruct (Bearer _ _ _); [|done]. destruct (Update _ _ _ _) as [db1 [[a1 se1]|]] eqn:Hu; [|done].
  intros [= -> -> -> ->]. apply Update_ok in Hu as (_ & v & Hv & ->). eauto.
Qed.

(** Revocation leaves no session of the credential and marks it revoked. *)
Lemma revoke_tx_ok by_ id missing clk s s' :
  revoke_tx by_ id missing clk s = Ok (s', tt) →
  (∃ c, s_Credentials s !! id = Some c ∧
        s_Credentials s' = <[id := set_cr_Revoked true c]> (s_Credentials s)) ∧
  (∀ k se, s_Sessions s' !! k = Some se → se_CredentialID se ≠ id ∧ s_Sessions s !! k = Some se).
Proof.
  unfold revoke_tx. intros Hr. split_hyp Hr. simpl. split; [eauto|].
  intros k se [? ?]%map_lookup_filter_Some. done.
Qed.

(** ** Properties *)

(** Signing in and authenticating round-trip: the token [Login] returns
    authenticates as the credential's identity for exactly the purpose it was issued
    for, until its expiry, which is neither later than thirty minutes after sign-in
    nor later than the credential's own expiry; at most 128 sessions exist. *)
Theorem Login_session_roundtrip clk w token csrf credential purpose db db' a se token' clk' :
  keyed (st_state db) →
  Login clk w token csrf credential purpose db = (db', Ok (a, token', se)) →
  str_len token = 43 →
  (∀ i, clk' i ≤ se_ExpiresAt se) → clk 3%nat ≤ se_ExpiresAt se →
  SessionActor clk' (st_state db') token' purpose = Ok (a, se) ∧
  (∀ clk2 purpose2 r, SessionActor clk2 (st_state db') token' purpose2 = Ok r → purpose2 = purpose) ∧
  se_ExpiresAt se ≤ clk 5%nat + 30 * Minute ∧
  (∃ c, s_Credentials (st_state db) !! a_ID a = Some c ∧ cr_Verifier c = Verifier credential ∧
     cr_Revoked c = false ∧ se_ExpiresAt se ≤ cr_ExpiresAt c) ∧
  (size (s_Sessions (st_state db')) ≤ 128)%nat.
Proof.
  intros Hk Hl Hlen Hclk Hcommit.
  apply Login_ok in Hl as (Hp & -> & v & Htx & Hst).
  apply login_tx_ok in Htx as (c & Hc & Hv & Hr & -> & Hcr & Hse & Hsz & ->); [|done]. simpl in *.
  assert (s_Sessions (st_state db') !! Verifier token = Some
    (mkSession (Verifier token) (cr_ID c) csrf (Z.min (cr_ExpiresAt c) (clk 5%nat + 30 * Minute)) purpose)) as Hs.
  { rewrite Hst. apply committed_Sessions. rewrite Hse. split; [apply lookup_insert_eq|]. done. }
  split_and!.
  - apply SessionActor_ok. simpl. split_and!; [done..| |].
    + apply Hclk.
    + exists c. rewrite Hst, committed_Credentials, Hcr. specialize (Hclk 1%nat). split_and!; [done..|lia|done].
  - intros clk2 purpose2 [a2 se2] (_ & _ & Hs2 & Hp2 & _)%SessionActor_ok. rewrite Hs in Hs2.
    injection Hs2 as <-. done.
  - lia.
  - exists c. split_and!; [done..|lia].
  - rewrite Hst. transitivity (size (s_Sessions v)); [apply map_size_filter|].
    rewrite Hse, map_size_insert. case_match; unfold id; lia.
Qed.

(** Revocation is immediate and complete: after a successful revocation no
    session token and no bearer token authenticates as the revoked credential, in any
    purpose and at any later time. *)
Theorem api_revoke_complete clk w by_ id db db' clk' token purpose :
  keyed (st_state db) → api_revoke clk w by_ id db = (db', Ok tt) →
  a_Role by_ = "owner" ∧
  (∀ a se, SessionActor clk' (st_state db') token purpose = Ok (a, se) → a_ID a ≠ id) ∧
  (∀ a, Bearer clk' (st_state db') token = Ok a → a_ID a ≠ id).
Proof.
  intros Hk. unfold api_revoke. destruct (String.eqb_spec (a_Role by_) "owner"); [|done]. simpl.
  intros (_ & v & Hv & ->)%Update_ok. simpl.
  apply revoke_tx_ok in Hv as ((c & Hc & Hcr) & Hse).
  assert (∀ k c', s_Credentials v !! k = Some c' → cr_Revoked c' = false → cr_ID c' ≠ id) as Hne.
  { rewrite Hcr. intros k c' [[<- <-]|[? Hc']]%lookup_insert_Some Hr; [done|].
    apply Hk in Hc'. congruence. }
  split_and!; [done| |].
  - intros a se (_ & _ & _ & _ & _ & c' & Hc' & Hr & _ & ->)%SessionActor_ok. simpl. eauto.
  - intros a (k & c' & i & Hc' & _ & Hr & _ & ->)%Bearer_ok. simpl. eauto.
Qed.

End Auth.

(** ** Examples *)

Module AuthFixture.
Definition hash : TokenHash := λ t, "v" +:+ t.
Definition enc : Encoding := λ _, Some 4096.
Definition token : string := "0123456789012345678901234567890123456789012".
Definition secret : string := "abcdefghijabcdefghijabcdefghijabcdefghijabc".
Definition cred : Credential := mkCredential "u" "owner" "owner" ("v" +:+ secret) 0 (Hour) false.
Definition db : Store :=
  let s := set_s_Credentials {["u" := cred]} (NewState "live") in mkStore s false s.
Definition owner : Actor := mkActor "u" "owner" "owner".
End AuthFixture.

Lemma AuthFixture_keyed : keyed (st_state AuthFixture.db).
Proof.
  intros k c. change (s_Credentials (st_state AuthFixture.db))
    with ({["u" := AuthFixture.cred]} : gmap string Credential).
  intros [<- <-]%lookup_singleton_Some. reflexivity.
Qed.

Lemma Login_session_roundtrip_witness :
  let h := AuthFixture.hash in let e := AuthFixture.enc in
  ∃ se, SessionActor (λ _, 0) (st_state (Login (λ _, 0) Written AuthFixture.token "csrf"
          AuthFixture.secret "live-browser-v2" AuthFixture.db).1) AuthFixture.token "live-browser-v2"
        = Ok (AuthFixture.owner, se).
Proof.
  intros h e. eexists.
  eapply (Login_session_roundtrip (λ _, 0) Written AuthFixture.token "csrf" AuthFixture.secret
    "live-browser-v2" AuthFixture.db).
  - exact AuthFixture_keyed.
  - vm_compute. reflexivity.
  - reflexivity.
  - intros _. vm_compute. discriminate.
  - vm_compute. discriminate.
Defined.

Lemma api_revoke_complete_witness :
  let h := AuthFixture.hash in let e := AuthFixture.enc in
  is_ok (Bearer (λ _, 0) (st_state AuthFixture.db) AuthFixture.secret) = true ∧
  (∀ a, Bearer (λ _, 0) (st_state (api_revoke (λ _, 0) Written AuthFixture.owner "u" AuthFixture.db).1)
    AuthFixture.secret = Ok a → a_ID a ≠ "u").
Proof.
  intros h e. split; [vm_compute; reflexivity|].
  eapply (api_revoke_complete (λ _, 0) Written AuthFixture.owner "u" AuthFixture.db _ (λ _, 0)
    AuthFixture.secret "live-browser-v2").
  - exact AuthFixture_keyed.
  - vm_compute. reflexivity.
Defined.
