(* ===== verification/Http.v ===== *)
(** The outer layers of the management API ([internal/api/server.go]): the request as the
    handlers read it, the host and origin guard, the limiter of authentication attempts,
    and authentication by bearer token or browser session. *)
From S2P Require Import Prelude Json Types Domain Store Auth Safefile Config.
From stdpp Require Import sorting.
#[local] Open Scope Z_scope.

(** ** Requests *)

(** The body [http.MaxBytesReader] guards: its size, and the documents its bytes parse as. *)
Record Body := mkBody { bd_Size : Z; bd_Docs : option (list JSON) }.

(** [rq_Path] is [URL.Path] and [rq_Segments] its segments as the multiplexer matches them
    (split before unescaping; a path that is not clean is redirected before any handler);
    [rq_Header] and [rq_Cookie] hold the first value of a name. *)
Record HttpRequest := mkHttpRequest {
  rq_Method : string;
  rq_Path : string;
  rq_Segments : list string;
  rq_RawQuery : string;
  rq_ForceQuery : bool;
  rq_Host : string;
  rq_RemoteAddr : string;
  rq_Header : gmap string string;
  rq_Cookie : gmap string string;
  rq_Body : Body }.

(** [r.Header.Get]. *)
Definition header (r : HttpRequest) (k : string) : string := default "" (rq_Header r !! k).

(** ** The attempt limiter *)

Record attempt := mkAttempt { at_n : Z; at_start : time }.
Definition attempt0 : attempt := mkAttempt 0 zeroTime.

(** [Server.attempts] and [Server.global]. *)
Record Limiter := mkLimiter { lm_attempts : gmap string attempt; lm_global : attempt }.
Definition Limiter0 : Limiter := mkLimiter ∅ attempt0.

Definition expired (now : time) (a : attempt) : bool := time_sub now (at_start a) >? Minute.
(** A window that is over starts again at [now]; then the attempt is counted. *)
Definition count_attempt (now : time) (a : attempt) : attempt :=
  let a := if expired now a then mkAttempt 0 now else a in mkAttempt (at_n a + 1) (at_start a).

Section Http.
Context `{NetParse} `{TokenHash}.

(** The client address without its port. *)
Definition client_ip (r : HttpRequest) : string :=
  match SplitHostPort (rq_RemoteAddr r) with Some (ip, _) => ip | None => rq_RemoteAddr r end.

(** [Server.limited] for the address [ip]. *)
Definition limit (now : time) (ip : string) (l : Limiter) : Limiter * bool :=
  let global := count_attempt now (lm_global l) in
  if at_n global >? 120 then (mkLimiter (lm_attempts l) global, true)
  else
    let a := count_attempt now (default attempt0 (lm_attempts l !! ip)) in
    let full := Z.of_nat (size (lm_attempts l)) >=? 256 in
    let attempts := if full then filter (λ kv : string * attempt, expired now kv.2 = false) (lm_attempts l) else lm_attempts l in
    if full && negb (is_some (attempts !! ip)) && (Z.of_nat (size attempts) >=? 256)
    then (mkLimiter attempts global, true)
    else (mkLimiter (<[ip := a]> attempts) global, at_n a >? 12).
Definition limited (now : time) (r : HttpRequest) (l : Limiter) : Limiter * bool := limit now (client_ip r) l.

(** ** The guard *)

(** [None] passes the request on. *)
Definition guard (c : Config) (r : HttpRequest) : option error :=
  if negb (existsb (λ h, EqualFold h (rq_Host r)) (co_AllowedHosts c))
  then Some (Failure "invalid_host" "Host is not in administrator policy")
  else if (header r "Origin" <>s "") && (header r "Origin" <>s co_ExternalURL c)
  then Some (Failure "forbidden" "cross-origin requests are forbidden")
  else if (header r "Sec-Fetch-Site" =s "cross-site") || (header r "Sec-Fetch-Site" =s "same-site")
  then Some (Failure "forbidden" "cross-origin browser requests are forbidden")
  else if rq_Method r =s "OPTIONS"
  then Some (Failure "forbidden" "cross-origin access is disabled")
  else None.

(** ** Authentication *)

Definition bearer_prefix : string := "Bearer ".

(** The identity [authenticate] establishes, or the error it reports. *)
Definition identify (c : Config) (clk : clock) (r : HttpRequest) (v : State) : result Actor :=
  let h := header r "Authorization" in
  if h <>s "" then
    if negb (has_prefix h bearer_prefix) then Err (Failure "unauthorized" "Bearer authentication required")
    else Bearer clk v (trim_prefix h bearer_prefix)
  else if negb (BrowserSessionsEnabled c)
  then Err (Failure "unauthorized" "sign in with a scoped CLI credential")
  else match rq_Cookie r !! BrowserSessionCookieName c with
  | None => Err (Failure "unauthorized" "sign in or use a scoped credential")
  | Some token =>
    '(a, session) ← SessionActor clk v token (BrowserSessionPurpose c);
    reject (rq_Method r <>s "GET") && (rq_Method r <>s "HEAD")
        && ((header r "Origin" <>s co_ExternalURL c) || (header r "X-CSRF-Token" <>s se_CSRF session))
      with Failure "forbidden" "valid same-origin CSRF token required" ;;
    Ok a
  end.

(** [authenticate]: a refused request counts as an attempt; the boolean is the refusal of
    the limiter, answered with [Retry-After]. *)
Definition authenticate (c : Config) (clk : clock) (r : HttpRequest) (v : State) (l : Limiter) : Limiter * bool * result Actor :=
  match identify c (λ i, clk (S i)) r v with
  | Ok a => (l, false, Ok a)
  | Err err =>
    let '(l, over) := limited (clk 0%nat) r l in
    (l, over, Err (if over then Failure "rate_limited" "authentication attempts limited; retry after one minute" else err))
  end.

(** ** Bodies *)

(** [Server.read] under the reader limit [max]. *)
Definition read_body {A} (max : Z) (shape : JSON → option A) (r : HttpRequest) : result A :=
  reject negb (has_prefix (header r "Content-Type") "application/json")
    with Failure "invalid" "Content-Type application/json required" ;;
  reject bd_Size (rq_Body r) >? max
    with Failure "too_large" "request body exceeds the allowed bound" ;;
  match Decode shape (bd_Docs (rq_Body r)) with
  | Ok a => Ok a
  | Err (Plain m) | Err (Failure _ m) => Err (Failure "invalid" m)
  end.

(** [Server.fail]: the status, code and message of a refusal. *)
Definition fail_status (code : string) : Z :=
  if code =s "unauthorized" then 401
  else if str_in code ["forbidden"; "browser_disabled"] then 403
  else if code =s "not_found" then 404
  else if str_in code ["conflict"; "source_drift"; "precondition_drift"; "idempotency_conflict"; "recovery_required"; "plan_expired"] then 409
  else if code =s "too_large" then 413
  else if str_in code ["capacity"; "rate_limited"] then 429
  else if str_in code ["unavailable"; "storage_unavailable"; "source_unavailable"; "stale_evidence"] then 503
  else if code =s "internal" then 500
  else 400.
Definition fail (e : error) : Z * string * string :=
  let '(code, message) := default ("internal", "operation failed; inspect local redacted diagnostics") (as_failure e) in
  (fail_status code, code, message).

(** ** What the limiter guarantees *)

(** The limiter over a sequence of attempts, and the attempts it let through. *)
Fixpoint limiter_after (l : Limiter) (evs : list (time * string)) : Limiter :=
  match evs with [] => l | (now, ip) :: evs => limiter_after (limit now ip l).1 evs end.
Fixpoint admitted (l : Limiter) (evs : list (time * string)) : list (time * string) :=
  match evs with
  | [] => []
  | (now, ip) :: evs =>
    let '(l', over) := limit now ip l in
    if over then admitted l' evs else (now, ip) :: admitted l' evs
  end.

(** One counter between two attempts: it counts the attempt, keeps its value or is
    dropped when its window is over; an attempt let through is counted within [N]. *)
Definition window_step (N : Z) (now : time) (hit : bool) (a a' : attempt) : Prop :=
  if hit then a' = count_attempt now a ∧ at_n a' ≤ N
  else a' = a ∨ a' = count_attempt now a ∨ (expired now a = true ∧ a' = attempt0).

(** The counter against the number [cnt] of attempts let through since [t]. *)
Definition window_inv (t N now : Z) (a : attempt) (cnt : Z) : Prop :=
  0 ≤ at_n a ∧ 0 ≤ cnt ≤ 2 * N ∧ (now < t → cnt = 0) ∧
  (at_start a < t → cnt ≤ N ∧ (expired now a = false → cnt ≤ at_n a)) ∧
  (t ≤ at_start a → cnt ≤ N + at_n a).

Lemma expired_spec now a : expired now a = true ↔ Minute < now - at_start a.
Proof. unfold expired, time_sub, Minute, Second. lia. Qed.
Lemma expired_false now a : expired now a = false ↔ now - at_start a ≤ Minute.
Proof. rewrite <- not_true_iff_false, expired_spec. lia. Qed.

Lemma window_inv_step t N now now' hit a a' cnt :
  1 ≤ N → 0 ≤ t → 0 ≤ now' → now ≤ now' ≤ t + Minute → window_inv t N now a cnt → window_step N now' hit a a' →
  window_inv t N now' a' (if hit && (t <=? now') then cnt + 1 else cnt).
Proof.
  intros HN Ht H0' Hnow (Hn & Hc & Hz & Hbefore & Hsince) Hs. unfold window_inv, window_step in *.
  assert (expired now a = true → expired now' a = true) as Hmono by (rewrite !expired_spec; lia).
  assert (0 ≤ at_n attempt0 ∧ at_start attempt0 < t) as [??] by (unfold attempt0, zeroTime, Second; simpl; lia).
  assert (expired now' (count_attempt now' a) = false) as Hfresh.
  { unfold count_attempt. destruct (expired now' a) eqn:He; apply expired_false; simpl; [unfold Minute, Second; lia|by apply expired_false]. }
  assert (Minute = 60000000000) as HM by reflexivity.
  unfold count_attempt in *. destruct hit; simpl.
  - destruct Hs as [-> HN']. revert HN' Hfresh. destruct (expired now' a) eqn:He; simpl; intros; destruct (Z.leb_spec t now').
    all: try apply expired_spec in He; try apply expired_false in He.
    all: try (assert (expired now a = false) as Hna by (apply expired_false; lia)).
    all: split_and!; intros; try lia.
    all: try (destruct Hbefore as [? Hb]; [lia|]); try (specialize (Hb Hna)); try split; intros; lia.
  - destruct Hs as [->|[->|[He ->]]].
    + split_and!; try done; try lia. intros Hst. destruct (Hbefore Hst) as [? Hb]. split; [done|].
      intros He. apply Hb. destruct (expired now a); [by rewrite (Hmono eq_refl) in He|done].
    + revert Hfresh. destruct (expired now' a) eqn:He; simpl; intros Hfresh.
      * apply expired_spec in He. split_and!; intros; try lia.
        all: destruct (decide (t ≤ at_start a)); [lia|destruct Hbefore as [? Hb]; [lia|]].
        all: try split; intros; try lia.
      * apply expired_false in He. assert (expired now a = false) as Hna by (apply expired_false; lia).
        split_and!; intros; try lia. destruct Hbefore as [? Hb]; [lia|]. specialize (Hb Hna). split; intros; lia.
    + apply expired_spec in He. split_and!; intros; try lia. destruct (decide (at_start a < t)) as [Hlt|]; [|lia].
      destruct (Hbefore Hlt) as [? _]. split; [done|]. intros Hx. apply expired_false in Hx.
      revert Hx. unfold attempt0. simpl. unfold zeroTime, Second. lia.
Qed.

(** The effect of one attempt on the two counters and on the table. *)
Lemma limit_global now ip l : window_step 120 now (negb (limit now ip l).2) (lm_global l) (lm_global (limit now ip l).1).
Proof.
  unfold limit, window_step. destruct (at_n (count_attempt now (lm_global l)) >? 120) eqn:Hg; bool_hyps; [simpl; auto|].
  cbv zeta. destruct (_ && _ && _); simpl; [auto|]. destruct (_ >? 12); simpl; auto.
Qed.

Lemma limit_entry now ip' ip l :
  window_step 12 now (negb (limit now ip' l).2 && (ip' =s ip))
    (default attempt0 (lm_attempts l !! ip)) (default attempt0 (lm_attempts (limit now ip' l).1 !! ip)).
Proof.
  unfold limit. destruct (at_n (count_attempt now (lm_global l)) >? 120); [simpl; auto|]. cbv zeta.
  set (m := if _ >=? 256 then _ else _).
  assert (default attempt0 (m !! ip) = default attempt0 (lm_attempts l !! ip)
    ∨ (expired now (default attempt0 (lm_attempts l !! ip)) = true ∧ default attempt0 (m !! ip) = attempt0)) as Hm.
  { subst m. destruct (_ >=? 256); [|by left]. rewrite map_lookup_filter. destruct (lm_attempts l !! ip) as [a|]; simpl; [|by left].
    destruct (decide (expired now a = false)) as [He|He]; [rewrite option_guard_True by done; by left|].
    rewrite option_guard_False by done. right. split; [by apply not_false_is_true|done]. }
  clearbody m. destruct (_ && _ && _); [simpl; tauto|]. simpl.
  destruct (String.eqb_spec ip' ip) as [->|Hne].
  - rewrite lookup_insert_eq, andb_true_r. simpl. unfold window_step. destruct (_ >? 12) eqn:Hn; bool_hyps; simpl; auto.
  - rewrite lookup_insert_ne, andb_false_r by done. simpl. tauto.
Qed.

Lemma limit_size now ip l :
  Z.of_nat (size (lm_attempts l)) ≤ 256 → Z.of_nat (size (lm_attempts (limit now ip l).1)) ≤ 256.
Proof.
  intros Hs. unfold limit. destruct (_ >? 120); [done|]. cbv zeta.
  destruct (Z.of_nat (size (lm_attempts l)) >=? 256) eqn:Hf; bool_hyps.
  - set (m := filter _ _). assert (size m ≤ size (lm_attempts l))%nat as Hle by (apply map_subseteq_size, map_filter_subseteq).
    clearbody m. destruct (m !! ip) as [a|] eqn:Hm; simpl.
    + rewrite map_size_insert, Hm. simpl. lia.
    + destruct (Z.of_nat (size m) >=? 256) eqn:Hn; bool_hyps; simpl; [lia|]. rewrite map_size_insert, Hm. simpl. lia.
  - simpl. rewrite map_size_insert. destruct (lm_attempts l !! ip); simpl; lia.
Qed.

(** The attempts of the addresses [sel] let through between [t] and a minute later. *)
Definition admitted_within (t : time) (sel : string → bool) (l : Limiter) (evs : list (time * string)) : Z :=
  Z.of_nat (length (filter (λ e : time * string, sel e.2 = true ∧ t ≤ e.1 ≤ t + Minute) (admitted l evs))).

Lemma admitted_later t sel evs l :
  Forall (λ e : time * string, t + Minute < e.1) evs → admitted_within t sel l evs = 0.
Proof.
  intros Hl. unfold admitted_within. revert l. induction Hl as [|[now ip] evs He Hl IH]; intros l; cbn [admitted]; [done|].
  destruct (limit now ip l) as [l' over]. destruct over; [apply IH|]. rewrite filter_cons, decide_False by (simpl in *; lia). apply IH.
Qed.

Lemma admitted_bound (sel : string → bool) (get : Limiter → attempt) t N evs :
  1 ≤ N → 0 ≤ t →
  (∀ now ip l, window_step N now (negb (limit now ip l).2 && sel ip) (get l) (get (limit now ip l).1)) →
  ∀ l now cnt, StronglySorted Z.le (now :: evs.*1) → 0 ≤ now →
  window_inv t N now (get l) cnt → cnt + admitted_within t sel l evs ≤ 2 * N.
Proof.
  intros HN Ht Hstep. induction evs as [|[now' ip] evs IH]; intros l now cnt Hs H0' Hi.
  { unfold admitted_within. simpl. destruct Hi as (_ & Hc & _). lia. }
  inversion Hs as [|? ? Hs' Hle]; subst. inversion Hle as [|? ? Hnow _]; subst. simpl in Hnow.
  destruct (Z.leb_spec now' (t + Minute)) as [Hin|Hout].
  - specialize (Hstep now' ip l). unfold admitted_within. cbn [admitted].
    destruct (limit now' ip l) as [l' over] eqn:Hl. simpl in Hstep.
    apply (window_inv_step t N now) with (cnt := cnt) in Hstep; [|done|done|lia|lia|done].
    specialize (IH l' now' _ Hs' ltac:(lia) Hstep). unfold admitted_within in IH.
    destruct over; simpl in IH; [done|]. rewrite filter_cons. simpl.
    destruct (sel ip); simpl in IH; [|rewrite decide_False by naive_solver; done].
    destruct (Z.leb_spec t now') as [Hge|Hlt].
    + rewrite decide_True by done. cbn [length]. lia.
    + rewrite decide_False by lia. done.
  - rewrite admitted_later; [destruct Hi as (_ & Hc & _); lia|]. apply Forall_cons. split; [done|].
    inversion Hs' as [|? ? _ Hle']; subst. change (Forall (Z.le now') (evs.*1)) in Hle'. rewrite Forall_fmap in Hle'.
    eapply Forall_impl; [exact Hle'|]. intros []; simpl; lia.
Qed.

Lemma window_inv_start t N : 1 ≤ N → 0 ≤ t → window_inv t N 0 attempt0 0.
Proof. intros. unfold window_inv, attempt0. simpl. split_and!; intros; try done; try split; intros; lia. Qed.

(** The limiter bounds password guessing: whatever the sequence of refused
    authentications and logins, over any minute at most 240 attempts in all and at most 24
    from one address get past it, and its table never holds more than 256 addresses. *)
Theorem limiter_bounds evs t ip :
  StronglySorted Z.le (0 :: evs.*1) → 0 ≤ t →
  admitted_within t (λ _, true) Limiter0 evs ≤ 240 ∧
  admitted_within t (λ a, a =s ip) Limiter0 evs ≤ 24 ∧
  Z.of_nat (size (lm_attempts (limiter_after Limiter0 evs))) ≤ 256.
Proof.
  intros Hs Ht. split_and!.
  - apply (admitted_bound (λ _, true) lm_global t 120 evs) with (now := 0) (cnt := 0); [lia|done| |done|lia|by apply window_inv_start].
    intros now i l. rewrite andb_true_r. apply limit_global.
  - apply (admitted_bound (λ a, a =s ip) (λ l, default attempt0 (lm_attempts l !! ip)) t 12 evs) with (now := 0) (cnt := 0);
      [lia|done|intros now i l; apply limit_entry|done|lia|by apply window_inv_start].
  - assert (∀ l, Z.of_nat (size (lm_attempts l)) ≤ 256 → Z.of_nat (size (lm_attempts (limiter_after l evs))) ≤ 256) as Hall.
    { clear Hs. induction evs as [|[now i] evs IH]; intros l Hl; [done|]. cbn [limiter_after]. by apply IH, limit_size. }
    apply Hall. done.
Qed.
End Http.

(** Fourteen attempts of one address within a minute: twelve pass. *)
Module HttpFixture.
Definition attempts : list (time * string) := (λ i : nat, (Hour + Z.of_nat i, "10.0.0.9")) <$> seq 0 14.
End HttpFixture.

Lemma limiter_bounds_witness :
  admitted_within Hour (λ a, a =s "10.0.0.9") Limiter0 HttpFixture.attempts = 12 ∧
  admitted_within Hour (λ a, a =s "10.0.0.9") Limiter0 HttpFixture.attempts ≤ 24.
Proof.
  split; [vm_compute; reflexivity|].
  assert (StronglySorted Z.le (0 :: HttpFixture.attempts.*1)) as Hs.
  { repeat constructor; vm_compute; discriminate. }
  exact (proj1 (proj2 (limiter_bounds HttpFixture.attempts Hour "10.0.0.9" Hs ltac:(vm_compute; discriminate)))).
Defined.
