(* ===== verification/Source.v ===== *)
(** The managed configuration source ([internal/source]): a single JSON document
    read with its content hash checked and replaced by compare-and-swap on its
    revision.  The file is either unreadable, undecodable or a decoded document;
    what is written decodes to the document that was encoded. *)
From S2P Require Import Prelude Json Types Domain Store.

Inductive SourceFile :=
| Absent
| Unreadable
| Malformed (message : string)
| Document (c : Configuration).

Section Source.
Context `{Sha256}.

Definition Read (f : SourceFile) : result Configuration :=
  match f with
  | Absent | Unreadable => Err (Failure "source_unavailable" "managed source is unavailable; import the reviewed configuration locally")
  | Malformed m => Err (Plain m)
  | Document c =>
    reject cf_Revision c <>s ContentRevision c
      with Failure "source_drift" "managed source content hash is invalid; re-import the reviewed source locally" ;;
    Ok c
  end.

(** The replacement of [Source.Update]; its write errors are plain errors. *)
Definition source_Update (w : write_outcome) (expected : string) (next : Configuration) (f : SourceFile)
    : SourceFile * result unit :=
  match Read f with
  | Err e => (f, Err e)
  | Ok current =>
    if cf_Revision current <>s expected
    then (f, Err (Failure "source_drift" "source changed since planning; no live effect dispatched"))
    else
      let next := set_cf_Revision (ContentRevision next) next in
      match w with
      | Written => (Document next, Ok tt)
      | WriteFailed replaced => (if replaced then Document next else f, Err (Plain "replace failed"))
      end
  end.

(** [Initialize] refuses to overwrite; the creation removes a partial file. *)
Definition Initialize (created : bool) (c : Configuration) (f : SourceFile) : SourceFile * result unit :=
  match f with
  | Absent =>
    let c := set_cf_Revision (ContentRevision c) c in
    if created then (Document c, Ok tt) else (Absent, Err (Plain "create failed"))
  | _ => (f, Err (Plain "source exists; import refuses overwrite"))
  end.

Lemma Read_ok f c : Read f = Ok c → f = Document c ∧ cf_Revision c = ContentRevision c.
Proof. destruct f; simpl; intros Hr; split_hyp Hr. by bool_hyps. Qed.

Lemma Read_document c : cf_Revision c = ContentRevision c → Read (Document c) = Ok c.
Proof. intros Hc. simpl. by rewrite Hc, eqb_str_refl. Qed.

Lemma source_Update_reads w expected next f f' :
  source_Update w expected next f = (f', Ok tt) →
  Read f' = Ok (set_cf_Revision (ContentRevision next) next).
Proof.
  unfold source_Update. destruct (Read f); [|done]. destruct (negb _); [done|].
  destruct w; [|done]. intros [= <-]. by apply Read_document.
Qed.

(** Replacing the source is a compare-and-swap whose error classes are honest.
    Success means the file now reads back as the requested content under its own
    content revision and was at the expected revision before; every wire failure
    ([*domain.Failure]) leaves the file untouched, so only a plain error is
    uncertain, and even then the file holds the old or the complete new document. *)
Theorem source_Update_cas w expected next f f' r :
  source_Update w expected next f = (f', r) →
  match r with
  | Ok _ => (∃ c, Read f = Ok c ∧ cf_Revision c = expected) ∧
      Read f' = Ok (set_cf_Revision (ContentRevision next) next)
  | Err (Failure _ _) => f' = f
  | Err (Plain _) => f' = f ∨ Read f' = Ok (set_cf_Revision (ContentRevision next) next)
  end.
Proof.
  unfold source_Update. destruct (Read f) as [c|e] eqn:Hr; [|intros [= <- <-]; destruct e; auto].
  destruct (String.eqb_spec (cf_Revision c) expected); simpl; [|by intros [= <- <-]].
  destruct w as [|[]]; intros [= <- <-]; [|right|left; done]; rewrite ?Read_document; eauto.
Qed.
End Source.

#[local] Existing Instance render_hash.
Lemma source_Update_cas_witness :
  Read (source_Update Written (cf_Revision DomainFixture.config) DomainFixture.config (Document DomainFixture.config)).1
    = Ok (set_cf_Revision (ContentRevision DomainFixture.config) DomainFixture.config).
Proof.
  refine (proj2 (source_Update_cas Written (cf_Revision DomainFixture.config) DomainFixture.config
    (Document DomainFixture.config) _ (Ok tt) _)).
  vm_compute. reflexivity.
Defined.
