(* ===== verification/Engine.v ===== *)
(** The operation engine ([internal/engine]): plan creation, admission, the
    worker's execution of one operation, cancellation, recovery and restart.

    Every [DB.Update] closure is a transaction function on the store's state; the
    handlers compose them as the code does.  An [Adapter] is the record of answers
    its calls give during one activation: theorems hold for every adapter.  The
    calls of [Adapter.Execute] are returned as the log of dispatched executions. *)
From S2P Require Import Prelude Json Types Domain Recovery Store Auth Source.
From stdpp Require Import sorting.
#[local] Open Scope Z_scope.

(** ** The adapter interface *)

(** One run of [Adapter.Execute]: the progress callbacks it makes, each answered
    with the callback's error, and what it returns. *)
Inductive ExecRun :=
| Returned (r : Result) (err : option error)
| Reported (p : Progress) (k : option error → ExecRun).

Record Adapter := mkAdapter {
  ad_Snapshot : result Inventory;
  ad_Validate : Draft → Configuration → result Preview;
  ad_Execute : Execution → ExecRun;
  ad_Inspect : string → result Result;
  (** the optional [executionInspector] *)
  ad_InspectExecution : option (Execution → result Result) }.

Definition exec_of (o : Operation) : Execution := mkExecution (op_ID o) (op_Actor o) (op_Plan o).

Section Engine.
Context `{Sha256} `{Encoding}.
(** [Engine.Target] and [Engine.Depth]. *)
Context (Target : string) (Depth : Z).

Definition inspect (ad : Adapter) (o : Operation) : result Result :=
  if negb (op_Dispatched o)
  then Ok (mkResult "recovery-required" "source-inspection-required" "" true [])
  else match ad_InspectExecution ad with
       | Some f => f (exec_of o)
       | None => ad_Inspect ad (op_ID o)
       end.

(** ** Admission of recovery *)

(** The body of the admission loop for one record. *)
Definition admission_conflict (chain : gset string) (d : Draft) (executing : string)
    (kv : string * Operation) : option error :=
  let '(id, o) := kv in
  if id =s executing then None
  else if op_RecoveryRequired o && negb (bool_decide (id ∈ chain)) && (d_Action d <>s "hardware.refresh")
  then Some (Failure "recovery_required" "inspect and resolve the unrelated outstanding operation before new mutations")
  else if (d_RecoveryID d <>s "") && negb (Terminal (op_State o)) && (op_parent o <>s "") && bool_decide (id ∈ chain)
  then Some (Failure "conflict" "another recovery attempt for this chain is queued or running")
  else None.

Fixpoint first_conflict (f : string * Operation → option error) (l : list (string * Operation)) : result unit :=
  match l with
  | [] => Ok tt
  | kv :: l => match f kv with Some e => Err e | None => first_conflict f l end
  end.

Definition recoveryAdmission (ops : gmap string Operation) (d : Draft) (executing : string) : result unit :=
  chain ← (if d_RecoveryID d =s "" then Ok ∅
    else match ops !! d_RecoveryID d with
    | None => Err (Failure "conflict" "reference must identify an unresolved recovery operation")
    | Some old =>
      reject negb (op_RecoveryRequired old)
          || ((d_Action d <>s "profile.restore") && (d_Action d <>s "operation.reconcile"))
        with Failure "conflict" "reference must identify an unresolved recovery operation" ;;
      reject d_Target (pl_Draft (op_Plan old)) <>s d_Target d
        with Failure "target_mismatch" "recovery target differs from the persisted operation" ;;
      match RecoveryChain (operationLinks ops) (op_ID old) with
      | Ok chain => Ok chain
      | Err (Plain m) => Err (Failure "recovery_required" m)
      | Err (Failure _ m) => Err (Failure "recovery_required" m)
      end
    end);
  first_conflict (admission_conflict chain d executing) (map_to_list ops).

(** ** Recovery preflight *)

(** The loop over the sorted chain, collecting evidence. *)
Fixpoint gather_evidence (ad : Adapter) (ops : gmap string Operation) (action : string) (ids : list string)
    (hostEffects : bool) (evidence : gmap string string) : result (bool * gmap string string) :=
  match ids with
  | [] => Ok (hostEffects, evidence)
  | id :: ids =>
    let o := default Operation0 (ops !! id) in
    if negb (op_RecoveryRequired o) then gather_evidence ad ops action ids hostEffects evidence
    else
      let evidence := <[id := pl_Hash (op_Plan o)]> evidence in
      if negb (op_Dispatched o) then gather_evidence ad ops action ids hostEffects evidence
      else
        let hostEffects := if HostRestoreRequired (d_Action (pl_Draft (op_Plan o))) then true else hostEffects in
        let r := inspect ad o in
        reject match r with
               | Ok r => (re_State r =s "running") || (re_State r =s "queued") || (re_State r =s "cancel-requested")
               | Err _ => false end
          with Failure "conflict" "executor still running; recovery cannot race it" ;;
        if action =s "operation.reconcile" then
          match r with
          | Ok r =>
            reject negb (Terminal (re_State r)) || (re_State r =s "recovery-required") || re_RecoveryRequired r
              with Failure "recovery_required" "executor-specific evidence is unavailable or uncertain; inspect the model receipt or worker/helper journal; no restore or redispatch was attempted" ;;
            gather_evidence ad ops action ids hostEffects (<[id := sha256_hex (Result_json r)]> evidence)
          | Err _ => Err (Failure "recovery_required" "executor-specific evidence is unavailable or uncertain; inspect the model receipt or worker/helper journal; no restore or redispatch was attempted")
          end
        else gather_evidence ad ops action ids hostEffects evidence
  end.

Definition recoveryPreflight (ad : Adapter) (d : Draft) (c : Configuration) (db : Store) : result Preview :=
  let ops := OperationRecords db in
  match ops !! d_RecoveryID d with
  | None => Err (Failure "conflict" "reference must identify an unresolved recovery operation")
  | Some old =>
    reject negb (op_RecoveryRequired old)
      with Failure "conflict" "reference must identify an unresolved recovery operation" ;;
    let links := operationLinks ops in
    match RecoveryChain links (op_ID old), RecoveryRoot links (op_ID old) with
    | Ok chain, Ok rootID =>
      let root := default Operation0 (ops !! rootID) in
      reject (d_Target (pl_Draft (op_Plan root)) <>s d_Target d) || (d_Target d <>s Target)
        with Failure "target_mismatch" "recovery cannot change the persisted target" ;;
      reject (cf_Revision c <>s cf_Revision (pl_Desired (op_Plan root)))
          && (cf_Revision c <>s d_SourceRevision (pl_Draft (op_Plan root)))
        with Failure "source_drift" "source differs from both sides of the interrupted update; owner review required" ;;
      '(hostEffects, evidence) ← gather_evidence ad ops (d_Action d) (sort_strings (elements chain)) false ∅;
      reject (d_Action d =s "profile.restore") && negb hostEffects
        with Failure "conflict" "this chain has no dispatched host effects; use operation-specific reconciliation" ;;
      Ok (mkPreview [] [] [] (Some (list_to_map [
        ("recovery_id", op_ID old); ("recovery_root", rootID);
        ("recovery_evidence", sha256_hex (JMap JString evidence)); ("source_revision", cf_Revision c)])))
    | Err (Plain m), _ | Err (Failure _ m), _ => Err (Failure "recovery_required" m)
    | _, Err (Plain m) | _, Err (Failure _ m) => Err (Failure "recovery_required" m)
    end
  end.

Definition preflight (ad : Adapter) (d : Draft) (c : Configuration) (db : Store) : result (Inventory * Preview) :=
  let here := set_in_Target Target Inventory0 in
  if EvidenceAction (d_Action d) then
    pv ← ad_Validate ad d c; Ok (here, pv)
  else
    recovery ← (if (d_RecoveryID d <>s "") || (d_Action d =s "operation.reconcile")
                then recoveryPreflight ad d c db else Ok Preview0);
    if d_Action d =s "operation.reconcile" then Ok (here, recovery)
    else
      inv ← ad_Snapshot ad;
      pv ← ad_Validate ad d c;
      if d_RecoveryID d =s "" then Ok (inv, pv)
      else Ok (inv, set_pv_Preconditions
             (Some (default ∅ (pv_Preconditions recovery) ∪ default ∅ (pv_Preconditions pv))) pv).

(** ** Plans *)

(** [changes]: the fields that differ, in declaration order; floats compare with
    [==], every other field structurally. *)
Definition change {A} (eqb : A → A → bool) (json : A → JSON) (name : string) (a b : A) : list Change :=
  if eqb a b then [] else [mkChange name (json a) (json b)].

Definition changes (a b : Configuration) : list Change :=
  let s := cf_Serving a in let s' := cf_Serving b in
  let r := cf_Resources a in let r' := cf_Resources b in
  let k := cf_Caches a in let k' := cf_Caches b in
  change String.eqb JString "serving.model" (sv_Model s) (sv_Model s')
  ++ change Z.eqb JInt "serving.context" (sv_Context s) (sv_Context s')
  ++ change Z.eqb JInt "serving.concurrency" (sv_Concurrency s) (sv_Concurrency s')
  ++ change SpecFloat.SFeqb JFloat "serving.memory_fraction" (sv_MemoryFraction s) (sv_MemoryFraction s')
  ++ change Z.eqb JInt "serving.cpu_offload_gib" (sv_CPUOffloadGiB s) (sv_CPUOffloadGiB s')
  ++ change Z.eqb JInt "serving.max_request_tokens" (sv_MaxRequestTokens s) (sv_MaxRequestTokens s')
  ++ change Z.eqb JInt "serving.max_output_tokens" (sv_MaxOutputTokens s) (sv_MaxOutputTokens s')
  ++ change Z.eqb JInt "resources.cpu" (rs_CPU r) (rs_CPU r')
  ++ change Z.eqb JInt "resources.memory_mib" (rs_MemoryMiB r) (rs_MemoryMiB r')
  ++ change Z.eqb JInt "resources.shared_memory_mib" (rs_SharedMemoryMiB r) (rs_SharedMemoryMiB r')
  ++ change Z.eqb JInt "resources.gpu_count" (rs_GPUCount r) (rs_GPUCount r')
  ++ change String.eqb JString "resources.physical_gpu,omitempty" (rs_PhysicalGPU r) (rs_PhysicalGPU r')
  ++ change Z.eqb JInt "caches.models_gib" (cb_ModelsGiB k) (cb_ModelsGiB k')
  ++ change Z.eqb JInt "caches.compiler_gib" (cb_CompilerGiB k) (cb_CompilerGiB k')
  ++ change Z.eqb JInt "caches.shader_gib" (cb_ShaderGiB k) (cb_ShaderGiB k')
  ++ change Z.eqb JInt "caches.build_jobs" (cb_BuildJobs k) (cb_BuildJobs k')
  ++ change Z.eqb JInt "caches.build_memory_mib" (cb_BuildMemoryMiB k) (cb_BuildMemoryMiB k')
  ++ change Z.eqb JInt "caches.scratch_gib" (cb_ScratchGiB k) (cb_ScratchGiB k').

(** The consequences [CreatePlan] appends to the adapter's. *)
Definition consequences (d : Draft) (c desired : Configuration) : list string :=
  (if cf_Revision desired <>s cf_Revision c
   then ["Update managed-source.json atomically; source success and live apply success are recorded separately."] else [])
  ++ (if str_in (d_Action d) ["serving.configure"; "resources.configure"; "serving.restart"; "profile.switch"; "profile.restore"]
      then ["GPU workloads may stop. Handover requires complete pod termination and host DRM checks. Failure can require explicit recovery."] else [])
  ++ (if d_Action d =s "caches.configure"
      then ["New admission budgets apply to future work. Existing cache files are not deleted."] else [])
  ++ (if d_Action d =s "operation.reconcile"
      then ["Recheck source and operation-specific durable executor evidence. No work is redispatched; previous failed attempts remain in history."] else []).

Definition plan_hash (p : Plan) : string := sha256_hex (Plan_json (set_pl_Hash "" p)).

(** The checks and construction of [CreatePlan] before its transaction. *)
Definition build_plan (clk : clock) (id : string) (ad : Adapter) (a : Actor) (d : Draft)
    (src : SourceFile) (db : Store) : result Plan :=
  reject negb (RoleAllows (a_Role a) (d_Action d))
    with Failure "forbidden" "role cannot request this operation" ;;
  reject (d_RecoveryID d <>s "")
      && ((a_Role a <>s "owner") || ((d_Action d <>s "profile.restore") && (d_Action d <>s "operation.reconcile")))
    with Failure "forbidden" "only owner restore plans may reference recovery" ;;
  c ← Read src;
  '(inv, pv) ← preflight ad d c db;
  _ ← ValidateDraft (λ i, clk (1 + i)%nat) d c inv;
  let desired := Desired c d in
  let pv := mkPreview (changes c desired) (pv_Consequences pv ++ consequences d c desired)
              (pv_Warnings pv) (pv_Preconditions pv) in
  let now := clk 0%nat in
  let p := mkPlan id (a_ID a) d desired pv now (now + 10 * Minute) "" in
  Ok (set_pl_Hash (sha256_hex (Plan_json p)) p).

Definition create_plan_tx (a : Actor) (p : Plan) (clk : clock) (s : State) : result (State * unit) :=
  reject Z.of_nat (size (s_Plans s)) >=? 200
    with Failure "capacity" "plan retention capacity reached; expired plans are removed on subsequent writes" ;;
  Ok (Event (clk 0%nat) (a_ID a) "plan.create" (pl_ID p) "validated"
        (set_s_Plans (<[pl_ID p := p]> (s_Plans s)) s), tt).

Definition CreatePlan (clk clk' : clock) (w : write_outcome) (id : string) (ad : Adapter) (a : Actor) (d : Draft)
    (src : SourceFile) (db : Store) : Store * result Plan :=
  match build_plan clk id ad a d src db with
  | Err e => (db, Err e)
  | Ok p => match Update clk' w (create_plan_tx a p) db with
            | (db, Ok _) => (db, Ok p)
            | (db, Err e) => (db, Err e)
            end
  end.

(** ** Admission *)

Definition payload_hash (planID target : string) : string :=
  sha256_hex (JObject [("Plan", JString planID); ("Target", JString target)]).

Definition active_count (ops : gmap string Operation) : Z :=
  Z.of_nat (size (filter (λ kv : string * Operation, Terminal (op_State kv.2) = false) ops)).

(** The record [Apply] creates. *)
Definition new_operation (id : string) (a : Actor) (p : Plan) (now : time) : Operation :=
  mkOperation id (a_ID a) p "queued" "intent-persisted" "" 1 now now false false false false false
    [mkProgress "queued" "intent durably recorded before dispatch" 0] [].

Definition apply_tx (id : string) (a : Actor) (planID target key : string) (clk : clock) (s : State)
    : result (State * Operation) :=
  let payload := payload_hash planID target in
  let idem := a_ID a +:+ ":" +:+ key in
  match s_Idempotency s !! idem with
  | Some old =>
    reject id_PayloadHash old <>s payload
      with Failure "idempotency_conflict" "idempotency key already belongs to another payload" ;;
    let op := default Operation0 (s_Operations s !! id_OperationID old) in
    reject negb (RoleAllows (a_Role a) (d_Action (pl_Draft (op_Plan op))))
      with Failure "forbidden" "role cannot apply this operation" ;;
    Ok (s, op)
  | None =>
    match s_Plans s !! planID with
    | None => Err (Failure "not_found" "plan does not exist or expired")
    | Some p =>
      reject pl_Actor p <>s a_ID a
        with Failure "forbidden" "apply requires the identity that created this plan" ;;
      reject negb (RoleAllows (a_Role a) (d_Action (pl_Draft p)))
        with Failure "forbidden" "role cannot apply this plan" ;;
      reject (d_RecoveryID (pl_Draft p) <>s "") && (a_Role a <>s "owner")
        with Failure "forbidden" "recovery requires owner role" ;;
      reject (target <>s d_Target (pl_Draft p)) || (target <>s Target)
        with Failure "target_mismatch" "exact target confirmation does not match" ;;
      reject after (clk 0%nat) (pl_ExpiresAt p)
        with Failure "plan_expired" "plan expired; refresh and re-plan" ;;
      reject plan_hash p <>s pl_Hash p
        with Failure "invalid" "plan integrity check failed" ;;
      _ ← recoveryAdmission (s_Operations s) (pl_Draft p) "";
      reject (active_count (s_Operations s) >=? Depth) || (Z.of_nat (size (s_Operations s)) >=? 500)
        with Failure "capacity" "operation queue or retained-record capacity is full" ;;
      let op := new_operation id a p (clk 1%nat) in
      let s := set_s_Operations (<[op_ID op := op]> (s_Operations s)) s in
      let s := set_s_Idempotency (<[idem := mkIdempotency payload (op_ID op)]> (s_Idempotency s)) s in
      Ok (Event (clk 2%nat) (a_ID a) "operation.accept" (op_ID op) "queued" s, op)
    end
  end.

(** [stopping]: [e.ctx.Err() != nil]. *)
Definition Apply (clk : clock) (w : write_outcome) (stopping : bool) (id : string) (a : Actor)
    (planID target key : string) (db : Store) : Store * result Operation :=
  if (str_len key <? 8) || (str_len key >? 128)
  then (db, Err (Failure "invalid" "Idempotency-Key must be 8..128 printable characters"))
  else if negb (all_chars (λ c, negb ((N_of_ascii c <? 33)%N || (126 <? N_of_ascii c)%N)) key)
  then (db, Err (Failure "invalid" "invalid Idempotency-Key"))
  else if stopping then (db, Err (Failure "unavailable" "controller is shutting down"))
  else Update clk w (apply_tx id a planID target key) db.

(** [Engine.Operation]. *)
Definition engine_Operation (db : Store) (id : string) : result Operation :=
  match st_Operation db id with
  | None => Err (Failure "not_found" "operation not found")
  | Some o => Ok o
  end.

Definition cancel_tx (a : Actor) (id : string) (revision : Z) (clk : clock) (s : State)
    : result (State * unit) :=
  match s_Operations s !! id with
  | None => Err (Failure "not_found" "operation not found")
  | Some o =>
    reject negb (RoleAllows (a_Role a) (d_Action (pl_Draft (op_Plan o))))
      with Failure "forbidden" "role cannot cancel this operation" ;;
    reject negb (revision =? 0) && negb (revision =? op_Revision o)
      with Failure "conflict" "operation changed; refresh before cancellation" ;;
    reject Terminal (op_State o)
      with Failure "conflict" "operation already has a final or recovery result" ;;
    let o := set_op_CancelRequested true o in
    let o := if op_State o =s "queued"
             then o |> set_op_State "cancelled" |> set_op_Phase "cancelled-before-dispatch"
             else o |> set_op_State "cancel-requested" |> set_op_Phase "cancellation-requested" in
    let o := o |> set_op_UpdatedAt (clk 0%nat) |> set_op_Revision (incu64 (op_Revision o)) in
    Ok (Event (clk 1%nat) (a_ID a) "operation.cancel" id (op_State o)
          (set_s_Operations (<[id := o]> (s_Operations s)) s), tt)
  end.

Definition Cancel (clk : clock) (w : write_outcome) (a : Actor) (id : string) (revision : Z) (db : Store)
    : Store * result Operation :=
  match Update clk w (cancel_tx a id revision) db with
  | (db, Err e) => (db, Err e)
  | (db, Ok _) => (db, engine_Operation db id)
  end.

(** ** The worker's transactions *)

Definition progress_tx (id : string) (p : Progress) (clk : clock) (s : State) : result (State * unit) :=
  match s_Operations s !! id with
  | None => Err (Plain "operation record missing")
  | Some o =>
    let o := set_op_Phase (pg_Phase p) o in
    let o := if pg_Phase p =s "dispatch-intent" then set_op_Dispatched true o else o in
    let o := o |> set_op_Message (pg_Message p) |> set_op_UpdatedAt (clk 0%nat)
               |> set_op_Revision (incu64 (op_Revision o))
               |> set_op_Events (keep_last 128 (op_Events o ++ [p])) in
    Ok (Event (clk 1%nat) (op_Actor o) "operation.phase" id (pg_Phase p)
          (set_s_Operations (<[id := o]> (s_Operations s)) s), tt)
  end.

(** A repeated report is not written again. *)
Definition progress_repeated (db : Store) (id : string) (p : Progress) : bool :=
  match st_Operation db id with
  | Some o => (op_Phase o =s pg_Phase p) && bool_decide (last (op_Events o) = Some p)
  | None => false
  end.

Definition progress (clk : clock) (w : write_outcome) (id : string) (p : Progress) (db : Store)
    : Store * result unit :=
  if progress_repeated db id p then (db, Ok tt) else Update clk w (progress_tx id p) db.

(** The claim at the head of [execute]: a queued record is started, or failed when
    recovery or expired authority stands in its way. *)
Definition claim_tx (id : string) (clk : clock) (s : State) : result (State * unit) :=
  let o := default Operation0 (s_Operations s !! id) in
  let put (o : Operation) := set_s_Operations (<[op_ID o := o]> (s_Operations s)) s in
  reject op_State o <>s "queued" with Failure "cancelled" "operation no longer queued" ;;
  if negb (is_ok (recoveryAdmission (s_Operations s) (pl_Draft (op_Plan o)) (op_ID o))) then
    Ok (put (o |> set_op_State "failed" |> set_op_Phase "blocked-by-recovery"
               |> set_op_Message "an earlier operation requires recovery; no external effect dispatched"
               |> set_op_Revision (incu64 (op_Revision o)) |> set_op_UpdatedAt (clk 0%nat)), tt)
  else if match s_Credentials s !! op_Actor o with
          | None => true
          | Some credential =>
            cr_Revoked credential || after (clk 1%nat) (cr_ExpiresAt credential)
            || negb (RoleAllows (cr_Role credential) (d_Action (pl_Draft (op_Plan o))))
            || after (clk 2%nat) (pl_ExpiresAt (op_Plan o))
          end
  then
    Ok (put (o |> set_op_State "failed" |> set_op_Phase "authorization-or-plan-expired"
               |> set_op_Message "queued authorization or plan expired; no external effect dispatched"
               |> set_op_Revision (incu64 (op_Revision o)) |> set_op_UpdatedAt (clk 3%nat)), tt)
  else
    Ok (put (o |> set_op_State "running" |> set_op_Phase "preflight"
               |> set_op_Revision (incu64 (op_Revision o)) |> set_op_UpdatedAt (clk 4%nat)), tt).

Definition source_updated_tx (id : string) (clk : clock) (s : State) : result (State * unit) :=
  let o := default Operation0 (s_Operations s !! id) in
  let o := o |> set_op_SourceUpdated true |> set_op_Phase "source-updated"
             |> set_op_Revision (incu64 (op_Revision o)) |> set_op_UpdatedAt (clk 0%nat) in
  Ok (set_s_Operations (<[op_ID o := o]> (s_Operations s)) s, tt).

(** The record of a finished operation, before its chain is settled. *)
Definition finish_result (a : string) (r : Result) : Result :=
  if EvidenceAction a && (re_RecoveryRequired r || (re_State r =s "recovery-required")
                          || (re_State r =s "running") || (re_State r =s "queued"))
  then mkResult "failed" "read-only-interrupted" "Evidence/export outcome unavailable. Inspect the independent helper operation; retained evidence is not validated and no GPU recovery or workload mutation was authorized." false []
  else r.

Definition finished (now : time) (r : Result) (o : Operation) : Operation :=
  o |> set_op_State (re_State r) |> set_op_Phase (re_Phase r) |> set_op_Message (re_Message r)
    |> set_op_RecoveryRequired (re_RecoveryRequired r || (re_State r =s "recovery-required"))
    |> set_op_Artifacts (re_Artifacts r) |> set_op_UpdatedAt now |> set_op_Revision (incu64 (op_Revision o))
    |> set_op_LiveApplied ((re_State r =s "succeeded") && HostRestoreRequired (d_Action (pl_Draft (op_Plan o)))).

(** One settled member of a recovered chain. *)
Definition settled (now : time) (id : string) (o old : Operation) : Operation :=
  let a := d_Action (pl_Draft (op_Plan o)) in
  let old := old |> set_op_RecoveryRequired false |> set_op_State "failed"
                 |> set_op_Phase "resolved-by-explicit-restore" in
  let old := if a =s "operation.reconcile"
    then old |> set_op_Phase "resolved-by-operation-inspection"
             |> set_op_SourceUpdated
                  ((cf_Revision (pl_Desired (op_Plan o)) =s cf_Revision (pl_Desired (op_Plan old)))
                   && (cf_Revision (pl_Desired (op_Plan old)) <>s d_SourceRevision (pl_Draft (op_Plan old))))
    else old in
  old |> set_op_Message ("resolved by operation " +:+ id) |> set_op_UpdatedAt now
      |> set_op_Revision (incu64 (op_Revision old)).

Fixpoint settle (clk : clock) (id : string) (o : Operation) (members : list string)
    (ops : gmap string Operation) : gmap string Operation :=
  match members with
  | [] => ops
  | previous :: members =>
    let old := default Operation0 (ops !! previous) in
    let ops := if (previous =s id) || negb (op_RecoveryRequired old) then ops
               else <[op_ID old := settled (clk 0%nat) id o old]> ops in
    settle (λ i, clk (S i)) id o members ops
  end.

Definition finish_tx (id : string) (r : Result) (clk : clock) (s : State) : result (State * unit) :=
  match s_Operations s !! id with
  | None => Err (Plain "operation missing")
  | Some o =>
    let a := d_Action (pl_Draft (op_Plan o)) in
    let o := finished (clk 0%nat) (finish_result a r) o in
    let s := set_s_Operations (<[id := o]> (s_Operations s)) s in
    let s := Event (clk 1%nat) (op_Actor o) "operation.complete" id (op_State o) s in
    if (op_State o =s "succeeded") && (op_parent o <>s "") then
      chain ← RecoveryChain (operationLinks (s_Operations s)) (op_parent o);
      Ok (set_s_Operations (settle (λ i, clk (2 + i)%nat) id o (elements chain) (s_Operations s)) s, tt)
    else Ok (s, tt)
  end.

Definition finish (clk : clock) (w : write_outcome) (id : string) (r : Result) (db : Store)
    : Store * result unit := Update clk w (finish_tx id r) db.

(** The result [fail] records. *)
Definition fail_result (err : error) (uncertain : bool) : Result :=
  let '(code, message) := default ("adapter_failed", "adapter failed; inspect bounded executor diagnostics") (as_failure err) in
  mkResult (if uncertain then "recovery-required" else "failed") code message uncertain [].

(** ** The worker *)

(** The answers of the environment during one activation: clock readings and write
    outcomes per transaction, the write of the managed source, the adapter, whether
    the context is done, and whether the controller stops. *)
Record Env := mkEnv {
  ev_clk : nat → clock;
  ev_write : nat → write_outcome;
  ev_source : write_outcome;
  ev_adapter : Adapter;
  ev_done : bool }.

(** What [execute] decides after claiming the record and before any effect. *)
Inductive Decision :=
| Finish (r : Result)
| ReplaceSource (c : Configuration)
| Dispatch.

Definition cancelled_result : Result :=
  mkResult "cancelled" "cancelled-before-effects" "no external effect dispatched" false [].
Definition reconciled_result : Result :=
  mkResult "succeeded" "operation-reconciled" "source and executor evidence inspected; previous failures retained; no external dispatch" false [].

(** From [Source.Read] to the choice of the first effect. *)
Definition prepare (ev : Env) (op : Operation) (src : SourceFile) (db : Store) : Decision :=
  let d := pl_Draft (op_Plan op) in
  match Read src with
  | Err err => Finish (fail_result err false)
  | Ok c =>
    match preflight (ev_adapter ev) d c db with
    | Err err => Finish (fail_result err false)
    | Ok (inv, pv) =>
      match ValidateDraft (ev_clk ev 1%nat) d c inv with
      | Err err => Finish (fail_result err false)
      | Ok _ =>
        if negb (bool_decide (pv_Preconditions pv = pv_Preconditions (pl_Preview (op_Plan op))))
        then Finish (fail_result (Failure "precondition_drift" "target, artifact or hardware evidence changed; create a new plan") false)
        else if ev_done ev then Finish cancelled_result
        else if d_Action d =s "operation.reconcile" then Finish reconciled_result
        else if cf_Revision (pl_Desired (op_Plan op)) <>s cf_Revision c then ReplaceSource c
        else Dispatch
      end
    end
  end.

Definition source_intent : Progress :=
  mkProgress "source-update-intent" "about to replace canonical managed source" 0.
Definition dispatch_intent : Progress :=
  mkProgress "dispatch-intent" "executor request authorized by validated plan; external outcome not yet known" 0.

(** The result recorded for what [Adapter.Execute] returned. *)
Definition executed_result (r : Result) (err : option error) : Result :=
  match err with
  | Some err => if (re_State r <>s "") && Terminal (re_State r) then r else fail_result err true
  | None => if negb (Terminal (re_State r))
            then fail_result (Failure "uncertain" "executor returned without a proven terminal result") true
            else r
  end.

(** The adapter's run with its callbacks answered by [progress]; [n] counts the
    transactions made so far. *)
Fixpoint drive (ev : Env) (id : string) (n : nat) (run : ExecRun) (db : Store) : Store * nat * Result :=
  match run with
  | Returned r err => (db, n, executed_result r err)
  | Reported p k =>
    let '(db, ans) := progress (ev_clk ev n) (ev_write ev n) id p db in
    drive ev id (S n) (k (match ans with Ok _ => None | Err e => Some e end)) db
  end.

(** From the dispatch intent to the end of [execute]. *)
Definition dispatch (ev : Env) (op : Operation) (db : Store) : Store * list Execution :=
  match progress (ev_clk ev 4%nat) (ev_write ev 4%nat) (op_ID op) dispatch_intent db with
  | (db, Err _) => (db, [])
  | (db, Ok _) =>
    let '(db, n, r) := drive ev (op_ID op) 5 (ad_Execute (ev_adapter ev) (exec_of op)) db in
    ((finish (ev_clk ev n) (ev_write ev n) (op_ID op) r db).1, [exec_of op])
  end.

Definition execute (ev : Env) (op : Operation) (src : SourceFile) (db : Store)
    : Store * SourceFile * list Execution :=
  let id := op_ID op in
  match Update (ev_clk ev 0%nat) (ev_write ev 0%nat) (claim_tx id) db with
  | (db, Err _) => (db, src, [])
  | (db, Ok _) =>
    if match st_Operation db id with Some current => op_State current <>s "running" | None => true end
    then (db, src, [])
    else match prepare ev op src db with
    | Finish r => ((finish (ev_clk ev 2%nat) (ev_write ev 2%nat) id r db).1, src, [])
    | Dispatch => let '(db, log) := dispatch ev op db in (db, src, log)
    | ReplaceSource c =>
      match progress (ev_clk ev 1%nat) (ev_write ev 1%nat) id source_intent db with
      | (db, Err _) => (db, src, [])
      | (db, Ok _) =>
        match source_Update (ev_source ev) (cf_Revision c) (pl_Desired (op_Plan op)) src with
        | (src, Err err) =>
          ((finish (ev_clk ev 2%nat) (ev_write ev 2%nat) id (fail_result err (negb (is_some (as_failure err)))) db).1, src, [])
        | (src, Ok _) =>
          match Update (ev_clk ev 3%nat) (ev_write ev 3%nat) (source_updated_tx id) db with
          | (db, Err _) => (db, src, [])
          | (db, Ok _) => let '(db, log) := dispatch ev op db in (db, src, log)
          end
        end
      end
    end
  end.

(** ** Recovery, inspection and restart *)

(** The action of a recovery plan: a host restore when some unresolved member of
    the chain may have changed the host. *)
Definition recovery_draft_action (ops : gmap string Operation) (chain : gset string) : string :=
  if existsb (λ member, let previous := default Operation0 (ops !! member) in
        op_RecoveryRequired previous && op_Dispatched previous
        && HostRestoreRequired (d_Action (pl_Draft (op_Plan previous)))) (elements chain)
  then "profile.restore" else "operation.reconcile".

Definition recovery_draft (action revision id : string) : Draft :=
  mkDraft action Target revision "" "" "" id None None None None None.

(** The second half of [Recover]: the draft of the recovery plan. *)
Definition recover_plan (ev : Env) (planID : string) (a : Actor) (id : string) (src : SourceFile) (db : Store)
    : Store * result Plan :=
  match Read src with
  | Err e => (db, Err e)
  | Ok c =>
    match RecoveryChain (operationLinks (OperationRecords db)) id with
    | Err (Plain m) | Err (Failure _ m) => (db, Err (Failure "recovery_required" m))
    | Ok chain =>
      let d := recovery_draft (recovery_draft_action (OperationRecords db) chain) (cf_Revision c) id in
      CreatePlan (ev_clk ev 1%nat) (ev_clk ev 2%nat) (ev_write ev 2%nat) planID (ev_adapter ev) a d src db
    end
  end.

Definition Recover (ev : Env) (planID : string) (a : Actor) (id : string) (src : SourceFile) (db : Store)
    : Store * result Plan :=
  if a_Role a <>s "owner" then (db, Err (Failure "forbidden" "recovery requires owner role"))
  else match engine_Operation db id with
  | Err e => (db, Err e)
  | Ok o =>
    if negb (op_RecoveryRequired o)
    then (db, Err (Failure "conflict" "operation does not require recovery"))
    else
      let r := inspect (ev_adapter ev) o in
      if match r with Ok r => (re_State r =s "running") || (re_State r =s "queued") | Err _ => false end
      then (db, Err (Failure "conflict" "executor is still running; wait for its durable result"))
      else match r with
      | Ok r' =>
        if Terminal (re_State r') && (re_State r' <>s "recovery-required") && negb (re_RecoveryRequired r')
        then match finish (ev_clk ev 0%nat) (ev_write ev 0%nat) id r' db with
             | (db, Err e) => (db, Err e)
             | (db, Ok _) => (db, Err (Failure "conflict" "executor result recovered; refresh operations before creating another plan"))
             end
        else recover_plan ev planID a id src db
      | Err _ => recover_plan ev planID a id src db
      end
  end.

Definition start_result (r : result Result) : Result :=
  let r := match r with
    | Ok r => if re_State r =s ""
              then mkResult "recovery-required" "restart-inspection" "executor outcome is unknown; inspect helper/worker recovery state before restore" true []
              else r
    | Err _ => mkResult "recovery-required" "restart-inspection" "executor outcome is unknown; inspect helper/worker recovery state before restore" true []
    end in
  if (re_State r =s "running") || (re_State r =s "queued")
  then mkResult "recovery-required" "executor-still-running" "executor survived controller restart; wait for its durable result before recovery" true []
  else r.

(** The loop of [Start] over the records read at its beginning, in any order. *)
Fixpoint start_loop (ev : Env) (n : nat) (l : list (string * Operation)) (db : Store) : Store * result unit :=
  match l with
  | [] => (db, Ok tt)
  | (id, o) :: l =>
    if negb (Terminal (op_State o)) && (op_State o <>s "queued")
    then match finish (ev_clk ev n) (ev_write ev n) id (start_result (inspect (ev_adapter ev) o)) db with
         | (db, Err e) => (db, Err e)
         | (db, Ok _) => start_loop ev (S n) l db
         end
    else start_loop ev n l db
  end.

(** [Start] up to the launch of the worker loop. *)
Definition Start (ev : Env) (db : Store) : Store * result unit :=
  start_loop ev 0 (map_to_list (OperationRecords db)) db.

Definition inspectEvidence (ev : Env) (a : Actor) (id : string) (performance : bool) (db : Store)
    : Store * result Operation :=
  if a_Role a <>s "owner" then (db, Err (Failure "forbidden" "evidence inspection requires owner"))
  else match engine_Operation db id with
  | Err e => (db, Err e)
  | Ok o =>
    let action := d_Action (pl_Draft (op_Plan o)) in
    if (negb performance && negb (MemoryAction action)) || (performance && negb (PerformanceAction action))
    then (db, Err (Failure "invalid" "only the matching evidence operation can use read-only inspection"))
    else if negb (op_Dispatched o) then (db, Ok o)
    else match inspect (ev_adapter ev) o with
    | Err _ => (db, Err (Failure "unavailable" "independent evidence executor outcome unavailable; evidence retained"))
    | Ok r =>
      if (re_State r =s "running") || (re_State r =s "queued")
      then (db, Err (Failure "conflict" "helper still generating evidence; do not redispatch"))
      else if negb (Terminal (re_State r))
      then (db, Err (Failure "unavailable" "evidence executor result incomplete"))
      else match finish (ev_clk ev 0%nat) (ev_write ev 0%nat) id r db with
      | (db, Err e) => (db, Err e)
      | (db, Ok _) => (db, engine_Operation db id)
      end
    end
  end.
Definition InspectMemory ev a id db := inspectEvidence ev a id false db.
Definition InspectPerformance ev a id db := inspectEvidence ev a id true db.

End Engine.

(** ** A concrete engine *)

Module EngineFixture.
#[local] Existing Instance render_hash.
#[export] Instance enc : Encoding := λ _, Some 4096.
Definition now : clock := λ _, 11 * Hour.
Definition cred : Credential := mkCredential "u" "owner" "owner" "v" 0 (12 * Hour) false.
Definition actor : Actor := mkActor "u" "owner" "owner".
Definition source : SourceFile := Document DomainFixture.config.
Definition adapter : Adapter :=
  mkAdapter (Ok (DomainFixture.inventory 2)) (λ _ _, Ok Preview0)
    (λ _, Reported (mkProgress "handover" "stopping workloads" 0)
            (λ _, Returned (mkResult "succeeded" "done" "" false []) None))
    (λ _, Err (Plain "unknown")) None.
Definition env : Env := mkEnv (λ _, now) (λ _, Written) Written adapter false.
Definition db0 : Store := mkStore (NewState "live") false (NewState "live").
Definition db1 : Store := (Update now Written (activate_tx "issue" cred) db0).1.
Definition plan : Plan :=
  match build_plan "ws" now "p" adapter actor DomainFixture.configure source db1 with Ok p => p | Err _ => Plan0 end.
Definition db2 : Store := (Update now Written (create_plan_tx actor plan) db1).1.
Definition request := apply_tx "ws" 4 "o" actor "p" "ws" "12345678".
Definition db3 : Store := (Update now Written request db2).1.
Definition op : Operation := new_operation "o" actor plan (11 * Hour).
Definition run := execute "ws" env op source db3.
End EngineFixture.
