(* ===== verification/Journal.v ===== *)
(** How the operation journal evolves: what every transaction of the engine may do
    to a record, shared by the theorems on single handlers and on whole runs of the
    controller. *)
From S2P Require Import Prelude Json Types Domain Recovery Store Auth Source Engine.

Create HintDb journal.

(** ** Records *)

(** Claimed by the worker, with no external effect yet. *)
Definition in_flight (o : Operation) : Prop :=
  Terminal (op_State o) = false ∧ op_State o ≠ "queued" ∧
  op_Dispatched o = false ∧ op_RecoveryRequired o = false.

(** A recorded dispatch intent is flagged on the record. *)
Definition intent_marked (o : Operation) : Prop :=
  ∀ p, p ∈ op_Events o → pg_Phase p = "dispatch-intent" → op_Dispatched o = true.

(** Identity, actor and plan are immutable, the dispatch flag is never withdrawn,
    and a record returns neither to the queue nor to the worker. *)
Record evolves_op (o o' : Operation) : Prop := {
  ev_ID : op_ID o' = op_ID o;
  ev_Actor : op_Actor o' = op_Actor o;
  ev_Plan : op_Plan o' = op_Plan o;
  ev_Dispatched : op_Dispatched o = true → op_Dispatched o' = true;
  ev_marked : intent_marked o → intent_marked o';
  ev_queued : op_State o' = "queued" → o' = o;
  ev_running : op_State o' = "running" → op_State o = "running" ∨ op_State o = "queued";
  ev_in_flight : in_flight o' → in_flight o ∨ op_State o = "queued" }.

#[export] Instance evolves_op_refl : Reflexive evolves_op.
Proof. intros o. by split; auto. Qed.

#[export] Instance evolves_op_trans : Transitive evolves_op.
Proof.
  intros o1 o2 o3 [] []. split; try congruence; auto.
  - intros Hq. pose proof (ev_queued1 Hq) as ->. auto.
  - intros [Hf|Hq]%ev_running1; [auto|]. rewrite (ev_queued0 Hq) in Hq. auto.
  - intros [Hf|Hq]%ev_in_flight1; [auto|]. rewrite (ev_queued0 Hq) in Hq. auto.
Qed.

(** ** Journals *)

Abbreviation journal := (gmap string Operation).

(** Every record of [m'] evolved from the record of [m] under the same key. *)
Definition evolves (m m' : journal) : Prop :=
  ∀ id o', m' !! id = Some o' → ∃ o, m !! id = Some o ∧ evolves_op o o'.

(** The records in flight stay so. *)
Definition undisturbed (m m' : journal) : Prop :=
  ∀ id o, m !! id = Some o → in_flight o → ∃ o', m' !! id = Some o' ∧ in_flight o'.

#[export] Instance evolves_refl : Reflexive evolves.
Proof. intros m id o ?. by exists o. Qed.

#[export] Instance evolves_trans : Transitive evolves.
Proof.
  intros m1 m2 m3 H12 H23 id o (o2 & Ho2 & H2)%H23.
  apply H12 in Ho2 as (o1 & ? & H1). exists o1. split; [done|]. by etrans.
Qed.

#[export] Instance undisturbed_refl : Reflexive undisturbed.
Proof. intros m id o ??. by exists o. Qed.

#[export] Instance undisturbed_trans : Transitive undisturbed.
Proof. intros m1 m2 m3 H12 H23 id o Ho Hf. destruct (H12 _ _ Ho Hf) as (o2 & ? & ?). eauto. Qed.

(** The key of a record is its identity. *)
Definition keyed_ops (m : journal) : Prop := ∀ id o, m !! id = Some o → op_ID o = id ∧ id ≠ "".

Lemma evolves_keyed m m' : evolves m m' → keyed_ops m → keyed_ops m'.
Proof. intros He Hk id o (o0 & Ho0 & [])%He. apply Hk in Ho0 as []. split; congruence. Qed.

Lemma evolves_subseteq m m' : m' ⊆ m → evolves m m'.
Proof. intros Hs id o Ho. exists o. split; [by eapply lookup_weaken|done]. Qed.

Lemma evolves_insert m id o o' : m !! id = Some o → evolves_op o o' → evolves m (<[id := o']> m).
Proof.
  intros Ho He k x [[<- <-]|[? ?]]%lookup_insert_Some; [eauto|]. by exists x.
Qed.

Lemma undisturbed_insert m id o o' :
  m !! id = Some o → (in_flight o → in_flight o') → undisturbed m (<[id := o']> m).
Proof.
  intros Ho Hf k x Hx Hx'. destruct (decide (k = id)) as [->|Hne].
  - rewrite lookup_insert_eq. simplify_eq. eauto.
  - rewrite lookup_insert_ne by done. eauto.
Qed.

#[export] Hint Resolve evolves_insert undisturbed_insert evolves_subseteq : journal.

(** ** Retention *)

Lemma in_flight_Terminal o : in_flight o → Terminal (op_State o) = false.
Proof. by intros []. Qed.

Lemma unfinished_kept now m k o : Terminal (op_State o) = false → kept now m k o.
Proof. intros Ht. left. unfold keep_root. by rewrite Ht. Qed.

Lemma prune_keeps_unfinished now v k o :
  s_Operations v !! k = Some o → Terminal (op_State o) = false → s_Operations (prune now v) !! k = Some o.
Proof. intros. apply prune_Operations_lookup. auto using unfinished_kept. Qed.

Lemma prune_evolves now v : evolves (s_Operations v) (s_Operations (prune now v)).
Proof. apply evolves_subseteq, prune_Operations_subseteq. Qed.

Lemma prune_undisturbed now v : undisturbed (s_Operations v) (s_Operations (prune now v)).
Proof.
  intros k o Ho Hf. exists o. split; [|done]. auto using prune_keeps_unfinished, in_flight_Terminal.
Qed.

(** ** The engine's transactions *)

(** Close the fields of [evolves_op] for a record changed by assignments. *)
Ltac evolve :=
  split; cbn -[keep_last]; try reflexivity; try exact (λ x, x); try congruence;
  try (unfold in_flight in *; cbn -[keep_last] in *; intuition (auto; congruence)).

Section Transactions.
Context `{Sha256} `{Encoding} (Target : string) (Depth : Z).
Implicit Types (s : State) (clk : clock).

Lemma cancel_tx_ok a id revision clk s s' :
  cancel_tx a id revision clk s = Ok (s', tt) →
  ∃ o o', s_Operations s !! id = Some o ∧ Terminal (op_State o) = false ∧
    s_Operations s' = <[id := o']> (s_Operations s) ∧
    evolves_op o o' ∧ (in_flight o → in_flight o').
Proof.
  unfold cancel_tx. intros Hc. split_hyp Hc. bool_hyps. eexists _, _. split_and!; [done..| |].
  - change (op_State (set_op_CancelRequested true o)) with (op_State o).
    destruct (String.eqb_spec (op_State o) "queued"); evolve.
  - unfold in_flight. intros (? & Hs%String.eqb_neq & ? & ?). simpl. by rewrite Hs.
Qed.

Lemma claim_tx_ok id clk s s' :
  claim_tx id clk s = Ok (s', tt) →
  ∃ o o', s_Operations s !! id = Some o ∧ op_State o = "queued" ∧
    s_Operations s' = <[op_ID o := o']> (s_Operations s) ∧ evolves_op o o' ∧
    (op_State o' = "running" ∨ op_State o' = "failed") ∧
    op_Dispatched o' = op_Dispatched o ∧ op_RecoveryRequired o' = op_RecoveryRequired o.
Proof.
  unfold claim_tx. destruct (s_Operations s !! id) as [o|] eqn:Ho; cbn [default]; intros Hc; [|done].
  exists o. split_hyp Hc; bool_hyps; eexists; split_and!; try done; try (by auto); evolve.
Qed.

Lemma source_updated_tx_ok id clk s s' o :
  s_Operations s !! id = Some o → in_flight o → op_ID o = id →
  source_updated_tx id clk s = Ok (s', tt) →
  ∃ o', s_Operations s' = <[id := o']> (s_Operations s) ∧ evolves_op o o' ∧ in_flight o'.
Proof.
  unfold source_updated_tx. intros Ho Hf <-. rewrite Ho. intros [= <-]. eexists. split_and!; [done| |done].
  destruct Hf as (? & ? & ?); evolve.
Qed.

Lemma progress_tx_ok id p clk s s' :
  progress_tx id p clk s = Ok (s', tt) →
  ∃ o o', s_Operations s !! id = Some o ∧ s_Operations s' = <[id := o']> (s_Operations s) ∧
    op_State o' = op_State o ∧ (op_State o ≠ "queued" → evolves_op o o') ∧
    last (op_Events o') = Some p ∧ op_Phase o' = pg_Phase p ∧ (length (op_Events o') ≤ 128)%nat ∧
    op_RecoveryRequired o' = op_RecoveryRequired o ∧
    op_Dispatched o' = (op_Dispatched o || (pg_Phase p =s "dispatch-intent")).
Proof.
  unfold progress_tx. intros Hp. destruct (s_Operations s !! id) as [o|] eqn:Ho; [|done].
  injection Hp as <-. eexists o, _. split; [done|]. split; [reflexivity|]. cbv zeta.
  assert (∀ l, last (keep_last 128 (l ++ [p])) = Some p) by (intros; apply keep_last_snoc; lia).
  assert (∀ l : list Progress, (length (keep_last 128 l) ≤ 128)%nat)
    by (intros; rewrite length_keep_last; lia).
  destruct (String.eqb_spec (pg_Phase p) "dispatch-intent") as [Hd|Hd]; cbn -[keep_last];
    rewrite ?orb_true_r, ?orb_false_r; split_and!; try done; intros Hq; evolve.
  all: intros Hm q Hin Hph; cbn -[keep_last] in *; try reflexivity.
  apply keep_last_elem in Hin. apply elem_of_app in Hin as [Hin|Hin]; [eauto|].
  apply list_elem_of_singleton in Hin as ->. done.
Qed.

(** The member [k] of a settled chain, given when it is written. *)
Definition settle_member (nows : string → time) (id : string) (o : Operation) (members : list string)
    (k : string) (old : Operation) : Operation :=
  if bool_decide (k ∈ members) && (k <>s id) && op_RecoveryRequired old
  then settled (nows k) id o old else old.

Lemma settled_certain now id o old : op_RecoveryRequired (settled now id o old) = false.
Proof. unfold settled. by destruct (_ =s _). Qed.

Lemma settled_ID now id o old : op_ID (settled now id o old) = op_ID old.
Proof. unfold settled. by destruct (_ =s _). Qed.

Lemma settle_spec clk id o members ops :
  keyed_ops ops → ∃ nows, ∀ k,
  settle clk id o members ops !! k = settle_member nows id o members k <$> ops !! k.
Proof.
  revert clk ops. induction members as [|m members IH]; intros clk ops Hk; simpl.
  { exists (λ _, 0). intros k. unfold settle_member. by destruct (ops !! k). }
  set (old := default Operation0 (ops !! m)).
  destruct ((m =s id) || negb (op_RecoveryRequired old)) eqn:Hb.
  - destruct (IH (λ i, clk (S i)) ops Hk) as [nows Hn]. exists nows. intros k. rewrite Hn.
    destruct (ops !! k) as [x|] eqn:Hx; [|done]. simpl. f_equal. unfold settle_member.
    destruct (decide (k = m)) as [->|Hne].
    + unfold old in Hb. rewrite Hx in Hb. simpl in Hb.
      by apply orb_true_iff in Hb as [-> | ->%negb_true_iff]; rewrite ?andb_false_r.
    + rewrite (bool_decide_ext (k ∈ m :: members) (k ∈ members)); [done|set_solver].
  - apply orb_false_iff in Hb as [Hid%String.eqb_neq Hr%negb_false_iff].
    assert (ops !! m = Some old) as Hm.
    { unfold old in *. by destruct (ops !! m). }
    destruct (Hk _ _ Hm) as [HID Hne]. rewrite HID.
    destruct (IH (λ i, clk (S i)) (<[m := settled (clk 0%nat) id o old]> ops)) as [nows Hn].
    { intros k x [[<- <-]|[? Hx]]%lookup_insert_Some; [|by apply Hk]. by rewrite settled_ID. }
    exists (λ k, if k =s m then clk 0%nat else nows k). intros k. rewrite Hn.
    destruct (decide (k = m)) as [->|Hkm].
    + rewrite lookup_insert_eq, Hm. simpl. f_equal. unfold settle_member.
      rewrite settled_certain, andb_false_r, eqb_str_refl, Hr, (neqb_str _ _ Hid).
      by rewrite (bool_decide_eq_true_2 (m ∈ m :: members)) by constructor.
    + rewrite lookup_insert_ne by done. destruct (ops !! k); [|done]. simpl. f_equal.
      unfold settle_member. rewrite (neqb_str _ _ Hkm).
      rewrite (bool_decide_ext (k ∈ m :: members) (k ∈ members)); [done|set_solver].
Qed.

Lemma settled_evolves now id o old : op_RecoveryRequired old = true → evolves_op old (settled now id o old).
Proof. intros Hr. unfold settled. destruct (_ =s _); evolve. Qed.

Lemma settle_member_evolves nows id o members k old : evolves_op old (settle_member nows id o members k old).
Proof.
  unfold settle_member. destruct (_ && op_RecoveryRequired old) eqn:Hb; [|done].
  apply andb_true_iff in Hb as [_ ?]. by apply settled_evolves.
Qed.

(** A result that may be recorded for [o]: final, or for a dispatched record whose
    executor reported it neither queued nor running. *)
Definition recordable (r : Result) (o : Operation) : Prop :=
  Terminal (re_State r) = true ∨ (re_State r ≠ "queued" ∧ re_State r ≠ "running" ∧ op_Dispatched o = true).

Lemma finished_evolves now a r o :
  recordable r o → evolves_op o (finished now (finish_result a r) o).
Proof.
  intros Hr. unfold finish_result.
  destruct (EvidenceAction a && _); unfold finished; evolve.
  - destruct Hr as [Ht|(? & ? & ?)]; [|congruence]. intros Hq. by rewrite Hq in Ht.
  - destruct Hr as [Ht|(? & ? & ?)]; [|congruence]. intros Hq. by rewrite Hq in Ht.
  - destruct Hr as [Ht|(? & ? & ?)]; intros (? & ? & ? & ?); simpl in *; congruence.
Qed.

(** What [finish] does to the journal, key by key. *)
Definition finished_journal (id : string) (o : Operation) (chain : gset string) (nows : string → time)
    (m m' : journal) : Prop :=
  ∀ k, m' !! k = if k =s id then Some o else settle_member nows id o (elements chain) k <$> m !! k.

Lemma finish_tx_ok id r clk s s' :
  keyed_ops (s_Operations s) → finish_tx id r clk s = Ok (s', tt) →
  ∃ o o' chain nows, s_Operations s !! id = Some o ∧
    o' = finished (clk 0%nat) (finish_result (d_Action (pl_Draft (op_Plan o))) r) o ∧
    finished_journal id o' chain nows (s_Operations s) (s_Operations s') ∧
    (if (op_State o' =s "succeeded") && (op_parent o <>s "")
     then RecoveryChain (operationLinks (s_Operations s)) (op_parent o) = Ok chain else chain = ∅).
Proof.
  unfold finish_tx. intros Hk Hf. destruct (s_Operations s !! id) as [o|] eqn:Ho; [|done].
  set (o' := finished _ _ o) in *. exists o, o'.
  assert (op_parent o' = op_parent o ∧ op_ID o' = op_ID o) as [Hpar HID] by (unfold o', finish_result; split; by destruct (_ && _)).
  assert (op_link o' = op_link o) as Hlink by (unfold o', finish_result; by destruct (_ && _)).
  cbv zeta in Hf. rewrite Hpar in Hf. destruct (_ && _).
  - apply bind_ok in Hf as (chain & Hc & [= <-]).
    assert (operationLinks (<[id:=o']> (s_Operations s)) = operationLinks (s_Operations s)) as Heq.
    { unfold operationLinks. rewrite fmap_insert, Hlink. apply insert_id. by rewrite lookup_fmap, Ho. }
    cbn [Event set_s_Audit s_Operations set_s_Operations] in *. rewrite Heq in Hc.
    destruct (settle_spec (λ i, clk (2 + i)%nat) id o' (elements chain) (<[id:=o']> (s_Operations s))) as [nows Hn].
    { intros k x [[<- <-]|[? Hx]]%lookup_insert_Some; [|by apply Hk]. rewrite HID. by apply Hk. }
    exists chain, nows. split_and!; [done..| |done]. intros k. cbn. rewrite Hn.
    destruct (String.eqb_spec k id) as [->|Hne]; [|by rewrite lookup_insert_ne].
    rewrite lookup_insert_eq. simpl. unfold settle_member. by rewrite eqb_str_refl, andb_false_r.
  - injection Hf as <-. exists ∅, (λ _, 0). split_and!; [done..| |done]. intros k. cbn.
    destruct (String.eqb_spec k id) as [->|Hne]; [by rewrite lookup_insert_eq|].
    rewrite lookup_insert_ne by done. by destruct (s_Operations s !! k).
Qed.

Lemma finish_tx_evolves id r clk s s' o :
  keyed_ops (s_Operations s) → s_Operations s !! id = Some o → recordable r o →
  finish_tx id r clk s = Ok (s', tt) → evolves (s_Operations s) (s_Operations s').
Proof.
  intros Hk Ho Hr Hf. apply finish_tx_ok in Hf as (o1 & o' & chain & nows & Ho1 & -> & Hj & _); [|done].
  simplify_eq. intros k x. rewrite Hj. destruct (String.eqb_spec k id) as [->|Hne].
  - intros [= <-]. eexists. split; [done|]. by apply finished_evolves.
  - destruct (s_Operations s !! k) as [y|]; [|done]. intros [= <-]. eauto using settle_member_evolves.
Qed.

Lemma finish_tx_undisturbed id r clk s s' :
  keyed_ops (s_Operations s) → (∀ o, s_Operations s !! id = Some o → ¬ in_flight o) →
  finish_tx id r clk s = Ok (s', tt) → undisturbed (s_Operations s) (s_Operations s').
Proof.
  intros Hk Ho Hf. apply finish_tx_ok in Hf as (o1 & o' & chain & nows & Ho1 & -> & Hj & _); [|done].
  intros k x Hx Hfl. rewrite Hj. destruct (String.eqb_spec k id) as [->|Hne].
  - by destruct (Ho _ Hx).
  - rewrite Hx. simpl. exists x. split; [|done]. unfold settle_member.
    destruct Hfl as (_ & _ & _ & ->). by rewrite andb_false_r.
Qed.

End Transactions.
