(* ===== verification/Admission.v ===== *)
(** Admission: what [CreatePlan], [Apply] and [Cancel] guarantee. *)
From S2P Require Import Prelude Json Types Domain Recovery Store Auth Source Engine Journal.

(** ** The recovery admission rule *)

(** The members a draft may leave unresolved: those of the chain it recovers. *)
Definition admits_reference (ops : journal) (d : Draft) (chain : gset string) : Prop :=
  if d_RecoveryID d =s "" then chain = ∅
  else ∃ old, ops !! d_RecoveryID d = Some old ∧ op_RecoveryRequired old = true ∧
    (d_Action d = "profile.restore" ∨ d_Action d = "operation.reconcile") ∧
    d_Target (pl_Draft (op_Plan old)) = d_Target d ∧
    RecoveryChain (operationLinks ops) (op_ID old) = Ok chain.

(** One record does not stand in the way of the draft. *)
Definition admits_record (d : Draft) (chain : gset string) (executing id : string) (o : Operation) : Prop :=
  id = executing ∨
  ((op_RecoveryRequired o = true → id ∈ chain ∨ d_Action d = "hardware.refresh") ∧
   (d_RecoveryID d ≠ "" → op_parent o ≠ "" → id ∈ chain → Terminal (op_State o) = true)).

Lemma admission_conflict_spec chain d executing id o :
  admission_conflict chain d executing (id, o) = None ↔ admits_record d chain executing id o.
Proof.
  unfold admission_conflict, admits_record. destruct (String.eqb_spec id executing); [naive_solver|].
  destruct (op_RecoveryRequired o), (bool_decide_reflect (id ∈ chain)),
    (String.eqb_spec (d_Action d) "hardware.refresh"), (String.eqb_spec (d_RecoveryID d) ""),
    (Terminal (op_State o)), (String.eqb_spec (op_parent o) ""); simpl; naive_solver.
Qed.

Lemma first_conflict_spec f l : first_conflict f l = Ok tt ↔ ∀ kv, kv ∈ l → f kv = None.
Proof.
  induction l as [|kv l IH]; simpl.
  - split; [|done]. intros _ kv Hin. by apply elem_of_nil in Hin.
  - destruct (f kv) eqn:Hf; [split; [done|]|rewrite IH].
    + intros Hall. rewrite Hall in Hf by constructor. done.
    + split; [intros Hl ? [->|?]%elem_of_cons; auto|intros Hl ??; apply Hl; by constructor].
Qed.

Section Admission.
Context `{Sha256} `{Encoding} (Target : string) (Depth : Z).

(** The admission rule decides exactly its specification, whatever the order in
    which the journal is visited: a draft is admitted when its reference (if any) is
    an unresolved record on the same target with an acyclic chain, and every other
    record that requires recovery lies on that chain (a hardware refresh excepted)
    and no other attempt on the chain is unfinished. *)
Theorem recoveryAdmission_spec ops d executing :
  recoveryAdmission ops d executing = Ok tt ↔
  ∃ chain, admits_reference ops d chain ∧
    ∀ id o, ops !! id = Some o → admits_record d chain executing id o.
Proof.
  assert (∀ chain, first_conflict (admission_conflict chain d executing) (map_to_list ops) = Ok tt ↔
    ∀ id o, ops !! id = Some o → admits_record d chain executing id o) as Hscan.
  { intros chain. rewrite first_conflict_spec. setoid_rewrite <- admission_conflict_spec. split.
    - intros Hl id o Ho. apply Hl. by apply elem_of_map_to_list.
    - intros Hl [id o] Hin. apply Hl. by apply elem_of_map_to_list. }
  unfold recoveryAdmission, admits_reference. destruct (String.eqb_spec (d_RecoveryID d) "") as [Hr|Hr].
  { simpl. rewrite Hscan. naive_solver. }
  split.
  - intros (chain & Hc & Hs)%bind_ok. exists chain. rewrite <- Hscan. split; [|done].
    destruct (ops !! d_RecoveryID d) as [old|]; [|done]. split_hyp Hc. bool_hyps. eexists.
    split_and!; [done..| |done|done].
    repeat match goal with E : (_ && _) = false |- _ => apply andb_false_iff in E as [E|E] end; bool_hyps; auto.
  - intros (chain & (old & -> & -> & Ha & Ht & Hc) & Hs). apply Hscan in Hs.
    rewrite Ht, eqb_str_refl, Hc. simpl. destruct Ha as [-> | ->]; simpl; done.
Qed.

(** ** Apply *)

(** What an accepted new operation was checked against. *)
Record accepted (clk : clock) (id : string) (a : Actor) (planID target : string) (s : State) (op : Operation) : Prop := {
  ac_plan : s_Plans s !! planID = Some (op_Plan op);
  ac_op : op = new_operation id a (op_Plan op) (op_CreatedAt op);
  ac_actor : pl_Actor (op_Plan op) = a_ID a;
  ac_role : RoleAllows (a_Role a) (d_Action (pl_Draft (op_Plan op))) = true;
  ac_owner : op_parent op ≠ "" → a_Role a = "owner";
  ac_target : target = Target ∧ d_Target (pl_Draft (op_Plan op)) = Target;
  ac_fresh : clk 0%nat ≤ pl_ExpiresAt (op_Plan op);
  ac_integrity : plan_hash (op_Plan op) = pl_Hash (op_Plan op);
  ac_recovery : recoveryAdmission (s_Operations s) (pl_Draft (op_Plan op)) "" = Ok tt;
  ac_depth : active_count (s_Operations s) < Depth;
  ac_retained : (size (s_Operations s) < 500)%nat }.

Lemma apply_tx_ok id a planID target key clk s s' op :
  apply_tx Target Depth id a planID target key clk s = Ok (s', op) →
  let idem := a_ID a +:+ ":" +:+ key in
  let entry := mkIdempotency (payload_hash planID target) (op_ID op) in
  (s_Idempotency s !! idem = None ∧ accepted clk id a planID target s op ∧
   s_Operations s' = <[id := op]> (s_Operations s) ∧
   s_Idempotency s' = <[idem := entry]> (s_Idempotency s) ∧ s_Plans s' = s_Plans s) ∨
  (s' = s ∧ ∃ old, s_Idempotency s !! idem = Some old ∧ id_PayloadHash old = payload_hash planID target ∧
   op = default Operation0 (s_Operations s !! id_OperationID old) ∧
   RoleAllows (a_Role a) (d_Action (pl_Draft (op_Plan op))) = true).
Proof.
  unfold apply_tx. intros Ha. cbv zeta.
  destruct (s_Idempotency s !! (a_ID a +:+ ":" +:+ key)) as [old|].
  - split_hyp Ha. bool_hyps. right. split; [done|]. by exists old.
  - destruct (s_Plans s !! planID) as [p|] eqn:Hp; [|done]. split_hyp Ha. bool_hyps. left.
    unfold after in *. bool_hyps. destruct x. split_and!; try done.
    split; simpl; try done; try lia; try (split; congruence).
    intros Hr%neqb_str. unfold op_parent in Hr. simpl in Hr. rewrite Hr in *.
    match goal with E : negb false && _ = false |- _ => simpl in E; by apply negb_false_iff, String.eqb_eq in E end.
Qed.

Lemma apply_tx_replay id a planID target key clk s old op :
  s_Idempotency s !! (a_ID a +:+ ":" +:+ key) = Some old →
  s_Operations s !! id_OperationID old = Some op →
  RoleAllows (a_Role a) (d_Action (pl_Draft (op_Plan op))) = true →
  apply_tx Target Depth id a planID target key clk s =
    (if id_PayloadHash old =s payload_hash planID target then Ok (s, op)
     else Err (Failure "idempotency_conflict" "idempotency key already belongs to another payload")).
Proof. unfold apply_tx. intros -> Ho Hr. rewrite Ho. simpl. rewrite Hr. by destruct (_ =s _). Qed.

Lemma Apply_Update clk w stopping id a planID target key db db' op :
  Apply Target Depth clk w stopping id a planID target key db = (db', Ok op) →
  Update clk w (apply_tx Target Depth id a planID target key) db = (db', Ok op).
Proof. unfold Apply. repeat (destruct (_ : bool); [done|]). done. Qed.

Lemma committed_keeps clk v id o :
  s_Operations v !! id = Some o → Terminal (op_State o) = false → s_Operations (committed clk v) !! id = Some o.
Proof. intros. rewrite committed_Operations. by apply prune_keeps_unfinished. Qed.

Lemma committed_subseteq clk v : s_Operations (committed clk v) ⊆ s_Operations v.
Proof. rewrite committed_Operations. apply prune_Operations_subseteq. Qed.

Lemma recommitted_subseteq clk now v :
  s_Operations (committed clk (prune now v)) ⊆ s_Operations v.
Proof. etrans; [apply committed_subseteq|apply prune_Operations_subseteq]. Qed.

(** C18: An operation is accepted only on a plan of the caller, authorised for its
    role, for the exact target, unexpired, with its integrity hash intact, with no
    unrelated recovery outstanding and within both capacity bounds; when [Apply]
    reports the record, it is already durable in the file as a queued record with
    no effect. Otherwise the call replays the record of the same request. *)
Theorem Apply_admits clk w stopping id a planID target key db db' op :
  Apply Target Depth clk w stopping id a planID target key db = (db', Ok op) →
  let s := prune (clk 0%nat) (st_state db) in
  match s_Idempotency s !! (a_ID a +:+ ":" +:+ key) with
  | None => accepted (λ i, clk (2 + i)%nat) id a planID target s op ∧
      s_Operations (st_file db') !! id = Some op ∧ st_file db' = st_state db' ∧
      op_State op = "queued" ∧ op_Dispatched op = false
  | Some old => s_Operations s !! id_OperationID old = Some op ∧
      id_PayloadHash old = payload_hash planID target ∧
      RoleAllows (a_Role a) (d_Action (pl_Draft (op_Plan op))) = true ∧
      OperationRecords db' ⊆ OperationRecords db
  end.
Proof.
  intros Hu%Apply_Update. cbv zeta. pose proof Hu as (_ & v & Hv & ->)%Update_ok.
  apply apply_tx_ok in Hv as [(-> & Hacc & Hops & _)|(-> & old & Hold & Hh & -> & Hr)].
  - destruct Hacc as [Hp Hop]. assert (op_State op = "queued") as Hq by (by rewrite Hop).
    split; [by split|]. split; [|split; [done|split; [done|by rewrite Hop]]]. cbn [st_file]. apply committed_keeps.
    + rewrite Hops. apply lookup_insert_eq.
    + by rewrite Hq.
  - rewrite Hold. apply prune_bounded in Hold as [x Hx]. rewrite Hx in *. split_and!; try done.
    apply recommitted_subseteq.
Qed.

(** A retried request is not a second operation: after a request was accepted, the
    same key with the same plan and target answers with the same operation and
    creates none, and with a different payload it is refused without any change. *)
Theorem Apply_idempotent clk clk' w w' stopping id id' a planID target planID' target' key db db' db'' op r :
  s_Idempotency (st_state db) !! (a_ID a +:+ ":" +:+ key) = None →
  Apply Target Depth clk w stopping id a planID target key db = (db', Ok op) →
  Apply Target Depth clk' w' false id' a planID' target' key db' = (db'', r) →
  if payload_hash planID target =s payload_hash planID' target'
  then OperationRecords db'' ⊆ OperationRecords db' ∧ (r = Ok op ∨ ∃ m, r = Err (Failure "storage_unavailable" m))
  else db'' = db' ∧ r = Err (Failure "idempotency_conflict" "idempotency key already belongs to another payload").
Proof.
  intros Hi Ha Hb.
  assert (Apply Target Depth clk' w' false id' a planID' target' key db' =
          Update clk' w' (apply_tx Target Depth id' a planID' target' key) db') as Hu.
  { unfold Apply in Ha |- *. destruct (_ || _); [done|]. by destruct (negb (all_chars _ _)). }
  rewrite Hu in Hb. clear Hu. apply Apply_Update in Ha as (_ & v & Hv & ->)%Update_ok.
  apply apply_tx_ok in Hv as [(_ & Hacc & Hops & Hidem & _)|(_ & old & [Hold _]%prune_Idempotency & _)]; [|congruence].
  destruct Hacc as [_ Hop _ Hrole]. pose proof (f_equal op_State Hop) as Hq. simpl in Hq.
  pose proof (f_equal op_ID Hop) as HID. simpl in HID.
  set (db1 := mkStore _ _ _) in *.
  assert (s_Operations (prune (clk' 0%nat) (st_state db1)) !! id = Some op) as Hid.
  { apply prune_keeps_unfinished; [|by rewrite Hq]. apply committed_keeps; [|by rewrite Hq].
    rewrite Hops. apply lookup_insert_eq. }
  assert (s_Idempotency (prune (clk' 0%nat) (st_state db1)) !! (a_ID a +:+ ":" +:+ key)
    = Some (mkIdempotency (payload_hash planID target) id)) as Hkey.
  { apply prune_Idempotency_keep; [|by eexists]. unfold db1; cbn [st_state].
    rewrite committed_Idempotency. apply prune_Idempotency_keep.
    - rewrite Hidem, HID. apply lookup_insert_eq.
    - eexists. apply prune_keeps_unfinished; [rewrite Hops; apply lookup_insert_eq|by rewrite Hq]. }
  assert (st_poisoned db1 = false) as Hdb1 by done. clearbody db1.
  pose proof (apply_tx_replay id' _ planID' target' _ (λ i, clk' (2 + i)%nat) _ _ _ Hkey Hid Hrole) as Htx.
  cbn [id_PayloadHash] in Htx. destruct (_ =s _).
  - destruct (Update_run _ w' _ _ _ _ Hdb1 Htx) as [Hu|(f & m & Hu)]; rewrite Hu in Hb;
      injection Hb as <- <-; split; eauto. apply recommitted_subseteq.
  - rewrite (Update_fail _ _ _ _ _ Hdb1 Htx) in Hb. by injection Hb as <- <-.
Qed.

(** Cancellation is revision-checked and truthful: it succeeds only on a record the
    caller's role may act on, at the revision named (zero for any), not yet final; a
    queued record becomes [cancelled], any other one is only asked to stop, and no
    other record changes. *)
Theorem Cancel_spec clk w a id revision db db' o' :
  Cancel clk w a id revision db = (db', Ok o') →
  ∃ o, OperationRecords db !! id = Some o ∧
    RoleAllows (a_Role a) (d_Action (pl_Draft (op_Plan o))) = true ∧
    (revision = 0 ∨ revision = op_Revision o) ∧ Terminal (op_State o) = false ∧
    op_State o' = (if op_State o =s "queued" then "cancelled" else "cancel-requested") ∧
    op_CancelRequested o' = true ∧ op_Revision o' = incu64 (op_Revision o) ∧
    op_Dispatched o' = op_Dispatched o ∧ op_Plan o' = op_Plan o ∧
    delete id (OperationRecords db') ⊆ OperationRecords db.
Proof.
  unfold Cancel. destruct (Update _ _ _ _) as [db1 [u|]] eqn:Hu; [|done]. intros [= -> Ho'].
  unfold engine_Operation in Ho'. destruct (st_Operation db' id) as [o''|] eqn:Hst; [|done]. injection Ho' as ->.
  apply Update_ok in Hu as (_ & v & Hc & ->). unfold st_Operation in Hst. simpl in Hst.
  rewrite committed_Operations in Hst. apply prune_Operations_lookup in Hst as [Hst _].
  unfold cancel_tx in Hc. destruct (s_Operations (prune _ _) !! id) as [o|] eqn:Ho; [|done].
  split_hyp Hc. bool_hyps. simpl in Hst. rewrite lookup_insert_eq in Hst. injection Hst as <-.
  exists o. split; [eapply lookup_weaken; [done|apply prune_Operations_subseteq]|].
  assert (revision = 0 ∨ revision = op_Revision o).
  { destruct (Z.eqb_spec revision 0), (Z.eqb_spec revision (op_Revision o)); auto; done. }
  split_and!; try done; try (simpl; by destruct (_ =s "queued")).
  unfold OperationRecords. simpl. apply map_subseteq_spec. intros k x [Hne Hx]%lookup_delete_Some.
  pose proof (lookup_weaken _ _ _ _ Hx (committed_subseteq _ _)) as Hy. clear Hx.
  cbn in Hy. rewrite lookup_insert_ne in Hy by done.
  eapply lookup_weaken; [done|apply prune_Operations_subseteq].
Qed.

(** ** Plans *)

Lemma plan_hash_sealed p : pl_Hash p = "" → plan_hash (set_pl_Hash (sha256_hex (Plan_json p)) p) = sha256_hex (Plan_json p).
Proof. unfold plan_hash. intros Hp. do 2 f_equal. destruct p; simpl in *. by subst. Qed.

(** What a created plan was checked against and contains. *)
Record planned (clk : clock) (id : string) (ad : Adapter) (a : Actor) (d : Draft) (src : SourceFile) (db : Store)
    (p : Plan) (c : Configuration) (inv : Inventory) (pv : Preview) : Prop := {
  pd_role : RoleAllows (a_Role a) (d_Action d) = true;
  pd_recovery : d_RecoveryID d ≠ "" →
    a_Role a = "owner" ∧ (d_Action d = "profile.restore" ∨ d_Action d = "operation.reconcile");
  pd_source : Read src = Ok c;
  pd_preflight : preflight Target ad d c db = Ok (inv, pv);
  pd_valid : ValidateDraft (λ i, clk (1 + i)%nat) d c inv = Ok tt;
  pd_ID : pl_ID p = id;
  pd_Actor : pl_Actor p = a_ID a;
  pd_Draft : pl_Draft p = d;
  pd_Desired : pl_Desired p = Desired c d;
  pd_Preconditions : pv_Preconditions (pl_Preview p) = pv_Preconditions pv;
  pd_Changes : pv_Changes (pl_Preview p) = changes c (Desired c d);
  pd_window : pl_ExpiresAt p = pl_CreatedAt p + 10 * Minute;
  pd_seal : plan_hash p = pl_Hash p }.

Lemma build_plan_ok clk id ad a d src db p :
  build_plan Target clk id ad a d src db = Ok p → ∃ c inv pv, planned clk id ad a d src db p c inv pv.
Proof.
  unfold build_plan. intros Hb. destruct (negb (RoleAllows _ _)) eqn:Hr; [done|].
  destruct (_ && _) eqn:Hrec; [done|]. apply negb_false_iff in Hr.
  apply bind_ok in Hb as (c & Hc & Hb). apply bind_ok in Hb as ([inv pv] & Hp & Hb).
  apply bind_ok in Hb as ([] & Hv & [= <-]). exists c, inv, pv. split; try done.
  - intros Hne%neqb_str. rewrite Hne in Hrec. simpl in Hrec.
    destruct (String.eqb_spec (a_Role a) "owner"), (String.eqb_spec (d_Action d) "profile.restore"),
      (String.eqb_spec (d_Action d) "operation.reconcile"); try done; auto.
Qed.

Lemma CreatePlan_ok clk clk' w id ad a d src db db' p :
  CreatePlan Target clk clk' w id ad a d src db = (db', Ok p) →
  (∃ c inv pv, planned clk id ad a d src db p c inv pv) ∧ st_poisoned db' = false ∧
  (Z.of_nat (size (s_Plans (prune (clk' 0%nat) (st_state db)))) < 200) ∧
  ∃ v, st_state db' = committed clk' v ∧ st_file db' = committed clk' v ∧
    s_Operations v = s_Operations (prune (clk' 0%nat) (st_state db)) ∧
    s_Idempotency v = s_Idempotency (prune (clk' 0%nat) (st_state db)) ∧
    s_Plans v = <[id := p]> (s_Plans (prune (clk' 0%nat) (st_state db))).
Proof.
  unfold CreatePlan. destruct (build_plan _ _ _ _ _ _ _ _) as [q|] eqn:Hb; [|done].
  apply build_plan_ok in Hb as (c & inv & pv & Hpl).
  destruct (Update _ _ _ _) as [db1 [u|]] eqn:Hu; [|done]. intros [= -> ->].
  apply Update_ok in Hu as (_ & v & Hv & ->). unfold create_plan_tx in Hv. split_hyp Hv. bool_hyps.
  split; [by exists c, inv, pv|]. split; [done|]. split; [lia|]. eexists.
  split_and!; [done..|]. simpl. by destruct Hpl as [_ _ _ _ _ -> _ _ _ _ _ _ _].
Qed.

(** A plan is created only for a draft the caller's role may request, on a readable
    source, a passing preflight and a valid desired configuration; it is sealed with
    its own hash, expires ten minutes after its creation, is stored durably and
    touches no operation. *)
Theorem CreatePlan_sound clk clk' w id ad a d src db db' p :
  CreatePlan Target clk clk' w id ad a d src db = (db', Ok p) →
  (∃ c inv pv, planned clk id ad a d src db p c inv pv) ∧
  OperationRecords db' ⊆ OperationRecords db ∧
  (clk' 1%nat ≤ pl_ExpiresAt p + Hour → s_Plans (st_file db') !! id = Some p).
Proof.
  intros (Hpl & _ & _ & v & Hs & Hf & Ho & _ & Hp)%CreatePlan_ok. split; [done|]. split.
  - unfold OperationRecords. rewrite Hs. etrans; [apply committed_subseteq|]. rewrite Ho.
    apply prune_Operations_subseteq.
  - intros. rewrite Hf, committed_Plans. apply prune_Plans. rewrite Hp, lookup_insert_eq. done.
Qed.

(** A created plan can be applied: unless it has expired, recovery or capacity stands
    in the way or storage fails, the caller's first [Apply] with a well-formed key
    accepts exactly this plan; no other check can refuse it. *)
Theorem CreatePlan_Apply clk clk' clk'' w w' pid id ad a d src key db db' db'' p r :
  CreatePlan Target clk clk' w pid ad a d src db = (db', Ok p) →
  Apply Target Depth clk'' w' false id a pid (d_Target d) key db' = (db'', r) →
  8 ≤ str_len key ≤ 128 → all_chars (λ c, negb ((N_of_ascii c <? 33)%N || (126 <? N_of_ascii c)%N)) key = true →
  s_Idempotency (st_state db') !! (a_ID a +:+ ":" +:+ key) = None →
  d_Target d = Target → clk' 1%nat ≤ pl_ExpiresAt p → clk'' 0%nat ≤ pl_ExpiresAt p → clk'' 2%nat ≤ pl_ExpiresAt p →
  let ops := s_Operations (prune (clk'' 0%nat) (st_state db')) in
  recoveryAdmission ops d "" = Ok tt →
  active_count ops < Depth → (size ops < 500)%nat →
  r = Ok (new_operation id a p (clk'' 3%nat)) ∨ ∃ m, r = Err (Failure "storage_unavailable" m).
Proof.
  intros ((c & inv & pv & Hpl) & Hpois & _ & v & Hs & _ & _ & _ & Hplans)%CreatePlan_ok Ha Hlen Hchars Hidem Ht Hx1 Hx2 Hx3.
  cbv zeta. intros Hrec Hact Hsize. unfold Apply in Ha.
  rewrite Hchars, (proj2 (orb_false_iff _ _)) in Ha by (rewrite Z.gtb_ltb, !Z.ltb_ge; lia). cbn [negb] in Ha.
  assert (s_Plans (prune (clk'' 0%nat) (st_state db')) !! pid = Some p) as Hplan.
  { apply prune_Plans. rewrite Hs, committed_Plans. split; [|unfold Hour, Minute, Second; lia].
    apply prune_Plans. rewrite Hplans, lookup_insert_eq. split; [done|unfold Hour, Minute, Second; lia]. }
  assert (s_Idempotency (prune (clk'' 0%nat) (st_state db')) !! (a_ID a +:+ ":" +:+ key) = None) as Hnone.
  { apply eq_None_not_Some. intros [i [? _]%prune_Idempotency]. congruence. }
  destruct Hpl as [Hrole Hrecov _ _ _ _ Hactor Hdraft _ _ _ _ Hseal].
  assert (∃ s', apply_tx Target Depth id a pid (d_Target d) key (λ i, clk'' (2 + i)%nat)
    (prune (clk'' 0%nat) (st_state db')) = Ok (s', new_operation id a p (clk'' 3%nat))) as [s' Htx].
  { eexists. unfold apply_tx. rewrite Hnone, Hplan, Hactor, Hdraft, Hrole, Ht, Hseal, !eqb_str_refl, Hrec.
    cbn [negb orb Nat.add]. unfold after. rewrite (proj2 (Z.ltb_ge _ _) Hx3).
    assert ((d_RecoveryID d <>s "") && (a_Role a <>s "owner") = false) as ->.
    { destruct (String.eqb_spec (d_RecoveryID d) "") as [|Hne]; [done|]. by rewrite (proj1 (Hrecov Hne)). }
    cbn [mbind result_bind]. rewrite (proj2 (orb_false_iff _ _)); [reflexivity|].
    rewrite !Z.geb_leb, !Z.leb_gt. lia. }
  destruct (Update_run _ w' _ _ _ _ Hpois Htx) as [Hu|(f & m & Hu)]; rewrite Hu in Ha; injection Ha as _ <-; eauto.
Qed.

End Admission.

(** ** Concrete admissions *)

Module AdmissionFixture.
#[local] Existing Instance render_hash.
Import EngineFixture.
Definition again := Apply "ws" 4 now Written false "o2" actor "p" "ws" "12345678" db3.
Definition cancel := Cancel now Written actor "o" 0 db3.
Lemma create_ok :
  CreatePlan "ws" now now Written "p" adapter actor DomainFixture.configure source db1 = (db2, Ok plan).
Proof. vm_compute. reflexivity. Qed.
Lemma apply_ok : Apply "ws" 4 now Written false "o" actor "p" "ws" "12345678" db2 = (db3, Ok op).
Proof. vm_compute. reflexivity. Qed.
Lemma no_key : s_Idempotency (st_state db2) !! (a_ID actor +:+ ":" +:+ "12345678") = None.
Proof. vm_compute. reflexivity. Qed.
End AdmissionFixture.

#[local] Existing Instance render_hash.
#[local] Existing Instance EngineFixture.enc.

Lemma Apply_admits_witness :
  s_Operations (st_file EngineFixture.db3) !! "o" = Some EngineFixture.op ∧ op_Dispatched EngineFixture.op = false.
Proof.
  pose proof (Apply_admits "ws" 4 EngineFixture.now Written false "o" EngineFixture.actor "p" "ws" "12345678"
    EngineFixture.db2 EngineFixture.db3 EngineFixture.op AdmissionFixture.apply_ok) as Ha.
  assert (s_Idempotency (prune (EngineFixture.now 0%nat) (st_state EngineFixture.db2))
            !! (a_ID EngineFixture.actor +:+ ":" +:+ "12345678") = None) as Hn by (vm_compute; reflexivity).
  cbv zeta in Ha.
  rewrite Hn in Ha. destruct Ha as (_ & H1 & _ & _ & H2). exact (conj H1 H2).
Defined.

Lemma Apply_idempotent_witness :
  AdmissionFixture.again.2 = Ok EngineFixture.op ∨
  ∃ m, AdmissionFixture.again.2 = Err (Failure "storage_unavailable" m).
Proof.
  pose proof (Apply_idempotent "ws" 4 EngineFixture.now EngineFixture.now Written Written false "o" "o2"
    EngineFixture.actor "p" "ws" "p" "ws" "12345678" EngineFixture.db2 EngineFixture.db3
    AdmissionFixture.again.1 EngineFixture.op AdmissionFixture.again.2
    AdmissionFixture.no_key AdmissionFixture.apply_ok (surjective_pairing _)) as Hi.
  rewrite eqb_str_refl in Hi. exact (proj2 Hi).
Defined.

Lemma CreatePlan_sound_witness : OperationRecords EngineFixture.db2 ⊆ OperationRecords EngineFixture.db1.
Proof.
  exact (proj1 (proj2 (CreatePlan_sound "ws" EngineFixture.now EngineFixture.now Written "p" EngineFixture.adapter
    EngineFixture.actor DomainFixture.configure EngineFixture.source EngineFixture.db1 EngineFixture.db2
    EngineFixture.plan AdmissionFixture.create_ok))).
Defined.

Lemma CreatePlan_Apply_witness :
  Ok EngineFixture.op = Ok (new_operation "o" EngineFixture.actor EngineFixture.plan (11 * Hour)) ∨
  ∃ m, Ok EngineFixture.op = Err (Failure "storage_unavailable" m).
Proof.
  refine (CreatePlan_Apply "ws" 4 EngineFixture.now EngineFixture.now EngineFixture.now Written Written "p" "o"
    EngineFixture.adapter EngineFixture.actor DomainFixture.configure EngineFixture.source "12345678"
    EngineFixture.db1 EngineFixture.db2 EngineFixture.db3 EngineFixture.plan (Ok EngineFixture.op)
    AdmissionFixture.create_ok AdmissionFixture.apply_ok _ _ AdmissionFixture.no_key _ _ _ _ _ _ _);
    vm_compute; solve [reflexivity | split; discriminate | discriminate | lia].
Defined.

Lemma Cancel_spec_witness :
  ∃ o', AdmissionFixture.cancel.2 = Ok o' ∧ op_State o' = "cancelled".
Proof.
  assert (∃ o', AdmissionFixture.cancel.2 = Ok o') as [o' Ho'] by (eexists; vm_compute; reflexivity).
  exists o'. split; [exact Ho'|].
  destruct (Cancel_spec EngineFixture.now Written EngineFixture.actor "o" 0 EngineFixture.db3 AdmissionFixture.cancel.1 o')
    as (o & Ho & _ & _ & _ & Hs & _).
  { rewrite <- Ho'. apply surjective_pairing. }
  rewrite Hs. assert (OperationRecords EngineFixture.db3 !! "o" = Some EngineFixture.op) as Heq by (vm_compute; reflexivity).
  rewrite Heq in Ho. injection Ho as <-. reflexivity.
Defined.
