(* ===== verification/Execution.v ===== *)
(** One activation of the worker: how [finish] settles a recovered chain, what stands
    between a queued record and [Adapter.Execute], and that every activation ends
    with a final record when storage is healthy. *)
From S2P Require Import Prelude Json Types Domain Recovery Store Auth Source Engine Journal Admission.

(** ** Finishing *)

Section Execution.
Context `{Sha256} `{Encoding} (Target : string).

Lemma prune_keyed now v : keyed_ops (s_Operations v) → keyed_ops (s_Operations (prune now v)).
Proof. apply evolves_keyed, prune_evolves. Qed.

Lemma finish_ok clk w id r db db' :
  keyed_ops (OperationRecords db) → finish clk w id r db = (db', Ok tt) →
  st_poisoned db = false ∧ st_poisoned db' = false ∧
  ∃ o o' chain nows m, OperationRecords db !! id = Some o ∧
    o' = finished (clk 2%nat) (finish_result (d_Action (pl_Draft (op_Plan o))) r) o ∧
    finished_journal id o' chain nows (s_Operations (prune (clk 0%nat) (st_state db))) m ∧
    (if (op_State o' =s "succeeded") && (op_parent o <>s "")
     then RecoveryChain (operationLinks (s_Operations (prune (clk 0%nat) (st_state db)))) (op_parent o) = Ok chain
     else chain = ∅) ∧
    OperationRecords db' ⊆ m ∧ (keyed_ops m) ∧
    (∀ k x, m !! k = Some x → Terminal (op_State x) = false → OperationRecords db' !! k = Some x).
Proof.
  intros Hk (Hp & v & Hv & ->)%Update_ok. split_and!; [done..|].
  apply finish_tx_ok in Hv as (o & o' & chain & nows & Ho & Ho' & Hj & Hc); [|by apply prune_keyed].
  exists o, o', chain, nows, (s_Operations v).
  assert (OperationRecords db !! id = Some o) as Hdb
    by (eapply lookup_weaken; [exact Ho|apply prune_Operations_subseteq]).
  split_and!; try done.
  - apply committed_subseteq.
  - intros k x. rewrite Hj. destruct (String.eqb_spec k id) as [->|].
    + intros [= <-]. apply Hk in Hdb as []. subst o'. done.
    + destruct (_ !! k) as [y|] eqn:Hy; [|done]. intros [= <-].
      apply (prune_keyed _ _ Hk) in Hy as []. unfold settle_member. by destruct (_ && op_RecoveryRequired y); rewrite ?settled_ID.
  - intros k x Hx Ht. by apply committed_keeps.
Qed.

(** Finishing an operation settles exactly the chain it recovered. Its own record
    takes the reported outcome. If it succeeded as a recovery attempt, every other
    member of the chain that required recovery becomes a certain failure naming this
    operation; every record outside the chain, and every record when it did not
    succeed or recovers nothing, is left as it was. *)
Theorem finish_settles_chain clk w id r db db' :
  keyed_ops (OperationRecords db) → finish clk w id r db = (db', Ok tt) →
  ∃ o o' chain, OperationRecords db !! id = Some o ∧
    o' = finished (clk 2%nat) (finish_result (d_Action (pl_Draft (op_Plan o))) r) o ∧
    (if (op_State o' =s "succeeded") && (op_parent o <>s "")
     then RecoveryChain (operationLinks (s_Operations (prune (clk 0%nat) (st_state db)))) (op_parent o) = Ok chain
     else chain = ∅) ∧
    (∀ x, OperationRecords db' !! id = Some x → x = o') ∧
    ∀ k x, k ≠ id → OperationRecords db' !! k = Some x →
      ∃ old, OperationRecords db !! k = Some old ∧
      if bool_decide (k ∈ chain) && op_RecoveryRequired old
      then op_RecoveryRequired x = false ∧ op_State x = "failed" ∧
           op_Message x = "resolved by operation " +:+ id ∧ op_Plan x = op_Plan old ∧
           op_Dispatched x = op_Dispatched old ∧ op_Events x = op_Events old
      else x = old.
Proof.
  intros Hk (_ & _ & o & o' & chain & nows & m & Ho & Ho' & Hj & Hc & Hsub & _ & _)%finish_ok; [|done].
  exists o, o', chain. split_and!; [done..| |].
  - intros x Hx. eapply lookup_weaken in Hx; [|done]. rewrite Hj, eqb_str_refl in Hx. by simplify_eq.
  - intros k x Hne Hx. eapply lookup_weaken in Hx; [|done]. rewrite Hj, (neqb_str _ _ Hne) in Hx.
    destruct (_ !! k) as [old|] eqn:Hold; [|done]. injection Hx as <-.
    exists old. split; [eapply lookup_weaken; [exact Hold|apply prune_Operations_subseteq]|].
    unfold settle_member. rewrite (neqb_str _ _ Hne). cbn [negb]. rewrite andb_true_r.
    rewrite (bool_decide_ext (k ∈ elements chain) (k ∈ chain)) by apply elem_of_elements.
    destruct (bool_decide (k ∈ chain) && op_RecoveryRequired old); [|done].
    unfold settled. by destruct (d_Action _ =s _).
Qed.

(** A read-only evidence operation never demands GPU recovery: whatever its executor
    reports, the record it finishes with does not require recovery. *)
Theorem evidence_never_requires_recovery clk w id r db db' o x :
  keyed_ops (OperationRecords db) → OperationRecords db !! id = Some o →
  EvidenceAction (d_Action (pl_Draft (op_Plan o))) = true →
  finish clk w id r db = (db', Ok tt) →
  OperationRecords db' !! id = Some x → op_RecoveryRequired x = false.
Proof.
  intros Hk Ho He (_ & _ & o1 & o' & ? & ? & m & Ho1 & -> & Hj & _ & Hsub & _)%finish_ok Hx; [|done].
  simplify_eq. eapply lookup_weaken in Hx; [|done]. rewrite Hj, eqb_str_refl in Hx. injection Hx as <-.
  unfold finish_result. rewrite He. simpl.
  destruct (re_RecoveryRequired r) eqn:Hr, (re_State r =s "recovery-required") eqn:Hs; simpl; try done.
  destruct ((re_State r =s "running") || _); [done|]. simpl. by rewrite Hr, Hs.
Qed.

(** ** The gate before dispatch *)

(** The authority a record is claimed under. *)
Definition claimable (clk : clock) (s : State) (id : string) (o : Operation) : Prop :=
  s_Operations s !! id = Some o ∧ op_State o = "queued" ∧
  recoveryAdmission (s_Operations s) (pl_Draft (op_Plan o)) (op_ID o) = Ok tt ∧
  (∃ cr, s_Credentials s !! op_Actor o = Some cr ∧ cr_Revoked cr = false ∧
     clk 1%nat ≤ cr_ExpiresAt cr ∧ RoleAllows (cr_Role cr) (d_Action (pl_Draft (op_Plan o))) = true) ∧
  clk 2%nat ≤ pl_ExpiresAt (op_Plan o).

Lemma claim_tx_running id clk s s' o' :
  claim_tx id clk s = Ok (s', tt) → s_Operations s' !! id = Some o' → op_State o' = "running" →
  keyed_ops (s_Operations s) →
  ∃ o, claimable clk s id o ∧ op_ID o' = id ∧ op_Dispatched o' = op_Dispatched o ∧
    op_RecoveryRequired o' = op_RecoveryRequired o ∧ op_Plan o' = op_Plan o.
Proof.
  unfold claim_tx, claimable. destruct (s_Operations s !! id) as [o|] eqn:Ho; cbn [default Datatypes.id]; intros Hc Ho' Hr Hk; [|done].
  destruct (Hk _ _ Ho) as [HID _]. exists o. cbv zeta in Hc.
  destruct (negb (op_State o =s "queued")) eqn:Hq; [done|]. bool_hyps.
  destruct (recoveryAdmission _ _ _) as [[]|] eqn:Hrec; simpl in Hc;
    [|injection Hc as <-; simpl in Ho'; rewrite HID, lookup_insert_eq in Ho'; by injection Ho' as <-].
  destruct (s_Credentials s !! op_Actor o) as [cr|];
    [|injection Hc as <-; simpl in Ho'; rewrite HID, lookup_insert_eq in Ho'; by injection Ho' as <-].
  destruct (_ || after (clk 2%nat) _) eqn:Hb; injection Hc as <-; simpl in Ho';
    rewrite HID, lookup_insert_eq in Ho'; injection Ho' as <-; [done|].
  unfold after in Hb. bool_hyps. split_and!; try done; eauto.
Qed.

(** What [prepare] checked when it lets the operation go on to an effect. *)
Definition prepared (ev : Env) (op : Operation) (c : Configuration) (src : SourceFile) (db : Store) : Prop :=
  Read src = Ok c ∧ ev_done ev = false ∧ d_Action (pl_Draft (op_Plan op)) ≠ "operation.reconcile" ∧
  ∃ inv pv, preflight Target (ev_adapter ev) (pl_Draft (op_Plan op)) c db = Ok (inv, pv) ∧
    ValidateDraft (ev_clk ev 1%nat) (pl_Draft (op_Plan op)) c inv = Ok tt ∧
    pv_Preconditions pv = pv_Preconditions (pl_Preview (op_Plan op)).

Lemma prepare_cases ev op src db :
  match prepare Target ev op src db with
  | Finish r => Terminal (re_State r) = true
  | ReplaceSource c => prepared ev op c src db ∧ cf_Revision (pl_Desired (op_Plan op)) ≠ cf_Revision c
  | Dispatch => ∃ c, prepared ev op c src db ∧ cf_Revision (pl_Desired (op_Plan op)) = cf_Revision c
  end.
Proof.
  assert (∀ err, Terminal (re_State (fail_result err false)) = true) as Hfail.
  { intros err. unfold fail_result. by destruct (default _ _). }
  unfold prepare, prepared. destruct (Read src) as [c|]; [|apply Hfail].
  destruct (preflight _ _ _ _ _) as [[inv pv]|] eqn:Hp; [|apply Hfail].
  destruct (ValidateDraft _ _ _ _) as [[]|] eqn:Hv; [|apply Hfail].
  destruct (bool_decide_reflect (pv_Preconditions pv = pv_Preconditions (pl_Preview (op_Plan op)))) as [He|]; simpl; [|done].
  destruct (ev_done ev); [done|].
  destruct (String.eqb_spec (d_Action (pl_Draft (op_Plan op))) "operation.reconcile"); [done|].
  destruct (String.eqb_spec (cf_Revision (pl_Desired (op_Plan op))) (cf_Revision c)); simpl; naive_solver.
Qed.

(** Every record's dispatch intent is flagged. *)
Definition intents_marked (m : journal) : Prop := ∀ id o, m !! id = Some o → intent_marked o.

(** The store is writable and the file holds the in-memory state. *)
Definition healthy (db : Store) : Prop := st_poisoned db = false ∧ st_file db = st_state db.

Lemma Update_healthy {A} clk w (fn : clock → State → result (State * A)) db db' a :
  Update clk w fn db = (db', Ok a) → healthy db'.
Proof. by intros (_ & v & _ & ->)%Update_ok. Qed.

(** The record [id], a descendant of [o0], is being run. *)
Definition running (id : string) (o0 : Operation) (db : Store) : Prop :=
  healthy db ∧ ∃ o, OperationRecords db !! id = Some o ∧ evolves_op o0 o ∧ op_State o = "running".

Lemma progress_running clk w id o0 p db db' :
  running id o0 db → progress clk w id p db = (db', Ok tt) → running id o0 db'.
Proof.
  intros [Hh (o & Ho & He & Hs)]. unfold progress. destruct (progress_repeated _ _ _).
  { intros [= <-]. split; eauto. }
  intros Hu. split; [by eapply Update_healthy|]. apply Update_ok in Hu as (_ & v & Hv & ->).
  apply progress_tx_ok in Hv as (o1 & o' & Ho1 & Hv & Hst & Hev & _).
  pose proof (lookup_weaken _ _ _ _ Ho1 (prune_Operations_subseteq _ _)) as Ho2.
  unfold OperationRecords in Ho. simplify_eq. exists o'. split_and!; [|etrans; [done|]; apply Hev|]; [|congruence..].
  unfold OperationRecords. simpl. rewrite committed_Operations.
  apply prune_keeps_unfinished; [by rewrite Hv, lookup_insert_eq|]. by rewrite Hst, Hs.
Qed.

Lemma source_updated_running clk w id o0 db db' :
  op_ID o0 = id → running id o0 db → Update clk w (source_updated_tx id) db = (db', Ok tt) → running id o0 db'.
Proof.
  intros HID [Hh (o & Ho & He & Hs)] Hu. split; [by eapply Update_healthy|].
  apply Update_ok in Hu as (_ & v & Hv & ->). unfold source_updated_tx in Hv.
  rewrite (prune_keeps_unfinished _ _ _ _ Ho) in Hv by (by rewrite Hs). injection Hv as <-.
  cbn [default Datatypes.id]. eexists. split_and!.
  - unfold OperationRecords. simpl. rewrite committed_Operations.
    apply prune_keeps_unfinished; [simpl; rewrite (ev_ID _ _ He), HID; apply lookup_insert_eq|]. simpl. by rewrite Hs.
  - etrans; [exact He|]. evolve.
  - done.
Qed.

(** A committed dispatch intent is on the record, in memory and in the file. *)
Lemma progress_dispatch clk w id o0 db db' :
  intent_marked o0 → running id o0 db → progress clk w id dispatch_intent db = (db', Ok tt) →
  healthy db' ∧ ∃ o, OperationRecords db' !! id = Some o ∧ evolves_op o0 o ∧ op_Dispatched o = true.
Proof.
  intros Hm Hr Hp. pose proof (progress_running _ _ _ _ _ _ _ Hr Hp) as [Hh (o' & Ho' & He' & _)].
  split; [done|]. exists o'. split_and!; [done..|]. destruct Hr as [_ (o & Ho & He & Hs)].
  unfold progress, progress_repeated, st_Operation in Hp. unfold OperationRecords in *. rewrite Ho in Hp.
  destruct (_ && _) eqn:Hb.
  - injection Hp as <-. simplify_eq. apply (ev_marked _ _ He' Hm dispatch_intent); [|done]. bool_hyps.
    match goal with E : bool_decide _ = true |- _ => apply bool_decide_eq_true in E; rename E into Hlast end.
    apply last_Some in Hlast as [l ->]. set_solver.
  - apply Update_ok in Hp as (_ & v & Hv & ->).
    apply progress_tx_ok in Hv as (o1 & o2 & Ho1 & Hv & _ & _ & _ & _ & _ & _ & Hd).
    simpl in Ho'. rewrite committed_Operations in Ho'. apply prune_Operations_lookup in Ho' as [Ho' _].
    rewrite Hv, lookup_insert_eq in Ho'. injection Ho' as <-. by rewrite Hd, orb_true_r.
Qed.

Lemma claim_running clk w id db db' :
  keyed_ops (OperationRecords db) →
  Update clk w (claim_tx id) db = (db', Ok tt) →
  match st_Operation db' id with Some current => op_State current <>s "running" | None => true end = false →
  ∃ o, claimable (λ i, clk (2 + i)%nat) (prune (clk 0%nat) (st_state db)) id o ∧
    OperationRecords db !! id = Some o ∧ running id o db'.
Proof.
  intros Hk Hu. pose proof (Update_healthy _ _ _ _ _ _ Hu) as Hh.
  apply Update_ok in Hu as (_ & v & Hv & ->). unfold st_Operation. cbn [st_state].
  destruct (s_Operations (committed clk v) !! id) as [x|] eqn:Hx; [|done].
  intros Hr%negb_false_iff%String.eqb_eq. pose proof Hx as Hx'. rewrite committed_Operations in Hx'.
  apply prune_Operations_lookup in Hx' as [Hvx _].
  destruct (claim_tx_running _ _ _ _ _ Hv Hvx Hr (prune_keyed _ _ Hk)) as (o & Hcl & _).
  exists o. pose proof Hcl as (Hpo & Hq & _). split_and!; [done| |split; [done|]].
  - eapply lookup_weaken; [exact Hpo|apply prune_Operations_subseteq].
  - destruct (prune_keyed _ _ Hk _ _ Hpo) as [HID _].
    exists x. split_and!; [done| |done]. apply claim_tx_ok in Hv as (o1 & o2 & Ho1 & _ & Hv & He & _).
    rewrite Hpo in Ho1. injection Ho1 as <-. rewrite Hv in Hvx. rewrite HID, lookup_insert_eq in Hvx. by injection Hvx as <-.
Qed.

(** The gate before dispatch. One activation of the worker calls [Adapter.Execute] at
    most once, for the claimed operation, and only when: the record was queued and
    admitted by the recovery rule, its credential is unrevoked, unexpired and still
    has the role, and the plan has not expired; preflight, validation and the plan's
    preconditions hold on the source that was read; the context was live; the action
    is not a reconciliation; the managed source holds the desired revision; and the
    store already has the dispatch recorded durably in its file. *)
Theorem execute_gate ev op src db db' src' log :
  keyed_ops (OperationRecords db) → intents_marked (OperationRecords db) →
  execute Target ev op src db = (db', src', log) →
  log = [] ∨
  log = [exec_of op] ∧
  (∃ o, claimable (λ i, ev_clk ev 0%nat (2 + i)%nat) (prune (ev_clk ev 0%nat 0%nat) (st_state db)) (op_ID op) o) ∧
  (∃ c dbp, prepared ev op c src dbp ∧
    (src' = src ∧ cf_Revision (pl_Desired (op_Plan op)) = cf_Revision c ∨
     Read src' = Ok (set_cf_Revision (ContentRevision (pl_Desired (op_Plan op))) (pl_Desired (op_Plan op))))) ∧
  ∃ dbd o n r, healthy dbd ∧ OperationRecords dbd !! op_ID op = Some o ∧ op_Dispatched o = true ∧
    s_Operations (st_file dbd) !! op_ID op = Some o ∧
    drive ev (op_ID op) 5 (ad_Execute (ev_adapter ev) (exec_of op)) dbd = (n, r) ∧
    db' = (finish (ev_clk ev n.2) (ev_write ev n.2) (op_ID op) r n.1).1.
Proof.
  intros Hk Hm. unfold execute. destruct (Update _ _ _ _) as [db1 [[]|]] eqn:Hu; [|by intros [= <- <- <-]; left].
  destruct (match st_Operation db1 (op_ID op) with Some _ => _ | None => true end) eqn:Hr; [by intros [= <- <- <-]; left|].
  destruct (claim_running _ _ _ _ _ Hk Hu Hr) as (o & Hcl & Ho & Hrun).
  assert (op_ID o = op_ID op) as HID by (by apply Hk in Ho as [-> _]).
  assert (∀ dbp, running (op_ID op) o dbp → let '(dbf, l) := dispatch ev op dbp in
    l = [] ∨ l = [exec_of op] ∧ ∃ dbd o n r, healthy dbd ∧ OperationRecords dbd !! op_ID op = Some o ∧
      op_Dispatched o = true ∧ s_Operations (st_file dbd) !! op_ID op = Some o ∧
      drive ev (op_ID op) 5 (ad_Execute (ev_adapter ev) (exec_of op)) dbd = (n, r) ∧
      dbf = (finish (ev_clk ev n.2) (ev_write ev n.2) (op_ID op) r n.1).1) as Hd.
  { intros dbp Hrp. unfold dispatch. destruct (progress _ _ _ _ _) as [dbd [[]|]] eqn:Hp; [|auto].
    destruct (progress_dispatch _ _ _ _ _ _ (Hm _ _ Ho) Hrp Hp) as (Hh & od & Hod & _ & Hdis).
    destruct (drive _ _ _ _ _) as [[dbn n] r] eqn:Hdr. right. split; [done|].
    exists dbd, od, (dbn, n), r. split_and!; try done. by rewrite (proj2 Hh). }
  pose proof (prepare_cases ev op src db1) as Hprep. destruct (prepare _ _ _ _ _) as [r|c|].
  - intros [= <- <- <-]. auto.
  - destruct Hprep as [Hprep _]. destruct (progress _ _ _ _ _) as [db2 [[]|]] eqn:Hp; [|by intros [= <- <- <-]; left].
    pose proof (progress_running _ _ _ _ _ _ _ Hrun Hp) as Hrun2.
    destruct (source_Update _ _ _ _) as [src2 [[]|]] eqn:Hsrc; [|by intros [= <- <- <-]; left].
    destruct (Update _ _ (source_updated_tx _) _) as [db3 [[]|]] eqn:Hu3; [|by intros [= <- <- <-]; left].
    specialize (Hd db3 (source_updated_running _ _ _ _ _ _ HID Hrun2 Hu3)). destruct (dispatch _ _ _) as [dbf l].
    intros [= <- <- <-]. destruct Hd as [?|[-> Hd]]; [auto|right]. split_and!; [done|by exists o| |done].
    exists c, db1. split; [done|right]. by apply source_Update_reads in Hsrc.
  - destruct Hprep as (c & Hprep & Hrev). specialize (Hd db1 Hrun). destruct (dispatch _ _ _) as [dbf l].
    intros [= <- <- <-]. destruct Hd as [?|[-> Hd]]; [auto|right]. split_and!; [done|by exists o| |done].
    exists c, db1. auto.
Qed.

(** ** Every activation ends with a final record *)

Section Settles.
(** Storage accepts every snapshot. *)
Hypothesis fits : ∀ v, ∃ n, encoded_len v = Some n ∧ n ≤ MaxBytes.

Lemma Update_total {A} clk (fn : clock → State → result (State * A)) db v a :
  st_poisoned db = false → fn (λ i, clk (2 + i)%nat) (prune (clk 0%nat) (st_state db)) = Ok (v, a) →
  Update clk Written fn db = (mkStore (committed clk v) false (committed clk v), Ok a).
Proof. intros Hp Hv. destruct (fits (committed clk v)) as (n & ? & ?). by eapply Update_commit. Qed.

Lemma running_pruned id o0 db now :
  running id o0 db → st_poisoned db = false ∧ ∃ o, s_Operations (prune now (st_state db)) !! id = Some o ∧
    op_Plan o = op_Plan o0.
Proof.
  intros [[Hp _] (o & Ho & He & Hs)]. split; [done|]. exists o. split; [|by apply ev_Plan].
  apply prune_keeps_unfinished; [done|]. by rewrite Hs.
Qed.

(** What a claimed recovery names still leads to its root. *)
Definition resolvable (o0 : Operation) (m : journal) : Prop :=
  op_parent o0 = "" ∨ ∃ n r, root_path (operationLinks m) n (op_parent o0) r.
(** The record runs in a keyed journal from which its recovery can be settled. *)
Definition ready (id : string) (o0 : Operation) (db : Store) : Prop :=
  running id o0 db ∧ keyed_ops (OperationRecords db) ∧ resolvable o0 (OperationRecords db).

(** Retention keeps what an unfinished record recovers. *)
Lemma prune_resolvable now v id o o0 :
  keyed_ops (s_Operations v) → s_Operations v !! id = Some o → Terminal (op_State o) = false → op_Plan o = op_Plan o0 →
  resolvable o0 (s_Operations v) → resolvable o0 (s_Operations (prune now v)).
Proof.
  intros Hk Ho Ht Hpl [Hp|(n & r & Hr)]; [by left|]. destruct (String.eqb_spec (op_parent o0) "") as [Hp|Hp]; [by left|right]. exists n, r.
  assert (s_Operations v !! "" = None) as Hempty by (apply eq_None_not_Some; intros [x []%Hk]; done).
  apply prune_root_path; [done..|]. destruct (root_path_in_dom _ _ _ _ Hr) as [[l Hl]%elem_of_dom _]. unfold operationLinks in Hl. rewrite lookup_fmap in Hl.
  destruct (s_Operations v !! op_parent o0) as [p|] eqn:Hpar; [|done]. apply elem_of_dom. exists p. apply prune_Operations_lookup. split; [done|].
  eapply (kept_parent _ _ id); [done|exact Ho|by apply unfinished_kept| |done]. split; [done|]. exists o. split; [done|]. unfold op_parent. by rewrite Hpl.
Qed.
Lemma links_insert (m : journal) id o o' : m !! id = Some o → op_Plan o' = op_Plan o → operationLinks (<[id:=o']> m) = operationLinks m.
Proof. intros Ho Hp. unfold operationLinks, op_link. rewrite fmap_insert, Hp. apply insert_id. by rewrite lookup_fmap, Ho. Qed.
Lemma keyed_insert (m : journal) id o : keyed_ops m → op_ID o = id → id ≠ "" → keyed_ops (<[id:=o]> m).
Proof. intros Hk HID Hne k x [[<- <-]|[? Hx]]%lookup_insert_Some; [done|by apply Hk]. Qed.
(** A committed step of the record itself. *)
Lemma commit_ready clk (v0 v : State) id o o' o0 :
  keyed_ops (s_Operations v0) → resolvable o0 (s_Operations v0) → s_Operations v0 !! id = Some o →
  s_Operations v = <[id:=o']> (s_Operations v0) → op_Plan o' = op_Plan o → op_Plan o' = op_Plan o0 → op_ID o' = op_ID o → Terminal (op_State o') = false →
  keyed_ops (s_Operations (committed clk v)) ∧ resolvable o0 (s_Operations (committed clk v)).
Proof.
  intros Hk Hr Ho Hv Hp Hp0 HID Ht. destruct (Hk _ _ Ho) as [HI Hne].
  assert (keyed_ops (s_Operations v)) as Hkv by (rewrite Hv; apply keyed_insert; [done|congruence|done]).
  rewrite committed_Operations. split; [by apply prune_keyed|].
  eapply (prune_resolvable _ _ id o'); [done|by rewrite Hv, lookup_insert_eq|done|done|].
  unfold resolvable. by rewrite Hv, (links_insert _ _ _ _ Ho Hp).
Qed.
Lemma ready_pruned id o0 db now : ready id o0 db →
  st_poisoned db = false ∧ ∃ o, s_Operations (prune now (st_state db)) !! id = Some o ∧ op_Plan o = op_Plan o0 ∧ op_State o = "running" ∧
    keyed_ops (s_Operations (prune now (st_state db))) ∧ resolvable o0 (s_Operations (prune now (st_state db))).
Proof.
  intros ([[Hp _] (o & Ho & He & Hs)] & Hk & Hr). split; [done|]. exists o. split; [apply prune_keeps_unfinished; [done|by rewrite Hs]|].
  split; [by apply ev_Plan|]. split; [done|]. split; [by apply prune_keyed|]. eapply prune_resolvable; [done|exact Ho|by rewrite Hs|by apply ev_Plan|done].
Qed.

Lemma progress_ready clk id o0 p db :
  ready id o0 db → ∃ db', progress clk Written id p db = (db', Ok tt) ∧ ready id o0 db'.
Proof.
  intros Hr. assert (∃ db', progress clk Written id p db = (db', Ok tt) ∧ keyed_ops (OperationRecords db') ∧ resolvable o0 (OperationRecords db')) as (db' & Hp & Hk).
  { unfold progress. destruct (progress_repeated _ _ _); [exists db; split; [done|apply Hr]|].
    destruct (ready_pruned _ _ _ (clk 0%nat) Hr) as (Hp & o & Ho & Hpl & Hs & Hk & Hres).
    assert (∃ v, progress_tx id p (λ i, clk (2 + i)%nat) (prune (clk 0%nat) (st_state db)) = Ok (v, tt)) as [v Hv] by (unfold progress_tx; rewrite Ho; eauto).
    eexists. split; [by apply Update_total|]. apply progress_tx_ok in Hv as (o1 & o2 & Ho1 & Hv & Hst & Hev & _). rewrite Ho in Ho1. injection Ho1 as <-.
    assert (evolves_op o o2) as He by (apply Hev; by rewrite Hs). unfold OperationRecords. cbn [st_state].
    eapply commit_ready; [exact Hk|exact Hres|exact Ho|exact Hv|by apply ev_Plan|rewrite (ev_Plan _ _ He); done|by apply ev_ID|by rewrite Hst, Hs]. }
  exists db'. split; [done|]. split; [|done]. eapply progress_running; [apply Hr|done].
Qed.
Lemma source_updated_ready clk id o0 db : op_ID o0 = id → ready id o0 db →
  ∃ db', Update clk Written (source_updated_tx id) db = (db', Ok tt) ∧ ready id o0 db'.
Proof.
  intros HID Hr. destruct (ready_pruned _ _ _ (clk 0%nat) Hr) as (Hp & o & Ho & Hpl & Hs & Hk & Hres).
  assert (∃ v, source_updated_tx id (λ i, clk (2 + i)%nat) (prune (clk 0%nat) (st_state db)) = Ok (v, tt)) as [v Hv] by (unfold source_updated_tx; eauto).
  pose proof (Update_total _ _ _ _ _ Hp Hv) as Hu. eexists. split; [exact Hu|]. split; [by eapply source_updated_running; [|apply Hr|exact Hu]|].
  unfold source_updated_tx in Hv. rewrite Ho in Hv. injection Hv as <-. unfold OperationRecords. cbn [st_state]. destruct (Hk _ _ Ho) as [HI _].
  eapply (commit_ready _ _ _ id o); [exact Hk|exact Hres|exact Ho| |..]; [cbn [s_Operations set_s_Operations default Datatypes.id]; f_equal; exact HI|done..|by cbn; rewrite Hs].
Qed.

Lemma fail_result_Terminal err uncertain : Terminal (re_State (fail_result err uncertain)) = true.
Proof. unfold fail_result. destruct (default _ _). by destruct uncertain. Qed.

Lemma executed_Terminal r err : Terminal (re_State (executed_result r err)) = true.
Proof.
  unfold executed_result, fail_result.
  destruct err as [err|]; [destruct (_ && _) eqn:Hb; [by bool_hyps|by destruct (default _ _)]|].
  by destruct (Terminal (re_State r)) eqn:Ht.
Qed.

Lemma drive_ready ev id o0 run : ∀ n db, (∀ n, ev_write ev n = Written) → ready id o0 db →
  let '(db', _, r) := drive ev id n run db in ready id o0 db' ∧ Terminal (re_State r) = true.
Proof.
  induction run as [r err|p k IH]; intros n db Hw Hr; simpl; [auto using executed_Terminal|].
  rewrite Hw. destruct (progress_ready (ev_clk ev n) _ _ p _ Hr) as (db' & Hp & Hr'). rewrite Hp. by apply IH.
Qed.

(** The record is there in a final state, and the store healthy. *)
Definition final (id : string) (db : Store) : Prop :=
  healthy db ∧ ∃ x, OperationRecords db !! id = Some x ∧ Terminal (op_State x) = true.
(** The clock readings of one transaction lie within the retention of a finished record. *)
Definition timely (clk : clock) : Prop := ∀ i j, time_sub (clk i) (clk j) ≤ 30 * 24 * Hour.
(** A record finished by a transaction is not retired by it. *)
Lemma commit_final clk v id x i : timely clk → s_Operations v !! id = Some x → Terminal (op_State x) = true → op_UpdatedAt x = clk i →
  final id (mkStore (committed clk v) false (committed clk v)).
Proof.
  intros Hc Hx Ht Hu. split; [done|]. exists x. split; [|done]. unfold OperationRecords. cbn [st_state]. rewrite committed_Operations.
  apply prune_Operations_lookup. split; [done|]. left. unfold keep_root. rewrite Hu, (proj2 (Z.leb_le _ _) (Hc 1%nat i)). by rewrite orb_true_r.
Qed.

Lemma finish_final clk id o0 r db :
  timely clk → ready id o0 db → Terminal (re_State r) = true → final id (finish clk Written id r db).1.
Proof.
  intros Hc Hr Ht. destruct (ready_pruned _ _ _ (clk 0%nat) Hr) as (Hp & o & Ho & Hpl & Hs & Hk & Hres).
  assert (∃ v, finish_tx id r (λ i, clk (2 + i)%nat) (prune (clk 0%nat) (st_state db)) = Ok (v, tt)) as [v Hv].
  { unfold finish_tx. rewrite Ho. cbv zeta. set (o' := finished _ _ o). assert (op_Plan o' = op_Plan o) as Hpl' by (unfold o', finish_result; by destruct (_ && _)).
    cbn [Event set_s_Audit s_Operations set_s_Operations]. rewrite (links_insert _ _ _ _ Ho Hpl').
    assert (op_parent o' = op_parent o0) as Hpar by (unfold op_parent; by rewrite Hpl', Hpl).
    rewrite Hpar. destruct Hres as [->|(n & root & Hroot)]; [rewrite andb_false_r; eauto|]. destruct (_ && _); [|eauto].
    unfold RecoveryChain. rewrite (proj2 (RecoveryRoot_path _ _ _)) by eauto. eauto. }
  unfold finish. rewrite (Update_total _ _ _ _ _ Hp Hv). cbn [fst]. apply finish_tx_ok in Hv as (o1 & o' & chain & nows & Ho1 & Ho' & Hj & _); [|done].
  apply (commit_final _ _ _ o' 2); [done|by rewrite Hj, eqb_str_refl|..]; subst o'; [|done].
  cbn. unfold finish_result. by destruct (EvidenceAction _ && _).
Qed.

Lemma dispatch_final ev op o0 db :
  (∀ n, ev_write ev n = Written) → (∀ n, timely (ev_clk ev n)) → ready (op_ID op) o0 db → final (op_ID op) (dispatch ev op db).1.
Proof.
  intros Hw Hc Hr. unfold dispatch. rewrite Hw. destruct (progress_ready (ev_clk ev 4%nat) _ _ dispatch_intent _ Hr) as (db' & Hp & Hr'). rewrite Hp.
  pose proof (drive_ready ev (op_ID op) o0 (ad_Execute (ev_adapter ev) (exec_of op)) 5 db' Hw Hr') as Hd.
  destruct (drive _ _ _ _ _) as [[db2 n] r]. destruct Hd as [Hr2 Ht]. cbn [fst]. rewrite Hw. by eapply finish_final.
Qed.

Lemma claim_tx_total id clk s o :
  s_Operations s !! id = Some o → op_State o = "queued" → ∃ s', claim_tx id clk s = Ok (s', tt).
Proof.
  intros Ho Hq. unfold claim_tx. rewrite Ho. cbn [default Datatypes.id]. rewrite Hq, eqb_str_refl.
  cbn [negb]. cbv zeta. destruct (negb (is_ok _)); [eauto|].
  destruct (match s_Credentials _ !! _ with Some _ => _ | None => _ end); eauto.
Qed.
Lemma claim_tx_dated id clk s s' : claim_tx id clk s = Ok (s', tt) →
  ∃ o o' i, s_Operations s !! id = Some o ∧ s_Operations s' = <[op_ID o := o']> (s_Operations s) ∧ op_UpdatedAt o' = clk i.
Proof.
  unfold claim_tx. destruct (s_Operations s !! id) as [o|] eqn:Ho; cbn [default Datatypes.id]; intros Hc; [|done].
  exists o. split_hyp Hc; eexists _, _; (split; [reflexivity|]); split; reflexivity.
Qed.

(** A claim that does not start the record has failed it for good. *)
Lemma claim_final clk id db v : timely clk →
  keyed_ops (OperationRecords db) → claim_tx id (λ i, clk (2 + i)%nat) (prune (clk 0%nat) (st_state db)) = Ok (v, tt) →
  match st_Operation (mkStore (committed clk v) false (committed clk v)) id with Some current => op_State current <>s "running" | None => true end = true →
  final id (mkStore (committed clk v) false (committed clk v)).
Proof.
  intros Hc Hk Hv Hr. pose proof (claim_tx_dated _ _ _ _ Hv) as (o & o' & i & Ho & Hops & Hu).
  apply claim_tx_ok in Hv as (o1 & o2 & Ho1 & _ & Hops2 & _ & Hst & _). rewrite Ho in Ho1. injection Ho1 as <-.
  destruct (prune_keyed _ _ Hk _ _ Ho) as [HID _]. rewrite HID in Hops, Hops2.
  assert (o2 = o') as -> by (rewrite Hops in Hops2; apply (f_equal (lookup id)) in Hops2; rewrite !lookup_insert_eq in Hops2; congruence).
  assert (s_Operations v !! id = Some o') as Hx by (rewrite Hops; apply lookup_insert_eq).
  destruct Hst as [Hst|Hst].
  - unfold st_Operation in Hr. cbn [st_state] in Hr. rewrite committed_Operations, (prune_keeps_unfinished _ _ _ _ Hx) in Hr by (by rewrite Hst). by rewrite Hst in Hr.
  - by apply (commit_final _ _ _ o' (2 + i)); [..|rewrite Hst|].
Qed.
(** A claim that starts the record leaves it ready: the admission rule was checked. *)
Lemma claim_ready clk id db v o : keyed_ops (OperationRecords db) → OperationRecords db !! id = Some o →
  claim_tx id (λ i, clk (2 + i)%nat) (prune (clk 0%nat) (st_state db)) = Ok (v, tt) →
  running id o (mkStore (committed clk v) false (committed clk v)) → ready id o (mkStore (committed clk v) false (committed clk v)).
Proof.
  intros Hk Ho Hv Hrun. pose proof (prune_keyed (clk 0%nat) _ Hk) as Hkp. split; [done|].
  destruct Hrun as [_ (x & Hx & _ & Hs)]. unfold OperationRecords in Hx. cbn [st_state] in Hx. rewrite committed_Operations in Hx. apply prune_Operations_lookup in Hx as [Hx _].
  destruct (claim_tx_running _ _ _ _ _ Hv Hx Hs Hkp) as (o1 & (Ho1 & Hq & Hrec & _) & Hid & _ & _ & Hplan).
  assert (o1 = o) as -> by (pose proof (lookup_weaken _ _ _ _ Ho1 (prune_Operations_subseteq _ _)) as Hw; unfold OperationRecords in Ho; congruence).
  apply claim_tx_ok in Hv as (o2 & o3 & Ho2 & _ & Hops & _). rewrite Ho1 in Ho2. injection Ho2 as <-. destruct (Hkp _ _ Ho1) as [HID _].
  rewrite HID in Hops. assert (o3 = x) as -> by (rewrite Hops, lookup_insert_eq in Hx; congruence).
  unfold OperationRecords. cbn [st_state]. eapply (commit_ready _ _ _ id o); [exact Hkp| |exact Ho1|exact Hops|done|done|congruence|by rewrite Hs].
  apply recoveryAdmission_spec in Hrec as (chain & Href & _). unfold admits_reference in Href. unfold resolvable, op_parent.
  destruct (String.eqb_spec (d_RecoveryID (pl_Draft (op_Plan o))) "") as [|Hne]; [by left|right].
  destruct Href as (old & Hold & _ & _ & _ & (root & Hroot & _)%bind_ok). destruct (Hkp _ _ Hold) as [HIDo _]. rewrite HIDo in Hroot.
  apply RecoveryRoot_path in Hroot as [n Hn]. by exists n, root.
Qed.

(** C19: The worker does not strand work.  In a journal whose records are filed under their own
    identifiers, when storage accepts every write and every snapshot, and the clock readings
    of one transaction lie within thirty days, one activation on a queued record (a recovery or
    not) ends with that record present in a final state, in a healthy store whose file agrees,
    whatever the adapter, the source, the credentials and the clocks otherwise do. *)
Theorem execute_settles ev op src db o db' src' log :
  (∀ n, ev_write ev n = Written) → (∀ n, timely (ev_clk ev n)) → st_poisoned db = false → keyed_ops (OperationRecords db) →
  OperationRecords db !! op_ID op = Some o → op_State o = "queued" →
  execute Target ev op src db = (db', src', log) → final (op_ID op) db'.
Proof.
  intros Hw Hc Hp Hk Ho Hq.
  assert (s_Operations (prune (ev_clk ev 0%nat 0%nat) (st_state db)) !! op_ID op = Some o) as Hpo
    by (apply prune_keeps_unfinished; [done|by rewrite Hq]).
  destruct (claim_tx_total (op_ID op) (λ i, ev_clk ev 0%nat (2 + i)%nat) _ o Hpo Hq) as [v Hcl].
  pose proof (Update_total _ _ _ _ _ Hp Hcl) as Hu.
  unfold execute. rewrite Hw, Hu. pose proof (claim_final _ _ _ _ (Hc 0%nat) Hk Hcl) as Hfail. pose proof (claim_ready _ _ _ _ _ Hk Ho Hcl) as Hready.
  set (db1 := mkStore _ _ _) in *. clearbody db1.
  destruct (match st_Operation db1 (op_ID op) with Some _ => _ | None => true end) eqn:Hr.
  - intros [= <- <- <-]. by apply Hfail.
  - destruct (claim_running _ _ _ _ _ Hk Hu Hr) as (o' & _ & Ho' & Hrun).
    rewrite Ho in Ho'. injection Ho' as <-. specialize (Hready Hrun). clear Hu Hr Hfail.
    pose proof (prepare_cases ev op src db1) as Hprep. destruct (prepare _ _ _ _ _) as [r|c|].
    + intros [= <- <- <-]. rewrite Hw. by eapply finish_final.
    + rewrite Hw. destruct (progress_ready (ev_clk ev 1%nat) _ _ source_intent _ Hready) as (db2 & Hp2 & Hr2). rewrite Hp2.
      destruct (source_Update _ _ _ _) as [src2 [[]|err]].
      * rewrite Hw. destruct (source_updated_ready (ev_clk ev 3%nat) _ _ _ (proj1 (Hk _ _ Ho)) Hr2) as (db3 & Hu3 & Hr3). rewrite Hu3.
        pose proof (dispatch_final ev op o _ Hw Hc Hr3) as Hf. destruct (dispatch _ _ _). by intros [= <- <- <-].
      * intros [= <- <- <-]. rewrite Hw. eapply finish_final; [done..|]. apply fail_result_Terminal.
    + pose proof (dispatch_final ev op o _ Hw Hc Hready) as Hf. destruct (dispatch _ _ _). by intros [= <- <- <-].
Qed.
End Settles.

End Execution.

(** ** Concrete activations *)

Lemma keyed_check m : bool_decide (map_Forall (λ id o, op_ID o = id ∧ id ≠ "") m) = true → keyed_ops m.
Proof. intros Hb%bool_decide_eq_true id o Ho. by apply Hb. Qed.

Lemma marked_check m :
  bool_decide (map_Forall (λ _ o, Forall (λ p, pg_Phase p = "dispatch-intent" → op_Dispatched o = true) (op_Events o)) m) = true →
  intents_marked m.
Proof.
  intros Hb%bool_decide_eq_true id o Ho p Hp.
  pose proof (map_Forall_lookup_1 _ _ _ _ Hb Ho) as Hf. simpl in Hf. rewrite Forall_forall in Hf. by apply Hf.
Qed.

Module ExecutionFixture.
#[local] Existing Instance render_hash.
Import EngineFixture.
(** An uncertain switch ["a"], its running restore ["b"] and a running evidence export ["e"]. *)
Definition journal0 : gmap string Operation := list_to_map [
  ("a", StoreFixture.record "a" "profile.switch" "" "recovery-required" true 0);
  ("b", StoreFixture.record "b" "profile.restore" "a" "running" false 0);
  ("e", StoreFixture.record "e" "memory.plan.export" "" "running" false 0)].
Definition db : Store := let s := set_s_Operations journal0 (NewState "live") in mkStore s false s.
Definition done_ : Result := mkResult "succeeded" "restored" "" false [].
Definition lost : Result := mkResult "recovery-required" "lost" "" true [].
Definition restored := finish (λ _, 0) Written "b" done_ db.
Definition exported := finish (λ _, 0) Written "e" lost db.
Lemma db_keyed : keyed_ops (OperationRecords db).
Proof. apply keyed_check. vm_compute. reflexivity. Qed.
Lemma restored_ok : restored = (restored.1, Ok tt).
Proof. assert (restored.2 = Ok tt) as <- by (vm_compute; reflexivity). by destruct restored. Qed.
Lemma exported_ok : exported = (exported.1, Ok tt).
Proof. assert (exported.2 = Ok tt) as <- by (vm_compute; reflexivity). by destruct exported. Qed.
Lemma db3_keyed : keyed_ops (OperationRecords db3).
Proof. apply keyed_check. vm_compute. reflexivity. Qed.
Lemma db3_marked : intents_marked (OperationRecords db3).
Proof. apply marked_check. vm_compute. reflexivity. Qed.
Lemma run_eq : execute "ws" env op source db3 = (run.1.1, run.1.2, run.2).
Proof. fold run. by destruct run as [[? ?] ?]. Qed.
End ExecutionFixture.

#[local] Existing Instance render_hash.
#[local] Existing Instance EngineFixture.enc.

Lemma finish_settles_chain_witness :
  ∃ x, OperationRecords ExecutionFixture.restored.1 !! "a" = Some x ∧
    op_RecoveryRequired x = false ∧ op_State x = "failed".
Proof.
  eexists. split; [vm_compute; reflexivity|].
  destruct (finish_settles_chain (λ _, 0) Written "b" ExecutionFixture.done_ ExecutionFixture.db
    ExecutionFixture.restored.1 ExecutionFixture.db_keyed ExecutionFixture.restored_ok)
    as (o & o' & chain & Ho & -> & Hc & _ & Hall).
  assert (OperationRecords ExecutionFixture.db !! "b" = Some (StoreFixture.record "b" "profile.restore" "a" "running" false 0))
    as Hb by (vm_compute; reflexivity).
  rewrite Hb in Ho. injection Ho as <-.
  assert (RecoveryChain (operationLinks (s_Operations (prune 0 (st_state ExecutionFixture.db)))) "a" = Ok {["a"; "b"]})
    as Ha by (vm_compute; reflexivity).
  change (RecoveryChain (operationLinks (s_Operations (prune 0 (st_state ExecutionFixture.db)))) "a" = Ok chain) in Hc.
  rewrite Ha in Hc. injection Hc as <-.
  destruct (Hall "a" _ ltac:(done) ltac:(vm_compute; reflexivity)) as (old & Hold & Hx).
  assert (OperationRecords ExecutionFixture.db !! "a" = Some (StoreFixture.record "a" "profile.switch" "" "recovery-required" true 0))
    as Hd by (vm_compute; reflexivity).
  rewrite Hd in Hold. injection Hold as <-. destruct Hx as (? & ? & _). split; assumption.
Defined.

Lemma evidence_never_requires_recovery_witness :
  ∃ x, OperationRecords ExecutionFixture.exported.1 !! "e" = Some x ∧ op_RecoveryRequired x = false.
Proof.
  eexists. split; [vm_compute; reflexivity|].
  refine (evidence_never_requires_recovery (λ _, 0) Written "e" ExecutionFixture.lost ExecutionFixture.db
    ExecutionFixture.exported.1 (StoreFixture.record "e" "memory.plan.export" "" "running" false 0) _
    ExecutionFixture.db_keyed _ _ ExecutionFixture.exported_ok _); vm_compute; reflexivity.
Defined.

Lemma execute_gate_witness :
  EngineFixture.run.2 = [exec_of EngineFixture.op] ∧
  ∃ o, claimable (λ i, EngineFixture.now (2 + i)%nat)
         (prune (EngineFixture.now 0%nat) (st_state EngineFixture.db3)) "o" o.
Proof.
  assert (EngineFixture.run.2 = [exec_of EngineFixture.op]) as Hlog by (vm_compute; reflexivity).
  split; [exact Hlog|].
  destruct (execute_gate "ws" EngineFixture.env EngineFixture.op EngineFixture.source EngineFixture.db3
    EngineFixture.run.1.1 EngineFixture.run.1.2 EngineFixture.run.2 ExecutionFixture.db3_keyed
    ExecutionFixture.db3_marked ExecutionFixture.run_eq) as [Hnil|(_ & Hc & _)]; [|exact Hc].
  rewrite Hlog in Hnil. discriminate Hnil.
Defined.

Lemma execute_settles_witness : final "o" EngineFixture.run.1.1.
Proof.
  refine (execute_settles "ws" _ EngineFixture.env EngineFixture.op EngineFixture.source EngineFixture.db3
    EngineFixture.op EngineFixture.run.1.1 EngineFixture.run.1.2 EngineFixture.run.2 (λ _, eq_refl) _ eq_refl
    ExecutionFixture.db3_keyed _ eq_refl ExecutionFixture.run_eq).
  - intros v. exists 4096. split; [reflexivity|]. unfold MaxBytes. lia.
  - intros n i j. vm_compute. discriminate.
  - vm_compute. reflexivity.
Defined.
