(* ===== verification/System.v ===== *)
(** The running controller: the worker interleaved, section by section, with the
    handlers, with failing writes and with crashes at any point.

    Each section of [execute] between two acquisitions of the store's lock is one
    step of a program counter.  Handlers are atomic per transaction; what [Recover]
    and [inspectEvidence] read before their [finish] is kept as a pending settlement,
    so that any step may fall in between.  A crash loses memory and keeps the file,
    which after a failed write holds either snapshot; [Start] then runs record by
    record and may itself crash. *)
From S2P Require Import Prelude Json Types Domain Recovery Store Auth Source Engine Journal Admission Execution.

Inductive pc :=
| Idle
| Claiming (op : Operation)
| Checking (op : Operation)
| Preparing (op : Operation)
| Intending (op : Operation) (c : Configuration)
| Replacing (op : Operation) (c : Configuration)
| Recording (op : Operation)
| Authorizing (op : Operation)
| Dispatching (op : Operation)
| Driving (op : Operation) (run : ExecRun)
| Finishing (op : Operation) (r : Result)
| Booting (l : list (string * Operation))
| Down.

(** [y_log] is the history of [Adapter.Execute] calls over every run of the
    controller, [y_accepted] the executions [Apply] ever accepted (a record whose write
    was reported as failed may still be in the file). *)
Record Sys := mkSys {
  y_db : Store;
  y_src : SourceFile;
  y_pc : pc;
  y_pending : list (string * Result);
  y_log : list Execution;
  y_accepted : gmap string Execution }.

(** Handlers are served once [Start] has returned. *)
Definition serving (p : pc) : bool := match p with Booting _ | Down => false | _ => true end.

Section System.
Context `{Sha256} `{Encoding} (Target : string) (Depth : Z).

(** ** The worker *)

(** The worker's state: store, source and program counter. *)
Abbreviation wstate := (Store * SourceFile * pc)%type.

Inductive wstep : wstate → list Execution → wstate → Prop :=
| w_claim clk w op db db' src r :
    Update clk w (claim_tx (op_ID op)) db = (db', r) →
    wstep (db, src, Claiming op) [] (db', src, match r with Ok _ => Checking op | Err _ => Idle end)
| w_check op db src :
    wstep (db, src, Checking op) []
      (db, src, if match st_Operation db (op_ID op) with Some current => op_State current <>s "running" | None => true end
                then Idle else Preparing op)
| w_prepare ev op db src :
    wstep (db, src, Preparing op) []
      (db, src, match prepare Target ev op src db with
                | Finish r => Finishing op r
                | ReplaceSource c => Intending op c
                | Dispatch => Authorizing op
                end)
| w_intend clk w op c db db' src r :
    progress clk w (op_ID op) source_intent db = (db', r) →
    wstep (db, src, Intending op c) [] (db', src, match r with Ok _ => Replacing op c | Err _ => Idle end)
| w_replace w op c db src src' r :
    source_Update w (cf_Revision c) (pl_Desired (op_Plan op)) src = (src', r) →
    wstep (db, src, Replacing op c) []
      (db, src', match r with
                 | Ok _ => Recording op
                 | Err err => Finishing op (fail_result err (negb (is_some (as_failure err))))
                 end)
| w_record clk w op db db' src r :
    Update clk w (source_updated_tx (op_ID op)) db = (db', r) →
    wstep (db, src, Recording op) [] (db', src, match r with Ok _ => Authorizing op | Err _ => Idle end)
| w_authorize clk w op db db' src r :
    progress clk w (op_ID op) dispatch_intent db = (db', r) →
    wstep (db, src, Authorizing op) [] (db', src, match r with Ok _ => Dispatching op | Err _ => Idle end)
| w_dispatch ad op db src :
    wstep (db, src, Dispatching op) [exec_of op] (db, src, Driving op (ad_Execute ad (exec_of op)))
| w_report clk w op p k db db' src r :
    progress clk w (op_ID op) p db = (db', r) →
    wstep (db, src, Driving op (Reported p k)) []
      (db', src, Driving op (k (match r with Ok _ => None | Err e => Some e end)))
| w_return op r err db src :
    wstep (db, src, Driving op (Returned r err)) [] (db, src, Finishing op (executed_result r err))
| w_finish clk w op r db db' src e :
    finish clk w (op_ID op) r db = (db', e) →
    wstep (db, src, Finishing op r) [] (db', src, Idle).

(** The sections run to completion, with the calls they dispatch. *)
Inductive wsteps : wstate → list Execution → wstate → Prop :=
| ws_refl x : wsteps x [] x
| ws_step x y z l l' : wstep x l y → wsteps y l' z → wsteps x (l ++ l') z.

(** ** The controller *)

Inductive step : Sys → Sys → Prop :=
(** The worker's loop takes the oldest queued record of a healthy store. *)
| s_pick y op :
    y_pc y = Idle → Healthy (y_db y) = true → OldestQueuedOperation (y_db y) = Some op →
    step y (mkSys (y_db y) (y_src y) (Claiming op) (y_pending y) (y_log y) (y_accepted y))
| s_work y db' src' p' l :
    wstep (y_db y, y_src y, y_pc y) l (db', src', p') →
    step y (mkSys db' src' p' (y_pending y) (y_log y ++ l) (y_accepted y))
(** The transaction of [CreatePlan], for a plan built at any earlier time. *)
| s_plan y clk w a p db' r :
    serving (y_pc y) = true → Update clk w (create_plan_tx a p) (y_db y) = (db', r) →
    step y (mkSys db' (y_src y) (y_pc y) (y_pending y) (y_log y) (y_accepted y))
(** The transaction of [Apply], with a fresh random identifier. *)
| s_apply y clk w id a planID target key db' r :
    serving (y_pc y) = true → id ≠ "" → y_accepted y !! id = None →
    Update clk w (apply_tx Target Depth id a planID target key) (y_db y) = (db', r) →
    step y (mkSys db' (y_src y) (y_pc y) (y_pending y) (y_log y)
      (match apply_tx Target Depth id a planID target key (λ i, clk (2 + i)%nat)
               (prune (clk 0%nat) (st_state (y_db y))) with
       | Ok (_, op) => if op_ID op =s id then <[id := exec_of op]> (y_accepted y) else y_accepted y
       | Err _ => y_accepted y
       end))
| s_cancel y clk w a id revision db' r :
    serving (y_pc y) = true → Update clk w (cancel_tx a id revision) (y_db y) = (db', r) →
    step y (mkSys db' (y_src y) (y_pc y) (y_pending y) (y_log y) (y_accepted y))
(** The first half of [Recover] and [inspectEvidence]: a final result is read for a
    record that requires recovery or was dispatched. *)
| s_inspect y id o r :
    serving (y_pc y) = true → OperationRecords (y_db y) !! id = Some o →
    op_RecoveryRequired o || op_Dispatched o = true → Terminal (re_State r) = true →
    step y (mkSys (y_db y) (y_src y) (y_pc y) ((id, r) :: y_pending y) (y_log y) (y_accepted y))
(** Their second half, at any later time. *)
| s_settle y clk w id r db' e :
    serving (y_pc y) = true → (id, r) ∈ y_pending y → finish clk w id r (y_db y) = (db', e) →
    step y (mkSys db' (y_src y) (y_pc y) (y_pending y) (y_log y) (y_accepted y))
(** Any transaction that leaves the journal alone (credentials and sessions). *)
| s_auth {A} y clk w (fn : clock → State → result (State * A)) db' r :
    (∀ clk s s' a, fn clk s = Ok (s', a) → s_Operations s' = s_Operations s) →
    Update clk w fn (y_db y) = (db', r) →
    step y (mkSys db' (y_src y) (y_pc y) (y_pending y) (y_log y) (y_accepted y))
(** A crash: the store is reopened from its file and [Start] begins. *)
| s_crash y :
    step y (mkSys (mkStore (st_file (y_db y)) false (st_file (y_db y))) (y_src y)
      (Booting (map_to_list (s_Operations (st_file (y_db y))))) [] (y_log y) (y_accepted y))
| s_boot_skip y id o l :
    y_pc y = Booting ((id, o) :: l) → negb (Terminal (op_State o)) && (op_State o <>s "queued") = false →
    step y (mkSys (y_db y) (y_src y) (Booting l) (y_pending y) (y_log y) (y_accepted y))
| s_boot_finish y clk w ad id o l db' r :
    y_pc y = Booting ((id, o) :: l) → negb (Terminal (op_State o)) && (op_State o <>s "queued") = true →
    finish clk w id (start_result (inspect ad o)) (y_db y) = (db', r) →
    step y (mkSys db' (y_src y) (match r with Ok _ => Booting l | Err _ => Down end)
      (y_pending y) (y_log y) (y_accepted y))
| s_boot_done y :
    y_pc y = Booting [] → step y (mkSys (y_db y) (y_src y) Idle (y_pending y) (y_log y) (y_accepted y)).

(** A controller on a fresh store. *)
Definition initial (mode : string) (src : SourceFile) : Sys :=
  mkSys (mkStore (NewState mode) false (NewState mode)) src Idle [] [] ∅.
Definition reachable (y : Sys) : Prop := ∃ mode src, rtc step (initial mode src) y.

(** ** The invariant of a snapshot *)

Definition ids (log : list Execution) : list string := ex_ID <$> log.

Lemma ids_snoc log ex : ids (log ++ [ex]) = ids log ++ [ex_ID ex].
Proof. unfold ids. by rewrite fmap_app. Qed.

Record record_ok (log : list Execution) (acc : gmap string Execution) (id : string) (o : Operation) : Prop := {
  ro_key : op_ID o = id ∧ id ≠ "";
  ro_accepted : acc !! id = Some (exec_of o);
  ro_marked : intent_marked o;
  ro_queued : op_State o = "queued" → op_Dispatched o = false ∧ op_RecoveryRequired o = false ∧ id ∉ ids log;
  ro_logged : id ∈ ids log → op_Dispatched o = true }.

Definition journal_ok log acc (m : journal) : Prop := map_Forall (record_ok log acc) m.

Lemma journal_ok_keyed log acc m : journal_ok log acc m → keyed_ops m.
Proof. intros Hj id o Ho. by destruct (Hj _ _ Ho). Qed.

Lemma journal_ok_evolves log acc m m' : evolves m m' → journal_ok log acc m → journal_ok log acc m'.
Proof.
  intros He Hj id o' (o & Ho & Hev)%He. destruct (Hj _ _ Ho) as [Hkey Hacc Hm Hq Hl]. split.
  - by rewrite (ev_ID _ _ Hev).
  - unfold exec_of. by rewrite (ev_ID _ _ Hev), (ev_Actor _ _ Hev), (ev_Plan _ _ Hev).
  - by apply (ev_marked _ _ Hev).
  - intros Hq'. pose proof (ev_queued _ _ Hev Hq') as ->. by apply Hq.
  - intros Hin. by apply (ev_Dispatched _ _ Hev), Hl.
Qed.

Lemma journal_ok_dispatch log acc m ex :
  journal_ok log acc m → (∀ o, m !! ex_ID ex = Some o → op_Dispatched o = true) →
  journal_ok (log ++ [ex]) acc m.
Proof.
  intros Hj Hd id o Ho. destruct (Hj _ _ Ho). split; try done.
  - intros Hq. destruct (ro_queued0 Hq) as (Hdis & ? & ?). split_and!; [done..|].
    rewrite ids_snoc, elem_of_app. intros [?| ->%list_elem_of_singleton]; [done|].
    rewrite (Hd _ Ho) in Hdis. done.
  - rewrite ids_snoc, elem_of_app. intros [?| ->%list_elem_of_singleton]; auto.
Qed.

Lemma journal_ok_accept log acc m id ex :
  acc !! id = None → journal_ok log acc m → journal_ok log (<[id := ex]> acc) m.
Proof.
  intros Hn Hj k o Ho. destruct (Hj _ _ Ho). split; try done.
  rewrite lookup_insert_ne; [done|]. congruence.
Qed.

(** ** How a transaction moves both snapshots *)

Definition file_records (db : Store) : journal := s_Operations (st_file db).

(** Records of [m'] evolved from [m], new identifiers apart. *)
Definition grows (acc : gmap string Execution) (m m' : journal) : Prop :=
  ∀ id o', m' !! id = Some o' → acc !! id = None ∨ ∃ o, m !! id = Some o ∧ evolves_op o o'.

Lemma evolves_grows acc m m' : evolves m m' → grows acc m m'.
Proof. intros He id o' Ho. right. by apply He. Qed.

Record store_grows acc (db db' : Store) : Prop := {
  sg_state : grows acc (OperationRecords db) (OperationRecords db');
  sg_file : st_file db' = st_file db ∨ grows acc (OperationRecords db) (file_records db') }.

Record store_evolves (db db' : Store) : Prop := {
  se_state : evolves (OperationRecords db) (OperationRecords db');
  se_file : st_file db' = st_file db ∨ evolves (OperationRecords db) (file_records db') }.

Lemma store_evolves_grows acc db db' : store_evolves db db' → store_grows acc db db'.
Proof. intros [Hs Hf]. split; [by apply evolves_grows|]. destruct Hf; auto using evolves_grows. Qed.

Lemma store_evolves_refl db : store_evolves db db.
Proof. split; [done|auto]. Qed.

(** [s] holds a part of the journal [m] that keeps its unfinished records. *)
Definition pruned_from (s : State) (m : journal) : Prop :=
  s_Operations s ⊆ m ∧ ∀ k o, m !! k = Some o → Terminal (op_State o) = false → s_Operations s !! k = Some o.

Lemma prune_pruned_from now v : pruned_from (prune now v) (s_Operations v).
Proof. split; [apply prune_Operations_subseteq|]. intros. by apply prune_keeps_unfinished. Qed.

(** What a transaction does to any such part of the journal [m]. *)
Definition tx_evolves {A} (fn : clock → State → result (State * A)) (m : journal) : Prop :=
  ∀ clk s s' a, pruned_from s m → fn clk s = Ok (s', a) → evolves (s_Operations s) (s_Operations s').
Definition tx_undisturbed {A} (fn : clock → State → result (State * A)) (m : journal) : Prop :=
  ∀ clk s s' a, pruned_from s m → fn clk s = Ok (s', a) → undisturbed (s_Operations s) (s_Operations s').

Lemma commit_evolves clk clk' m v :
  evolves (s_Operations (prune (clk 0%nat) m)) (s_Operations v) →
  evolves (s_Operations m) (s_Operations (committed clk' v)).
Proof.
  intros He. etrans; [apply prune_evolves|]. etrans; [exact He|]. rewrite committed_Operations. apply prune_evolves.
Qed.

Lemma Update_evolves {A} clk w (fn : clock → State → result (State * A)) db db' r :
  tx_evolves fn (OperationRecords db) → Update clk w fn db = (db', r) → store_evolves db db'.
Proof.
  intros Hfn Hu. destruct r as [a|e].
  - apply Update_ok in Hu as (_ & v & Hv & ->).
    assert (evolves (OperationRecords db) (s_Operations (committed clk v))) as He
      by (eapply commit_evolves, Hfn; [apply prune_pruned_from|exact Hv]).
    split; [exact He|by right].
  - apply Update_err in Hu as (Hs & [->|(_ & _ & v & a & Hv & Hf)]); [apply store_evolves_refl|].
    split; [unfold OperationRecords; by rewrite Hs|]. destruct Hf as [Hf|Hf]; [auto|right].
    unfold file_records. rewrite Hf. eapply commit_evolves, Hfn; [apply prune_pruned_from|exact Hv].
Qed.

Lemma Update_undisturbed {A} clk w (fn : clock → State → result (State * A)) db db' r :
  tx_undisturbed fn (OperationRecords db) → Update clk w fn db = (db', r) →
  undisturbed (OperationRecords db) (OperationRecords db').
Proof.
  intros Hfn Hu. destruct r as [a|e].
  - apply Update_ok in Hu as (_ & v & Hv & ->). etrans; [apply prune_undisturbed|].
    etrans; [eapply Hfn; [apply prune_pruned_from|exact Hv]|].
    unfold OperationRecords. simpl. rewrite committed_Operations. apply prune_undisturbed.
  - apply Update_err in Hu as (Hs & _). unfold OperationRecords. by rewrite Hs.
Qed.

(** ** The transactions against a journal *)

Lemma quiet_tx {A} (fn : clock → State → result (State * A)) m :
  (∀ clk s s' a, fn clk s = Ok (s', a) → s_Operations s' = s_Operations s) → tx_evolves fn m ∧ tx_undisturbed fn m.
Proof. intros Hfn. split; intros clk s s' a _ Hs; by rewrite (Hfn _ _ _ _ Hs). Qed.

Lemma create_plan_quiet a p clk s s' u : create_plan_tx a p clk s = Ok (s', u) → s_Operations s' = s_Operations s.
Proof. unfold create_plan_tx. destruct (_ >=? _); [done|]. by intros [= <-]. Qed.

Lemma cancel_moves a id revision m : tx_evolves (cancel_tx a id revision) m ∧ tx_undisturbed (cancel_tx a id revision) m.
Proof.
  split; intros clk s s' [] _ (o & o' & Ho & _ & -> & He & Hf)%cancel_tx_ok; eauto with journal.
Qed.

Definition not_queued (id : string) (m : journal) : Prop := ∀ o, m !! id = Some o → op_State o ≠ "queued".

Lemma progress_moves id p m : not_queued id m → tx_evolves (progress_tx id p) m.
Proof.
  intros Hq clk s s' [] [Hsub _] (o & o' & Ho & -> & _ & He & _)%progress_tx_ok.
  eapply evolves_insert; [done|]. eapply He, Hq, lookup_weaken; done.
Qed.

Lemma claim_moves id m : keyed_ops m → tx_evolves (claim_tx id) m.
Proof.
  intros Hk clk s s' [] [Hsub _] (o & o' & Ho & _ & -> & He & _)%claim_tx_ok.
  destruct (Hk id o) as [-> _]; [by eapply lookup_weaken|]. by eapply evolves_insert.
Qed.

Lemma finish_moves id r m :
  keyed_ops m → (∀ o, m !! id = Some o → recordable r o) → tx_evolves (finish_tx id r) m.
Proof.
  intros Hk Hr clk s s' [] [Hsub _] Hf.
  assert (keyed_ops (s_Operations s)) as Hks by (intros k o Ho; by eapply Hk, lookup_weaken).
  destruct (s_Operations s !! id) as [o|] eqn:Ho; [|unfold finish_tx in Hf; by rewrite Ho in Hf].
  eapply finish_tx_evolves; [done|done| |done]. by eapply Hr, lookup_weaken.
Qed.

Lemma finish_undisturbed id r m :
  keyed_ops m → (∀ o, m !! id = Some o → ¬ in_flight o) → tx_undisturbed (finish_tx id r) m.
Proof.
  intros Hk Hr clk s s' [] [Hsub _] Hf.
  assert (keyed_ops (s_Operations s)) as Hks by (intros k o Ho; by eapply Hk, lookup_weaken).
  eapply finish_tx_undisturbed; [done| |done]. intros o Ho. by eapply Hr, lookup_weaken.
Qed.

Lemma progress_evolves clk w id p db db' r :
  not_queued id (OperationRecords db) → progress clk w id p db = (db', r) → store_evolves db db'.
Proof.
  intros Hq. unfold progress. destruct (progress_repeated _ _ _).
  - intros [= <- <-]. apply store_evolves_refl.
  - intros Hu. eapply Update_evolves; [|done]. by apply progress_moves.
Qed.

(** ** The invariant *)

Definition in_flight_at (id : string) (m : journal) : Prop := ∃ o, m !! id = Some o ∧ in_flight o.
Definition dispatched_at (id : string) (m : journal) : Prop := ∀ o, m !! id = Some o → op_Dispatched o = true.

(** Claimed by this activation, not dispatched by any. *)
Definition fresh_claim (log : list Execution) (acc : gmap string Execution) (op : Operation) : Prop :=
  acc !! op_ID op = Some (exec_of op) ∧ op_ID op ∉ ids log.

Definition pc_ok (log : list Execution) (acc : gmap string Execution) (db : Store) (p : pc) : Prop :=
  match p with
  | Idle | Down => True
  | Claiming op => acc !! op_ID op = Some (exec_of op)
  | Checking op => fresh_claim log acc op ∧ not_queued (op_ID op) (OperationRecords db) ∧
      ∀ o, OperationRecords db !! op_ID op = Some o → op_State o = "running" → in_flight o
  | Preparing op | Intending op _ | Replacing op _ | Recording op | Authorizing op =>
      fresh_claim log acc op ∧ in_flight_at (op_ID op) (OperationRecords db)
  | Dispatching op => fresh_claim log acc op ∧ dispatched_at (op_ID op) (OperationRecords db) ∧
      dispatched_at (op_ID op) (file_records db)
  | Driving op _ => acc !! op_ID op = Some (exec_of op) ∧ not_queued (op_ID op) (OperationRecords db)
  | Finishing op r => acc !! op_ID op = Some (exec_of op) ∧ Terminal (re_State r) = true
  | Booting l => ∀ id o, (id, o) ∈ l → is_Some (acc !! id) ∧
      ∀ o', OperationRecords db !! id = Some o' → evolves_op o o'
  end.

Record pending_ok (acc : gmap string Execution) (m : journal) (id : string) (r : Result) : Prop := {
  po_known : is_Some (acc !! id);
  po_final : Terminal (re_State r) = true;
  po_record : ∀ o, m !! id = Some o → ¬ in_flight o ∧ op_State o ≠ "queued" }.

(** An accepted execution carries its caller's intact plan for this target. *)
Definition sealed (id : string) (ex : Execution) : Prop :=
  ex_ID ex = id ∧ pl_Actor (ex_Plan ex) = ex_Actor ex ∧ plan_hash (ex_Plan ex) = pl_Hash (ex_Plan ex) ∧
  d_Target (pl_Draft (ex_Plan ex)) = Target.

Record inv (y : Sys) : Prop := {
  i_state : journal_ok (y_log y) (y_accepted y) (OperationRecords (y_db y));
  i_file : journal_ok (y_log y) (y_accepted y) (file_records (y_db y));
  i_log : ∀ ex, ex ∈ y_log y → y_accepted y !! ex_ID ex = Some ex;
  i_accepted : ∀ id ex, y_accepted y !! id = Some ex → sealed id ex;
  i_once : NoDup (ids (y_log y));
  i_pc : pc_ok (y_log y) (y_accepted y) (y_db y) (y_pc y);
  i_pending : ∀ id r, (id, r) ∈ y_pending y → pending_ok (y_accepted y) (OperationRecords (y_db y)) id r }.

(** ** Stability under the other parties' transactions *)

Lemma not_queued_grows acc id m m' :
  is_Some (acc !! id) → grows acc m m' → not_queued id m → not_queued id m'.
Proof.
  intros [? Ha] Hg Hq o' Ho'. destruct (Hg _ _ Ho') as [?|(o & Ho & He)]; [congruence|].
  intros Hs. pose proof (ev_queued _ _ He Hs) as ->. by apply (Hq _ Ho).
Qed.

Lemma dispatched_grows acc id m m' :
  is_Some (acc !! id) → grows acc m m' → dispatched_at id m → dispatched_at id m'.
Proof.
  intros [? Ha] Hg Hd o' Ho'. destruct (Hg _ _ Ho') as [?|(o & Ho & He)]; [congruence|].
  apply (ev_Dispatched _ _ He), (Hd _ Ho).
Qed.

Lemma running_grows acc id m m' :
  is_Some (acc !! id) → grows acc m m' → undisturbed m m' → not_queued id m →
  (∀ o, m !! id = Some o → op_State o = "running" → in_flight o) →
  ∀ o, m' !! id = Some o → op_State o = "running" → in_flight o.
Proof.
  intros [? Ha] Hg Hu Hq Hr o' Ho' Hs. destruct (Hg _ _ Ho') as [?|(o & Ho & He)]; [congruence|].
  destruct (ev_running _ _ He Hs) as [Hs'|Hs']; [|by destruct (Hq _ Ho)].
  destruct (Hu _ _ Ho (Hr _ Ho Hs')) as (o2 & Ho2 & ?). congruence.
Qed.

Lemma pending_grows acc acc' m m' id r :
  acc ⊆ acc' → grows acc m m' → pending_ok acc m id r → pending_ok acc' m' id r.
Proof.
  intros Hsub Hg [[ex Hex] Ht Hr]. split; [exists ex; by eapply lookup_weaken|done|].
  intros o' Ho'. destruct (Hg _ _ Ho') as [?|(o & Ho & He)]; [congruence|].
  destruct (Hr _ Ho) as [Hf Hq]. split.
  - by intros [?|?]%(ev_in_flight _ _ He).
  - intros Hs. pose proof (ev_queued _ _ He Hs) as ->. done.
Qed.

Lemma pc_stable log acc acc' db db' p :
  acc ⊆ acc' → store_grows acc db db' → undisturbed (OperationRecords db) (OperationRecords db') →
  pc_ok log acc db p → pc_ok log acc' db' p.
Proof.
  intros Hsub [Hg Hf] Hu.
  assert (∀ op, fresh_claim log acc op → fresh_claim log acc' op) as Hfc
    by (intros op [? ?]; split; [by eapply lookup_weaken|done]).
  assert (∀ id, in_flight_at id (OperationRecords db) → in_flight_at id (OperationRecords db')) as Hfl
    by (intros id (o & Ho & Hfl); destruct (Hu _ _ Ho Hfl) as (o' & ? & ?); by exists o').
  destruct p as [|op|op|op|op c|op c|op|op|op|op run|op r|l|]; simpl; try (by intros []; auto); try done.
  - intros ?. by eapply lookup_weaken.
  - intros (Hc & Hq & Hr). assert (is_Some (acc !! op_ID op)) as Ha by (destruct Hc as [-> _]; eauto).
    split_and!; [auto|by eapply not_queued_grows|by eapply running_grows].
  - intros (Hc & Hd & Hd'). assert (is_Some (acc !! op_ID op)) as Ha by (destruct Hc as [-> _]; eauto).
    split_and!; [auto|by eapply dispatched_grows|]. destruct Hf as [Hf|Hf].
    + unfold file_records. by rewrite Hf.
    + by eapply dispatched_grows.
  - intros [Ha Hq]. split; [by eapply lookup_weaken|]. eapply not_queued_grows; [by eexists|done..].
  - intros [Ha Ht]. split; [by eapply lookup_weaken|done].
  - intros Hl id o [Ha Ho]%Hl. split; [destruct Ha as [ex Hex]; exists ex; by eapply lookup_weaken|].
    intros o' Ho'. destruct Ha as [ex Hex]. destruct (Hg _ _ Ho') as [?|(o1 & Ho1 & He)]; [congruence|].
    etrans; [by apply Ho|done].
Qed.

Lemma inv_evolves y db' src p :
  inv y → store_evolves (y_db y) db' → pc_ok (y_log y) (y_accepted y) db' p →
  inv (mkSys db' src p (y_pending y) (y_log y) (y_accepted y)).
Proof.
  intros [Hs Hf Hl Hac Hn Hp Hpe] He Hpc. pose proof He as [Hes Hef]. split; simpl; try done.
  - by eapply journal_ok_evolves.
  - destruct Hef as [Hef|Hef]; [unfold file_records; by rewrite Hef|by eapply journal_ok_evolves].
  - intros id r Hin. eapply pending_grows; [done|by apply evolves_grows|by apply Hpe].
Qed.

(** A transaction of another party. *)
Lemma inv_other {A} y clk w (fn : clock → State → result (State * A)) db' r :
  inv y → tx_evolves fn (OperationRecords (y_db y)) → tx_undisturbed fn (OperationRecords (y_db y)) →
  Update clk w fn (y_db y) = (db', r) →
  inv (mkSys db' (y_src y) (y_pc y) (y_pending y) (y_log y) (y_accepted y)).
Proof.
  intros Hi He Hu Hup. apply (Update_evolves _ _ _ _ _ _ He) in Hup as Hse.
  apply (Update_undisturbed _ _ _ _ _ _ Hu) in Hup as Hun.
  apply inv_evolves; [done..|]. eapply pc_stable; [done|by apply store_evolves_grows|done|]. by destruct Hi.
Qed.

(** ** The worker's own steps *)

Lemma in_flight_not_queued id m : in_flight_at id m → not_queued id m.
Proof. intros (o & Ho & _ & Hq & _) o' Ho'. congruence. Qed.

(** A claimed record that stays in flight across one of the worker's transactions. *)
Lemma Update_in_flight {A} clk w (fn : clock → State → result (State * A)) id db db' r :
  (∀ clk s s' a o, pruned_from s (OperationRecords db) → s_Operations s !! id = Some o → in_flight o →
     fn clk s = Ok (s', a) → in_flight_at id (s_Operations s')) →
  in_flight_at id (OperationRecords db) → Update clk w fn db = (db', r) → in_flight_at id (OperationRecords db').
Proof.
  intros Hfn (o & Ho & Hf) Hu. destruct r as [a|e].
  - apply Update_ok in Hu as (_ & v & Hv & ->).
    destruct (λ Ho, Hfn _ _ _ _ o (prune_pruned_from _ _) Ho Hf Hv) as (o' & Ho' & Hf').
    { by apply prune_keeps_unfinished, in_flight_Terminal. }
    exists o'. split; [|done]. by apply committed_keeps, in_flight_Terminal.
  - apply Update_err in Hu as (Hs & _). exists o. unfold OperationRecords. by rewrite Hs.
Qed.

Lemma progress_in_flight clk w id p db db' r :
  pg_Phase p ≠ "dispatch-intent" → in_flight_at id (OperationRecords db) →
  progress clk w id p db = (db', r) → in_flight_at id (OperationRecords db').
Proof.
  intros Hp Hf. unfold progress. destruct (progress_repeated _ _ _); [by intros [= <- <-]|].
  apply Update_in_flight; [|done]. intros clk' s s' [] o _ Ho (Ht & Hq & Hd & Hr) Hs.
  apply progress_tx_ok in Hs as (o1 & o' & Ho1 & -> & Hst & _ & _ & _ & _ & Hrr & Hdd). simplify_eq.
  exists o'. rewrite lookup_insert_eq. split; [done|]. unfold in_flight.
  rewrite Hst, Hrr, Hdd, Hd, (neqb_str _ _ Hp). done.
Qed.

Lemma source_updated_moves id m :
  keyed_ops m → in_flight_at id m → tx_evolves (source_updated_tx id) m.
Proof.
  intros Hk (o & Ho & Hf) clk s s' [] [_ Hkeep] Hs.
  pose proof (Hkeep _ _ Ho (in_flight_Terminal _ Hf)) as Ho1.
  destruct (source_updated_tx_ok _ _ _ _ _ Ho1 Hf (proj1 (Hk _ _ Ho)) Hs) as (o' & -> & He & _).
  by eapply evolves_insert.
Qed.

Lemma source_updated_in_flight clk w id db db' r :
  keyed_ops (OperationRecords db) → in_flight_at id (OperationRecords db) →
  Update clk w (source_updated_tx id) db = (db', r) → in_flight_at id (OperationRecords db').
Proof.
  intros Hk Hf Hu. destruct Hf as (o & Ho & Hf). pose proof (proj1 (Hk _ _ Ho)) as HID.
  eapply Update_in_flight; [|by exists o|done]. intros clk' s s' [] o1 [Hsub _] Ho1 Hf1 Hs.
  destruct (Hk id o1) as [HID1 _]; [by eapply lookup_weaken|].
  destruct (source_updated_tx_ok _ _ _ _ _ Ho1 Hf1 HID1 Hs) as (o' & -> & _ & Hf').
  exists o'. by rewrite lookup_insert_eq.
Qed.

(** A committed claim has a record in flight or has failed it. *)
Lemma claim_checked log acc clk w op db db' :
  journal_ok log acc (OperationRecords db) → acc !! op_ID op = Some (exec_of op) →
  Update clk w (claim_tx (op_ID op)) db = (db', Ok tt) → pc_ok log acc db' (Checking op).
Proof.
  intros Hj Ha (_ & v & Hv & ->)%Update_ok. pose proof (journal_ok_keyed _ _ _ Hj) as Hk.
  apply claim_tx_ok in Hv as (o & o' & Ho & Hq & Hv & _ & Hst & Hd & Hr).
  pose proof (lookup_weaken _ _ _ _ Ho (prune_Operations_subseteq _ _)) as Ho0.
  destruct (Hj _ _ Ho0) as [[HID _] _ _ Hqueued _]. destruct (Hqueued Hq) as (Hd0 & Hr0 & Hnin).
  assert (∀ x, OperationRecords (mkStore (committed clk v) false (committed clk v)) !! op_ID op = Some x → x = o') as Hx.
  { intros x Hx. pose proof (lookup_weaken _ _ _ _ Hx (committed_subseteq _ _)) as Hx'.
    rewrite Hv, HID, lookup_insert_eq in Hx'. by injection Hx'. }
  split; [by split|]. split.
  - intros x ->%Hx. destruct Hst as [-> | ->]; done.
  - intros x ->%Hx Hrun. unfold in_flight. rewrite Hrun, Hd, Hr, Hd0, Hr0. done.
Qed.

Lemma authorized_dispatching clk w op log acc db db' :
  journal_ok log acc (OperationRecords db) → fresh_claim log acc op →
  in_flight_at (op_ID op) (OperationRecords db) →
  progress clk w (op_ID op) dispatch_intent db = (db', Ok tt) → pc_ok log acc db' (Dispatching op).
Proof.
  intros Hj Hc (o & Ho & Ht & Hq & Hd & Hr). unfold progress, progress_repeated, st_Operation.
  unfold OperationRecords in Ho. rewrite Ho. destruct (_ && _) eqn:Hb.
  - exfalso. bool_hyps. match goal with E : bool_decide _ = true |- _ => apply bool_decide_eq_true in E; rename E into Hl end.
    destruct (Hj _ _ Ho) as [_ _ Hm _ _]. rewrite (Hm dispatch_intent) in Hd; [done| |done].
    apply last_Some in Hl as [l ->]. set_solver.
  - intros (_ & v & Hv & ->)%Update_ok.
    apply progress_tx_ok in Hv as (o1 & o' & Ho1 & Hv & _ & _ & _ & _ & _ & _ & Hdd).
    assert (dispatched_at (op_ID op) (s_Operations (committed clk v))) as Hda.
    { intros x Hx. pose proof (lookup_weaken _ _ _ _ Hx (committed_subseteq _ _)) as Hx'.
      rewrite Hv, lookup_insert_eq in Hx'. injection Hx' as <-. by rewrite Hdd, orb_true_r. }
    simpl. auto.
Qed.

Lemma prepared_pc ev op src db log acc :
  pc_ok log acc db (Preparing op) →
  pc_ok log acc db (match prepare Target ev op src db with
                    | Finish r => Finishing op r
                    | ReplaceSource c => Intending op c
                    | Dispatch => Authorizing op
                    end).
Proof.
  intros Hp. pose proof (prepare_cases Target ev op src db) as Hc. destruct (prepare _ _ _ _ _); [|done..].
  destruct Hp as [[? _] _]. done.
Qed.

(** Every step of the worker preserves the invariant. *)
Lemma inv_work y db' src' p' l :
  inv y → wstep (y_db y, y_src y, y_pc y) l (db', src', p') →
  inv (mkSys db' src' p' (y_pending y) (y_log y ++ l) (y_accepted y)).
Proof.
  destruct y as [db src p pend log acc]. simpl. intros Hi Hw.
  pose proof Hi as [Hs Hf Hl Hac Hn Hp Hpe]. simpl in *. pose proof (journal_ok_keyed _ _ _ Hs) as Hk.
  inversion Hw; subst; rewrite ?app_nil_r.
  - apply (inv_evolves _ _ _ _ Hi); [eapply Update_evolves; [by apply claim_moves|done]|].
    destruct r as [[]|]; [by eapply claim_checked|done].
  - apply (inv_evolves _ _ _ _ Hi); [apply store_evolves_refl|]. simpl.
    destruct (match st_Operation db' (op_ID op) with Some _ => _ | None => true end) eqn:Hr; [done|].
    destruct Hp as (Hc & _ & Hrun). split; [done|]. unfold st_Operation in Hr.
    destruct (s_Operations (st_state db') !! op_ID op) as [o|] eqn:Ho; [|done].
    apply negb_false_iff, String.eqb_eq in Hr. exists o. auto.
  - apply (inv_evolves _ _ _ _ Hi); [apply store_evolves_refl|by apply prepared_pc].
  - destruct Hp as [Hc Hfl]. apply (inv_evolves _ _ _ _ Hi).
    + eapply progress_evolves; [by apply in_flight_not_queued|done].
    + destruct r; [|done]. split; [done|]. eapply (progress_in_flight _ _ _ source_intent); [discriminate|done..].
  - destruct Hp as [[Hc ?] Hfl]. apply (inv_evolves _ _ _ _ Hi); [apply store_evolves_refl|].
    destruct r; simpl; [done|]. split; [done|apply fail_result_Terminal].
  - destruct Hp as [Hc Hfl]. apply (inv_evolves _ _ _ _ Hi).
    + eapply Update_evolves; [by apply source_updated_moves|done].
    + destruct r; [|done]. split; [done|]. by eapply source_updated_in_flight.
  - destruct Hp as [Hc Hfl]. apply (inv_evolves _ _ _ _ Hi).
    + eapply progress_evolves; [by apply in_flight_not_queued|done].
    + destruct r as [[]|]; [|done]. by eapply authorized_dispatching.
  - destruct Hp as ([Ha Hnin] & Hd & Hd'). split; simpl; try done.
    + by apply journal_ok_dispatch.
    + by apply journal_ok_dispatch.
    + intros ex [?| ->%list_elem_of_singleton]%elem_of_app; [by apply Hl|done].
    + rewrite ids_snoc. apply NoDup_app. split_and!; [done| |apply NoDup_singleton].
      by intros ? ? ->%list_elem_of_singleton.
    + split; [done|]. intros o Ho Hq. destruct (Hs _ _ Ho) as [_ _ _ Hqd _]. rewrite (Hd _ Ho) in Hqd. naive_solver.
  - destruct Hp as [Ha Hq]. apply (inv_evolves _ _ _ _ Hi).
    + by eapply progress_evolves.
    + split; [done|]. eapply not_queued_grows; [by eexists| |exact Hq]. apply evolves_grows.
      eapply se_state. by eapply progress_evolves.
  - destruct Hp as [Ha Hq]. apply (inv_evolves _ _ _ _ Hi); [apply store_evolves_refl|].
    split; [done|apply executed_Terminal].
  - destruct Hp as [Ha Ht]. apply (inv_evolves _ _ _ _ Hi); [|done].
    eapply Update_evolves; [|done]. apply finish_moves; [done|]. intros. by left.
Qed.

(** ** Every step *)

(** The committed snapshot of an accepted request. *)
Lemma accept_grows log acc id a planID target key clk clk' m s v op :
  journal_ok log acc (s_Operations m) → acc !! id = None → id ∉ ids log → id ≠ "" →
  s = prune (clk 0%nat) m → apply_tx Target Depth id a planID target key clk' s = Ok (v, op) →
  let acc' := if op_ID op =s id then <[id := exec_of op]> acc else acc in
  acc ⊆ acc' ∧ (∀ k ex, acc' !! k = Some ex → acc !! k = Some ex ∨ sealed k ex) ∧
  grows acc (s_Operations m) (s_Operations (committed clk v)) ∧
  undisturbed (s_Operations m) (s_Operations (committed clk v)) ∧
  journal_ok log acc' (s_Operations (committed clk v)).
Proof.
  intros Hj Hn Hnin Hne -> Ha. cbv zeta.
  assert (journal_ok log acc (s_Operations (prune (clk 0%nat) m))) as Hjp by (eapply journal_ok_evolves; [apply prune_evolves|done]).
  apply apply_tx_ok in Ha as [(_ & Hacc & Hv & _)|(-> & old & Hold & _ & -> & _)].
  - destruct Hacc as [_ Hop Hactor _ _ [_ Htarget] _ Hseal _ _ _].
    assert (op_ID op = id) as HID by (by rewrite Hop). rewrite HID, eqb_str_refl.
    assert (∀ m', s_Operations (prune (clk 0%nat) m) ⊆ m' → undisturbed (s_Operations (prune (clk 0%nat) m)) (<[id := op]> m')) as Hun.
    { intros m' Hsub k x Hx Hf. destruct (decide (k = id)) as [->|].
      - destruct (Hjp _ _ Hx). congruence.
      - exists x. rewrite lookup_insert_ne by done. split; [by eapply lookup_weaken|done]. }
    assert (∀ k x, s_Operations (committed clk v) !! k = Some x → k = id ∧ x = op ∨ s_Operations (prune (clk 0%nat) m) !! k = Some x) as Hlk.
    { intros k x Hx. pose proof (lookup_weaken _ _ _ _ Hx (committed_subseteq _ _)) as Hx'.
      rewrite Hv in Hx'. apply lookup_insert_Some in Hx' as [[<- <-]|[_ ?]]; auto. }
    split_and!.
    + by apply insert_subseteq.
    + intros k ex [[<- <-]|[_ ?]]%lookup_insert_Some; [right|auto].
      unfold sealed, exec_of. simpl. split_and!; [done| |done..]. rewrite Hactor. by rewrite Hop.
    + intros k x [[-> ->]|Hx]%Hlk; [by left|right]. exists x. split; [|done].
      eapply lookup_weaken; [exact Hx|apply prune_Operations_subseteq].
    + etrans; [apply prune_undisturbed|]. etrans; [apply (Hun _ (reflexivity _))|].
      rewrite committed_Operations, <- Hv. apply prune_undisturbed.
    + intros k x [[-> ->]|Hx]%Hlk.
      * split; [done|by rewrite lookup_insert_eq| | |done].
        { rewrite Hop. intros p [Hp|[]%not_elem_of_nil]%elem_of_cons Hph. by subst p. }
        { intros _. rewrite Hop. done. }
      * by eapply (journal_ok_accept log acc _ id (exec_of op) Hn Hjp).
  - assert ((op_ID (default Operation0 (s_Operations (prune (clk 0%nat) m) !! id_OperationID old)) =s id) = false) as ->.
    { apply neqb_str. intros HID. apply prune_bounded in Hold as [x Hx]. rewrite Hx in HID. simpl in HID.
      destruct (Hjp _ _ Hx) as [[HIDx _] Hax _ _ _]. congruence. }
    split_and!; [done|auto| | |].
    + apply evolves_grows. etrans; [apply prune_evolves|]. rewrite committed_Operations. apply prune_evolves.
    + etrans; [apply prune_undisturbed|]. rewrite committed_Operations. apply prune_undisturbed.
    + eapply journal_ok_evolves; [|exact Hjp]. rewrite committed_Operations. apply prune_evolves.
Qed.

Lemma inv_apply y clk w id a planID target key db' r :
  inv y → id ≠ "" → y_accepted y !! id = None →
  Update clk w (apply_tx Target Depth id a planID target key) (y_db y) = (db', r) →
  inv (mkSys db' (y_src y) (y_pc y) (y_pending y) (y_log y)
      (match apply_tx Target Depth id a planID target key (λ i, clk (2 + i)%nat)
               (prune (clk 0%nat) (st_state (y_db y))) with
       | Ok (_, op) => if op_ID op =s id then <[id := exec_of op]> (y_accepted y) else y_accepted y
       | Err _ => y_accepted y
       end)).
Proof.
  intros [Hs Hf Hl Hac Hn Hp Hpe] Hne Hfresh Hu.
  assert (id ∉ ids (y_log y)) as Hnin.
  { intros (ex & -> & Hin)%list_elem_of_fmap. rewrite (Hl _ Hin) in Hfresh. done. }
  destruct (apply_tx _ _ _ _ _ _ _ _ _) as [[v op]|e] eqn:Htx.
  2:{ assert (db' = y_db y) as ->; [|by split].
      unfold Update in Hu. destruct (st_poisoned _); [by simplify_eq|]. rewrite Htx in Hu. by simplify_eq. }
  destruct (accept_grows _ _ _ _ _ _ _ _ _ _ _ _ _ Hs Hfresh Hnin Hne eq_refl Htx) as (Hsub & Hseal & Hg & Hun & Hj).
  set (acc' := if op_ID op =s id then _ else _) in *.
  assert (∀ m, journal_ok (y_log y) (y_accepted y) m → journal_ok (y_log y) acc' m) as Hext.
  { intros m Hm. unfold acc'. destruct (_ =s _); [by apply journal_ok_accept|done]. }
  assert (store_grows (y_accepted y) (y_db y) db' ∧ undisturbed (OperationRecords (y_db y)) (OperationRecords db') ∧
    journal_ok (y_log y) acc' (OperationRecords db') ∧ journal_ok (y_log y) acc' (file_records db')) as (Hsg & Hund & Hj1 & Hj2).
  { destruct r as [op'|e].
    - apply Update_ok in Hu as (_ & v' & Hv' & ->). rewrite Htx in Hv'. injection Hv' as <- <-.
      split_and!; [split; auto|done..].
    - apply Update_err in Hu as (Hst & [->|(_ & _ & v' & op' & Hv' & Hfile)]).
      + split_and!; [by apply store_evolves_grows, store_evolves_refl|done|auto..].
      + rewrite Htx in Hv'. injection Hv' as <- <-.
        assert (OperationRecords db' = OperationRecords (y_db y)) as Hop by (unfold OperationRecords; by rewrite Hst).
        split_and!; [split| | |]; rewrite ?Hop; [by apply evolves_grows| |done|auto|];
          unfold file_records; destruct Hfile as [-> | ->]; auto. }
  split; simpl; try done.
  - intros ex Hin. eapply lookup_weaken; [by apply Hl|done].
  - intros k ex [?|?]%Hseal; auto.
  - by eapply pc_stable.
  - intros k r' Hin. eapply pending_grows; [done|apply Hsg|by apply Hpe].
Qed.

Lemma start_result_recordable ad o o' :
  evolves_op o o' → recordable (start_result (inspect ad o)) o'.
Proof.
  intros He. unfold start_result. destruct (inspect ad o) as [r|] eqn:Hr; [|by left].
  destruct (String.eqb_spec (re_State r) ""); [by left|].
  destruct (String.eqb_spec (re_State r) "running"); [by left|].
  destruct (String.eqb_spec (re_State r) "queued"); [by left|]. simpl.
  unfold inspect in Hr. destruct (op_Dispatched o) eqn:Hd; simpl in Hr.
  - right. split_and!; [done..|]. by apply (ev_Dispatched _ _ He).
  - injection Hr as <-. by left.
Qed.

Lemma inv_initial mode src : inv (initial mode src).
Proof.
  split; simpl; try done.
  - intros ex Hin. by apply elem_of_nil in Hin.
  - constructor.
  - intros id r Hin. by apply elem_of_nil in Hin.
Qed.

Lemma inv_crash y : inv y → inv (mkSys (mkStore (st_file (y_db y)) false (st_file (y_db y))) (y_src y)
      (Booting (map_to_list (s_Operations (st_file (y_db y))))) [] (y_log y) (y_accepted y)).
Proof.
  intros [Hs Hf Hl Hac Hn Hp Hpe]. split; simpl; try done.
  - intros id o Hin%elem_of_map_to_list. destruct (Hf _ _ Hin) as [_ Ha _ _ _]. split; [eauto|].
    intros o' Ho'. unfold OperationRecords in Ho'. simpl in Ho'. by simplify_eq.
  - intros id r Hin. by apply elem_of_nil in Hin.
Qed.

Lemma inv_boot y clk w ad id o l db' r :
  inv y → y_pc y = Booting ((id, o) :: l) → finish clk w id (start_result (inspect ad o)) (y_db y) = (db', r) →
  inv (mkSys db' (y_src y) (match r with Ok _ => Booting l | Err _ => Down end) (y_pending y) (y_log y) (y_accepted y)).
Proof.
  intros Hi Hpc Hfin. pose proof (i_pc _ Hi) as Hp. rewrite Hpc in Hp. simpl in Hp.
  assert (store_evolves (y_db y) db') as He.
  { eapply Update_evolves; [|done]. apply finish_moves; [by eapply journal_ok_keyed, i_state|].
    intros o' Ho'. apply start_result_recordable. destruct (Hp id o) as [_ Hev]; [by constructor|by apply Hev]. }
  apply inv_evolves; [done..|]. destruct r; [|done]. simpl. intros k x Hin.
  destruct (Hp k x) as [[ex Hex] Hev]; [by constructor|]. split; [by eexists|].
  intros x' (x0 & Hx0 & Hx')%(se_state _ _ He). etrans; [by apply Hev|done].
Qed.

Lemma inv_step y y' : inv y → step y y' → inv y'.
Proof.
  intros Hi Hst. destruct Hst as [y op Hpc _ Hq|y db' src' p' l Hw|y clk w a p db' r Hs Hu|y clk w id a planID target key db' r Hs Hne Hf Hu
    |y clk w a id revision db' r Hs Hu|y id o r Hs Ho Hrd Ht|y clk w id r db' e Hs Hin Hf|A y clk w fn db' r Hfn Hu
    |y|y id o l Hpc _|y clk w ad id o l db' r Hpc _ Hf|y Hpc].
  - apply inv_evolves; [done|apply store_evolves_refl|]. simpl.
    pose proof (OldestQueuedOperation_queued _ _ Hq) as (k & Ho).
    destruct (i_state _ Hi _ _ Ho) as [[-> _] Ha _ _ _]. done.
  - by apply inv_work.
  - destruct (quiet_tx (create_plan_tx a p) (OperationRecords (y_db y)) (create_plan_quiet a p)). by eapply inv_other.
  - by eapply inv_apply.
  - destruct (cancel_moves a id revision (OperationRecords (y_db y))). by eapply inv_other.
  - pose proof Hi as [Hsj Hfj Hl Hac Hn Hp Hpe]. split; simpl; try done.
    intros k r' [[= -> ->]|Hin]%elem_of_cons; [|by apply Hpe].
    destruct (Hsj _ _ Ho) as [_ Ha _ Hqd _]. split; [by eexists|done|].
    intros o' Ho'. rewrite Ho in Ho'. injection Ho' as <-. apply orb_true_iff in Hrd. split.
    + intros (_ & _ & ? & ?). destruct Hrd; congruence.
    + intros Hq. destruct (Hqd Hq) as (? & ? & _). destruct Hrd; congruence.
  - pose proof (i_pending _ Hi _ _ Hin) as [_ Ht Hr]. pose proof (journal_ok_keyed _ _ _ (i_state _ Hi)) as Hk.
    eapply inv_other; [done| | |exact Hf].
    + apply finish_moves; [done|]. intros. by left.
    + apply finish_undisturbed; [done|]. intros o Ho. by destruct (Hr _ Ho).
  - destruct (quiet_tx fn (OperationRecords (y_db y)) Hfn). by eapply inv_other.
  - by apply inv_crash.
  - apply inv_evolves; [done|apply store_evolves_refl|]. pose proof (i_pc _ Hi) as Hp. rewrite Hpc in Hp.
    simpl in *. intros k x Hin. apply Hp. by constructor.
  - by eapply inv_boot.
  - apply inv_evolves; [done|apply store_evolves_refl|done].
Qed.

Lemma reachable_inv y : reachable y → inv y.
Proof.
  intros (mode & src & Hr). remember (initial mode src) as y0 eqn:Hy0.
  assert (inv y0) as Hi by (rewrite Hy0; apply inv_initial). clear Hy0.
  induction Hr; [done|]. eauto using inv_step.
Qed.

(** ** The sequential worker is one schedule of the interleaved one *)

Lemma wsteps_one x l y : wstep x l y → wsteps x l y.
Proof. intros Hs. rewrite <- (app_nil_r l). econstructor; [done|constructor]. Qed.

Lemma wsteps_cons x y z l : wstep x [] y → wsteps y l z → wsteps x l z.
Proof. intros Hs Hss. change l with ([] ++ l). by econstructor. Qed.

Lemma drive_wsteps ev op run : ∀ n db db' n' r src, drive ev (op_ID op) n run db = (db', n', r) →
  wsteps (db, src, Driving op run) [] (db', src, Finishing op r).
Proof.
  induction run as [r err|p k IH]; intros n db db' n' r0 src; simpl.
  - intros [= <- <- <-]. apply wsteps_one. constructor.
  - destruct (progress _ _ _ _ _) as [db1 ans] eqn:Hp. intros Hd.
    eapply wsteps_cons; [by econstructor|]. by eapply IH.
Qed.

Lemma dispatch_wsteps ev op db db' log src :
  dispatch ev op db = (db', log) → wsteps (db, src, Authorizing op) log (db', src, Idle).
Proof.
  unfold dispatch. destruct (progress _ _ _ _ _) as [db1 r] eqn:Hp. pose proof (w_authorize _ _ op _ _ src _ Hp) as Hw.
  destruct r as [[]|e]; [|intros [= <- <-]; by apply wsteps_one].
  destruct (drive _ _ _ _ _) as [[db2 n] r] eqn:Hd. intros [= <- <-].
  eapply wsteps_cons; [exact Hw|]. change [exec_of op] with ([exec_of op] ++ ([] : list Execution)).
  econstructor; [apply w_dispatch|].
  change ([] : list Execution) with (([] : list Execution) ++ []).
  assert (∀ x y z : wstate, wsteps x [] y → wsteps y [] z → wsteps x [] z) as Htrans.
  { intros x y z Hxy. remember ([] : list Execution) as l eqn:Hl. revert Hl.
    induction Hxy as [|x y y' l l' Hs Hss IH]; [done|]. intros [-> ->]%app_eq_nil Hz.
    eapply wsteps_cons; eauto. }
  simpl. eapply Htrans; [by eapply drive_wsteps|]. apply wsteps_one. eapply w_finish. apply surjective_pairing.
Qed.

Lemma finish_wsteps clk w op r db src :
  wsteps (db, src, Finishing op r) [] ((finish clk w (op_ID op) r db).1, src, Idle).
Proof. apply wsteps_one. eapply w_finish. apply surjective_pairing. Qed.

Lemma execute_wsteps ev op src db db' src' log :
  execute Target ev op src db = (db', src', log) → wsteps (db, src, Claiming op) log (db', src', Idle).
Proof.
  unfold execute. destruct (Update _ _ _ _) as [db1 r] eqn:Hu. pose proof (w_claim _ _ op _ _ src _ Hu) as Hw.
  destruct r as [[]|e]; [|intros [= <- <- <-]; by apply wsteps_one].
  pose proof (w_check op db1 src) as Hck.
  destruct (match st_Operation db1 (op_ID op) with Some _ => _ | None => true end).
  { intros [= <- <- <-]. eapply wsteps_cons; [exact Hw|]. by apply wsteps_one. }
  intros Hrest. eapply wsteps_cons; [exact Hw|]. eapply wsteps_cons; [exact Hck|].
  pose proof (w_prepare ev op db1 src) as Hpr. revert Hpr Hrest.
  destruct (prepare _ _ _ _ _) as [r|c|]; intros Hpr Hrest; (eapply wsteps_cons; [exact Hpr|]).
  - injection Hrest as <- <- <-. apply finish_wsteps.
  - destruct (progress _ _ _ _ _) as [db2 r2] eqn:Hp2. pose proof (w_intend _ _ op c _ _ src _ Hp2) as Hin.
    destruct r2 as [[]|e]; [|injection Hrest as <- <- <-; by apply wsteps_one].
    eapply wsteps_cons; [exact Hin|].
    destruct (source_Update _ _ _ _) as [src2 r3] eqn:Hs. pose proof (w_replace _ op c db2 _ _ _ Hs) as Hre.
    destruct r3 as [[]|e]; (eapply wsteps_cons; [exact Hre|]); [|injection Hrest as <- <- <-; apply finish_wsteps].
    destruct (Update _ _ (source_updated_tx _) _) as [db3 r4] eqn:Hu4. pose proof (w_record _ _ op _ _ src2 _ Hu4) as Hrc.
    destruct r4 as [[]|e]; [|injection Hrest as <- <- <-; by apply wsteps_one].
    eapply wsteps_cons; [exact Hrc|].
    destruct (dispatch _ _ _) as [dbf l] eqn:Hd. injection Hrest as <- <- <-. by eapply dispatch_wsteps.
  - destruct (dispatch _ _ _) as [dbf l] eqn:Hd. injection Hrest as <- <- <-. by eapply dispatch_wsteps.
Qed.

(** The controller runs the worker's sections in a row. *)
Lemma wsteps_steps x l z : wsteps x l z → ∀ pend log acc,
  rtc step (mkSys x.1.1 x.1.2 x.2 pend log acc) (mkSys z.1.1 z.1.2 z.2 pend (log ++ l) acc).
Proof.
  induction 1 as [x|[[db src] p] [[db' src'] p'] z l l' Hs _ IH]; intros pend log acc; [by rewrite app_nil_r|].
  eapply rtc_l; [|rewrite app_assoc; apply IH].
  exact (s_work (mkSys db src p pend log acc) db' src' p' l Hs).
Qed.

Lemma execute_steps ev op src db db' src' log pend log0 acc :
  execute Target ev op src db = (db', src', log) →
  rtc step (mkSys db src (Claiming op) pend log0 acc) (mkSys db' src' Idle pend (log0 ++ log) acc).
Proof.
  intros He. exact (wsteps_steps (db, src, Claiming op) log (db', src', Idle) (execute_wsteps _ _ _ _ _ _ _ He) pend log0 acc).
Qed.

(** ** Records nobody runs *)

(** The record the worker is busy with. *)
Definition busy (p : pc) : option string :=
  match p with
  | Claiming op | Checking op | Preparing op | Intending op _ | Replacing op _ | Recording op
  | Authorizing op | Dispatching op | Driving op _ | Finishing op _ => Some (op_ID op)
  | Idle | Booting _ | Down => None
  end.

(** In flight, and not with the worker. *)
Definition abandoned (id : string) (y : Sys) : Prop :=
  serving (y_pc y) = true ∧ busy (y_pc y) ≠ Some id ∧ in_flight_at id (OperationRecords (y_db y)).

(** A step that is not a crash. *)
Definition live_step (y y' : Sys) : Prop := step y y' ∧ serving (y_pc y') = true.

Lemma insert_in_flight id k (o : Operation) (m : journal) :
  k ≠ id → in_flight_at id m → in_flight_at id (<[k := o]> m).
Proof. intros Hne (x & Hx & Hf). exists x. by rewrite lookup_insert_ne. Qed.

(** The worker's transactions on another record. *)
Lemma progress_elsewhere clk w k p id db db' r :
  k ≠ id → in_flight_at id (OperationRecords db) → progress clk w k p db = (db', r) →
  in_flight_at id (OperationRecords db').
Proof.
  intros Hne Hf. unfold progress. destruct (progress_repeated _ _ _); [by intros [= <- <-]|].
  apply Update_in_flight; [|done]. intros clk' s s' [] o _ Ho Hfl (o1 & o' & _ & -> & _)%progress_tx_ok.
  apply insert_in_flight; [done|]. by exists o.
Qed.

Lemma claim_elsewhere clk w k id db db' r :
  keyed_ops (OperationRecords db) → k ≠ id → in_flight_at id (OperationRecords db) →
  Update clk w (claim_tx k) db = (db', r) → in_flight_at id (OperationRecords db').
Proof.
  intros Hk Hne. apply Update_in_flight. intros clk' s s' [] o [Hsub _] Ho Hf (o1 & o' & Ho1 & _ & -> & _)%claim_tx_ok.
  destruct (Hk k o1) as [-> _]; [by eapply lookup_weaken|]. apply insert_in_flight; [done|]. by exists o.
Qed.

Lemma source_updated_elsewhere clk w k id db db' r :
  keyed_ops (OperationRecords db) → k ≠ id → in_flight_at id (OperationRecords db) →
  Update clk w (source_updated_tx k) db = (db', r) → in_flight_at id (OperationRecords db').
Proof.
  intros Hk Hne. apply Update_in_flight. intros clk' s s' [] o [Hsub _] Ho Hf. unfold source_updated_tx.
  intros [= <-]. apply insert_in_flight; [|by exists o]. simpl.
  destruct (s_Operations s !! k) as [o1|] eqn:Ho1; simpl.
  - destruct (Hk k o1) as [-> _]; [by eapply lookup_weaken|done].
  - intros <-. destruct (Hk "" o) as [_ []]; [by eapply lookup_weaken|done].
Qed.

Lemma finish_elsewhere clk w k res id db db' r :
  keyed_ops (OperationRecords db) → k ≠ id → in_flight_at id (OperationRecords db) →
  finish clk w k res db = (db', r) → in_flight_at id (OperationRecords db').
Proof.
  intros Hk Hne. apply Update_in_flight. intros clk' s s' [] o [Hsub _] Ho Hf Hfin.
  apply finish_tx_ok in Hfin as (o1 & o' & chain & nows & _ & _ & Hj & _);
    [|intros x ox Hox; by eapply Hk, lookup_weaken].
  exists o. split; [|done]. rewrite Hj, (neqb_str id k), Ho by done. simpl. unfold settle_member.
  destruct Hf as (_ & _ & _ & ->). by rewrite andb_false_r.
Qed.

Lemma work_elsewhere y db' src' p' l id :
  keyed_ops (OperationRecords (y_db y)) → busy (y_pc y) ≠ Some id → in_flight_at id (OperationRecords (y_db y)) →
  wstep (y_db y, y_src y, y_pc y) l (db', src', p') →
  busy p' ≠ Some id ∧ in_flight_at id (OperationRecords db').
Proof.
  destruct y as [db src p pend log acc]. simpl. intros Hk Hb Hf Hw.
  inversion Hw; subst; simpl in Hb; (split; [try (repeat case_match; simplify_eq; done)|]);
    try (by assumption); assert (op_ID op ≠ id) as Hne by congruence.
  - by eapply claim_elsewhere.
  - by eapply progress_elsewhere.
  - by eapply source_updated_elsewhere.
  - by eapply progress_elsewhere.
  - by eapply progress_elsewhere.
  - by eapply finish_elsewhere.
Qed.

Lemma other_in_flight {A} clk w (fn : clock → State → result (State * A)) id db db' r :
  tx_undisturbed fn (OperationRecords db) → in_flight_at id (OperationRecords db) →
  Update clk w fn db = (db', r) → in_flight_at id (OperationRecords db').
Proof. intros Hu (o & Ho & Hf) Hup. destruct (Update_undisturbed _ _ _ _ _ _ Hu Hup _ _ Ho Hf) as (o' & ? & ?). by exists o'. Qed.

Lemma abandoned_step y y' id : inv y → abandoned id y → live_step y y' → abandoned id y'.
Proof.
  intros Hi (Hsrv & Hb & Hf) [Hst Hlive]. split; [done|]. pose proof (journal_ok_keyed _ _ _ (i_state _ Hi)) as Hk.
  destruct Hst as [y op Hpc _ Hq|y db' src' p' l Hw|y clk w a p db' r _ Hu|y clk w k a planID target key db' r _ Hne Hfr Hu
    |y clk w a k revision db' r _ Hu|y k o r _ Ho Hrd Ht|y clk w k r db' e _ Hin Hfin|A y clk w fn db' r Hfn Hu
    |y|y k o l Hpc _|y clk w ad k o l db' r Hpc _ Hfin|y Hpc]; simpl in *; try (by rewrite ?Hpc in *); try done.
  - split; [|done]. intros [= <-]. apply OldestQueuedOperation_queued in Hq as Hk'. destruct Hk' as (k & Ho).
    destruct (Hk _ _ Ho) as [<- _]. destruct Hf as (o & Ho' & _ & Hnq & _). unfold OperationRecords in Ho'.
    rewrite Ho in Ho'. injection Ho' as <-. pose proof (OldestQueuedOperation_fifo (y_db y)) as Hff. rewrite Hq in Hff. by destruct Hff.
  - by eapply work_elsewhere.
  - split; [done|]. eapply other_in_flight; [|done..]. apply (quiet_tx _ _ (create_plan_quiet a p)).
  - split; [done|]. pose proof (inv_apply _ _ _ _ _ _ _ _ _ _ Hi Hne Hfr Hu) as Hi'.
    eapply Update_in_flight; [|done|exact Hu]. intros clk' s s' op o [Hsub _] Ho Hfl Ha.
    apply apply_tx_ok in Ha as [(_ & _ & Hv & _)|(-> & _)]; [|by exists o].
    rewrite Hv. apply insert_in_flight; [|by exists o]. intros <-.
    destruct (i_state _ Hi k o) as [_ Ha _ _ _]; [by eapply lookup_weaken|congruence].
  - split; [done|]. eapply other_in_flight; [|done..]. apply cancel_moves.
  - split; [done|]. eapply other_in_flight; [|done|exact Hfin]. apply finish_undisturbed; [done|].
    intros o Ho. destruct (i_pending _ Hi _ _ Hin) as [_ _ Hr]. by destruct (Hr _ Ho).
  - split; [done|]. eapply other_in_flight; [|done..]. by apply (quiet_tx fn).
Qed.

(** ** Properties *)

(** C4: The code of [execute] is a schedule of the interleaved controller: whatever it does
    in one uninterrupted activation, with the calls it dispatches, the program counter
    can do section by section, from any surroundings; so what holds of every schedule
    holds of the code. *)
Theorem execute_refines ev y op db' src' log :
  y_pc y = Claiming op → execute Target ev op (y_src y) (y_db y) = (db', src', log) →
  rtc step y (mkSys db' src' Idle (y_pending y) (y_log y ++ log) (y_accepted y)).
Proof. destruct y as [db src p pend log0 acc]. simpl. intros -> He. by eapply execute_steps. Qed.

(** C1: At most one dispatch. Over any interleaving of the worker, the handlers, failing
    writes and crashes with restarts, [Adapter.Execute] is called at most once for any
    operation identifier. *)
Theorem dispatched_at_most_once y : reachable y → NoDup (ids (y_log y)).
Proof. intros Hr. by apply i_once, reachable_inv. Qed.

(** C2: Only accepted work is dispatched, unaltered. Every call of [Adapter.Execute] carries
    an identifier, actor and plan that [Apply] accepted under that identifier: the
    plan was created by that actor, names this controller's target and still has the
    hash it was sealed with. *)
Theorem dispatched_as_accepted y ex :
  reachable y → ex ∈ y_log y → y_accepted y !! ex_ID ex = Some ex ∧ sealed (ex_ID ex) ex.
Proof. intros Hr%reachable_inv Hin. split; [by apply Hr|]. eapply i_accepted; [done|by apply Hr]. Qed.

(** C3: Dispatch is never forgotten. Whatever has been dispatched is flagged so, and not
    queued, in memory and in the file, so that no restart can find it runnable; and the
    flag is already in the file when the worker reaches the call. *)
Theorem dispatch_recorded_first y :
  reachable y →
  (∀ ex o, ex ∈ y_log y → s_Operations (st_state (y_db y)) !! ex_ID ex = Some o ∨
     s_Operations (st_file (y_db y)) !! ex_ID ex = Some o → op_Dispatched o = true ∧ op_State o ≠ "queued") ∧
  (∀ op o, y_pc y = Dispatching op → s_Operations (st_file (y_db y)) !! op_ID op = Some o → op_Dispatched o = true).
Proof.
  intros Hr%reachable_inv. split.
  - intros ex o Hin Ho.
    assert (record_ok (y_log y) (y_accepted y) (ex_ID ex) o) as [_ _ _ Hq Hl]
      by (destruct Ho as [Ho|Ho]; [by apply (i_state _ Hr)|by apply (i_file _ Hr)]).
    assert (ex_ID ex ∈ ids (y_log y)) as Hids by (apply list_elem_of_fmap; eauto).
    split; [auto|]. intros Hs. by destruct (Hq Hs) as (_ & _ & []).
  - intros op o Hpc Ho. pose proof (i_pc _ Hr) as Hp. rewrite Hpc in Hp. destruct Hp as (_ & _ & Hd). auto.
Qed.

(** A record abandoned by the worker stays so: once a claimed record is not final and
    the worker is not busy with it, no cancellation, inspection, recovery or other work
    ever finishes it; only a restart of the controller does. *)
Theorem abandoned_until_restart y y' id :
  reachable y → abandoned id y → rtc live_step y y' → abandoned id y'.
Proof.
  intros Hr Ha Hs. apply reachable_inv in Hr. induction Hs as [|y1 y2 y3 Hs _ IH]; [done|].
  apply IH; [destruct Hs; by eapply inv_step|by eapply abandoned_step].
Qed.

End System.

(** ** A concrete run *)

Module SystemFixture.
#[local] Existing Instance render_hash.
Import EngineFixture.
Definition y0 : Sys := initial "live" source.
Definition accepted : gmap string Execution :=
  match request (λ i, now (2 + i)%nat) (prune (now 0%nat) (st_state db2)) with
  | Ok (_, o) => if op_ID o =s "o" then <["o" := exec_of o]> ∅ else ∅
  | Err _ => ∅
  end.
Definition y3 : Sys := mkSys db3 source (Claiming op) [] [] accepted.
Definition y4 : Sys := mkSys run.1.1 run.1.2 Idle [] run.2 accepted.
(** The cancellation that falls between the claim and its check. *)
Definition claim := Update now Written (claim_tx (op_ID op)) db3.
Definition db4 : Store := claim.1.
Definition db5 : Store := (Update now Written (cancel_tx actor "o" 0) db4).1.
Definition y5 : Sys := mkSys db5 source Idle [] [] accepted.

Definition y1 : Sys := mkSys db1 source Idle [] [] ∅.
Definition y2 : Sys := mkSys db2 source Idle [] [] ∅.
Definition y2' : Sys := mkSys db3 source Idle [] [] accepted.

Lemma step01 : step "ws" 4 y0 y1.
Proof.
  refine (s_auth _ _ y0 now Written (activate_tx "issue" cred) db1 _ _ (surjective_pairing _)).
  intros clk s s' a. unfold activate_tx. destruct (_ && _); [done|]. by intros [= <- _].
Qed.

Lemma step12 : step "ws" 4 y1 y2.
Proof. exact (s_plan _ _ y1 now Written actor plan db2 _ eq_refl (surjective_pairing _)). Qed.

Lemma step23 : step "ws" 4 y2 y2'.
Proof. refine (s_apply _ _ y2 now Written "o" actor "p" "ws" "12345678" db3 _ eq_refl _ eq_refl (surjective_pairing _)). done. Qed.

Lemma queued3 : OldestQueuedOperation db3 = Some op.
Proof. vm_compute. reflexivity. Qed.

Lemma accepted_run : rtc (step "ws" 4) y0 y3.
Proof.
  eapply rtc_l; [exact step01|]. eapply rtc_l; [exact step12|]. eapply rtc_l; [exact step23|].
  apply rtc_once. refine (s_pick _ _ y2' op eq_refl _ queued3). vm_compute. reflexivity.
Qed.

Lemma run_log : run.2 = [exec_of op].
Proof. vm_compute. reflexivity. Qed.

Lemma y4_reachable : reachable "ws" 4 y4.
Proof.
  exists "live", source. etrans; [apply accepted_run|].
  apply (execute_steps "ws" 4 env op source db3 run.1.1 run.1.2 run.2 [] [] accepted).
  fold run. by destruct run as [[? ?] ?].
Qed.

Lemma y4_log : y_log y4 = [exec_of op].
Proof. exact run_log. Qed.

Lemma claimed3 : wstep "ws" (db3, source, Claiming op) [] (db4, source, Checking op).
Proof.
  assert (claim.2 = Ok tt) as Hok by (vm_compute; reflexivity).
  apply (w_claim "ws" now Written op db3 db4 source (Ok tt)).
  fold claim. unfold db4. rewrite <- Hok. by destruct claim.
Qed.

Definition y3c : Sys := mkSys db4 source (Checking op) [] [] accepted.
Definition y3d : Sys := mkSys db5 source (Checking op) [] [] accepted.

Lemma step3c : step "ws" 4 y3 y3c.
Proof. exact (s_work "ws" 4 y3 _ _ _ _ claimed3). Qed.

Lemma stepcd : step "ws" 4 y3c y3d.
Proof. exact (s_cancel "ws" 4 y3c now Written actor "o" 0 db5 _ eq_refl (surjective_pairing _)). Qed.

Lemma checked5 : wstep "ws" (db5, source, Checking op) [] (db5, source, Idle).
Proof.
  pose proof (w_check "ws" op db5 source) as Hs.
  assert (match st_Operation db5 (op_ID op) with Some current => op_State current <>s "running" | None => true end = true) as Hc
    by (vm_compute; reflexivity).
  rewrite Hc in Hs. exact Hs.
Qed.

Lemma stepd5 : step "ws" 4 y3d y5.
Proof. exact (s_work "ws" 4 y3d _ _ _ _ checked5). Qed.

Lemma y5_reachable : reachable "ws" 4 y5.
Proof.
  exists "live", source. etrans; [exact accepted_run|].
  eapply rtc_l; [exact step3c|]. eapply rtc_l; [exact stepcd|]. apply rtc_once. exact stepd5.
Qed.

Lemma y5_abandoned : abandoned "o" y5.
Proof.
  split; [done|]. split; [done|]. eexists. split; [vm_compute; reflexivity|]. by vm_compute.
Qed.
End SystemFixture.

(** The controller can abandon an operation: a cancellation accepted between the
    worker's claim and its check of the claim leaves the record asked to stop, not
    final, never dispatched, with nobody running it. *)
Theorem cancel_race_abandons :
  ∃ (h : Sha256) (e : Encoding) y id o, reachable "ws" 4 y ∧ abandoned id y ∧ y_pc y = Idle ∧
    OperationRecords (y_db y) !! id = Some o ∧ op_State o = "cancel-requested" ∧ op_Dispatched o = false.
Proof.
  exists render_hash, EngineFixture.enc, SystemFixture.y5, "o".
  assert (∃ o, OperationRecords (y_db SystemFixture.y5) !! "o" = Some o ∧ op_State o = "cancel-requested" ∧
    op_Dispatched o = false) as (o & ? & ? & ?).
  { eexists. split; [vm_compute; reflexivity|]. by vm_compute. }
  exists o. split; [exact SystemFixture.y5_reachable|]. split; [exact SystemFixture.y5_abandoned|].
  split; [reflexivity|]. auto.
Qed.

#[local] Existing Instance render_hash.
#[local] Existing Instance EngineFixture.enc.

Lemma dispatched_at_most_once_witness :
  NoDup (ids (y_log SystemFixture.y4)) ∧ y_log SystemFixture.y4 = [exec_of EngineFixture.op].
Proof. split; [exact (dispatched_at_most_once _ _ _ SystemFixture.y4_reachable)|exact SystemFixture.y4_log]. Defined.

Lemma dispatched_as_accepted_witness :
  y_accepted SystemFixture.y4 !! "o" = Some (exec_of EngineFixture.op) ∧ sealed "ws" "o" (exec_of EngineFixture.op).
Proof.
  exact (dispatched_as_accepted _ _ _ (exec_of EngineFixture.op) SystemFixture.y4_reachable
    (eq_ind_r (λ l, exec_of EngineFixture.op ∈ l) (list_elem_of_here _ _) SystemFixture.y4_log)).
Defined.

Lemma dispatch_recorded_first_witness :
  ∃ o, s_Operations (st_file (y_db SystemFixture.y4)) !! "o" = Some o ∧ op_Dispatched o = true ∧ op_State o ≠ "queued".
Proof.
  eexists. split; [vm_compute; reflexivity|].
  refine (proj1 (dispatch_recorded_first _ _ _ SystemFixture.y4_reachable) (exec_of EngineFixture.op) _ _ (or_intror _)).
  - rewrite SystemFixture.y4_log. constructor.
  - vm_compute. reflexivity.
Defined.

Lemma abandoned_until_restart_witness : abandoned "o" SystemFixture.y5.
Proof.
  exact (abandoned_until_restart _ _ _ _ _ SystemFixture.y5_reachable SystemFixture.y5_abandoned (rtc_refl _ _)).
Defined.

Lemma execute_refines_witness :
  rtc (step "ws" 4) SystemFixture.y3 SystemFixture.y4.
Proof.
  refine (execute_refines "ws" 4 EngineFixture.env SystemFixture.y3 EngineFixture.op
    EngineFixture.run.1.1 EngineFixture.run.1.2 EngineFixture.run.2 eq_refl _).
  change (execute _ _ _ _ _) with EngineFixture.run. by destruct EngineFixture.run as [[? ?] ?].
Defined.
