(* ===== verification/HostPolicy.v ===== *)
(** The host executor's contract and root policy ([internal/hostexec/protocol.go],
    [policy.go]): identifiers, request hashes and the validation of the owner's
    policy.  Paths are checked as text here; ownership and hashes of installed
    files are the environment's answers. *)
From S2P Require Import Prelude Json Types Domain.

Definition ContractVersion : Z := 1.

Record Request := mkRequest {
  rq_Version : Z;
  rq_ID : string;
  rq_ExecutionIdentity : string;
  rq_PayloadHash : string;
  rq_Draft : Draft;
  rq_Desired : Configuration }.

(** [hostexec.Result]; [Data] is raw JSON text. *)
Record HostResult := mkHostResult {
  hs_ID : string;
  hs_State : string;
  hs_Phase : string;
  hs_Message : string;
  hs_Data : option string }.

Record Qualification := mkQualification {
  qf_Image : string;
  qf_ModelRevision : string;
  qf_ModelPath : string;
  qf_ExpiresAt : time;
  qf_HostModelPath : string;
  qf_Files : gmap string string }.
Record SessionQualification := mkSessionQualification {
  sq_TemplateHash : string;
  sq_ExpiresAt : time;
  sq_ConfigMaps : gmap string string }.
Record MemorySource := mkMemorySource { ms_Path : string; ms_SHA256 : string }.

Record Policy := mkPolicy {
  po_PerformanceSources : gmap string MemorySource;
  po_MemorySources : gmap string MemorySource;
  po_Version : Z;
  po_AllowedUID : Z;
  po_Socket : string;
  po_StateDir : string;
  po_SessionDir : string;
  po_RuntimeRoot : string;
  po_Artifacts : gmap string string;
  po_SystemExecutables : gmap string string;
  po_WorkstationConfig : string;
  po_SourcePath : string;
  po_HardwarePath : string;
  po_ModelRoot : string;
  po_WorkerEvidenceDir : string;
  po_Kubeconfig : string;
  po_Kubectl : string;
  po_Context : string;
  po_Target : string;
  po_Environment : string;
  po_Namespace : string;
  po_AIDeployment : string;
  po_AIDeploymentUID : string;
  po_GameDeployment : string;
  po_GameDeploymentUID : string;
  po_TimeoutSeconds : Z;
  po_QualifiedConfigurations : gmap string Qualification;
  po_SessionQualifications : gmap string SessionQualification;
  po_MaxRecords : Z }.

(** ** Identifiers *)

Definition id_char (c : ascii) : bool := is_alnum c || Ascii.eqb c "-"%char.
Definition validID (v : string) : bool :=
  negb ((str_len v <? 8) || (str_len v >? 80)) && all_chars id_char v.

Definition safe_char (c : ascii) : bool :=
  negb ((N_of_ascii c =? 10)%N || (N_of_ascii c =? 13)%N || (N_of_ascii c =? 0)%N).
Definition safeIdentity (s : string) : bool :=
  (str_len s >? 0) && (str_len s <=? 128) && all_chars safe_char s.

(** [memory.ID], [memory.Digest] and [performance.Digest]. *)
Definition evidence_ID (s : string) : bool := headed_name id_char 7 79 s.
Definition Digest (s : string) : bool := hex_string 64 s.

(** ** Hashes *)

Section Hashes.
Context `{Sha256}.

Definition Request_json (r : Request) : JSON := JObject [
  ("version", JInt (rq_Version r)); ("id", JString (rq_ID r));
  ("execution_identity", JString (rq_ExecutionIdentity r)); ("payload_hash", JString (rq_PayloadHash r));
  ("draft", Draft_json (rq_Draft r)); ("desired", Configuration_json (rq_Desired r))].
Definition set_rq_PayloadHash (v : string) (r : Request) : Request :=
  mkRequest (rq_Version r) (rq_ID r) (rq_ExecutionIdentity r) v (rq_Draft r) (rq_Desired r).
Definition RequestHash (r : Request) : string := sha256_hex (Request_json (set_rq_PayloadHash "" r)).

Definition ConfigurationHash (s : Serving) (r : Resources) : string :=
  sha256_hex (JObject [("serving", Serving_json s); ("resources", Resources_json r)]).

Definition MemorySource_json (s : MemorySource) : JSON :=
  JObject [("path", JString (ms_Path s)); ("sha256", JString (ms_SHA256 s))].
Definition Qualification_json (q : Qualification) : JSON := JObject [
  ("image", JString (qf_Image q)); ("model_revision", JString (qf_ModelRevision q));
  ("model_path", JString (qf_ModelPath q)); ("expires_at", JTime (qf_ExpiresAt q));
  ("host_model_path", JString (qf_HostModelPath q)); ("files", JMap JString (qf_Files q))].
Definition SessionQualification_json (q : SessionQualification) : JSON := JObject [
  ("template_hash", JString (sq_TemplateHash q)); ("expires_at", JTime (sq_ExpiresAt q));
  ("config_maps", JMap JString (sq_ConfigMaps q))].
Definition omit_map {A} (k : string) (f : A → JSON) (m : gmap string A) : list (string * JSON) :=
  if bool_decide (m = ∅) then [] else [(k, JMap f m)].
Definition Policy_json (p : Policy) : JSON := JObject (
  omit_map "performance_sources" MemorySource_json (po_PerformanceSources p)
  ++ omit_map "memory_sources" MemorySource_json (po_MemorySources p)
  ++ [("version", JInt (po_Version p)); ("allowed_uid", JInt (po_AllowedUID p)); ("socket", JString (po_Socket p));
      ("state_dir", JString (po_StateDir p)); ("session_dir", JString (po_SessionDir p));
      ("runtime_root", JString (po_RuntimeRoot p)); ("artifacts", JMap JString (po_Artifacts p));
      ("system_executables", JMap JString (po_SystemExecutables p));
      ("workstation_config", JString (po_WorkstationConfig p)); ("source_path", JString (po_SourcePath p));
      ("hardware_path", JString (po_HardwarePath p)); ("model_root", JString (po_ModelRoot p))]
  ++ omit_str "worker_evidence_dir" (po_WorkerEvidenceDir p)
  ++ [("kubeconfig", JString (po_Kubeconfig p)); ("kubectl", JString (po_Kubectl p)); ("context", JString (po_Context p));
      ("target", JString (po_Target p)); ("environment", JString (po_Environment p));
      ("namespace", JString (po_Namespace p)); ("ai_deployment", JString (po_AIDeployment p));
      ("ai_deployment_uid", JString (po_AIDeploymentUID p)); ("game_deployment", JString (po_GameDeployment p));
      ("game_deployment_uid", JString (po_GameDeploymentUID p)); ("timeout_seconds", JInt (po_TimeoutSeconds p));
      ("qualified_configurations", JMap Qualification_json (po_QualifiedConfigurations p));
      ("session_qualifications", JMap SessionQualification_json (po_SessionQualifications p));
      ("max_records", JInt (po_MaxRecords p))]).
Definition policyRevision (p : Policy) : string := sha256_hex (Policy_json p).

End Hashes.

(** ** The policy's own checks *)

Definition performance_tools : list string :=
  ["performance_bundle.py"; "performance_profiles.py"; "coding_eval.py"; "coding_tasks.json"; "serving_runtime.py";
   "inference_cache.py"; "serving_sweep.py"; "model_kernels.py"; "serving.py"; "measurement.py"].
Definition memory_tools : list string :=
  ["serving_memory.py"; "measurement.py"; "performance.sh"; "serving.py"; "model_kernels.py"; "telemetry.py"].

Definition artifact (p : Policy) (name : string) : string := default "" (po_Artifacts p !! name).

(** The shared shape of both source checks. *)
Definition sources_ok (id_ok : string → bool) (m : gmap string MemorySource) : bool :=
  forallb (λ kv : string * MemorySource,
    id_ok kv.1 && Digest (ms_SHA256 kv.2) && canonical_path (ms_Path kv.2) && (ms_Path kv.2 <>s "/")) (map_to_list m).
Definition tools_ok (p : Policy) (tools : list string) : bool :=
  forallb (λ name, Digest (artifact p ("lib/workstation/" +:+ name))) tools.

Definition validatePerformancePolicy (p : Policy) : result unit :=
  reject (Z.of_nat (size (po_PerformanceSources p)) >? 20)
    with Plain "at most twenty reviewed performance bundles" ;;
  reject negb (sources_ok validID (po_PerformanceSources p))
    with Plain "performance sources require reviewed IDs, canonical private paths and manifest SHA-256" ;;
  reject (Z.of_nat (size (po_PerformanceSources p)) >? 0) && negb (tools_ok p performance_tools)
    with Plain "performance analysis requires independently approved installed tool hashes" ;;
  Ok tt.

Definition validateMemoryPolicy (p : Policy) : result unit :=
  reject (Z.of_nat (size (po_MemorySources p)) >? 20)
    with Plain "at most twenty reviewed memory evidence sources" ;;
  reject negb (sources_ok evidence_ID (po_MemorySources p))
    with Plain "memory source requires a reviewed ID, canonical private path and manifest SHA-256" ;;
  reject (Z.of_nat (size (po_MemorySources p)) >? 0) && negb (tools_ok p memory_tools)
    with Plain "memory planner requires independently reviewed installed tool hashes" ;;
  Ok tt.

(** [^\[a-zA-Z0-9\]\[a-zA-Z0-9._:/@-\]*$]. *)
Definition identity_char (c : ascii) : bool :=
  is_alnum c || existsb (Ascii.eqb c) ["."%char; "_"%char; ":"%char; "/"%char; "@"%char; "-"%char].
Definition identity_name (s : string) : bool :=
  match s with EmptyString => false | String c t => is_alnum c && all_chars identity_char t end.

Definition policy_validate (p : Policy) : result unit :=
  _ ← validatePerformancePolicy p;
  _ ← validateMemoryPolicy p;
  reject negb (po_Version p =? ContractVersion) || (po_AllowedUID p =? 0)
    with Plain "contract v1 and a dedicated non-root API UID are required" ;;
  reject negb (str_in (po_Environment p) ["dev"; "tst"; "int"])
    with Plain "executor target must explicitly be dev, tst or int" ;;
  reject (po_TimeoutSeconds p <? 30) || (po_TimeoutSeconds p >? 1800)
    with Plain "executor timeout must be 30..1800 seconds" ;;
  reject (po_MaxRecords p <? 16) || (po_MaxRecords p >? 10000)
    with Plain "executor max_records must be 16..10000" ;;
  reject negb (forallb (λ v, safeIdentity v && identity_name v)
      [po_Target p; po_Context p; po_Namespace p; po_AIDeployment p; po_GameDeployment p;
       po_AIDeploymentUID p; po_GameDeploymentUID p])
    with Plain "explicit target, context, namespace and deployment identities are required" ;;
  reject negb (forallb (λ v, canonical_path v && (v <>s "/") && all_chars safe_char v)
      [po_Socket p; po_StateDir p; po_SessionDir p; po_RuntimeRoot p; po_WorkstationConfig p; po_SourcePath p;
       po_HardwarePath p; po_ModelRoot p; po_Kubeconfig p; po_Kubectl p])
    with Plain "policy paths must be canonical absolute paths" ;;
  reject (po_AIDeployment p =s po_GameDeployment p) || (po_AIDeploymentUID p =s po_GameDeploymentUID p)
    with Plain "AI and gaming deployments must differ" ;;
  reject (po_WorkerEvidenceDir p <>s "") && (po_WorkerEvidenceDir p <>s "/var/lib/spry-bridge-evidence")
    with Plain "worker evidence export requires the dedicated /var/lib/spry-bridge-evidence directory" ;;
  reject po_Kubectl p <>s "/usr/bin/kubectl"
    with Plain "only the installed /usr/bin/kubectl is supported" ;;
  reject (size (po_Artifacts p) =? 0)%nat
    with Plain "reviewed installed runtime artifact hashes are required" ;;
  match List.find (λ name, negb (str_len (artifact p name) =? 64))
      ["bin/workstationctl"; "lib/common.sh"; "lib/workstation/runtime.sh"; "lib/workstation/session.sh"; "versions.lock"] with
  | Some name => Err (Plain ("missing runtime provenance: " +:+ name))
  | None => Ok tt
  end.
