(* ===== verification/Provenance.v ===== *)
(** What the root helper verifies on its disk before it runs anything
    ([internal/hostexec/policy.go]): the policy file itself, the installed runtime, the system
    tools, the target in the workstation configuration and the helper's Kubernetes identity.

    A disk is a snapshot; a path is walked through its links as the kernel does.  The theorems
    say what an accepted policy has established. *)
From S2P Require Import Prelude Json Types Config Wire Evidence HostPolicy.
From stdpp Require Import sorting.
#[local] Open Scope Z_scope.

(** ** The disk *)

(** An entry with its owner and permission bits. *)
Inductive Entry :=
| EDir (uid mode : Z)
| EFile (uid mode : Z) (content : string)
| ELink (uid : Z) (target : string)
| ESpecial (uid mode : Z).
(** Entries by their path components; those whose content or listing cannot be read. *)
Record Disk := mkDisk { dk_entries : gmap (list string) Entry; dk_broken : list string → bool }.

Definition is_dir (e : Entry) : bool := match e with EDir _ _ => true | _ => false end.
Definition is_regular (e : Entry) : bool := match e with EFile _ _ _ => true | _ => false end.
Definition is_link (e : Entry) : bool := match e with ELink _ _ => true | _ => false end.
Definition entry_uid (e : Entry) : Z := match e with EDir u _ | EFile u _ _ | ELink u _ | ESpecial u _ => u end.
Definition entry_mode (e : Entry) : Z := match e with EDir _ m | EFile _ m _ | ESpecial _ m => m | ELink _ _ => 511 end.

Definition ErrAbsent : error := Plain "no such file or directory".
Definition ErrNotDir : error := Plain "not a directory".
Definition ErrLoop : error := Plain "too many links".
Definition ErrIO : error := Plain "input/output error".
(** [os.IsNotExist]. *)
Definition IsNotExist {A} (r : result A) : bool := match r with Err e => bool_decide (e = ErrAbsent) | Ok _ => false end.

Definition components (p : string) : list string := List.filter (λ w, w <>s "") (split_on "/"%char p).
Definition path_of (l : list string) : string := "/" +:+ String.concat "/" l.

Section Disk.
Context (Sum : string → string) (d : Disk).
#[local] Abbreviation entry l := (dk_entries d !! l).

(** Where the components [l] lead from the directory [cur], through at most [links] links;
    the last component is followed only with [follow]. *)
Fixpoint resolve (follow : bool) (links : nat) (cur l : list string) {struct links} : result (list string) :=
  (fix go (cur l : list string) {struct l} : result (list string) :=
    match l with
    | [] => Ok cur
    | x :: rest =>
      if x =s "." then go cur rest
      else if x =s ".." then go (removelast cur) rest
      else match entry (cur ++ [x]) with
      | None => Err ErrAbsent
      | Some (EDir _ _) => go (cur ++ [x]) rest
      | Some (ELink _ target) =>
        if negb follow && match rest with [] => true | _ => false end then Ok (cur ++ [x])
        else match links with
             | O => Err ErrLoop
             | S links => resolve follow links (if is_abs target then [] else cur) (components target ++ rest)
             end
      | Some _ => match rest with [] => Ok (cur ++ [x]) | _ => Err ErrNotDir end
      end
    end) cur l.

(** The entry a path names: [os.Lstat] and [os.Stat]. *)
Definition named (follow : bool) (l : list string) : result (list string * Entry) :=
  q ← resolve follow 40 [] l; match entry q with Some e => Ok (q, e) | None => Err ErrAbsent end.
Definition Lstat (l : list string) : result Entry := '(_, e) ← named false l; Ok e.
Definition Stat (l : list string) : result Entry := '(_, e) ← named true l; Ok e.
Definition ReadFile (path : string) : result string :=
  '(q, e) ← named true (components path);
  reject dk_broken d q with ErrIO ;;
  match e with EFile _ _ content => Ok content | _ => Err ErrIO end.
Definition EvalSymlinks (path : string) : result string := q ← resolve true 255 [] (components path); Ok (path_of q).

(** [filepath.WalkDir]: parents before their entries, entries in the order of their names. *)
Fixpoint path_leb (a b : list string) : bool :=
  match a, b with
  | [], _ => true
  | _, [] => false
  | x :: a, y :: b => if x =s y then path_leb a b else String.leb x y
  end.
Definition path_le (a b : list string) : Prop := path_leb a b = true.
#[export] Instance path_le_dec a b : Decision (path_le a b).
Proof. unfold path_le. apply _. Defined.
(** What lies below a location, as paths relative to it. *)
Definition below (q : list string) : list (list string * Entry) :=
  omap (λ l, pair l <$> entry (q ++ l)) (merge_sort path_le (omap (λ kv : list string * Entry, if bool_decide (take (length q) kv.1 = q) then Some (drop (length q) kv.1) else None) (map_to_list (dk_entries d)))).
Definition relative_path (root : string) (rel : list string) : string := String.concat "/" (root :: rel).
Fixpoint walk_entries {A} (visit : list string → Entry → A → result A) (q : list string) (l : list (list string * Entry)) (a : A) : result A :=
  match l with
  | [] => Ok a
  | (rel, e) :: l =>
    a ← visit rel e a;
    reject is_dir e && dk_broken d (q ++ rel) with ErrIO ;;
    walk_entries visit q l a
  end.
Definition WalkDir {A} (root : string) (visit : list string → Entry → A → result A) (a : A) : result A :=
  '(q, e) ← named false (components root);
  if is_dir e then walk_entries visit q (below q) a else visit [] e a.

(** ** Trust *)

Definition trusted_entry (e : Entry) : bool :=
  negb (negb (entry_uid e =? 0) || is_link e || negb (Z.land (Z.land (entry_mode e) 511) 18 =? 0)).
(** The loop of [trustedPath], from the path up to the root. *)
Fixpoint climb (directory : option bool) (up : list string) : result unit :=
  e ← Lstat (rev up);
  reject negb (trusted_entry e) with Plain ("untrusted root policy/runtime path: " +:+ path_of (rev up)) ;;
  reject match directory with Some true => negb (is_dir e) | Some false => negb (is_regular e) | None => false end
    with Plain "unexpected trusted path type" ;;
  match up with [] => Ok tt | _ :: up => climb None up end.
Definition trustedPath (path : string) (directory : bool) : result unit :=
  reject negb (is_abs path) || (clean path <>s path) with Plain "non-canonical trusted path" ;;
  climb (Some directory) (rev (components path)).

Definition fileHash (path : string) : result string := b ← ReadFile path; Ok (Sum b).

(** ** The system tools *)

Definition requiredSystemTools : list string :=
  ["bash"; "env"; "jq"; "kubectl"; "stat"; "flock"; "findmnt"; "systemd-detect-virt"; "sync"; "chmod"; "mkdir"; "mktemp"; "mv"; "date";
   "uname"; "awk"; "sort"; "tr"; "grep"; "head"; "dirname"; "basename"; "readlink"; "cat"; "cp"; "rm"; "sleep"; "sha256sum"].
Definition collectorSystemTools : list string :=
  ["lscpu"; "lspci"; "free"; "lsblk"; "gcc"; "clang"; "rocminfo"; "rocm-smi"; "pacman"; "dmidecode"; "systemctl"; "nvme"; "smartctl"; "python3"].
Definition system_tools : list string := requiredSystemTools ++ collectorSystemTools.
Definition systemToolPath (name : string) : string :=
  let path := "/usr/bin/" +:+ name in
  if ((name =s "rocminfo") || (name =s "rocm-smi")) && IsNotExist (Stat (components path)) then "/opt/rocm/bin/" +:+ name else path.
Definition verify_tool (expected : gmap string string) (name : string) : result unit :=
  let path := systemToolPath name in
  let stat := Stat (components path) in
  if IsNotExist stat && str_in name collectorSystemTools then Ok tt else
  match stat with
  | Err _ => Err (Plain ("reviewed system executable is unavailable: " +:+ name))
  | Ok _ =>
    let want := default "" (expected !! name) in
    reject negb (str_len want =? 64) with Plain ("system executable provenance is absent: " +:+ name) ;;
    resolved ← EvalSymlinks path;
    _ ← trustedPath resolved false;
    got ← fileHash resolved;
    reject got <>s want with Plain ("installed system executable changed since root policy review: " +:+ name) ;;
    Ok tt
  end.
Fixpoint verify_tools (expected : gmap string string) (names : list string) : result unit :=
  match names with [] => Ok tt | name :: names => _ ← verify_tool expected name; verify_tools expected names end.
Definition verifySystemExecutables (expected : gmap string string) : result unit := verify_tools expected system_tools.
Fixpoint system_manifest (names : list string) (m : gmap string string) : result (gmap string string) :=
  match names with
  | [] => Ok m
  | name :: names =>
    let path := systemToolPath name in
    if IsNotExist (Stat (components path)) then system_manifest names m else
    h ← fileHash path; system_manifest names (<[name := h]> m)
  end.
Definition SystemManifest : result (gmap string string) := system_manifest system_tools ∅.

(** ** The installed runtime *)

Definition slash_path (rel : list string) : string := match rel with [] => "." | _ => String.concat "/" rel end.
Definition verify_file (p : Policy) (rel : list string) (e : Entry) (seen : gset string) : result (gset string) :=
  let path := relative_path (po_RuntimeRoot p) rel in
  _ ← trustedPath path (is_dir e);
  if is_dir e then Ok seen else
  match po_Artifacts p !! slash_path rel with
  | None => Err (Plain ("unreviewed installed runtime file: " +:+ slash_path rel))
  | Some want =>
    got ← fileHash path;
    reject want <>s got with Plain ("installed runtime provenance mismatch: " +:+ slash_path rel) ;;
    Ok ({[slash_path rel]} ∪ seen)
  end.
Definition manifest_file (root : string) (rel : list string) (e : Entry) (m : gmap string string) : result (gmap string string) :=
  reject is_link e with Plain "runtime bundle cannot contain symlinks" ;;
  if is_dir e then Ok m else
  reject negb (is_regular e) with Plain "runtime bundle requires regular files" ;;
  h ← fileHash (relative_path root rel);
  Ok (<[slash_path rel := h]> m).
Definition ArtifactManifest (root : string) : result (gmap string string) := WalkDir root (manifest_file root) ∅.

(** The literal workstation configuration. *)
Fixpoint workstation_lines (lines : list string) (configured : gmap string string) : result (gmap string string) :=
  match lines with
  | [] => Ok configured
  | line :: lines =>
    let line := trim_suffix line (String "013"%char "") in
    if (line =s "") || has_prefix line "#" then workstation_lines lines configured else
    match cut_equals line with
    | None => Err (Plain "invalid literal workstation configuration")
    | Some (k, v) =>
      reject is_some (configured !! k) with Plain "duplicate workstation configuration key" ;;
      workstation_lines lines (<[k := v]> configured)
    end
  end.
Definition workstation_target (p : Policy) : list (string * string) :=
  [("SESSION_CONTEXT", po_Context p); ("SESSION_NODE", po_Target p); ("SESSION_NAMESPACE", po_Namespace p); ("SESSION_ENVIRONMENT", po_Environment p);
   ("SESSION_AI_DEPLOYMENT", po_AIDeployment p); ("SESSION_GAME_DEPLOYMENT", po_GameDeployment p)].

(** The text after each line start, and whether a forbidden key opens one of them:
    [(?m)^\s*(exec|auth-provider|proxy-url|insecure-skip-tls-verify)\s*:]. *)
Fixpoint line_starts (s : string) : list string :=
  match s with EmptyString => [] | String c t => if Ascii.eqb c newline then t :: line_starts t else line_starts t end.
Definition regex_space (c : ascii) : bool := byte_in c [9; 10; 12; 13; 32]%N.
Definition forbidden_keys : list string := ["exec"; "auth-provider"; "proxy-url"; "insecure-skip-tls-verify"].
Definition forbidden_start (s : string) : bool :=
  let s := trim_left regex_space s in
  existsb (λ key, has_prefix s key && has_prefix (trim_left regex_space (trim_prefix s key)) ":") forbidden_keys.
Definition forbidden_identity (s : string) : bool := existsb forbidden_start (s :: line_starts s).

(** The installed session policy. *)
Definition session_policy : string := "/etc/workstation/session-policy.conf".
Fixpoint session_lines (lines : list string) (values : gmap string string) : result (gmap string string) :=
  match lines with
  | [] => Ok values
  | line :: lines =>
    let line := TrimSpace line in
    if (line =s "") || has_prefix line "#" then session_lines lines values else
    match cut_equals line with
    | None => Err (Plain "invalid installed legacy session policy")
    | Some (k, v) =>
      reject (default "" (values !! k) <>s "") || ((k <>s "SESSION_STATE_DIRECTORY") && (k <>s "SESSION_KUBECONFIG"))
        with Plain "invalid installed legacy session policy" ;;
      session_lines lines (<[k := v]> values)
    end
  end.

Fixpoint trusted_files (paths : list string) : result unit :=
  match paths with [] => Ok tt | path :: paths => _ ← trustedPath path false; trusted_files paths end.
Definition verifyRuntime (p : Policy) : result unit :=
  _ ← verifySystemExecutables (po_SystemExecutables p);
  _ ← trustedPath (po_RuntimeRoot p) true;
  seen ← WalkDir (po_RuntimeRoot p) (verify_file p) ∅;
  reject negb (Nat.eqb (size seen) (size (po_Artifacts p))) with Plain "installed runtime manifest includes missing files" ;;
  _ ← trusted_files [po_WorkstationConfig p; po_Kubeconfig p; po_Kubectl p; session_policy];
  workstation ← ReadFile (po_WorkstationConfig p);
  configured ← workstation_lines (split_on newline workstation) ∅;
  reject negb (forallb (λ kv : string * string, default "" (configured !! kv.1) =s kv.2) (workstation_target p))
    with Plain "installed workstation target differs from independent helper policy" ;;
  identity ← ReadFile (po_Kubeconfig p);
  reject forbidden_identity identity
    with Plain "helper Kubernetes identity must use reviewed static TLS credentials, without exec/auth-provider, proxy or insecure TLS options" ;;
  b ← ReadFile session_policy;
  values ← session_lines (split_on newline b) ∅;
  reject (default "" (values !! "SESSION_STATE_DIRECTORY") <>s po_SessionDir p) || (default "" (values !! "SESSION_KUBECONFIG") <>s po_Kubeconfig p)
    with Plain "helper and legacy session policy differ" ;;
  Ok tt.
End Disk.

(** ** The policy file *)

Definition dec_uint32 : decoder Z := λ v cur,
  match v with JNull => Some cur | JInt z => if (0 <=? z) && (z <? 2^32) then Some z else None | _ => None end.
Definition MemorySource0 : MemorySource := mkMemorySource "" "".
Definition dec_MemorySource : decoder MemorySource := dec_struct [
  at_key "path" dec_string HostPolicy.ms_Path (λ x '(mkMemorySource _ b), mkMemorySource x b);
  at_key "sha256" dec_string HostPolicy.ms_SHA256 (λ x '(mkMemorySource a _), mkMemorySource a x)].
Section PolicyText.
Context `{TimeText}.
Definition Qualification0 : Qualification := mkQualification "" "" "" zeroTime "" ∅.
Definition dec_Qualification : decoder Qualification := dec_struct [
  at_key "image" dec_string qf_Image (λ x '(mkQualification _ b c d e f), mkQualification x b c d e f);
  at_key "model_revision" dec_string qf_ModelRevision (λ x '(mkQualification a _ c d e f), mkQualification a x c d e f);
  at_key "model_path" dec_string qf_ModelPath (λ x '(mkQualification a b _ d e f), mkQualification a b x d e f);
  at_key "expires_at" dec_time qf_ExpiresAt (λ x '(mkQualification a b c _ e f), mkQualification a b c x e f);
  at_key "host_model_path" dec_string qf_HostModelPath (λ x '(mkQualification a b c d _ f), mkQualification a b c d x f);
  at_key "files" (dec_map "" dec_string) qf_Files (λ x '(mkQualification a b c d e _), mkQualification a b c d e x)].
Definition SessionQualification0 : SessionQualification := mkSessionQualification "" zeroTime ∅.
Definition dec_SessionQualification : decoder SessionQualification := dec_struct [
  at_key "template_hash" dec_string sq_TemplateHash (λ x '(mkSessionQualification _ b c), mkSessionQualification x b c);
  at_key "expires_at" dec_time sq_ExpiresAt (λ x '(mkSessionQualification a _ c), mkSessionQualification a x c);
  at_key "config_maps" (dec_map "" dec_string) sq_ConfigMaps (λ x '(mkSessionQualification a b _), mkSessionQualification a b x)].
Definition Policy0 : Policy := mkPolicy ∅ ∅ 0 0 "" "" "" "" ∅ ∅ "" "" "" "" "" "" "" "" "" "" "" "" "" "" "" 0 ∅ ∅ 0.
Definition dec_Policy : decoder Policy := dec_struct [
  at_key "performance_sources" (dec_map MemorySource0 dec_MemorySource) po_PerformanceSources (λ x '(mkPolicy _ a1 a2 a3 a4 a5 a6 a7 a8 a9 a10 a11 a12 a13 a14 a15 a16 a17 a18 a19 a20 a21 a22 a23 a24 a25 a26 a27 a28), mkPolicy x a1 a2 a3 a4 a5 a6 a7 a8 a9 a10 a11 a12 a13 a14 a15 a16 a17 a18 a19 a20 a21 a22 a23 a24 a25 a26 a27 a28);
  at_key "memory_sources" (dec_map MemorySource0 dec_MemorySource) po_MemorySources (λ x '(mkPolicy a0 _ a2 a3 a4 a5 a6 a7 a8 a9 a10 a11 a12 a13 a14 a15 a16 a17 a18 a19 a20 a21 a22 a23 a24 a25 a26 a27 a28), mkPolicy a0 x a2 a3 a4 a5 a6 a7 a8 a9 a10 a11 a12 a13 a14 a15 a16 a17 a18 a19 a20 a21 a22 a23 a24 a25 a26 a27 a28);
  at_key "version" dec_int po_Version (λ x '(mkPolicy a0 a1 _ a3 a4 a5 a6 a7 a8 a9 a10 a11 a12 a13 a14 a15 a16 a17 a18 a19 a20 a21 a22 a23 a24 a25 a26 a27 a28), mkPolicy a0 a1 x a3 a4 a5 a6 a7 a8 a9 a10 a11 a12 a13 a14 a15 a16 a17 a18 a19 a20 a21 a22 a23 a24 a25 a26 a27 a28);
  at_key "allowed_uid" dec_uint32 po_AllowedUID (λ x '(mkPolicy a0 a1 a2 _ a4 a5 a6 a7 a8 a9 a10 a11 a12 a13 a14 a15 a16 a17 a18 a19 a20 a21 a22 a23 a24 a25 a26 a27 a28), mkPolicy a0 a1 a2 x a4 a5 a6 a7 a8 a9 a10 a11 a12 a13 a14 a15 a16 a17 a18 a19 a20 a21 a22 a23 a24 a25 a26 a27 a28);
  at_key "socket" dec_string po_Socket (λ x '(mkPolicy a0 a1 a2 a3 _ a5 a6 a7 a8 a9 a10 a11 a12 a13 a14 a15 a16 a17 a18 a19 a20 a21 a22 a23 a24 a25 a26 a27 a28), mkPolicy a0 a1 a2 a3 x a5 a6 a7 a8 a9 a10 a11 a12 a13 a14 a15 a16 a17 a18 a19 a20 a21 a22 a23 a24 a25 a26 a27 a28);
  at_key "state_dir" dec_string po_StateDir (λ x '(mkPolicy a0 a1 a2 a3 a4 _ a6 a7 a8 a9 a10 a11 a12 a13 a14 a15 a16 a17 a18 a19 a20 a21 a22 a23 a24 a25 a26 a27 a28), mkPolicy a0 a1 a2 a3 a4 x a6 a7 a8 a9 a10 a11 a12 a13 a14 a15 a16 a17 a18 a19 a20 a21 a22 a23 a24 a25 a26 a27 a28);
  at_key "session_dir" dec_string po_SessionDir (λ x '(mkPolicy a0 a1 a2 a3 a4 a5 _ a7 a8 a9 a10 a11 a12 a13 a14 a15 a16 a17 a18 a19 a20 a21 a22 a23 a24 a25 a26 a27 a28), mkPolicy a0 a1 a2 a3 a4 a5 x a7 a8 a9 a10 a11 a12 a13 a14 a15 a16 a17 a18 a19 a20 a21 a22 a23 a24 a25 a26 a27 a28);
  at_key "runtime_root" dec_string po_RuntimeRoot (λ x '(mkPolicy a0 a1 a2 a3 a4 a5 a6 _ a8 a9 a10 a11 a12 a13 a14 a15 a16 a17 a18 a19 a20 a21 a22 a23 a24 a25 a26 a27 a28), mkPolicy a0 a1 a2 a3 a4 a5 a6 x a8 a9 a10 a11 a12 a13 a14 a15 a16 a17 a18 a19 a20 a21 a22 a23 a24 a25 a26 a27 a28);
  at_key "artifacts" (dec_map "" dec_string) po_Artifacts (λ x '(mkPolicy a0 a1 a2 a3 a4 a5 a6 a7 _ a9 a10 a11 a12 a13 a14 a15 a16 a17 a18 a19 a20 a21 a22 a23 a24 a25 a26 a27 a28), mkPolicy a0 a1 a2 a3 a4 a5 a6 a7 x a9 a10 a11 a12 a13 a14 a15 a16 a17 a18 a19 a20 a21 a22 a23 a24 a25 a26 a27 a28);
  at_key "system_executables" (dec_map "" dec_string) po_SystemExecutables (λ x '(mkPolicy a0 a1 a2 a3 a4 a5 a6 a7 a8 _ a10 a11 a12 a13 a14 a15 a16 a17 a18 a19 a20 a21 a22 a23 a24 a25 a26 a27 a28), mkPolicy a0 a1 a2 a3 a4 a5 a6 a7 a8 x a10 a11 a12 a13 a14 a15 a16 a17 a18 a19 a20 a21 a22 a23 a24 a25 a26 a27 a28);
  at_key "workstation_config" dec_string po_WorkstationConfig (λ x '(mkPolicy a0 a1 a2 a3 a4 a5 a6 a7 a8 a9 _ a11 a12 a13 a14 a15 a16 a17 a18 a19 a20 a21 a22 a23 a24 a25 a26 a27 a28), mkPolicy a0 a1 a2 a3 a4 a5 a6 a7 a8 a9 x a11 a12 a13 a14 a15 a16 a17 a18 a19 a20 a21 a22 a23 a24 a25 a26 a27 a28);
  at_key "source_path" dec_string po_SourcePath (λ x '(mkPolicy a0 a1 a2 a3 a4 a5 a6 a7 a8 a9 a10 _ a12 a13 a14 a15 a16 a17 a18 a19 a20 a21 a22 a23 a24 a25 a26 a27 a28), mkPolicy a0 a1 a2 a3 a4 a5 a6 a7 a8 a9 a10 x a12 a13 a14 a15 a16 a17 a18 a19 a20 a21 a22 a23 a24 a25 a26 a27 a28);
  at_key "hardware_path" dec_string po_HardwarePath (λ x '(mkPolicy a0 a1 a2 a3 a4 a5 a6 a7 a8 a9 a10 a11 _ a13 a14 a15 a16 a17 a18 a19 a20 a21 a22 a23 a24 a25 a26 a27 a28), mkPolicy a0 a1 a2 a3 a4 a5 a6 a7 a8 a9 a10 a11 x a13 a14 a15 a16 a17 a18 a19 a20 a21 a22 a23 a24 a25 a26 a27 a28);
  at_key "model_root" dec_string po_ModelRoot (λ x '(mkPolicy a0 a1 a2 a3 a4 a5 a6 a7 a8 a9 a10 a11 a12 _ a14 a15 a16 a17 a18 a19 a20 a21 a22 a23 a24 a25 a26 a27 a28), mkPolicy a0 a1 a2 a3 a4 a5 a6 a7 a8 a9 a10 a11 a12 x a14 a15 a16 a17 a18 a19 a20 a21 a22 a23 a24 a25 a26 a27 a28);
  at_key "worker_evidence_dir" dec_string po_WorkerEvidenceDir (λ x '(mkPolicy a0 a1 a2 a3 a4 a5 a6 a7 a8 a9 a10 a11 a12 a13 _ a15 a16 a17 a18 a19 a20 a21 a22 a23 a24 a25 a26 a27 a28), mkPolicy a0 a1 a2 a3 a4 a5 a6 a7 a8 a9 a10 a11 a12 a13 x a15 a16 a17 a18 a19 a20 a21 a22 a23 a24 a25 a26 a27 a28);
  at_key "kubeconfig" dec_string po_Kubeconfig (λ x '(mkPolicy a0 a1 a2 a3 a4 a5 a6 a7 a8 a9 a10 a11 a12 a13 a14 _ a16 a17 a18 a19 a20 a21 a22 a23 a24 a25 a26 a27 a28), mkPolicy a0 a1 a2 a3 a4 a5 a6 a7 a8 a9 a10 a11 a12 a13 a14 x a16 a17 a18 a19 a20 a21 a22 a23 a24 a25 a26 a27 a28);
  at_key "kubectl" dec_string po_Kubectl (λ x '(mkPolicy a0 a1 a2 a3 a4 a5 a6 a7 a8 a9 a10 a11 a12 a13 a14 a15 _ a17 a18 a19 a20 a21 a22 a23 a24 a25 a26 a27 a28), mkPolicy a0 a1 a2 a3 a4 a5 a6 a7 a8 a9 a10 a11 a12 a13 a14 a15 x a17 a18 a19 a20 a21 a22 a23 a24 a25 a26 a27 a28);
  at_key "context" dec_string po_Context (λ x '(mkPolicy a0 a1 a2 a3 a4 a5 a6 a7 a8 a9 a10 a11 a12 a13 a14 a15 a16 _ a18 a19 a20 a21 a22 a23 a24 a25 a26 a27 a28), mkPolicy a0 a1 a2 a3 a4 a5 a6 a7 a8 a9 a10 a11 a12 a13 a14 a15 a16 x a18 a19 a20 a21 a22 a23 a24 a25 a26 a27 a28);
  at_key "target" dec_string po_Target (λ x '(mkPolicy a0 a1 a2 a3 a4 a5 a6 a7 a8 a9 a10 a11 a12 a13 a14 a15 a16 a17 _ a19 a20 a21 a22 a23 a24 a25 a26 a27 a28), mkPolicy a0 a1 a2 a3 a4 a5 a6 a7 a8 a9 a10 a11 a12 a13 a14 a15 a16 a17 x a19 a20 a21 a22 a23 a24 a25 a26 a27 a28);
  at_key "environment" dec_string po_Environment (λ x '(mkPolicy a0 a1 a2 a3 a4 a5 a6 a7 a8 a9 a10 a11 a12 a13 a14 a15 a16 a17 a18 _ a20 a21 a22 a23 a24 a25 a26 a27 a28), mkPolicy a0 a1 a2 a3 a4 a5 a6 a7 a8 a9 a10 a11 a12 a13 a14 a15 a16 a17 a18 x a20 a21 a22 a23 a24 a25 a26 a27 a28);
  at_key "namespace" dec_string po_Namespace (λ x '(mkPolicy a0 a1 a2 a3 a4 a5 a6 a7 a8 a9 a10 a11 a12 a13 a14 a15 a16 a17 a18 a19 _ a21 a22 a23 a24 a25 a26 a27 a28), mkPolicy a0 a1 a2 a3 a4 a5 a6 a7 a8 a9 a10 a11 a12 a13 a14 a15 a16 a17 a18 a19 x a21 a22 a23 a24 a25 a26 a27 a28);
  at_key "ai_deployment" dec_string po_AIDeployment (λ x '(mkPolicy a0 a1 a2 a3 a4 a5 a6 a7 a8 a9 a10 a11 a12 a13 a14 a15 a16 a17 a18 a19 a20 _ a22 a23 a24 a25 a26 a27 a28), mkPolicy a0 a1 a2 a3 a4 a5 a6 a7 a8 a9 a10 a11 a12 a13 a14 a15 a16 a17 a18 a19 a20 x a22 a23 a24 a25 a26 a27 a28);
  at_key "ai_deployment_uid" dec_string po_AIDeploymentUID (λ x '(mkPolicy a0 a1 a2 a3 a4 a5 a6 a7 a8 a9 a10 a11 a12 a13 a14 a15 a16 a17 a18 a19 a20 a21 _ a23 a24 a25 a26 a27 a28), mkPolicy a0 a1 a2 a3 a4 a5 a6 a7 a8 a9 a10 a11 a12 a13 a14 a15 a16 a17 a18 a19 a20 a21 x a23 a24 a25 a26 a27 a28);
  at_key "game_deployment" dec_string po_GameDeployment (λ x '(mkPolicy a0 a1 a2 a3 a4 a5 a6 a7 a8 a9 a10 a11 a12 a13 a14 a15 a16 a17 a18 a19 a20 a21 a22 _ a24 a25 a26 a27 a28), mkPolicy a0 a1 a2 a3 a4 a5 a6 a7 a8 a9 a10 a11 a12 a13 a14 a15 a16 a17 a18 a19 a20 a21 a22 x a24 a25 a26 a27 a28);
  at_key "game_deployment_uid" dec_string po_GameDeploymentUID (λ x '(mkPolicy a0 a1 a2 a3 a4 a5 a6 a7 a8 a9 a10 a11 a12 a13 a14 a15 a16 a17 a18 a19 a20 a21 a22 a23 _ a25 a26 a27 a28), mkPolicy a0 a1 a2 a3 a4 a5 a6 a7 a8 a9 a10 a11 a12 a13 a14 a15 a16 a17 a18 a19 a20 a21 a22 a23 x a25 a26 a27 a28);
  at_key "timeout_seconds" dec_int po_TimeoutSeconds (λ x '(mkPolicy a0 a1 a2 a3 a4 a5 a6 a7 a8 a9 a10 a11 a12 a13 a14 a15 a16 a17 a18 a19 a20 a21 a22 a23 a24 _ a26 a27 a28), mkPolicy a0 a1 a2 a3 a4 a5 a6 a7 a8 a9 a10 a11 a12 a13 a14 a15 a16 a17 a18 a19 a20 a21 a22 a23 a24 x a26 a27 a28);
  at_key "qualified_configurations" (dec_map Qualification0 dec_Qualification) po_QualifiedConfigurations (λ x '(mkPolicy a0 a1 a2 a3 a4 a5 a6 a7 a8 a9 a10 a11 a12 a13 a14 a15 a16 a17 a18 a19 a20 a21 a22 a23 a24 a25 _ a27 a28), mkPolicy a0 a1 a2 a3 a4 a5 a6 a7 a8 a9 a10 a11 a12 a13 a14 a15 a16 a17 a18 a19 a20 a21 a22 a23 a24 a25 x a27 a28);
  at_key "session_qualifications" (dec_map SessionQualification0 dec_SessionQualification) po_SessionQualifications (λ x '(mkPolicy a0 a1 a2 a3 a4 a5 a6 a7 a8 a9 a10 a11 a12 a13 a14 a15 a16 a17 a18 a19 a20 a21 a22 a23 a24 a25 a26 _ a28), mkPolicy a0 a1 a2 a3 a4 a5 a6 a7 a8 a9 a10 a11 a12 a13 a14 a15 a16 a17 a18 a19 a20 a21 a22 a23 a24 a25 a26 x a28);
  at_key "max_records" dec_int po_MaxRecords (λ x '(mkPolicy a0 a1 a2 a3 a4 a5 a6 a7 a8 a9 a10 a11 a12 a13 a14 a15 a16 a17 a18 a19 a20 a21 a22 a23 a24 a25 a26 a27 _), mkPolicy a0 a1 a2 a3 a4 a5 a6 a7 a8 a9 a10 a11 a12 a13 a14 a15 a16 a17 a18 a19 a20 a21 a22 a23 a24 a25 a26 a27 x)].

(** At most [n] bytes of a text. *)
Fixpoint take_bytes (n : Z) (s : string) : string :=
  match s with String c t => if n <=? 0 then "" else String c (take_bytes (n - 1) t) | EmptyString => "" end.
(** [strictDecode] of the documents a text holds. *)
Definition strictDecode {A} (dec : decoder A) (zero : A) (docs : option (list JSON)) : result A :=
  match docs with
  | Some (v :: rest) =>
    match dec v zero with
    | None => Err (Plain "invalid JSON or unknown field")
    | Some a => reject negb (Nat.eqb (length rest) 0) with Plain "trailing JSON" ;; Ok a
    end
  | _ => Err (Plain "invalid JSON")
  end.
Definition LoadPolicy `{JSONText} (Sum : string → string) (d : Disk) (linux_root : bool) (path : string) : result Policy :=
  reject negb linux_root with Plain "live host executor requires Linux and root" ;;
  _ ← trustedPath d path false;
  text ← ReadFile d path;
  match strictDecode dec_Policy Policy0 (json_docs (take_bytes (2^20) text)) with
  | Err _ => Err (Plain "invalid executor policy")
  | Ok p =>
    _ ← policy_validate p;
    _ ← verifyRuntime Sum d p;
    Ok p
  end.
End PolicyText.
