(* ===== verification/Trust.v ===== *)
(** What an accepted root policy has established about the disk: nothing that the helper
    reads or runs can be replaced by anyone but root, and what is installed is what was
    reviewed ([Provenance]). *)
From S2P Require Import Prelude FileTree Json Types Config Wire Evidence HostPolicy Provenance.
From stdpp Require Import sorting.
#[local] Open Scope Z_scope.

(** ** Paths *)

Abbreviation plain l := (Forall (λ n, plain_name n = true) l).

Lemma filter_plain l : plain l → List.filter (λ w, w <>s "") l = l.
Proof.
  induction l as [|n l IH]; intros Hl; [done|]. apply Forall_cons in Hl as [Hn Hl]. simpl. pose proof (plain_name_ne n Hn) as (Hne & _ & _).
  destruct (String.eqb_spec n ""); [done|]. simpl. by rewrite IH.
Qed.
Lemma components_root l : plain l → components ("/" +:+ join_path l) = l.
Proof.
  intros Hl. unfold components. change ("/" +:+ join_path l) with (String "/" (join_path l)).
  change (split_on "/"%char (String "/" (join_path l))) with ("" :: parts (join_path l)).
  destruct (decide (l = [])) as [->|Hne]; [done|]. rewrite parts_join by done. simpl. by apply filter_plain.
Qed.
Lemma components_path l : plain l → components (path_of l) = l.
Proof. apply components_root. Qed.
Lemma plain_split n : n ≠ "" → n ≠ "." → n ≠ ".." → no_slash n = true → plain_name n = true.
Proof.
  intros H1 H2 H3 Hs. unfold plain_name, str_in. apply andb_true_intro. split; [|exact Hs]. simpl.
  destruct (String.eqb_spec n ""), (String.eqb_spec n "."), (String.eqb_spec n ".."); done.
Qed.
Lemma rooted_push l : ∀ st, plain st → Forall (λ n, no_slash n = true) l → plain (fold_left (clean_push true) l st).
Proof.
  induction l as [|x l IH]; intros st Hst Hl; [done|]. apply Forall_cons in Hl as [Hx Hl]. simpl. apply IH; [|done]. unfold clean_push.
  destruct (String.eqb_spec x ""); [done|]. destruct (String.eqb_spec x "."); [done|]. simpl. destruct (String.eqb_spec x "..").
  - destruct st as [|y st]; [done|]. apply Forall_cons in Hst as [Hy Hst]. pose proof (plain_name_ne y Hy) as (_ & _ & Hyd). destruct (String.eqb_spec y ".."); done.
  - constructor; [by apply plain_split|done].
Qed.
(** An absolute cleaned path is the one of its components, which are plain names. *)
Lemma clean_absolute p : is_abs p = true → clean p = p → plain (components p) ∧ p = path_of (components p).
Proof.
  unfold is_abs, clean. intros Ha Hc. rewrite Ha in Hc. set (st := fold_left (clean_push true) (split_on "/"%char p) []) in *.
  assert (plain (rev st)) as Hst by (apply Forall_rev, rooted_push; [constructor|apply parts_no_slash]).
  rewrite <- Hc. change (String.concat "/" (rev st)) with (join_path (rev st)). rewrite components_root by done. done.
Qed.

Section Trust.
Context (Sum : string → string) (d : Disk).
#[local] Abbreviation entry l := (dk_entries d !! l).

(** ** Walking *)

Lemma disk_resolve_nil follow links cur : resolve d follow links cur [] = Ok cur.
Proof. by destruct links. Qed.
Lemma disk_resolve_cons follow links cur x rest : resolve d follow links cur (x :: rest) =
  if x =s "." then resolve d follow links cur rest else if x =s ".." then resolve d follow links (removelast cur) rest else
  match entry (cur ++ [x]) with
  | None => Err ErrAbsent
  | Some (EDir _ _) => resolve d follow links (cur ++ [x]) rest
  | Some (ELink _ target) =>
    if negb follow && match rest with [] => true | _ => false end then Ok (cur ++ [x])
    else match links with O => Err ErrLoop | S links => resolve d follow links (if is_abs target then [] else cur) (components target ++ rest) end
  | Some _ => match rest with [] => Ok (cur ++ [x]) | _ => Err ErrNotDir end
  end.
Proof. by destruct links. Qed.
Lemma disk_resolve_plain follow links cur x rest : plain_name x = true → resolve d follow links cur (x :: rest) =
  match entry (cur ++ [x]) with
  | None => Err ErrAbsent
  | Some (EDir _ _) => resolve d follow links (cur ++ [x]) rest
  | Some (ELink _ target) =>
    if negb follow && match rest with [] => true | _ => false end then Ok (cur ++ [x])
    else match links with O => Err ErrLoop | S links => resolve d follow links (if is_abs target then [] else cur) (components target ++ rest) end
  | Some _ => match rest with [] => Ok (cur ++ [x]) | _ => Err ErrNotDir end
  end.
Proof.
  intros (_ & Hd & Hdd)%plain_name_ne. rewrite disk_resolve_cons. by destruct (String.eqb_spec x "."), (String.eqb_spec x "..").
Qed.
(** Directories on the way are walked as they are named. *)
Lemma resolve_dirs follow links l1 : ∀ cur l2, plain l1 →
  (∀ k, (0 < k ≤ length l1)%nat → ∃ e, entry (cur ++ take k l1) = Some e ∧ is_dir e = true) →
  resolve d follow links cur (l1 ++ l2) = resolve d follow links (cur ++ l1) l2.
Proof.
  induction l1 as [|x l1 IH]; intros cur l2 Hl Hd; [by rewrite app_nil_r|]. apply Forall_cons in Hl as [Hx Hl]. cbn [app]. rewrite disk_resolve_plain by done.
  destruct (Hd 1%nat) as (e & He & Hdir); [cbn; lia|]. cbn [take] in He. rewrite take_0 in He. rewrite He. destruct e; try done.
  rewrite IH; [by rewrite <- app_assoc|done|]. intros k Hk. destruct (Hd (S k)) as (e & He' & Hdir'); [cbn; lia|]. exists e. by rewrite <- app_assoc.
Qed.

(** ** Trusted paths *)

(** Owned by root, not a link, and not writable by group or others. *)
Definition untouchable (e : Entry) : Prop :=
  entry_uid e = 0 ∧ is_link e = false ∧ Z.testbit (entry_mode e) 4 = false ∧ Z.testbit (entry_mode e) 1 = false.
(** So is every step of a path, and all but the last are directories. *)
Definition secured (l : list string) : Prop := ∀ k, (k ≤ length l)%nat →
  ∃ e, entry (take k l) = Some e ∧ untouchable e ∧ ((0 < k < length l)%nat → is_dir e = true).

Lemma trusted_untouchable e : trusted_entry e = true → untouchable e.
Proof.
  unfold trusted_entry. intros Ht. bool_hyps. split_and!; try done.
  - assert (Z.testbit (Z.land (Z.land (entry_mode e) 511) 18) 4 = false) as Hb by (by rewrite H0). rewrite !Z.land_spec in Hb. by destruct (Z.testbit (entry_mode e) 4).
  - assert (Z.testbit (Z.land (Z.land (entry_mode e) 511) 18) 1 = false) as Hb by (by rewrite H0). rewrite !Z.land_spec in Hb. by destruct (Z.testbit (entry_mode e) 1).
Qed.
Lemma secured_snoc l x e : secured l → (l ≠ [] → ∃ e', entry l = Some e' ∧ is_dir e' = true) → entry (l ++ [x]) = Some e → untouchable e → secured (l ++ [x]).
Proof.
  intros Hs Hl He Hu k Hk. rewrite length_app in *. cbn [length] in *. destruct (decide (k = length l + 1)%nat) as [->|].
  - exists e. rewrite firstn_all2 by (rewrite length_app; cbn; lia). split_and!; try done. lia.
  - rewrite take_app_le by lia. destruct (Hs k) as (e' & He' & Hu' & Hd); [lia|]. exists e'. split_and!; try done. intros Hk'.
    destruct (decide (k = length l)) as [->|]; [|apply Hd; lia]. rewrite firstn_all in He'. destruct Hl as (e2 & He2 & Hd2); [by intros ->; cbn in *; lia|]. congruence.
Qed.
Lemma secured_dirs l : secured l → (l ≠ [] → ∃ e', entry l = Some e' ∧ is_dir e' = true) → ∀ k, (0 < k ≤ length l)%nat → ∃ e, entry ([] ++ take k l) = Some e ∧ is_dir e = true.
Proof.
  intros Hs Hl k Hk. cbn [app]. destruct (decide (k = length l)) as [->|].
  - rewrite firstn_all. apply Hl. by intros ->; cbn in *; lia.
  - destruct (Hs k) as (e & He & _ & Hd); [lia|]. exists e. split; [done|]. apply Hd. lia.
Qed.
(** Such a path leads to what it names, links followed or not. *)
Lemma secured_resolve follow links l : plain l → secured l → resolve d follow links [] l = Ok l.
Proof.
  intros Hl Hs. destruct l as [|x l _] using rev_ind; [apply disk_resolve_nil|]. apply Forall_app in Hl as [Hl Hx]. apply Forall_cons in Hx as [Hx _].
  rewrite resolve_dirs; [|done|].
  - cbn [app]. rewrite disk_resolve_plain by done. destruct (Hs (length (l ++ [x]))) as (e & He & Hu & _); [done|]. rewrite firstn_all in He. rewrite He.
    destruct e; [apply disk_resolve_nil|done| |done]. by destruct Hu as (_ & [=] & _).
  - intros k Hk. destruct (Hs k) as (e & He & _ & Hd); [rewrite length_app; cbn; lia|]. rewrite take_app_le in He by lia. exists e. split; [done|].
    apply Hd. rewrite length_app. cbn. lia.
Qed.
Lemma secured_named follow l e : plain l → secured l → entry l = Some e → named d follow l = Ok (l, e).
Proof. intros Hl Hs He. unfold named. rewrite secured_resolve by done. cbn. by rewrite He. Qed.
Definition of_type (directory : option bool) (e : Entry) : Prop :=
  match directory with Some true => is_dir e = true | Some false => is_regular e = true | None => True end.
Lemma climb_secured up : ∀ directory, plain (rev up) → climb d directory up = Ok tt → secured (rev up) ∧ ∃ e, entry (rev up) = Some e ∧ of_type directory e.
Proof.
  induction up as [|x up IH]; intros directory Hl; cbn [climb]; intros Hc; apply bind_ok in Hc as (e & He & Hc);
    destruct (negb (trusted_entry e)) eqn:Ht; try discriminate Hc; bool_hyps; apply trusted_untouchable in Ht;
    (match type of Hc with (if ?b then _ else _) = _ => destruct b eqn:Hty end; [discriminate Hc|]);
    assert (of_type directory e) as Hof by (destruct directory as [[]|]; cbn in *; bool_hyps; done).
  - unfold Lstat, named in He. rewrite disk_resolve_nil in He. cbn in He. destruct (entry []) as [e'|] eqn:H0; [|done]. injection He as ->. split; [|by exists e].
    intros k Hk. cbn in Hk. exists e. assert (k = 0)%nat as -> by lia. cbn. split_and!; try done. lia.
  - cbn [rev] in *. apply Forall_app in Hl as [Hl Hx]. apply Forall_cons in Hx as [Hx _]. destruct (IH None Hl Hc) as (Hs & e' & He' & _).
    unfold Lstat in He. apply bind_ok in He as ([q e0] & Hn & He). injection He as ->. unfold named in Hn. apply bind_ok in Hn as (q' & Hr & Hn).
    assert (rev up ≠ [] → is_dir e' = true) as Hdir.
    { intros Hne. destruct (is_dir e') eqn:Hd; [done|]. exfalso. destruct (rev up) as [|y l _] eqn:E using rev_ind; [done|].
      apply Forall_app in Hl as [Hl Hy]. apply Forall_cons in Hy as [Hy _]. rewrite <- app_assoc in Hr. rewrite resolve_dirs in Hr; [|done|].
      - cbn [app] in Hr. rewrite disk_resolve_plain in Hr by done. rewrite He' in Hr. destruct e'; try done.
        destruct (Hs (length (l ++ [y]))) as (e2 & He2 & (_ & Hlink & _) & _); [done|]. rewrite firstn_all, He' in He2. by injection He2 as <-.
      - intros k Hk. destruct (Hs k) as (e2 & He2 & _ & Hd2); [rewrite length_app; cbn; lia|]. rewrite take_app_le in He2 by lia. exists e2. split; [done|].
        apply Hd2. rewrite length_app. cbn. lia. }
    rewrite resolve_dirs in Hr; [|done|apply secured_dirs; [done|]; intros Hne; exists e'; auto].
    cbn [app] in Hr. rewrite disk_resolve_plain in Hr by done.
    assert (entry (rev up ++ [x]) = Some e) as Hent.
    { destruct (entry (rev up ++ [x])) as [e2|] eqn:E; [|done].
      assert (q' = rev up ++ [x]) as -> by (destruct e2; cbn in Hr; by injection Hr).
      rewrite E in Hn. by injection Hn as _ ->. }
    split; [|by exists e]. eapply secured_snoc; try done. intros Hne. exists e'. auto.
Qed.
(** What [trustedPath] establishes. *)
Lemma trustedPath_secured path directory : trustedPath d path directory = Ok tt →
  plain (components path) ∧ path = path_of (components path) ∧ secured (components path) ∧
  ∃ e, entry (components path) = Some e ∧ of_type (Some directory) e.
Proof.
  unfold trustedPath. destruct (_ || _) eqn:Hc; [done|]. bool_hyps. destruct (clean_absolute path) as [Hp Hq]; [done..|].
  intros [Hs He]%climb_secured; rewrite rev_involutive in *; [|done]. done.
Qed.

(** ** Contents *)

(** The names on a disk are names. *)
Definition named_disk : Prop := ∀ l e, entry l = Some e → plain l.
Lemma fileHash_content path h e : plain (components path) → secured (components path) → entry (components path) = Some e →
  fileHash Sum d path = Ok h → ∃ u m c, e = EFile u m c ∧ h = Sum c.
Proof.
  intros Hp Hs He. unfold fileHash, ReadFile. intros (b & Hb & [= <-])%bind_ok. apply bind_ok in Hb as ([q e'] & Hn & Hb).
  rewrite (secured_named true _ e) in Hn by done. injection Hn as <- <-. destruct (dk_broken d _); [done|]. destruct e as [|u m c| |]; try done. injection Hb as <-. by exists u, m, c.
Qed.
Lemma components_relative root rel : plain rel → components (relative_path root rel) = components root ++ rel.
Proof.
  intros Hr. unfold relative_path. destruct rel as [|n rel]; [by rewrite app_nil_r|].
  change (String.concat "/" (root :: n :: rel)) with (root +:+ "/" +:+ join_path (n :: rel)). unfold components.
  change (split_on "/"%char (root +:+ "/" +:+ join_path (n :: rel))) with (parts (root +:+ "/" +:+ join_path (n :: rel))).
  rewrite parts_app, parts_join by done. rewrite List.filter_app. f_equal. by apply filter_plain.
Qed.
Lemma elem_of_disk_below q rel e : (rel, e) ∈ below d q ↔ entry (q ++ rel) = Some e.
Proof.
  unfold below. rewrite list_elem_of_omap. split.
  - intros (l & _ & Hl). destruct (entry (q ++ l)) as [e'|] eqn:He; [|done]. cbn in Hl. by injection Hl as <- <-.
  - intros He. exists rel. rewrite He. split; [|done]. rewrite merge_sort_Permutation. apply list_elem_of_omap. exists (q ++ rel, e). split; [by apply elem_of_map_to_list|].
    cbn [fst]. rewrite take_app_length, drop_app_length. by rewrite bool_decide_eq_true_2.
Qed.

(** ** The runtime *)

Section Runtime.
Context (p : Policy).
(** A reviewed file of the runtime. *)
Definition reviewed (rel : list string) (e : Entry) : Prop :=
  ∃ u m c, e = EFile u m c ∧ po_Artifacts p !! slash_path rel = Some (Sum c) ∧ fileHash Sum d (relative_path (po_RuntimeRoot p) rel) = Ok (Sum c).
Lemma verify_file_ok q rel e seen seen' : named_disk → q = components (po_RuntimeRoot p) → entry (q ++ rel) = Some e → verify_file Sum d p rel e seen = Ok seen' →
  untouchable e ∧ ((is_dir e = true ∧ seen' = seen) ∨ (reviewed rel e ∧ seen' = {[slash_path rel]} ∪ seen)).
Proof.
  intros Hn -> He. unfold verify_file. intros (? & Ht & Hv)%bind_ok. destruct x. apply trustedPath_secured in Ht as (Hp & _ & Hs & e' & He' & Hty).
  assert (plain rel) as Hrel by (apply Hn, Forall_app in He as [_ ?]; done). rewrite components_relative in * by done.
  rewrite He in He'. injection He' as <-.
  assert (untouchable e) as Hu by (destruct (Hs (length (components (po_RuntimeRoot p) ++ rel))) as (e2 & He2 & Hu & _); [done|]; rewrite firstn_all, He in He2; by injection He2 as <-).
  split; [done|]. destruct (is_dir e) eqn:Hd; [left; by injection Hv as ->|]. right. destruct (po_Artifacts p !! slash_path rel) as [want|] eqn:Hw; [|done].
  apply bind_ok in Hv as (got & Hg & Hv). destruct (String.eqb_spec want got) as [<-|]; [|done]. injection Hv as <-. split; [|done].
  destruct (fileHash_content (relative_path (po_RuntimeRoot p) rel) want e) as (u & m & c & -> & ->); rewrite ?components_relative by done; try done. by exists u, m, c.
Qed.
Lemma verify_walk q l : named_disk → q = components (po_RuntimeRoot p) → (∀ rel e, (rel, e) ∈ l → entry (q ++ rel) = Some e) → ∀ seen seen' m,
  walk_entries d (verify_file Sum d p) q l seen = Ok seen' → dom m = seen → m ⊆ po_Artifacts p →
  (∀ rel e, (rel, e) ∈ l → untouchable e ∧ (is_dir e = true ∨ reviewed rel e)) ∧
  (∀ n, n ∈ seen' → n ∈ seen ∨ ∃ rel e, (rel, e) ∈ l ∧ reviewed rel e ∧ n = slash_path rel) ∧
  ∃ m', walk_entries d (manifest_file Sum d (po_RuntimeRoot p)) q l m = Ok m' ∧ dom m' = seen' ∧ m' ⊆ po_Artifacts p.
Proof.
  intros Hn Hq. induction l as [|[rel e] l IH]; intros Hl seen seen' m; cbn [walk_entries].
  - intros [= <-] Hd Hm. split_and!; [by intros ?? ?%elem_of_nil|by left|by exists m].
  - intros (s1 & Hv & Hw)%bind_ok Hd Hm. pose proof (Hl rel e (list_elem_of_here _ _)) as He. apply (verify_file_ok q) in Hv as [Hu Hv]; [|done..].
    destruct (is_dir e && dk_broken d (q ++ rel)) eqn:Hb; [done|].
    assert (∃ m1, manifest_file Sum d (po_RuntimeRoot p) rel e m = Ok m1 ∧ dom m1 = s1 ∧ m1 ⊆ po_Artifacts p) as (m1 & Hm1 & Hd1 & Hs1).
    { unfold manifest_file. destruct Hu as (_ & -> & _). destruct Hv as [[-> ->]|((u & mo & c & -> & Ha & Hh) & ->)]; [by exists m|]. rewrite Hh. cbn.
      eexists. split; [done|]. split; [by rewrite dom_insert_L, Hd|]. by apply insert_subseteq_l. }
    edestruct (IH (λ r x H, Hl r x (list_elem_of_further _ _ _ H)) _ _ _ Hw Hd1 Hs1) as (Hall & Hseen & m' & Hw' & Hd' & Hs').
    split_and!.
    + intros r x [[= -> ->]|Hi]%elem_of_cons; [|by apply Hall]. split; [done|]. destruct Hv as [[? _]|[? _]]; auto.
    + intros n [Hi|(r & x & Hi & Hx)]%Hseen; [|right; exists r, x; split; [by apply list_elem_of_further|done]].
      destruct Hv as [[_ ->]|[Hr ->]]; [by left|]. apply elem_of_union in Hi as [->%elem_of_singleton|?]; [|by left]. right. exists rel, e. split; [apply list_elem_of_here|done].
    + exists m'. split; [|done]. cbn [walk_entries]. rewrite Hm1. done.
Qed.
End Runtime.

(** ** The system tools *)

Lemma resolve_mono follow n : ∀ n' l cur q, (n ≤ n')%nat → resolve d follow n cur l = Ok q → resolve d follow n' cur l = Ok q.
Proof.
  induction n as [|n IH]; intros n' l; induction l as [|x l IHl]; intros cur q Hle Hr; try (by rewrite disk_resolve_nil in *); rewrite disk_resolve_cons in *;
    destruct (x =s "."); auto; destruct (x =s ".."); auto; destruct (entry (cur ++ [x])) as [[]|]; auto; destruct (_ && _); try done.
  destruct n' as [|n']; [lia|]. apply IH; [lia|done].
Qed.
Lemma required_tools name : name ∈ requiredSystemTools → name ∉ collectorSystemTools.
Proof.
  intros Hr Hc. assert (forallb (λ n, negb (str_in n collectorSystemTools)) requiredSystemTools = true) as Hall by (vm_compute; reflexivity).
  rewrite forallb_forall in Hall. specialize (Hall name (proj1 (list_elem_of_In _ _) Hr)). apply str_in_spec in Hc. by rewrite Hc in Hall.
Qed.
(** An approved tool: what its path leads to, and its hash. *)
Definition approved_tool (expected : gmap string string) (name : string) : Prop :=
  ∃ q u m c, named d true (components (systemToolPath d name)) = Ok (q, EFile u m c) ∧ secured q ∧ plain q ∧ dk_broken d q = false ∧ expected !! name = Some (Sum c).
(** Where a tool may be installed, in the order in which it is looked for. *)
Definition places (name : string) : list string :=
  ("/usr/bin/" +:+ name) :: if decide (name ∈ ["rocminfo"; "rocm-smi"]) then ["/opt/rocm/bin/" +:+ name] else [].
Definition missing (path : string) : Prop := Stat d (components path) = Err ErrAbsent.
(** The first place that has a tool leads, its links resolved, to a file that only root may
    replace and that has the approved hash. *)
Definition tool_reviewed (expected : gmap string string) (name : string) : Prop :=
  ∃ before path after q u m c, places name = before ++ path :: after ∧ (∀ p, p ∈ before → missing p) ∧
    named d true (components path) = Ok (q, EFile u m c) ∧ secured q ∧ expected !! name = Some (Sum c).
Definition not_installed (name : string) : Prop := ∀ path, path ∈ places name → missing path.
Lemma missing_stat path : IsNotExist (Stat d (components path)) = true → missing path.
Proof. unfold IsNotExist, missing. destruct (Stat _ _) as [|e]; [done|]. by intros ->%bool_decide_eq_true_1. Qed.
Lemma tool_place name : ∃ before after, places name = before ++ systemToolPath d name :: after ∧ (∀ p, p ∈ before → missing p) ∧
  (missing (systemToolPath d name) → not_installed name).
Proof.
  unfold places, systemToolPath, not_installed, places. destruct (decide (name ∈ _)) as [Hr|Hr].
  - assert ((name =s "rocminfo") || (name =s "rocm-smi") = true) as ->.
    { by apply elem_of_cons in Hr as [-> | [-> | Hr%elem_of_nil]%elem_of_cons]. }
    destruct (IsNotExist _) eqn:Hm; cbn [andb].
    + apply missing_stat in Hm. exists ["/usr/bin/" +:+ name], []. split_and!; [done|by intros p ->%list_elem_of_singleton|].
      intros Hx p [-> | ->%list_elem_of_singleton]%elem_of_cons; done.
    + exists [], ["/opt/rocm/bin/" +:+ name]. split_and!; [done|by intros p Hp%elem_of_nil|]. unfold missing. intros Hx. by rewrite Hx in Hm.
  - assert ((name =s "rocminfo") || (name =s "rocm-smi") = false) as ->.
    { apply orb_false_iff. split; apply String.eqb_neq; intros ->; apply Hr; [apply list_elem_of_here|apply list_elem_of_further, list_elem_of_here]. }
    exists [], []. split_and!; [done|by intros p Hp%elem_of_nil|]. by intros Hx p ->%list_elem_of_singleton.
Qed.
Lemma approved_reviewed expected name : approved_tool expected name → tool_reviewed expected name.
Proof.
  intros (q & u & m & c & Hq & Hs & _ & _ & He). destruct (tool_place name) as (before & after & Hp & Hb & _).
  by exists before, (systemToolPath d name), after, q, u, m, c.
Qed.
Lemma Stat_named l e : Stat d l = Ok e → ∃ q, named d true l = Ok (q, e).
Proof. unfold Stat. intros ([q e'] & Hn & [= <-])%bind_ok. by exists q. Qed.
Lemma tool_approved expected name : named_disk → verify_tool Sum d expected name = Ok tt →
  (IsNotExist (Stat d (components (systemToolPath d name))) = true ∧ name ∈ collectorSystemTools) ∨
  (IsNotExist (Stat d (components (systemToolPath d name))) = false ∧ approved_tool expected name).
Proof.
  intros Hn. unfold verify_tool. set (path := systemToolPath d name). destruct (_ && _) eqn:Hopt; [bool_hyps; intros _; left; split; [done|by apply str_in_spec]|].
  destruct (Stat d (components path)) as [e|err] eqn:Hst; [|done]. cbv zeta. destruct (negb (str_len (default "" (expected !! name)) =? 64)) eqn:Hlen; [done|].
  apply Stat_named in Hst as [q Hnm]. intros (resolved & Hr & Hv)%bind_ok. right. split; [done|]. apply bind_ok in Hv as ([] & Ht & Hv). apply bind_ok in Hv as (got & Hg & Hv).
  destruct (String.eqb_spec got (default "" (expected !! name))) as [->|]; [|done]. bool_hyps.
  assert (entry q = Some e ∧ resolved = path_of q) as [He ->].
  { unfold named in Hnm. apply bind_ok in Hnm as (q' & Hq & Hnm). destruct (entry q') as [e'|] eqn:He; [|done]. injection Hnm as -> ->. split; [done|].
    unfold EvalSymlinks in Hr. rewrite (resolve_mono true 40 255 _ _ q) in Hr; [by injection Hr|lia|done]. }
  assert (plain q) as Hp by (by eapply Hn). apply trustedPath_secured in Ht as (_ & _ & Hs & _). rewrite components_path in Hs by done.
  pose proof Hg as Hg'. unfold fileHash, ReadFile in Hg'. rewrite components_path in Hg' by done. rewrite (secured_named true q e) in Hg' by done. cbn in Hg'.
  destruct (dk_broken d q) eqn:Hb; [done|]. apply (fileHash_content _ _ e) in Hg as (u & m & c & -> & Hh); rewrite ?components_path by done; try done.
  exists q, u, m, c. split_and!; try done. destruct (expected !! name); [by cbn in Hh; subst|done].
Qed.
Lemma tools_verified expected names : verify_tools Sum d expected names = Ok tt → ∀ name, name ∈ names → verify_tool Sum d expected name = Ok tt.
Proof.
  induction names as [|n names IH]; cbn [verify_tools]; [by intros _ ? ?%elem_of_nil|]. intros ([] & Hv & Hs)%bind_ok name [->|Hi]%elem_of_cons; auto.
Qed.
Lemma system_manifest_ok expected names : named_disk → (∀ name, name ∈ names → verify_tool Sum d expected name = Ok tt) → ∀ m, m ⊆ expected →
  ∃ m', system_manifest Sum d names m = Ok m' ∧ m' ⊆ expected ∧ m ⊆ m' ∧ ∀ name, name ∈ names → name ∈ requiredSystemTools → name ∉ collectorSystemTools → is_Some (m' !! name).
Proof.
  intros Hn. induction names as [|n names IH]; intros Hv m Hm; [exists m; split_and!; try done; by intros ? ?%elem_of_nil|].
  cbn [system_manifest]. destruct (tool_approved expected n Hn (Hv n (list_elem_of_here _ _))) as [[-> Hc]|[-> (q & u & mo & c & Hq & Hs & Hp & Hb & He)]].
  - destruct (IH (λ x H, Hv x (list_elem_of_further _ _ _ H)) m Hm) as (m' & Hr & Hs & Hmm & Hall). exists m'. split_and!; try done.
    intros name [->|Hi]%elem_of_cons; [done|auto].
  - unfold fileHash, ReadFile. rewrite Hq. cbn. rewrite Hb. cbn.
    destruct (IH (λ x H, Hv x (list_elem_of_further _ _ _ H)) (<[n := Sum c]> m)) as (m' & Hr & Hs' & Hmm & Hall); [by apply insert_subseteq_l|].
    exists m'. assert (m' !! n = Some (Sum c)) as Hmn by (eapply lookup_weaken; [apply lookup_insert_eq|done]). split_and!; try done.
    + apply map_subseteq_spec. intros i x Hi. destruct (decide (i = n)) as [->|]; [|eapply lookup_weaken; [by rewrite lookup_insert_ne|done]].
      rewrite Hmn. pose proof (lookup_weaken _ _ _ _ Hi Hm) as Hx. congruence.
    + intros name [->|Hi]%elem_of_cons; [by eexists|auto].
Qed.

(** ** The configuration *)

(** The setting a line of the workstation configuration makes. *)
Definition setting (line : string) : option (string * string) :=
  let line := trim_suffix line (String "013"%char "") in
  if (line =s "") || has_prefix line "#" then None else cut_equals line.
Definition set_by (text k v : string) : Prop := ∃ line, line ∈ split_on newline text ∧ setting line = Some (k, v).
Lemma workstation_settings lines : ∀ m m', workstation_lines lines m = Ok m' →
  ∀ k v, m' !! k = Some v ↔ m !! k = Some v ∨ ∃ line, line ∈ lines ∧ setting line = Some (k, v).
Proof.
  induction lines as [|line lines IH]; intros m m'; cbn [workstation_lines].
  - intros [= <-] k v. split; [by left|]. intros [?|(line & []%elem_of_nil & _)]. done.
  - destruct (_ || _) eqn:Hc.
    + intros Hw k v. rewrite (IH _ _ Hw k v). split; (intros [?|(l & Hl & Hs)]; [by left|right]); [exists l; split; [by apply list_elem_of_further|done]|].
      apply elem_of_cons in Hl as [->|Hl]; [by unfold setting in Hs; rewrite Hc in Hs|by exists l].
    + destruct (cut_equals _) as [[k0 v0]|] eqn:Hcut; [|done]. destruct (m !! k0) as [w|] eqn:Hk0; [done|]. cbn [is_some]. intros Hw k v. rewrite (IH _ _ Hw k v).
      assert (setting line = Some (k0, v0)) as Hset by (unfold setting; by rewrite Hc).
      split; intros [Hi|(l & Hl & Hs)].
      * destruct (decide (k = k0)) as [->|]; [rewrite lookup_insert_eq in Hi|rewrite lookup_insert_ne in Hi by done; by left].
        right. exists line. split; [apply list_elem_of_here|congruence].
      * right. exists l. split; [by apply list_elem_of_further|done].
      * left. rewrite lookup_insert_ne; [done|congruence].
      * apply elem_of_cons in Hl as [->|Hl]; [|right; by exists l]. left. rewrite Hset in Hs. injection Hs as <- <-. apply lookup_insert_eq.
Qed.
Lemma trusted_all paths : trusted_files d paths = Ok tt → ∀ path, path ∈ paths → trustedPath d path false = Ok tt.
Proof. induction paths as [|a paths IH]; cbn [trusted_files]; [by intros _ ? ?%elem_of_nil|]. intros ([] & Ha & Hs)%bind_ok path [->|Hi]%elem_of_cons; auto. Qed.

(** C26: What an accepted policy has established.  Every file of the installed runtime is owned
    by root, writable by nobody else and has the reviewed hash, and every reviewed file is
    there; the same holds of every required system tool, and of every tool of the collectors
    that is installed, at the place it is run from and its links resolved; the paths of the
    runtime and of the four configuration files pass only through directories of root that
    nobody else may write; and each nonempty target of the policy is set to that value, and to
    no other, by the workstation configuration. *)
Theorem verifyRuntime_sound p : named_disk → verifyRuntime Sum d p = Ok tt →
  let root := components (po_RuntimeRoot p) in
  (∀ rel e, entry (root ++ rel) = Some e → untouchable e ∧
     (is_dir e = true ∨ ∃ u m c, e = EFile u m c ∧ po_Artifacts p !! slash_path rel = Some (Sum c))) ∧
  (∀ name h, po_Artifacts p !! name = Some h → ∃ rel u m c, name = slash_path rel ∧ entry (root ++ rel) = Some (EFile u m c) ∧ h = Sum c) ∧
  (∀ path, path ∈ [po_RuntimeRoot p; po_WorkstationConfig p; po_Kubeconfig p; po_Kubectl p; session_policy] → secured (components path)) ∧
  (∀ name, name ∈ requiredSystemTools → tool_reviewed (po_SystemExecutables p) name) ∧
  (∀ name, name ∈ collectorSystemTools → tool_reviewed (po_SystemExecutables p) name ∨ not_installed name) ∧
  ∃ text, ReadFile d (po_WorkstationConfig p) = Ok text ∧ ∀ k want, (k, want) ∈ workstation_target p → want ≠ "" → ∀ v, set_by text k v ↔ v = want.
Proof.
  intros Hn Hv root. unfold verifyRuntime in Hv. apply bind_ok in Hv as ([] & Hsys & Hv). apply bind_ok in Hv as ([] & Hroot & Hv).
  apply bind_ok in Hv as (seen & Hwalk & Hv). destruct (negb (Nat.eqb (size seen) (size (po_Artifacts p)))) eqn:Hsize; [done|]. bool_hyps. apply Nat.eqb_eq in Hsize.
  apply bind_ok in Hv as ([] & Hfiles & Hv). apply bind_ok in Hv as (text & Htext & Hv). apply bind_ok in Hv as (configured & Hconf & Hv).
  destruct (negb (forallb _ (workstation_target p))) eqn:Htarget; [done|]. clear Hv. bool_hyps.
  apply trustedPath_secured in Hroot as (Hp & _ & Hs & e & He & Hdir). cbn in Hdir. fold root in Hp, Hs, He.
  unfold WalkDir in Hwalk. fold root in Hwalk. rewrite (secured_named false root e) in Hwalk by done. cbn [mbind result_bind] in Hwalk. rewrite Hdir in Hwalk.
  destruct (verify_walk p root (below d root) Hn eq_refl (λ rel e, proj1 (elem_of_disk_below root rel e)) ∅ seen ∅ Hwalk) as (Hall & Hseen & m' & _ & Hd' & Hs'); [by rewrite dom_empty_L|apply map_empty_subseteq|].
  assert (m' = po_Artifacts p) as ->.
  { apply map_subseteq_size_eq; [done|]. rewrite <- Hsize, <- Hd', size_dom. lia. }
  split_and!.
  - intros rel x Hx. destruct (Hall rel x) as [Hu Hr]; [by apply elem_of_disk_below|]. split; [done|]. destruct Hr as [?|(u & m & c & -> & Ha & _)]; [by left|right; by exists u, m, c].
  - intros name h Ha. assert (name ∈ seen) as Hi by (rewrite <- Hd'; by apply elem_of_dom_2 in Ha).
    apply Hseen in Hi as [[]%elem_of_empty|(rel & x & Hi & (u & m & c & -> & Ha' & _) & ->)]. exists rel, u, m, c. apply elem_of_disk_below in Hi. split_and!; congruence.
  - intros path [->|Hi]%elem_of_cons; [done|]. by apply (trusted_all _ Hfiles), trustedPath_secured in Hi as (_ & _ & ? & _).
  - intros name Hi. destruct (tool_approved (po_SystemExecutables p) name Hn) as [[_ Hc]|[_ ?]]; [|exfalso|by apply approved_reviewed].
    + apply (tools_verified _ _ Hsys). apply elem_of_app. by left.
    + by eapply required_tools.
  - intros name Hi. destruct (tool_approved (po_SystemExecutables p) name Hn) as [[Hm _]|[_ ?]]; [|right|left; by apply approved_reviewed].
    + apply (tools_verified _ _ Hsys). apply elem_of_app. by right.
    + destruct (tool_place name) as (_ & _ & _ & _ & Hni). by apply Hni, missing_stat.
  - exists text. split; [done|]. intros k want Hi Hne v. rewrite forallb_forall in Htarget. specialize (Htarget (k, want) (proj1 (list_elem_of_In _ _) Hi)). cbn in Htarget. bool_hyps.
    pose proof (workstation_settings _ _ _ Hconf k) as Hw. unfold set_by. destruct (configured !! k) as [w|] eqn:Hk; cbn in Htarget; [|congruence]. subst w.
    split; [|intros ->].
    + intros Hset. assert (Some want = Some v) as [=] by (apply Hw; by right). done.
    + destruct (proj1 (Hw want) eq_refl) as [Hx|Hx]; [by rewrite lookup_empty in Hx|done].
Qed.

(** The tools with which the owner prepares a policy and the check of the policy agree: on
    a disk that is accepted, the manifest of the runtime root is exactly the reviewed one, and
    the manifest of the system tools is a part of the approved one that names every required
    tool. *)
Theorem manifests_agree p : named_disk → verifyRuntime Sum d p = Ok tt →
  ArtifactManifest Sum d (po_RuntimeRoot p) = Ok (po_Artifacts p) ∧
  ∃ m, SystemManifest Sum d = Ok m ∧ m ⊆ po_SystemExecutables p ∧ ∀ name, name ∈ requiredSystemTools → is_Some (m !! name).
Proof.
  intros Hn Hv. unfold verifyRuntime in Hv. apply bind_ok in Hv as ([] & Hsys & Hv). apply bind_ok in Hv as ([] & Hroot & Hv).
  apply bind_ok in Hv as (seen & Hwalk & Hv). destruct (negb (Nat.eqb (size seen) (size (po_Artifacts p)))) eqn:Hsize; [done|]. clear Hv. bool_hyps. apply Nat.eqb_eq in Hsize.
  apply trustedPath_secured in Hroot as (Hp & _ & Hs & e & He & Hdir). cbn in Hdir. split.
  - unfold ArtifactManifest, WalkDir in *. rewrite (secured_named false _ e) in * by done. cbn [mbind result_bind] in *. rewrite Hdir in *.
    edestruct (verify_walk p _ _ Hn eq_refl (λ rel e, proj1 (elem_of_disk_below _ rel e)) ∅ seen ∅ Hwalk) as (_ & _ & m' & Hm' & Hd' & Hs'); [by rewrite dom_empty_L|apply map_empty_subseteq|].
    rewrite Hm'. f_equal. apply map_subseteq_size_eq; [done|]. rewrite <- Hsize, <- Hd', size_dom. lia.
  - destruct (system_manifest_ok (po_SystemExecutables p) system_tools Hn (tools_verified _ _ Hsys) ∅) as (m & Hm & Hsub & _ & Hall); [apply map_empty_subseteq|].
    exists m. split_and!; [done..|]. intros name Hi. apply Hall; [apply elem_of_app; by left|done|by apply required_tools].
Qed.
End Trust.

(** ** A disk *)

Module TrustFixture.
(** A digest of the right length. *)
Definition Sum (c : string) : string := String.substring 0 64 (c +:+ "0000000000000000000000000000000000000000000000000000000000000000").
Definition artifacts : list string := ["bin/workstationctl"; "lib/common.sh"; "versions.lock"].
Definition directories : list (list string) := [[]; ["usr"]; ["usr"; "bin"]; ["opt"]; ["opt"; "rocm"]; ["opt"; "rocm"; "bin"]; ["opt"; "r"]; ["opt"; "r"; "bin"]; ["opt"; "r"; "lib"]; ["etc"]; ["etc"; "workstation"]].
Definition file (path content : string) : list string * Entry := (components path, EFile 0 420 content).
Definition workstation : string := "# the target
SESSION_CONTEXT=ctx
SESSION_NODE=ws
SESSION_NAMESPACE=ns
SESSION_ENVIRONMENT=dev
SESSION_AI_DEPLOYMENT=ai
SESSION_GAME_DEPLOYMENT=game".
Definition session : string := "SESSION_STATE_DIRECTORY=/var/lib/s
SESSION_KUBECONFIG=/etc/workstation/kube".
Definition files : list (list string * Entry) :=
  ((λ name, file ("/usr/bin/" +:+ name) name) <$> "python3" :: requiredSystemTools) ++ [file "/opt/rocm/bin/rocminfo" "rocminfo"] ++ ((λ name, file ("/opt/r/" +:+ name) name) <$> artifacts)
  ++ [file "/etc/workstation/c" workstation; file "/etc/workstation/kube" "users: []"; file session_policy session].
Definition disk : Disk := mkDisk (list_to_map (((λ l, (l, EDir 0 493)) <$> directories) ++ files)) (λ _, false).
Definition hashes (names : list string) : gmap string string := list_to_map ((λ n, (n, Sum n)) <$> names).
Definition policy : Policy := mkPolicy ∅ ∅ 1 1000 "/run/s" "/var/lib/h" "/var/lib/s" "/opt/r" (hashes artifacts) (hashes ("python3" :: "rocminfo" :: requiredSystemTools))
  "/etc/workstation/c" "/src" "/hw" "/models" "" "/etc/workstation/kube" "/usr/bin/kubectl" "ctx" "ws" "dev" "ns" "ai" "u1" "game" "u2" 60 ∅ ∅ 16.
End TrustFixture.
Import TrustFixture.
Lemma policy_accepted : verifyRuntime Sum disk policy = Ok tt.
Proof. vm_compute. reflexivity. Qed.
Lemma disk_named : named_disk disk.
Proof.
  assert (forallb (λ kv : list string * Entry, forallb plain_name kv.1) (map_to_list (dk_entries disk)) = true) as Hall by (vm_compute; reflexivity).
  intros l e He. rewrite forallb_forall in Hall. specialize (Hall (l, e) (proj1 (list_elem_of_In _ _) (proj2 (elem_of_map_to_list _ _ _) He))).
  cbn [fst] in Hall. rewrite forallb_forall in Hall. apply Forall_forall. intros n Hi. by apply Hall, list_elem_of_In.
Qed.
Lemma verifyRuntime_sound_witness : verifyRuntime Sum disk policy = Ok tt ∧
  (∀ rel e, dk_entries disk !! (["opt"; "r"] ++ rel) = Some e → untouchable e) ∧ secured disk ["etc"; "workstation"; "kube"] ∧
  tool_reviewed Sum disk (po_SystemExecutables policy) "rocminfo".
Proof.
  pose proof (verifyRuntime_sound Sum disk policy disk_named policy_accepted) as (Hall & _ & Hs & _ & Ht & _). split; [exact policy_accepted|]. split_and!.
  - intros rel e He. exact (proj1 (Hall rel e He)).
  - apply (Hs "/etc/workstation/kube"). apply list_elem_of_further, list_elem_of_further, list_elem_of_here.
  - destruct (Ht "rocminfo") as [Hr|Hm]; [|exact Hr|].
    + apply str_in_spec. vm_compute. reflexivity.
    + exfalso. assert (IsNotExist (Stat disk (components "/opt/rocm/bin/rocminfo")) = true) as Ha.
      { rewrite (Hm "/opt/rocm/bin/rocminfo"); [reflexivity|]. apply list_elem_of_further, list_elem_of_here. }
      vm_compute in Ha. discriminate Ha.
Defined.
Lemma manifests_agree_witness : ArtifactManifest Sum disk "/opt/r" = Ok (hashes artifacts) ∧ size (hashes artifacts) = 3%nat.
Proof. exact (conj (proj1 (manifests_agree Sum disk policy disk_named policy_accepted)) eq_refl). Defined.

(** The search for forbidden members of a Kubernetes identity reads plain block keys at the
    start of a line only: the same member with a quoted key, in a flow mapping or in a JSON
    document is not seen. *)
Definition json_identity : string := "{'users': [{'name': 'u', 'user': {'exec': {'command': 'sh'}}}]}".
Definition flow_identity : string := "users:
- name: u
  user: {exec: {command: sh}, insecure-skip-tls-verify: true}".
Definition block_identity : string := "users:
- name: u
  user:
    exec:
      command: sh".
Example forbidden_identity_partial : forbidden_identity block_identity = true ∧ forbidden_identity flow_identity = false ∧ forbidden_identity json_identity = false.
Proof. vm_compute. done. Qed.
