(* ===== verification/HostExec.v ===== *)
(** The root helper's executor ([internal/hostexec/executor.go]): one operation at a
    time under a durable journal of one file per operation.

    [x_records] is the in-memory journal, [x_files] the journal directory by file
    stem.  A failed [durableJSON] may or may not have replaced its file, so a crash
    between two writes is the run whose remaining writes all fail, followed by a
    restart. The external run, the canonical lock, the runtime verification and the
    build gate are answers of the environment. *)
From S2P Require Import Prelude Json Types Domain Recovery Store Source HostPolicy.
From stdpp Require Import sorting.
#[local] Open Scope Z_scope.

Record record := mkRecord {
  hr_Request : Request;
  hr_Result : HostResult;
  hr_PeerUID : Z;
  hr_PolicyRevision : string;
  hr_StartedAt : time;
  hr_UpdatedAt : time }.

Definition set_hr_Result (v : HostResult) (r : record) : record :=
  mkRecord (hr_Request r) v (hr_PeerUID r) (hr_PolicyRevision r) (hr_StartedAt r) (hr_UpdatedAt r).
Definition set_hr_UpdatedAt (v : time) (r : record) : record :=
  mkRecord (hr_Request r) (hr_Result r) (hr_PeerUID r) (hr_PolicyRevision r) (hr_StartedAt r) v.
(** The three assignments the code makes together. *)
Definition outcome (state phase message : string) (r : record) : record :=
  set_hr_Result (mkHostResult (hs_ID (hr_Result r)) state phase message (hs_Data (hr_Result r))) r.
Definition hr_State (r : record) : string := hs_State (hr_Result r).
Definition hr_ID (r : record) : string := rq_ID (hr_Request r).
Definition hr_Draft (r : record) : Draft := rq_Draft (hr_Request r).
Definition hr_Action (r : record) : string := d_Action (hr_Draft r).

Definition HostResult0 : HostResult := mkHostResult "" "" "" "" None.
Definition Request0 : Request := mkRequest 0 "" "" "" Draft0 Configuration0.
Definition record0 : record := mkRecord Request0 HostResult0 0 "" zeroTime zeroTime.

(** [BadFile]: untrusted, unreadable or undecodable. *)
Inductive JournalFile := BadFile | Stored (r : record).

Record Executor := mkExecutor {
  x_records : gmap string record;
  x_files : gmap string JournalFile;
  x_active : bool;
  x_failed : bool }.

Definition set_x_active (v : bool) (x : Executor) : Executor :=
  mkExecutor (x_records x) (x_files x) v (x_failed x).
Definition set_x_failed (v : bool) (x : Executor) : Executor :=
  mkExecutor (x_records x) (x_files x) (x_active x) v.

(** ** The journal *)

Definition save (now : time) (w : write_outcome) (r : record) (x : Executor) : Executor * result unit :=
  let r := set_hr_UpdatedAt now r in
  match w with
  | Written => (mkExecutor (<[hr_ID r := r]> (x_records x)) (<[hr_ID r := Stored r]> (x_files x)) (x_active x) (x_failed x), Ok tt)
  | WriteFailed replaced =>
    (mkExecutor (x_records x) (if replaced then <[hr_ID r := Stored r]> (x_files x) else x_files x) (x_active x) true,
     Err (Plain "root recovery journal could not be persisted; mutations are fenced"))
  end.

Definition readOnlyAction (action : string) : bool :=
  (action =s "hardware.refresh") || (action =s "cpu-policy.export") || EvidenceAction action.

Definition recoveryLinks (records : gmap string record) : gmap string RecoveryLink :=
  (λ r, mkRecoveryLink (d_RecoveryID (hr_Draft r)) (d_Target (hr_Draft r)) (hr_Action r)) <$> records.

(** A completed restore that recovers another record. *)
Definition recovered_restore (r : record) : bool :=
  (hr_State r =s "succeeded") && (hr_Action r =s "profile.restore") && (d_RecoveryID (hr_Draft r) <>s "").

Definition visibleResult (x : Executor) (r : record) : HostResult :=
  if x_failed x && recovered_restore r
  then mkHostResult (hs_ID (hr_Result r)) "recovery-required" "recovery-settlement-pending"
    "Restore effects were durably recorded, but prior recovery records were not durably settled; restart the helper after persistence is restored." None
  else hr_Result r.

Definition Status (x : Executor) (id : string) : result HostResult :=
  match x_records x !! id with
  | None => Err (Plain "unknown helper operation")
  | Some r => Ok (visibleResult x r)
  end.

(** ** Settling a recovered chain *)

(** Whether the member [id] forbids settling behind [recovered]. *)
Definition unordered (records : gmap string record) (recovered : record) (recoveredID id : string) : bool :=
  let candidate := default record0 (records !! id) in
  (id <>s recoveredID) && (hr_State candidate =s "recovery-required")
  && ((hr_StartedAt candidate =? zeroTime) || (hr_StartedAt recovered =? zeroTime)
      || negb (before (hr_StartedAt candidate) (hr_StartedAt recovered))).

Fixpoint settle_members (clk : clock) (w : nat → write_outcome) (n : nat) (recoveredID : string)
    (ids : list string) (x : Executor) : Executor * nat * result unit :=
  match ids with
  | [] => (x, n, Ok tt)
  | id :: ids =>
    let old := default record0 (x_records x !! id) in
    if hr_State old <>s "recovery-required" then settle_members clk w n recoveredID ids x
    else
      let old := outcome "failed" ("recovered-by-" +:+ recoveredID)
                   "A later explicit restore completed; this operation did not succeed." old in
      match save (clk n) (w n) old x with
      | (x, Err e) => (x, S n, Err e)
      | (x, Ok _) => settle_members clk w (S n) recoveredID ids x
      end
  end.


Definition settleRecoveryChain (clk : clock) (w : nat → write_outcome) (n : nat) (recoveredID : string)
    (x : Executor) : Executor * nat * result unit :=
  match RecoveryChain (recoveryLinks (x_records x)) recoveredID with
  | Err _ => (set_x_failed true x, n, Err (Plain "root helper recovery chain is ambiguous; successful retry retained and mutations fenced"))
  | Ok chain =>
    if negb (bool_decide (recoveredID ∈ chain))
    then (set_x_failed true x, n, Err (Plain "root helper recovery chain is ambiguous; successful retry retained and mutations fenced"))
    else
      let recovered := default record0 (x_records x !! recoveredID) in
      if existsb (unordered (x_records x) recovered recoveredID) (elements chain)
      then (set_x_failed true x, n, Err (Plain "root helper recovery chain has a later or unordered unresolved attempt; successful retry retained and mutations fenced"))
      else settle_members clk w n recoveredID
             (sort_strings (elements (chain ∖ {[recoveredID]}))) x
  end.

Definition recoverySettlementPending (records : gmap string record) : bool :=
  existsb (λ kv : string * record,
    recovered_restore kv.2
    && match RecoveryChain (recoveryLinks records) kv.1 with
       | Err _ => false
       | Ok chain => existsb (λ candidate, (candidate <>s kv.1)
           && (hr_State (default record0 (records !! candidate)) =s "recovery-required")) (elements chain)
       end) (map_to_list records).

Fixpoint roll_forward (clk : clock) (w : nat → write_outcome) (n : nat) (ids : list string) (x : Executor)
    : Executor * nat * result unit :=
  match ids with
  | [] => (x, n, Ok tt)
  | id :: ids =>
    if recovered_restore (default record0 (x_records x !! id)) then
      match settleRecoveryChain clk w n id x with
      | (x, n, Err e) => (x, n, Err e)
      | (x, n, Ok _) => roll_forward clk w n ids x
      end
    else roll_forward clk w n ids x
  end.
Definition rollForwardRecoverySettlements (clk : clock) (w : nat → write_outcome) (n : nat) (x : Executor)
    : Executor * nat * result unit :=
  roll_forward clk w n (sort_strings (elements (dom (x_records x)))) x.

(** ** Restart *)

Section Executor.
Context `{Sha256} (policy : Policy).

(** The disposition of a record that was running when the helper stopped. *)
Definition interrupted (r : record) : record :=
  if readOnlyAction (hr_Action r)
  then outcome "failed" "read-only-interrupted" "Executor restarted before a bounded diagnostic completed; its output is not valid and no host recovery is required." r
  else outcome "recovery-required" "executor-restart" "Executor restarted with uncertain external effects; inspect the legacy session state and request an explicit restore. No work was retried." r.

Definition set_record (r : record) (x : Executor) : Executor :=
  mkExecutor (<[hr_ID r := r]> (x_records x)) (x_files x) (x_active x) (x_failed x).

(** The loop over the directory entries. *)
Fixpoint load_files (clk : clock) (w : nat → write_outcome) (n : nat) (l : list (string * JournalFile)) (x : Executor)
    : Executor * nat * result unit :=
  match l with
  | [] => (x, n, Ok tt)
  | (_, BadFile) :: _ => (x, n, Err (Plain "invalid root recovery journal; owner inspection is required"))
  | (name, Stored r) :: l =>
    if negb (validID (hr_ID r)) || (name <>s hr_ID r) || (rq_PayloadHash (hr_Request r) <>s RequestHash (hr_Request r))
    then (x, n, Err (Plain "root recovery journal identity/hash mismatch"))
    else
      let x := set_record r x in
      if (hr_State r =s "running") || (hr_State r =s "queued")
      then match save (clk n) (w n) (interrupted r) x with
           | (x, Err e) => (x, S n, Err e)
           | (x, Ok _) => load_files clk w (S n) l x
           end
      else load_files clk w n l x
  end.

(** [NewExecutor] and [load] on the directory's content; entries come sorted by file
    name. [locked]: the canonical lock was acquired when needed. *)
Definition file_le (a b : string * JournalFile) : Prop := stem_le a.1 b.1.
#[export] Instance file_le_dec a b : Decision (file_le a b).
Proof. unfold file_le. apply _. Defined.

Definition load (clk : clock) (w : nat → write_outcome) (locked : bool) (files : gmap string JournalFile)
    : Executor * result unit :=
  match load_files clk w 0 (merge_sort file_le (map_to_list files)) (mkExecutor ∅ files false false) with
  | (x, _, Err e) => (x, Err e)
  | (x, n, Ok _) =>
    if recoverySettlementPending (x_records x) && negb locked
    then (set_x_failed true x, Err (Plain "root recovery settlement cannot acquire the canonical legacy lock; mutations remain fenced"))
    else match rollForwardRecoverySettlements clk w n x with
         | (x, _, r) => (x, r)
         end
  end.

(** ** Admission *)

Definition validateRecovery (records : gmap string record) (r : Request) : result unit :=
  let d := rq_Draft r in
  if d_RecoveryID d =s "" then
    reject existsb (λ kv : string * record, hr_State kv.2 =s "recovery-required") (map_to_list records)
      with Plain "root helper recovery is required; restore must identify one unresolved helper recovery chain" ;;
    Ok tt
  else
    reject (d_Action d <>s "profile.restore") || negb (validID (d_RecoveryID d))
      with Plain "restore recovery ID must identify an unresolved root helper recovery chain" ;;
    match records !! d_RecoveryID d with
    | None => Err (Plain "restore recovery ID must identify an unresolved root helper operation with host effects")
    | Some old =>
      reject (hr_State old <>s "recovery-required") || negb (HostRestoreRequired (hr_Action old))
        with Plain "restore recovery ID must identify an unresolved root helper operation with host effects" ;;
      reject d_Target (hr_Draft old) <>s d_Target d
        with Plain "root helper recovery cannot change the persisted target" ;;
      match RecoveryChain (recoveryLinks records) (d_RecoveryID d) with
      | Err _ => Err (Plain "root helper recovery chain is ambiguous; preserve the root journal for owner review")
      | Ok chain =>
        reject negb (bool_decide (d_RecoveryID d ∈ chain))
          with Plain "root helper recovery chain is ambiguous; preserve the root journal for owner review" ;;
        reject existsb (λ kv : string * record,
            (hr_State kv.2 =s "recovery-required") && negb (bool_decide (kv.1 ∈ chain))) (map_to_list records)
          with Plain "root helper recovery is required in another chain; settle it independently" ;;
        Ok tt
      end
    end.

(** The canonical source as the helper reads it: only its content counts. *)
Definition canonical (src : SourceFile) : option Configuration :=
  match src with Document c => Some c | _ => None end.

Definition validatePerformanceRequest (src : SourceFile) (r : Request) : result unit :=
  let d := rq_Draft r in
  reject (cf_Revision (rq_Desired r) <>s ContentRevision (rq_Desired r)) || (d_SourceRevision d <>s cf_Revision (rq_Desired r))
    with Plain "performance source revision mismatch" ;;
  match src with
  | Absent | Unreadable => Err (Plain "performance source unreadable")
  | Malformed _ => Err (Plain "performance canonical configuration changed")
  | Document c =>
    reject ContentRevision c <>s cf_Revision (rq_Desired r) with Plain "performance canonical configuration changed" ;;
    match d_Performance d with
    | None => Err (Plain "performance source is not approved by independent root policy")
    | Some q =>
      match po_PerformanceSources policy !! pr_EvidenceID q with
      | None => Err (Plain "performance source is not approved by independent root policy")
      | Some s =>
        reject ms_SHA256 s <>s pr_EvidenceSHA256 q
          with Plain "performance source is not approved by independent root policy" ;;
        Ok tt
      end
    end
  end.

Definition validateMemoryRequest (src : SourceFile) (r : Request) : result unit :=
  let d := rq_Draft r in
  reject (cf_Revision (rq_Desired r) <>s ContentRevision (rq_Desired r)) || (d_SourceRevision d <>s cf_Revision (rq_Desired r))
    with Plain "memory plan source revision mismatch" ;;
  reject match canonical src with None => true | Some c => ContentRevision c <>s cf_Revision (rq_Desired r) end
    with Plain "memory plan canonical source changed" ;;
  if d_Action d =s "memory.evidence.import" then
    match d_Memory d with
    | None => Err (Plain "memory source is not approved by root policy")
    | Some m =>
      match po_MemorySources policy !! mr_EvidenceID m with
      | None => Err (Plain "memory source is not approved by root policy")
      | Some s =>
        reject ms_SHA256 s <>s mr_EvidenceSHA256 m with Plain "memory source is not approved by root policy" ;;
        Ok tt
      end
    end
  else Ok tt.

(** The limits of a desired configuration that is to be served. *)
Definition validate_serving (now : time) (c : Configuration) : result unit :=
  let s := cf_Serving c in let b := cf_Resources c in
  reject (sv_Context s <? 128) || (sv_Context s >? 131072) || (sv_Concurrency s <? 1) || (sv_Concurrency s >? 32)
      || SpecFloat.SFltb (sv_MemoryFraction s) f0_1 || SpecFloat.SFltb f0_95 (sv_MemoryFraction s)
      || (sv_CPUOffloadGiB s <? 0) || (sv_CPUOffloadGiB s >? 32)
      || negb (sv_MaxRequestTokens s =? 0) || negb (sv_MaxOutputTokens s =? 0)
    with Plain "unsupported serving limits: global request/output caps are not enforced by this installed SGLang adapter" ;;
  reject (rs_PhysicalGPU b <>s "") || (rs_GPUCount b <? 1) || (rs_GPUCount b >? 2) || (rs_CPU b <? 2) || (rs_CPU b >? 48)
      || (rs_MemoryMiB b <? 1024) || (rs_MemoryMiB b >? 49152) || (rs_SharedMemoryMiB b <? 64)
      || (rs_SharedMemoryMiB b >=? rs_MemoryMiB b)
    with Plain "resource budget or physical GPU selection is outside root policy" ;;
  reject add64 (mul64 (sv_CPUOffloadGiB s) 1024) (rs_SharedMemoryMiB b) >=? rs_MemoryMiB b
    with Plain "CPU offload and shared memory leave no engine process memory" ;;
  reject match po_QualifiedConfigurations policy !! ConfigurationHash s b with
         | None => true
         | Some q => negb (after (qf_ExpiresAt q) now) || negb (contains (qf_Image q) "@sha256:")
             || negb (str_len (qf_ModelRevision q) =? 40) || negb (has_prefix (qf_ModelPath q) "/models/")
             || negb (canonical_path (qf_ModelPath q))
         end
    with Plain "exact model, engine image and configuration require a current owner qualification in root policy" ;;
  Ok tt.

Definition validate (now : time) (src : SourceFile) (records : gmap string record) (r : Request) : result unit :=
  let d := rq_Draft r in let a := d_Action d in
  reject d_Target d <>s po_Target policy with Plain "target is not authorized by root policy" ;;
  _ ← validateRecovery records r;
  _ ← ValidateMemoryRequest d;
  _ ← ValidatePerformanceRequest d;
  if PerformanceAction a then validatePerformanceRequest src r
  else if MemoryAction a then validateMemoryRequest src r
  else
  reject (d_Profile d <>s "") && (a <>s "profile.switch") with Plain "profile does not belong to this typed operation" ;;
  reject (d_Recipe d <>s "") || is_some (d_Caches d) with Plain "host executor does not accept build or cache settings" ;;
  reject negb (str_in a ["profile.switch"; "profile.restore"; "serving.configure"; "serving.start"; "serving.stop";
                         "serving.restart"; "resources.configure"; "hardware.refresh"; "cpu-policy.export"])
    with Plain "operation is not in the host executor allowlist" ;;
  reject (a =s "profile.switch") && (d_Profile d <>s "ai") && (d_Profile d <>s "gaming") && (d_Profile d <>s "maintenance")
    with Plain "unsupported profile" ;;
  if (a =s "hardware.refresh") || (a =s "cpu-policy.export") then Ok tt
  else
  reject cf_Revision (rq_Desired r) <>s ContentRevision (rq_Desired r)
    with Plain "desired configuration content revision mismatch" ;;
  reject d_SourceRevision d <>s cf_Revision (rq_Desired r)
    with Plain "request source revision does not identify the committed desired configuration" ;;
  match src with
  | Absent | Unreadable => Err (Plain "canonical configuration source is unavailable")
  | Malformed _ => Err (Plain "canonical configuration source is malformed")
  | Document c =>
    reject ContentRevision c <>s ContentRevision (rq_Desired r)
      with Plain "canonical source changed after planning or source update" ;;
    if budget_action a then validate_serving now (rq_Desired r) else Ok tt
  end.

(** What the environment answers during [Submit]: the runtime verification, the
    canonical lock and the write of the intent. *)
Record SubmitEnv := mkSubmitEnv {
  se_clk : clock;
  se_source : SourceFile;
  se_verify : result unit;
  se_lock : result unit;
  se_write : write_outcome }.

Definition accept_record (now : time) (peer : Z) (req : Request) : record :=
  mkRecord req (mkHostResult (rq_ID req) "running" "intent-persisted"
    "Root helper accepted the exact typed operation; disconnecting does not cancel it." None)
    peer (policyRevision policy) now zeroTime.

(** [Submit]; the third component is the record whose run is started. *)
Definition Submit (ev : SubmitEnv) (peer : Z) (req : Request) (x : Executor)
    : Executor * result HostResult * option record :=
  if negb (peer =? po_AllowedUID policy)
  then (x, Err (Plain "Unix peer is not the configured management service UID"), None)
  else if negb (rq_Version req =? ContractVersion) || negb (validID (rq_ID req)) || negb (safeIdentity (rq_ExecutionIdentity req))
          || (rq_PayloadHash req <>s RequestHash req)
  then (x, Err (Plain "invalid helper contract, operation identity or payload hash"), None)
  else match x_records x !! rq_ID req with
  | Some old =>
    if (rq_PayloadHash (hr_Request old) <>s rq_PayloadHash req) || negb (hr_PeerUID old =? peer)
    then (x, Err (Plain "operation ID payload conflict"), None)
    else (x, Ok (visibleResult x old), None)
  | None =>
    if x_active x || x_failed x
    then (x, Err (Plain "executor is busy or fenced by unavailable journal persistence"), None)
    else if Z.of_nat (size (x_records x)) >=? po_MaxRecords policy
    then (x, Err (Plain "root journal retention limit reached; archive it during stopped-service maintenance"), None)
    else match validate (se_clk ev 0%nat) (se_source ev) (x_records x) req with
    | Err e => (x, Err e, None)
    | Ok _ =>
      match se_verify ev with
      | Err e => (x, Err e, None)
      | Ok _ =>
        match se_lock ev with
        | Err e => (x, Err e, None)
        | Ok _ =>
          let r := accept_record (se_clk ev 1%nat) peer req in
          match save (se_clk ev 2%nat) (se_write ev) r x with
          | (x, Err e) => (x, Err e, None)
          | (x, Ok _) => (set_x_active true x, Ok (hr_Result r), Some r)
          end
        end
      end
    end
  end.

(** ** Completion *)

(** The error of a run: whether it is a [preflightFailure], and its text. *)
Record RunError := mkRunError { run_preflight : bool; run_message : string }.

Definition run_outcome (data : option string) (err : option RunError) (r : record) : record :=
  let r := set_hr_Result (mkHostResult (hs_ID (hr_Result r)) (hr_State r) (hs_Phase (hr_Result r)) (hs_Message (hr_Result r)) data) r in
  match err with
  | Some e =>
    if readOnlyAction (hr_Action r) then outcome "failed" "read-only-adapter-failed" (run_message e) r
    else if run_preflight e then outcome "failed" "preflight-refused" (run_message e) r
    else outcome "recovery-required" "external-effect-uncertain"
           (run_message e +:+ "; inspect root journal and legacy session state, then explicitly restore operation " +:+ hr_ID r) r
  | None =>
    if EvidenceAction (hr_Action r)
    then outcome "succeeded" "analysis-complete" "Read-only analysis/report completed; inspect its status for refusals or incomplete evidence. No source, workload, cache or qualification was changed." r
    else outcome "succeeded" "effects-complete" "Validated operation completed; physical GPU release is a point-in-time observation." r
  end.

(** The final record and the settlement of its chain. *)
Definition commit_outcome (clk : clock) (w : nat → write_outcome) (n : nat) (r : record) (x : Executor) : Executor :=
  match save (clk n) (w n) r x with
  | (x, Err _) => x
  | (x, Ok _) =>
    if (hr_State r =s "succeeded") && (d_RecoveryID (hr_Draft r) <>s "")
    then (settleRecoveryChain clk w (S n) (hr_ID r) x).1.1
    else x
  end.

(** [finish] after the external run; [finalize] is the build gate's answer. *)
Definition host_finish (clk : clock) (w : nat → write_outcome) (data : option string) (err : option RunError)
    (finalize : bool) (r : record) (x : Executor) : Executor :=
  let r := run_outcome data err r in
  let x :=
    if (hr_State r =s "succeeded") && negb (readOnlyAction (hr_Action r)) then
      let pending := set_hr_Result (mkHostResult (hs_ID (hr_Result r)) "running" "build-gate-disposition"
                       (hs_Message (hr_Result r)) (hs_Data (hr_Result r))) r in
      match save (clk 0%nat) (w 0%nat) pending x with
      | (x, Err _) => x
      | (x, Ok _) =>
        commit_outcome clk w 1
          (if finalize then r
           else outcome "recovery-required" "build-gate-disposition" "External effects completed but build inhibition could not be safely finalized; owner inspection is required." r) x
      end
    else commit_outcome clk w 1 r x in
  set_x_active false x.

End Executor.
