(* ===== verification/HostJournal.v ===== *)
(** The root helper over time: its journal invariant, restarts, and what a caller may
    conclude from its answers. *)
From S2P Require Import Prelude Json Types Domain Recovery Store Source HostPolicy HostExec.

Abbreviation records := (gmap string record).
Abbreviation journal_files := (gmap string JournalFile).

(** ** The helper's life *)

Record Host := mkHost {
  z_x : Executor;
  z_up : bool;
  z_run : option record;
  (** ghost: every record whose external run was started, over all lives *)
  z_started : list record }.

Section Host.
Context `{Sha256} (policy : Policy).

Inductive host_step : Host → Host → Prop :=
| h_submit z ev peer req x r started :
    z_up z = true → Submit policy ev peer req (z_x z) = (x, r, started) →
    host_step z (mkHost x true (match started with Some s => Some s | None => z_run z end)
      (z_started z ++ match started with Some s => [s] | None => [] end))
| h_finish z clk w data err finalize r :
    z_up z = true → z_run z = Some r →
    host_step z (mkHost (host_finish clk w data err finalize r (z_x z)) true None (z_started z))
(** A stop or crash at any time, and the next start; the helper stays down when [load] fails. *)
| h_restart z clk w locked x r :
    load clk w locked (x_files (z_x z)) = (x, r) →
    host_step z (mkHost x (is_ok r) None (z_started z)).

Definition host_initial : Host := mkHost (mkExecutor ∅ ∅ false false) false None [].
Definition host_reachable (z : Host) : Prop := rtc host_step host_initial z.

(** ** The journal invariant *)

Record journal_inv (x : Executor) : Prop := {
  ji_key : ∀ id r, x_records x !! id = Some r → hr_ID r = id;
  ji_file : ∀ id r, x_records x !! id = Some r →
    ∃ r', x_files x !! id = Some (Stored r') ∧ hr_Request r' = hr_Request r;
  ji_agree : x_failed x = false → x_files x = Stored <$> x_records x;
  ji_success : ∀ id r, x_records x !! id = Some r → hr_State r = "succeeded" →
    x_files x !! id = Some (Stored r) }.

(** A record that may be written: new, or the unsettled record of the same request. *)
Definition writable (r : record) (m : records) : Prop :=
  ∀ r0, m !! hr_ID r = Some r0 → hr_Request r0 = hr_Request r ∧ hr_State r0 ≠ "succeeded".

Lemma save_cases now w r x x' e :
  save now w r x = (x', e) →
  let r' := set_hr_UpdatedAt now r in
  match e with
  | Ok _ => x' = mkExecutor (<[hr_ID r := r']> (x_records x)) (<[hr_ID r := Stored r']> (x_files x)) (x_active x) (x_failed x)
  | Err _ => x_records x' = x_records x ∧ x_failed x' = true ∧ x_active x' = x_active x ∧
      (x_files x' = x_files x ∨ x_files x' = <[hr_ID r := Stored r']> (x_files x))
  end.
Proof. unfold save. destruct w as [|[]]; intros [= <- <-]; simpl; auto. Qed.

Lemma save_inv now w r x x' e :
  journal_inv x → writable r (x_records x) → save now w r x = (x', e) → journal_inv x'.
Proof.
  intros [Hk Hf Ha Hs] Hw Hsv. apply save_cases in Hsv. cbv zeta in Hsv. destruct e as [[]|e].
  - subst x'. split; simpl.
    + intros id r0 [[<- <-]|[_ ?]]%lookup_insert_Some; [done|auto].
    + intros id r0 [[<- <-]|[Hne ?]]%lookup_insert_Some; [rewrite lookup_insert_eq; eauto|].
      rewrite lookup_insert_ne by done. auto.
    + intros Hff. rewrite fmap_insert. by rewrite Ha.
    + intros id r0 [[<- <-]|[Hne ?]]%lookup_insert_Some; [by rewrite lookup_insert_eq|].
      rewrite lookup_insert_ne by done. auto.
  - destruct Hsv as (Hr & Hfl & _ & Hfile). split; rewrite ?Hr, ?Hfl; try done.
    + intros id r0 Hr0. destruct Hfile as [-> | ->]; [auto|].
      destruct (decide (id = hr_ID r)) as [->|Hne].
      * rewrite lookup_insert_eq. eexists. split; [done|]. simpl. by destruct (Hw _ Hr0).
      * rewrite lookup_insert_ne by done. auto.
    + intros id r0 Hr0 Hst. destruct Hfile as [-> | ->]; [auto|].
      destruct (decide (id = hr_ID r)) as [->|Hne]; [by destruct (Hw _ Hr0)|].
      rewrite lookup_insert_ne by done. auto.
Qed.

(** Writes only ever add to the journal and never change a request. *)
Record extends (x x' : Executor) : Prop := {
  ex_records : ∀ id r, x_records x !! id = Some r → ∃ r', x_records x' !! id = Some r' ∧ hr_Request r' = hr_Request r;
  ex_files : ∀ id, is_Some (x_files x !! id) → is_Some (x_files x' !! id);
  ex_active : x_active x' = x_active x }.

#[export] Instance extends_refl : Reflexive extends.
Proof. intros x. split; eauto. Qed.

#[export] Instance extends_trans : Transitive extends.
Proof.
  intros x y z [H1 H2 H3] [H1' H2' H3']. split; [|auto|congruence].
  intros id r (r1 & Hr1 & E1)%H1. destruct (H1' _ _ Hr1) as (r2 & ? & E2). exists r2. split; [done|congruence].
Qed.

Lemma save_extends now w r x x' e : writable r (x_records x) → save now w r x = (x', e) → extends x x'.
Proof.
  intros Hw Hsv. apply save_cases in Hsv. cbv zeta in Hsv. destruct e as [[]|e].
  - subst x'. split; simpl; [| |done].
    + intros id r0 Hr0. destruct (decide (id = hr_ID r)) as [->|Hne].
      * rewrite lookup_insert_eq. eexists. split; [done|]. simpl. symmetry. by destruct (Hw _ Hr0).
      * rewrite lookup_insert_ne by done. eauto.
    + intros id Hid. apply lookup_insert_is_Some. destruct (decide (hr_ID r = id)); auto.
  - destruct Hsv as (Hr & _ & Hact & Hfile). split; [rewrite Hr; eauto| |done].
    intros id Hid. destruct Hfile as [-> | ->]; [done|]. apply lookup_insert_is_Some. destruct (decide (hr_ID r = id)); auto.
Qed.

Lemma recoveryLinks_outcome m id r st ph ms now :
  m !! id = Some r → recoveryLinks (<[id := set_hr_UpdatedAt now (outcome st ph ms r)]> m) = recoveryLinks m.
Proof.
  intros Hr. unfold recoveryLinks. rewrite fmap_insert. apply insert_id. by rewrite lookup_fmap, Hr.
Qed.

(** ** Settlement *)

Definition unresolved (r : record) : Prop := hr_State r = "recovery-required".

Lemma outcome_writable st ph ms r m :
  m !! hr_ID r = Some r → hr_State r ≠ "succeeded" → writable (outcome st ph ms r) m.
Proof. intros Hr Hs r0 Hr0. change (hr_ID (outcome st ph ms r)) with (hr_ID r) in Hr0. simplify_eq. done. Qed.

(** The record an unresolved member becomes. *)
Definition resolved (by_ : string) (now : time) (r : record) : record :=
  set_hr_UpdatedAt now (outcome "failed" ("recovered-by-" +:+ by_)
    "A later explicit restore completed; this operation did not succeed." r).

Lemma settle_members_inv clk w id ids : ∀ n x x' n' e,
  journal_inv x → settle_members clk w n id ids x = (x', n', e) → journal_inv x' ∧ extends x x'.
Proof.
  induction ids as [|k ids IH]; intros n x x' n' e Hi; simpl; [by intros [= <- <- <-]|].
  destruct (hr_State (default record0 (x_records x !! k)) <>s "recovery-required") eqn:Hs; [by apply IH|].
  apply negb_false_iff, String.eqb_eq in Hs.
  destruct (x_records x !! k) as [r|] eqn:Hr; [|done]. cbn [default Datatypes.id] in *.
  destruct (save _ _ _ _) as [x1 e1] eqn:Hsv.
  assert (writable (outcome "failed" ("recovered-by-" +:+ id)
      "A later explicit restore completed; this operation did not succeed." r) (x_records x)) as Hw.
  { apply outcome_writable; [by rewrite (ji_key _ Hi _ _ Hr)|congruence]. }
  pose proof (save_inv _ _ _ _ _ _ Hi Hw Hsv) as Hi1. pose proof (save_extends _ _ _ _ _ _ Hw Hsv) as He1.
  destruct e1 as [[]|e1]; [|by intros [= <- <- <-]].
  intros Hrest. destruct (IH _ _ _ _ _ Hi1 Hrest). split; [done|by etrans].
Qed.

(** A completed settlement resolves exactly the unresolved members. *)
Lemma settle_members_ok clk w id ids : ∀ n x x' n',
  journal_inv x → settle_members clk w n id ids x = (x', n', Ok tt) →
  x_failed x' = x_failed x ∧ recoveryLinks (x_records x') = recoveryLinks (x_records x) ∧
  ∀ k, match x_records x !! k with
       | None => x_records x' !! k = None
       | Some r => if bool_decide (k ∈ ids) && (hr_State r =s "recovery-required")
                   then ∃ now, x_records x' !! k = Some (resolved id now r) ∧ x_files x' !! k = Some (Stored (resolved id now r))
                   else x_records x' !! k = Some r ∧ x_files x' !! k = x_files x !! k
       end.
Proof.
  induction ids as [|m ids IH]; intros n x x' n' Hi; simpl.
  { intros [= <- <-]. split; [done|split; [done|]]. intros k. by destruct (x_records x !! k). }
  destruct (hr_State (default record0 (x_records x !! m)) <>s "recovery-required") eqn:Hs.
  - intros Hrest. destruct (IH _ _ _ _ Hi Hrest) as (Hf & Hl & Hall). split; [done|split; [done|]]. intros k.
    specialize (Hall k). destruct (x_records x !! k) as [r|] eqn:Hr; [|done].
    destruct (decide (k = m)) as [->|Hne].
    + rewrite Hr in Hs. simpl in Hs. apply negb_true_iff in Hs. rewrite Hs, andb_false_r in *. done.
    + rewrite (bool_decide_ext (k ∈ m :: ids) (k ∈ ids)) by set_solver. done.
  - apply negb_false_iff, String.eqb_eq in Hs.
    destruct (x_records x !! m) as [r|] eqn:Hr; [|done]. cbn [default Datatypes.id] in *.
    assert (writable (outcome "failed" ("recovered-by-" +:+ id)
      "A later explicit restore completed; this operation did not succeed." r) (x_records x)) as Hw.
    { apply outcome_writable; [by rewrite (ji_key _ Hi _ _ Hr)|congruence]. }
    destruct (save _ _ _ _) as [x1 [[]|]] eqn:Hsv; [|done]. intros Hrest.
    pose proof (save_inv _ _ _ _ _ _ Hi Hw Hsv) as Hi1. apply save_cases in Hsv. cbv zeta in Hsv.
    change (hr_ID (outcome _ _ _ r)) with (hr_ID r) in Hsv. rewrite (ji_key _ Hi _ _ Hr) in Hsv.
    fold (resolved id (clk n) r) in Hsv. subst x1.
    destruct (IH _ _ _ _ Hi1 Hrest) as (Hf & Hl & Hall). simpl in *. split; [done|]. split.
    { rewrite Hl. by apply recoveryLinks_outcome. }
    intros k. specialize (Hall k). destruct (decide (k = m)) as [->|Hne].
    + rewrite !lookup_insert_eq in Hall. rewrite Hr, Hs. simpl in Hall. rewrite andb_false_r in Hall.
      rewrite (bool_decide_eq_true_2 (m ∈ m :: ids)) by constructor. simpl. eauto.
    + rewrite !lookup_insert_ne in Hall by done. destruct (x_records x !! k); [|done].
      rewrite (bool_decide_ext (k ∈ m :: ids) (k ∈ ids)) by set_solver. done.
Qed.

Lemma set_failed_inv x : journal_inv x → journal_inv (set_x_failed true x).
Proof. intros []. by split. Qed.

Lemma set_failed_extends v x : extends x (set_x_failed v x).
Proof. split; simpl; eauto. Qed.

Lemma settle_chain_inv clk w n id x x' n' e :
  journal_inv x → settleRecoveryChain clk w n id x = (x', n', e) → journal_inv x' ∧ extends x x'.
Proof.
  intros Hi. unfold settleRecoveryChain. destruct (RecoveryChain _ _) as [chain|];
    [|intros [= <- <- <-]; auto using set_failed_inv, set_failed_extends].
  destruct (negb _); [intros [= <- <- <-]; auto using set_failed_inv, set_failed_extends|].
  destruct (existsb _ _); [intros [= <- <- <-]; auto using set_failed_inv, set_failed_extends|].
  by apply settle_members_inv.
Qed.

Lemma save_files now w r x x' e id :
  save now w r x = (x', e) → is_Some (x_files x !! id) → is_Some (x_files x' !! id).
Proof.
  intros Hsv Hs. apply save_cases in Hsv. cbv zeta in Hsv. destruct e as [[]|e].
  - subst x'. simpl. apply lookup_insert_is_Some. destruct (decide (hr_ID r = id)); auto.
  - destruct Hsv as (_ & _ & _ & [-> | ->]); [done|]. apply lookup_insert_is_Some. destruct (decide (hr_ID r = id)); auto.
Qed.

Lemma settle_chain_files clk w n k x x' n' e id :
  settleRecoveryChain clk w n k x = (x', n', e) → is_Some (x_files x !! id) → is_Some (x_files x' !! id).
Proof.
  assert (∀ ids n x, settle_members clk w n k ids x = (x', n', e) → is_Some (x_files x !! id) → is_Some (x_files x' !! id)) as Hgo.
  { clear. intros ids. induction ids as [|m ids IH]; intros n x; simpl; [by intros [= <- <- <-]|].
    destruct (_ <>s _); [by apply IH|]. destruct (save _ _ _ _) as [x1 e1] eqn:Hsv. intros Hrest Hs.
    pose proof (save_files _ _ _ _ _ _ id Hsv Hs). destruct e1; [by eapply IH|by injection Hrest as <- <- <-]. }
  unfold settleRecoveryChain. destruct (RecoveryChain _ _); [|by intros [= <- <- <-]].
  destruct (negb _); [by intros [= <- <- <-]|]. destruct (existsb _ _); [by intros [= <- <- <-]|]. apply Hgo.
Qed.

Lemma elem_of_settled_ids (chain : gset string) id k :
  k ∈ sort_strings (elements (chain ∖ {[id]})) ↔ k ∈ chain ∧ k ≠ id.
Proof. rewrite elem_of_sort_strings. set_solver. Qed.

(** The records before and after a completed settlement behind [id]. *)
Definition settlement (id : string) (chain : gset string) (x x' : Executor) : Prop :=
  ∀ k, match x_records x !! k with
       | None => x_records x' !! k = None
       | Some r => if bool_decide (k ∈ chain ∧ k ≠ id) && (hr_State r =s "recovery-required")
                   then ∃ now, x_records x' !! k = Some (resolved id now r) ∧ x_files x' !! k = Some (Stored (resolved id now r))
                   else x_records x' !! k = Some r ∧ x_files x' !! k = x_files x !! k
       end.

Lemma settle_chain_ok clk w n id x x' n' :
  journal_inv x → settleRecoveryChain clk w n id x = (x', n', Ok tt) →
  ∃ chain, RecoveryChain (recoveryLinks (x_records x)) id = Ok chain ∧ id ∈ chain ∧
    (∀ k r r0, k ∈ chain → k ≠ id → x_records x !! k = Some r → unresolved r → x_records x !! id = Some r0 →
       hr_StartedAt r < hr_StartedAt r0) ∧
    x_failed x' = x_failed x ∧ recoveryLinks (x_records x') = recoveryLinks (x_records x) ∧
    settlement id chain x x'.
Proof.
  intros Hi. unfold settleRecoveryChain. destruct (RecoveryChain _ _) as [chain|]; [|done].
  destruct (bool_decide_reflect (id ∈ chain)) as [Hin|]; simpl; [|done].
  destruct (existsb _ _) eqn:Hun; [done|]. intros Hs. apply (settle_members_ok _ _ _ _ _ _ _ _ Hi) in Hs as (Hf & Hl & Hall).
  exists chain. split_and!; try done.
  - intros k r r0 Hk Hne Hr Hu Hr0. rewrite existsb_false, Forall_forall in Hun.
    specialize (Hun k (proj2 (elem_of_elements _ _) Hk)). unfold unordered in Hun.
    rewrite Hr, Hr0, (neqb_str _ _ Hne) in Hun. simpl in Hun. unfold unresolved in Hu. rewrite Hu, eqb_str_refl in Hun.
    simpl in Hun. unfold before in Hun. apply orb_false_iff in Hun as [_ Hb%negb_false_iff]. by apply Z.ltb_lt in Hb.
  - intros k. specialize (Hall k). destruct (x_records x !! k); [|done].
    by rewrite (bool_decide_ext (k ∈ sort_strings (elements (chain ∖ {[id]}))) (k ∈ chain ∧ k ≠ id)) in Hall
      by apply elem_of_settled_ids.
Qed.

Lemma settlement_keeps id chain x x' k r :
  settlement id chain x x' → x_records x' !! k = Some r → unresolved r → x_records x !! k = Some r.
Proof.
  intros Hs Hr Hu. specialize (Hs k). destruct (x_records x !! k) as [r0|]; [|congruence].
  destruct (_ && _); [|destruct Hs; congruence]. destruct Hs as (now & Hr' & _). rewrite Hr' in Hr. injection Hr as <-. done.
Qed.

(** ** Rolling settlements forward *)

Lemma roll_forward_inv clk w ids : ∀ n x x' n' e,
  journal_inv x → roll_forward clk w n ids x = (x', n', e) → journal_inv x' ∧ extends x x'.
Proof.
  induction ids as [|id ids IH]; intros n x x' n' e Hi; simpl; [by intros [= <- <- <-]|].
  destruct (recovered_restore _); [|by apply IH].
  destruct (settleRecoveryChain _ _ _ _ _) as [[x1 n1] e1] eqn:Hs.
  destruct (settle_chain_inv _ _ _ _ _ _ _ _ Hi Hs) as [Hi1 He1].
  destruct e1; [|by intros [= <- <- <-]]. intros Hr. destruct (IH _ _ _ _ _ Hi1 Hr). split; [done|by etrans].
Qed.

(** No unresolved member is left behind the completed restore [id]. *)
Definition settled_behind (id : string) (m : records) : Prop :=
  ∀ r chain, m !! id = Some r → recovered_restore r = true → RecoveryChain (recoveryLinks m) id = Ok chain →
    ∀ k rk, k ∈ chain → k ≠ id → m !! k = Some rk → ¬ unresolved rk.

Lemma settlement_restore id chain x x' k r :
  settlement id chain x x' → x_records x' !! k = Some r → recovered_restore r = true → x_records x !! k = Some r.
Proof.
  intros Hs Hr Hrr. specialize (Hs k). destruct (x_records x !! k) as [r0|]; [|congruence].
  destruct (_ && _); [|destruct Hs; congruence]. destruct Hs as (now & Hr' & _). rewrite Hr' in Hr. injection Hr as <-. done.
Qed.

Lemma settled_behind_settlement id id' chain x x' :
  settlement id' chain x x' → recoveryLinks (x_records x') = recoveryLinks (x_records x) →
  settled_behind id (x_records x) → settled_behind id (x_records x').
Proof.
  intros Hs Hl Hb r ch Hr Hrr Hch k rk Hk Hne Hrk Hu. rewrite Hl in Hch.
  eapply Hb; [by eapply settlement_restore|done|done|done|done|by eapply settlement_keeps|done].
Qed.

Lemma roll_forward_ok clk w ids : ∀ n x x' n',
  journal_inv x → roll_forward clk w n ids x = (x', n', Ok tt) →
  x_failed x' = x_failed x ∧ recoveryLinks (x_records x') = recoveryLinks (x_records x) ∧
  (∀ k r, x_records x' !! k = Some r → recovered_restore r = true → x_records x !! k = Some r) ∧
  (∀ k r, x_records x' !! k = Some r → x_records x !! k = Some r ∨ hr_State r = "failed") ∧
  (∀ id, settled_behind id (x_records x) → settled_behind id (x_records x')) ∧
  (∀ id, id ∈ ids → settled_behind id (x_records x')).
Proof.
  induction ids as [|m ids IH]; intros n x x' n' Hi; simpl.
  { intros [= <- <-]. split_and!; auto. intros id Hin. by apply elem_of_nil in Hin. }
  destruct (recovered_restore (default record0 (x_records x !! m))) eqn:Hrr.
  - destruct (settleRecoveryChain _ _ _ _ _) as [[x1 n1] e1] eqn:Hs. destruct e1 as [[]|]; [|done]. intros Hrest.
    destruct (settle_chain_inv _ _ _ _ _ _ _ _ Hi Hs) as [Hi1 _].
    apply (settle_chain_ok _ _ _ _ _ _ _ Hi) in Hs as (chain & Hc & Hin & _ & Hf & Hl & Hset).
    destruct (IH _ _ _ _ Hi1 Hrest) as (Hf' & Hl' & Hre & Hst & Hold & Hall).
    assert (settled_behind m (x_records x1)) as Hm.
    { intros r ch Hr Hrr' Hch k rk Hk Hne Hrk Hu. rewrite Hl, Hc in Hch. injection Hch as <-.
      pose proof (settlement_keeps _ _ _ _ _ _ Hset Hrk Hu) as Hrk0. specialize (Hset k). rewrite Hrk0 in Hset.
      unfold unresolved in Hu. rewrite Hu, eqb_str_refl, bool_decide_eq_true_2 in Hset by done. simpl in Hset.
      destruct Hset as (now & Hset & _). rewrite Hset in Hrk. injection Hrk as Heq.
      apply (f_equal hr_State) in Heq. cbn in Heq. congruence. }
    split_and!; [congruence|congruence| | | |].
    + intros k r Hr Hrr'. eapply settlement_restore; eauto.
    + intros k r [Hr|?]%Hst; [|auto]. specialize (Hset k). destruct (x_records x !! k) as [r0|]; [|congruence].
      destruct (_ && _); [|destruct Hset; left; congruence].
      destruct Hset as (now & Hr' & _). rewrite Hr' in Hr. injection Hr as <-. by right.
    + intros id Hb. apply Hold. by eapply settled_behind_settlement.
    + intros id [->|Hid]%elem_of_cons; [by apply Hold|by apply Hall].
  - intros Hrest. destruct (IH _ _ _ _ Hi Hrest) as (Hf' & Hl' & Hre & Hst & Hold & Hall). split_and!; try done.
    intros id [->|Hid]%elem_of_cons; [|by apply Hall]. apply Hold. intros r ch Hr Hrr'. rewrite Hr in Hrr. simpl in Hrr. congruence.
Qed.

Lemma pending_none m :
  (∀ id, id ∈ dom m → settled_behind id m) → recoverySettlementPending m = false.
Proof.
  intros Hall. unfold recoverySettlementPending. rewrite existsb_false, Forall_forall. intros [id r] Hin%elem_of_map_to_list.
  simpl. destruct (recovered_restore r) eqn:Hrr; [|done]. simpl. destruct (RecoveryChain _ _) as [chain|] eqn:Hc; [|done].
  rewrite existsb_false, Forall_forall. intros k Hk%elem_of_elements.
  destruct (String.eqb_spec k id) as [->|Hne]; [done|]. simpl.
  destruct (m !! k) as [rk|] eqn:Hrk; [|done]. simpl. apply neqb_str.
  eapply (Hall id); [by apply elem_of_dom|done..].
Qed.

(** ** Loading *)

Definition unfinished (r : record) : bool := (hr_State r =s "running") || (hr_State r =s "queued").

(** The disposition of one loaded file, given when it was rewritten. *)
Definition loaded (now : time) (r : record) : record :=
  if unfinished r then set_hr_UpdatedAt now (interrupted r) else r.

Lemma loaded_finished now r : unfinished (loaded now r) = false.
Proof. unfold loaded. destruct (unfinished r) eqn:Hu; [|done]. unfold interrupted. by destruct (readOnlyAction _). Qed.

Lemma loaded_ID now r : hr_ID (loaded now r) = hr_ID r ∧ hr_Request (loaded now r) = hr_Request r.
Proof. unfold loaded, interrupted. destruct (unfinished r); [|done]. by destruct (readOnlyAction _). Qed.

Record load_inv (x : Executor) : Prop := {
  li_key : ∀ id r, x_records x !! id = Some r → hr_ID r = id;
  li_file : ∀ id r, x_records x !! id = Some r → x_files x !! id = Some (Stored r);
  li_finished : ∀ id r, x_records x !! id = Some r → unfinished r = false;
  li_failed : x_failed x = false;
  li_active : x_active x = false }.

Lemma load_files_files clk w l : ∀ n x x' n' e id,
  load_files clk w n l x = (x', n', e) → is_Some (x_files x !! id) → is_Some (x_files x' !! id).
Proof.
  induction l as [|[name [|r]] l IH]; intros n x x' n' e id; simpl; [by intros [= <- <- <-]..|].
  destruct (_ || _); [by intros [= <- <- <-]|]. destruct (_ || _); [|by intros Hr Hs; eapply IH in Hr; [|exact Hs]].
  destruct (save _ _ _ _) as [x1 e1] eqn:Hsv. intros Hrest Hs.
  pose proof (save_files _ _ _ _ _ _ id Hsv Hs) as Hs1.
  destruct e1; [by eapply IH|by injection Hrest as <- <- <-].
Qed.

Lemma load_files_ok clk w l : ∀ n x x' n',
  NoDup l.*1 → load_inv x → (∀ name f, (name, f) ∈ l → x_files x !! name = Some f) →
  load_files clk w n l x = (x', n', Ok tt) →
  load_inv x' ∧
  (∀ id, id ∉ l.*1 → x_records x' !! id = x_records x !! id ∧ x_files x' !! id = x_files x !! id) ∧
  (∀ id f, (id, f) ∈ l → ∃ r now, f = Stored r ∧ hr_ID r = id ∧ x_records x' !! id = Some (loaded now r)).
Proof.
  induction l as [|[name f] l IH]; intros n x x' n' Hnd Hi Hfiles; simpl.
  { intros [= <- <-]. split_and!; auto. intros id f Hin. by apply elem_of_nil in Hin. }
  inversion Hnd as [|? ? Hnin Hnd']; subst. simpl in Hnin. destruct f as [|r]; [done|].
  destruct (_ || _) eqn:Hb; [done|]. bool_hyps. subst name.
  assert (∀ x1, (∃ now, x_records x1 = <[hr_ID r := loaded now r]> (x_records x) ∧
            x_files x1 = <[hr_ID r := Stored (loaded now r)]> (x_files x)) → x_failed x1 = false → x_active x1 = false →
          load_inv x1) as Hstep.
  { intros x1 (now & Hr1 & Hf1) Hfl Hac. split; try done; intros id r0; rewrite Hr1.
    - intros [[<- <-]|[_ ?]]%lookup_insert_Some; [apply loaded_ID|by apply Hi].
    - rewrite Hf1. intros [[<- <-]|[Hne ?]]%lookup_insert_Some; [by rewrite lookup_insert_eq|].
      rewrite lookup_insert_ne by done. by apply Hi.
    - intros [[<- <-]|[_ ?]]%lookup_insert_Some; [apply loaded_finished|by eapply Hi]. }
  assert (∀ x1 n1, (∃ now, x_records x1 = <[hr_ID r := loaded now r]> (x_records x) ∧
            x_files x1 = <[hr_ID r := Stored (loaded now r)]> (x_files x)) → x_failed x1 = false → x_active x1 = false →
          load_files clk w n1 l x1 = (x', n', Ok tt) →
          load_inv x' ∧
          (∀ id, id ∉ hr_ID r :: l.*1 → x_records x' !! id = x_records x !! id ∧ x_files x' !! id = x_files x !! id) ∧
          (∀ id f, (id, f) ∈ (hr_ID r, Stored r) :: l →
             ∃ r now, f = Stored r ∧ hr_ID r = id ∧ x_records x' !! id = Some (loaded now r))) as Hgo.
  { intros x1 n1 (now & Hr1 & Hf1) Hfl Hac Hrest.
    destruct (IH n1 x1 x' n' Hnd') as (Hi' & Hkeep & Hall); [eapply Hstep; eauto| |done|].
    { intros name f Hin. rewrite Hf1, lookup_insert_ne; [apply Hfiles; by constructor|].
      intros <-. apply Hnin. apply list_elem_of_fmap. by exists (hr_ID r, f). }
    split; [done|]. split.
    - intros id [Hne Hid]%not_elem_of_cons. destruct (Hkeep id Hid) as [-> ->]. rewrite Hr1, Hf1.
      by rewrite !lookup_insert_ne.
    - intros id f [[= -> ->]|Hin]%elem_of_cons; [|by apply Hall].
      exists r, now. split_and!; [done..|]. destruct (Hkeep (hr_ID r) Hnin) as [-> _]. by rewrite Hr1, lookup_insert_eq. }
  destruct (_ || _) eqn:Hu.
  - destruct (save _ _ _ _) as [x1 [[]|]] eqn:Hsv; [|done]. apply save_cases in Hsv. cbv zeta in Hsv.
    assert (hr_ID (interrupted r) = hr_ID r) as HID by (unfold interrupted; by destruct (readOnlyAction _)).
    rewrite HID in Hsv. intros Hrest. eapply Hgo; [| | |exact Hrest]; subst x1; simpl; [|apply Hi..].
    exists (clk n). unfold loaded, unfinished. rewrite Hu. split; [|done]. by rewrite insert_insert_eq.
  - intros Hrest. eapply Hgo; [| | |exact Hrest]; simpl; [|apply Hi..].
    exists 0. unfold loaded, unfinished. rewrite Hu. split; [done|]. symmetry. apply insert_id.
    apply Hfiles. constructor.
Qed.

(** What a successful start guarantees. *)
Record loaded_from (files : journal_files) (x : Executor) : Prop := {
  lf_inv : journal_inv x;
  lf_active : x_active x = false;
  lf_failed : x_failed x = false;
  lf_dom : ∀ id, is_Some (x_records x !! id) ↔ is_Some (files !! id);
  lf_finished : ∀ id r, x_records x !! id = Some r → unfinished r = false;
  lf_settled : recoverySettlementPending (x_records x) = false;
  lf_records : ∀ id r, x_records x !! id = Some r → ∃ r0 now, files !! id = Some (Stored r0) ∧
    (r = loaded now r0 ∨ hr_State r = "failed") }.

Lemma load_inv_empty files : load_inv (mkExecutor ∅ files false false).
Proof. split; simpl; try done; intros id r; by rewrite lookup_empty. Qed.

Lemma load_inv_journal (x : Executor) :
  load_inv x → (∀ id, is_Some (x_files x !! id) → is_Some (x_records x !! id)) → journal_inv x.
Proof.
  intros [Hk Hf _ _ _] Hd. split; [done| | |].
  - intros id r Hr. exists r. split; [by apply Hf|done].
  - intros _. apply map_eq. intros id. rewrite lookup_fmap.
    destruct (x_records x !! id) as [r|] eqn:Hr; [by apply Hf|]. simpl.
    apply eq_None_not_Some. intros [r Hr']%Hd. congruence.
  - intros id r Hr _. by apply Hf.
Qed.

Lemma load_ok clk w locked files x :
  load clk w locked files = (x, Ok tt) → loaded_from files x.
Proof.
  unfold load. set (x0 := mkExecutor ∅ files false false).
  set (l := sorting.merge_sort file_le (map_to_list files)).
  assert (∀ id f, (id, f) ∈ l ↔ files !! id = Some f) as Hl.
  { intros id f. unfold l. rewrite sorting.merge_sort_Permutation. apply elem_of_map_to_list. }
  assert (NoDup l.*1) as Hnd.
  { unfold l. rewrite sorting.merge_sort_Permutation. apply NoDup_fst_map_to_list. }
  destruct (load_files _ _ _ _ _) as [[x1 n1] [[]|]] eqn:Hlf; [|done].
  destruct (load_files_ok _ _ _ _ _ _ _ Hnd (load_inv_empty files) (λ id f Hin, proj1 (Hl id f) Hin) Hlf) as (Hi & Hkeep & Hall).
  assert (∀ id, is_Some (x_records x1 !! id) ↔ is_Some (files !! id)) as Hdom.
  { intros id. destruct (files !! id) as [f|] eqn:Hf.
    - apply Hl in Hf. destruct (Hall _ _ Hf) as (r & now & _ & _ & ->). split; eauto.
    - destruct (Hkeep id) as [-> _]; [|split; [by intros []|by intros []]].
      rewrite list_elem_of_fmap. intros ([id' f] & -> & Hin%Hl). simpl in Hf. congruence. }
  assert (∀ id, is_Some (x_files x1 !! id) → is_Some (x_records x1 !! id)) as Hfd.
  { intros id Hf. apply Hdom. destruct (files !! id) as [f|] eqn:Hff; [eauto|].
    destruct (Hkeep id) as [_ Hk]; [|rewrite Hk in Hf; simpl in Hf; rewrite Hff in Hf; by destruct Hf].
    rewrite list_elem_of_fmap. intros ([id' f] & -> & Hin%Hl). simpl in Hff. congruence. }
  pose proof (load_inv_journal _ Hi Hfd) as Hji.
  destruct (_ && _); [done|]. unfold rollForwardRecoverySettlements.
  destruct (roll_forward _ _ _ _ _) as [[x2 n2] e2] eqn:Hrf. intros [= -> ->].
  destruct (roll_forward_inv _ _ _ _ _ _ _ _ Hji Hrf) as [Hi2 [Her Hef Hact]].
  destruct (roll_forward_ok _ _ _ _ _ _ _ Hji Hrf) as (Hf2 & Hl2 & _ & Hst & _ & Hbehind).
  assert (∀ id, is_Some (x_records x !! id) ↔ is_Some (x_records x1 !! id)) as Hdom2.
  { intros id. split.
    - intros [r Hr]. assert (is_Some (recoveryLinks (x_records x) !! id)) as Hs by (unfold recoveryLinks; rewrite lookup_fmap, Hr; eauto).
      rewrite Hl2 in Hs. unfold recoveryLinks in Hs. rewrite lookup_fmap in Hs. destruct (x_records x1 !! id); [eauto|by destruct Hs].
    - intros [r Hr]. destruct (Her _ _ Hr) as (r' & -> & _). eauto. }
  split; try done.
  - rewrite Hact. apply Hi.
  - rewrite Hf2. apply Hi.
  - intros id. by rewrite Hdom2.
  - intros id r [Hr|Hr]%Hst; [by eapply Hi|]. unfold unfinished. by rewrite Hr.
  - apply pending_none. intros id Hid. apply Hbehind. rewrite elem_of_sort_strings. apply elem_of_elements.
    apply elem_of_dom in Hid. apply elem_of_dom. by apply Hdom2.
  - intros id r Hr. assert (is_Some (files !! id)) as [f Hf] by (apply Hdom, Hdom2; eauto).
    destruct (Hall id f) as (r0 & now & -> & _ & Hr0); [by apply Hl|]. exists r0, now. split; [done|].
    destruct (Hst _ _ Hr) as [Hr1|?]; [left; congruence|auto].
Qed.

Lemma load_files_keep clk w locked files x e id :
  load clk w locked files = (x, e) → is_Some (files !! id) → is_Some (x_files x !! id).
Proof.
  unfold load. destruct (load_files _ _ _ _ _) as [[x1 n1] e1] eqn:Hlf.
  intros Hr Hs. pose proof (load_files_files _ _ _ _ _ _ _ _ id Hlf Hs) as Hs1.
  destruct e1 as [[]|]; [|by injection Hr as <- <-].
  destruct (_ && _); [by injection Hr as <- <-|]. unfold rollForwardRecoverySettlements in Hr.
  destruct (roll_forward _ _ _ _ _) as [[x2 n2] e2] eqn:Hrf. injection Hr as <- <-.
  assert (∀ ids n x1 x2 n2 e2, roll_forward clk w n ids x1 = (x2, n2, e2) → is_Some (x_files x1 !! id) → is_Some (x_files x2 !! id)) as Hgo.
  2:{ by eapply Hgo. }
  clear. intros ids. induction ids as [|k ids IH]; intros n x1 x2 n2 e2; simpl; [by intros [= <- <- <-]|].
  destruct (recovered_restore _); [|by apply IH].
  destruct (settleRecoveryChain _ _ _ _ _) as [[x3 n3] e3] eqn:Hs. intros Hrest Hid.
  assert (is_Some (x_files x3 !! id)) as H3 by (by eapply settle_chain_files).
  destruct e3; [by eapply IH|by injection Hrest as <- <- <-].
Qed.

(** ** Completion *)

Lemma run_outcome_Request data err r : hr_Request (run_outcome data err r) = hr_Request r.
Proof. unfold run_outcome. destruct err as [e|]; [destruct (readOnlyAction _); [|destruct (run_preflight e)]|destruct (EvidenceAction _)]; done. Qed.

Lemma commit_outcome_inv clk w n r x :
  journal_inv x → writable r (x_records x) →
  journal_inv (commit_outcome clk w n r x) ∧ extends x (commit_outcome clk w n r x).
Proof.
  intros Hi Hw. unfold commit_outcome. destruct (save _ _ _ _) as [x1 e1] eqn:Hsv.
  pose proof (save_inv _ _ _ _ _ _ Hi Hw Hsv) as Hi1. pose proof (save_extends _ _ _ _ _ _ Hw Hsv) as He1.
  destruct e1; [|done]. destruct (_ && _); [|done].
  destruct (settleRecoveryChain _ _ _ _ _) as [[x2 n2] e2] eqn:Hs.
  destruct (settle_chain_inv _ _ _ _ _ _ _ _ Hi1 Hs). split; [done|by etrans].
Qed.

(** The record of the operation being run. *)
Definition running_record (r : record) (m : records) : Prop :=
  ∃ r0, m !! hr_ID r = Some r0 ∧ hr_Request r0 = hr_Request r ∧ hr_State r0 = "running".

Lemma running_writable r r' m : running_record r m → hr_Request r' = hr_Request r → writable r' m.
Proof.
  intros (r0 & Hr0 & Hreq & Hs) Heq r1 Hr1. unfold hr_ID in *. rewrite Heq in Hr1. simplify_eq.
  rewrite Hs. split; [congruence|done].
Qed.

Lemma host_finish_inv clk w data err finalize r x :
  journal_inv x → running_record r (x_records x) →
  let x' := host_finish clk w data err finalize r x in
  journal_inv x' ∧ extends (set_x_active false x) x'.
Proof.
  intros Hi Hr. unfold host_finish. pose proof (run_outcome_Request data err r) as Hreq.
  set (r1 := run_outcome data err r) in *.
  assert (∀ y, journal_inv y → extends x y → journal_inv (set_x_active false y) ∧ extends (set_x_active false x) (set_x_active false y)) as Hdone.
  { intros y [] [H1 H2 H3]. split; [by split|]. split; [exact H1|exact H2|done]. }
  destruct (_ && _).
  - set (pending := set_hr_Result _ r1). assert (hr_Request pending = hr_Request r) as Hp by done.
    destruct (save _ _ _ _) as [x1 e1] eqn:Hsv.
    pose proof (running_writable _ _ _ Hr Hp) as Hw.
    pose proof (save_inv _ _ _ _ _ _ Hi Hw Hsv) as Hi1. pose proof (save_extends _ _ _ _ _ _ Hw Hsv) as He1.
    destruct e1; [|by apply Hdone].
    assert (running_record r (x_records x1)) as Hr1.
    { apply save_cases in Hsv. cbv zeta in Hsv. destruct a. subst x1. simpl.
      exists (set_hr_UpdatedAt (clk 0%nat) pending).
      assert (hr_ID pending = hr_ID r) as -> by (unfold hr_ID; by rewrite Hp).
      split; [apply lookup_insert_eq|by split]. }
    match goal with |- context [commit_outcome clk w 1%nat ?q x1] => set (final := q) end.
    assert (hr_Request final = hr_Request r) as Hfin by (unfold final; by destruct finalize).
    destruct (commit_outcome_inv clk w 1 final x1 Hi1 (running_writable _ _ _ Hr1 Hfin)).
    apply Hdone; [done|by etrans].
  - destruct (commit_outcome_inv clk w 1 r1 x Hi (running_writable _ _ _ Hr Hreq)). by apply Hdone.
Qed.

(** ** Acceptance *)

(** What [Submit] checked before it starts a run. *)
Record started_under (ev : SubmitEnv) (peer : Z) (req : Request) (x : Executor) (r : record) : Prop := {
  su_record : r = accept_record policy (se_clk ev 1%nat) peer req;
  su_peer : peer = po_AllowedUID policy;
  su_request : rq_Version req = ContractVersion ∧ validID (rq_ID req) = true ∧
    safeIdentity (rq_ExecutionIdentity req) = true ∧ rq_PayloadHash req = RequestHash req;
  su_new : x_records x !! rq_ID req = None;
  su_idle : x_active x = false ∧ x_failed x = false;
  su_capacity : Z.of_nat (size (x_records x)) < po_MaxRecords policy;
  su_valid : validate policy (se_clk ev 0%nat) (se_source ev) (x_records x) req = Ok tt;
  su_environment : se_verify ev = Ok tt ∧ se_lock ev = Ok tt }.

Lemma Submit_started ev peer req x x' res r :
  Submit policy ev peer req x = (x', res, Some r) →
  started_under ev peer req x r ∧ res = Ok (hr_Result r) ∧
  ∃ x1, save (se_clk ev 2%nat) (se_write ev) r x = (x1, Ok tt) ∧ x' = set_x_active true x1.
Proof.
  unfold Submit. destruct (negb (peer =? _)) eqn:Hp; [done|]. destruct (_ || (rq_PayloadHash req <>s _)) eqn:Hq; [done|].
  destruct (x_records x !! rq_ID req) eqn:Hn; [intros Hs; by case_match|].
  destruct (x_active x || x_failed x) eqn:Hi; [done|]. destruct (_ >=? _) eqn:Hc; [done|].
  destruct (validate _ _ _ _ _) as [[]|] eqn:Hv; [|done]. destruct (se_verify ev) as [[]|] eqn:Hve; [|done].
  destruct (se_lock ev) as [[]|] eqn:Hlk; [|done]. destruct (save _ _ _ _) as [x1 [[]|]] eqn:Hsv; [|done].
  intros [= <- <- <-]. bool_hyps. split; [|split; [done|eauto]]. split; try done; try lia.
Qed.

Lemma Submit_other ev peer req x x' res :
  journal_inv x → Submit policy ev peer req x = (x', res, None) →
  journal_inv x' ∧ extends x x' ∧ x_records x' = x_records x.
Proof.
  intros Hi. unfold Submit. destruct (negb (peer =? _)); [by intros [= <- _]|]. destruct (_ || _); [by intros [= <- _]|].
  destruct (x_records x !! rq_ID req) as [old|] eqn:Hn; [intros Hs; case_match; by injection Hs as <- _|].
  destruct (x_active x || x_failed x); [by intros [= <- _]|]. destruct (_ >=? _); [by intros [= <- _]|].
  destruct (validate _ _ _ _ _); [|by intros [= <- _]]. destruct (se_verify ev); [|by intros [= <- _]].
  destruct (se_lock ev); [|by intros [= <- _]]. destruct (save _ _ _ _) as [x1 [[]|]] eqn:Hsv; [done|].
  intros [= <- _].
  assert (writable (accept_record policy (se_clk ev 1%nat) peer req) (x_records x)) as Hw.
  { intros r0 Hr0. unfold hr_ID in Hr0. simpl in Hr0. congruence. }
  split_and!; [by eapply save_inv|by eapply save_extends|].
  apply save_cases in Hsv. by destruct Hsv.
Qed.

(** ** The invariant over time *)

Record host_inv (z : Host) : Prop := {
  hi_up : z_up z = true → journal_inv (z_x z) ∧ x_active (z_x z) = is_some (z_run z) ∧
    (∀ r, z_run z = Some r → running_record r (x_records (z_x z))) ∧
    (∀ r, r ∈ z_started z → is_Some (x_records (z_x z) !! hr_ID r));
  hi_down : z_up z = false → z_run z = None;
  hi_files : ∀ r, r ∈ z_started z → is_Some (x_files (z_x z) !! hr_ID r);
  hi_once : NoDup (hr_ID <$> z_started z) }.

Lemma extends_records x x' id : extends x x' → is_Some (x_records x !! id) → is_Some (x_records x' !! id).
Proof. intros He [r Hr]. destruct (ex_records _ _ He _ _ Hr) as (r' & -> & _). eauto. Qed.

Lemma host_step_inv z z' : host_inv z → host_step z z' → host_inv z'.
Proof.
  intros [Hup Hdown Hfiles Honce] Hst. destruct Hst as [z ev peer req x res started Hu Hs|z clk w data err fin r Hu Hr|z clk w locked x res Hl].
  - destruct (Hup Hu) as (Hi & Hact & Hrun & Hrec). destruct started as [r|].
    + apply Submit_started in Hs as (Hsu & -> & x1 & Hsv & ->). pose proof Hsu as [Hr _ _ Hnew [Hidle _] _ _ _].
      assert (hr_ID r = rq_ID req) as HID by (by rewrite Hr).
      assert (writable r (x_records (z_x z))) as Hw by (intros r0; rewrite HID; congruence).
      pose proof (save_inv _ _ _ _ _ _ Hi Hw Hsv) as Hi1. pose proof (save_extends _ _ _ _ _ _ Hw Hsv) as He1.
      pose proof Hsv as Hsv'. apply save_cases in Hsv'. cbv zeta in Hsv'.
      split; simpl; [intros _; split_and!| | |].
      * by destruct Hi1; split.
      * done.
      * intros r0 [= <-]. subst x1. simpl. eexists. rewrite lookup_insert_eq. split; [done|]. by rewrite Hr.
      * intros r0 [Hin| ->%list_elem_of_singleton]%elem_of_app; [by eapply extends_records, Hrec|].
        subst x1. simpl. rewrite lookup_insert_eq. eauto.
      * done.
      * intros r0 [Hin| ->%list_elem_of_singleton]%elem_of_app; [by eapply ex_files, Hfiles|].
        subst x1. simpl. rewrite lookup_insert_eq. eauto.
      * rewrite fmap_app. apply NoDup_app. split_and!; [done| |apply NoDup_singleton].
        intros k (r0 & -> & Hin)%list_elem_of_fmap Hk%list_elem_of_singleton. rewrite HID in Hk.
        destruct (Hrec _ Hin) as [? Hr0]. congruence.
    + apply Submit_other in Hs as (Hi1 & He1 & Hsame); [|done]. rewrite app_nil_r.
      split; simpl; [intros _; split_and!| | |]; rewrite ?Hsame; try done.
      * by rewrite (ex_active _ _ He1).
      * intros r Hin. by eapply ex_files, Hfiles.
  - destruct (Hup Hu) as (Hi & Hact & Hrun & Hrec).
    destruct (host_finish_inv clk w data err fin r (z_x z) Hi (Hrun _ Hr)) as [Hi1 He1].
    split; simpl; [intros _; split_and!| | |]; try done.
    + intros r0 Hin. by eapply (extends_records _ _ _ He1), Hrec.
    + intros r0 Hin. by eapply (ex_files _ _ He1), Hfiles.
  - assert (∀ r, r ∈ z_started z → is_Some (x_files x !! hr_ID r)) as Hf.
    { intros r Hin. eapply load_files_keep; [done|by apply Hfiles]. }
    split; simpl; try done. intros Hok. destruct res as [[]|]; [|done].
    apply load_ok in Hl as [Hi Hact _ Hdom _ _ _]. split_and!; [done|done|done|].
    intros r Hin. apply Hdom. by apply Hfiles.
Qed.

Lemma host_reachable_inv z : host_reachable z → host_inv z.
Proof.
  unfold host_reachable. intros Hr. remember host_initial as z0 eqn:Hz.
  assert (host_inv z0) as Hi.
  { subst z0. split; simpl; try done; [intros r Hin; by apply elem_of_nil in Hin|constructor]. }
  clear Hz. induction Hr; [done|]. eauto using host_step_inv.
Qed.

(** ** Properties *)

(** C8: One run per operation identifier. Over any sequence of submissions, completions,
    failing journal writes, crashes and restarts, the helper starts the external run
    of an identifier at most once. *)
Theorem host_runs_once z : host_reachable z → NoDup (hr_ID <$> z_started z).
Proof. intros Hr. by apply hi_once, host_reachable_inv. Qed.

(** C9: No false success. When the helper answers that an operation succeeded, the
    journal file of that operation already holds that very result. *)
Theorem reported_success_durable z id res :
  host_reachable z → z_up z = true → Status (z_x z) id = Ok res → hs_State res = "succeeded" →
  ∃ r, x_files (z_x z) !! id = Some (Stored r) ∧ hr_Result r = res.
Proof.
  intros Hr Hu Hst Hs. destruct (hi_up _ (host_reachable_inv _ Hr) Hu) as (Hi & _). unfold Status in Hst.
  destruct (x_records (z_x z) !! id) as [r|] eqn:Hrec; [|done]. injection Hst as <-. unfold visibleResult in *.
  destruct (_ && _); [done|]. exists r. split; [|done]. by apply (ji_success _ Hi).
Qed.

(** Starts are admitted one at a time. The helper starts a run only for the
    configured peer, a well-formed request with an intact hash, a fresh identifier
    below the retention bound, with no run in progress, an intact journal, a valid
    request, a verified runtime and the canonical lock; the intent is then in its
    file, and no other submission starts anything until this run completes. *)
Theorem host_start_gate z ev peer req x res r :
  host_reachable z → z_up z = true → Submit policy ev peer req (z_x z) = (x, res, Some r) →
  started_under ev peer req (z_x z) r ∧ z_run z = None ∧
  (∃ r', x_files x !! rq_ID req = Some (Stored r') ∧ hr_Request r' = req ∧ hr_State r' = "running") ∧
  ∀ ev' peer' req', (Submit policy ev' peer' req' x).2 = None.
Proof.
  intros Hr Hu Hs. destruct (hi_up _ (host_reachable_inv _ Hr) Hu) as (Hi & Hact & _).
  apply Submit_started in Hs as (Hsu & -> & x1 & Hsv & ->). split; [done|]. pose proof Hsu as [-> _ _ _ [Hidle _] _ _ _].
  split; [rewrite Hact in Hidle; by destruct (z_run z)|]. split.
  - apply save_cases in Hsv. cbv zeta in Hsv. subst x1. simpl. eexists. split; [apply lookup_insert_eq|done].
  - intros ev' peer' req'. destruct (Submit policy ev' peer' req' _) as [[x2 res2] [r2|]] eqn:Hs2; [|done].
    apply Submit_started in Hs2 as ([_ _ _ _ [Hbusy _] _ _ _] & _). done.
Qed.

(** A restart never retries. After a successful start no record is left running or
    queued: an interrupted diagnostic is failed, an interrupted mutation requires
    recovery, every other record is as its file had it unless a completed restore
    resolved it, no file is dropped, and no settlement is pending. *)
Theorem restart_disposition clk w locked files x :
  load clk w locked files = (x, Ok tt) →
  (∀ id, is_Some (x_records x !! id) ↔ is_Some (files !! id)) ∧
  (∀ id r, x_records x !! id = Some r → hr_State r ≠ "running" ∧ hr_State r ≠ "queued" ∧
     ∃ r0, files !! id = Some (Stored r0) ∧
       (hr_State r = "failed" ∨
        hr_State r = (if unfinished r0 then "recovery-required" else hr_State r0))) ∧
  recoverySettlementPending (x_records x) = false ∧ x_active x = false ∧
  x_files x = Stored <$> x_records x.
Proof.
  intros [Hi Hact Hf Hdom Hfin Hset Hrec]%load_ok. split_and!; try done.
  - intros id r Hr. pose proof (Hfin _ _ Hr) as Hu. unfold unfinished in Hu. bool_hyps. split_and!; [done..|].
    destruct (Hrec _ _ Hr) as (r0 & now & Hf0 & [->|?]); [|eauto]. exists r0. split; [done|]. unfold loaded.
    destruct (unfinished r0); [|auto]. unfold interrupted. destruct (readOnlyAction _); auto.
  - by apply (ji_agree _ Hi).
Qed.

(** While recovery is outstanding only its restore may run. If any helper operation
    requires recovery when a run starts, that run is an explicit restore, and every
    such operation lies on the chain it names, on the target it names. *)
Theorem recovery_fence ev peer req x x' res r k rk :
  Submit policy ev peer req x = (x', res, Some r) →
  x_records x !! k = Some rk → unresolved rk →
  hr_Action r = "profile.restore" ∧
  ∃ old chain, x_records x !! d_RecoveryID (hr_Draft r) = Some old ∧ unresolved old ∧
    d_Target (hr_Draft old) = d_Target (hr_Draft r) ∧ d_Target (hr_Draft r) = po_Target policy ∧
    RecoveryChain (recoveryLinks (x_records x)) (d_RecoveryID (hr_Draft r)) = Ok chain ∧ k ∈ chain.
Proof.
  intros ([-> _ _ _ _ _ Hv _] & _)%Submit_started Hk Hu. unfold validate in Hv.
  destruct (negb (d_Target _ =s _)) eqn:Ht; [done|]. apply bind_ok in Hv as ([] & Hv & _). clear -Ht Hv Hk Hu.
  apply negb_false_iff, String.eqb_eq in Ht. unfold accept_record, hr_Action, hr_Draft in *. simpl in *.
  unfold validateRecovery in Hv. destruct (String.eqb_spec (d_RecoveryID (rq_Draft req)) "") as [He|He].
  - simpl in Hv. destruct (existsb _ _) eqn:Hex; [done|]. rewrite existsb_false, Forall_forall in Hex.
    specialize (Hex (k, rk) (proj2 (elem_of_map_to_list _ _ _) Hk)). simpl in Hex. unfold unresolved in Hu.
    by rewrite Hu, eqb_str_refl in Hex.
  - simpl in Hv. split_hyp Hv. bool_hyps.
    match goal with E : existsb _ _ = false |- _ => rewrite existsb_false, Forall_forall in E; rename E into Hex end.
    specialize (Hex (k, rk) (proj2 (elem_of_map_to_list _ _ _) Hk)). simpl in Hex. unfold unresolved in *.
    rewrite Hu, eqb_str_refl in Hex. simpl in Hex. apply negb_false_iff, bool_decide_eq_true in Hex.
    split; [done|]. eexists _, _. by split_and!.
Qed.

Lemma settle_members_total clk w id ids : (∀ n, w n = Written) → ∀ n x,
  ∃ x' n', settle_members clk w n id ids x = (x', n', Ok tt).
Proof.
  intros Hw. induction ids as [|k ids IH]; intros n x; simpl; [eauto|].
  destruct (_ <>s _); [apply IH|]. rewrite Hw. apply IH.
Qed.

(** The restore [r] started after every unresolved attempt of its chain. *)
Definition latest_attempt (r : record) (chain : gset string) (m : records) : Prop :=
  hr_StartedAt r ≠ zeroTime ∧
  ∀ k rk, k ∈ chain → k ≠ hr_ID r → m !! k = Some rk → unresolved rk →
    hr_StartedAt rk ≠ zeroTime ∧ hr_StartedAt rk < hr_StartedAt r.

Lemma settle_chain_total clk w n id x r chain :
  (∀ n, w n = Written) → x_records x !! id = Some r → hr_ID r = id →
  RecoveryChain (recoveryLinks (x_records x)) id = Ok chain → latest_attempt r chain (x_records x) →
  ∃ x' n', settleRecoveryChain clk w n id x = (x', n', Ok tt).
Proof.
  intros Hw Hr HID Hc [Hz Hl]. unfold settleRecoveryChain. rewrite Hc.
  rewrite (bool_decide_eq_true_2 _ (RecoveryChain_self _ _ _ Hc)). simpl.
  replace (existsb _ (elements chain)) with false; [by apply settle_members_total|]. symmetry.
  rewrite existsb_false, Forall_forall. intros k Hk%elem_of_elements. unfold unordered. rewrite Hr. simpl.
  destruct (String.eqb_spec k id) as [|Hne]; [done|]. simpl.
  destruct (x_records x !! k) as [rk|] eqn:Hrk; [|done]. simpl.
  destruct (String.eqb_spec (hr_State rk) "recovery-required") as [Hu|]; [|done]. simpl.
  destruct (Hl k rk) as [Hzk Hlt]; [done|congruence|done..|].
  apply Z.eqb_neq in Hz as ->. apply Z.eqb_neq in Hzk as ->. simpl. unfold before.
  by apply Z.ltb_lt in Hlt as ->.
Qed.

(** The journal once the outcome [r1] of a run is recorded. *)
Definition recorded (now : time) (r1 : record) (x : Executor) : Executor :=
  mkExecutor (<[hr_ID r1 := set_hr_UpdatedAt now r1]> (x_records x))
    (<[hr_ID r1 := Stored (set_hr_UpdatedAt now r1)]> (x_files x)) (x_active x) (x_failed x).

Lemma save_written now r x : save now Written r x = (recorded now r x, Ok tt).
Proof. done. Qed.

Lemma recorded_twice now now' st r1 x :
  recorded now' r1 (recorded now (set_hr_Result st r1) x) = recorded now' r1 x.
Proof.
  unfold recorded. simpl. change (hr_ID (set_hr_Result st r1)) with (hr_ID r1). by rewrite !insert_insert_eq.
Qed.

Lemma host_finish_written clk w data r x :
  (∀ n, w n = Written) → hr_Action r = "profile.restore" → d_RecoveryID (hr_Draft r) ≠ "" →
  let r1 := run_outcome data None r in
  hr_ID r1 = hr_ID r ∧ hr_Request r1 = hr_Request r ∧ hr_State r1 = "succeeded" ∧ hr_StartedAt r1 = hr_StartedAt r ∧
  host_finish clk w data None true r x =
    set_x_active false (settleRecoveryChain clk w 2 (hr_ID r) (recorded (clk 1%nat) r1 x)).1.1.
Proof.
  intros Hw Ha Hrec r1.
  assert (r1 = outcome "succeeded" "effects-complete" "Validated operation completed; physical GPU release is a point-in-time observation."
    (set_hr_Result (mkHostResult (hs_ID (hr_Result r)) (hr_State r) (hs_Phase (hr_Result r)) (hs_Message (hr_Result r)) data) r)) as Hr1.
  { unfold r1, run_outcome. change (hr_Action (set_hr_Result ?v r)) with (hr_Action r). by rewrite Ha. }
  assert (hr_Request r1 = hr_Request r ∧ hr_State r1 = "succeeded" ∧ hr_StartedAt r1 = hr_StartedAt r) as (Hq & Hs & Hst)
    by (by rewrite Hr1).
  unfold host_finish. fold r1. clearbody r1. clear Hr1.
  assert (hr_ID r1 = hr_ID r ∧ hr_Draft r1 = hr_Draft r ∧ hr_Action r1 = hr_Action r) as (HID & HD & HA)
    by (unfold hr_ID, hr_Action, hr_Draft; by rewrite Hq).
  split_and!; [done..|]. f_equal. rewrite Hs, HA, Ha, eqb_str_refl.
  change (negb (readOnlyAction "profile.restore")) with true. cbn [andb]. rewrite Hw, save_written.
  unfold commit_outcome. rewrite Hw, save_written, recorded_twice, Hs, eqb_str_refl, HD, (neqb_str _ _ Hrec), HID. done.
Qed.

(** An explicit restore lifts the fence. When the external restore and the build gate
    succeed and every journal write is accepted, the restore is reported as
    succeeded, every earlier attempt of its chain that required recovery is a
    certain failure naming it, in memory and in its file, and no record outside the
    chain is touched. *)
Theorem restore_settles clk w data r x chain :
  journal_inv x → running_record r (x_records x) → x_failed x = false → (∀ n, w n = Written) →
  hr_Action r = "profile.restore" → d_RecoveryID (hr_Draft r) ≠ "" →
  RecoveryChain (recoveryLinks (x_records x)) (hr_ID r) = Ok chain → latest_attempt r chain (x_records x) →
  let x' := host_finish clk w data None true r x in
  (∃ res, Status x' (hr_ID r) = Ok res ∧ hs_State res = "succeeded") ∧
  (∀ k rk, k ∈ chain → k ≠ hr_ID r → x_records x !! k = Some rk → unresolved rk →
     ∃ now, x_records x' !! k = Some (resolved (hr_ID r) now rk) ∧
       x_files x' !! k = Some (Stored (resolved (hr_ID r) now rk))) ∧
  (∀ k, k ∉ chain → k ≠ hr_ID r → x_records x' !! k = x_records x !! k).
Proof.
  intros Hi Hrun Hfail Hw Ha Hrec Hc Hlat. cbv zeta.
  destruct (host_finish_written clk w data r x Hw Ha Hrec) as (HID & Hreq & Hs & Hst & ->).
  set (r1 := run_outcome data None r) in *. clearbody r1. set (x2 := recorded (clk 1%nat) r1 x).
  set (r2 := set_hr_UpdatedAt (clk 1%nat) r1).
  assert (x_records x2 = <[hr_ID r := r2]> (x_records x)) as Hx2 by (unfold x2, recorded; by rewrite HID).
  assert (recoveryLinks (x_records x2) = recoveryLinks (x_records x)) as Hl2.
  { rewrite Hx2. unfold recoveryLinks. rewrite fmap_insert. destruct Hrun as (r0 & Hr0 & Hq & _).
    apply insert_id. rewrite lookup_fmap, Hr0. simpl. f_equal. unfold r2, hr_Action, hr_Draft. simpl. by rewrite Hreq, Hq. }
  assert (journal_inv x2) as Hi2.
  { eapply (save_inv (clk 1%nat) Written); [exact Hi| |apply save_written]. by eapply running_writable. }
  assert (latest_attempt r2 chain (x_records x2)) as Hlat2.
  { destruct Hlat as [Hz Hl]. unfold latest_attempt. change (hr_StartedAt r2) with (hr_StartedAt r1).
    change (hr_ID r2) with (hr_ID r1). rewrite Hst, HID. split; [done|]. intros k rk Hk Hne. rewrite Hx2, lookup_insert_ne by done.
    by apply Hl. }
  destruct (settle_chain_total clk w 2 (hr_ID r) x2 r2 chain) as (x3 & n3 & Hsettle);
    [done|by rewrite Hx2, lookup_insert_eq|done|by rewrite Hl2|done|].
  rewrite Hsettle. cbn [fst]. apply (settle_chain_ok _ _ _ _ _ _ _ Hi2) in Hsettle as (ch & Hch & _ & _ & Hf3 & _ & Hset).
  rewrite Hl2, Hc in Hch. injection Hch as <-. split_and!.
  - pose proof (Hset (hr_ID r)) as Hown. rewrite Hx2, lookup_insert_eq in Hown.
    rewrite bool_decide_eq_false_2 in Hown by naive_solver. simpl in Hown. destruct Hown as [Hown _].
    unfold Status. simpl. rewrite Hown. eexists. split; [done|]. unfold visibleResult. simpl.
    rewrite Hf3. change (x_failed x2) with (x_failed x). rewrite Hfail. exact Hs.
  - intros k rk Hk Hne Hrk Hu. specialize (Hset k). rewrite Hx2, lookup_insert_ne, Hrk in Hset by done.
    unfold unresolved in Hu. rewrite Hu, eqb_str_refl, bool_decide_eq_true_2 in Hset by done. exact Hset.
  - intros k Hk Hne. specialize (Hset k). rewrite Hx2, lookup_insert_ne in Hset by done. simpl.
    destruct (x_records x !! k) as [rk|]; [|done]. rewrite bool_decide_eq_false_2 in Hset by naive_solver. by destruct Hset.
Qed.

End Host.

(** ** A concrete helper *)

Lemma journal_inv_exact x :
  x_files x = Stored <$> x_records x → bool_decide (map_Forall (λ id r, hr_ID r = id) (x_records x)) = true → journal_inv x.
Proof.
  intros Hf Hk%bool_decide_eq_true. split.
  - intros id r Hr. exact (map_Forall_lookup_1 _ _ _ _ Hk Hr).
  - intros id r Hr. exists r. by rewrite Hf, lookup_fmap, Hr.
  - done.
  - intros id r Hr _. by rewrite Hf, lookup_fmap, Hr.
Qed.

Module HostFixture.
#[local] Existing Instance render_hash.
Definition policy : Policy :=
  mkPolicy ∅ ∅ 1 1000 "/run/h.sock" "/var/lib/h" "/var/lib/s" "/opt/r" ∅ ∅ "/etc/w" "/etc/c" "/var/hw" "/models" ""
    "/etc/k" "/usr/bin/kubectl" "ctx" "ws" "dev" "ns" "ai" "u1" "game" "u2" 60 ∅ ∅ 16.
Definition draft (action parent : string) : Draft :=
  mkDraft action "ws" "rev" "" "" "" parent None None None None None.
Definition request (id action parent : string) : Request :=
  let r := mkRequest 1 id "bridge" "" (draft action parent) Configuration0 in set_rq_PayloadHash (RequestHash r) r.
Definition env : SubmitEnv := mkSubmitEnv (λ _, 5) Absent (Ok tt) (Ok tt) Written.
Definition submitted := Submit policy env 1000 (request "refresh-01" "hardware.refresh" "").
Definition x0 : Executor := mkExecutor ∅ ∅ false false.
Definition z0 : Host := mkHost x0 true None [].
Definition started : record := accept_record policy 5 1000 (request "refresh-01" "hardware.refresh" "").
Definition z1 : Host := mkHost (submitted x0).1.1 true (Some started) [started].
Definition z2 : Host := mkHost (host_finish (λ _, 6) (λ _, Written) (Some "{}") None true started (z_x z1)) true None [started].

Lemma up : host_reachable policy z0.
Proof. apply rtc_once. exact (h_restart policy host_initial (λ _, 0) (λ _, Written) true x0 (Ok tt) eq_refl). Qed.

Lemma submitted_ok : submitted x0 = ((submitted x0).1.1, Ok (hr_Result started), Some started).
Proof. vm_compute. reflexivity. Qed.

Lemma z1_reachable : host_reachable policy z1.
Proof.
  eapply rtc_r; [exact up|].
  exact (h_submit policy z0 env 1000 (request "refresh-01" "hardware.refresh" "") _ _ (Some started) eq_refl submitted_ok).
Qed.

Lemma z2_reachable : host_reachable policy z2.
Proof. eapply rtc_r; [exact z1_reachable|]. exact (h_finish policy z1 (λ _, 6) (λ _, Written) (Some "{}") None true started eq_refl eq_refl). Qed.

(** An uncertain switch, and its restore in progress. *)
Definition switch : record :=
  mkRecord (request "switch-01" "profile.switch" "") (mkHostResult "switch-01" "recovery-required" "" "" None) 1000 "" 1 1.
Definition restore : record :=
  mkRecord (request "restore-01" "profile.restore" "switch-01") (mkHostResult "restore-01" "running" "" "" None) 1000 "" 2 2.
Definition both : gmap string record := list_to_map [("switch-01", switch); ("restore-01", restore)].
Definition x_restore : Executor := mkExecutor both (Stored <$> both) true false.
Definition fenced : Executor := mkExecutor {["switch-01" := switch]} {["switch-01" := Stored switch]} false false.
Definition chain : gset string := {["switch-01"; "restore-01"]}.
(** The source holds the desired configuration of the restore. *)
Definition restore_request : Request :=
  let c := DomainFixture.config in
  let d := mkDraft "profile.restore" "ws" (cf_Revision c) "" "" "" "switch-01" None None None None None in
  let r := mkRequest 1 "restore-02" "bridge" "" d c in set_rq_PayloadHash (RequestHash r) r.
Definition restore_env : SubmitEnv := mkSubmitEnv (λ _, 5) (Document DomainFixture.config) (Ok tt) (Ok tt) Written.
Definition resubmitted := Submit policy restore_env 1000 restore_request fenced.
Definition restarting : record :=
  mkRecord (request "switch-01" "profile.switch" "") (mkHostResult "switch-01" "running" "" "" None) 1000 "" 1 1.
Definition loaded_ := load (λ _, 9) (λ _, Written) true {["switch-01" := Stored restarting]}.
End HostFixture.

#[local] Existing Instance render_hash.

Lemma host_runs_once_witness :
  NoDup (hr_ID <$> z_started HostFixture.z2) ∧ z_started HostFixture.z2 = [HostFixture.started].
Proof. split; [exact (host_runs_once HostFixture.policy _ HostFixture.z2_reachable)|reflexivity]. Defined.

Lemma reported_success_durable_witness :
  ∃ res r, Status (z_x HostFixture.z2) "refresh-01" = Ok res ∧
    x_files (z_x HostFixture.z2) !! "refresh-01" = Some (Stored r) ∧ hr_Result r = res.
Proof.
  assert (∃ res, Status (z_x HostFixture.z2) "refresh-01" = Ok res ∧ hs_State res = "succeeded") as (res & Hres & Hs)
    by (eexists; split; vm_compute; reflexivity).
  destruct (reported_success_durable HostFixture.policy _ "refresh-01" res HostFixture.z2_reachable eq_refl Hres Hs) as (r & Hf & Hr).
  exists res, r. exact (conj Hres (conj Hf Hr)).
Defined.

Lemma host_start_gate_witness :
  started_under HostFixture.policy HostFixture.env 1000 (HostFixture.request "refresh-01" "hardware.refresh" "")
    HostFixture.x0 HostFixture.started.
Proof.
  exact (proj1 (host_start_gate HostFixture.policy HostFixture.z0 HostFixture.env 1000 _ _ _ _
    HostFixture.up eq_refl HostFixture.submitted_ok)).
Defined.

Lemma restart_disposition_witness :
  ∃ r, x_records HostFixture.loaded_.1 !! "switch-01" = Some r ∧ hr_State r = "recovery-required" ∧
    recoverySettlementPending (x_records HostFixture.loaded_.1) = false.
Proof.
  assert (HostFixture.loaded_ = (HostFixture.loaded_.1, Ok tt)) as Hl.
  { assert (HostFixture.loaded_.2 = Ok tt) as Hok by (vm_compute; reflexivity).
    rewrite <- Hok. by destruct HostFixture.loaded_. }
  destruct (restart_disposition _ _ _ _ _ Hl) as (_ & _ & Hset & _).
  eexists. split; [vm_compute; reflexivity|]. split; [reflexivity|exact Hset].
Defined.

Lemma recovery_fence_witness :
  ∃ r, HostFixture.resubmitted.2 = Some r ∧ hr_Action r = "profile.restore".
Proof.
  assert (∃ r, HostFixture.resubmitted.2 = Some r) as [r Hr] by (eexists; vm_compute; reflexivity).
  exists r. split; [exact Hr|].
  refine (proj1 (recovery_fence HostFixture.policy HostFixture.restore_env 1000 HostFixture.restore_request HostFixture.fenced
    HostFixture.resubmitted.1.1 HostFixture.resubmitted.1.2 r "switch-01" HostFixture.switch _ _ _)).
  - rewrite <- Hr. change (Submit _ _ _ _ _) with HostFixture.resubmitted. by destruct HostFixture.resubmitted as [[? ?] ?].
  - reflexivity.
  - reflexivity.
Defined.

Lemma restore_settles_witness :
  ∃ now, x_records (host_finish (λ _, 9) (λ _, Written) None None true HostFixture.restore HostFixture.x_restore) !! "switch-01"
    = Some (resolved "restore-01" now HostFixture.switch).
Proof.
  destruct (restore_settles (λ _, 9) (λ _, Written) None HostFixture.restore HostFixture.x_restore HostFixture.chain)
    as (_ & Hset & _).
  - apply journal_inv_exact; vm_compute; reflexivity.
  - eexists. split; [vm_compute; reflexivity|]. split; reflexivity.
  - reflexivity.
  - intros n. reflexivity.
  - reflexivity.
  - discriminate.
  - vm_compute. reflexivity.
  - split; [discriminate|]. intros k rk Hk Hne Hrk _.
    assert (k = "switch-01") as ->.
    { unfold HostFixture.chain in Hk. apply elem_of_union in Hk as [->%elem_of_singleton| ->%elem_of_singleton]; [done|].
      exfalso. by apply Hne. }
    assert (x_records HostFixture.x_restore !! "switch-01" = Some HostFixture.switch) as Heq by (vm_compute; reflexivity).
    rewrite Heq in Hrk. injection Hrk as <-. split; [discriminate|reflexivity].
  - destruct (Hset "switch-01" HostFixture.switch) as (now & Hn & _); [|discriminate|vm_compute; reflexivity|reflexivity|].
    + unfold HostFixture.chain. apply elem_of_union. left. by apply elem_of_singleton.
    + exists now. exact Hn.
Defined.
