(* ===== verification/Kube.v ===== *)
(** Reading the cluster ([internal/hostexec/runtime.go], [inventory.go], [hardware.go]): Kubernetes
    quantities, what Pods request, the hardware report, the state of the served Pod, and the
    serving Deployment rendered for a configuration.

    A document is what [json.Unmarshal] stores into a [map\[string\]any], the trees of [Tree]. *)
From S2P Require Import Prelude Json Tree Types Domain HostPolicy.
From Stdlib Require Import SpecFloat.
From stdpp Require Import pretty.
#[local] Open Scope Z_scope.

(** [time.Parse(time.RFC3339, s)], when it succeeds. *)
Class RFC3339 := parse_rfc3339 : string → option time.

Section Quantity.
Context `{FloatText}.

(** ** Quantities *)

Definition memory_units : list (string * Z) :=
  [("Ki", 2^10); ("Mi", 2^20); ("Gi", 2^30); ("Ti", 2^40); ("K", 10^3); ("M", 10^6); ("G", 10^9)].
(** The text without its unit, and the unit's factor. *)
Definition scaled (s : string) (cpu : bool) : string * Z :=
  if cpu then if has_suffix s "m" then (trim_suffix s "m", 1) else (s, 1000)
  else match List.find (λ u : string * Z, has_suffix s u.1) memory_units with
       | Some u => (trim_suffix s u.1, u.2)
       | None => (s, 1)
       end.
Definition err_quantity : error := Plain "unsupported Kubernetes resource quantity".
Definition checked_quantity (n : float64) (factor : Z) : result Z :=
  let q := SFmul 53 1024 n (float_of factor) in
  reject SFltb n f0 || SFltb (float_of (2^60)) q with err_quantity ;; Ok (int64_of q).
(** [quantity]: the text of a double parses back to it; the text of anything but a string or
    a number does not parse. *)
Definition quantity (v : JSON) (cpu : bool) : result Z :=
  match v with
  | JString s =>
    let '(s, factor) := scaled s cpu in
    match parse_float s with (n, true) => checked_quantity n factor | (_, false) => Err err_quantity end
  | JFloat f => checked_quantity f (if cpu then 1000 else 1)
  | _ => Err err_quantity
  end.

(** ** What a Pod requests *)

Definition resource_keys : list string := ["cpu"; "memory"; "amd.com/gpu"].
(** The request of one container: nil counts nothing. *)
Definition container_request (key : string) (c : JSON) : result Z :=
  let v := Nested c ["resources"; "requests"; key] in
  if is_null v then Ok 0 else quantity v (key =s "cpu").
Fixpoint sum_containers (key : string) (l : list JSON) (sum : Z) : result Z :=
  match l with
  | [] => Ok sum
  | c :: l => q ← container_request key c; sum_containers key l (add64 sum q)
  end.
Fixpoint max_init (refusal : error) (key : string) (l : list JSON) (most : Z) : result Z :=
  match l with
  | [] => Ok most
  | c :: l =>
    reject str (get "restartPolicy" c) =s "Always" with refusal ;;
    q ← container_request key c; max_init refusal key l (Z.max most q)
  end.
(** The loop body both accountings share: containers next to the largest init container,
    and the overhead on top. *)
Definition pod_request (refusal : error) (pod : JSON) (key : string) : result Z :=
  sum ← sum_containers key (list_of (Nested pod ["spec"; "containers"])) 0;
  init ← max_init refusal key (list_of (Nested pod ["spec"; "initContainers"])) 0;
  let sum := if init >? sum then init else sum in
  let overhead := Nested pod ["spec"; "overhead"; key] in
  if is_null overhead then Ok sum else q ← quantity overhead (key =s "cpu"); Ok (add64 sum q).

Definition podBudget (p : JSON) : result (Z * Z * Z) :=
  reject negb (is_null (Nested p ["spec"; "resources"])) with Plain "pod-level resource accounting requires qualification" ;;
  let refusal := Plain "restartable init resource accounting requires qualification" in
  cpu ← pod_request refusal p "cpu";
  memory ← pod_request refusal p "memory";
  gpu ← pod_request refusal p "amd.com/gpu";
  Ok (cpu, memory, gpu).

(** ** Capacity of the node *)

(** The ReplicaSets that one of the Deployments owns. *)
Definition owners (m : JSON) : list string := (λ o, str (get "uid" o)) <$> list_of (Nested m ["metadata"; "ownerReferences"]).
Definition owned_by (uids : list string) (m : JSON) : bool := existsb (λ uid, str_in uid uids) (owners m).
Definition managed_replicas (uids : list string) (rs : JSON) : list string :=
  (λ m, str (Nested m ["metadata"; "uid"])) <$> List.filter (owned_by uids) (list_of (get "items" rs)).
Definition pod_ended (pod : JSON) : bool :=
  let phase := str (Nested pod ["status"; "phase"]) in (phase =s "Succeeded") || (phase =s "Failed").
(** A Pod whose requests count against the node. *)
Definition counted (target : string) (managed : list string) (pod : JSON) : bool :=
  negb (pod_ended pod) && negb (owned_by managed pod) && (str (Nested pod ["spec"; "nodeName"]) =s target).

Definition usage := string → Z.
Definition use (key : string) (n : Z) (u : usage) : usage := λ k, if k =s key then add64 (u k) n else u k.
Fixpoint add_requests (refusal : error) (pod : JSON) (keys : list string) (u : usage) : result usage :=
  match keys with
  | [] => Ok u
  | key :: keys => n ← pod_request refusal pod key; add_requests refusal pod keys (use key n u)
  end.
Fixpoint used_by (target : string) (managed : list string) (pods : list JSON) (u : usage) : result usage :=
  match pods with
  | [] => Ok u
  | pod :: pods =>
    if counted target managed pod then
      reject negb (is_null (Nested pod ["spec"; "resources"])) with Plain "pod-level resource accounting requires separate qualification" ;;
      u ← add_requests (Plain "restartable init resource accounting is not qualified") pod resource_keys u;
      used_by target managed pods u
    else used_by target managed pods u
  end.
Fixpoint fits (node container : JSON) (u : usage) (keys : list string) : result unit :=
  match keys with
  | [] => Ok tt
  | key :: keys =>
    available ← quantity (Nested node ["status"; "allocatable"; key]) (key =s "cpu");
    wanted ← quantity (Nested container ["resources"; "requests"; key]) (key =s "cpu");
    reject add64 (u key) wanted >? available with Plain "desired budget does not fit node allocatable capacity after other workloads" ;;
    fits node container u keys
  end.

Definition containers_path : list string := ["spec"; "template"; "spec"; "containers"].
Definition first_container (deployment : JSON) : JSON := hd JNull (list_of (Nested deployment containers_path)).
(** [capacity], before and after its three reads of the cluster. *)
Definition capacity_cores (h : Hardware) (candidate : JSON) : result unit :=
  let requested := number (Nested (first_container candidate) ["resources"; "requests"; "cpu"]) in
  reject negb (hw_TopologyKnown h) || (hw_SMTWidth h <? 1) || negb (Z.rem (int64_of requested) (hw_SMTWidth h) =? 0)
    with Plain "desired CPU budget must contain complete discovered SMT cores" ;; Ok tt.
Definition capacity_fits (p : Policy) (candidate node pods rs : JSON) : result unit :=
  let managed := managed_replicas [po_AIDeploymentUID p; po_GameDeploymentUID p] rs in
  u ← used_by (po_Target p) managed (list_of (get "items" pods)) (λ _, 0);
  fits node (first_container candidate) u resource_keys.
End Quantity.

(** ** The hardware report *)

Section Hardware.
Context `{FloatText} `{RFC3339}.

Definition unmeasured : list string :=
  ["Host channels and memory bandwidth are unmeasured; GPU count does not select physical cards or combine VRAM.";
   "CPU Manager policy and other workload budgets require a current cluster probe."].

Definition seen_in (n : float64) (l : list float64) : bool := existsb (SFeqb n) l.
Definition add_seen (n : float64) (l : list float64) : list float64 := if seen_in n l then l else n :: l.
Definition count {A} (l : list A) : Z := Z.of_nat (length l).
(** [v.(float64)]: zero when it is no number. *)
Definition as_float (v : JSON) : float64 * bool := match v with JFloat f => (f, true) | _ => (f0, false) end.

Fixpoint read_dimms (l : list JSON) (n : Z) (speed : string) : Z * string :=
  match l with
  | [] => (n, speed)
  | m :: l =>
    let configured := str (get "configured_speed" m) in
    read_dimms l (if str (get "size" m) <>s "" then n + 1 else n)
      (if configured <>s "" then
         if speed =s "unknown" then configured else if speed <>s configured then "mixed or unknown" else speed
       else speed)
  end.
Definition read_gpu (g : JSON) : GPU :=
  mkGPU (str (get "bdf" g)) ("AMD PCI " +:+ str (get "device_id" g))
    (match list_of (get "render_nodes" g) with [] => "" | p :: _ => "/dev/dri/" +:+ str p end) 0.

(** The first loop over the reported CPUs: identifiers seen, the common number of siblings
    and whether the topology is still known. *)
Fixpoint scan_cpus (cpus : list JSON) (seen : list float64) (width : Z) (known : bool) : list float64 * Z * bool :=
  match cpus with
  | [] => (seen, width, known)
  | cpu :: cpus =>
    let '(id, ok) := as_float (get "cpu" cpu) in
    let n := count (list_of (get "thread_siblings" cpu)) in
    let bad := negb ok || seen_in id seen || (n =? 0) || is_null (get "core_id" cpu) || is_null (get "socket_id" cpu) in
    scan_cpus cpus (add_seen id seen) (if width =? 0 then n else width)
      (known && negb bad && ((width =? 0) || (width =? n)))
  end.
Definition online_ok (seen : list float64) (id : JSON) : bool := let '(n, ok) := as_float id in ok && seen_in n seen.

(** The CPUs of a core, by the identifiers the report gives. *)
Definition same_core (core socket : float64) (m : JSON) : bool :=
  match get "core_id" m, get "socket_id" m with JFloat c, JFloat s => SFeqb c core && SFeqb s socket | _, _ => false end.
Definition expected_cpus (cpus : list JSON) (core socket : float64) : list float64 :=
  fold_left (λ l m, add_seen (number (get "cpu" m)) l) (List.filter (same_core core socket) cpus) [].
Fixpoint scan_siblings (expected : list float64) (l : list JSON) (siblings : list float64) (known : bool) : list float64 * bool :=
  match l with
  | [] => (siblings, known)
  | s :: l =>
    let '(n, ok) := as_float s in
    scan_siblings expected l (add_seen n siblings) (known && ok && seen_in n expected && negb (seen_in n siblings))
  end.
Definition core_ok (cpus : list JSON) (cpu : JSON) : bool :=
  let '(core, coreOK) := as_float (get "core_id" cpu) in
  let '(socket, socketOK) := as_float (get "socket_id" cpu) in
  if negb coreOK || negb socketOK || SFltb core f0 || SFltb socket f0 then false else
  let expected := expected_cpus cpus core socket in
  let '(siblings, known) := scan_siblings expected (list_of (get "thread_siblings" cpu)) [] true in
  known && (count siblings =? count expected).

(** Whether the report tells the topology, and the number of threads of a core. *)
Definition topology (online cpus : list JSON) : bool * Z :=
  let '(seen, width, known) := scan_cpus cpus [] 0 ((count online >? 0) && (count cpus =? count online)) in
  (known && forallb (online_ok seen) online && forallb (core_ok cpus) cpus, width).

Definition SanitizeHardware (raw : JSON) (boot : string) : Hardware :=
  let online := list_of (Nested raw ["cpu_topology"; "online_cpus"]) in
  let cpus := list_of (Nested raw ["cpu_topology"; "cpus"]) in
  let '(known, width) := topology online cpus in
  let '(dimms, speed) := read_dimms (list_of (Nested raw ["memory"; "dimms"])) 0 "unknown" in
  mkHardware (str (get "status" raw)) (default zeroTime (parse_rfc3339 (str (get "collected_at" raw)))) boot boot
    (Z.quot (int64_of (number (Nested raw ["memory"; "total_bytes"]))) (2^20)) dimms speed "unknown" (count online)
    (if known then width else 0) known "unknown" false 12288 6144 0 (if known then 3 * width else 0) 0 0
    (read_gpu <$> list_of (get "pci_gpus" raw)) unmeasured.

(** A report without GPUs keeps the nil slice. *)
Definition GPU_json (g : GPU) : JSON := JObject [
  ("id", JString (gp_ID g)); ("model", JString (gp_Model g)); ("render_path", JString (gp_RenderPath g)); ("memory_mib", JInt (gp_MemoryMiB g))].
Definition Hardware_json (h : Hardware) : JSON := JObject [
  ("status", JString (hw_Status h)); ("observed_at", JTime (hw_ObservedAt h)); ("boot_id", JString (hw_BootID h));
  ("current_boot_id", JString (hw_CurrentBootID h)); ("memory_mib", JInt (hw_MemoryMiB h)); ("dimms", JInt (hw_DIMMs h));
  ("trained_speed", JString (hw_TrainedSpeed h)); ("channels", JString (hw_Channels h)); ("cpu_threads", JInt (hw_CPUThreads h));
  ("smt_width", JInt (hw_SMTWidth h)); ("topology_known", JBool (hw_TopologyKnown h));
  ("cpu_manager_policy", JString (hw_CPUManagerPolicy h)); ("full_pcpus_only", JBool (hw_FullPCPUsOnly h));
  ("host_reserve_mib", JInt (hw_HostReserveMiB h)); ("kube_reserve_mib", JInt (hw_KubeReserveMiB h));
  ("other_memory_mib", JInt (hw_OtherMemoryMiB h)); ("reserved_cpu", JInt (hw_ReservedCPU h)); ("other_cpu", JInt (hw_OtherCPU h));
  ("other_gpus", JInt (hw_OtherGPUs h)); ("gpus", match hw_GPUs h with [] => JNull | l => JArray (GPU_json <$> l) end);
  ("warnings", JArray (JString <$> hw_Warnings h))].
End Hardware.

(** ** The served Pod *)

Section Serving.
Context `{Sha256} `{FloatText}.

Definition crash_oom : string := "SGLang is restarting repeatedly after a memory termination. Inspect the current bounded resource and memory evidence before retrying; do not treat it as model loading.".
Definition crash_loop : string := "SGLang is restarting repeatedly. Inspect the bounded Kubernetes status and OOM/resource evidence before retrying; do not treat it as model loading.".
Definition servingNotReadyState (container : JSON) : string * string :=
  let state := get "state" container in
  let waiting := str (Nested state ["waiting"; "reason"]) in
  let terminated := str (Nested state ["terminated"; "reason"]) in
  if waiting =s "CrashLoopBackOff" then
    ("unavailable", if str (Nested (get "lastState" container) ["terminated"; "reason"]) =s "OOMKilled" then crash_oom else crash_loop)
  else if terminated =s "OOMKilled" then
    ("unavailable", "SGLang was terminated for memory use. Inspect the current bounded resource and memory evidence before retrying; do not treat it as model loading.")
  else if (waiting =s "ImagePullBackOff") || (waiting =s "ErrImagePull") then
    ("unavailable", "SGLang image retrieval is unavailable. Inspect the qualified image reference and private registry access before retrying.")
  else if is_object (get "terminated" state) then
    ("unavailable", "SGLang current container terminated. Inspect the bounded Kubernetes status and qualified runtime before retrying.")
  else if is_object (get "waiting" state) && ((waiting =s "ContainerCreating") || (waiting =s "PodInitializing")) then
    ("model-loading", "Kubernetes readiness is false. Loading, compilation and warmup phases are not independently observed by this probe.")
  else if is_object (get "running" state) then
    ("model-loading", "SGLang is running but Kubernetes readiness is false. Loading, compilation and warmup phases are not independently observed by this probe.")
  else ("unknown", "SGLang has no recognized current container state. Inspect the bounded Kubernetes status and retry lifecycle observation.").

(** An active Pod of the AI Deployment on the target. *)
Definition candidate_pod (aiReplicas : list string) (target namespace : string) (p : JSON) : bool :=
  (str (Nested p ["metadata"; "namespace"]) =s namespace) && (str (Nested p ["spec"; "nodeName"]) =s target)
  && owned_by aiReplicas p && is_null (Nested p ["metadata"; "deletionTimestamp"]) && negb (pod_ended p).
(** The loop that selects it: none, one, or a second one found. *)
Inductive Selection := NoPod | OnePod (p : JSON) | ManyPods.
Fixpoint select_pod (active : JSON → bool) (l : list JSON) (selected : option JSON) : Selection :=
  match l with
  | [] => match selected with Some p => OnePod p | None => NoPod end
  | p :: l =>
    if negb (active p) then select_pod active l selected
    else match selected with Some _ => ManyPods | None => select_pod active l (Some p) end
  end.

Definition no_unique_pod : string := "No unique current AI Pod/process; inspect the explicit target and retry status, not prior inference/tool work.".
Definition many_pods : string := "Multiple active AI Pods; rollout identity is not settled.".
Definition healthy_reason : string := "Kubernetes Ready; representative warmth is unknown. Run the explicit non-root serving-warm-status command with fresh evidence; Bridge cannot launch that harness through its root helper.".
Definition process_identity (pod c : JSON) : string := sha256_hex (JObject [
  ("container", get "containerID" c); ("image", get "imageID" c); ("pod", Nested pod ["metadata"; "uid"]);
  ("restart", get "restartCount" c); ("started", Nested c ["state"; "running"; "startedAt"])]).

(** The container's status, when it reports whether it is ready. *)
Definition container_status (now : time) (pod c : JSON) : ServingStatus :=
  let unknown := mkServingStatus "unknown" None "unknown" no_unique_pod now "" in
  match get "ready" c with
  | JBool ready =>
    if str (Nested pod ["metadata"; "uid"]) =s "" then unknown
    else if (str (get "containerID" c) =s "") || (str (get "imageID" c) =s "") then
      let waiting := str (Nested c ["state"; "waiting"; "reason"]) in
      if negb ready && (count (members (get "state" c)) =? 1) && ((waiting =s "ImagePullBackOff") || (waiting =s "ErrImagePull"))
      then let '(state, reason) := servingNotReadyState c in mkServingStatus state (Some ready) "unknown" reason now ""
      else unknown
    else
      let '(state, reason) := if ready then ("healthy", healthy_reason) else servingNotReadyState c in
      mkServingStatus state (Some ready) "unknown" reason now (process_identity pod c)
  | _ => unknown
  end.

Definition observedServingStatus (now : time) (pods : JSON) (aiReplicas : list string) (target namespace profile : string) : ServingStatus :=
  if (profile =s "gaming") || (profile =s "maintenance") || (profile =s "recovery-required")
  then mkServingStatus "not-applicable" None "not-applicable" "AI is not in a settled AI profile. Complete the explicit transition/recovery before submitting new inference." now ""
  else match select_pod (candidate_pod aiReplicas target namespace) (list_of (get "items" pods)) None with
  | NoPod => mkServingStatus "unknown" None "unknown" no_unique_pod now ""
  | ManyPods => mkServingStatus "unknown" None "unknown" many_pods now ""
  | OnePod pod =>
    match List.find (λ c, str (get "name" c) =s "sglang") (list_of (Nested pod ["status"; "containerStatuses"])) with
    | Some c => container_status now pod c
    | None => mkServingStatus "unknown" None "unknown" no_unique_pod now ""
    end
  end.

(** ** The candidate Deployment *)

Definition offload_flag : string := "--cpu-offload-gb".
(** The existing arguments without any CPU offload. *)
Fixpoint without_offload (args : list JSON) : result (list JSON) :=
  match args with
  | [] => Ok []
  | arg :: rest =>
    if str arg =s offload_flag then
      match rest with [] => Err (Plain "malformed existing CPU offload argument") | _ :: rest => without_offload rest end
    else if has_prefix (str arg) (offload_flag +:+ "=") then without_offload rest
    else l ← without_offload rest; Ok (arg :: l)
  end.

(** The tuning variables, in the order they are appended. *)
Definition tuning (q : Qualification) (c : Configuration) : list (string * string) :=
  let s := cf_Serving c in
  [("MODEL_PATH", qf_ModelPath q); ("MODEL_REVISION", qf_ModelRevision q); ("SERVED_MODEL_NAME", sv_Model s);
   ("CONTEXT_LENGTH", pretty (sv_Context s)); ("MEM_FRACTION_STATIC", format_float (sv_MemoryFraction s));
   ("MAX_RUNNING_REQUESTS", pretty (sv_Concurrency s)); ("TENSOR_PARALLEL", pretty (rs_GPUCount (cf_Resources c)))].
Definition tuned (values : list (string * string)) (entry : JSON) : bool := str_in (str (get "name" entry)) values.*1.
Definition env_var (kv : string * string) : JSON := JObject [("name", JString kv.1); ("value", JString kv.2)].
Definition environment_of (values : list (string * string)) (env : list JSON) : list JSON :=
  List.filter (λ entry, negb (tuned values entry)) env ++ (env_var <$> values).

Definition mib (n : Z) : string := pretty n +:+ "Mi".
Definition budget_of (r : Resources) : JSON :=
  JObject [("amd.com/gpu", JString (pretty (rs_GPUCount r))); ("cpu", JString (pretty (rs_CPU r))); ("memory", JString (mib (rs_MemoryMiB r)))].
Definition resources_of (r : Resources) : JSON := JObject [("limits", budget_of r); ("requests", budget_of r)].

(** The loop over the volumes: every [shm] volume gets the size. *)
Fixpoint resize_shm (size : string) (volumes : list JSON) (found : bool) : result (list JSON * bool) :=
  match volumes with
  | [] => Ok ([], found)
  | v :: volumes =>
    if str (get "name" v) =s "shm" then
      reject str (Nested v ["emptyDir"; "medium"]) <>s "Memory" with Plain "shared-memory volume changed from reviewed abstraction" ;;
      r ← resize_shm size volumes true;
      Ok (edit ["emptyDir"] (set_key "sizeLimit" (JString size)) v :: r.1, r.2)
    else r ← resize_shm size volumes found; Ok (v :: r.1, r.2)
  end.

Definition volumes_path : list string := ["spec"; "template"; "spec"; "volumes"].
Definition Qualification0 : Qualification := mkQualification "" "" "" zeroTime "" ∅.
Definition qualification_of (p : Policy) (c : Configuration) : Qualification :=
  default Qualification0 (po_QualifiedConfigurations p !! ConfigurationHash (cf_Serving c) (cf_Resources c)).

(** The container as it is to run. *)
Definition tuned_container (q : Qualification) (c : Configuration) (args : list JSON) (container : JSON) : JSON :=
  container
    |> set_key "args" (JArray (args ++ [JString offload_flag; JString (pretty (sv_CPUOffloadGiB (cf_Serving c)))]))
    |> set_key "env" (JArray (environment_of (tuning q c) (list_of (get "env" container))))
    |> set_key "resources" (resources_of (cf_Resources c)).

(** [servingCandidate]; the copy of the current document is the document. *)
Definition servingCandidate (p : Policy) (current : JSON) (c : Configuration) : result JSON :=
  match list_of (Nested current containers_path), list_of (Nested current ["spec"; "template"; "spec"; "initContainers"]) with
  | [container], [] =>
    let q := qualification_of p c in
    reject (str (get "name" container) <>s "sglang") || (str (get "image" container) <>s qf_Image q)
        || (str (Nested current ["metadata"; "annotations"; "workstation.ai/qualification"]) <>s "qualified")
        || (str (Nested current ["spec"; "strategy"; "type"]) <>s "Recreate")
      with Plain "engine image, SGLang container or deployment qualification does not match root policy" ;;
    reject sha256_hex (get "command" container) <>s sha256_hex (JArray [JString "python3"; JString "-m"; JString "sglang.launch_server"])
      with Plain "SGLang command changed from reviewed deployment contract" ;;
    args ← without_offload (list_of (get "args" container));
    volumes ← resize_shm (mib (rs_SharedMemoryMiB (cf_Resources c))) (list_of (Nested current volumes_path)) false;
    reject negb volumes.2 with Plain "reviewed shared-memory volume is missing" ;;
    Ok (current
          |> edit containers_path (λ _, JArray [tuned_container q c args container])
          |> edit volumes_path (λ _, JArray volumes.1))
  | _, _ => Err (Plain "serving adapter requires the existing single-container SGLang deployment")
  end.
Definition PreviewServing := servingCandidate.
End Serving.
