(* ===== verification/Consumers.v ===== *)
(** Which Pods take capacity that the managed workloads cannot have, in plain terms: every Pod
    of the cluster's answer that has not ended and that no ReplicaSet of a managed Deployment
    owns, on a given node or on any ([Kube]). *)
From S2P Require Import Prelude Json Tree Types Domain Wire Evidence HostPolicy Kube.
#[local] Open Scope Z_scope.

(** An object is owned by the one of this identity. *)
Definition owned (uid : string) (object : JSON) : Prop :=
  ∃ ref, ref ∈ list_of (Nested object ["metadata"; "ownerReferences"]) ∧ str (get "uid" ref) = uid.
(** A Pod of one of the Deployments: one of their ReplicaSets owns it. *)
Definition deployed_by (deployments : list string) (rs pod : JSON) : Prop :=
  ∃ r deployment, r ∈ list_of (get "items" rs) ∧ deployment ∈ deployments ∧ owned deployment r ∧ owned (str (Nested r ["metadata"; "uid"])) pod.
(** A Pod that runs, or is to run, and belongs to none of the Deployments. *)
Definition foreign (deployments : list string) (rs pod : JSON) : Prop :=
  str (Nested pod ["status"; "phase"]) ≠ "Succeeded" ∧ str (Nested pod ["status"; "phase"]) ≠ "Failed" ∧ ¬ deployed_by deployments rs pod.
(** Such a Pod on the node. *)
Definition foreign_on (target : string) (deployments : list string) (rs pod : JSON) : Prop :=
  foreign deployments rs pod ∧ str (Nested pod ["spec"; "nodeName"]) = target.

Lemma owned_by_spec uids object : owned_by uids object = true ↔ ∃ uid, uid ∈ uids ∧ owned uid object.
Proof.
  unfold owned_by, owners, owned. rewrite existsb_exists. split.
  - intros (x & (ref & -> & Hr)%list_elem_of_In%list_elem_of_fmap & Hu%str_in_spec). by exists (str (get "uid" ref)); split; [|exists ref].
  - intros (uid & Hu & ref & Hr & <-). exists (str (get "uid" ref)). split; [|by apply str_in_spec].
    apply list_elem_of_In, list_elem_of_fmap. by exists ref.
Qed.
Lemma managed_spec deployments rs pod : owned_by (managed_replicas deployments rs) pod = true ↔ deployed_by deployments rs pod.
Proof.
  rewrite owned_by_spec. unfold managed_replicas, deployed_by. split.
  - intros (uid & (r & -> & Hr)%list_elem_of_fmap & Ho). apply list_elem_of_In, filter_In in Hr as [Hr (d & Hd & Hod)%owned_by_spec].
    exists r, d. split; [by apply list_elem_of_In|done].
  - intros (r & d & Hr & Hd & Hod & Ho). exists (str (Nested r ["metadata"; "uid"])). split; [|done]. apply list_elem_of_fmap. exists r. split; [done|].
    apply list_elem_of_In, filter_In. split; [by apply list_elem_of_In|]. apply owned_by_spec. by exists d.
Qed.
Lemma foreign_spec deployments rs pod : negb (pod_ended pod || owned_by (managed_replicas deployments rs) pod) = true ↔ foreign deployments rs pod.
Proof.
  unfold foreign, pod_ended. rewrite negb_true_iff, !orb_false_iff, <- managed_spec, not_true_iff_false, !String.eqb_neq. tauto.
Qed.
Lemma counted_spec target deployments rs pod : counted target (managed_replicas deployments rs) pod = true ↔ foreign_on target deployments rs pod.
Proof.
  unfold counted, foreign_on. rewrite <- foreign_spec, negb_orb, !andb_true_iff, String.eqb_eq. tauto.
Qed.
#[export] Instance foreign_dec deployments rs pod : Decision (foreign deployments rs pod).
Proof. refine (cast_if (decide (negb (pod_ended pod || owned_by (managed_replicas deployments rs) pod) = true))); by rewrite <- foreign_spec. Defined.
#[export] Instance foreign_on_dec target deployments rs pod : Decision (foreign_on target deployments rs pod).
Proof. unfold foreign_on. apply _. Defined.

(** The Pods of an answer that take capacity elsewhere: on the node, and anywhere. *)
Definition others_on (target : string) (deployments : list string) (rs pods : JSON) : list JSON := filter (foreign_on target deployments rs) (list_of (get "items" pods)).
Definition others (deployments : list string) (rs pods : JSON) : list JSON := filter (foreign deployments rs) (list_of (get "items" pods)).
Lemma filter_spec {A} (P : A → Prop) `{∀ x, Decision (P x)} (f : A → bool) l : (∀ x, f x = true ↔ P x) → List.filter f l = filter P l.
Proof.
  intros Hf. induction l as [|x l IH]; [done|]. cbn [List.filter]. rewrite filter_cons, IH. specialize (Hf x).
  destruct (f x), (decide (P x)); naive_solver.
Qed.
Lemma counted_others target deployments rs pods : List.filter (counted target (managed_replicas deployments rs)) (list_of (get "items" pods)) = others_on target deployments rs pods.
Proof. apply filter_spec. intros pod. apply counted_spec. Qed.
Lemma elem_of_others deployments rs pods pod : pod ∈ others deployments rs pods ↔ pod ∈ list_of (get "items" pods) ∧ foreign deployments rs pod.
Proof. unfold others. rewrite list_elem_of_filter. tauto. Qed.
