(* ===== verification/Capacity.v ===== *)
(** Quantities, capacity and the candidate Deployment: what an accepted budget and an accepted
    serving document guarantee. *)
From S2P Require Import Prelude Json Tree Types Domain HostPolicy HostJournal Kube Consumers.
From Stdlib Require Import SpecFloat.
From stdpp Require Import pretty.
#[local] Open Scope Z_scope.

(** ** Rounded doubles *)

Lemma shr_1_m r : 0 ≤ shr_m r → shr_m (shr_1 r) = shr_m r / 2.
Proof.
  destruct r as [m a b]. cbn. destruct m as [|p|p]; [done| |lia]. intros _.
  destruct p as [p|p|]; cbn [shr_1 shr_m]; [|rewrite (Pos2Z.inj_xO p)|done].
  - rewrite (Pos2Z.inj_xI p). apply (Z.div_unique _ _ _ 1); lia.
  - apply (Z.div_unique _ _ _ 0); lia.
Qed.
Lemma iter_shr_m p : ∀ r, 0 ≤ shr_m r → shr_m (SpecFloat.iter_pos shr_1 p r) = shr_m r / 2 ^ Zpos p.
Proof.
  assert (∀ a b c, 0 < b → 0 < c → a / b / c = a / (b * c)) as Hdd by (intros; apply Z.div_div; lia).
  assert (∀ a b, 0 ≤ a → 0 < b → 0 ≤ a / b) as Hnn by (intros; apply Z.div_pos; lia).
  assert (∀ p, 0 < 2 ^ Zpos p) as Hp by (intros; apply Z.pow_pos_nonneg; lia).
  induction p as [p IH|p IH|]; intros r Hr; cbn [SpecFloat.iter_pos].
  - assert (0 ≤ shr_m (shr_1 r)) by (rewrite shr_1_m by done; apply Hnn; lia).
    assert (0 ≤ shr_m (SpecFloat.iter_pos shr_1 p (shr_1 r))) by (rewrite IH by done; apply Hnn; [lia|apply Hp]).
    rewrite !IH by done. rewrite shr_1_m by done. specialize (Hp p). rewrite !Hdd by lia. f_equal.
    rewrite Pos2Z.inj_xI. replace (2 * Zpos p + 1) with (1 + Zpos p + Zpos p) by lia. rewrite !Z.pow_add_r by lia. ring.
  - assert (0 ≤ shr_m (SpecFloat.iter_pos shr_1 p r)) by (rewrite IH by done; apply Hnn; [lia|apply Hp]).
    rewrite !IH by done. specialize (Hp p). rewrite !Hdd by lia. f_equal.
    rewrite <- Z.pow_add_r by lia. f_equal. lia.
  - by rewrite shr_1_m.
Qed.
Lemma digits_bound p : Zpos p < 2 ^ Zpos (digits2_pos p).
Proof.
  induction p as [p IH|p IH|]; cbn [digits2_pos]; [| |done]; rewrite Pos2Z.inj_succ, Z.pow_succ_r by lia; lia.
Qed.
(** A mantissa brought to the exponent of binary64 has at most 53 digits. *)
Lemma shr_fexp_bound m e l : 0 ≤ m → 0 ≤ shr_m (shr_fexp 53 1024 m e l).1 < 2 ^ 53.
Proof.
  intros Hm. unfold shr_fexp, shr. assert (shr_m (shr_record_of_loc m l) = m) as Hr by (by destruct l as [|[]]).
  set (d := Zdigits2 m). assert (m < 2 ^ d) as Hd by (subst d; destruct m as [|p|p]; [done|apply digits_bound|lia]).
  assert (0 ≤ d) as Hd0 by (subst d; destruct m; cbn; lia).
  set (n := fexp 53 1024 (d + e) - e). assert (d - 53 ≤ n) as Hn by (subst n; unfold fexp; lia).
  destruct n as [|p|p] eqn:En; cbn [fst]; rewrite ?Hr.
  - split; [done|]. eapply Z.lt_le_trans; [exact Hd|]. apply Z.pow_le_mono_r; lia.
  - rewrite iter_shr_m by lia. rewrite Hr. split; [apply Z.div_pos; lia|]. apply Z.div_lt_upper_bound; [lia|].
    rewrite <- Z.pow_add_r by lia. eapply Z.lt_le_trans; [exact Hd|]. apply Z.pow_le_mono_r; lia.
  - split; [done|]. eapply Z.lt_le_trans; [exact Hd|]. apply Z.pow_le_mono_r; lia.
Qed.
Lemma round_even_nonneg m l : 0 ≤ m → 0 ≤ round_nearest_even m l.
Proof. destruct l as [|[]]; cbn; [lia|destruct (Z.even m); lia|lia|lia]. Qed.
Lemma round_aux_positive m e :
  match binary_round_aux 53 1024 false (Zpos m) e loc_Exact with
  | S754_zero s => s = false
  | S754_finite s m' _ => s = false ∧ Zpos m' < 2 ^ 53
  | S754_infinity s => s = false
  | S754_nan => False
  end.
Proof.
  unfold binary_round_aux. destruct (shr_fexp 53 1024 (Zpos m) e loc_Exact) as [r1 e1] eqn:H1.
  pose proof (shr_fexp_bound (Zpos m) e loc_Exact ltac:(lia)) as [Hb1 _]. rewrite H1 in Hb1. cbn in Hb1.
  destruct (shr_fexp _ _ (round_nearest_even _ _) e1 loc_Exact) as [r2 e2] eqn:H2.
  pose proof (shr_fexp_bound _ e1 loc_Exact (round_even_nonneg _ (loc_of_shr_record r1) Hb1)) as Hb2. rewrite H2 in Hb2. cbn in Hb2.
  destruct (shr_m r2) as [|p|p]; [done| |lia]. destruct (e2 <=? 1024 - 53); [split; [done|lia]|done].
Qed.

Definition is_nan (f : float64) : bool := match f with S754_nan => true | _ => false end.
(** A double that is no number above 2^60 reads as an integer up to 2^60. *)
Lemma int64_bounded m e : Zpos m < 2 ^ 53 → SFltb (float_of (2^60)) (S754_finite false m e) = false →
  0 ≤ int64_of (S754_finite false m e) ≤ 2 ^ 60.
Proof.
  intros Hm. change (float_of (2^60)) with (S754_finite false 4503599627370496 8). unfold SFltb, SFcompare.
  intros Hc. assert (0 ≤ int_of (S754_finite false m e) ≤ 2 ^ 60) as Hi.
  { cbn [int_of]. destruct (Z.leb_spec 0 e) as [He|He].
    - destruct (8 ?= e) eqn:H8; [apply Z.compare_eq in H8; subst e| done|apply Z.compare_gt_iff in H8].
      + assert (Zpos m ≤ 4503599627370496).
        { change (Pos.compare_cont Eq 4503599627370496 m) with (Z.compare 4503599627370496 (Zpos m)) in Hc.
          destruct (Z.compare_spec 4503599627370496 (Zpos m)); [lia|discriminate Hc|lia]. }
        lia.
      + assert (2 ^ e ≤ 2 ^ 7) by (apply Z.pow_le_mono_r; lia). assert (0 < 2 ^ e) by lia. nia.
    - assert (0 < 2 ^ (- e)) by (apply Z.pow_pos_nonneg; lia). split; [apply Z.div_pos; lia|].
      apply Z.div_le_upper_bound; [done|]. nia. }
  unfold int64_of. rewrite bool_decide_eq_true_2 by (unfold in_int64; lia). done.
Qed.
Lemma checked_range n k m e q : float_of k = S754_finite false m e → is_nan n = false → checked_quantity n k = Ok q → 0 ≤ q ≤ 2 ^ 60.
Proof.
  assert (SFltb (float_of (2^60)) (S754_infinity false) = true) as Hinf by reflexivity.
  assert (∀ s, SFltb (float_of (2^60)) (S754_zero s) = false) as Hzero by reflexivity.
  intros Hk Hn. unfold checked_quantity. rewrite Hk. destruct (SFltb n f0) eqn:Hl; [done|]. cbn [orb].
  destruct n as [s|s| |s m' e']; [|destruct s; done|done|destruct s; [done|]]; cbn [SFmul].
  - rewrite Hzero. intros [= <-]. cbn. lia.
  - pose proof (round_aux_positive (m' * m) (e' + e)) as Hr. cbn [xorb].
    destruct (binary_round_aux _ _ _ _ _ _) as [s|s| |s m2 e2]; [rewrite Hzero; intros [= <-]; cbn; lia|subst s; by rewrite Hinf|done|].
    destruct Hr as [-> Hm]. destruct (SFltb (float_of (2^60)) (S754_finite false m2 e2)) eqn:Hb; [done|]. intros [= <-]. by apply int64_bounded.
Qed.

Section Capacity.
Context `{FloatText}.

(** A quantity whose text does not spell a NaN. *)
Definition numeric (v : JSON) (cpu : bool) : bool :=
  match v with JString s => negb (is_nan (parse_float (scaled s cpu).1).1) | JFloat f => negb (is_nan f) | _ => true end.

Lemma scale_factor s cpu : ∃ m e, float_of (scaled s cpu).2 = S754_finite false m e.
Proof.
  unfold scaled. destruct cpu; [destruct (has_suffix s "m"); by eexists _, _|].
  unfold memory_units. cbn [List.find fst snd].
  repeat match goal with |- context [has_suffix s ?u] => destruct (has_suffix s u); cbn [fst snd]; [by eexists _, _|] end. by eexists _, _.
Qed.
Lemma quantity_range v cpu q : numeric v cpu = true → quantity v cpu = Ok q → 0 ≤ q ≤ 2 ^ 60.
Proof.
  destruct v as [| | |f|s| | |]; try done; cbn [quantity numeric]; rewrite ?negb_true_iff.
  - intros Hn. destruct cpu; by eapply checked_range.
  - destruct (scale_factor s cpu) as (m & e & Hf). destruct (scaled s cpu) as [t k]. cbn [fst snd] in *.
    destruct (parse_float t) as [n []]; [|done]. intros Hn. by eapply checked_range.
Qed.
(** The text NaN passes both comparisons and reads as the least integer. *)
Theorem quantity_nan s : parse_float s = (S754_nan, true) → has_suffix s "m" = false → quantity (JString s) true = Ok (- 2 ^ 63).
Proof. intros Hp Hs. cbn. rewrite Hs. by rewrite Hp. Qed.

(** ** What Pods ask for, without machine arithmetic *)

Fixpoint sumZ (l : list Z) : Z := match l with [] => 0 | z :: l => z + sumZ l end.
Fixpoint maxZ (l : list Z) : Z := match l with [] => 0 | z :: l => Z.max z (maxZ l) end.
Definition containers_of (pod : JSON) : list JSON := list_of (Nested pod ["spec"; "containers"]).
Definition inits_of (pod : JSON) : list JSON := list_of (Nested pod ["spec"; "initContainers"]).
Definition overhead_request (key : string) (pod : JSON) : result Z :=
  let v := Nested pod ["spec"; "overhead"; key] in if is_null v then Ok 0 else quantity v (key =s "cpu").
(** The larger of all containers together and the largest init container, and the overhead. *)
Definition pod_demand (key : string) (pod : JSON) (n : Z) : Prop :=
  ∃ cs ins o, Forall2 (λ c q, container_request key c = Ok q) (containers_of pod) cs ∧
    Forall2 (λ c q, container_request key c = Ok q) (inits_of pod) ins ∧
    overhead_request key pod = Ok o ∧ n = Z.max (sumZ cs) (maxZ ins) + o.
(** No quantity of the Pod spells a NaN. *)
Definition numeric_pod (pod : JSON) : bool := forallb (λ key,
  forallb (λ c, numeric (Nested c ["resources"; "requests"; key]) (key =s "cpu")) (containers_of pod ++ inits_of pod)
  && numeric (Nested pod ["spec"; "overhead"; key]) (key =s "cpu")) resource_keys.

Lemma request_nonneg key c q : numeric (Nested c ["resources"; "requests"; key]) (key =s "cpu") = true → container_request key c = Ok q → 0 ≤ q.
Proof. unfold container_request. destruct (is_null _); [by intros _ [= <-]|]. intros Hn Hq. by apply quantity_range in Hq as [? _]. Qed.
Lemma overhead_nonneg key pod q : numeric (Nested pod ["spec"; "overhead"; key]) (key =s "cpu") = true → overhead_request key pod = Ok q → 0 ≤ q.
Proof. unfold overhead_request. destruct (is_null _); [by intros _ [= <-]|]. intros Hn Hq. by apply quantity_range in Hq as [? _]. Qed.

Lemma sumZ_nonneg l : Forall (λ z, 0 ≤ z) l → 0 ≤ sumZ l.
Proof. induction 1; cbn; lia. Qed.
Lemma maxZ_nonneg l : 0 ≤ maxZ l.
Proof. induction l; cbn; lia. Qed.
(** Sums of machine integers are exact while the whole is in range. *)
Lemma fold_add_exact l : ∀ acc, 0 ≤ acc → Forall (λ z, 0 ≤ z) l → acc + sumZ l < 2^63 → fold_left add64 l acc = acc + sumZ l.
Proof.
  induction l as [|z l IH]; intros acc Ha Hl Hs; cbn in *; [lia|]. apply Forall_cons in Hl as [Hz Hl].
  pose proof (sumZ_nonneg _ Hl). rewrite add64_id by (unfold in_int64; lia). rewrite IH by (done || lia). lia.
Qed.
Lemma fold_max_exact l : ∀ acc, 0 ≤ acc → fold_left Z.max l acc = Z.max acc (maxZ l).
Proof. induction l as [|z l IH]; intros acc Ha; cbn in *; [lia|]. rewrite IH by lia. lia. Qed.

Lemma sum_containers_all key l : ∀ acc n, sum_containers key l acc = Ok n →
  ∃ cs, Forall2 (λ c q, container_request key c = Ok q) l cs ∧ n = fold_left add64 cs acc.
Proof.
  induction l as [|c l IH]; intros acc n; cbn [sum_containers]; [intros [= <-]; by exists []|].
  intros (q & Hq & (cs & Hcs & ->)%IH)%bind_ok. exists (q :: cs). split; [by constructor|done].
Qed.
Lemma max_init_all refusal key l : ∀ acc n, max_init refusal key l acc = Ok n →
  ∃ cs, Forall2 (λ c q, container_request key c = Ok q) l cs ∧ n = fold_left Z.max cs acc.
Proof.
  induction l as [|c l IH]; intros acc n; cbn [max_init]; [intros [= <-]; by exists []|].
  destruct (_ =s "Always"); [done|]. intros (q & Hq & (cs & Hcs & ->)%IH)%bind_ok. exists (q :: cs). split; [by constructor|done].
Qed.
Lemma requests_nonneg key l cs :
  forallb (λ c, numeric (Nested c ["resources"; "requests"; key]) (key =s "cpu")) l = true →
  Forall2 (λ c q, container_request key c = Ok q) l cs → Forall (λ z, 0 ≤ z) cs.
Proof. intros Hn Hf. induction Hf as [|c q l cs Hq _ IH]; [constructor|]. apply andb_true_iff in Hn as [Hc Hl]. constructor; [by eapply request_nonneg|auto]. Qed.

(** What the loop computes for one Pod: its demand, as long as that is a machine integer. *)
Lemma pod_request_demand refusal pod key n : key ∈ resource_keys → numeric_pod pod = true → pod_request refusal pod key = Ok n →
  ∃ d, pod_demand key pod d ∧ 0 ≤ d ∧ (d < 2^63 → n = d).
Proof.
  intros Hk Hnum. pose proof (proj1 (forallb_forall _ _) Hnum key (proj1 (list_elem_of_In _ _) Hk)) as [Hn Ho]%andb_true_iff.
  rewrite forallb_app in Hn. apply andb_true_iff in Hn as [Hc Hi].
  unfold pod_request. intros (sum & Hs & (init & Hm & Hov)%bind_ok)%bind_ok.
  apply sum_containers_all in Hs as (cs & Hcs & ->). apply max_init_all in Hm as (ins & His & ->).
  pose proof (requests_nonneg _ _ _ Hc Hcs) as Hcs0. pose proof (sumZ_nonneg _ Hcs0). pose proof (maxZ_nonneg ins).
  assert (∃ o, overhead_request key pod = Ok o ∧
    n = (if is_null (Nested pod ["spec"; "overhead"; key]) then λ s, s else λ s, add64 s o)
          (if fold_left Z.max ins 0 >? fold_left add64 cs 0 then fold_left Z.max ins 0 else fold_left add64 cs 0)) as (o & Hoq & ->).
  { unfold overhead_request. cbn beta zeta in Hov |- *. destruct (is_null _); [injection Hov as <-; by exists 0|].
    apply bind_ok in Hov as (q & Hq & [= <-]). by exists q. }
  pose proof (overhead_nonneg _ _ _ Ho Hoq) as Ho0.
  exists (Z.max (sumZ cs) (maxZ ins) + o). split; [by exists cs, ins, o|]. split; [lia|]. intros Hlt.
  rewrite fold_max_exact, (fold_add_exact cs 0) by (done || lia).
  assert ((if Z.max 0 (maxZ ins) >? 0 + sumZ cs then Z.max 0 (maxZ ins) else 0 + sumZ cs) = Z.max (sumZ cs) (maxZ ins)) as ->.
  { rewrite Z.gtb_ltb. destruct (Z.ltb_spec (0 + sumZ cs) (Z.max 0 (maxZ ins))); lia. }
  destruct (is_null _) eqn:Hnull; [|rewrite add64_id; [done|unfold in_int64; lia]].
  unfold overhead_request in Hoq. rewrite Hnull in Hoq. injection Hoq as <-. lia.
Qed.

Lemma add_requests_all refusal pod u u' : add_requests refusal pod resource_keys u = Ok u' →
  ∀ key, key ∈ resource_keys → ∃ n, pod_request refusal pod key = Ok n ∧ u' key = add64 (u key) n.
Proof.
  unfold resource_keys. cbn [add_requests].
  intros (a & Ha & (b & Hb & (c & Hc & [= <-])%bind_ok)%bind_ok)%bind_ok key Hk.
  repeat (apply elem_of_cons in Hk as [->|Hk]); [exists a|exists b|exists c|by apply elem_of_nil in Hk]; (split; [done|]); unfold use; cbn; done.
Qed.
Lemma used_by_all target managed pods : ∀ u u', used_by target managed pods u = Ok u' →
  ∀ key, key ∈ resource_keys → ∃ ns,
    Forall2 (λ pod n, ∃ refusal, pod_request refusal pod key = Ok n) (List.filter (counted target managed) pods) ns ∧
    u' key = fold_left add64 ns (u key).
Proof.
  induction pods as [|pod pods IH]; intros u u'; cbn [used_by List.filter]; [intros [= <-] key _; by exists []|].
  destruct (counted target managed pod); [|apply IH]. destruct (negb _); [done|].
  intros (v & Hv & Hu)%bind_ok key Hk. destruct (add_requests_all _ _ _ _ Hv key Hk) as (n & Hn & Hvk).
  destruct (IH _ _ Hu key Hk) as (ns & Hns & ->). exists (n :: ns). split; [constructor; [by eexists|done]|]. cbn. by rewrite Hvk.
Qed.
Lemma fits_all node container u keys : fits node container u keys = Ok tt → ∀ key, key ∈ keys → ∃ available wanted,
  quantity (Nested node ["status"; "allocatable"; key]) (key =s "cpu") = Ok available ∧
  quantity (Nested container ["resources"; "requests"; key]) (key =s "cpu") = Ok wanted ∧ add64 (u key) wanted ≤ available.
Proof.
  induction keys as [|k keys IH]; intros Hf key Hk; [by apply elem_of_nil in Hk|]. cbn [fits] in Hf.
  apply bind_ok in Hf as (available & Ha & (wanted & Hw & Hf)%bind_ok). destruct (_ >? available) eqn:Hle; [done|].
  apply elem_of_cons in Hk as [->|Hk]; [|by apply IH]. exists available, wanted. bool_hyps. done.
Qed.

(** C28: An accepted budget fits the node: when the capacity check passes, for CPU, memory and
    GPUs the requests of every other Pod on the target, that is every Pod the cluster listed on
    that node that has neither succeeded nor failed and that no ReplicaSet of the two managed
    Deployments owns (the larger of its containers together and its largest init container,
    and its overhead), and the desired request together do not exceed what the node can allocate, as long as that sum is a machine
    integer and no quantity spells a NaN. *)
Theorem capacity_sound p candidate node pods rs :
  capacity_fits p candidate node pods rs = Ok tt →
  let running := others_on (po_Target p) [po_AIDeploymentUID p; po_GameDeploymentUID p] rs pods in
  forallb numeric_pod running = true →
  ∀ key, key ∈ resource_keys →
  let request := Nested (first_container candidate) ["resources"; "requests"; key] in
  numeric request (key =s "cpu") = true →
  ∃ demands wanted available,
    Forall2 (pod_demand key) running demands ∧ quantity request (key =s "cpu") = Ok wanted ∧
    quantity (Nested node ["status"; "allocatable"; key]) (key =s "cpu") = Ok available ∧
    (sumZ demands + wanted < 2^63 → sumZ demands + wanted ≤ available).
Proof.
  intros Hcap running Hnum key Hk request Hreq. unfold capacity_fits in Hcap. cbv zeta in Hcap. apply bind_ok in Hcap as (u & Hu & Hf).
  destruct (used_by_all _ _ _ _ _ Hu key Hk) as (ns & Hns & Huk). rewrite counted_others in Hns. fold running in Hns.
  destruct (fits_all _ _ _ _ Hf key Hk) as (available & wanted & Ha & Hw & Hle). fold request in Hw. clearbody running request. clear Hu Hf.
  assert (∃ ds, Forall2 (pod_demand key) running ds ∧ Forall (λ z, 0 ≤ z) ds ∧ (sumZ ds < 2^63 → ns = ds)) as (ds & Hds & Hpos & Heq).
  { clear Huk Hle Hreq Hw Ha. induction Hns as [|pod n l ns [refusal Hn] _ IH]; [by exists []|]. apply andb_true_iff in Hnum as [Hp Hnum].
    destruct (IH Hnum) as (ds & Hds & Hpos & Heq). destruct (pod_request_demand _ _ _ _ Hk Hp Hn) as (d & Hd & Hd0 & Hdn).
    exists (d :: ds). split; [by constructor|]. split; [by constructor|]. cbn. intros Hlt. pose proof (sumZ_nonneg _ Hpos). rewrite Hdn, Heq by lia. done. }
  exists ds, wanted, available. split_and!; [done..|]. intros Hlt. pose proof (quantity_range _ _ _ Hreq Hw) as [Hw0 _].
  rewrite Huk, Heq, (fold_add_exact ds 0), add64_id in Hle by (done || unfold in_int64; pose proof (sumZ_nonneg _ Hpos); lia). lia.
Qed.
End Capacity.

Module CapacityFixture.
(** The texts the fixture's quantities use. *)
#[export] Instance small_texts : FloatText := {|
  parse_float := λ s, match List.find (λ p : string * Z, p.1 =s s) [("1", 1); ("2", 2); ("4", 4); ("8", 8); ("16", 16)] with Some p => (float_of p.2, true) | None => (f0, false) end;
  format_float := λ _, "" |}.
Definition requests (cpu memory : string) : JSON :=
  JObject [("resources", JObject [("requests", JObject [("cpu", JString cpu); ("memory", JString memory); ("amd.com/gpu", JString "1")])])].
Definition pod (cpu memory : string) : JSON :=
  JObject [("spec", JObject [("nodeName", JString "ws"); ("containers", JArray [requests cpu memory; requests "1" "1Gi"]);
    ("initContainers", JArray [requests "8" "2Gi"])])].
Definition pods : JSON := JObject [("items", JArray [pod "2" "4Gi"; pod "1" "1Gi"])].
Definition candidate : JSON := JObject [("spec", JObject [("template", JObject [("spec", JObject [("containers", JArray [requests "16" "8Gi"])])])])].
Definition node : JSON := JObject [("status", JObject [("allocatable", JObject [("cpu", JFloat (float_of 32)); ("memory", JString "16Gi"); ("amd.com/gpu", JString "8")])])].
Definition rs : JSON := JObject [("items", JArray [])].
End CapacityFixture.
Import CapacityFixture.

Lemma capacity_sound_witness : capacity_fits HostFixture.policy candidate node pods rs = Ok tt ∧
  ∃ demands wanted available, Forall2 (pod_demand "cpu") (list_of (get "items" pods)) demands ∧
    quantity (JString "16") true = Ok wanted ∧ quantity (JFloat (float_of 32)) true = Ok available ∧
    (sumZ demands + wanted < 2^63 → sumZ demands + wanted ≤ available).
Proof.
  assert (capacity_fits HostFixture.policy candidate node pods rs = Ok tt) as Hfit by (vm_compute; reflexivity). split; [exact Hfit|].
  refine (capacity_sound HostFixture.policy candidate node pods rs Hfit _ "cpu" _ _).
  - vm_compute. reflexivity.
  - left.
  - vm_compute. reflexivity.
Defined.
