(* ===== verification/Candidate.v ===== *)
(** The serving Deployment rendered for a configuration: what it changes, what it leaves, and
    that rendering it again changes nothing. *)
From S2P Require Import Prelude Json Tree Types Domain HostPolicy HostJournal Kube Capacity.
From stdpp Require Import pretty.
#[local] Open Scope Z_scope.

(** ** Assignments to different keys *)

Lemma leb_trans a b c : String.leb a b = true → String.leb b c = true → String.leb a c = true.
Proof. intros H1 H2. apply Is_true_true. apply (transitivity (R:=String.le) (y:=b)); by apply Is_true_true. Qed.
Lemma leb_flip a b : a ≠ b → String.leb a b = negb (String.leb b a).
Proof.
  intros Hab. destruct (String.leb a b) eqn:H1, (String.leb b a) eqn:H2; try done.
  - destruct Hab. by apply String.leb_antisym.
  - destruct (String.leb_total a b); congruence.
Qed.
Lemma put_comm k j x y l : k ≠ j → put k x (put j y l) = put j y (put k x l).
Proof.
  intros Hkj. assert ((k =s j) = false) as E1 by (by apply String.eqb_neq). assert ((j =s k) = false) as E2 by (by apply String.eqb_neq).
  pose proof (leb_flip k j Hkj) as Hf. induction l as [|[h v] l IH]; cbn.
  - rewrite E1, E2, Hf. by destruct (String.leb j k).
  - destruct (k =s h) eqn:Ek; [apply String.eqb_eq in Ek as <-; rewrite E2|destruct (j =s h) eqn:Ej; [apply String.eqb_eq in Ej as <-|]].
    + destruct (String.leb j k) eqn:Hl; cbn; rewrite ?E1, ?E2, ?Hf, ?Hl; cbn; by rewrite ?eqb_str_refl.
    + destruct (String.leb k j) eqn:Hl; cbn; rewrite ?E1, ?E2, ?Hl; cbn; rewrite ?eqb_str_refl; [|done]. symmetry in Hf.
      apply negb_true_iff in Hf. by rewrite Hf.
    + destruct (String.leb k h) eqn:Lk, (String.leb j h) eqn:Lj; cbn; rewrite ?E1, ?E2, ?Ek, ?Ej, ?Lk, ?Lj; try done.
      * rewrite Hf. destruct (String.leb j k); cbn; by rewrite ?Ek, ?Ej, ?Lk, ?Lj.
      * destruct (String.leb j k) eqn:Hl; [|done]. by rewrite (leb_trans _ _ _ Hl Lk) in Lj.
      * destruct (String.leb k j) eqn:Hl; [|done]. by rewrite (leb_trans _ _ _ Hl Lj) in Lk.
      * by rewrite IH.
Qed.
Lemma set_comm k j x y v : k ≠ j → set_key k x (set_key j y v) = set_key j y (set_key k x v).
Proof. intros Hkj. destruct v; try done. cbn. by rewrite put_comm. Qed.

Lemma edit_app a b f v : edit (a ++ b) f v = edit a (edit b f) v.
Proof. revert v. induction a as [|k a IH]; intros v; [done|]. cbn [app edit]. by rewrite IH. Qed.
Lemma Nested_app v a b : Nested v (a ++ b) = Nested (Nested v a) b.
Proof. unfold Nested. by rewrite fold_left_app. Qed.
Lemma path_app a b v : path_ok (a ++ b) v = path_ok a v && path_ok b (Nested v a).
Proof.
  revert v. induction a as [|k a IH]; intros v; [done|]. cbn [app path_ok]. rewrite IH, andb_assoc. done.
Qed.

Section Candidate.
Context `{Sha256} `{FloatText} (p : Policy).
Implicit Types c : Configuration.

Definition pod_path : list string := ["spec"; "template"; "spec"].

(** ** Rendering twice *)

Definition clean_arg (a : JSON) : Prop := (str a =s offload_flag) = false ∧ has_prefix (str a) (offload_flag +:+ "=") = false.
Lemma without_clean n : ∀ args, (length args ≤ n)%nat → ∀ l, without_offload args = Ok l → Forall clean_arg l.
Proof.
  induction n as [|n IH]; intros [|a args] Hn l; cbn [without_offload length] in *; try lia; try (intros [= <-]; constructor).
  destruct (str a =s offload_flag) eqn:Hf.
  - destruct args as [|b args]; [done|]. cbn in Hn. apply IH. lia.
  - destruct (has_prefix _ _) eqn:Hp; [apply IH; lia|]. intros (l' & Hl & [= <-])%bind_ok. constructor; [done|]. eapply IH; [|done]. lia.
Qed.
Lemma without_again l n : Forall clean_arg l → without_offload (l ++ [JString offload_flag; n]) = Ok l.
Proof.
  induction 1 as [|a l [Hf Hp] _ IH]; [done|]. cbn [app without_offload]. rewrite Hf, Hp, IH. done.
Qed.

Lemma env_again values env : environment_of values (environment_of values env) = environment_of values env.
Proof.
  unfold environment_of. f_equal. rewrite List.filter_app.
  assert (List.filter (λ e, negb (tuned values e)) (env_var <$> values) = []) as ->.
  { assert (∀ l, (∀ kv, kv ∈ l → kv ∈ values) → List.filter (λ e, negb (tuned values e)) (env_var <$> l) = []) as Hl; [|by apply Hl].
    induction l as [|kv l IH]; intros Hin; [done|]. cbn [fmap list_fmap List.filter]. unfold tuned at 1, env_var at 1. cbn [get find fst snd].
    rewrite (proj2 (str_in_spec _ _)); [apply IH; intros; apply Hin; by right|]. cbn. apply list_elem_of_fmap. exists kv. split; [done|]. apply Hin. by left. }
  rewrite app_nil_r. induction env as [|e env IH]; [done|]. cbn [List.filter]. destruct (negb (tuned values e)) eqn:He; [|done].
  cbn [List.filter]. by rewrite He, IH.
Qed.

Lemma shm_again size l : ∀ found l' f, resize_shm size l found = Ok (l', f) → resize_shm size l' found = Ok (l', f).
Proof.
  induction l as [|v l IH]; intros found l' f; cbn [resize_shm]; [by intros [= <- <-]|].
  destruct (str (get "name" v) =s "shm") eqn:Hn.
  - destruct (str (Nested v ["emptyDir"; "medium"]) <>s "Memory") eqn:Hm; [done|]. intros ([l0 f0'] & Hr & [= <- <-])%bind_ok. cbn [fst snd].
    set (v' := set_key "emptyDir" (set_key "sizeLimit" (JString size) (get "emptyDir" v)) v).
    assert (is_object v = true ∧ is_object (get "emptyDir" v) = true) as [Hv He].
    { bool_hyps. destruct (get "emptyDir" v) as [| | | | | | |fs] eqn:Hd; unfold Nested in Hm; cbn in Hm; rewrite Hd in Hm; try done. split; [|done]. by destruct v. }
    assert (get "name" v' = get "name" v) as H1 by (by apply get_set_ne).
    assert (Nested v' ["emptyDir"; "medium"] = Nested v ["emptyDir"; "medium"]) as H2.
    { unfold v', Nested. cbn [edit fold_left]. rewrite get_set by done. by apply get_set_ne. }
    assert (edit ["emptyDir"] (set_key "sizeLimit" (JString size)) v' = v') as H3 by (unfold v'; cbn [edit]; rewrite get_set, !set_set by done; done).
    clearbody v'. cbn [resize_shm]. rewrite H1, H2, Hn, Hm, (IH _ _ _ Hr), H3. done.
  - intros ([l0 f0'] & Hr & [= <- <-])%bind_ok. cbn [fst snd resize_shm]. rewrite Hn, (IH _ _ _ Hr). done.
Qed.

Lemma tuned_get q c args container k : k ≠ "args" → k ≠ "env" → k ≠ "resources" → get k (tuned_container q c args container) = get k container.
Proof. intros. unfold tuned_container. by rewrite !get_set_ne. Qed.
Lemma tuned_env q c args container : is_object container = true →
  list_of (get "env" (tuned_container q c args container)) = environment_of (tuning q c) (list_of (get "env" container)).
Proof. intros Ho. unfold tuned_container. rewrite get_set_ne by done. by rewrite get_set by (by rewrite set_object). Qed.
Lemma tuned_args q c args container : is_object container = true →
  get "args" (tuned_container q c args container) = JArray (args ++ [JString offload_flag; JString (pretty (sv_CPUOffloadGiB (cf_Serving c)))]).
Proof. intros Ho. unfold tuned_container. rewrite !get_set_ne by done. by rewrite get_set. Qed.
Lemma tuned_again q c args container : is_object container = true →
  tuned_container q c args (tuned_container q c args container) = tuned_container q c args container.
Proof.
  intros Ho. unfold tuned_container at 1. rewrite tuned_env, env_again by done. unfold tuned_container.
  set (E := JArray _). set (A := JArray _). set (R := resources_of _).
  rewrite (set_comm "args" "resources"), (set_comm "args" "env") by done. rewrite (set_set "args").
  rewrite (set_comm "env" "resources"), (set_set "env") by done. by rewrite (set_set "resources").
Qed.

(** ** The shape of a candidate *)

Definition rendered (volumes : list JSON) (container spec : JSON) : JSON :=
  set_key "volumes" (JArray volumes) (set_key "containers" (JArray [container]) spec).
Lemma rendered_again volumes container spec : rendered volumes container (rendered volumes container spec) = rendered volumes container spec.
Proof. unfold rendered. rewrite (set_comm "containers" "volumes"), !set_set by done. done. Qed.

Record candidate_of (current candidate : JSON) (c : Configuration) (container : JSON) (args volumes : list JSON) : Prop := {
  ca_container : list_of (Nested current containers_path) = [container];
  ca_inits : list_of (Nested current ["spec"; "template"; "spec"; "initContainers"]) = [];
  ca_identity : (str (get "name" container) <>s "sglang") || (str (get "image" container) <>s qf_Image (qualification_of p c))
        || (str (Nested current ["metadata"; "annotations"; "workstation.ai/qualification"]) <>s "qualified")
        || (str (Nested current ["spec"; "strategy"; "type"]) <>s "Recreate") = false;
  ca_command : (sha256_hex (get "command" container) <>s sha256_hex (JArray [JString "python3"; JString "-m"; JString "sglang.launch_server"])) = false;
  ca_args : without_offload (list_of (get "args" container)) = Ok args;
  ca_volumes : resize_shm (mib (rs_SharedMemoryMiB (cf_Resources c))) (list_of (Nested current volumes_path)) false = Ok (volumes, true);
  ca_path : path_ok pod_path current = true ∧ is_object (Nested current pod_path) = true;
  ca_candidate : candidate = edit pod_path (rendered volumes (tuned_container (qualification_of p c) c args container)) current }.

Lemma candidate_shape current c candidate : servingCandidate p current c = Ok candidate →
  ∃ container args volumes, candidate_of current candidate c container args volumes.
Proof.
  unfold servingCandidate. destruct (list_of (Nested current containers_path)) as [|container [|]] eqn:Hc; try done.
  destruct (list_of (Nested current ["spec"; "template"; "spec"; "initContainers"])) eqn:Hi; [|done].
  destruct (_ || _) eqn:Hid; [done|]. destruct (sha256_hex _ <>s _) eqn:Hcmd; [done|].
  intros (args & Ha & ([volumes found] & Hv & Hr)%bind_ok)%bind_ok. cbn [fst snd] in Hr. destruct found; [|done].
  assert (∀ x y : JSON, Ok x = Ok y → x = y) as ok_eq by (by intros ?? [= ->]). apply ok_eq in Hr as <-.
  assert (path_ok (pod_path ++ ["containers"]) current = true) as Hp.
  { apply path_of_value. change (pod_path ++ ["containers"]) with containers_path. by destruct (Nested current containers_path). }
  rewrite path_app in Hp. apply andb_true_iff in Hp as [Hp Ho]. cbn [path_ok] in Ho. rewrite andb_true_r in Ho.
  exists container, args, volumes. split; try done. change volumes_path with (pod_path ++ ["volumes"]). change containers_path with (pod_path ++ ["containers"]).
  rewrite !edit_app. by rewrite edit_edit.
Qed.

Lemma candidate_pod current candidate c container args volumes : candidate_of current candidate c container args volumes →
  Nested candidate pod_path = rendered volumes (tuned_container (qualification_of p c) c args container) (Nested current pod_path).
Proof. intros Hc. rewrite (ca_candidate _ _ _ _ _ _ Hc). apply Nested_edit, Hc. Qed.
Lemma rendered_get k volumes container spec : k ≠ "volumes" → k ≠ "containers" → get k (rendered volumes container spec) = get k spec.
Proof. intros. unfold rendered. by rewrite !get_set_ne. Qed.
Lemma candidate_outside current candidate c container args volumes : candidate_of current candidate c container args volumes →
  (∀ k, k ≠ "spec" → get k candidate = get k current) ∧ (∀ k, k ≠ "template" → get k (get "spec" candidate) = get k (get "spec" current)) ∧
  (∀ k, k ≠ "spec" → Nested candidate ["spec"; "template"; k] = Nested current ["spec"; "template"; k]).
Proof.
  intros Hc. rewrite (ca_candidate _ _ _ _ _ _ Hc). destruct (ca_path _ _ _ _ _ _ Hc) as [Hp _]. cbn [pod_path path_ok] in Hp. bool_hyps.
  cbn [edit pod_path]. split_and!; intros k Hk; [by apply get_set_ne|rewrite get_set by done; by apply get_set_ne|].
  unfold Nested. cbn [fold_left]. rewrite !get_set by done. by apply get_set_ne.
Qed.

Lemma candidate_parts current candidate c container args volumes : candidate_of current candidate c container args volumes →
  Nested candidate containers_path = JArray [tuned_container (qualification_of p c) c args container] ∧ Nested candidate volumes_path = JArray volumes.
Proof.
  intros Hc. pose proof (candidate_pod _ _ _ _ _ _ Hc) as Hpod. destruct (ca_path _ _ _ _ _ _ Hc) as [_ Ho].
  change containers_path with (pod_path ++ ["containers"]). change volumes_path with (pod_path ++ ["volumes"]). rewrite !Nested_app, Hpod.
  unfold Nested at 1 3. cbn [fold_left]. unfold rendered. split; [rewrite get_set_ne by done; by rewrite get_set|].
  rewrite get_set; [done|by rewrite set_object].
Qed.

Lemma candidate_object current candidate c container args volumes : candidate_of current candidate c container args volumes → is_object container = true.
Proof. intros Hc. pose proof (ca_identity _ _ _ _ _ _ Hc) as Hid. apply orb_false_iff in Hid as [[[Hn _]%orb_false_iff _]%orb_false_iff _]. by destruct container. Qed.

(** Rendering is idempotent: the serving document rendered for a configuration is itself
    an acceptable current document, and rendering it again for that configuration gives the
    same document, so a repeated configuration is a no-op on the cluster. *)
Theorem servingCandidate_idempotent current c candidate :
  servingCandidate p current c = Ok candidate → servingCandidate p candidate c = Ok candidate.
Proof.
  intros (container & args & volumes & Hc)%candidate_shape. pose proof (candidate_pod _ _ _ _ _ _ Hc) as Hpod. pose proof (candidate_outside _ _ _ _ _ _ Hc) as (Hout & Hspec & _).
  pose proof Hc as Hc0. destruct Hc as [Hcon Hin Hid Hcmd Hargs Hvol [Hp Ho] Hcan]. set (q := qualification_of p c) in *. set (t := tuned_container q c args container) in *.
  assert (is_object container = true) as Hobj by (apply orb_false_iff in Hid as [[[Hn _]%orb_false_iff _]%orb_false_iff _]; by destruct container).
  assert (∀ k, Nested candidate (pod_path ++ [k]) = get k (rendered volumes t (Nested current pod_path))) as Hget by (intros k; by rewrite Nested_app, Hpod).
  pose proof (candidate_parts _ _ _ _ _ _ Hc0) as [Hc1 Hv1].
  unfold servingCandidate. rewrite Hc1, Hv1. cbn [list_of].
  change ["spec"; "template"; "spec"; "initContainers"] with (pod_path ++ ["initContainers"]) in *. rewrite Hget, rendered_get by done.
  change (get "initContainers" ?v) with (Nested v ["initContainers"]). rewrite <- Nested_app, Hin.
  fold q. unfold t. rewrite !tuned_get by done. fold t.
  assert (Nested candidate ["metadata"; "annotations"; "workstation.ai/qualification"] = Nested current ["metadata"; "annotations"; "workstation.ai/qualification"]) as ->
    by (unfold Nested; cbn [fold_left]; by rewrite Hout).
  assert (Nested candidate ["spec"; "strategy"; "type"] = Nested current ["spec"; "strategy"; "type"]) as -> by (unfold Nested; cbn [fold_left]; by rewrite Hspec).
  rewrite Hid, Hcmd. unfold t. rewrite tuned_args by done. fold t. cbn [list_of].
  rewrite without_again by (by eapply without_clean). rewrite (shm_again _ _ _ _ _ Hvol).
  change (Ok (edit volumes_path (λ _, JArray volumes) (edit containers_path (λ _, JArray [tuned_container q c args t]) candidate)) = Ok candidate). f_equal.
  change volumes_path with (pod_path ++ ["volumes"]). change containers_path with (pod_path ++ ["containers"]). rewrite !edit_app.
  unfold t. rewrite tuned_again by done. fold t. rewrite edit_edit by (rewrite Hcan; by apply path_edit).
  change (edit pod_path (rendered volumes t) candidate = candidate). rewrite Hcan at 1. rewrite edit_edit by done. rewrite Hcan. apply edit_ext. apply rendered_again.
Qed.

(** ** What a candidate changes *)

Lemma filter_none {A} (f : A → bool) l : (∀ x, x ∈ l → f x = false) → List.filter f l = [].
Proof.
  induction l as [|x l IH]; intros Hl; [done|]. cbn. rewrite (Hl x) by left. apply IH. intros y Hy. apply Hl. by right.
Qed.
Lemma env_value values env k v : NoDup values.*1 → (k, v) ∈ values →
  List.filter (λ e, str (get "name" e) =s k) (environment_of values env) = [env_var (k, v)].
Proof.
  intros Hd Hin. unfold environment_of. rewrite List.filter_app.
  rewrite (filter_none _ (List.filter _ env)), app_nil_l.
  - revert Hd Hin. induction values as [|[k' v'] values IH]; intros Hd Hin; [by apply not_elem_of_nil in Hin|].
    cbn [fmap list_fmap List.filter fst] in *. apply NoDup_cons in Hd as [Hk Hd]. change (str (get "name" (env_var (k', v')))) with k'.
    destruct (k' =s k) eqn:E.
    + apply String.eqb_eq in E as ->. rewrite filter_none; [|].
      * apply elem_of_cons in Hin as [[= ->]|Hin]; [done|]. destruct Hk. apply list_elem_of_fmap. by exists (k, v).
      * intros x ([k2 v2] & -> & H2)%list_elem_of_fmap. apply String.eqb_neq. change (k2 ≠ k). intros ->. apply Hk. apply list_elem_of_fmap. by exists (k, v2).
    + apply IH; [done|]. apply elem_of_cons in Hin as [[= -> ->]|Hin]; [|done]. by rewrite eqb_str_refl in E.
  - intros x Hx. apply list_elem_of_In, filter_In in Hx as [_ Hx]. apply negb_true_iff in Hx. apply String.eqb_neq. intros E.
    apply not_true_iff_false in Hx. apply Hx. unfold tuned. apply str_in_spec. rewrite E. apply list_elem_of_fmap. by exists (k, v).
Qed.
Lemma env_kept values env : List.filter (λ e, negb (tuned values e)) (environment_of values env) = List.filter (λ e, negb (tuned values e)) env.
Proof.
  assert (environment_of values env = List.filter (λ e, negb (tuned values e)) env ++ (env_var <$> values)) as E by done.
  pose proof (env_again values env) as Ha. unfold environment_of at 1 in Ha. rewrite E in Ha at 2. by apply app_inv_tail in Ha.
Qed.
Lemma tuning_distinct q c : NoDup (tuning q c).*1.
Proof. change (tuning q c).*1 with ["MODEL_PATH"; "MODEL_REVISION"; "SERVED_MODEL_NAME"; "CONTEXT_LENGTH"; "MEM_FRACTION_STATIC"; "MAX_RUNNING_REQUESTS"; "TENSOR_PARALLEL"]. by apply (bool_decide_unpack _). Qed.

Definition resized (size : string) (v v' : JSON) : Prop :=
  if str (get "name" v) =s "shm" then str (Nested v ["emptyDir"; "medium"]) = "Memory" ∧ v' = edit ["emptyDir"] (set_key "sizeLimit" (JString size)) v
  else v' = v.
Lemma resize_shape size l : ∀ found l' f, resize_shm size l found = Ok (l', f) → Forall2 (resized size) l l'.
Proof.
  induction l as [|v l IH]; intros found l' f; cbn [resize_shm]; [by intros [= <- _]|].
  destruct (str (get "name" v) =s "shm") eqn:Hn.
  - destruct (str (Nested v ["emptyDir"; "medium"]) <>s "Memory") eqn:Hm; [done|]. intros ([l0 f0] & Hr & [= <- _])%bind_ok.
    constructor; [|by eapply IH]. unfold resized. rewrite Hn. split; [|done]. by apply negb_false_iff, String.eqb_eq in Hm.
  - intros ([l0 f0] & Hr & [= <- _])%bind_ok. constructor; [|by eapply IH]. unfold resized. by rewrite Hn.
Qed.

(** The arguments without the CPU offload, given as two words or as one. *)
Inductive stripped : list JSON → list JSON → Prop :=
| stripped_nil : stripped [] []
| stripped_words a b l l' : str a = offload_flag → stripped l l' → stripped (a :: b :: l) l'
| stripped_word a l l' : has_prefix (str a) (offload_flag +:+ "=") = true → stripped l l' → stripped (a :: l) l'
| stripped_kept a l l' : clean_arg a → stripped l l' → stripped (a :: l) (a :: l').
Lemma without_stripped n : ∀ args, (length args ≤ n)%nat → ∀ l, without_offload args = Ok l → stripped args l.
Proof.
  induction n as [|n IH]; intros [|a args] Hn l; cbn [without_offload length] in *; try lia; try (intros [= <-]; constructor).
  destruct (String.eqb_spec (str a) offload_flag) as [Hf|Hf].
  - destruct args as [|b args]; [done|]. cbn in Hn. intros Hl. apply stripped_words; [done|]. apply IH; [lia|done].
  - destruct (has_prefix _ _) eqn:Hp; [intros Hl; apply stripped_word; [done|]; apply IH; [lia|done]|]. intros (l' & Hl & [= <-])%bind_ok.
    apply stripped_kept; [split; [by apply String.eqb_neq|done]|]. apply IH; [lia|done].
Qed.
(** The variables a configuration determines. *)
Definition serving_variables (q : Qualification) (c : Configuration) : list (string * string) :=
  let s := cf_Serving c in let r := cf_Resources c in
  [("MODEL_PATH", qf_ModelPath q); ("MODEL_REVISION", qf_ModelRevision q); ("SERVED_MODEL_NAME", sv_Model s);
   ("CONTEXT_LENGTH", pretty (sv_Context s)); ("MEM_FRACTION_STATIC", format_float (sv_MemoryFraction s));
   ("MAX_RUNNING_REQUESTS", pretty (sv_Concurrency s)); ("TENSOR_PARALLEL", pretty (rs_GPUCount r))].
Lemma tuning_variables q c : tuning q c = serving_variables q c.
Proof. reflexivity. Qed.

(** C27: A candidate changes the running server and nothing else: of the current document only
    the single container's arguments, environment and resources and the volumes differ; the
    requests and limits are the budget asked for, every tuning variable has exactly one
    definition and the value of the configuration, the arguments other than CPU offload are
    kept and end with the configured one, and volumes are kept up to the size of the
    shared-memory ones. *)
Theorem servingCandidate_exact current c candidate : servingCandidate p current c = Ok candidate →
  ∃ old new args,
    list_of (Nested current containers_path) = [old] ∧ list_of (Nested candidate containers_path) = [new] ∧
    (∀ k, k ≠ "spec" → get k candidate = get k current) ∧
    (∀ k, k ≠ "template" → get k (get "spec" candidate) = get k (get "spec" current)) ∧
    (∀ k, k ≠ "spec" → Nested candidate ["spec"; "template"; k] = Nested current ["spec"; "template"; k]) ∧
    (∀ k, k ≠ "containers" → k ≠ "volumes" → Nested candidate (pod_path ++ [k]) = Nested current (pod_path ++ [k])) ∧
    (∀ k, k ≠ "args" → k ≠ "env" → k ≠ "resources" → get k new = get k old) ∧
    (∀ side, side ∈ ["requests"; "limits"] → ∀ k v, (k, v) ∈ [("amd.com/gpu", pretty (rs_GPUCount (cf_Resources c)));
       ("cpu", pretty (rs_CPU (cf_Resources c))); ("memory", pretty (rs_MemoryMiB (cf_Resources c)) +:+ "Mi")] →
       Nested new ["resources"; side; k] = JString v) ∧
    stripped (list_of (get "args" old)) args ∧
    list_of (get "args" new) = args ++ [JString offload_flag; JString (pretty (sv_CPUOffloadGiB (cf_Serving c)))] ∧
    (∀ k v, (k, v) ∈ serving_variables (qualification_of p c) c → List.filter (λ e, str (get "name" e) =s k) (list_of (get "env" new)) =
       [JObject [("name", JString k); ("value", JString v)]]) ∧
    List.filter (λ e, negb (str_in (str (get "name" e)) (serving_variables (qualification_of p c) c).*1)) (list_of (get "env" new)) =
      List.filter (λ e, negb (str_in (str (get "name" e)) (serving_variables (qualification_of p c) c).*1)) (list_of (get "env" old)) ∧
    Forall2 (resized (pretty (rs_SharedMemoryMiB (cf_Resources c)) +:+ "Mi")) (list_of (Nested current volumes_path)) (list_of (Nested candidate volumes_path)).
Proof.
  intros (container & args & volumes & Hc)%candidate_shape. pose proof (candidate_pod _ _ _ _ _ _ Hc) as Hpod. pose proof (candidate_parts _ _ _ _ _ _ Hc) as [Hc1 Hv1].
  pose proof (candidate_outside _ _ _ _ _ _ Hc) as (Hout & Hspec & Htemplate). pose proof (candidate_object _ _ _ _ _ _ Hc) as Ho.
  exists container, (tuned_container (qualification_of p c) c args container), args. rewrite Hc1, Hv1, <- tuning_variables.
  split_and!; try done; try apply Hc; intros.
  - rewrite !Nested_app, Hpod. by apply rendered_get.
  - by apply tuned_get.
  - unfold Nested. cbn [fold_left]. unfold tuned_container. rewrite get_set by (by rewrite !set_object).
    repeat match goal with Hi : _ ∈ _ |- _ => apply elem_of_cons in Hi as [?|Hi] || by apply elem_of_nil in Hi end; by simplify_eq.
  - eapply without_stripped; [done|apply Hc].
  - by rewrite tuned_args.
  - rewrite tuned_env by done. apply env_value; [apply tuning_distinct|done].
  - rewrite tuned_env by done. apply env_kept.
  - eapply resize_shape, Hc.
Qed.
End Candidate.

Module CandidateFixture.
#[export] Existing Instance render_hash.
#[export] Existing Instance CapacityFixture.small_texts.
Definition cfg : Configuration := DomainFixture.config.
Definition policy : Policy :=
  mkPolicy ∅ ∅ 1 1000 "/run/h.sock" "/var/lib/h" "/var/lib/s" "/opt/r" ∅ ∅ "/etc/w" "/etc/c" "/var/hw" "/models" ""
    "/etc/k" "/usr/bin/kubectl" "ctx" "ws" "dev" "ns" "ai" "u1" "game" "u2" 60
    {[ConfigurationHash (cf_Serving cfg) (cf_Resources cfg) := mkQualification "sglang@sha256:1" "rev" "/models/qwen" zeroTime "" ∅]} ∅ 16.
Definition container : JSON := JObject [
  ("args", JArray [JString "--host"; JString "0.0.0.0"; JString "--cpu-offload-gb"; JString "4"]);
  ("command", JArray [JString "python3"; JString "-m"; JString "sglang.launch_server"]);
  ("env", JArray [JObject [("name", JString "HF_HOME"); ("value", JString "/cache")]; JObject [("name", JString "MODEL_PATH"); ("value", JString "/old")]]);
  ("image", JString "sglang@sha256:1"); ("name", JString "sglang")].
Definition volumes : JSON := JArray [
  JObject [("name", JString "models")];
  JObject [("emptyDir", JObject [("medium", JString "Memory"); ("sizeLimit", JString "1Mi")]); ("name", JString "shm")]].
Definition current : JSON := JObject [
  ("metadata", JObject [("annotations", JObject [("workstation.ai/qualification", JString "qualified")])]);
  ("spec", JObject [("replicas", JFloat f1); ("strategy", JObject [("type", JString "Recreate")]);
    ("template", JObject [("spec", JObject [("containers", JArray [container]); ("volumes", volumes)])])])].
Definition candidate : JSON := match servingCandidate policy current cfg with Ok v => v | Err _ => JNull end.
Lemma accepted : servingCandidate policy current cfg = Ok candidate.
Proof. vm_compute. reflexivity. Qed.
Lemma renewed : deep_equal candidate current = false.
Proof. vm_compute. reflexivity. Qed.
End CandidateFixture.
#[local] Existing Instance render_hash.
#[local] Existing Instance CapacityFixture.small_texts.

Lemma servingCandidate_idempotent_witness : deep_equal CandidateFixture.candidate CandidateFixture.current = false ∧
  servingCandidate CandidateFixture.policy CandidateFixture.candidate CandidateFixture.cfg = Ok CandidateFixture.candidate.
Proof. exact (conj CandidateFixture.renewed (servingCandidate_idempotent _ _ _ _ CandidateFixture.accepted)). Defined.

Lemma servingCandidate_exact_witness : ∃ old new,
  list_of (Nested CandidateFixture.current containers_path) = [old] ∧ list_of (Nested CandidateFixture.candidate containers_path) = [new] ∧
  Nested new ["resources"; "limits"; "cpu"] = JString (pretty (rs_CPU (cf_Resources CandidateFixture.cfg))).
Proof.
  destruct (servingCandidate_exact _ _ _ _ CandidateFixture.accepted) as (old & new & args & H1 & H2 & _ & _ & _ & _ & _ & H3 & _).
  exists old, new. refine (conj H1 (conj H2 (H3 "limits" _ "cpu" _ _))).
  - apply list_elem_of_further, list_elem_of_here.
  - apply list_elem_of_further, list_elem_of_here.
Defined.
