(* ===== verification/Runtime.v ===== *)
(** The helper's external run ([internal/hostexec/runtime.go], [hardware.go], [models.go]): the
    fixed commands it starts, the checks before them, and which of its errors say that nothing
    was started.

    A run is a tree of interactions with the host: commands, file reads and clock readings;
    one reading of an evidence bundle is one interaction.  [HostRun] composes the parts. *)
From S2P Require Import MemoryBundle MemoryPlan PerfBundle.
From S2P Require Import Prelude Interact Json Tree Types Domain Safefile Store Source Wire Evidence HostPolicy HostExec Kube.
From stdpp Require Import pretty.
#[local] Open Scope Z_scope.

(** ** Interactions *)

(** How a command ended: not started because the deadline had passed or for another reason,
    exited with its output, or killed at the deadline. *)
Inductive RunOutcome := RunTooLate | RunUnstarted | RunExited (success : bool) (out : string) | RunKilled.
(** [trustedPath]. *)
Inductive Trust := Trusted | Missing | Untrusted.

Inductive FileKind := KLink | KDir | KRegular | KSpecial.
(** An entry of the model directory; the digest of a file whose content could be read. *)
Record ModelEntry := mkModelEntry { me_Name : string; me_Kind : FileKind; me_SHA256 : option string }.
(** What [verifyModel] sees of the model storage: the root is a plain directory, it opens, the
    plain directories below it, the model's directory opens, and the walk of it. *)
Record ModelTree := mkModelTree {
  mt_Root : bool;
  mt_Opens : bool;
  mt_Dir : string → bool;
  mt_ModelOpens : bool;
  mt_Entries : list (option ModelEntry) }.

(** An entry of a tree that is walked: whether its path is trusted, its permissions, whether
    it is a regular file, and its size. *)
Record TreeEntry := mkTreeEntry {
  te_Trust : Trust;
  te_Dir : bool;
  te_Symlink : bool;
  te_Regular : bool;
  te_Perm : option Z;
  te_Size : Z }.

Inductive HostAct :=
| HVerify
(** what [validate] reads *)
| HValidation
| HNow
(** the order in which a loop visits the keys of a map *)
| HRange (keys : gset string)
| HExec (path : string) (args env : list string) (lock : bool) (input : string)
| HRead (path : string)
(** one document from the start of a file: [json.Decoder] *)
| HDecode (path : string)
| HTrusted (path : string) (directory : bool)
| HModelTree (rel : string)
| HMakeDir (path : string) (mode : Z)
(** the durable replacement of a file *)
| HPublish (path content : string) (mode : Z)
| HRemove (path : string)
| HSyncDir (path : string)
| HRecords
(** a walk over a directory *)
| HTree (root : string)
(** what [mem.Verify], [mem.Telemetry], [mem.Observe] and [mem.ValidateOutput] read *)
| HBundle (root : string)
| HTelemetry (root : string)
| HObserve (root : string)
| HOutput (output root runtime : string)
| HRawJSON (path : string)
| HHashFile (path : string)
| HMkdir (path : string) (mode : Z)
| HStatfs (path : string)
(** [mem.Copy], [mem.SyncOutput] and [perf.Copy] *)
| HCopyMemory (root destination digest : string)
| HSyncOutput (path : string)
| HCopyPerformance (root destination digest : string)
| HSafeRead (path : string) (limit : Z)
(** what [perf.Verify] reads *)
| HPerfBundle (root : string).

Definition host_answer (e : HostAct) : Type :=
  match e with
  | HVerify => result unit
  | HValidation => time * SourceFile * gmap string record
  | HNow => time
  | HRange keys => {l : list string | l ≡ₚ elements keys}
  | HExec _ _ _ _ _ => RunOutcome
  | HRead _ => option string
  | HDecode _ => option (option JSON)
  | HTrusted _ _ => Trust
  | HModelTree _ => ModelTree
  | HMakeDir _ _ | HPublish _ _ _ | HRemove _ | HSyncDir _ => result unit
  | HRecords => gmap string record
  | HTree _ => list (option TreeEntry)
  | HBundle _ => result (string * result MemoryBundle.Manifest) * list (option MemoryBundle.Entry)
  | HTelemetry _ => result (string * result telemetryEvidence)
  | HObserve _ | HOutput _ _ _ => PlanFiles
  | HRawJSON _ => result JSON
  | HHashFile _ => option (string * Z)
  | HMkdir _ _ | HCopyMemory _ _ _ | HSyncOutput _ | HCopyPerformance _ _ _ => result unit
  | HStatfs _ => option (Z * Z)
  | HSafeRead _ _ => result string
  | HPerfBundle _ => (string → result string) * result string * list (option PerfEntry)
  end.

(** ** Computations that may fail and may have started an effect *)

Definition Exec (A : Type) : Type := bool → Run host_answer (bool * result A).
#[export] Instance Exec_ret : MRet Exec := λ A a s, Ret (s, Ok a).
#[export] Instance Exec_bind : MBind Exec := λ A B f m s,
  run_bind (λ sr : bool * result A, match sr.2 with Ok a => f a sr.1 | Err e => Ret (sr.1, Err e) end) (m s).
Definition fault {A} (e : error) : Exec A := λ s, Ret (s, Err e).
Definition of_result {A} (r : result A) : Exec A := λ s, Ret (s, r).
Definition ask (e : HostAct) : Exec (host_answer e) := λ s, Do e (λ v, Ret (s, Ok v)).
(** A computation whose error the caller looks at. *)
Definition attempt {A} (m : Exec A) : Exec (result A) := λ s, run_bind (λ sr : bool * result A, Ret (sr.1, Ok sr.2)) (m s).
(** [*effectStarted = true]. *)
Definition mark : Exec unit := λ _, Ret (true, Ok tt).
Notation "'refuse' b 'with' e ';;' k" := (if b then fault e else k)
  (at level 10, b at level 99, e at level 99, k at level 200) : go_scope.

Fixpoint each {A} (f : A → Exec unit) (l : list A) : Exec unit :=
  match l with [] => mret tt | x :: l => _ ← f x; each f l end.

(** The digest of a Pod template without HTML escapes, as the session tool computes it. *)
Class TemplateHash := canonicalTemplateHash : JSON → string.

Section Runtime.
Context `{Sha256} `{TemplateHash} `{JSONText} `{JSONRender} `{AnyText} `{FloatText} `{RFC3339} `{TimeText} (policy : Policy).

(** ** Commands *)

(** [runFixed]; the output buffer refuses what exceeds its limit. *)
Definition run_result (limit : Z) (o : RunOutcome) : result string :=
  match o with
  | RunTooLate => Err (Plain "runtime deadline expired before dispatch")
  | RunUnstarted => Err (Plain "installed runtime executable could not start")
  | RunExited success out =>
    if success && (str_len out <=? limit) then Ok out
    else Err (Plain "reviewed runtime refused or failed the operation; inspect target qualification, RBAC and legacy recovery state")
  | RunKilled => Err (Plain "bounded runtime deadline expired; external outcome requires recovery")
  end.
Definition runFixed (path : string) (args env : list string) (lock : bool) (input : string) (limit : Z) : Exec string :=
  o ← ask (HExec path args env lock input); of_result (run_result limit o).

Definition environment : list string :=
  ["PATH=/usr/bin:/bin:/opt/rocm/bin"; "LANG=C"; "LC_ALL=C"; "HOME=/var/empty"; "KUBECONFIG=" +:+ po_Kubeconfig policy; "WORKSTATION_SESSION_LOCK_FD=3"].
Definition workstationctl : string := path_join (po_RuntimeRoot policy) "bin/workstationctl".
Definition kube_args (args : list string) : list string :=
  ["--kubeconfig"; po_Kubeconfig policy; "--context"; po_Context policy; "--request-timeout=15s"] ++ args.
Definition kube (input : string) (args : list string) : Exec JSON :=
  b ← runFixed (po_Kubectl policy) (kube_args args) environment false input (4 * 2^20);
  match any_object b with
  | Some v => mret v
  | None => fault (Plain "bounded Kubernetes response is invalid")
  end.
Definition get_object (kind name : string) : list string := ["-n"; po_Namespace policy; "get"; kind; name; "-o"; "json"].
Definition get_deployment (name : string) : Exec JSON := kube "" (get_object "deployment" name).

Definition error_text (e : error) : string := match e with Failure _ m | Plain m => m end.
Definition is_trusted (t : Trust) : bool := match t with Trusted => true | _ => false end.
Definition deployment_uid (d : JSON) : string := str (Nested d ["metadata"; "uid"]).
(** [e.validate(r)]. *)
Definition revalidate (r : Request) : Exec unit :=
  seen ← ask HValidation;
  of_result (let '(now, src, records) := seen in validate policy now src records r).

(** ** The saved session *)

Definition session_state : string := path_join (po_SessionDir policy) "state.json".
Definition dec_previous : decoder (Z * Z) := dec_lenient [
  at_key "ai" dec_int fst (λ x p, (x, p.2)); at_key "game" dec_int snd (λ x p, (p.1, x))].
Definition dec_saved : decoder (Z * Z) := dec_lenient [("previous", dec_previous)].
Definition saved_session (b : string) : option (Z * Z) := v ← unmarshal b; dec_saved v (0, 0).

(** ** Qualification of the session's Pod template *)

Definition template_of (deployment : JSON) : JSON := Nested deployment ["spec"; "template"].
(** The ConfigMaps a Deployment refers to. *)
Definition container_references (c : JSON) : list string :=
  ((λ from, str (Nested from ["configMapRef"; "name"])) <$> list_of (get "envFrom" c))
  ++ ((λ env, str (Nested env ["valueFrom"; "configMapKeyRef"; "name"])) <$> list_of (get "env" c)).
Definition references (target : JSON) : gset string :=
  list_to_set (List.filter (λ name, name <>s "")
    (((list_of (Nested target containers_path) ++ list_of (Nested target ["spec"; "template"; "spec"; "initContainers"])) ≫= container_references)
     ++ ((λ v, str (Nested v ["configMap"; "name"])) <$> list_of (Nested target volumes_path)))).

Definition checkConfigMap (hashes : gmap string string) (name : string) : Exec unit :=
  let want := default "" (hashes !! name) in
  refuse negb (str_len want =? 64) with Plain "session configuration reference is not independently qualified" ;;
  m ← kube "" (get_object "configmap" name);
  refuse sha256_hex (JObject [("binaryData", get "binaryData" m); ("data", get "data" m)]) <>s want
    with Plain "session ConfigMap changed from root qualification" ;;
  mret tt.
Definition checkConfigMaps (target : JSON) (hashes : gmap string string) : Exec unit :=
  order ← ask (HRange (references target)); each (checkConfigMap hashes) (`order).

Fixpoint pick_qualification (profile : string) (target : JSON) (keys : list string) : Exec unit :=
  match keys with
  | [] => fault (Plain "session Pod template qualification is absent, changed or expired in independent root policy")
  | key :: keys =>
    match po_SessionQualifications policy !! key with
    | None => pick_qualification profile target keys
    | Some q =>
      if (key <>s profile) && negb (has_prefix key (profile +:+ "/")) then pick_qualification profile target keys else
      now ← ask HNow;
      if negb (after (sq_ExpiresAt q) now) || (sq_TemplateHash q <>s sha256_hex (template_of target))
      then pick_qualification profile target keys
      else checkConfigMaps target (sq_ConfigMaps q)
    end
  end.
Definition qualifySession (profile : string) (ai game : JSON) : Exec unit :=
  let target := if profile =s "gaming" then game else ai in
  order ← ask (HRange (dom (po_SessionQualifications policy)));
  pick_qualification profile target (`order).

(** ** The session switch *)

Definition session_args (profile : string) : list string :=
  ["--config"; po_WorkstationConfig policy; "session"]
  ++ (if profile =s "restore" then ["restore"] else ["switch"; profile])
  ++ [po_HardwarePath policy; po_SessionDir policy; "--execute"].
(** The profile whose template must be qualified. *)
Definition desired_profile (profile : string) : Exec string :=
  if profile =s "restore" then
    b ← ask (HRead session_state);
    match b with
    | None => fault (Plain "read")
    | Some b =>
      match saved_session b with
      | None => fault (Plain "invalid legacy restoration snapshot")
      | Some (ai, game) => mret (if game =? 1 then "gaming" else if ai =? 1 then "ai" else "maintenance")
      end
    end
  else mret profile.
Definition session (profile : string) : Exec unit :=
  desired ← desired_profile profile;
  environment ← (if (desired =s "ai") || (desired =s "gaming") then
      let deployment := if desired =s "gaming" then po_GameDeployment policy else po_AIDeployment policy in
      let key := if desired =s "gaming" then "WORKSTATION_SESSION_GAME_TEMPLATE_SHA256=" else "WORKSTATION_SESSION_AI_TEMPLATE_SHA256=" in
      document ← get_deployment deployment;
      _ ← qualifySession desired document document;
      mret (environment ++ [key +:+ canonicalTemplateHash (template_of document)])
    else mret environment);
  _ ← mark;
  _ ← runFixed workstationctl (session_args profile) environment true "" (64 * 2^10);
  mret tt.

(** ** The model's files *)

(** The path below a directory; [None] covers everything [verifyModel] refuses of it. *)
Definition path_below (base target : string) : option string :=
  let b := clean base +:+ "/" in let t := clean target in
  if has_prefix t b then
    let rel := trim_prefix t b in if has_prefix rel ".." then None else Some rel
  else None.
Definition path_prefixes (rel : string) : list string :=
  (λ n, String.concat "/" (take n (split_on "/"%char rel))) <$> seq 1 (length (split_on "/"%char rel)).
Fixpoint walk_model (files : gmap string string) (l : list (option ModelEntry)) (seen : gset string) : result (gset string) :=
  match l with
  | [] => Ok seen
  | None :: _ => Err (Plain "walk")
  | Some d :: l =>
    match me_Kind d with
    | KLink => Err (Plain "model contains a symlink")
    | KDir => walk_model files l seen
    | KSpecial => Err (Plain "model contains a special file")
    | KRegular =>
      if me_Name d =s ".bridge-receipt.json" then walk_model files l seen else
      match files !! me_Name d with
      | None => Err (Plain "model contains an unreviewed file")
      | Some want =>
        reject negb (str_len want =? 64) with Plain "model contains an unreviewed file" ;;
        match me_SHA256 d with
        | None => Err (Plain "read")
        | Some got =>
          reject got <>s want with Plain "qualified model file integrity mismatch" ;;
          walk_model files l ({[me_Name d]} ∪ seen)
        end
      end
    end
  end.
Definition verifyModel (c : Configuration) : Exec unit :=
  let absent := Plain "owner-qualified model file integrity manifest is absent or expired" in
  match po_QualifiedConfigurations policy !! ConfigurationHash (cf_Serving c) (cf_Resources c) with
  | None => fault absent
  | Some q =>
    now ← ask HNow;
    refuse negb (after (qf_ExpiresAt q) now) || bool_decide (qf_Files q = ∅) with absent ;;
    match path_below (po_ModelRoot policy) (qf_HostModelPath q) with
    | None => fault (Plain "qualified model path is outside root policy model storage")
    | Some rel =>
      refuse qf_ModelPath q <>s ("/models/" +:+ rel)
        with Plain "qualified container model path does not match the managed PVC storage mapping" ;;
      t ← ask (HModelTree rel);
      refuse negb (mt_Root t) with Plain "managed model root is unavailable or symlinked" ;;
      refuse negb (mt_Opens t) with Plain "open" ;;
      refuse negb (forallb (mt_Dir t) (path_prefixes rel)) with Plain "qualified model path is absent or symlinked" ;;
      refuse negb (mt_ModelOpens t) with Plain "open" ;;
      seen ← of_result (walk_model (qf_Files q) (mt_Entries t) ∅);
      refuse negb (Z.of_nat (size seen) =? Z.of_nat (size (qf_Files q))) with Plain "qualified model files are missing" ;;
      mret tt
    end
  end.

(** ** The hardware report *)

Definition boot_id_path : string := "/proc/sys/kernel/random/boot_id".
Definition hardware_boot : string := path_join (path_dir (po_HardwarePath policy)) "boot-id.txt".
Definition dec_report : decoder (time * string) := dec_lenient [
  at_key "collected_at" dec_time fst (λ x p, (x, p.2)); at_key "status" dec_string snd (λ x p, (p.1, x))].

Definition checkHardware : Exec unit :=
  let stale := Plain "hardware report is stale or unobserved; collect current target evidence" in
  trusted ← ask (HTrusted (po_HardwarePath policy) false);
  match trusted with
  | Missing | Untrusted => fault (Plain "root-owned hardware report is unavailable")
  | Trusted =>
    f ← ask (HDecode (po_HardwarePath policy));
    match f with
    | None => fault (Plain "open")
    | Some doc =>
      match v ← doc; dec_report v (zeroTime, "") with
      | None => fault (Plain "hardware report is malformed")
      | Some (collected, status) =>
        refuse status <>s "observed" with stale ;;
        now ← ask HNow;
        refuse time_sub now collected >? 24 * Hour with stale ;;
        now ← ask HNow;
        refuse time_sub collected now >? Minute with stale ;;
        boot ← ask (HRead hardware_boot);
        match boot with
        | None => fault (Plain "hardware boot identity unavailable")
        | Some boot =>
          now ← ask (HRead boot_id_path);
          refuse match now with None => true | Some now => TrimSpace boot <>s TrimSpace now end
            with Plain "hardware boot identity is stale" ;;
          mret tt
        end
      end
    end
  end.

Definition capacity (candidate : JSON) : Exec unit :=
  hardware ← ask (HRead (po_HardwarePath policy));
  match hardware with
  | None => fault (Plain "current hardware topology unavailable")
  | Some b =>
    match any_object b with
    | None => fault (Plain "invalid hardware topology")
    | Some raw =>
      _ ← of_result (capacity_cores (SanitizeHardware raw "") candidate);
      node ← kube "" ["get"; "node"; po_Target policy; "-o"; "json"];
      pods ← kube "" ["get"; "pods"; "-A"; "-o"; "json"];
      rs ← kube "" ["-n"; po_Namespace policy; "get"; "replicasets"; "-o"; "json"];
      of_result (capacity_fits policy candidate node pods rs)
    end
  end.

(** ** The diagnostics *)

Definition collect (args : list string) : Exec unit :=
  _ ← runFixed workstationctl (["--config"; po_WorkstationConfig policy] ++ args) environment true "" (64 * 2^10); mret tt.
Definition made (r : result unit) : Exec unit := of_result r.
(** What the build worker is shown of the report, in key order. *)
Definition reduced_keys : list string :=
  ["architecture"; "collected_at"; "cpu_topology"; "expected"; "gpu_target"; "hardware_workloads_validated"; "memory"; "os"; "pci_gpus"; "reason"; "rocm_agents"; "schema"; "status"].
Definition export_evidence (raw : JSON) (boot : string) : Exec unit :=
  let dir := po_WorkerEvidenceDir policy in
  if dir =s "" then mret tt else
  r ← ask (HMakeDir dir 493); _ ← made r;
  trusted ← ask (HTrusted dir true);
  refuse match trusted with Trusted => false | _ => true end with Plain "untrusted" ;;
  r ← ask (HPublish (path_join dir "hardware.json") (json_text (JObject ((λ k, (k, get k raw)) <$> reduced_keys))) 420); _ ← made r;
  r ← ask (HPublish (path_join dir "boot-id.txt") boot 420); made r.
Definition refreshHardware (id : string) : Exec string :=
  refuse po_HardwarePath policy <>s path_join (path_join (po_StateDir policy) "hardware") "hardware.json"
    with Plain "hardware publication must use the root policy's managed hardware path" ;;
  let output := path_join (path_join (po_StateDir policy) "evidence") id in
  r ← ask (HMakeDir (path_dir output) 448); _ ← made r;
  _ ← collect ["hardware"; "collect"; output];
  b ← ask (HRead (path_join output "hardware.json"));
  match b with
  | None => fault (Plain "hardware collection did not produce bounded evidence")
  | Some b =>
    refuse str_len b >? 4 * 2^20 with Plain "hardware collection did not produce bounded evidence" ;;
    boot ← ask (HRead (path_join output "boot-id.txt"));
    match boot with
    | None => fault (Plain "hardware collection did not record boot identity")
    | Some boot =>
      refuse str_len boot >? 128 with Plain "hardware collection did not record boot identity" ;;
      match any_object b with
      | None => fault (Plain "hardware collection evidence is invalid")
      | Some raw =>
        r ← ask (HMakeDir (path_dir (po_HardwarePath policy)) 448); _ ← made r;
        r ← ask (HPublish (po_HardwarePath policy) (json_text raw) 384); _ ← made r;
        r ← ask (HPublish hardware_boot boot 384); _ ← made r;
        _ ← export_evidence raw boot;
        mret (json_text (Hardware_json (SanitizeHardware raw (TrimSpace boot))))
      end
    end
  end.

Definition valid_json (s : string) : bool := match json_docs s with Some [_] => true | _ => false end.
Definition planner_file (output name : string) : Exec string :=
  b ← ask (HRead (path_join output name));
  match b with
  | Some b => if (str_len b >? 2^20) || negb (valid_json b) then fault (Plain "resource planner did not produce bounded valid output") else mret b
  | None => fault (Plain "resource planner did not produce bounded valid output")
  end.
(** Raw texts under their keys: what [json.Marshal] writes, compacted. *)
Definition raw_object (l : list (string * string)) : string := json_text (JObject (prod_map id (λ b, default JNull (unmarshal b)) <$> l)).
Definition exportCPUPolicy (id : string) : Exec string :=
  let output := path_join (path_join (po_StateDir policy) "evidence") (id +:+ "-cpu-policy") in
  r ← ask (HMakeDir (path_dir output) 448); _ ← made r;
  _ ← collect ["resources"; "plan"; po_HardwarePath policy; output; path_join (po_RuntimeRoot policy) "versions.lock"];
  plan ← planner_file output "resource-plan.json";
  vars ← planner_file output "ansible-vars.json";
  mret (raw_object [("ansible-vars.json", vars); ("resource-plan.json", plan)]).

End Runtime.
