(* ===== verification/Inventory.v ===== *)
(** The helper's inventory ([internal/hostexec/inventory.go], [Snapshot]): the hardware report,
    the saved session, the kubelet's CPU policy and what the cluster shows of the node and
    its other consumers. *)
From S2P Require Import Prelude Interact Json Tree Types Domain Wire Evidence HostPolicy HostExec Kube Runtime.
#[local] Open Scope Z_scope.

(** ** Assignments to the hardware *)

Definition set_hw_CurrentBootID x '(mkHardware a b c _ e f g h i j k l m n o p q r s t u) := mkHardware a b c x e f g h i j k l m n o p q r s t u.
Definition set_hw_Stale w '(mkHardware _ b c d e f g h i j k l m n o p q r s t u) :=
  mkHardware "stale-or-unknown" b c d e f g h i j k l m n o p q r s t (u ++ [w]).
Definition set_hw_CPUManagerPolicy x '(mkHardware a b c d e f g h i j k _ m n o p q r s t u) := mkHardware a b c d e f g h i j k x m n o p q r s t u.
Definition set_hw_FullPCPUsOnly x '(mkHardware a b c d e f g h i j k l _ n o p q r s t u) := mkHardware a b c d e f g h i j k l x n o p q r s t u.
Definition set_hw_Other memory cpu gpus '(mkHardware a b c d e f g h i j k l m n o _ q _ _ t u) := mkHardware a b c d e f g h i j k l m n o memory q cpu gpus t u.
Definition set_hw_Reserves host kube cpu '(mkHardware a b c d e f g h i j k l m _ _ p _ r s t u) := mkHardware a b c d e f g h i j k l m host kube p cpu r s t u.

Section Inventory.
Context `{Sha256} `{TemplateHash} `{JSONText} `{JSONRender} `{AnyText} `{FloatText} `{RFC3339} `{TimeText} (policy : Policy).

(** ** The files of the host *)

Definition quoted (s : string) : string := String "034"%char (s +:+ String "034"%char "").
Definition line : string := String newline "".
Definition cpu_config_path : string := "/var/lib/rancher/k3s/agent/etc/kubelet.conf.d/90-workstation-cpu.conf".
Definition full_pcpus (s : string) : bool :=
  contains s (line +:+ "  full-pcpus-only: " +:+ quoted "true" +:+ line)
  && contains s (line +:+ "  strict-cpu-reservation: " +:+ quoted "true" +:+ line)
  && contains s "topologyManagerPolicy: restricted" && contains s "topologyManagerScope: pod".
Definition dec_session : decoder (string * string) := dec_lenient [
  at_key "mode" dec_string fst (λ x p, (x, p.2)); at_key "phase" dec_string snd (λ x p, (p.1, x))].
Definition dec_manager : decoder string := dec_lenient [at_key "policyName" dec_string id (λ x _, x)].
(** [json.Unmarshal] of what was read, nothing on a failed read. *)
Definition decoded {A} (d : decoder A) (zero : A) (b : option string) : option A := b ← b; v ← unmarshal b; d v zero.

Definition host_hardware : Exec Hardware :=
  b ← ask (HRead (po_HardwarePath policy));
  h ← (match (b ← b; if str_len b <=? 4 * 2^20 then any_object b else None) with
       | Some raw => boot ← ask (HRead (hardware_boot policy)); mret (SanitizeHardware raw (TrimSpace (default "" boot)))
       | None => mret Hardware0
       end);
  current ← ask (HRead boot_id_path);
  let h := set_hw_CurrentBootID (TrimSpace (default "" current)) h in
  checked ← attempt (checkHardware policy);
  mret (match checked with Ok _ => h | Err e => set_hw_Stale (error_text e) h end).
Definition session_profile : Exec string :=
  state ← ask (HRead (session_state policy));
  mret (match decoded dec_session ("", "") state with
        | Some (mode, phase) => if phase <>s "ready" then "recovery-required" else mode
        | None => "unknown"
        end).
Definition cpu_policy (h : Hardware) : Exec Hardware :=
  manager ← ask (HRead "/var/lib/kubelet/cpu_manager_state");
  let h := match decoded dec_manager "" manager with Some name => set_hw_CPUManagerPolicy name h | None => h end in
  t ← ask (HTrusted cpu_config_path false);
  if is_trusted t then b ← ask (HRead cpu_config_path); mret (set_hw_FullPCPUsOnly (full_pcpus (default "" b)) h)
  else mret h.

(** ** The cluster *)

Definition node_ready (node : JSON) : bool :=
  existsb (λ m, (str (get "type" m) =s "Ready") && (str (get "status" m) =s "True")) (list_of (Nested node ["status"; "conditions"])).
(** The loop over the Pods: the hardware with the other consumers, and the refusal that ends it. *)
Fixpoint consumers (managed : list string) (pods : list JSON) (h : Hardware) : Hardware * option error :=
  match pods with
  | [] => (h, None)
  | pod :: pods =>
    if pod_ended pod || owned_by managed pod then consumers managed pods h else
    match podBudget pod with
    | Err e => (h, Some e)
    | Ok (cpu, memory, gpu) =>
      let gpus := if gpu >? 0 then add64 (hw_OtherGPUs h) gpu else hw_OtherGPUs h in
      let here := str (Nested pod ["spec"; "nodeName"]) =s po_Target policy in
      consumers managed pods (set_hw_Other
        (if here then add64 (hw_OtherMemoryMiB h) (Z.quot (sub64 (add64 memory (2^20)) 1) (2^20)) else hw_OtherMemoryMiB h)
        (if here then add64 (hw_OtherCPU h) (Z.quot (add64 cpu 999) 1000) else hw_OtherCPU h) gpus h)
    end
  end.

Definition inventory_of (available : bool) (message profile : string) (serving : ServingStatus) (h : Hardware) : Inventory :=
  mkInventory "live" (po_Target policy) (po_Environment policy) "" available message profile serving h [] [] [] [].
Definition unavailable : string := "Kubernetes evidence unavailable".
(** What is left of the node for the managed workloads. *)
Definition node_capacity (node : JSON) (profile : string) (serving : ServingStatus) (h : Hardware) : Inventory :=
  match quantity (Nested node ["status"; "allocatable"; "cpu"]) true, quantity (Nested node ["status"; "allocatable"; "memory"]) false with
  | Ok cpu, Ok memory =>
    let h := set_hw_Reserves 0 (sub64 (hw_MemoryMiB h) (Z.quot memory (2^20))) (sub64 (hw_CPUThreads h) (Z.quot cpu 1000)) h in
    if (hw_ReservedCPU h <? 0) || (hw_KubeReserveMiB h <? 0)
    then inventory_of false "Node allocatable capacity exceeds observed host inventory" profile serving h
    else inventory_of true "Explicit dedicated identity read current node, all Pods and managed ReplicaSet ownership; mutation RBAC remains checked on apply" profile serving h
  | _, _ => inventory_of false unavailable profile serving h
  end.

Definition Snapshot : Exec Inventory :=
  now ← ask HNow;
  let serving := mkServingStatus "unknown" None "unknown" "Current scoped Pod/process evidence unavailable; retained reports are not current readiness." now "" in
  verified ← ask HVerify; _ ← of_result verified;
  h ← host_hardware;
  profile ← session_profile;
  h ← cpu_policy h;
  node ← attempt (kube policy "" ["get"; "node"; po_Target policy; "-o"; "json"]);
  match node with
  | Err _ => mret (inventory_of false unavailable profile serving h)
  | Ok node =>
    if negb (node_ready node) || (str (Nested node ["status"; "nodeInfo"; "bootID"]) <>s hw_CurrentBootID h)
    then mret (inventory_of false "Node is not Ready or its boot identity differs from this workstation" profile serving h)
    else
      pods ← attempt (kube policy "" ["get"; "pods"; "-A"; "-o"; "json"]);
      match pods with
      | Err _ => mret (inventory_of false unavailable profile serving h)
      | Ok pods =>
        rs ← attempt (kube policy "" ["-n"; po_Namespace policy; "get"; "replicasets"; "-o"; "json"]);
        match rs with
        | Err _ => mret (inventory_of false unavailable profile serving h)
        | Ok rs =>
          now ← ask HNow;
          let serving := observedServingStatus now pods (managed_replicas [po_AIDeploymentUID policy] rs) (po_Target policy) (po_Namespace policy) profile in
          mret (match consumers (managed_replicas [po_AIDeploymentUID policy; po_GameDeploymentUID policy] rs) (list_of (get "items" pods)) h with
                | (h, Some e) => inventory_of false (error_text e) profile serving h
                | (h, None) => node_capacity node profile serving h
                end)
        end
      end
  end.
End Inventory.
