(* ===== verification/Runs.v ===== *)
(** What a run of the helper did: the histories of its computations, computations that only
    look, and what a passed check saw. *)
From S2P Require Import Prelude Interact Json Tree Types Domain Safefile Store Source Wire Evidence HostPolicy HostExec Kube Consumers Runtime Inventory.
#[local] Open Scope Z_scope.

Abbreviation host_event := {e : HostAct & host_answer e}.

(** ** Kinds of interactions *)

(** Commands that change a workload: a session switch and a replacement. *)
Definition is_session (args : list string) : bool :=
  match args with a :: rest => (a =s "--config") && match rest with _ :: s :: _ => s =s "session" | _ => false end | _ => false end.
Definition is_replace (args : list string) : bool :=
  match args with
  | k :: rest => (k =s "--kubeconfig") && match rest with _ :: _ :: _ :: _ :: n :: _ :: r :: _ => (n =s "-n") && (r =s "replace") | _ => false end
  | _ => false
  end.
Definition changes (e : HostAct) : bool := match e with HExec _ args _ _ _ => is_session args || is_replace args | _ => false end.
(** Interactions that only read: files, clocks, queries of the cluster and the inspector. *)
Definition is_query (args : list string) : bool :=
  match args with
  | k :: rest =>
    (k =s "--kubeconfig") && match rest with
    | _ :: _ :: _ :: _ :: a :: rest => (a =s "get") || ((a =s "-n") && match rest with _ :: g :: _ => g =s "get" | _ => false end)
    | _ => false
    end
  | _ => false
  end.
Definition is_inspect (args : list string) : bool :=
  match args with a :: b :: _ => (a =s "performance") && (b =s "inspect") | _ => false end.
Definition reading (e : HostAct) : bool :=
  match e with
  | HExec _ args _ _ _ => is_query args || is_inspect args
  | HMakeDir _ _ | HPublish _ _ _ | HRemove _ | HSyncDir _ | HMkdir _ _ | HCopyMemory _ _ _ | HSyncOutput _ | HCopyPerformance _ _ _ => false
  | _ => true
  end.
Definition writing (e : HostAct) : bool := negb (reading e).
Lemma changes_writing e : changes e = true → writing e = true.
Proof.
  unfold changes, writing. destruct e; try done. intros Hc. apply negb_true_iff. cbn [reading]. unfold is_session, is_replace, is_query, is_inspect in *.
  destruct args as [|k rest]; [done|]. destruct (String.eqb_spec k "--config") as [->|]; [by destruct rest|].
  cbn [andb orb] in Hc. apply andb_true_iff in Hc as [->%String.eqb_eq Hc].
  destruct rest as [|b0 [|b1 [|b2 [|b3 [|b4 [|b5 [|b6 b7]]]]]]]; try done. bool_hyps. by subst.
Qed.

(** ** Runs of a computation *)

Definition runs {A} (m : Exec A) (s : bool) (h : list host_event) (s' : bool) (r : result A) : Prop := leaf (m s) h (s', r).

Lemma runs_bind {A B} (m : Exec A) (f : A → Exec B) s h s' r :
  runs (m ≫= f) s h s' r ↔
  (∃ e, r = Err e ∧ runs m s h s' (Err e)) ∨ ∃ h1 s1 a h2, h = h1 ++ h2 ∧ runs m s h1 s1 (Ok a) ∧ runs (f a) s1 h2 s' r.
Proof.
  unfold runs. change ((m ≫= f) s) with (m s ≫= (λ sr : bool * result A, match sr.2 with Ok a => f a sr.1 | Err e => Ret (sr.1, Err e) end)).
  rewrite leaf_bind. split.
  - intros (h1 & [s1 [a|e]] & h2 & -> & Hm & Hf); cbn in Hf; [right; by exists h1, s1, a, h2|].
    destruct Hf as [-> [= -> ->]]. left. exists e. by rewrite app_nil_r.
  - intros [(e & -> & Hm)|(h1 & s1 & a & h2 & -> & Hm & Hf)].
    + exists h, (s', Err e), []. rewrite app_nil_r. done.
    + by exists h1, (s1, Ok a), h2.
Qed.
Lemma runs_ret {A} (a : A) s h s' r : runs (mret a) s h s' r ↔ h = [] ∧ s' = s ∧ r = Ok a.
Proof. unfold runs. cbn. split; [by intros [-> [= -> ->]]|by intros (-> & -> & ->)]. Qed.
Lemma runs_of {A} (a : result A) s h s' r : runs (of_result a) s h s' r ↔ h = [] ∧ s' = s ∧ r = a.
Proof. unfold runs. cbn. split; [by intros [-> [= -> ->]]|by intros (-> & -> & ->)]. Qed.
Lemma runs_fault {A} e s h s' (r : result A) : runs (fault e) s h s' r ↔ h = [] ∧ s' = s ∧ r = Err e.
Proof. exact (runs_of (Err e) s h s' r). Qed.
Lemma runs_ask e s h s' r : runs (ask e) s h s' r ↔ ∃ v, h = [ev e v] ∧ s' = s ∧ r = Ok v.
Proof.
  unfold runs. cbn. split; [by intros (v & ? & -> & -> & [= -> ->]); exists v|]. intros (v & -> & -> & ->). by exists v, [].
Qed.
Lemma runs_attempt {A} (m : Exec A) s h s' r : runs (attempt m) s h s' r ↔ ∃ r0, r = Ok r0 ∧ runs m s h s' r0.
Proof.
  unfold runs. change (attempt m s) with (m s ≫= (λ sr : bool * result A, Ret (sr.1, Ok sr.2) : Run host_answer (bool * result (result A)))).
  rewrite leaf_bind. split.
  - intros (h1 & [s1 r1] & h2 & -> & Hm & -> & [= -> ->]). exists r1. by rewrite app_nil_r.
  - intros (r0 & -> & Hm). exists h, (s', r0), []. by rewrite app_nil_r.
Qed.

(** ** Computations that avoid a kind of interaction *)

Definition quiet (P : HostAct → bool) {A} (m : Exec A) : Prop :=
  ∀ s h s' r, runs m s h s' r → s' = s ∧ Forall (λ i, P (projT1 i) = false) h.
Abbreviation looks m := (quiet changes m).
Abbreviation reads m := (quiet writing m).

Section Quiet.
Context (P : HostAct → bool).
Lemma quiet_bind {A B} (m : Exec A) (f : A → Exec B) : quiet P m → (∀ a, quiet P (f a)) → quiet P (m ≫= f).
Proof.
  intros Hm Hf s h s' r [(e & _ & Hr)|(h1 & s1 & a & h2 & -> & H1 & H2)]%runs_bind; [by apply (Hm _ _ _ _ Hr)|].
  apply Hm in H1 as [-> H1]. apply Hf in H2 as [-> H2]. split; [done|]. by apply Forall_app.
Qed.
(** The same when the continuation is only needed for values the first part answers. *)
Lemma quiet_then {A B} (m : Exec A) (f : A → Exec B) :
  quiet P m → (∀ s h s' a, runs m s h s' (Ok a) → quiet P (f a)) → quiet P (m ≫= f).
Proof.
  intros Hm Hf s h s' r [(e & _ & Hr)|(h1 & s1 & a & h2 & -> & H1 & H2)]%runs_bind; [by apply (Hm _ _ _ _ Hr)|].
  pose proof (Hf _ _ _ _ H1) as Ha. apply Hm in H1 as [-> H1]. apply Ha in H2 as [-> H2]. split; [done|]. by apply Forall_app.
Qed.
Lemma quiet_of {A} (r : result A) : quiet P (of_result r).
Proof. intros s h s' r' (-> & -> & _)%runs_of. split; [done|constructor]. Qed.
Lemma quiet_ask e : P e = false → quiet P (ask e).
Proof. intros He s h s' r (v & -> & -> & _)%runs_ask. split; [done|]. by repeat constructor. Qed.
Lemma quiet_attempt {A} (m : Exec A) : quiet P m → quiet P (attempt m).
Proof. intros Hm s h s' r (r0 & _ & Hr)%runs_attempt. by apply Hm in Hr. Qed.
Lemma quiet_weaken (Q : HostAct → bool) {A} (m : Exec A) : (∀ e, P e = true → Q e = true) → quiet Q m → quiet P m.
Proof.
  intros HPQ Hm s h s' r [-> Hh]%Hm. split; [done|]. eapply Forall_impl; [exact Hh|]. cbn. intros i Hq.
  destruct (P (projT1 i)) eqn:E; [|done]. apply HPQ in E. congruence.
Qed.
End Quiet.
Lemma reads_looks {A} (m : Exec A) : reads m → looks m.
Proof. apply quiet_weaken, changes_writing. Qed.

Create HintDb effects discriminated.
#[export] Hint Resolve reads_looks : effects.

(** Structural part of a proof that a computation avoids a kind of interaction. *)
Ltac quiet :=
  repeat first
    [ done
    | assumption
    | progress cbn beta iota zeta
    | match goal with
      | |- ∀ _, _ => intro
      | |- quiet _ (mbind _ _) => apply quiet_bind
      | |- quiet ?P (mret ?a) => apply (quiet_of P (Ok a))
      | |- quiet ?P (fault ?e) => apply (quiet_of P (Err e))
      | |- quiet _ (of_result _) => apply quiet_of
      | |- quiet _ (made _) => apply quiet_of
      | |- quiet _ (attempt _) => apply quiet_attempt
      | |- quiet ?P (ask ?e) => apply (quiet_ask P e)
      | |- quiet _ (match ?c with _ => _ end) => destruct c
      end
    | solve [eauto with effects] ].

Lemma quiet_each P {A} (f : A → Exec unit) l : (∀ a, quiet P (f a)) → quiet P (each f l).
Proof. intros Hf. induction l as [|a l IH]; cbn [each]; quiet. Qed.

(** ** What precedes an interaction *)

(** After the history [h0], each interaction of kind [P] that [m] starts is justified by what
    was seen before it. *)
Definition preceded (P : HostAct → bool) (J : HostAct → list host_event → Prop) {A} (h0 : list host_event) (m : Exec A) : Prop :=
  ∀ s h s' r, runs m s h s' r → ∀ h1 i h2, h = h1 ++ i :: h2 → P (projT1 i) = true → J (projT1 i) (h0 ++ h1).

Lemma after_quiet P J {A} h0 (m : Exec A) : quiet P m → preceded P J h0 m.
Proof.
  intros Hm s h s' r [_ Hu]%Hm h1 i h2 -> Hi. apply Forall_app in Hu as [_ Hu]. apply Forall_cons in Hu as [Hu _]. congruence.
Qed.
Lemma after_bind P J {A B} h0 (m : Exec A) (f : A → Exec B) :
  preceded P J h0 m → (∀ s h1 s1 a, runs m s h1 s1 (Ok a) → preceded P J (h0 ++ h1) (f a)) → preceded P J h0 (m ≫= f).
Proof.
  intros Hm Hf s h s' r Hr h1 i h2 Heq Hi. apply runs_bind in Hr as [(e & _ & Hr)|(ha & s1 & a & hb & -> & Ha & Hb)].
  { by apply (Hm _ _ _ _ Hr h1 i h2). }
  apply app_eq_inv in Heq as [(k & -> & Hk)|(k & -> & ->)].
  - destruct k as [|j k]; cbn in Hk; [subst hb|injection Hk as <- ->].
    + rewrite app_nil_r in Ha. pose proof (Hf _ _ _ _ Ha _ _ _ _ Hb [] i h2 eq_refl Hi) as HJ. by rewrite app_nil_r in HJ.
    + by apply (Hm _ _ _ _ Ha h1 i k).
  - rewrite app_assoc. by apply (Hf _ _ _ _ Ha _ _ _ _ Hb k i h2).
Qed.
(** A check in front: what it saw joins the history. *)
Lemma after_check P J {A B} h0 (m : Exec A) (f : A → Exec B) :
  quiet P m → (∀ s h1 a, runs m s h1 s (Ok a) → preceded P J (h0 ++ h1) (f a)) → preceded P J h0 (m ≫= f).
Proof.
  intros Hm Hf. apply after_bind; [by apply after_quiet|]. intros s h1 s1 a Hr. pose proof (Hm _ _ _ _ Hr) as [-> _]. by apply (Hf s).
Qed.

(** Read the parts of a successful run off its history. *)
Ltac peel H :=
  repeat (cbn beta iota zeta in H;
    lazymatch type of H with
    | runs (mbind _ _) _ _ _ (Ok _) =>
      let Hp := fresh "Hp" in
      apply runs_bind in H; destruct H as [(? & [=] & _)|(? & ? & ? & ? & -> & Hp & H)]; peel Hp
    | runs (ask _) _ _ _ _ => apply runs_ask in H; destruct H as (? & -> & -> & [= <-])
    | runs (fault _) _ _ _ _ => apply runs_fault in H; destruct H as (_ & _ & [=])
    | runs (mret _) _ _ _ _ => apply runs_ret in H; destruct H as (-> & -> & [= ->])
    | runs (of_result _) _ _ _ _ => apply runs_of in H; destruct H as (-> & -> & H)
    | runs (attempt _) _ _ _ _ => apply runs_attempt in H; destruct H as (? & [= <-] & H)
    | runs (if ?c then _ else _) _ _ _ _ => destruct c eqn:?
    | runs (match ?c with _ => _ end) _ _ _ _ => destruct c eqn:?
    end).

Section Checks.
Context `{Sha256} `{TemplateHash} `{JSONText} `{JSONRender} `{AnyText} `{FloatText} `{RFC3339} `{TimeText} (policy : Policy).
#[local] Abbreviation kube := (kube policy).
#[local] Abbreviation qualifySession := (qualifySession policy).
#[local] Abbreviation revalidate := (revalidate policy).
#[local] Abbreviation get_deployment := (get_deployment policy).

(** ** The checks only read *)

Lemma quiet_run P path args env lock input limit : P (HExec path args env lock input) = false → quiet P (runFixed path args env lock input limit).
Proof. intros Hp. unfold runFixed. apply quiet_bind; [by apply (quiet_ask P (HExec path args env lock input))|]. quiet. Qed.
Lemma quiet_kube P input args : P (HExec (po_Kubectl policy) (kube_args policy args) (environment policy) false input) = false → quiet P (kube input args).
Proof. intros Hp. unfold Runtime.kube. apply quiet_bind; [by apply quiet_run|]. quiet. Qed.
Lemma reads_get kind name : reads (kube "" (get_object policy kind name)).
Proof. by apply quiet_kube. Qed.
Lemma reads_deployment name : reads (get_deployment name).
Proof. apply reads_get. Qed.
#[local] Hint Resolve reads_get reads_deployment : effects.
Lemma reads_config hashes name : reads (checkConfigMap policy hashes name).
Proof. unfold checkConfigMap. quiet. Qed.
Lemma reads_pick profile target keys : reads (pick_qualification policy profile target keys).
Proof.
  induction keys as [|key keys IH]; cbn [pick_qualification]; quiet.
  unfold checkConfigMaps. quiet. apply quiet_each, reads_config.
Qed.
Lemma reads_qualify profile ai game : reads (qualifySession profile ai game).
Proof. unfold Runtime.qualifySession. quiet. apply reads_pick. Qed.
Lemma reads_revalidate r : reads (revalidate r).
Proof. unfold Runtime.revalidate. quiet. Qed.
Lemma reads_model c : reads (verifyModel policy c).
Proof. unfold verifyModel. quiet. Qed.
Lemma reads_hardware : reads (checkHardware policy).
Proof. unfold checkHardware. quiet. Qed.
Lemma reads_desired profile : reads (desired_profile policy profile).
Proof. unfold desired_profile. quiet. Qed.
Lemma reads_capacity candidate : reads (capacity policy candidate).
Proof. unfold capacity. quiet; by apply quiet_kube. Qed.
#[local] Hint Resolve reads_hardware : effects.
Lemma reads_snapshot : reads (Snapshot policy).
Proof. unfold Snapshot, host_hardware, session_profile, cpu_policy. quiet; by apply quiet_kube. Qed.

(** ** What a passed check saw *)

(** A document the cluster answered. *)
Definition observed (h : list host_event) (args : list string) (d : JSON) : Prop :=
  ∃ out, ev (HExec (po_Kubectl policy) (kube_args policy args) (environment policy) false "") (RunExited true out) ∈ h ∧ any_object out = Some d.
(** A Pod template under an unexpired qualification, with the ConfigMaps it names. *)
Definition qualified (profile : string) (target : JSON) (h : list host_event) : Prop :=
  ∃ key q now, po_SessionQualifications policy !! key = Some q ∧ (key = profile ∨ has_prefix key (profile +:+ "/") = true) ∧
    ev HNow now ∈ h ∧ Prelude.after (sq_ExpiresAt q) now = true ∧ sq_TemplateHash q = sha256_hex (template_of target) ∧
    ∀ name, name ∈ references target → ∃ m, observed h (get_object policy "configmap" name) m ∧
      sq_ConfigMaps q !! name = Some (sha256_hex (JObject [("binaryData", get "binaryData" m); ("data", get "data" m)])).
(** A current root-owned hardware report. *)
Definition hardware_current (h : list host_event) : Prop :=
  ev (HTrusted (po_HardwarePath policy) false) Trusted ∈ h ∧
  (∃ doc collected now, ev (HDecode (po_HardwarePath policy)) (Some (Some doc)) ∈ h ∧ dec_report doc (zeroTime, "") = Some (collected, "observed") ∧
     ev HNow now ∈ h ∧ time_sub now collected ≤ 24 * Hour) ∧
  ∃ boot now, ev (HRead (hardware_boot policy)) (Some boot) ∈ h ∧ ev (HRead boot_id_path) (Some now) ∈ h ∧ TrimSpace boot = TrimSpace now.
(** A walk that met every reviewed file with its digest, and nothing else but directories and
    the stager's receipt. *)
Definition reviewed (files : gmap string string) (d : ModelEntry) : Prop :=
  me_Kind d = KRegular ∧ ∃ digest, me_SHA256 d = Some digest ∧ files !! me_Name d = Some digest.
Definition complete_model (files : gmap string string) (entries : list (option ModelEntry)) : Prop :=
  (∀ e, e ∈ entries → ∃ d, e = Some d ∧ (me_Kind d = KDir ∨ (me_Kind d = KRegular ∧ me_Name d = ".bridge-receipt.json") ∨ reviewed files d)) ∧
  ∀ name, is_Some (files !! name) → ∃ d, Some d ∈ entries ∧ me_Name d = name ∧ reviewed files d.
Lemma walk_model_spec files l : ∀ seen seen', walk_model files l seen = Ok seen' →
  (∀ e, e ∈ l → ∃ d, e = Some d ∧ (me_Kind d = KDir ∨ (me_Kind d = KRegular ∧ me_Name d = ".bridge-receipt.json") ∨ reviewed files d)) ∧
  ∀ name, name ∈ seen' → name ∈ seen ∨ ∃ d, Some d ∈ l ∧ me_Name d = name ∧ reviewed files d.
Proof.
  induction l as [|[d|] l IH]; intros seen seen'; cbn [walk_model]; [|destruct (me_Kind d) eqn:Hk|]; try done.
  - intros [= ->]. split; [intros e He; by apply elem_of_nil in He|by left].
  - intros Hw. destruct (IH _ _ Hw) as [He Hn]. split.
    + intros e [->|?]%elem_of_cons; [exists d|]; auto.
    + intros name Hi. destruct (Hn _ Hi) as [|(x & ? & ?)]; [by left|right; exists x]. rewrite elem_of_cons. auto.
  - destruct (String.eqb_spec (me_Name d) ".bridge-receipt.json") as [Hr|Hr].
    { intros Hw. destruct (IH _ _ Hw) as [He Hn]. split.
      + intros e [->|?]%elem_of_cons; [exists d|]; auto.
      + intros name Hi. destruct (Hn _ Hi) as [|(x & ? & ?)]; [by left|right; exists x]. rewrite elem_of_cons. auto. }
    destruct (files !! me_Name d) as [want|] eqn:Hf; [|done]. destruct (negb _); [done|]. destruct (me_SHA256 d) as [got|] eqn:Hg; [|done].
    destruct (String.eqb_spec got want) as [->|]; [|done]. cbn. intros Hw. destruct (IH _ _ Hw) as [He Hn].
    assert (reviewed files d) as Hd by (split; [done|by exists want]). split.
    + intros e [->|?]%elem_of_cons; [exists d|]; auto.
    + intros name Hi. destruct (Hn _ Hi) as [[->%elem_of_singleton|?]%elem_of_union|(x & ? & ?)]; [right; exists d|by left|right; exists x]; rewrite elem_of_cons; auto.
Qed.
Lemma walk_complete files l seen : walk_model files l ∅ = Ok seen → size seen = size files → complete_model files l.
Proof.
  intros Hw Hs. destruct (walk_model_spec _ _ _ _ Hw) as [He Hn]. split; [done|]. intros name Hf.
  assert (seen = dom files) as Hd.
  { apply set_subseteq_size_eq; [|rewrite Hs, size_dom; lia]. intros name0 Hi. apply elem_of_dom.
    destruct (Hn _ Hi) as [?|(d & _ & <- & _ & digest & _ & ->)]; [set_solver|done]. }
  assert (name ∈ seen) as Hi by (rewrite Hd; by apply elem_of_dom). destruct (Hn _ Hi) as [?|?]; [set_solver|done].
Qed.
Definition model_verified (c : Configuration) (h : list host_event) : Prop :=
  ∃ q now rel t, po_QualifiedConfigurations policy !! ConfigurationHash (cf_Serving c) (cf_Resources c) = Some q ∧
    ev HNow now ∈ h ∧ Prelude.after (qf_ExpiresAt q) now = true ∧ path_below (po_ModelRoot policy) (qf_HostModelPath q) = Some rel ∧
    ev (HModelTree rel) t ∈ h ∧ complete_model (qf_Files q) (mt_Entries t).
Lemma run_ok path args env lock input limit s h s' out :
  runs (runFixed path args env lock input limit) s h s' (Ok out) → h = [ev (HExec path args env lock input) (RunExited true out)].
Proof.
  unfold runFixed. intros [(e & [=] & _)|(h1 & s1 & o & h2 & -> & (v & -> & -> & [= ->])%runs_ask & (-> & -> & Ho)%runs_of)]%runs_bind.
  destruct v as [| |success text|]; try done. cbn in Ho. destruct success; [|done]. cbn in Ho. by destruct (str_len text <=? limit); [injection Ho as ->|].
Qed.
Lemma kube_ok args s h s' d : runs (kube "" args) s h s' (Ok d) → observed h args d.
Proof.
  unfold Runtime.kube. intros [(e & [=] & _)|(h1 & s1 & out & h2 & -> & ->%run_ok & Hd)]%runs_bind.
  exists out. destruct (any_object out) as [v|]; [|by apply runs_fault in Hd as (_ & _ & [=])].
  apply runs_ret in Hd as (-> & _ & [= ->]). split; [by left|done].
Qed.
Lemma valid_ok r s h s' a : runs (revalidate r) s h s' (Ok a) →
  ∃ now src records, ev HValidation (now, src, records) ∈ h ∧ validate policy now src records r = Ok tt.
Proof.
  unfold Runtime.revalidate. intros [(e & [=] & _)|(h1 & s1 & [[now src] records] & h2 & -> & (v & -> & _ & [= <-])%runs_ask & (-> & _ & Hv)%runs_of)]%runs_bind.
  destruct a. exists now, src, records. split; [by left|done].
Qed.

Lemma observed_mono h h' args d : h ⊆ h' → observed h args d → observed h' args d.
Proof. intros Hs (out & Hi & Ho). exists out. auto. Qed.
Lemma qualified_mono profile target h h' : h ⊆ h' → qualified profile target h → qualified profile target h'.
Proof.
  intros Hs (key & q & now & ? & ? & ? & ? & ? & Hm). exists key, q, now. split_and!; auto.
  intros name (m & ? & ?)%Hm. exists m. eauto using observed_mono.
Qed.
Lemma hardware_mono h h' : h ⊆ h' → hardware_current h → hardware_current h'.
Proof. intros Hs (? & (doc & t & now & ? & ? & ? & ?) & boot & now' & ? & ? & ?). split; [auto|]. split; [exists doc, t, now|exists boot, now']; auto. Qed.
Lemma model_mono c h h' : h ⊆ h' → model_verified c h → model_verified c h'.
Proof. intros Hs (q & now & rel & t & ? & ? & ? & ? & ? & ?). exists q, now, rel, t. split_and!; auto. Qed.
Lemma config_ok hashes name s h s' a : runs (checkConfigMap policy hashes name) s h s' (Ok a) →
  ∃ m, observed h (get_object policy "configmap" name) m ∧
    hashes !! name = Some (sha256_hex (JObject [("binaryData", get "binaryData" m); ("data", get "data" m)])).
Proof.
  unfold checkConfigMap. destruct (negb (str_len _ =? 64)) eqn:Hl; [by intros (_ & _ & [=])%runs_fault|].
  intros [(e & [=] & _)|(h1 & s1 & m & h2 & -> & Hm%kube_ok & Hr)]%runs_bind. cbn beta in Hr.
  match type of Hr with runs (if ?c then _ else _) _ _ _ _ => destruct c eqn:Hh end; [by apply runs_fault in Hr as (_ & _ & [=])|].
  apply runs_ret in Hr as (-> & _ & _). rewrite app_nil_r. exists m. split; [done|].
  apply negb_false_iff, String.eqb_eq in Hh. rewrite Hh. by destruct (hashes !! name).
Qed.
Lemma each_runs {A} (f : A → Exec unit) l : ∀ s h s' a, runs (each f l) s h s' (Ok a) → ∀ x, x ∈ l → ∃ s0 h0 s1, h0 ⊆ h ∧ runs (f x) s0 h0 s1 (Ok tt).
Proof.
  induction l as [|y l IH]; intros s h s' a Hr x Hx; [by apply elem_of_nil in Hx|]. cbn [each] in Hr.
  apply runs_bind in Hr as [(e & [=] & _)|(h1 & s1 & [] & h2 & -> & Hy & Hr)]. apply elem_of_cons in Hx as [->|Hx].
  - exists s, h1, s1. split; [set_solver|done].
  - destruct (IH _ _ _ _ Hr x Hx) as (s0 & h0 & s2 & ? & ?). exists s0, h0, s2. split; [set_solver|done].
Qed.
Lemma configs_ok target hashes s h s' a : runs (checkConfigMaps policy target hashes) s h s' (Ok a) →
  ∀ name, name ∈ references target → ∃ m, observed h (get_object policy "configmap" name) m ∧
    hashes !! name = Some (sha256_hex (JObject [("binaryData", get "binaryData" m); ("data", get "data" m)])).
Proof.
  unfold checkConfigMaps. intros [(e & [=] & _)|(h1 & s1 & [order Ho] & h2 & -> & _ & Hr)]%runs_bind name Hn. cbn in Hr.
  destruct (each_runs _ _ _ _ _ _ Hr name) as (s0 & h0 & s2 & Hs & (m & ? & ?)%config_ok).
  - rewrite Ho. by apply elem_of_elements.
  - exists m. split; [|done]. eapply observed_mono; [|done]. set_solver.
Qed.
Lemma pick_ok profile target keys : ∀ s h s' a, runs (pick_qualification policy profile target keys) s h s' (Ok a) → qualified profile target h.
Proof.
  induction keys as [|key keys IH]; intros s h s' a; cbn [pick_qualification]; [by intros (_ & _ & [=])%runs_fault|].
  destruct (po_SessionQualifications policy !! key) as [q|] eqn:Hq; [|apply IH].
  destruct (_ && _) eqn:Hk; [apply IH|].
  intros [(e & [=] & _)|(h1 & s1 & now & h2 & -> & (v & -> & _ & [= <-])%runs_ask & Hr)]%runs_bind. cbn beta in Hr.
  destruct (negb (Prelude.after (sq_ExpiresAt q) now) || _) eqn:He.
  - apply IH in Hr. eapply qualified_mono; [|exact Hr]. set_solver.
  - bool_hyps. exists key, q, now. split; [done|]. split.
    { apply andb_false_iff in Hk as [Hk|Hk]; bool_hyps; [left|right]; done. }
    split; [set_solver|]. split; [done|]. split; [done|]. intros name Hn. destruct (configs_ok _ _ _ _ _ _ Hr name Hn) as (m & ? & ?).
    exists m. split; [|done]. eapply observed_mono; [|done]. set_solver.
Qed.
Lemma qualify_ok profile ai game s h s' a : runs (qualifySession profile ai game) s h s' (Ok a) →
  qualified profile (if profile =s "gaming" then game else ai) h.
Proof.
  unfold Runtime.qualifySession. intros [(e & [=] & _)|(h1 & s1 & order & h2 & -> & _ & Hr%pick_ok)]%runs_bind.
  eapply qualified_mono; [|done]. set_solver.
Qed.
Lemma hardware_ok s h s' a : runs (checkHardware policy) s h s' (Ok a) → hardware_current h.
Proof.
  unfold checkHardware. intros Hr. peel Hr. subst.
  match goal with o : option JSON |- _ => destruct o as [doc|]; [|done] end. cbn in *. bool_hyps. subst.
  match goal with Hb : match ?x with Some _ => _ | None => true end = false |- _ => destruct x as [now|]; [|done] end. bool_hyps.
  split; [set_solver|]. split; [exists doc; eexists _, _; split; [set_solver|]; split; [eassumption|]; split; [|eassumption]; set_solver|].
  match goal with Hb : TrimSpace ?b = TrimSpace now |- _ => exists b, now end. split_and!; [set_solver..|done].
Qed.
Lemma model_ok c s h s' a : runs (verifyModel policy c) s h s' (Ok a) → model_verified c h.
Proof.
  unfold verifyModel. intros Hr. peel Hr. bool_hyps. eexists _, _, _, _.
  split; [eassumption|]. split; [|split; [eassumption|]]; [set_solver|]. split; [eassumption|].
  split; [|eapply walk_complete; [symmetry; eassumption|lia]]. set_solver.
Qed.

(** ** The inventory *)

(** What a Pod that is neither ended nor managed takes: whole MiB and whole threads, rounded up. *)
Definition pod_mib (pod : JSON) : Z := match podBudget pod with Ok (_, memory, _) => Z.quot (sub64 (add64 memory (2^20)) 1) (2^20) | Err _ => 0 end.
Definition pod_threads (pod : JSON) : Z := match podBudget pod with Ok (cpu, _, _) => Z.quot (add64 cpu 999) 1000 | Err _ => 0 end.
Definition total (f : JSON → Z) (pods : list JSON) (n : Z) : Z := fold_left (λ n pod, add64 n (f pod)) pods n.
Definition pod_gpus (pod : JSON) : Z := match podBudget pod with Ok (_, _, gpu) => Z.max 0 gpu | Err _ => 0 end.
Lemma consumers_status managed pods : ∀ h h' e, consumers policy managed pods h = (h', e) → hw_Status h' = hw_Status h.
Proof.
  induction pods as [|pod pods IH]; intros h h' e; cbn [consumers]; [by intros [= -> _]|].
  destruct (_ || _); [by apply IH|]. destruct (podBudget pod) as [[[cpu memory] gpu]|]; [|by intros [= -> _]].
  intros ->%IH. by destruct h.
Qed.
Lemma consumers_spec deployments rs pods : ∀ h h', consumers policy (managed_replicas deployments rs) pods h = (h', None) → in_int64 (hw_OtherGPUs h) →
  (∀ pod, pod ∈ filter (foreign deployments rs) pods → ∃ b, podBudget pod = Ok b) ∧
  hw_OtherMemoryMiB h' = total pod_mib (filter (foreign_on (po_Target policy) deployments rs) pods) (hw_OtherMemoryMiB h) ∧
  hw_OtherCPU h' = total pod_threads (filter (foreign_on (po_Target policy) deployments rs) pods) (hw_OtherCPU h) ∧
  hw_OtherGPUs h' = total pod_gpus (filter (foreign deployments rs) pods) (hw_OtherGPUs h) ∧
  hw_Status h' = hw_Status h ∧ hw_CurrentBootID h' = hw_CurrentBootID h.
Proof.
  induction pods as [|pod pods IH]; intros h h'; cbn [consumers].
  { intros [= ->] _. split; [by intros pod ?%elem_of_nil|done]. }
  rewrite !filter_cons. pose proof (foreign_spec deployments rs pod) as Hf. destruct (pod_ended pod || owned_by (managed_replicas deployments rs) pod) eqn:Hs; cbn [negb] in Hf.
  - rewrite (decide_False (P := foreign deployments rs pod)) by naive_solver. rewrite (decide_False (P := foreign_on (po_Target policy) deployments rs pod)) by (unfold foreign_on; naive_solver).
    apply IH.
  - rewrite (decide_True (P := foreign deployments rs pod)) by naive_solver. destruct (podBudget pod) as [[[cpu memory] gpu]|] eqn:Hp; [|done].
    set (h1 := set_hw_Other _ _ _ h). intros Hcon Hr.
    assert (hw_OtherGPUs h1 = add64 (hw_OtherGPUs h) (pod_gpus pod)) as Hg1.
    { unfold pod_gpus. rewrite Hp. subst h1. destruct h as []. cbn in *. destruct (Z.gtb_spec gpu 0).
      - by rewrite Z.max_r by lia.
      - rewrite Z.max_l, add64_id by (rewrite ?Z.add_0_r; done || lia). lia. }
    destruct (IH h1 h' Hcon) as (Hb & Hm & Hc & Hg & Hst & Hbt); [rewrite Hg1; apply wrap64_range|].
    split; [intros p [->|Hi]%elem_of_cons; [by exists (cpu, memory, gpu)|by apply Hb]|].
    rewrite Hm, Hc, Hst, Hbt, Hg, Hg1. subst h1. clear -Hp Hf. assert (foreign deployments rs pod) as Hfo by naive_solver. clear Hf. destruct h as []. cbn -[Nested].
    destruct (String.eqb_spec (str (Nested pod ["spec"; "nodeName"])) (po_Target policy)) as [He|He].
    + rewrite (decide_True (P := foreign_on (po_Target policy) deployments rs pod)) by (unfold foreign_on; done). unfold total, pod_mib, pod_threads. cbn [fold_left]. by rewrite Hp.
    + rewrite (decide_False (P := foreign_on (po_Target policy) deployments rs pod)) by (unfold foreign_on; naive_solver). done.
Qed.

Lemma hardware_report s h s' hw : runs (host_hardware policy) s h s' (Ok hw) →
  (hw_Status hw = "observed" → hardware_current h) ∧ hw_OtherMemoryMiB hw = 0 ∧ hw_OtherCPU hw = 0 ∧ hw_OtherGPUs hw = 0.
Proof.
  unfold host_hardware. intros Hr.
  apply runs_bind in Hr as [(e & [=] & _)|(h1 & s1 & raw & h2 & -> & _ & Hr)].
  apply runs_bind in Hr as [(e & [=] & _)|(h3 & s3 & h0 & h4 & -> & H0' & Hr)].
  assert (hw_OtherMemoryMiB h0 = 0 ∧ hw_OtherCPU h0 = 0 ∧ hw_OtherGPUs h0 = 0) as Hz.
  { destruct (x ← raw; _) as [doc|].
    - apply runs_bind in H0' as [(e & [=] & _)|(h5 & s5 & boot & h6 & -> & _ & (_ & _ & [= ->])%runs_ret)].
      unfold SanitizeHardware. destruct (topology _ _), (read_dimms _ _ _). done.
    - apply runs_ret in H0' as (_ & _ & [= ->]). done. }
  clear H0'. apply runs_bind in Hr as [(e & [=] & _)|(h5 & s5 & current & h6 & -> & _ & Hr)]. cbn beta zeta in Hr.
  apply runs_bind in Hr as [(e & [=] & _)|(h7 & s7 & checked & h8 & -> & (r0 & [= <-] & Hc)%runs_attempt & (-> & _ & [= ->])%runs_ret)].
  destruct checked as [[]|e]; destruct h0; cbn in *; [|by destruct_and!].
  split; [|done]. intros _. eapply hardware_mono; [|by eapply hardware_ok]. set_solver.
Qed.
Lemma cpu_report h0 s h s' hw : runs (cpu_policy h0) s h s' (Ok hw) →
  hw_Status hw = hw_Status h0 ∧ hw_CurrentBootID hw = hw_CurrentBootID h0 ∧ hw_OtherMemoryMiB hw = hw_OtherMemoryMiB h0 ∧ hw_OtherCPU hw = hw_OtherCPU h0 ∧ hw_OtherGPUs hw = hw_OtherGPUs h0.
Proof.
  unfold cpu_policy. intros Hr. peel Hr; subst; destruct h0; repeat match goal with |- context [match ?c with _ => _ end] => destruct c end; done.
Qed.

(** A well-formed inventory, by what a run saw. *)
Definition wellformed (inv : Inventory) (h : list host_event) : Prop :=
  let hw := in_Hardware inv in
  in_Mode inv = "live" ∧ in_Target inv = po_Target policy ∧ in_Environment inv = po_Environment policy ∧
  (hw_Status hw = "observed" → hardware_current h) ∧
  (in_ClusterAvailable inv = true → ∃ node pods rs,
    observed h ["get"; "node"; po_Target policy; "-o"; "json"] node ∧ observed h ["get"; "pods"; "-A"; "-o"; "json"] pods ∧
    observed h ["-n"; po_Namespace policy; "get"; "replicasets"; "-o"; "json"] rs ∧
    node_ready node = true ∧ str (Nested node ["status"; "nodeInfo"; "bootID"]) = hw_CurrentBootID hw ∧
    0 ≤ hw_ReservedCPU hw ∧ 0 ≤ hw_KubeReserveMiB hw ∧
    let deployments := [po_AIDeploymentUID policy; po_GameDeploymentUID policy] in
    (∀ pod, pod ∈ others deployments rs pods → ∃ b, podBudget pod = Ok b) ∧
    hw_OtherMemoryMiB hw = total pod_mib (others_on (po_Target policy) deployments rs pods) 0 ∧
    hw_OtherCPU hw = total pod_threads (others_on (po_Target policy) deployments rs pods) 0 ∧
    hw_OtherGPUs hw = total pod_gpus (others deployments rs pods) 0).
Lemma unavailable_wellformed message profile serving hw h : (hw_Status hw = "observed" → hardware_current h) →
  wellformed (inventory_of policy false message profile serving hw) h.
Proof. intros Hst. unfold wellformed. cbn. split_and!; done. Qed.
Lemma capacity_wellformed node profile serving hw0 hw h deployments rs pods :
  consumers policy (managed_replicas deployments rs) (list_of (get "items" pods)) hw0 = (hw, None) →
  hw_OtherMemoryMiB hw0 = 0 → hw_OtherCPU hw0 = 0 → hw_OtherGPUs hw0 = 0 →
  (hw_Status hw0 = "observed" → hardware_current h) →
  let inv := node_capacity policy node profile serving hw in
  in_Mode inv = "live" ∧ in_Target inv = po_Target policy ∧ in_Environment inv = po_Environment policy ∧
  (hw_Status (in_Hardware inv) = "observed" → hardware_current h) ∧
  (in_ClusterAvailable inv = true → hw_CurrentBootID (in_Hardware inv) = hw_CurrentBootID hw0 ∧
    0 ≤ hw_ReservedCPU (in_Hardware inv) ∧ 0 ≤ hw_KubeReserveMiB (in_Hardware inv) ∧
    hw_OtherMemoryMiB (in_Hardware inv) = total pod_mib (others_on (po_Target policy) deployments rs pods) 0 ∧
    hw_OtherCPU (in_Hardware inv) = total pod_threads (others_on (po_Target policy) deployments rs pods) 0 ∧
    hw_OtherGPUs (in_Hardware inv) = total pod_gpus (others deployments rs pods) 0).
Proof.
  intros Hcon Hm Hc Hg Hst. apply consumers_spec in Hcon as (_ & Em & Ec & Eg & Est & Ebt); [|by rewrite Hg].
  rewrite <- Est in Hst. rewrite Hm in Em. rewrite Hc in Ec. rewrite Hg in Eg. unfold others_on, others. rewrite <- Ebt, <- Em, <- Ec, <- Eg.
  cbn zeta. unfold node_capacity. clear Em Ec Eg Est Ebt. destruct hw.
  match goal with |- context [match ?a with Ok _ => match ?b with _ => _ end | Err _ => _ end] => destruct a as [cpu|], b as [mem|] end; try (split_and!; done).
  cbn zeta. match goal with |- context [if ?c then _ else _] => destruct c eqn:Hneg end; cbn in *; split_and!; try done; intros _; split_and!; try done; lia.
Qed.

(** A branch that answers an unavailable cluster. *)
Ltac refused Hr := by apply runs_ret in Hr as (_ & _ & [= ->]); apply unavailable_wellformed.

(** C25: The inventory the helper answers is well formed: it is of this target; hardware called
    observed passed the check of the report, its age and its boot in the same run; and an
    inventory that says the cluster is available was read from a Ready node of the same boot,
    reserves nothing negative, and counts as other consumers exactly the Pods that have
    neither succeeded nor failed and that no ReplicaSet of a managed Deployment owns: the
    memory and the threads, rounded up, of those on this node, and the GPUs of those anywhere,
    having read the budget of every one. *)
Theorem Snapshot_wellformed s h s' inv : runs (Snapshot policy) s h s' (Ok inv) → wellformed inv h.
Proof.
  unfold Snapshot. intros Hr.
  apply runs_bind in Hr as [(e & [=] & _)|(h1 & s1 & now & h2 & -> & _ & Hr)]. cbn beta zeta in Hr.
  apply runs_bind in Hr as [(e & [=] & _)|(h3 & s3 & verified & h4 & -> & _ & Hr)].
  apply runs_bind in Hr as [(e & [=] & _)|(h5 & s5 & [] & h6 & -> & _ & Hr)].
  apply runs_bind in Hr as [(e & [=] & _)|(h7 & s7 & hw0 & h8 & -> & (Hst & Hm & Hc & Hg)%hardware_report & Hr)].
  apply runs_bind in Hr as [(e & [=] & _)|(h9 & s9 & profile & h10 & -> & _ & Hr)].
  apply runs_bind in Hr as [(e & [=] & _)|(h11 & s11 & hw & h12 & -> & (Est & Ebt & Em & Ec & Eg)%cpu_report & Hr)].
  match goal with |- wellformed _ ?h => set (hh := h) end. assert (h12 ⊆ hh) as Hsub by (intros z ?; subst hh; rewrite !elem_of_app; tauto).
  assert (hw_Status hw = "observed" → hardware_current hh) as Hcur.
  { intros Ho. rewrite Est in Ho. eapply hardware_mono; [|by apply Hst]. intros z ?; subst hh; rewrite !elem_of_app; tauto. }
  rewrite <- Em in Hm. rewrite <- Ec in Hc. rewrite <- Eg in Hg. clear Em Ec Eg Est Ebt Hst. clearbody hh.
  apply runs_bind in Hr as [(e & [=] & _)|(h13 & s13 & node & h14 & -> & (r0 & [= <-] & Hnode)%runs_attempt & Hr)].
  destruct node as [node|]; [|refused Hr]. apply kube_ok in Hnode.
  match type of Hr with runs (if ?c then _ else _) _ _ _ _ => destruct c eqn:Hready end; [refused Hr|]. bool_hyps.
  apply runs_bind in Hr as [(e & [=] & _)|(h15 & s15 & pods & h16 & -> & (r0 & [= <-] & Hpods)%runs_attempt & Hr)].
  destruct pods as [pods|]; [|refused Hr]. apply kube_ok in Hpods.
  apply runs_bind in Hr as [(e & [=] & _)|(h17 & s17 & rs & h18 & -> & (r0 & [= <-] & Hrs)%runs_attempt & Hr)].
  destruct rs as [rs|]; [|refused Hr]. apply kube_ok in Hrs.
  apply runs_bind in Hr as [(e & [=] & _)|(h19 & s19 & now2 & h20 & -> & _ & (-> & _ & Hinv)%runs_ret)]. cbn beta zeta in Hinv.
  destruct (consumers _ _ _ _) as [hw' [e|]] eqn:Hcon; injection Hinv as ->.
  { apply unavailable_wellformed. intros Ho. rewrite (consumers_status _ _ _ _ _ Hcon) in Ho. auto. }
  pose proof (consumers_spec _ _ _ _ _ Hcon ltac:(by rewrite Hg)) as (Hbudgets & _).
  pose proof (λ serving, capacity_wellformed node profile serving _ _ hh _ _ _ Hcon Hm Hc Hg Hcur) as Hcap.
  match goal with |- wellformed (node_capacity _ _ _ ?sv _) _ => destruct (Hcap sv) as (? & ? & ? & ? & Hav) end.
  unfold wellformed. cbn zeta. split_and!; try done. intros Ha. destruct (Hav Ha) as (Hboot & ? & ? & ? & ? & ?). exists node, pods, rs. rewrite Hboot.
  split_and!; try done; (eapply observed_mono; [|eassumption]; set_solver).
Qed.

End Checks.
#[export] Hint Resolve reads_get reads_deployment reads_qualify reads_revalidate reads_model reads_hardware reads_desired reads_capacity reads_snapshot : effects.
