(* ===== verification/HostMemory.v ===== *)
(** The helper's memory adapter ([internal/hostexec/memory.go]): which evidence a request may
    use, the preview with its preconditions, the comparison of the observed runtime and of the
    live Deployment with the source, intake and planning under the storage budget, and the
    export of an artifact. *)
From S2P Require Import MemoryBundle Window MemoryPlan.
From S2P Require Import Prelude Interact Json Tree Types Domain Safefile Wire Evidence HostPolicy HostExec Kube Runtime Inventory.
From stdpp Require Import pretty.
#[local] Open Scope Z_scope.

(** ** Assignments to the summary *)

Definition set_ms_Identity id sha '(mkMemorySummary _ _ c d e f g h i j k l m n o p q r s t u v w x) := mkMemorySummary id sha c d e f g h i j k l m n o p q r s t u v w x.
Definition set_ms_Status status reason '(mkMemorySummary a b _ _ e f g h i j k l m n o p q r s t u v w x) := mkMemorySummary a b status reason e f g h i j k l m n o p q r s t u v w x.
Definition set_ms_Budgets base limited shm '(mkMemorySummary a b c d _ _ g h _ j k l m n o p q r s t u v w x) := mkMemorySummary a b c d base limited g h shm j k l m n o p q r s t u v w x.
Definition set_ms_Telemetry (y : TelemetryAllowance) '(mkMemorySummary a b c d e f g h i j _ _ _ _ _ p q r s t u v w x) :=
  mkMemorySummary a b c d e f g h i j (ta_Profile y) (ta_ReserveMiB y) (ta_ComponentLimitsMiB y) (ta_MarginMiB y) (ta_CalculatedAllowanceMiB y) p q r s t u v w x.
Definition set_ms_Allocatable y '(mkMemorySummary a b c d e f g h i j k l m n o _ q r s t u v w x) := mkMemorySummary a b c d e f g h i j k l m n o y q r s t u v w x.
Definition set_ms_Rows rows cold warm '(mkMemorySummary a b c d e f g h i j k l m n o p q r _ _ _ v w x) := mkMemorySummary a b c d e f g h i j k l m n o p q r cold warm rows v w x.
Definition set_ms_Preconditions y '(mkMemorySummary a b c d e f g h i j k l m n o p q r s t u _ w x) := mkMemorySummary a b c d e f g h i j k l m n o p q r s t u y w x.
Definition set_ms_Limitations y '(mkMemorySummary a b c d e f g h i j k l m n o p q r s t u v _ x) := mkMemorySummary a b c d e f g h i j k l m n o p q r s t u v y x.

#[export] Instance artifact_eq_dec : EqDecision Artifact.
Proof. solve_decision. Defined.

(** [strings.Cut]. *)
Definition cut (s sep : string) : string * string * bool :=
  match String.index 0 sep s with
  | Some n => (String.substring 0 n s, String.substring (n + String.length sep) (String.length s) s, true)
  | None => (s, "", false)
  end.

(** ** Trees *)

(** The walk of the preview: protected and private, and nothing unreadable. *)
Fixpoint protected (tree : list (option TreeEntry)) : result unit :=
  match tree with
  | [] => Ok tt
  | None :: _ => Err (Plain "walk")
  | Some e :: tree =>
    reject negb (is_trusted (te_Trust e)) with Plain "memory evidence tree must be root-owned and protected" ;;
    match te_Perm e with
    | None => Err (Plain "info")
    | Some perm => reject negb (private_perm perm) with Plain "memory evidence tree must be owner-private" ;; protected tree
    end
  end.
Fixpoint memoryTreeBytes (tree : list (option TreeEntry)) (entries size : Z) : result Z :=
  match tree with
  | [] => Ok size
  | None :: _ => Err (Plain "walk")
  | Some e :: tree =>
    let entries := entries + 1 in
    reject (entries >? 40000) || te_Symlink e with Plain "memory storage tree unsafe or over entry bound" ;;
    if te_Dir e then memoryTreeBytes tree entries size else
    reject negb (is_some (te_Perm e)) || negb (te_Regular e) with Plain "memory storage inode unavailable" ;;
    let size := add64 size (te_Size e) in
    reject size >? 2^32 with Plain "memory storage exceeds four-GiB admission budget" ;;
    memoryTreeBytes tree entries size
  end.

Section HostMemory.
Context `{Sha256} `{TemplateHash} `{JSONText} `{JSONRender} `{AnyText} `{FloatText} `{RFC3339} `{TimeText} (Sum : string → string) (policy : Policy).

(** ** The observed runtime *)

(** The launch settings of the source, with their flags and variables. *)
Definition launch_settings (q : Qualification) (c : Configuration) : list (string * string * string) :=
  let s := cf_Serving c in
  [("--model-path", "MODEL_PATH", qf_ModelPath q); ("--revision", "MODEL_REVISION", qf_ModelRevision q);
   ("--served-model-name", "SERVED_MODEL_NAME", sv_Model s); ("--context-length", "CONTEXT_LENGTH", pretty (sv_Context s));
   ("--max-running-requests", "MAX_RUNNING_REQUESTS", pretty (sv_Concurrency s)); ("--tp", "TENSOR_PARALLEL", pretty (rs_GPUCount (cf_Resources c)));
   ("--mem-fraction-static", "MEM_FRACTION_STATIC", format_float (sv_MemoryFraction s))].
Definition receipt : string := ".bridge-receipt.json".
Definition model_files (q : Qualification) (files : JSON) : result unit :=
  let present := existsb (λ kv, kv.1 =s receipt) (members files) in
  reject present && negb (Digest (str (get "sha256" (get receipt files)))) with Plain "observed staging receipt digest is malformed" ;;
  let count := if present && negb (is_some (qf_Files q !! receipt)) then Z.of_nat (length (members files)) - 1 else Z.of_nat (length (members files)) in
  reject negb (count =? Z.of_nat (size (qf_Files q))) with Plain "observed memory model file set differs from qualification" ;;
  reject negb (forallb (λ nh, str (Nested files [nh.1; "sha256"]) =s nh.2) (map_to_list (qf_Files q)))
    with Plain "observed memory model hash differs from qualification" ;; Ok tt.
Fixpoint gpu_identities (devices : list JSON) (seen : list string) : bool :=
  match devices with
  | [] => true
  | d :: devices =>
    let id := str (get "uuid" d) in
    negb ((id =s "") || (id =s "unknown") || str_in id seen || (hd "" (split_on ":"%char (str (get "gfx" d))) <>s "gfx1201"))
    && gpu_identities devices (id :: seen)
  end.
Definition runtime_matches (q : Qualification) (c : Configuration) (runtime : JSON) : result unit :=
  _ ← model_files q (get "model_files" runtime);
  reject negb (sv_CPUOffloadGiB (cf_Serving c) =? 0)
    with Plain "memory collector cannot attest nonzero CPU offload; recollect with a separately reviewed compatible collector" ;;
  let want := launch_settings q c in
  reject negb (forallb (λ w, str (get w.1.2 (get "settings" runtime)) =s w.2) want)
    with Plain "observed memory runtime settings differ from qualified source" ;;
  let launch := list_of (get "launch" runtime) in
  reject match launch with [] => true | _ => Z.of_nat (length launch) >? 64 end with Plain "memory observed launch evidence missing or unbounded" ;;
  reject negb (forallb (λ row, forallb (λ w, str (get w.1.1 row) =s w.2) want) launch)
    with Plain "observed memory launch differs from qualified baseline" ;;
  let devices := list_of (get "devices" runtime) in
  reject negb (Z.of_nat (length devices) =? rs_GPUCount (cf_Resources c)) with Plain "observed memory GPU allocation differs from baseline" ;;
  reject negb (gpu_identities devices []) with Plain "memory observation needs distinct stable supported GPU identities" ;; Ok tt.
Definition memoryRuntime (runtime : JSON) (c : Configuration) : Exec unit :=
  let absent := Plain "memory runtime needs current qualified model file hashes" in
  match po_QualifiedConfigurations policy !! ConfigurationHash (cf_Serving c) (cf_Resources c) with
  | None => fault absent
  | Some q =>
    refuse bool_decide (qf_Files q = ∅) with absent ;;
    now ← ask HNow;
    refuse negb (after (qf_ExpiresAt q) now) with absent ;;
    of_result (runtime_matches q c runtime)
  end.

(** ** The live Deployment *)

Definition identified (dep : JSON) : bool :=
  (deployment_uid dep =s po_AIDeploymentUID policy) && (str (Nested dep ["metadata"; "name"]) =s po_AIDeployment policy)
  && (str (Nested dep ["metadata"; "namespace"]) =s po_Namespace policy).
Definition memoryDeploymentIdentity (live evidence : JSON) : result unit :=
  reject negb (identified live) || negb (identified evidence) with Plain "memory baseline Deployment identity differs from root policy" ;;
  reject negb (deep_equal (template_of live) (template_of evidence)) with Plain "memory baseline complete Pod template drift" ;; Ok tt.

(** The Pods of each observation ran on the target. *)
Fixpoint memoryObservationTargets (root target : string) (ids : list string) : Exec unit :=
  match ids with
  | [] => mret tt
  | id :: ids =>
    let dir := path_join (path_join root "observations") id in
    start ← ask (HRawJSON (path_join (path_join dir "startup") "startup.json")); start ← of_result start;
    served ← ask (HRawJSON (path_join (path_join dir "serving") "result.json")); served ← of_result served;
    pod ← ask (HRawJSON (path_join (path_join (path_join dir "serving") "after") "pod.json")); pod ← of_result pod;
    refuse (target =s "") || existsb (λ p, str (get "node" p) <>s target) [get "pod_before" start; get "pod" start; get "pod" served; pod]
      with Plain "memory observation Pod node differs from root-policy target" ;;
    memoryObservationTargets root target ids
  end.

(** The environment: the ConfigMaps in order, then the variables. *)
Fixpoint env_from (from : list JSON) (values : gmap string string) : Exec (gmap string string) :=
  match from with
  | [] => mret values
  | ref :: from =>
    let name := str (Nested ref ["configMapRef"; "name"]) in
    refuse (name =s "") || negb (is_null (get "prefix" ref)) with Plain "memory baseline supports only qualified ConfigMap environment sources" ;;
    cm ← attempt (kube policy "" (get_object policy "configmap" name));
    match cm with
    | Err _ => fault (Plain "memory baseline ConfigMap unavailable")
    | Ok cm => env_from from (fold_left (λ values kv, <[kv.1 := str kv.2]> values) (members (get "data" cm)) values)
    end
  end.
Definition env_value (values : gmap string string) (entry : JSON) : gmap string string :=
  <[str (get "name" entry) := str (get "value" entry)]> values.
Definition expand (values : gmap string string) (value : string) : string :=
  if has_prefix value "$(" && has_suffix value ")"
  then default "" (values !! String.substring 2 (String.length value - 3) value) else value.
(** The loop over the arguments: the managed flags seen, each with its value once. *)
Fixpoint check_launch (expected values : gmap string string) (args : list JSON) (seen : list string) : result (list string) :=
  match args with
  | [] => Ok seen
  | arg :: args =>
    let '(flag, value, equals) := cut (str arg) "=" in
    reject (flag =s "--tensor-parallel-size") || (flag =s "--tp-size") with Plain "memory baseline TP alias requires reviewed adapter support" ;;
    match expected !! flag with
    | None => check_launch expected values args seen
    | Some want =>
      reject str_in flag seen with Plain "duplicate managed serving flag" ;;
      let mismatch := Plain "observed launch settings differ from desired memory baseline" in
      if equals then
        reject expand values value <>s want with mismatch ;; check_launch expected values args (flag :: seen)
      else match args with
      | [] => Err (Plain "missing managed serving flag value")
      | value :: args =>
        reject expand values (str value) <>s want with mismatch ;; check_launch expected values args (flag :: seen)
      end
    end
  end.
Definition launch_flags (q : Qualification) (c : Configuration) : gmap string string :=
  list_to_map (("--cpu-offload-gb", pretty (sv_CPUOffloadGiB (cf_Serving c))) :: ((λ w, (w.1.1, w.2)) <$> launch_settings q c)).
Fixpoint baseline_shm (shm : Z) (volumes : list JSON) (found : bool) : result bool :=
  match volumes with
  | [] => Ok found
  | v :: volumes =>
    if str (get "name" v) =s "shm" then
      reject match MiB (Nested v ["emptyDir"; "sizeLimit"]) with Some n => negb (n =? shm) | None => true end
          || (str (Nested v ["emptyDir"; "medium"]) <>s "Memory") with Plain "memory baseline shm ceiling changed" ;;
      baseline_shm shm volumes true
    else baseline_shm shm volumes found
  end.
Definition baseline_budget (c : Configuration) (container : JSON) : bool :=
  let rs := get "resources" container in
  match MiB (Nested rs ["limits"; "memory"]) with Some n => n =? rs_MemoryMiB (cf_Resources c) | None => false end
  && deep_equal (get "requests" rs) (get "limits" rs)
  && SpecFloat.SFeqb (number (Nested rs ["limits"; "cpu"])) (float_of (rs_CPU (cf_Resources c)))
  && SpecFloat.SFeqb (number (Nested rs ["limits"; "amd.com/gpu"])) (float_of (rs_GPUCount (cf_Resources c))).
Definition baseline_launch (q : Qualification) (c : Configuration) (values : gmap string string) (container : JSON) : result unit :=
  seen ← check_launch (launch_flags q c) values (list_of (get "args" container)) [];
  reject negb (forallb (λ kv, str_in kv.1 seen || ((kv.1 =s "--cpu-offload-gb") && (sv_CPUOffloadGiB (cf_Serving c) =? 0))) (map_to_list (launch_flags q c)))
    with Plain "managed launch flag missing from memory baseline" ;; Ok tt.
Definition memoryBaseline (dep : JSON) (c : Configuration) : Exec unit :=
  match list_of (Nested dep containers_path) with
  | [container] =>
    refuse negb (baseline_budget c container) with Plain "desired and observed memory/CPU/GPU budgets differ" ;;
    let unqualified := Plain "baseline image/configuration needs current independent qualification" in
    match po_QualifiedConfigurations policy !! ConfigurationHash (cf_Serving c) (cf_Resources c) with
    | None => fault unqualified
    | Some q =>
      now ← ask HNow;
      refuse negb (after (qf_ExpiresAt q) now) || negb (is_string (get "image" container) (qf_Image q)) with unqualified ;;
      _ ← qualifySession policy "ai" dep JNull;
      values ← env_from (list_of (get "envFrom" container)) ∅;
      _ ← of_result (baseline_launch q c (fold_left env_value (list_of (get "env" container)) values) container);
      found ← of_result (baseline_shm (rs_SharedMemoryMiB (cf_Resources c)) (list_of (Nested dep volumes_path)) false);
      refuse negb found with Plain "memory baseline shm missing" ;;
      mret tt
    end
  | _ => fault (Plain "memory plan requires the single SGLang container")
  end.

(** ** The evidence of a request *)

Definition memory_request (d : Draft) : MemoryRequest := default MemoryRequest0 (d_Memory d).
Definition imported (d : Draft) (r : record) : bool :=
  (hr_Action r =s "memory.evidence.import") && (hr_State r =s "succeeded") && (d_Target (hr_Draft r) =s d_Target d)
  && (mr_EvidenceSHA256 (memory_request (hr_Draft r)) =s mr_EvidenceSHA256 (memory_request d)).
Definition memory_dir : string := path_join (po_StateDir policy) "memory".
Definition memoryInput (d : Draft) : Exec (string * string) :=
  let m := memory_request d in
  if d_Action d =s "memory.evidence.import" then
    match po_MemorySources policy !! mr_EvidenceID m with
    | Some s =>
      refuse ms_SHA256 s <>s mr_EvidenceSHA256 m with Plain "unapproved memory evidence source" ;; mret (ms_Path s, ms_SHA256 s)
    | None => fault (Plain "unapproved memory evidence source")
    end
  else
    records ← ask HRecords;
    refuse match records !! mr_EvidenceID m with Some r => negb (imported d r) | None => true end
      with Plain "memory plan requires a successful import in the independent helper journal" ;;
    mret (path_join (path_join memory_dir (mr_EvidenceID m)) "inputs", mr_EvidenceSHA256 m).

Definition verify_bundle (root digest : string) : Exec MemoryBundle.Manifest :=
  b ← ask (HBundle root); of_result (MemoryBundle.Verify b.1 b.2 digest).
Definition read_telemetry (root : string) (m : MemoryBundle.Manifest) : Exec (result (option TelemetryAllowance)) :=
  e ← ask (HTelemetry root); mret (Telemetry m e).
Definition raw_json (path : string) : Exec JSON := v ← ask (HRawJSON path); of_result v.

(** ** The preview *)

(** Why the telemetry does not support a plan. *)
Definition telemetry_reason (d : Draft) (t : result (option TelemetryAllowance)) : string :=
  match t with
  | Err _ => "invalid_telemetry_capacity_evidence"
  | Ok (Some a) => if mr_OtherMiB (memory_request d) <? ta_ReserveMiB a then "other_workload_budget_below_telemetry_reserve" else ""
  | Ok None => ""
  end.
Definition allowance (t : result (option TelemetryAllowance)) : option TelemetryAllowance := match t with Ok a => a | Err _ => None end.
Definition with_rows (rows : list MemoryObservation) (s : MemorySummary) : MemorySummary :=
  set_ms_Rows rows (Z.of_nat (length (List.filter (λ o, mo_Phase o =s "cold") rows))) (Z.of_nat (length (List.filter (λ o, mo_Phase o <>s "cold") rows))) s.
Definition telemetry_precondition (m : MemoryBundle.Manifest) (t : option TelemetryAllowance) (p : gmap string string) : gmap string string :=
  if is_some t then <["memory_telemetry_evidence" := file_digest m "telemetry/evidence.json"]> p else p.
Definition present_unvalidated : string := "phase_files_present_deterministic_validation_required".

(** What a retained Deployment declares: zero where it declares nothing readable. *)
Fixpoint declared_shm (volumes : list JSON) (shm : Z) : Z :=
  match volumes with
  | [] => shm
  | v :: volumes => declared_shm volumes (if str (get "name" v) =s "shm" then default 0 (MiB (Nested v ["emptyDir"; "sizeLimit"])) else shm)
  end.
Definition declared (dep : JSON) (s : MemorySummary) : MemorySummary :=
  let '(base, limited) := match list_of (Nested dep containers_path) with
    | [c] => (default 0 (MiB (Nested c ["resources"; "requests"; "memory"])), default 0 (MiB (Nested c ["resources"; "limits"; "memory"])))
    | _ => (0, 0)
    end in
  set_ms_Budgets base limited (declared_shm (list_of (Nested dep volumes_path)) 0) s.

(** Intake retains what it is given. *)
Definition intake (c : Configuration) (root digest : string) (m : MemoryBundle.Manifest) (t : option TelemetryAllowance) (reason : string) (s : MemorySummary) : Exec MemorySummary :=
  dep ← ask (HRawJSON (path_join root "deployment.json"));
  let s := set_ms_Preconditions (telemetry_precondition m t (list_to_map
      [("memory_manifest", digest); ("memory_source", cf_Revision c); ("memory_policy", policyRevision policy)])) s in
  let s := match dep with Ok dep => declared dep s | Err _ => s end in
  let limits := ["Private intake only: retained bytes are not qualification or complete sizing evidence.";
                 "Stale, failed and missing observations require recollection before candidate generation."] in
  s ← (if Complete m then
      f ← ask (HObserve root);
      mret (match Observe f m (ms_LimitedMiB s) (ms_SharedMemoryMiB s) with
            | (rows, Ok _) => with_rows rows (set_ms_Status "imported-unqualified" present_unvalidated s)
            | (_, Err _) => s
            end)
    else mret s);
  let s := if mf_SourceRevision m <>s cf_Revision c then set_ms_Status "incomplete" "source_revision_stale" s else s in
  mret (if reason <>s ""
        then set_ms_Limitations (limits ++ ["Telemetry capacity evidence is retained but cannot establish a plan until its schema and conservative reserve are valid."])
               (set_ms_Status "incomplete" reason s)
        else set_ms_Limitations limits s).

(** The capacity a plan is made for. *)
Definition live_capacity (h : Hardware) : string := sha256_hex (JObject [
  ("Memory", JInt (hw_MemoryMiB h)); ("Other", JInt (hw_OtherMemoryMiB h)); ("Reserved", JInt (add64 (hw_HostReserveMiB h) (hw_KubeReserveMiB h)));
  ("CPU", JInt (hw_CPUThreads h)); ("OtherCPU", JInt (hw_OtherCPU h)); ("GPUs", JInt (Z.of_nat (length (hw_GPUs h)))); ("OtherGPUs", JInt (hw_OtherGPUs h))]).
Definition host_fits (d : Draft) (c : Configuration) (h : Hardware) : bool :=
  hw_TopologyKnown h && (1 <=? hw_SMTWidth h) && (Z.rem (rs_CPU (cf_Resources c)) (hw_SMTWidth h) =? 0)
  && (hw_CPUManagerPolicy h =s "static") && hw_FullPCPUsOnly h && (hw_OtherMemoryMiB h <=? mr_OtherMiB (memory_request d)).
(** The allocatable memory of a resource plan that describes this host. *)
Definition allocatable_mib (h : Hardware) (resource : JSON) : option Z :=
  let '(total, ok) := as_float (Nested resource ["memory"; "total_mib"]) in
  let '(alloc, allocOK) := as_float (Nested resource ["memory"; "allocatable_mib"]) in
  if negb ok || negb allocOK || negb (int64_of total =? hw_MemoryMiB h) || SpecFloat.SFleb alloc f0
     || (int64_of alloc >? sub64 (sub64 (hw_MemoryMiB h) (hw_HostReserveMiB h)) (hw_KubeReserveMiB h))
  then None else Some (int64_of alloc).
Definition runtime_path (root id : string) : string :=
  path_join (path_join (path_join (path_join (path_join root "observations") id) "serving") "after") "runtime.json".
Fixpoint check_runtimes (root : string) (c : Configuration) (ids : list string) : Exec unit :=
  match ids with
  | [] => mret tt
  | id :: ids => runtime ← raw_json (runtime_path root id); _ ← memoryRuntime runtime c; check_runtimes root c ids
  end.
(** The preflight of an export against the live node and Deployment. *)
Definition export_preflight (d : Draft) (c : Configuration) (root : string) (m : MemoryBundle.Manifest) (deployment : JSON) (s : MemorySummary) : Exec MemorySummary :=
  refuse negb (Complete m) with Plain "memory observations incomplete: need two cold and two warm fresh Pods with complete files" ;;
  refuse ms_Status s <>s "imported-unqualified" with Plain "memory samples are incomplete, invalid or affected by pressure; no export plan" ;;
  _ ← memoryObservationTargets root (po_Target policy) (mf_Observations m);
  inv ← attempt (Snapshot policy);
  match inv with
  | Err _ => fault (Plain "current resource consumers unavailable; no memory plan exported")
  | Ok inv =>
    refuse negb (in_ClusterAvailable inv) with Plain "current resource consumers unavailable; no memory plan exported" ;;
    let h := in_Hardware inv in
    refuse negb (host_fits d c h) with Plain "memory plan requires current whole-core policy and other-workload budget covering observed consumers" ;;
    resource ← raw_json (path_join root "resource-plan.json");
    match allocatable_mib h resource with
    | None => fault (Plain "resource plan differs from current discovered host and node headroom")
    | Some alloc =>
      ai ← attempt (get_deployment policy (po_AIDeployment policy));
      match ai with
      | Err _ => fault (Plain "current baseline Deployment unavailable; no plan exported")
      | Ok ai =>
        _ ← of_result (memoryDeploymentIdentity ai deployment);
        _ ← memoryBaseline ai c;
        _ ← check_runtimes root c (mf_Observations m);
        mret (s |> set_ms_Allocatable alloc
                |> set_ms_Preconditions (<["memory_live_capacity" := live_capacity h]> (ms_Preconditions s))
                |> set_ms_Status "ready-for-plan" "baseline_preflight_passed_deterministic_candidate_not_yet_generated")
      end
    end
  end.

(** The preview of a plan: the evidence must be of this source, hardware, boot and policy. *)
Definition planning (d : Draft) (c : Configuration) (root digest : string) (m : MemoryBundle.Manifest) (t : option TelemetryAllowance) (s : MemorySummary) : Exec MemorySummary :=
  refuse mf_SourceRevision m <>s cf_Revision c with Plain "memory evidence source revision is stale" ;;
  _ ← checkHardware policy;
  hardware ← ask (HHashFile (po_HardwarePath policy));
  refuse match hardware with Some (h, _) => h <>s mf_HardwareSHA256 m | None => true end
    with Plain "memory hardware/DIMM evidence changed; collect and regenerate resource plan" ;;
  boot ← ask (HRead (hardware_boot policy));
  refuse match boot with Some b => TrimSpace b <>s mf_BootID m | None => true end with Plain "memory evidence boot identity changed" ;;
  deployment ← raw_json (path_join root "deployment.json");
  let s := s |> set_ms_Preconditions (telemetry_precondition m t (list_to_map
      [("memory_manifest", digest); ("memory_hardware", mf_HardwareSHA256 m); ("memory_boot", mf_BootID m); ("memory_source", cf_Revision c);
       ("memory_policy", policyRevision policy); ("memory_baseline_spec", Identity Sum (Nested deployment ["spec"; "template"; "spec"]))]))
    |> set_ms_Budgets (rs_MemoryMiB (cf_Resources c)) (rs_MemoryMiB (cf_Resources c)) (rs_SharedMemoryMiB (cf_Resources c))
    |> set_ms_Limitations ["Imported evidence is not qualification or measured RAM saving.";
         "Startup/serving collection remains a non-root owner workflow; no automatic collection or application.";
         "Prometheus summaries and unmeasured averages cannot size this workload."] in
  s ← (if Complete m then
      f ← ask (HObserve root);
      mret (match Observe f m (rs_MemoryMiB (cf_Resources c)) (rs_SharedMemoryMiB (cf_Resources c)) with
            | (rows, Ok _) => with_rows rows (set_ms_Status "imported-unqualified" present_unvalidated s)
            | (_, Err _) => set_ms_Status "incomplete" "invalid_missing_or_pressure_affected_observation" s
            end)
    else mret s);
  if d_Action d =s "memory.plan.export" then export_preflight d c root m deployment s else mret s.

Definition summary_of (d : Draft) : MemorySummary :=
  let m := memory_request d in
  mkMemorySummary (mr_EvidenceID m) (mr_EvidenceSHA256 m) "incomplete" "phase_files_missing_or_not_yet_validated" 0 0 0 0 0 (mr_OtherMiB m)
    "" 0 ∅ 0 0 0 0 0 0 0 [] ∅ [] [].
Definition draft_request (d : Draft) (c : Configuration) : Request := mkRequest 0 "" "" "" d c.
Definition memoryPreview (d : Draft) (c : Configuration) : Exec MemorySummary :=
  _ ← revalidate policy (draft_request d c);
  verified ← ask HVerify; _ ← of_result verified;
  input ← memoryInput d;
  let '(root, digest) := input in
  t ← ask (HTrusted root true);
  refuse negb (is_trusted t) with Plain "memory evidence needs owner-reviewed protected paths" ;;
  tree ← ask (HTree root); _ ← of_result (protected tree);
  m ← verify_bundle root digest;
  telemetry ← read_telemetry root m;
  let reason := telemetry_reason d telemetry in
  let s := match allowance telemetry with Some a => set_ms_Telemetry a (summary_of d) | None => summary_of d end in
  refuse (reason <>s "") && (d_Action d =s "memory.plan.export")
    with Plain "memory plan requires valid sealed telemetry evidence and an other-workload budget at least its reserve" ;;
  if d_Action d =s "memory.evidence.import" then intake c root digest m (allowance telemetry) reason s
  else planning d c root digest m (allowance telemetry) s.
Definition MemoryPreview (d : Draft) (c : Configuration) : Exec MemorySummary :=
  refuse negb (MemoryAction (d_Action d)) || negb (is_some (d_Memory d)) with Plain "invalid memory preview" ;; memoryPreview d c.

(** ** Intake and planning *)

Fixpoint observation_args (root : string) (ids : list string) : list string :=
  match ids with
  | [] => []
  | id :: ids =>
    let dir := path_join (path_join root "observations") id in
    ["--observation"; path_join dir "startup"; path_join dir "serving"] ++ observation_args root ids
  end.
Definition memoryPlannerArgs (root output : string) (m : MemoryBundle.Manifest) (other : Z) : Exec (list string) :=
  t ← read_telemetry root m;
  match t with
  | Err _ => fault (Plain "sealed telemetry evidence changed or is invalid during generation")
  | Ok t =>
    mret (["rocm"; "serving-memory-plan"; path_join root "deployment.json"; path_join root "workload.json"; path_join root "resource-plan.json"; output;
           "--other-mib"; pretty other]
          ++ (if is_some t then ["--telemetry-evidence"; path_join (path_join root "telemetry") "evidence.json"] else [])
          ++ observation_args root (mf_Observations m))
  end.

(** Free space of a file system, in [uint64]. *)
Definition free_bytes (fs : Z * Z) : Z := (fs.1 * fs.2) mod 2^64.
Definition short_of (fs : option (Z * Z)) (total reserve : Z) : bool :=
  match fs with Some fs => (total >? 2^32) || (free_bytes fs <? reserve) | None => true end.
Definition tree_bytes (root : string) : Exec Z := tree ← ask (HTree root); of_result (memoryTreeBytes tree 0 0).
(** Admission to the evidence storage: retained evidence and the new one within four GiB. *)
Definition admit_memory (r : Request) (root : string) : Exec string :=
  made ← ask (HMakeDir memory_dir 448); _ ← of_result made;
  used ← tree_bytes memory_dir;
  required ← (if d_Action (rq_Draft r) =s "memory.evidence.import" then n ← tree_bytes root; mret (add64 n (8 * 2^20)) else mret (8 * 2^20));
  fs ← ask (HStatfs memory_dir);
  refuse short_of fs (add64 used required) (add64 required (32 * 2^20))
    with Plain "memory evidence storage budget/free-space reserve unavailable; retain evidence and archive only through reviewed offline maintenance" ;;
  let dir := path_join memory_dir (rq_ID r) in
  made ← ask (HMkdir dir 448); _ ← of_result made;
  synced ← ask (HSyncDir (po_StateDir policy)); _ ← of_result synced;
  synced ← ask (HSyncDir memory_dir); _ ← of_result synced;
  mret dir.

Definition planner_env : list string := environment policy ++ ["PYTHONDONTWRITEBYTECODE=1"].
(** The planner's run and the verification of what it wrote. *)
Definition generate (r : Request) (root digest dir : string) (s : MemorySummary) : Exec MemorySummary :=
  let d := rq_Draft r in let other := mr_OtherMiB (memory_request d) in
  m ← verify_bundle root digest;
  let output := path_join dir "output" in
  args ← memoryPlannerArgs root output m other;
  ran ← attempt (runFixed (workstationctl policy) args planner_env true "" (16 * 2^10));
  match ran with
  | Err _ => fault (Plain "memory planner refused or was interrupted; retained evidence needs complete matching cold/warm phases, pressure-free counters and conservative headroom; inspect owner collection records")
  | Ok _ =>
    _ ← verify_bundle root digest;
    checked ← attempt (memoryPreview d (rq_Desired r));
    let moved := Plain "memory identity changed during generation; output retained but not exportable" in
    match checked with
    | Err _ => fault moved
    | Ok checked =>
      refuse negb (bool_decide (ms_Preconditions checked = ms_Preconditions s)) with moved ;;
      f ← ask (HOutput output root (po_RuntimeRoot policy));
      s ← of_result (ValidateOutput Sum f root (po_RuntimeRoot policy) m other);
      synced ← ask (HSyncOutput output); _ ← of_result synced;
      mret (s |> set_ms_Identity (mr_EvidenceID (memory_request d)) digest |> set_ms_Preconditions (ms_Preconditions checked))
    end
  end.
Definition executeMemory (r : Request) : Exec string :=
  s ← memoryPreview (rq_Draft r) (rq_Desired r);
  input ← memoryInput (rq_Draft r);
  let '(root, digest) := input in
  dir ← admit_memory r root;
  s ← (if d_Action (rq_Draft r) =s "memory.evidence.import" then
      copied ← ask (HCopyMemory root (path_join dir "inputs") digest); _ ← of_result copied;
      mret (set_ms_Identity (rq_ID r) (Evidence.ms_SHA256 s) s)
    else generate r root digest dir s);
  let text := json_text (MemorySummary_json s) in
  saved ← ask (HPublish (path_join dir "summary.json") text 384); _ ← of_result saved;
  mret text.

(** ** Export of an artifact *)

Definition set_ar_Content x '(mkArtifact a b c d e _) := mkArtifact a b c d e x.
(** The result the helper itself wrote: its text has no member it does not know. *)
Definition retained_summary (data : option string) : option MemorySummary :=
  b ← data; v ← unmarshal b; dec_MemorySummary v MemorySummary0.
Definition MemoryArtifact (id name : string) : Exec Artifact :=
  refuse negb (validID id) || negb (PrivateName name) with Plain "unapproved memory artifact" ;;
  records ← ask HRecords;
  match records !! id with
  | None => fault (Plain "memory artifact requires proven helper completion")
  | Some r =>
    let d := hr_Draft r in
    refuse (hr_Action r <>s "memory.plan.export") || (hr_State r <>s "succeeded") with Plain "memory artifact requires proven helper completion" ;;
    _ ← memoryPreview d (rq_Desired (hr_Request r));
    input ← memoryInput d;
    let '(root, digest) := input in
    m ← verify_bundle root digest;
    let dir := path_join (path_join memory_dir id) "output" in
    f ← ask (HOutput dir root (po_RuntimeRoot policy));
    s ← of_result (ValidateOutput Sum f root (po_RuntimeRoot policy) m (mr_OtherMiB (memory_request d)));
    refuse match retained_summary (hs_Data (hr_Result r)) with Some retained => negb (bool_decide (ms_Artifacts s = ms_Artifacts retained)) | None => true end
      with Plain "memory artifact no longer matches durable helper result" ;;
    match List.find (λ a, ar_Name a =s name) (ms_Artifacts s) with
    | None => fault (Plain "memory artifact missing")
    | Some a =>
      b ← ask (HSafeRead (path_join dir name) (2 * 2^20)); b ← of_result b;
      mret (set_ar_Content b a)
    end
  end.
End HostMemory.
