(* ===== verification/HostPerf.v ===== *)
(** The helper's performance adapter ([internal/hostexec/performance.go]): the sealed bundle of
    a request, its inspection, the export under the storage budget, and reading an artifact. *)
From S2P Require Import MemoryBundle MemoryPlan PerfBundle.
From S2P Require Import Prelude Interact Json Tree Types Domain Safefile Config Wire Evidence HostPolicy HostExec Kube Runtime Inventory HostMemory.
#[local] Open Scope Z_scope.

(** The walk of [performanceInput]. *)
Fixpoint managed_tree (tree : list (option TreeEntry)) (entries : Z) : result unit :=
  match tree with
  | [] => Ok tt
  | None :: _ => Err (Plain "walk")
  | Some e :: tree =>
    let entries := entries + 1 in
    reject entries >? 40000 with Plain "performance managed tree entry bound exceeded" ;;
    reject negb (is_trusted (te_Trust e)) with Plain "untrusted" ;;
    managed_tree tree entries
  end.

(** ** Assignments to the summary *)

Definition set_ps_EvidenceID x '(mkPerformanceSummary a _ c d e f g h i j k) := mkPerformanceSummary a x c d e f g h i j k.
Definition set_ps_Preconditions x '(mkPerformanceSummary a b c d e f g h i _ k) := mkPerformanceSummary a b c d e f g h i x k.
Definition set_ps_ObservedAt x '(mkPerformanceSummary a b c d e f _ h i j k) := mkPerformanceSummary a b c d e f x h i j k.

(** The specification of a [profile-status] bundle. *)
Record ProfileSpec := mkProfileSpec { pf_Schema : Z; pf_Kind : string; pf_Selection : string; pf_CurrentIdentity : string }.
Definition dec_ProfileSpec : decoder ProfileSpec := dec_struct [
  at_key "schema" dec_int pf_Schema (λ x '(mkProfileSpec _ b c d), mkProfileSpec x b c d);
  at_key "kind" dec_string pf_Kind (λ x '(mkProfileSpec a _ c d), mkProfileSpec a x c d);
  at_key "selection" dec_string pf_Selection (λ x '(mkProfileSpec a b _ d), mkProfileSpec a b x d);
  at_key "current_identity" dec_string pf_CurrentIdentity (λ x '(mkProfileSpec a b c _), mkProfileSpec a b c x)].

Section HostPerf.
Context `{Sha256} `{TemplateHash} `{JSONText} `{JSONRender} `{AnyText} `{FloatText} `{RFC3339} `{TimeText} (Sum : string → string) (policy : Policy).

Definition performance_request (d : Draft) : PerformanceRequest := default PerformanceRequest0 (d_Performance d).
Definition source_of (d : Draft) : MemorySource := default (mkMemorySource "" "") (po_PerformanceSources policy !! pr_EvidenceID (performance_request d)).

Definition verify_performance (root digest : string) : Exec PerfBundle.Manifest :=
  b ← ask (HPerfBundle root); of_result (PerfBundle.Verify Sum b.1.1 b.1.2 b.2 digest).
Definition safe_read (path : string) (limit : Z) : Exec string := b ← ask (HSafeRead path limit); of_result b.

(** The boot an observed identity claims, when it claims one. *)
Definition claimed_boot (observed : gmap string JSON) : option string :=
  v ← observed !! "boot_id"; boot ← dec_string v ""; if boot_id boot then Some boot else None.
Definition profile_status (root : string) (m : PerfBundle.Manifest) : Exec unit :=
  let unsealed := Plain "profile status requires sealed current identity evidence" in
  data ← attempt (safe_read (path_join root "spec.json") (64 * 2^10));
  match (data ← data; Decode (λ v, dec_ProfileSpec v (mkProfileSpec 0 "" "" "")) (json_docs data)) with
  | Err _ => fault unsealed
  | Ok spec =>
    refuse negb (Relative (pf_CurrentIdentity spec)) || negb (Digest (PerfBundle.file_digest m (pf_CurrentIdentity spec))) with unsealed ;;
    data ← attempt (safe_read (path_join root (pf_CurrentIdentity spec)) (64 * 2^10));
    match (data ← data; Decode (λ v, dec_map JNull dec_raw v ∅) (json_docs data)) with
    | Err _ => fault (Plain "profile identity evidence unavailable")
    | Ok observed =>
      match claimed_boot observed with
      | None => mret tt
      | Some boot =>
        current ← ask (HRead boot_id_path);
        refuse match current with Some c => boot <>s TrimSpace c | None => true end
          with Plain "profile identity boot changed or unavailable; recollect, do not treat selection as current" ;;
        checkHardware policy
      end
    end
  end.
Definition performanceInput (d : Draft) : Exec (string * PerfBundle.Manifest) :=
  let s := source_of d in
  t ← ask (HTrusted (ms_Path s) true);
  refuse negb (is_trusted t) with Plain "untrusted" ;;
  tree ← ask (HTree (ms_Path s)); _ ← of_result (managed_tree tree 0);
  m ← verify_performance (ms_Path s) (ms_SHA256 s);
  refuse (pm_Kind m <>s pr_Kind (performance_request d)) || (pm_SourceRevision m <>s d_SourceRevision d) || (pm_Target m <>s po_Target policy)
    with Plain "performance bundle target, source or kind changed" ;;
  _ ← (if pm_Kind m =s "profile-status" then profile_status (ms_Path s) m else mret tt);
  mret (ms_Path s, m).

Definition read_summary (data : string) : result PerformanceSummary :=
  s ← Decode (λ v, dec_PerformanceSummary v PerformanceSummary0) (json_docs data);
  _ ← ValidateSummary s; Ok s.
Definition performancePreview (d : Draft) (c : Configuration) : Exec PerformanceSummary :=
  refuse negb (PerformanceAction (d_Action d)) || negb (is_ok (ValidatePerformanceRequest d)) with Plain "invalid typed performance request" ;;
  let q := performance_request d in
  _ ← revalidate policy (draft_request d c);
  verified ← ask HVerify; _ ← of_result verified;
  input ← performanceInput d;
  data ← attempt (runFixed (workstationctl policy) ["performance"; "inspect"; input.1; pr_EvidenceSHA256 q] (planner_env policy) false "" (32 * 2^10));
  match data with
  | Err _ => fault (Plain "installed performance inspector refused the sealed bundle; inspect private offline validation")
  | Ok data =>
    s ← of_result (read_summary data);
    refuse (ps_Kind s <>s pr_Kind q) || (ps_SHA256 s <>s pr_EvidenceSHA256 q) with Plain "performance inspector identity mismatch" ;;
    mret (s |> set_ps_EvidenceID (pr_EvidenceID q)
            |> set_ps_Preconditions (list_to_map [("performance_manifest", ps_SHA256 s); ("performance_source", cf_Revision c); ("performance_policy", policyRevision policy)]))
  end.
Definition PerformancePreview := performancePreview.

(** ** Export *)

Definition performance_dir : string := path_join (po_StateDir policy) "performance".
Definition admit_performance (r : Request) : Exec string :=
  made ← ask (HMakeDir performance_dir 448); _ ← of_result made;
  used ← tree_bytes performance_dir;
  fs ← ask (HStatfs performance_dir);
  refuse short_of fs (add64 (add64 used PerfBundle.MaxBundle) (64 * 2^20)) (PerfBundle.MaxBundle + 96 * 2^20)
    with Plain "performance evidence admission budget/free-space reserve unavailable; retain existing evidence" ;;
  let dir := path_join performance_dir (rq_ID r) in
  made ← ask (HMkdir dir 448); _ ← of_result made;
  synced ← ask (HSyncDir performance_dir); _ ← of_result synced;
  mret dir.
Definition export_args (r : Request) (input digest output : string) : list string :=
  ["--config"; po_WorkstationConfig policy; "performance"; "export"; input; digest; output; "--target"; po_Target policy;
   "--source-revision"; cf_Revision (rq_Desired r); "--owner"; rq_ExecutionIdentity r].
(** Each artifact is what the summary says of it. *)
Fixpoint check_outputs (output revision : string) (artifacts : list Artifact) : Exec unit :=
  match artifacts with
  | [] => mret tt
  | a :: artifacts =>
    b ← ask (HSafeRead (path_join output (ar_Name a)) MaxArtifact);
    refuse match b with
           | Ok b => (Sum b <>s ar_SHA256 a) || negb (str_len b =? ar_Size a) || (ar_SourceRevision a <>s revision)
           | Err _ => true
           end with Plain "performance output hash or source mismatch" ;;
    check_outputs output revision artifacts
  end.
Definition executePerformance (r : Request) : Exec string :=
  let d := rq_Draft r in
  s ← performancePreview d (rq_Desired r);
  input ← performanceInput d;
  dir ← admit_performance r;
  let inputs := path_join dir "inputs" in
  copied ← ask (HCopyPerformance input.1 inputs (ps_SHA256 s)); _ ← of_result copied;
  let output := path_join dir "output" in
  ran ← attempt (runFixed (workstationctl policy) (export_args r inputs (ps_SHA256 s) output) (planner_env policy) true "" (32 * 2^10));
  match ran with
  | Err _ => fault (Plain "performance analysis refused or interrupted; retained private inputs/output are not qualified; no workload, cache deletion or code execution was requested")
  | Ok _ =>
    checked ← attempt (performancePreview d (rq_Desired r));
    let moved := Plain "performance preconditions changed during analysis; output retained, not exportable" in
    match checked with
    | Err _ => fault moved
    | Ok checked =>
      refuse negb (bool_decide (ps_Preconditions checked = ps_Preconditions s)) with moved ;;
      b ← safe_read (path_join output "summary.json") (32 * 2^10);
      result ← of_result (read_summary b);
      refuse (ps_Kind result <>s ps_Kind s) || (ps_SHA256 result <>s ps_SHA256 s) with Plain "performance result identity mismatch" ;;
      now ← ask HNow;
      let result := result |> set_ps_EvidenceID (pr_EvidenceID (performance_request d)) |> set_ps_Preconditions (ps_Preconditions checked)
        |> set_ps_ObservedAt now in
      _ ← check_outputs output (cf_Revision (rq_Desired r)) (ps_Artifacts result);
      let text := json_text (PerformanceSummary_json result) in
      saved ← ask (HPublish (path_join dir "summary.json") text 384); _ ← of_result saved;
      mret text
    end
  end.

Definition PerformanceArtifact (id name : string) : Exec Artifact :=
  refuse negb (validID id) || negb (Relative name) with Plain "invalid performance artifact identity" ;;
  records ← ask HRecords;
  let unproven := Plain "performance artifact needs independent completed helper record" in
  match records !! id with
  | None => fault unproven
  | Some r =>
    refuse negb (PerformanceAction (hr_Action r)) || (hr_State r <>s "succeeded") with unproven ;;
    match read_summary (default "" (hs_Data (hr_Result r))) with
    | Err _ => fault (Plain "invalid retained performance summary")
    | Ok s =>
      if name =s "performance-summary.json" then
        let b := json_text (PerformanceSummary_json s) in
        mret (mkArtifact name (Sum b) (str_len b) (cf_Revision (rq_Desired (hr_Request r))) (ps_Status s) b)
      else match List.find (λ a, ar_Name a =s name) (ps_Artifacts s) with
      | None => fault (Plain "performance artifact not in independent result")
      | Some a =>
        let path := path_join (path_join (path_join performance_dir id) "output") name in
        t ← ask (HTrusted path false);
        refuse negb (is_trusted t) with Plain "untrusted" ;;
        b ← ask (HSafeRead path MaxArtifact);
        match b with
        | Ok b => refuse (Sum b <>s ar_SHA256 a) || negb (str_len b =? ar_Size a) with Plain "performance artifact changed; preserve evidence" ;; mret (set_ar_Content b a)
        | Err _ => fault (Plain "performance artifact changed; preserve evidence")
        end
      end
    end
  end.
End HostPerf.
