(* ===== verification/Baseline.v ===== *)
(** What the comparisons of the memory adapter ([HostMemory]) establish, in plain terms: the
    import a plan may use, the identity, budget, launch and shared memory of the live
    Deployment, the runtime an observation recorded, and the host a plan may be made for. *)
From S2P Require Import MemoryBundle MemoryPlan.
From S2P Require Import Prelude Json Tree Types Domain Wire Evidence HostPolicy HostExec Kube Runtime HostMemory.
From stdpp Require Import pretty.
#[local] Open Scope Z_scope.

Section Baseline.
Context `{Sha256} `{FloatText} `{JSONText} (policy : Policy).

(** ** The import *)

(** A record of the helper's journal that is a completed import of this evidence. *)
Record completed_import (d : Draft) (r : record) : Prop := {
  ci_action : d_Action (rq_Draft (hr_Request r)) = "memory.evidence.import";
  ci_state : hs_State (hr_Result r) = "succeeded";
  ci_target : d_Target (rq_Draft (hr_Request r)) = d_Target d;
  ci_digest : mr_EvidenceSHA256 (memory_request (rq_Draft (hr_Request r))) = mr_EvidenceSHA256 (memory_request d) }.
Lemma imported_completed d r : imported d r = true → completed_import d r.
Proof. unfold imported. intros Hi. bool_hyps. by split. Qed.

(** ** The Deployment *)

Definition of_policy (dep : JSON) : Prop :=
  str (Nested dep ["metadata"; "uid"]) = po_AIDeploymentUID policy ∧ str (Nested dep ["metadata"; "name"]) = po_AIDeployment policy ∧
  str (Nested dep ["metadata"; "namespace"]) = po_Namespace policy.
(** The live Deployment is the one of the policy and runs the recorded Pod template. *)
Definition as_recorded (live recorded : JSON) : Prop :=
  of_policy live ∧ of_policy recorded ∧ deep_equal (Nested live ["spec"; "template"]) (Nested recorded ["spec"; "template"]) = true.
Lemma identified_policy dep : identified policy dep = true → of_policy dep.
Proof. unfold identified. intros Hi. bool_hyps. done. Qed.
Lemma identity_recorded live recorded : memoryDeploymentIdentity policy live recorded = Ok tt → as_recorded live recorded.
Proof.
  unfold memoryDeploymentIdentity. intros Hi. split_hyp Hi. bool_hyps.
  split; [by apply identified_policy|]. split; [by apply identified_policy|done].
Qed.

(** The container has the budget of the source, the requests equal to the limits. *)
Definition budgeted (c : Configuration) (container : JSON) : Prop :=
  let limits := Nested container ["resources"; "limits"] in
  MiB (Nested limits ["memory"]) = Some (rs_MemoryMiB (cf_Resources c)) ∧
  SpecFloat.SFeqb (number (Nested limits ["cpu"])) (float_of (rs_CPU (cf_Resources c))) = true ∧
  SpecFloat.SFeqb (number (Nested limits ["amd.com/gpu"])) (float_of (rs_GPUCount (cf_Resources c))) = true ∧
  deep_equal (Nested container ["resources"; "requests"]) limits = true.
Lemma budget_ok c container : baseline_budget c container = true → budgeted c container.
Proof.
  unfold baseline_budget, budgeted. cbv zeta. intros Hb. bool_hyps. destruct (MiB (Nested (get "resources" container) ["limits"; "memory"])) as [n|] eqn:Hm; [|done].
  bool_hyps. subst. cbn in *. done.
Qed.

(** The settings of the source, each with its flag and its variable. *)
Definition managed (q : Qualification) (c : Configuration) : list (string * string * string) := [
  ("--model-path", "MODEL_PATH", qf_ModelPath q); ("--revision", "MODEL_REVISION", qf_ModelRevision q);
  ("--served-model-name", "SERVED_MODEL_NAME", sv_Model (cf_Serving c)); ("--context-length", "CONTEXT_LENGTH", pretty (sv_Context (cf_Serving c)));
  ("--max-running-requests", "MAX_RUNNING_REQUESTS", pretty (sv_Concurrency (cf_Serving c)));
  ("--tp", "TENSOR_PARALLEL", pretty (rs_GPUCount (cf_Resources c))); ("--mem-fraction-static", "MEM_FRACTION_STATIC", format_float (sv_MemoryFraction (cf_Serving c)))].
(** An argument sets the flag: with its value behind an equals sign, or in the next argument. *)
Definition launched_with (values : gmap string string) (args : list JSON) (flag value : string) : Prop :=
  ∃ i a, args !! i = Some a ∧
    ((∃ v, cut (str a) "=" = (flag, v, true) ∧ expand values v = value) ∨
     (∃ v b, cut (str a) "=" = (flag, v, false) ∧ args !! S i = Some b ∧ expand values (str b) = value)).
Lemma launched_later values args flag value a : launched_with values args flag value → launched_with values (a :: args) flag value.
Proof. intros (i & x & Hi & Hx). exists (S i), x. split; [done|]. destruct Hx as [?|(v & b & ? & ? & ?)]; [by left|right]. by exists v, b. Qed.
Lemma check_launch_ok expected values n : ∀ args seen seen', (length args ≤ n)%nat → check_launch expected values args seen = Ok seen' →
  ∀ flag, flag ∈ seen' → flag ∈ seen ∨ ∃ value, expected !! flag = Some value ∧ launched_with values args flag value.
Proof.
  induction n as [|n IH]; intros [|arg args] seen seen' Hn Hc flag Hf; cbn [check_launch length] in *; try (injection Hc as <-; by left); [lia|].
  destruct (cut (str arg) "=") as [[f v] equals] eqn:Hcut. destruct (_ || _) in Hc; [done|].
  assert (∀ seen', check_launch expected values args seen = Ok seen' → flag ∈ seen' → flag ∈ seen ∨ ∃ value, expected !! flag = Some value ∧ launched_with values (arg :: args) flag value) as Hskip.
  { intros s1 Hs Hin. destruct (IH args seen s1 ltac:(lia) Hs flag Hin) as [|(value & ? & ?)]; [by left|right]. exists value. split; [done|by apply launched_later]. }
  destruct (expected !! f) as [want|] eqn:Hw; [|by eapply Hskip]. destruct (str_in f seen); [done|]. destruct equals.
  - destruct (String.eqb_spec (expand values v) want) as [He|]; [|done]. cbn [negb] in Hc.
    destruct (IH args (f :: seen) seen' ltac:(lia) Hc flag Hf) as [[->|]%elem_of_cons|(value & ? & ?)]; [|by left|].
    + right. exists want. split; [done|]. exists 0%nat, arg. split; [done|]. left. by exists v.
    + right. exists value. split; [done|by apply launched_later].
  - destruct args as [|b args]; [done|]. cbn [length] in Hn. destruct (String.eqb_spec (expand values (str b)) want) as [He|]; [|done]. cbn [negb] in Hc.
    destruct (IH args (f :: seen) seen' ltac:(lia) Hc flag Hf) as [[->|]%elem_of_cons|(value & ? & ?)]; [|by left|].
    + right. exists want. split; [done|]. exists 0%nat, arg. split; [done|]. right. by exists v, b.
    + right. exists value. split; [done|by do 2 apply launched_later].
Qed.
(** The container is launched with every setting of the source, and with the CPU offload of the
    source when there is one. *)
Definition launched_as (q : Qualification) (c : Configuration) (values : gmap string string) (container : JSON) : Prop :=
  (∀ flag variable value, (flag, variable, value) ∈ managed q c → launched_with values (list_of (get "args" container)) flag value) ∧
  (sv_CPUOffloadGiB (cf_Serving c) ≠ 0 → launched_with values (list_of (get "args" container)) "--cpu-offload-gb" (pretty (sv_CPUOffloadGiB (cf_Serving c)))).
Lemma flags_distinct q c : NoDup (("--cpu-offload-gb", pretty (sv_CPUOffloadGiB (cf_Serving c))) :: ((λ w : string * string * string, (w.1.1, w.2)) <$> managed q c)).*1.
Proof. cbn [managed fmap list_fmap fst snd]. apply (bool_decide_unpack _). vm_compute. exact I. Qed.
Lemma launch_ok q c values container : baseline_launch q c values container = Ok tt → launched_as q c values container.
Proof.
  unfold baseline_launch. intros (seen & Hs & Hr)%bind_ok. destruct (forallb _ _) eqn:Hall; [|done]. clear Hr.
  assert (∀ flag value, (flag, value) ∈ ("--cpu-offload-gb", pretty (sv_CPUOffloadGiB (cf_Serving c))) :: ((λ w : string * string * string, (w.1.1, w.2)) <$> managed q c) →
    flag ≠ "--cpu-offload-gb" ∨ sv_CPUOffloadGiB (cf_Serving c) ≠ 0 → launched_with values (list_of (get "args" container)) flag value) as Hf.
  { intros flag value Hi Hne. assert (launch_flags q c !! flag = Some value) as Hl by (apply elem_of_list_to_map_1; [apply flags_distinct|exact Hi]).
    pose proof Hl as Hin. apply elem_of_map_to_list, list_elem_of_In in Hin. rewrite forallb_forall in Hall. specialize (Hall _ Hin) as K. cbn [fst] in K.
    apply orb_true_iff in K as [K|K].
    - apply str_in_spec in K. pose proof (check_launch_ok (launch_flags q c) values (length (list_of (get "args" container))) (list_of (get "args" container)) [] seen ltac:(lia) Hs flag K) as [Hn|(v & Hv & Hw)].
      + exact (False_ind _ (proj1 (elem_of_nil _) Hn)).
      + pose proof (eq_trans (eq_sym Hl) Hv) as [= ->]. exact Hw.
    - clear Hl Hin Hs. bool_hyps. destruct Hne as [Hne|Hne]; [done|]. lia. }
  clear Hs Hall. split.
  - intros flag variable value Hi. apply Hf.
    + apply elem_of_cons. right. apply list_elem_of_fmap. by exists (flag, variable, value).
    + left. intros ->. unfold managed in Hi. repeat (apply elem_of_cons in Hi as [[=]|Hi]). by apply elem_of_nil in Hi.
  - intros Hn. apply Hf; [apply list_elem_of_here|by right].
Qed.

(** The shared memory of the Pod is a memory volume of the size of the source. *)
Definition shared (shm : Z) (volumes : list JSON) : Prop :=
  (∃ v, v ∈ volumes ∧ str (get "name" v) = "shm") ∧
  ∀ v, v ∈ volumes → str (get "name" v) = "shm" → MiB (Nested v ["emptyDir"; "sizeLimit"]) = Some shm ∧ str (Nested v ["emptyDir"; "medium"]) = "Memory".
Lemma shm_walk shm volumes : ∀ found, baseline_shm shm volumes found = Ok true →
  (found = true ∨ ∃ v, v ∈ volumes ∧ str (get "name" v) = "shm") ∧
  ∀ v, v ∈ volumes → str (get "name" v) = "shm" → MiB (Nested v ["emptyDir"; "sizeLimit"]) = Some shm ∧ str (Nested v ["emptyDir"; "medium"]) = "Memory".
Proof.
  induction volumes as [|x volumes IH]; intros found; cbn [baseline_shm].
  { intros [= ->]. split; [by left|]. intros v Hv. by apply elem_of_nil in Hv. }
  destruct (String.eqb_spec (str (get "name" x)) "shm") as [Hx|Hx].
  - destruct (_ || _) eqn:Hb; [done|]. intros [_ Hv]%IH. split; [right; exists x; split; [apply list_elem_of_here|done]|].
    intros v [->|Hi]%elem_of_cons Hn; [|by apply Hv]. bool_hyps. destruct (MiB _) as [n|]; [|done]. bool_hyps. by subst.
  - intros [Hf Hv]%IH. split.
    + destruct Hf as [|(v & ? & ?)]; [by left|right]. exists v. split; [by apply list_elem_of_further|done].
    + intros v [->|Hi]%elem_of_cons Hn; [done|by apply Hv].
Qed.
Lemma shm_ok shm volumes : baseline_shm shm volumes false = Ok true → shared shm volumes.
Proof. intros [[[=]|Hs] Hv]%shm_walk. by split. Qed.

(** ** The observed runtime *)

(** An observation was made of the qualified model files, under the settings of the source, in
    its variables and in every launch row, on as many distinct GPUs as the source allocates. *)
Record observed_as (q : Qualification) (c : Configuration) (runtime : JSON) : Prop := {
  ob_files : ∀ name digest, qf_Files q !! name = Some digest → str (Nested (get "model_files" runtime) [name; "sha256"]) = digest;
  ob_settings : ∀ flag variable value, (flag, variable, value) ∈ managed q c →
    str (get variable (get "settings" runtime)) = value ∧ ∀ row, row ∈ list_of (get "launch" runtime) → str (get flag row) = value;
  ob_launched : list_of (get "launch" runtime) ≠ [];
  ob_offload : sv_CPUOffloadGiB (cf_Serving c) = 0;
  ob_devices : Z.of_nat (length (list_of (get "devices" runtime))) = rs_GPUCount (cf_Resources c) ∧
    NoDup ((λ d, str (get "uuid" d)) <$> list_of (get "devices" runtime)) }.
Lemma gpus_distinct devices : ∀ seen, gpu_identities devices seen = true →
  NoDup ((λ d, str (get "uuid" d)) <$> devices) ∧ ∀ d, d ∈ devices → str (get "uuid" d) ∉ seen.
Proof.
  induction devices as [|d devices IH]; intros seen; cbn [gpu_identities fmap list_fmap]; [split; [constructor|intros d Hd; by apply elem_of_nil in Hd]|].
  intros [Hd [Hn Hs]%IH]%andb_true_iff. bool_hyps. split.
  - apply NoDup_cons. split; [|done]. intros (x & Hx & Hi)%list_elem_of_fmap. apply (Hs x Hi). rewrite <- Hx. apply list_elem_of_here.
  - intros x [->|Hi]%elem_of_cons; [|intros Hin; apply (Hs x Hi); by apply list_elem_of_further].
    intros Hin%str_in_spec. congruence.
Qed.
Lemma runtime_observed q c runtime : runtime_matches q c runtime = Ok tt → observed_as q c runtime.
Proof.
  unfold runtime_matches, model_files. cbv zeta. intros ([] & Hm & Hr)%bind_ok. split_hyp Hm. split_hyp Hr. bool_hyps.
  split.
  - intros name digest Hq%elem_of_map_to_list%list_elem_of_In. match goal with Hall : forallb (λ nh, _) _ = true |- _ => pose proof (proj1 (forallb_forall _ _) Hall (name, digest) Hq) as K end.
    cbn [fst snd] in K. by apply String.eqb_eq in K.
  - intros flag variable value Hi%list_elem_of_In. split.
    + match goal with Hs : forallb (λ w, str (get w.1.2 _) =s w.2) _ = true |- _ => pose proof (proj1 (forallb_forall _ _) Hs _ Hi) as K end. by apply String.eqb_eq in K.
    + intros row Hrow%list_elem_of_In. match goal with Hl : forallb (λ row, forallb _ _) _ = true |- _ => pose proof (proj1 (forallb_forall _ _) Hl _ Hrow) as K end.
      pose proof (proj1 (forallb_forall _ _) K _ Hi) as K'. by apply String.eqb_eq in K'.
  - by destruct (list_of (get "launch" runtime)).
  - done.
  - split; [done|]. match goal with Hg : gpu_identities _ _ = true |- _ => apply gpus_distinct in Hg as [Hg _]; exact Hg end.
Qed.

(** ** The host *)

(** Whole cores of a known topology, the exclusive CPU policy, and no more memory taken by
    others than the request declares. *)
Record host_for (d : Draft) (c : Configuration) (h : Hardware) : Prop := {
  hf_topology : hw_TopologyKnown h = true ∧ 1 ≤ hw_SMTWidth h ∧ Z.rem (rs_CPU (cf_Resources c)) (hw_SMTWidth h) = 0;
  hf_policy : hw_CPUManagerPolicy h = "static" ∧ hw_FullPCPUsOnly h = true;
  hf_other : hw_OtherMemoryMiB h ≤ mr_OtherMiB (memory_request d) }.
Lemma host_fits_ok d c h : host_fits d c h = true → host_for d c h.
Proof. unfold host_fits. intros Hf. bool_hyps. split; [split_and!; [done|lia|lia]|done|lia]. Qed.
(** The resource plan of the evidence describes this host: its total, and no more allocatable
    than the reserves leave. *)
Definition describes (h : Hardware) (resource : JSON) : Prop :=
  ∃ total allocatable, Nested resource ["memory"; "total_mib"] = JFloat total ∧ int64_of total = hw_MemoryMiB h ∧
    Nested resource ["memory"; "allocatable_mib"] = JFloat allocatable ∧
    int64_of allocatable ≤ sub64 (sub64 (hw_MemoryMiB h) (hw_HostReserveMiB h)) (hw_KubeReserveMiB h).
Lemma allocatable_describes h resource n : allocatable_mib h resource = Some n → describes h resource.
Proof.
  unfold allocatable_mib, describes. generalize (Nested resource ["memory"; "total_mib"]), (Nested resource ["memory"; "allocatable_mib"]). intros total alloc.
  destruct total as [| | |x| | | |], alloc as [| | |y| | | |]; cbn -[int64_of sub64 SpecFloat.SFleb]; try discriminate.
  destruct (_ || _) eqn:Hb; [done|]. bool_hyps. intros _. exists x, y. split_and!; [done|lia|done|lia].
Qed.
(** At least four observations, each with all its files sealed. *)
Definition enough (m : MemoryBundle.Manifest) : Prop :=
  4 ≤ Z.of_nat (length (mf_Observations m)) ∧ ∀ id f, id ∈ mf_Observations m → f ∈ ObservationFiles → ∃ digest, mf_Files m !! observation_file id f = Some digest.
Lemma complete_enough m : Complete m = true → enough m.
Proof.
  unfold Complete. intros [Hn Hall]%andb_true_iff. bool_hyps. split; [lia|]. intros id f Hi%list_elem_of_In Hf%list_elem_of_In.
  pose proof (proj1 (forallb_forall _ _) Hall _ Hi) as K. pose proof (proj1 (forallb_forall _ _) K _ Hf) as K'. unfold file_digest in K'.
  destruct (mf_Files m !! observation_file id f) as [x|]; [by exists x|done].
Qed.
End Baseline.
