(* ===== verification/Exports.v ===== *)
(** The evidence adapters of the helper: what a preview, an intake and an export saw before they
    answered, and that the evidence storage stays within its budget. *)
From S2P Require Import MemoryBundle Window MemoryPlan PerfBundle.
From S2P Require Import Prelude Interact Json Tree Types Domain Safefile Source Config Wire Evidence HostPolicy HostExec Kube Runtime Inventory Runs HostMemory HostPerf Baseline.
#[local] Open Scope Z_scope.
Create Rewrite HintDb summary.

(** ** Making room for evidence *)

(** The creation of a directory for new evidence. *)
Definition making (e : HostAct) : bool := match e with HMkdir _ _ => true | _ => false end.
Lemma reads_making {A} (m : Exec A) : reads m → quiet making m.
Proof. apply quiet_weaken. by intros []. Qed.
#[export] Hint Resolve reads_making : effects.

(** Sizes a file system can report, and what a tree stores. *)
Definition sized (tree : list (option TreeEntry)) : Prop := Forall (λ e, 0 ≤ te_Size e ≤ 2^62) (omap id tree).
Fixpoint stored (tree : list (option TreeEntry)) : Z :=
  match tree with
  | [] => 0
  | Some e :: tree => (if te_Dir e then 0 else te_Size e) + stored tree
  | None :: tree => stored tree
  end.
Lemma stored_nonneg tree : sized tree → 0 ≤ stored tree.
Proof.
  unfold sized. induction tree as [|[e|] tree IH]; cbn [omap list_omap id stored]; intros Hs; [lia| |by apply IH].
  apply Forall_cons in Hs as [He Hs]. specialize (IH Hs). destruct (te_Dir e); lia.
Qed.
(** The count is exact: the bound is checked before a sum could wrap. *)
Lemma memoryTreeBytes_exact tree : ∀ entries size n, sized tree → 0 ≤ size ≤ 2^32 → memoryTreeBytes tree entries size = Ok n →
  n = size + stored tree ∧ 0 ≤ n ≤ 2^32.
Proof.
  induction tree as [|[e|] tree IH]; intros entries size n Hs Hsize; cbn [memoryTreeBytes stored]; [intros [= <-]; lia| |done].
  apply Forall_cons in Hs as [He Hs]. destruct (_ || te_Symlink e); [done|].
  destruct (te_Dir e); [intros Hr; destruct (IH _ _ _ Hs Hsize Hr); lia|]. destruct (_ || _); [done|].
  rewrite add64_id by (unfold in_int64; lia). destruct (size + te_Size e >? 2^32) eqn:Hb; [done|]. intros Hr.
    assert (0 ≤ size + te_Size e ≤ 2 ^ 32) as Hn by lia. destruct (IH _ _ _ Hs Hn Hr) as [-> ?]. lia.
Qed.

(** What was measured before: the storage, with [needed] more, stays within four GiB, and the
    file system has room for it and for a reserve. *)
Definition measured (h : list host_event) : Prop := ∀ root tree, ev (HTree root) tree ∈ h → sized tree.
Definition within (h : list host_event) (parent : string) (needed reserve : Z) : Prop :=
  ∃ tree fs, ev (HTree parent) tree ∈ h ∧ ev (HStatfs parent) (Some fs) ∈ h ∧ stored tree + needed ≤ 2^32 ∧ needed + reserve ≤ free_bytes fs.

Section Exports.
Context `{Sha256} `{TemplateHash} `{JSONText} `{JSONRender} `{AnyText} `{FloatText} `{RFC3339} `{TimeText} (Sum : string → string) (policy : Policy).
#[local] Hint Resolve reads_get reads_deployment reads_qualify reads_revalidate reads_hardware reads_snapshot : effects.

(** ** Previews only read *)

Lemma reads_input d : reads (memoryInput policy d).
Proof. unfold memoryInput. quiet. Qed.
Lemma reads_bundle root digest : reads (verify_bundle root digest).
Proof. unfold verify_bundle. quiet. Qed.
Lemma reads_telemetry root m : reads (read_telemetry root m).
Proof. unfold read_telemetry. quiet. Qed.
Lemma reads_raw path : reads (raw_json path).
Proof. unfold raw_json. quiet. Qed.
#[local] Hint Resolve reads_input reads_bundle reads_telemetry reads_raw : effects.
Lemma reads_runtime runtime c : reads (memoryRuntime policy runtime c).
Proof. unfold memoryRuntime. quiet. Qed.
Lemma reads_runtimes root c ids : reads (check_runtimes policy root c ids).
Proof. induction ids; cbn [check_runtimes]; quiet. apply reads_runtime. Qed.
Lemma reads_targets root target ids : reads (memoryObservationTargets root target ids).
Proof. induction ids; cbn [memoryObservationTargets]; quiet. Qed.
Lemma reads_env from : ∀ values, reads (env_from policy from values).
Proof. induction from; intros values; cbn [env_from]; quiet. Qed.
#[local] Hint Resolve reads_runtimes reads_targets reads_env : effects.
Lemma reads_baseline dep c : reads (memoryBaseline policy dep c).
Proof. unfold memoryBaseline. quiet. Qed.
#[local] Hint Resolve reads_baseline : effects.
Lemma reads_preflight d c root m deployment s : reads (export_preflight policy d c root m deployment s).
Proof. unfold export_preflight. quiet. Qed.
#[local] Hint Resolve reads_preflight : effects.
Lemma reads_planning d c root digest m t s : reads (planning Sum policy d c root digest m t s).
Proof. unfold planning. quiet. Qed.
Lemma reads_intake c root digest m t reason s : reads (intake policy c root digest m t reason s).
Proof. unfold intake. quiet. Qed.
#[local] Hint Resolve reads_planning reads_intake : effects.
Lemma reads_memoryPreview d c : reads (memoryPreview Sum policy d c).
Proof. unfold memoryPreview. quiet. Qed.
#[local] Hint Resolve reads_memoryPreview : effects.
Lemma reads_tree root : reads (tree_bytes root).
Proof. unfold tree_bytes. quiet. Qed.
Lemma reads_args root output m other : reads (memoryPlannerArgs root output m other).
Proof. unfold memoryPlannerArgs. quiet. Qed.
#[local] Hint Resolve reads_tree reads_args : effects.
Lemma reads_safe path limit : reads (safe_read path limit).
Proof. unfold safe_read. quiet. Qed.
Lemma reads_performance root digest : reads (verify_performance Sum root digest).
Proof. unfold verify_performance. quiet. Qed.
#[local] Hint Resolve reads_safe reads_performance : effects.
Lemma reads_status root m : reads (profile_status policy root m).
Proof. unfold profile_status. quiet. Qed.
#[local] Hint Resolve reads_status : effects.
Lemma reads_performanceInput d : reads (performanceInput Sum policy d).
Proof. unfold performanceInput. quiet. Qed.
#[local] Hint Resolve reads_performanceInput : effects.
Lemma reads_performancePreview d c : reads (performancePreview Sum policy d c).
Proof.
  unfold performancePreview. quiet.
  apply quiet_run. done.
Qed.
Lemma reads_outputs output revision l : reads (check_outputs Sum output revision l).
Proof. induction l; cbn [check_outputs]; quiet. Qed.
#[local] Hint Resolve reads_performancePreview reads_outputs : effects.

(** ** Intake, planning and export change no workload *)

Lemma planner_args root output m other s h s' args : runs (memoryPlannerArgs root output m other) s h s' (Ok args) →
  ∃ rest, args = "rocm" :: "serving-memory-plan" :: rest.
Proof. unfold memoryPlannerArgs. intros Hr. peel Hr. by eexists. Qed.
Lemma looks_admit r root : looks (admit_memory policy r root).
Proof. unfold admit_memory. quiet. Qed.
(** The planner's command is never a session switch or a replacement. *)
Ltac generates :=
  unfold generate; apply quiet_bind; [quiet|]; intros m; cbn beta zeta; apply quiet_then; [quiet|];
  intros s h s' args (rest & ->)%planner_args; quiet; by apply quiet_run.
Lemma looks_generate r root digest dir sm : looks (generate Sum policy r root digest dir sm).
Proof. generates. Qed.
Lemma generate_makes_none r root digest dir sm : quiet making (generate Sum policy r root digest dir sm).
Proof. generates. Qed.
#[local] Hint Resolve looks_admit looks_generate : effects.
Lemma looks_executeMemory r : looks (executeMemory Sum policy r).
Proof. unfold executeMemory. quiet. Qed.
Lemma looks_executePerformance r : looks (executePerformance Sum policy r).
Proof. unfold executePerformance, admit_performance. quiet. by apply quiet_run. Qed.

(** ** The storage budget *)

(** The room an operation needs: its own copy of the evidence and its result. *)
Definition admitted (r : Request) (e : HostAct) (h : list host_event) : Prop :=
  match e with
  | HMkdir path _ => measured h →
    if MemoryAction (d_Action (rq_Draft r)) then
      path = path_join (memory_dir policy) (rq_ID r) ∧
      if d_Action (rq_Draft r) =s "memory.evidence.import"
      then ∃ source tree, po_MemorySources policy !! mr_EvidenceID (memory_request (rq_Draft r)) = Some source ∧
        ev (HTree (ms_Path source)) tree ∈ h ∧ within h (memory_dir policy) (stored tree + 8 * 2^20) (32 * 2^20)
      else within h (memory_dir policy) (8 * 2^20) (32 * 2^20)
    else path = path_join (performance_dir policy) (rq_ID r) ∧
      within h (performance_dir policy) (PerfBundle.MaxBundle + 64 * 2^20) (32 * 2^20)
  | _ => True
  end.

Lemma tree_bytes_ok root s h s' n : runs (tree_bytes root) s h s' (Ok n) → ∃ tree, ev (HTree root) tree ∈ h ∧ memoryTreeBytes tree 0 0 = Ok n.
Proof. unfold tree_bytes. intros Hr. peel Hr. eexists. split; [by left|done]. Qed.
Lemma preceded_ask P J h0 e : (P e = true → J e h0) → preceded P J h0 (ask e).
Proof.
  intros HJ s h s' r (v & -> & _)%runs_ask h1 i h2 Heq Hi. destruct h1 as [|j h1]; injection Heq; [|by destruct h1].
  intros <- <-. rewrite app_nil_r. by apply HJ.
Qed.

Lemma admit_memory_admitted r root h0 :
  MemoryAction (d_Action (rq_Draft r)) = true →
  ((d_Action (rq_Draft r) =s "memory.evidence.import") = true →
     ∃ source, po_MemorySources policy !! mr_EvidenceID (memory_request (rq_Draft r)) = Some source ∧ ms_Path source = root) →
  preceded making (admitted r) h0 (admit_memory policy r root).
Proof.
  intros Hm Hsrc. unfold admit_memory.
  apply after_check; [quiet|]. intros s1 h1 made _. cbn beta.
  apply after_check; [quiet|]. intros s2 h2 [] _.
  apply after_check; [quiet|]. intros s3 h3 used (tree & Ht & Hu)%tree_bytes_ok.
  apply after_check; [quiet|]. intros s4 h4 required Hreq.
  apply after_check; [quiet|]. intros s5 h5 fs (v & -> & _ & [= <-])%runs_ask.
  match goal with |- preceded _ _ _ (if ?c then _ else _) => destruct c eqn:Hshort end; [apply after_quiet, (quiet_of making (Err _))|].
  cbn zeta. apply after_bind; [|intros; apply after_quiet; quiet]. apply (preceded_ask making (admitted r) _ (HMkdir (path_join (memory_dir policy) (rq_ID r)) 448)). intros _ Hms. rewrite Hm. split; [done|].
  destruct fs as [fs|]; [|done]. cbn in Hshort. apply orb_false_iff in Hshort as [Hs1 Hs2].
  assert (ev (HStatfs (memory_dir policy)) (Some fs) ∈ ((((h0 ++ h1) ++ h2) ++ h3) ++ h4) ++ [ev (HStatfs (memory_dir policy)) (Some fs)]) as Hfs by set_solver.
  assert (∃ t, ev (HTree (memory_dir policy)) t ∈ ((((h0 ++ h1) ++ h2) ++ h3) ++ h4) ++ [ev (HStatfs (memory_dir policy)) (Some fs)] ∧ stored t = used ∧ 0 ≤ used ≤ 2^32) as (t & Hin & Hst & Hrange).
  { exists tree. assert (ev (HTree (memory_dir policy)) tree ∈ ((((h0 ++ h1) ++ h2) ++ h3) ++ h4) ++ [ev (HStatfs (memory_dir policy)) (Some fs)]) as Hin by set_solver.
    destruct (memoryTreeBytes_exact tree 0 0 used (Hms _ _ Hin) ltac:(lia) Hu). split; [done|]. lia. }
  clear Ht Hu. destruct (d_Action (rq_Draft r) =s "memory.evidence.import") eqn:Hi.
  - destruct (Hsrc eq_refl) as (source & Hsource & <-).
    apply runs_bind in Hreq as [(e & [=] & _)|(ha & sa & n & hb & -> & (st & Hst' & Hn)%tree_bytes_ok & (-> & _ & [= ->])%runs_ret)].
    exists source, st. split; [done|].
    assert (ev (HTree (ms_Path source)) st ∈ ((((h0 ++ h1) ++ h2) ++ h3) ++ ha ++ []) ++ [ev (HStatfs (memory_dir policy)) (Some fs)]) as Hin' by set_solver.
    destruct (memoryTreeBytes_exact st 0 0 n (Hms _ _ Hin') ltac:(lia) Hn) as [Hn1 Hn2]. split; [done|].
    rewrite !add64_id in Hs1, Hs2 by (rewrite ?add64_id by (unfold in_int64; lia); unfold in_int64; lia).
    exists t, fs. split_and!; [done..|lia|lia].
  - apply runs_ret in Hreq as (-> & _ & [= ->]). rewrite !add64_id in Hs1, Hs2 by (unfold in_int64; lia).
    exists t, fs. split_and!; [done..|lia|lia].
Qed.
#[local] Hint Resolve generate_makes_none : effects.
Lemma import_source d s h s' root digest : runs (memoryInput policy d) s h s' (Ok (root, digest)) → (d_Action d =s "memory.evidence.import") = true →
  ∃ source, po_MemorySources policy !! mr_EvidenceID (memory_request d) = Some source ∧ ms_Path source = root.
Proof.
  unfold memoryInput. intros Hr Hi. rewrite Hi in Hr. destruct (po_MemorySources policy !! _) as [source|]; [|by apply runs_fault in Hr as (_ & _ & [=])].
  destruct (ms_SHA256 source <>s _); [by apply runs_fault in Hr as (_ & _ & [=])|]. apply runs_ret in Hr as (_ & _ & [= -> _]). by exists source.
Qed.
Lemma executeMemory_admitted r h0 : MemoryAction (d_Action (rq_Draft r)) = true → preceded making (admitted r) h0 (executeMemory Sum policy r).
Proof.
  intros Hm. unfold executeMemory. apply after_check; [quiet|]. intros s1 h1 sm _.
  apply after_check; [quiet|]. intros s2 h2 [root digest] Hin. apply after_bind.
  - apply admit_memory_admitted; [done|]. intros Hi. eapply import_source; [exact Hin|done].
  - intros s3 h3 s4 dir _. apply after_quiet. quiet.
Qed.
Lemma executePerformance_admitted r h0 : MemoryAction (d_Action (rq_Draft r)) = false → preceded making (admitted r) h0 (executePerformance Sum policy r).
Proof.
  intros Hm. unfold executePerformance. apply after_check; [quiet|]. intros s1 h1 sm _.
  apply after_check; [quiet|]. intros s2 h2 input _. apply after_bind; [|intros s3 h3 s4 dir _; apply after_quiet; quiet; by apply quiet_run].
  unfold admit_performance. apply after_check; [quiet|]. intros s3 h3 made _.
  apply after_check; [quiet|]. intros s4 h4 [] _.
  apply after_check; [quiet|]. intros s5 h5 used (tree & Ht & Hu)%tree_bytes_ok.
  apply after_check; [quiet|]. intros s6 h6 fs (v & -> & _ & [= <-])%runs_ask.
  match goal with |- preceded _ _ _ (if ?c then _ else _) => destruct c eqn:Hshort end; [apply after_quiet, (quiet_of making (Err _))|].
  cbn zeta. apply after_bind; [|intros; apply after_quiet; quiet].
  apply (preceded_ask making (admitted r) _ (HMkdir (path_join (performance_dir policy) (rq_ID r)) 448)). intros _ Hms. rewrite Hm. split; [done|].
  destruct fs as [fs|]; [|done]. cbn in Hshort. apply orb_false_iff in Hshort as [Hs1 Hs2].
  match goal with |- within ?h _ _ _ => assert (ev (HTree (performance_dir policy)) tree ∈ h) as Hin by set_solver end.
  destruct (memoryTreeBytes_exact tree 0 0 used (Hms _ _ Hin) ltac:(lia) Hu) as [-> ?].
  unfold PerfBundle.MaxBundle in *. rewrite !add64_id in Hs1 by (rewrite ?add64_id by (unfold in_int64; lia); unfold in_int64; lia).
  exists tree, fs. split_and!; [done|set_solver|lia|lia].
Qed.

(** ** What an exported plan rests on *)

(** The evidence of a planned export: sealed under the digest of an import that the helper
    itself completed, for this source, this hardware and this boot. *)
Record sealed_evidence (d : Draft) (c : Configuration) (root digest : string) (m : MemoryBundle.Manifest) (h : list host_event) : Prop := {
  se_import : ∃ records r, ev HRecords records ∈ h ∧ records !! mr_EvidenceID (memory_request d) = Some r ∧ completed_import d r;
  se_root : root = path_join (path_join (memory_dir policy) (mr_EvidenceID (memory_request d))) "inputs" ∧ digest = mr_EvidenceSHA256 (memory_request d);
  se_bundle : ∃ b, ev (HBundle root) b ∈ h ∧ MemoryBundle.Verify b.1 b.2 digest = Ok m;
  se_complete : enough m;
  se_revision : mf_SourceRevision m = cf_Revision c;
  se_hardware : hardware_current policy h ∧ (∃ n, ev (HHashFile (po_HardwarePath policy)) (Some (mf_HardwareSHA256 m, n)) ∈ h) ∧
    ∃ boot, ev (HRead (hardware_boot policy)) (Some boot) ∈ h ∧ TrimSpace boot = mf_BootID m;
  se_telemetry : ∃ e t, ev (HTelemetry root) e ∈ h ∧ MemoryBundle.Telemetry m e = Ok t ∧
    ∀ a, t = Some a → ta_ReserveMiB a ≤ mr_OtherMiB (memory_request d);
  se_windows : ∃ f rows, ev (HObserve root) f ∈ h ∧ Observe f m (rs_MemoryMiB (cf_Resources c)) (rs_SharedMemoryMiB (cf_Resources c)) = (rows, Ok tt) }.
(** The variables of a container: those of the ConfigMaps it names, in order, then its own. *)
Definition environment_of_container (container : JSON) (h : list host_event) (values : gmap string string) : Prop :=
  ∃ maps, Forall2 (λ ref cm, is_null (get "prefix" ref) = true ∧ observed policy h (get_object policy "configmap" (str (Nested ref ["configMapRef"; "name"]))) cm)
      (list_of (get "envFrom" container)) maps ∧
    values = fold_left env_value (list_of (get "env" container))
      (fold_left (λ values cm, fold_left (λ values kv, <[kv.1 := str kv.2]> values) (members (get "data" cm)) values) maps ∅).
(** The Pods of an observation ran on the target. *)
Definition ran_on (root target id : string) (h : list host_event) : Prop :=
  let dir := path_join (path_join root "observations") id in
  ∃ start served pod, ev (HRawJSON (path_join (path_join dir "startup") "startup.json")) (Ok start) ∈ h ∧
    ev (HRawJSON (path_join (path_join dir "serving") "result.json")) (Ok served) ∈ h ∧
    ev (HRawJSON (path_join (path_join (path_join dir "serving") "after") "pod.json")) (Ok pod) ∈ h ∧ target ≠ "" ∧
    ∀ p, p ∈ [get "pod_before" start; get "pod" start; get "pod" served; pod] → str (get "node" p) = target.
(** The live workload of a planned export: the recorded Deployment, qualified, with the
    budget, launch settings and shared memory of the source, each observation made of it on
    this node. *)
Record live_baseline (c : Configuration) (root : string) (m : MemoryBundle.Manifest) (h : list host_event) : Prop := {
  lb_deployment : ∃ live recorded, observed policy h (get_object policy "deployment" (po_AIDeployment policy)) live ∧
    ev (HRawJSON (path_join root "deployment.json")) (Ok recorded) ∈ h ∧ as_recorded policy live recorded ∧
    qualified policy "ai" live h ∧
    ∃ container q values, list_of (Nested live ["spec"; "template"; "spec"; "containers"]) = [container] ∧ budgeted c container ∧
      po_QualifiedConfigurations policy !! ConfigurationHash (cf_Serving c) (cf_Resources c) = Some q ∧ get "image" container = JString (qf_Image q) ∧
      environment_of_container container h values ∧ launched_as q c values container ∧
      shared (rs_SharedMemoryMiB (cf_Resources c)) (list_of (Nested live ["spec"; "template"; "spec"; "volumes"]));
  lb_runtimes : ∀ id, id ∈ mf_Observations m → ran_on root (po_Target policy) id h ∧ ∃ q runtime,
    po_QualifiedConfigurations policy !! ConfigurationHash (cf_Serving c) (cf_Resources c) = Some q ∧
    ev (HRawJSON (runtime_path root id)) (Ok runtime) ∈ h ∧ observed_as q c runtime }.
(** A passed preflight with its preconditions. *)
Definition preflighted (d : Draft) (c : Configuration) (root digest : string) (h : list host_event) (p : gmap string string) : Prop :=
  ∃ m inv, sealed_evidence d c root digest m h ∧ live_baseline c root m h ∧
    (∃ s0 h0 s1, h0 ⊆ h ∧ runs (Snapshot policy) s0 h0 s1 (Ok inv)) ∧ in_ClusterAvailable inv = true ∧ host_for d c (in_Hardware inv) ∧
    (∃ resource, ev (HRawJSON (path_join root "resource-plan.json")) (Ok resource) ∈ h ∧ describes (in_Hardware inv) resource) ∧
    p !! "memory_manifest" = Some digest ∧ p !! "memory_hardware" = Some (mf_HardwareSHA256 m) ∧ p !! "memory_boot" = Some (mf_BootID m) ∧
    p !! "memory_source" = Some (cf_Revision c) ∧ p !! "memory_policy" = Some (policyRevision policy) ∧
    p !! "memory_live_capacity" = Some (live_capacity (in_Hardware inv)).

Lemma raw_ok path s h s' v : runs (raw_json path) s h s' (Ok v) → ev (HRawJSON path) (Ok v) ∈ h.
Proof. unfold raw_json. intros Hr. peel Hr. subst. by left. Qed.
Lemma bundle_ok root digest s h s' m : runs (verify_bundle root digest) s h s' (Ok m) → ∃ b, ev (HBundle root) b ∈ h ∧ MemoryBundle.Verify b.1 b.2 digest = Ok m.
Proof. unfold verify_bundle. intros Hr. peel Hr. eexists. split; [by left|done]. Qed.
Lemma runtime_ok runtime c s h s' a : runs (memoryRuntime policy runtime c) s h s' (Ok a) →
  ∃ q, po_QualifiedConfigurations policy !! ConfigurationHash (cf_Serving c) (cf_Resources c) = Some q ∧ observed_as q c runtime.
Proof. unfold memoryRuntime. intros Hr. peel Hr. destruct a. eauto using runtime_observed. Qed.
Lemma ran_on_mono root target id h h' : h ⊆ h' → ran_on root target id h → ran_on root target id h'.
Proof. intros Hs (a & b & p & ? & ? & ? & ?). exists a, b, p. auto. Qed.
Lemma environment_mono container h h' values : h ⊆ h' → environment_of_container container h values → environment_of_container container h' values.
Proof. intros Hs (maps & Hf & ?). exists maps. split; [|done]. eapply Forall2_impl; [exact Hf|]. intros x y [? ?]. eauto using observed_mono. Qed.
Lemma targets_ok root target ids : ∀ s h s' a, runs (memoryObservationTargets root target ids) s h s' (Ok a) → ∀ id, id ∈ ids → ran_on root target id h.
Proof.
  induction ids as [|i ids IH]; intros s h s' a Hr id Hid; [by apply elem_of_nil in Hid|]. cbn [memoryObservationTargets] in Hr. peel Hr. subst.
  match goal with Hrec : runs (memoryObservationTargets _ _ _) _ _ _ _ |- _ => pose proof (IH _ _ _ _ Hrec) as Hrest end.
  apply elem_of_cons in Hid as [->|Hid]; [|eapply ran_on_mono; [|exact (Hrest _ Hid)]; set_solver].
  bool_hyps. match goal with Hx : existsb _ _ = false |- _ => cbn in Hx; rewrite !orb_false_iff in Hx; destruct Hx as (? & ? & ? & ? & _) end. bool_hyps.
  cbn [app]. eexists _, _, _. split; [apply list_elem_of_here|]. split; [apply list_elem_of_further, list_elem_of_here|].
  split; [do 2 apply list_elem_of_further; apply list_elem_of_here|]. split; [done|].
  intros p Hp. repeat (apply elem_of_cons in Hp as [->|Hp]; [done|]). by apply elem_of_nil in Hp.
Qed.
Lemma env_from_ok from : ∀ values s h s' values', runs (env_from policy from values) s h s' (Ok values') →
  ∃ maps, Forall2 (λ ref cm, is_null (get "prefix" ref) = true ∧ observed policy h (get_object policy "configmap" (str (Nested ref ["configMapRef"; "name"]))) cm) from maps ∧
    values' = fold_left (λ values cm, fold_left (λ values kv, <[kv.1 := str kv.2]> values) (members (get "data" cm)) values) maps values.
Proof.
  induction from as [|ref from IH]; intros values s h s' values' Hr; cbn [env_from] in Hr.
  { apply runs_ret in Hr as (-> & _ & [= ->]). exists []. split; [constructor|done]. }
  cbv zeta in Hr. destruct (_ || _) eqn:Hb in Hr; [by apply runs_fault in Hr as (_ & _ & [=])|]. bool_hyps.
  apply runs_bind in Hr as [(e & [=] & _)|(h1 & s1 & cm & h2 & -> & (r0 & [= <-] & Hcm)%runs_attempt & Hr)].
  destruct cm as [cm|]; [|by apply runs_fault in Hr as (_ & _ & [=])]. apply kube_ok in Hcm. apply IH in Hr as (maps & Hf & ->). exists (cm :: maps).
  split; [|done]. constructor; [split; [done|eapply observed_mono; [|exact Hcm]; set_solver]|].
  eapply Forall2_impl; [exact Hf|]. intros x y [? ?]. split; [done|]. eapply observed_mono; [|done]. set_solver.
Qed.
Lemma runtimes_ok root c ids : ∀ s h s' a, runs (check_runtimes policy root c ids) s h s' (Ok a) → ∀ id, id ∈ ids → ∃ q runtime,
  po_QualifiedConfigurations policy !! ConfigurationHash (cf_Serving c) (cf_Resources c) = Some q ∧
  ev (HRawJSON (runtime_path root id)) (Ok runtime) ∈ h ∧ observed_as q c runtime.
Proof.
  induction ids as [|i ids IH]; intros s h s' a Hr id Hid; [by apply elem_of_nil in Hid|]. cbn [check_runtimes] in Hr.
  apply runs_bind in Hr as [(e & [=] & _)|(h1 & s1 & runtime & h2 & -> & Hraw%raw_ok & Hr)].
  apply runs_bind in Hr as [(e & [=] & _)|(h3 & s3 & [] & h4 & -> & Hrt%runtime_ok & Hr)].
  apply elem_of_cons in Hid as [->|Hid].
  - destruct Hrt as (q & ? & ?). exists q, runtime. split_and!; [done|set_solver|done].
  - destruct (IH _ _ _ _ Hr _ Hid) as (q & rt & ? & ? & ?). exists q, rt. split_and!; [done|set_solver|done].
Qed.
Lemma baseline_ok dep c s h s' a : runs (memoryBaseline policy dep c) s h s' (Ok a) → qualified policy "ai" dep h ∧
  ∃ container q values, list_of (Nested dep ["spec"; "template"; "spec"; "containers"]) = [container] ∧ budgeted c container ∧
    po_QualifiedConfigurations policy !! ConfigurationHash (cf_Serving c) (cf_Resources c) = Some q ∧ get "image" container = JString (qf_Image q) ∧
    environment_of_container container h values ∧ launched_as q c values container ∧
    shared (rs_SharedMemoryMiB (cf_Resources c)) (list_of (Nested dep ["spec"; "template"; "spec"; "volumes"])).
Proof.
  unfold memoryBaseline. intros Hr. change containers_path with ["spec"; "template"; "spec"; "containers"] in Hr. change volumes_path with ["spec"; "template"; "spec"; "volumes"] in Hr.
  destruct (list_of (Nested dep ["spec"; "template"; "spec"; "containers"])) as [|container [|]]; try by apply runs_fault in Hr as (_ & _ & [=]).
  peel Hr. match goal with Hq : runs (qualifySession _ _ _ _) _ _ _ _ |- _ => apply qualify_ok in Hq; cbn in Hq end. bool_hyps. split.
  - eapply qualified_mono; [|eassumption]. set_solver.
  - subst. repeat match goal with u : unit |- _ => destruct u end.
    match goal with Hv : runs (env_from _ _ _) _ _ _ _ |- _ => apply env_from_ok in Hv as (maps & Hmaps & ->) end.
    eexists container, q, _. split; [done|]. split; [by apply budget_ok|]. split; [done|]. split.
    { match goal with Hi : is_string ?v _ = true |- _ => destruct v; try discriminate Hi; apply String.eqb_eq in Hi; congruence end. }
    split; [|split; [apply launch_ok; symmetry; eassumption|apply shm_ok; symmetry; eassumption]].
    exists maps. split; [|reflexivity]. eapply Forall2_impl; [exact Hmaps|]. intros ref cm [? ?]. split; [done|]. eapply observed_mono; [|done]. set_solver.
Qed.
Lemma preflight_ok d c root m recorded sm s h s' sm' : runs (export_preflight policy d c root m recorded sm) s h s' (Ok sm') →
  Complete m = true ∧ ms_Status sm = "imported-unqualified" ∧ ∃ inv live,
    (∃ s0 h0 s1, h0 ⊆ h ∧ runs (Snapshot policy) s0 h0 s1 (Ok inv)) ∧ in_ClusterAvailable inv = true ∧ host_for d c (in_Hardware inv) ∧
    (∃ resource, ev (HRawJSON (path_join root "resource-plan.json")) (Ok resource) ∈ h ∧ describes (in_Hardware inv) resource) ∧
    (∀ id, id ∈ mf_Observations m → ran_on root (po_Target policy) id h) ∧
    observed policy h (get_object policy "deployment" (po_AIDeployment policy)) live ∧ as_recorded policy live recorded ∧
    (∃ s0 h0 s1, h0 ⊆ h ∧ runs (memoryBaseline policy live c) s0 h0 s1 (Ok tt)) ∧
    (∃ s0 h0 s1, h0 ⊆ h ∧ runs (check_runtimes policy root c (mf_Observations m)) s0 h0 s1 (Ok tt)) ∧
    ms_Preconditions sm' = <["memory_live_capacity" := live_capacity (in_Hardware inv)]> (ms_Preconditions sm).
Proof.
  unfold export_preflight. intros Hr. destruct (negb (Complete m)) eqn:Hc; [by apply runs_fault in Hr as (_ & _ & [=])|].
  destruct (ms_Status sm <>s "imported-unqualified") eqn:Hst; [by apply runs_fault in Hr as (_ & _ & [=])|]. bool_hyps.
  apply runs_bind in Hr as [(e & [=] & _)|(h1 & s1 & [] & h2 & -> & Htargets & Hr)]. pose proof (targets_ok _ _ _ _ _ _ _ Htargets) as Hran.
  apply runs_bind in Hr as [(e & [=] & _)|(h3 & s3 & inv & h4 & -> & (r0 & [= <-] & Hs)%runs_attempt & Hr)].
  destruct inv as [inv|]; [|by apply runs_fault in Hr as (_ & _ & [=])]. cbv zeta in Hr.
  destruct (negb (in_ClusterAvailable inv)) eqn:Hav; [by apply runs_fault in Hr as (_ & _ & [=])|].
  destruct (negb (host_fits d c (in_Hardware inv))) eqn:Hfit; [by apply runs_fault in Hr as (_ & _ & [=])|]. apply negb_false_iff, host_fits_ok in Hfit.
  apply runs_bind in Hr as [(e & [=] & _)|(h5 & s5 & resource & h6 & -> & Hres%raw_ok & Hr)].
  destruct (allocatable_mib (in_Hardware inv) resource) as [alloc|] eqn:Halloc; [|by apply runs_fault in Hr as (_ & _ & [=])]. apply allocatable_describes in Halloc. peel Hr.
  repeat match goal with u : unit |- _ => destruct u end. bool_hyps.
  match goal with Hk : runs (get_deployment policy _) _ ?h _ (Ok ?d) |- _ => pose proof (kube_ok _ _ _ _ _ _ Hk) as Hlive; rename d into live end.
  split; [done|]. split; [done|]. exists inv, live. split.
  { exists s1, h3, s3. split; [set_solver|done]. }
  split; [done|]. split; [done|]. split; [exists resource; split; [set_solver|done]|]. split; [intros id Hi; eapply ran_on_mono; [|exact (Hran id Hi)]; set_solver|].
  split; [eapply observed_mono; [|exact Hlive]; set_solver|]. split; [apply identity_recorded; symmetry; eassumption|].
  split; [eexists _, _, _; split; [|eassumption]; set_solver|]. split; [eexists _, _, _; split; [|eassumption]; set_solver|]. by destruct sm.
Qed.
Lemma rows_preconditions rows s : ms_Preconditions (with_rows rows s) = ms_Preconditions s.
Proof. by destruct s. Qed.
Lemma status_preconditions a b s : ms_Preconditions (set_ms_Status a b s) = ms_Preconditions s.
Proof. by destruct s. Qed.
Lemma limitations_preconditions l s : ms_Preconditions (set_ms_Limitations l s) = ms_Preconditions s.
Proof. by destruct s. Qed.
Lemma budgets_preconditions a b e s : ms_Preconditions (set_ms_Budgets a b e s) = ms_Preconditions s.
Proof. by destruct s. Qed.
Lemma set_preconditions p s : ms_Preconditions (set_ms_Preconditions p s) = p.
Proof. by destruct s. Qed.
Lemma set_status a b s : ms_Status (set_ms_Status a b s) = a.
Proof. by destruct s. Qed.
#[local] Hint Rewrite rows_preconditions status_preconditions limitations_preconditions budgets_preconditions set_preconditions set_status : summary.

(** The identities a planned export records before it looks at the node. *)
Definition planned (d : Draft) (c : Configuration) (digest : string) (m : MemoryBundle.Manifest) (p : gmap string string) : Prop :=
  p !! "memory_manifest" = Some digest ∧ p !! "memory_hardware" = Some (mf_HardwareSHA256 m) ∧ p !! "memory_boot" = Some (mf_BootID m) ∧
  p !! "memory_source" = Some (cf_Revision c) ∧ p !! "memory_policy" = Some (policyRevision policy).
Lemma planning_ok d c root digest m t s0 s h s' sm :
  (d_Action d =s "memory.plan.export") = true → runs (planning Sum policy d c root digest m t s0) s h s' (Ok sm) →
  mf_SourceRevision m = cf_Revision c ∧ hardware_current policy h ∧ (∃ n, ev (HHashFile (po_HardwarePath policy)) (Some (mf_HardwareSHA256 m, n)) ∈ h) ∧
  (∃ boot, ev (HRead (hardware_boot policy)) (Some boot) ∈ h ∧ TrimSpace boot = mf_BootID m) ∧
  (∃ f rows, ev (HObserve root) f ∈ h ∧ Observe f m (rs_MemoryMiB (cf_Resources c)) (rs_SharedMemoryMiB (cf_Resources c)) = (rows, Ok tt)) ∧
  ∃ recorded before, ev (HRawJSON (path_join root "deployment.json")) (Ok recorded) ∈ h ∧ planned d c digest m (ms_Preconditions before) ∧
    ∃ s1 h1, h1 ⊆ h ∧ runs (export_preflight policy d c root m recorded before) s1 h1 s' (Ok sm).
Proof.
  intros Ha. unfold planning. intros Hr.
  destruct (mf_SourceRevision m <>s _) eqn:Hrev; [by apply runs_fault in Hr as (_ & _ & [=])|].
  apply runs_bind in Hr as [(e & [=] & _)|(h1 & s1 & [] & h2 & -> & Hhw%hardware_ok & Hr)].
  apply runs_bind in Hr as [(e & [=] & _)|(h3 & s3 & hash & h4 & -> & (v & -> & _ & [= <-])%runs_ask & Hr)]. cbn beta in Hr.
  destruct hash as [[hash n]|]; [|by apply runs_fault in Hr as (_ & _ & [=])].
  destruct (hash <>s _) eqn:Hhash; [by apply runs_fault in Hr as (_ & _ & [=])|].
  apply runs_bind in Hr as [(e & [=] & _)|(h5 & s5 & boot & h6 & -> & (v & -> & _ & [= <-])%runs_ask & Hr)]. cbn beta in Hr.
  destruct boot as [boot|]; [|by apply runs_fault in Hr as (_ & _ & [=])].
  destruct (TrimSpace boot <>s _) eqn:Hboot; [by apply runs_fault in Hr as (_ & _ & [=])|].
  apply runs_bind in Hr as [(e & [=] & _)|(h7 & s7 & recorded & h8 & -> & Hraw%raw_ok & Hr)]. cbn zeta beta in Hr.
  apply runs_bind in Hr as [(e & [=] & _)|(h9 & s9 & before & h10 & -> & Hobs & Hr)].
  rewrite Ha in Hr. pose proof Hr as Hpre. apply preflight_ok in Hpre as (Hcomplete & Hstatus & _). rewrite Hcomplete in Hobs.
  bool_hyps. subst hash.
  apply runs_bind in Hobs as [(e & [=] & _)|(h11 & s11 & f & h12 & -> & (v & -> & _ & [= <-])%runs_ask & (-> & _ & [= Hb])%runs_ret)].
  destruct (Observe f m _ _) as [rows [[]|e]] eqn:Ho.
  2: { subst before. by rewrite set_status in Hstatus. }
  split; [done|]. split; [eapply hardware_mono; [|exact Hhw]; set_solver|].
  split; [exists n; set_solver|]. split; [exists boot; split; [set_solver|done]|]. split; [exists f, rows; split; [set_solver|done]|].
  exists recorded, before. split; [set_solver|]. split.
  - subst before. unfold planned. autorewrite with summary. unfold telemetry_precondition.
    split_and!; destruct (is_some t); try (rewrite lookup_insert_ne by done); reflexivity.
  - eexists _, h10. split; [set_solver|exact Hr].
Qed.

Lemma input_ok d s h s' root digest : (d_Action d =s "memory.plan.export") = true → runs (memoryInput policy d) s h s' (Ok (root, digest)) →
  (∃ records r, ev HRecords records ∈ h ∧ records !! mr_EvidenceID (memory_request d) = Some r ∧ completed_import d r) ∧
  root = path_join (path_join (memory_dir policy) (mr_EvidenceID (memory_request d))) "inputs" ∧ digest = mr_EvidenceSHA256 (memory_request d).
Proof.
  unfold memoryInput. intros Ha Hr. apply String.eqb_eq in Ha. rewrite Ha in Hr. cbn [String.eqb Ascii.eqb Bool.eqb] in Hr.
  apply runs_bind in Hr as [(e & [=] & _)|(h1 & s1 & records & h2 & -> & (v & -> & _ & [= <-])%runs_ask & Hr)].
  destruct (records !! _) as [r|] eqn:Hl; [|by apply runs_fault in Hr as (_ & _ & [=])].
  destruct (imported d r) eqn:Hi; [|by apply runs_fault in Hr as (_ & _ & [=])]. apply runs_ret in Hr as (-> & _ & [= -> ->]).
  split; [|done]. exists records, r. split; [set_solver|]. split; [done|by apply imported_completed].
Qed.
Lemma telemetry_ok root m s h s' t : runs (read_telemetry root m) s h s' (Ok t) → ∃ e, ev (HTelemetry root) e ∈ h ∧ t = MemoryBundle.Telemetry m e.
Proof.
  unfold read_telemetry. intros [(e & [=] & _)|(h1 & s1 & x & h2 & -> & (v & -> & _ & [= <-])%runs_ask & (-> & _ & [= ->])%runs_ret)]%runs_bind.
  exists x. split; [by left|done].
Qed.
Lemma preview_ok d c s h s' sm : (d_Action d =s "memory.plan.export") = true → runs (memoryPreview Sum policy d c) s h s' (Ok sm) →
  ∃ root digest, preflighted d c root digest h (ms_Preconditions sm).
Proof.
  intros Ha. unfold memoryPreview. intros Hr.
  apply runs_bind in Hr as [(e & [=] & _)|(h1 & s1 & [] & h2 & -> & _ & Hr)].
  apply runs_bind in Hr as [(e & [=] & _)|(h3 & s3 & verified & h4 & -> & _ & Hr)].
  apply runs_bind in Hr as [(e & [=] & _)|(h5 & s5 & [] & h6 & -> & _ & Hr)].
  apply runs_bind in Hr as [(e & [=] & _)|(h7 & s7 & [root digest] & h8 & -> & (Hin & Hroot & Hdigest)%input_ok & Hr)]; [|done]. cbn beta iota in Hr.
  apply runs_bind in Hr as [(e & [=] & _)|(h9 & s9 & trust & h10 & -> & _ & Hr)]. cbn beta in Hr.
  destruct (negb (is_trusted trust)); [by apply runs_fault in Hr as (_ & _ & [=])|].
  apply runs_bind in Hr as [(e & [=] & _)|(h11 & s11 & tree & h12 & -> & _ & Hr)].
  apply runs_bind in Hr as [(e & [=] & _)|(h13 & s13 & [] & h14 & -> & _ & Hr)].
  apply runs_bind in Hr as [(e & [=] & _)|(h15 & s15 & m & h16 & -> & Hb%bundle_ok & Hr)].
  apply runs_bind in Hr as [(e & [=] & _)|(h17 & s17 & t & h18 & -> & (e & Ht & ->)%telemetry_ok & Hr)]. cbn beta zeta in Hr.
  rewrite Ha, andb_true_r in Hr. destruct (telemetry_reason d (MemoryBundle.Telemetry m e) <>s "") eqn:Hreason; [by apply runs_fault in Hr as (_ & _ & [=])|].
  assert ((d_Action d =s "memory.evidence.import") = false) as Hn by (apply String.eqb_eq in Ha; by rewrite Ha). rewrite Hn in Hr.
  apply planning_ok in Hr as (Hrev & Hhw & Hhash & Hboot & (f & rows & Hf & Ho) & recorded & before & Hraw & Hp & s'' & h' & Hsub & Hr); [|done].
  apply preflight_ok in Hr as (Hcomplete & _ & inv & live & (sa & ha & sb & Hs1 & Hsnap) & Hav & Hfits & (resource & Hres & Hdesc) & Hran & Hlive & Hid & (sc & hc & sd & Hs2 & Hbase%baseline_ok) & (se & he & sf & Hs3 & Hrun) & Hpre).
  unfold telemetry_reason in Hreason. destruct (MemoryBundle.Telemetry m e) as [a|err] eqn:Htel; [|done].
  match goal with |- context [preflighted _ _ _ _ ?h _] => assert (h18 ⊆ h) as Hsub18 by (intros z ?; rewrite !elem_of_app; tauto); set (hh := h) in * end.
  assert (h' ⊆ hh) as Hsub' by (intros z ?; by apply Hsub18, Hsub). clear Hsub.
  exists root, digest, m, inv. split; [|split; [|split; [|split; [done|split; [done|split; [by exists resource; auto|]]]]]].
  - split; [by destruct Hin as (records & r & ? & ? & ?); exists records, r; split; [subst hh; rewrite !elem_of_app; tauto|]|done|
      by destruct Hb as (b & ? & ?); exists b; split; [subst hh; rewrite !elem_of_app; tauto|]|by apply complete_enough|done| | |].
    + split; [by eapply hardware_mono; [|exact Hhw]|]. split; [destruct Hhash as [n ?]; exists n; auto|].
      destruct Hboot as (boot & ? & ?). exists boot. auto.
    + exists e, a. split; [subst hh; rewrite !elem_of_app; tauto|]. split; [done|]. intros x ->. destruct (_ <? _) eqn:Hlt in Hreason; [done|]. lia.
    + exists f, rows. auto.
  - split.
    + destruct Hbase as (Hq & container & q & values & Hcont & Hbud & Hqual & Himg & Henv & Hlaunch). exists live, recorded.
      split; [by eapply observed_mono; [|exact Hlive]|]. split; [auto|]. split; [done|].
      split; [by eapply qualified_mono; [|exact Hq]; set_solver|]. exists container, q, values.
      split; [done|]. split; [done|]. split; [done|]. split; [done|]. split; [|done]. eapply environment_mono; [|exact Henv]. set_solver.
    + intros id Hi. split; [eapply ran_on_mono; [|exact (Hran id Hi)]; exact Hsub'|]. destruct (runtimes_ok _ _ _ _ _ _ _ Hrun id Hi) as (q & rt & ? & ? & ?). exists q, rt. split; [done|]. split; [set_solver|done].
  - exists sa, ha, sb. split; [set_solver|done].
  - rewrite Hpre. destruct Hp as (? & ? & ? & ? & ?). split_and!; first [by rewrite lookup_insert_ne by done|by rewrite lookup_insert_eq].
Qed.

(** What an exported plan is, and what it rests on: before the planner ran, the whole preflight
    passed; it exited successfully; after it, the same preflight passed again with the same
    preconditions; and the output that was validated then is the text that was written and is
    answered. *)
Definition grounded (r : Request) (text : string) (h : list host_event) : Prop :=
  let d := rq_Draft r in let c := rq_Desired r in
  ∃ root digest args before after p (f : PlanFiles) m sm out,
    h = before ++ ev (HExec (workstationctl policy) ("rocm" :: "serving-memory-plan" :: args) (planner_env policy) true "") (RunExited true out) :: after ∧
    preflighted d c root digest before p ∧ preflighted d c root digest after p ∧
    (∃ b, ev (HBundle root) b ∈ before ∧ MemoryBundle.Verify b.1 b.2 digest = Ok m) ∧
    (∃ output, ev (HOutput output root (po_RuntimeRoot policy)) f ∈ after) ∧
    ValidateOutput Sum f root (po_RuntimeRoot policy) m (mr_OtherMiB (memory_request d)) = Ok sm ∧
    text = json_text (MemorySummary_json (sm |> set_ms_Identity (mr_EvidenceID (memory_request d)) digest |> set_ms_Preconditions p)).
Lemma preflighted_mono d c root digest h h' p : h ⊆ h' → preflighted d c root digest h p → preflighted d c root digest h' p.
Proof.
  intros Hs (m & inv & [(rs & r & ? & ? & ?) ? (b & ? & ?) ? ? (Hhw & (n & ?) & boot & ? & ?) (e & t & ? & ? & ?) (f & rows & ? & ?)]
    & [(live & rec & Hl & ? & ? & Hq & container & q & values & ? & ? & ? & ? & Henv & ?) Hrun] & (s0 & h0 & s1 & ? & ?) & ? & ? & (resource & ? & ?) & Hrest').
  exists m, inv. split; [|split; [|split; [|split; [done|split; [done|split; [by exists resource; auto|done]]]]]].
  - split; [exists rs, r; auto|done|exists b; auto|done|done| |exists e, t; auto|exists f, rows; auto].
    split; [by eapply hardware_mono|]. split; [exists n; auto|exists boot; auto].
  - split.
    + exists live, rec. split; [by eapply observed_mono|]. split; [auto|]. split; [done|]. split; [by eapply qualified_mono|].
      exists container, q, values. do 4 (split; [done|]). split; [by eapply environment_mono|done].
    + intros id Hi. destruct (Hrun id Hi) as (Hon & q' & rt & ? & ? & ?). split; [by eapply ran_on_mono|]. exists q', rt. auto.
  - exists s0, h0, s1. split; [set_solver|done].
Qed.
Lemma generate_ok r root digest dir s0 s h s' sm : (d_Action (rq_Draft r) =s "memory.plan.export") = true →
  runs (generate Sum policy r root digest dir s0) s h s' (Ok sm) →
  ∃ args before after (f : PlanFiles) m out s1, h = before ++ ev (HExec (workstationctl policy) ("rocm" :: "serving-memory-plan" :: args) (planner_env policy) true "") (RunExited true out) :: after ∧
    (∃ root digest, preflighted (rq_Draft r) (rq_Desired r) root digest after (ms_Preconditions s0)) ∧
    (∃ b, ev (HBundle root) b ∈ before ∧ MemoryBundle.Verify b.1 b.2 digest = Ok m) ∧ 
    (∃ output, ev (HOutput output root (po_RuntimeRoot policy)) f ∈ after) ∧
    ValidateOutput Sum f root (po_RuntimeRoot policy) m (mr_OtherMiB (memory_request (rq_Draft r))) = Ok s1 ∧
    sm = (s1 |> set_ms_Identity (mr_EvidenceID (memory_request (rq_Draft r))) digest |> set_ms_Preconditions (ms_Preconditions s0)).
Proof.
  intros Ha. unfold generate. cbn zeta. intros Hr.
  apply runs_bind in Hr as [(e & [=] & _)|(h1 & s1 & m & h2 & -> & Hb%bundle_ok & Hr)].
  apply runs_bind in Hr as [(e & [=] & _)|(h3 & s3 & args & h4 & -> & (rest & ->)%planner_args & Hr)].
  apply runs_bind in Hr as [(e & [=] & _)|(h5 & s5 & ran & h6 & -> & (r0 & [= <-] & Hrun)%runs_attempt & Hr)].
  destruct ran as [out|]; [|by apply runs_fault in Hr as (_ & _ & [=])]. apply run_ok in Hrun as ->.
  apply runs_bind in Hr as [(e & [=] & _)|(h7 & s7 & m' & h8 & -> & _ & Hr)].
  apply runs_bind in Hr as [(e & [=] & _)|(h9 & s9 & checked & h10 & -> & (r0 & [= <-] & Hprev)%runs_attempt & Hr)]. cbn beta zeta in Hr.
  destruct checked as [checked|]; [|by apply runs_fault in Hr as (_ & _ & [=])].
  case_bool_decide as Hp; [|by apply runs_fault in Hr as (_ & _ & [=])]. cbn [negb] in Hr.
  apply preview_ok in Hprev as (root' & digest' & Hpre); [|done]. peel Hr. subst. rewrite Hp in *.
  exists rest, (h1 ++ h3), (h7 ++ h9 ++ [ev (HOutput (path_join dir "output") root (po_RuntimeRoot policy)) x1] ++ [] ++ [ev (HSyncOutput (path_join dir "output")) (Ok x4)] ++ [] ++ []), x1, m, out, x3.
  split; [by rewrite <- !app_assoc|]. split; [exists root', digest'; eapply preflighted_mono; [|exact Hpre]; set_solver|].
  split; [destruct Hb as (b & ? & ?); exists b; split; [set_solver|done]|]. split; [exists (path_join dir "output"); set_solver|]. done.
Qed.
Lemma preflighted_input d c root digest h p : preflighted d c root digest h p →
  root = path_join (path_join (memory_dir policy) (mr_EvidenceID (memory_request d))) "inputs" ∧ digest = mr_EvidenceSHA256 (memory_request d).
Proof. intros (m & inv & Hs & _). apply Hs. Qed.

(** C21: an exported memory plan is grounded in what the helper saw: before the planner ran, the
    whole preflight had passed on evidence sealed under the digest of an import the helper had
    itself completed, of this source revision, hardware and boot, with enough cold and warm
    observations and no more than the declared budget of other workloads, on a live Deployment
    of the recorded identity, template, budget, launch settings and qualification, and on a
    current inventory of the node; after the planner the same preflight passed again with the
    same preconditions; and the answered text is the validation of the planner's output made
    after it, with those preconditions. *)
Theorem memory_export_sound r s h s' text :
  (d_Action (rq_Draft r) =s "memory.plan.export") = true → runs (executeMemory Sum policy r) s h s' (Ok text) → grounded r text h.
Proof.
  intros Ha Hr. unfold executeMemory in Hr.
  apply runs_bind in Hr as [(e & [=] & _)|(h1 & s1 & s0 & h2 & -> & Hprev & Hr)].
  apply preview_ok in Hprev as (root0 & digest0 & Hpre); [|done].
  apply runs_bind in Hr as [(e & [=] & _)|(h3 & s3 & [root digest] & h4 & -> & (_ & Hroot & Hdigest)%input_ok & Hr)]; [|done]. cbn beta iota in Hr.
  destruct (preflighted_input _ _ _ _ _ _ Hpre) as [-> ->].
  apply runs_bind in Hr as [(e & [=] & _)|(h5 & s5 & dir & h6 & -> & _ & Hr)].
  assert ((d_Action (rq_Draft r) =s "memory.evidence.import") = false) as Hn by (apply String.eqb_eq in Ha; by rewrite Ha). rewrite Hn in Hr.
  apply runs_bind in Hr as [(e & [=] & _)|(h7 & s7 & sm & h8 & -> & (args & before & after & f & m & out & s8 & -> & (root' & digest' & Hpost) & Hb & Hf & Hv & ->)%generate_ok & Hr)]; [|done].
  cbn zeta in Hr. peel Hr. destruct (preflighted_input _ _ _ _ _ _ Hpost) as [-> ->]. subst root digest.
  match goal with |- grounded _ _ (h1 ++ h3 ++ h5 ++ (_ ++ ?x :: _) ++ ?t) => exists (path_join (path_join (memory_dir policy) (mr_EvidenceID (memory_request (rq_Draft r)))) "inputs"), (mr_EvidenceSHA256 (memory_request (rq_Draft r))), args, (h1 ++ h3 ++ h5 ++ before), (after ++ t), (ms_Preconditions s0), f, m, s8, out end.
  split; [by rewrite <- !app_assoc|]. split; [eapply preflighted_mono; [|exact Hpre]; set_solver|]. split; [eapply preflighted_mono; [|exact Hpost]; set_solver|].
  split; [destruct Hb as (b & ? & ?); exists b; split; [set_solver|done]|]. split; [destruct Hf as [o ?]; exists o; set_solver|]. done.
Qed.
End Exports.
#[export] Hint Resolve looks_executeMemory looks_executePerformance : effects.

(** ** A concrete export *)

Module ExportFixture.
Import PlanFixture.
#[export] Instance documents : JSONText := λ s, if s =s "manager" then Some [JObject [("policyName", JString "static")]] else digits s.
#[export] Instance rendering : JSONRender := render.
(** A digest of the right shape. *)
#[export] Instance hash : Sha256 := λ v, Sum (render v).
#[export] Instance template_hash : TemplateHash := hash.
#[export] Instance floats : FloatText := {| parse_float := λ _, (f0, false); format_float := λ _, "0.5" |}.
#[export] Instance no_rfc : RFC3339 := λ _, None.
#[export] Instance epoch : TimeText := λ _, Some 0.

Definition config : Configuration :=
  let c := mkConfiguration "" DomainFixture.serving (mkResources 8 8192 1024 1 "") DomainFixture.caches in set_cf_Revision (ContentRevision c) c.
Definition ids : list string := BundleFixture.ids.
Definition boot : string := "01234567-89ab-cdef-0123-456789abcdef".
Definition manifest : MemoryBundle.Manifest := MemoryBundle.mkManifest 1 "sglang-memory-evidence" boot (Sum "hw") (cf_Revision config) ids
  (list_to_map ((λ n, (n, BundleFixture.digest)) <$> BundleFixture.names)).
Definition bundle := (Ok (BundleFixture.digest, Ok manifest) : result (string * result MemoryBundle.Manifest), BundleFixture.entries).

Definition budget (memory : string) : JSON :=
  JObject [("amd.com/gpu", JFloat (float_of 1)); ("cpu", JFloat (float_of 8)); ("memory", JString memory)].
Definition resources (memory : string) : JSON := JObject [("limits", budget memory); ("requests", budget memory)].
Definition args : list string := ["--model-path=/models/qwen"; "--revision"; "0123456789012345678901234567890123456789"; "--served-model-name=qwen"; "--context-length=$(CONTEXT)";
  "--max-running-requests=4"; "--tp=1"; "--mem-fraction-static"; "0.5"].
Definition container (memory : string) : JSON := JObject [
  ("args", JArray (JString <$> args)); ("env", JArray [JObject [("name", JString "CONTEXT"); ("value", JString "8192")]]);
  ("image", JString "engine@sha256:0"); ("name", JString "sglang"); ("resources", resources memory)].
Definition spec (memory : string) : JSON := JObject [("containers", JArray [container memory]);
  ("volumes", JArray [JObject [("emptyDir", JObject [("medium", JString "Memory"); ("sizeLimit", JString "1Gi")]); ("name", JString "shm")]])].
Definition deployment : JSON := JObject [
  ("metadata", JObject [("name", JString "ai"); ("namespace", JString "ns"); ("uid", JString "u1")]); ("spec", JObject [("template", JObject [("spec", spec "8Gi")])])].
Definition resource_plan : JSON := JObject [("memory", JObject [("allocatable_mib", JFloat (float_of 16384)); ("total_mib", JFloat (float_of 32768))])].

Definition phase (id : string) : string := if has_prefix id "cold" then "cold" else "warm".
Definition uid (id : string) : string := id +:+ "345678901234567890123456789012".
Definition patch (a b : string) : list Patch :=
  [mkPatch "test" "/spec/template/spec" (spec a); mkPatch "replace" "/spec/template/spec/containers/0/resources" (resources b)].
Definition served (id : string) : JSON := JObject [
  ("pod", JObject [("image_id", JString "img"); ("node", JString "ws"); ("uid", JString (uid id))]); ("runtime", JString "r"); ("status", JString "measured-not-qualified")].
Definition key : JSON := JObject [("image_id", JString "img"); ("node", JString "ws"); ("runtime", JString "r")].
Definition root : string := "/var/lib/h/memory/import-01/inputs".
Definition plan : MemPlan := mkMemPlan 1 "sglang-host-memory-plan" "plan-only-unqualified" 8192 5120 5120 BundleFixture.digest (Identity Sum key)
  (Identity Sum (spec "8Gi")) (Identity Sum (spec "5120Mi")) 4096 16384 1024 3221225472 2147483648
  ((λ id, mkObservation (phase id) (uid id) (window startup_lines) (window steady_lines)) <$> ids)
  (expected_evidence root "/opt/r" (Sum "lock") manifest) (list_to_map ((λ n, (n, Sum n)) <$> Tools))
  {["patch.json" := Sum "patch"; "rollback.json" := Sum "rollback"]} ["1"; "2"; "3"; "4"; "5"; "6"].
Definition evidence : result (string * result telemetryEvidence) := Ok (BundleFixture.digest, Ok BundleFixture.allowance).
Definition files : PlanFiles := mkPlanFiles (Ok tt) (Ok plan) evidence (Ok (Sum "lock")) (λ n, Ok (Sum n))
  (Ok deployment) (Ok resource_plan) (Ok (patch "8Gi" "5120Mi")) (Ok (patch "5120Mi" "8Gi"))
  (λ id, Ok (JObject [("cache_state", JString (phase id)); ("pod", JObject [("uid", JString (uid id))]); ("status", JString "observed-not-qualified")]))
  (λ id, Ok (served id)) (λ _, Ok (startup_lines, None)) (λ _, Ok (steady_lines, None))
  (λ name, Ok (if name =s "patch.json" then "patch" else if name =s "rollback.json" then "rollback" else "plan")).
Definition revision : string := "0123456789012345678901234567890123456789".
Definition settings : JSON := JObject [("MODEL_PATH", JString "/models/qwen"); ("MODEL_REVISION", JString revision); ("SERVED_MODEL_NAME", JString "qwen");
  ("CONTEXT_LENGTH", JString "8192"); ("MAX_RUNNING_REQUESTS", JString "4"); ("TENSOR_PARALLEL", JString "1"); ("MEM_FRACTION_STATIC", JString "0.5")].
Definition launched : JSON := JObject [("--model-path", JString "/models/qwen"); ("--revision", JString revision); ("--served-model-name", JString "qwen");
  ("--context-length", JString "8192"); ("--max-running-requests", JString "4"); ("--tp", JString "1"); ("--mem-fraction-static", JString "0.5")].
Definition runtime : JSON := JObject [("devices", JArray [JObject [("gfx", JString "gfx1201:xnack-"); ("uuid", JString "GPU-0")]]); ("launch", JArray [launched]);
  ("model_files", JObject [("w.safetensors", JObject [("sha256", JString (Sum "w"))])]); ("settings", settings)].

Definition qualification : Qualification := mkQualification "engine@sha256:0" revision "/models/qwen" (100 * Hour) "/models/qwen" {["w.safetensors" := Sum "w"]}.
Definition policy : Policy :=
  mkPolicy ∅ {["source-01" := mkMemorySource "/srv/evidence" BundleFixture.digest]} 1 1000 "/run/h.sock" "/var/lib/h" "/var/lib/s" "/opt/r" ∅ ∅ "/etc/w" "/etc/c" "/var/hw" "/models" ""
    "/etc/k" "/usr/bin/kubectl" "ctx" "ws" "dev" "ns" "ai" "u1" "game" "u2" 60
    {[ConfigurationHash (cf_Serving config) (cf_Resources config) := qualification]}
    {["ai" := mkSessionQualification (hash (template_of deployment)) (100 * Hour) ∅]} 16.
Definition import_draft : Draft :=
  mkDraft "memory.evidence.import" "ws" (cf_Revision config) "" "" "" "" None None None (Some (mkMemoryRequest "source-01" BundleFixture.digest 4096)) None.
Definition completed : record := mkRecord (mkRequest 1 "import-01" "bridge" "" import_draft config) (mkHostResult "import-01" "succeeded" "" "" None) 1000 "" 1 1.
Definition export_draft : Draft :=
  mkDraft "memory.plan.export" "ws" (cf_Revision config) "" "" "" "" None None None (Some (mkMemoryRequest "import-01" BundleFixture.digest 4096)) None.
Definition request : Request := let r := mkRequest 1 "export-01" "bridge" "" export_draft config in set_rq_PayloadHash (RequestHash r) r.

Definition cpu (id sibling core : Z) : JSON := JObject [("core_id", JFloat (float_of core)); ("cpu", JFloat (float_of id)); ("socket_id", JFloat f0);
  ("thread_siblings", JArray [JFloat (float_of id); JFloat (float_of sibling)])].
Definition report : JSON := JObject [("collected_at", JString "t"); ("cpu_topology", JObject [("cpus", JArray [cpu 0 1 0; cpu 1 0 0; cpu 2 3 1; cpu 3 2 1]);
    ("online_cpus", JArray (JFloat ∘ float_of <$> [0; 1; 2; 3]))]);
  ("memory", JObject [("total_bytes", JFloat (float_of (2^35)))]); ("status", JString "observed")].
Definition node : JSON := JObject [("status", JObject [("allocatable", JObject [("cpu", JFloat (float_of 2)); ("memory", JFloat (float_of (2^34)))]);
  ("conditions", JArray [JObject [("status", JString "True"); ("type", JString "Ready")]]); ("nodeInfo", JObject [("bootID", JString boot)])])].
Definition none : JSON := JObject [("items", JArray [])].
#[export] Instance answers : AnyText := λ t, if t =s "report" then Some report else if t =s "node" then Some node else if t =s "deployment" then Some deployment else Some none.
Definition cpu_config : string := Inventory.line +:+ "  full-pcpus-only: " +:+ quoted "true" +:+ Inventory.line +:+ Inventory.line +:+ "  strict-cpu-reservation: " +:+ quoted "true" +:+ Inventory.line
  +:+ "topologyManagerPolicy: restricted" +:+ Inventory.line +:+ "topologyManagerScope: pod".
Definition on_node : JSON := JObject [("node", JString "ws"); ("pod", JObject [("node", JString "ws")]); ("pod_before", JObject [("node", JString "ws")])].
Definition absent : error := Plain "absent".
(** A host with one completed import, whose workload runs as the evidence says. *)
Definition host (e : HostAct) : host_answer e :=
  match e with
  | HVerify => Ok tt
  | HValidation => (5, Document config, ∅)
  | HNow => Hour
  | HRange keys => exist _ (elements keys) (Permutation_refl _)
  | HExec _ args _ _ _ => RunExited true (if str_in "node" args then "node" else if str_in "deployment" args then "deployment" else "none")
  | HRead p => Some (if p =s "/var/hw" then "report" else if p =s "/var/lib/kubelet/cpu_manager_state" then "manager" else if p =s cpu_config_path then cpu_config else boot)
  | HDecode _ => Some (Some report)
  | HTrusted _ _ => Trusted
  | HModelTree _ => mkModelTree false false (λ _, false) false []
  | HMakeDir _ _ | HPublish _ _ _ | HRemove _ | HSyncDir _ => Ok tt
  | HMkdir _ _ | HCopyMemory _ _ _ | HSyncOutput _ | HCopyPerformance _ _ _ => Ok tt
  | HRecords => {["import-01" := completed]}
  | HTree _ => [Some (mkTreeEntry Trusted true false false (Some 448) 0); Some (mkTreeEntry Trusted false false true (Some 384) 65536)]
  | HBundle _ => bundle
  | HTelemetry _ => evidence
  | HObserve _ | HOutput _ _ _ => files
  | HRawJSON p => Ok (if has_suffix p "deployment.json" then deployment else if has_suffix p "resource-plan.json" then resource_plan
                      else if has_suffix p "runtime.json" then runtime else on_node)
  | HHashFile _ => Some (Sum "hw", 100)
  | HStatfs _ => Some (4096, 2^20)
  | HSafeRead _ _ => Err absent
  | HPerfBundle _ => (λ _, Err absent, Err absent, [])
  end.
Definition exported : option (list host_event * (bool * result string)) := play host (executeMemory Sum policy request false).
Definition history : list host_event := default [] (fst <$> exported).
Definition text_of (o : option (list host_event * (bool * result string))) : string := match o with Some (_, (_, Ok text)) => text | _ => "" end.
Definition export_done (o : option (list host_event * (bool * result string))) : bool := match o with Some (_, (false, Ok _)) => true | _ => false end.
Definition answered : string := text_of exported.
Lemma complete : export_done exported = true.
Proof. vm_compute. reflexivity. Qed.
Lemma export_runs : runs (executeMemory Sum policy request) false history false (Ok answered).
Proof.
  unfold history, answered. pose proof complete as Hc. destruct exported as [[h [[] [text|e]]]|] eqn:E; try discriminate Hc. exact (play_leaf host _ h _ E).
Qed.

(** The inventory of the same host. *)
Definition inventoried : option (list host_event * (bool * result Inventory)) := play host (Snapshot policy false).
Definition available (o : option (list host_event * (bool * result Inventory))) : bool :=
  match o with Some (_, (false, Ok inv)) => in_ClusterAvailable inv | _ => false end.
Lemma inventory_available : available inventoried = true.
Proof. vm_compute. reflexivity. Qed.
Lemma inventory_runs : ∃ h inv, runs (Snapshot policy) false h false (Ok inv) ∧ in_ClusterAvailable inv = true.
Proof.
  pose proof inventory_available as Ha. destruct inventoried as [[h [[] [inv|e]]]|] eqn:E; try discriminate Ha.
  exists h, inv. exact (conj (play_leaf host _ h _ E) Ha).
Qed.
End ExportFixture.
Import ExportFixture.

Lemma Snapshot_wellformed_witness : ∃ h inv, wellformed policy inv h ∧ in_ClusterAvailable inv = true.
Proof.
  destruct inventory_runs as (h & inv & Hr & Ha). exists h, inv.
  exact (conj (Snapshot_wellformed policy false h false inv Hr) Ha).
Defined.

Lemma memory_export_sound_witness :
  grounded PlanFixture.Sum policy request answered history.
Proof. exact (memory_export_sound _ _ request false history false answered eq_refl export_runs). Defined.
