(* ===== verification/HostRun.v ===== *)
(** [execute] of the root helper ([internal/hostexec/runtime.go]): the dispatch over the action,
    the session switches and the application of a serving configuration, and the build gate
    after an operation. *)
From S2P Require Import Prelude Interact Json Tree Types Domain Safefile Store Source Wire Evidence HostPolicy HostExec Kube Runtime Inventory HostMemory HostPerf.
#[local] Open Scope Z_scope.

Section HostRun.
Context `{Sha256} `{TemplateHash} `{JSONText} `{JSONRender} `{AnyText} `{FloatText} `{RFC3339} `{TimeText} (Sum : string → string) (policy : Policy).

(** ** The operations with effects *)

Definition replicas (d : JSON) : float64 := number (Nested d ["spec"; "replicas"]).

(** [profile.restore]: both saved workloads are checked before anything starts. *)
Definition restore_checks (r : Request) (ai game : JSON) : Exec unit :=
  b ← ask (HRead (session_state policy));
  match b with
  | None => fault (Plain "saved legacy session snapshot unavailable")
  | Some b =>
    match saved_session b with
    | None => fault (Plain "saved legacy snapshot is malformed")
    | Some (a, g) =>
      _ ← (if a =? 1 then _ ← verifyModel policy (rq_Desired r); qualifySession policy "ai" ai game else mret tt);
      if g =? 1 then qualifySession policy "gaming" ai game else mret tt
    end
  end.

(** The document submitted: the candidate at the stopped resource version, without replicas
    and status. *)
Definition replacement (candidate stopped : JSON) : JSON :=
  candidate
    |> edit ["metadata"] (set_key "resourceVersion" (Nested stopped ["metadata"; "resourceVersion"]))
    |> edit ["spec"] (set_key "replicas" (JInt 0))
    |> remove_key "status".
Definition apply_candidate (ai candidate : JSON) (wasRunning : bool) : Exec unit :=
  _ ← session policy "maintenance";
  stopped ← get_deployment policy (po_AIDeployment policy);
  refuse (deployment_uid stopped <>s po_AIDeploymentUID policy) || negb (SpecFloat.SFeqb (replicas stopped) f0)
         || (sha256_hex (template_of stopped) <>s sha256_hex (template_of ai))
    with Plain "deployment changed during stop; source is saved but live apply is refused" ;;
  _ ← kube policy (json_text (replacement candidate stopped)) ["-n"; po_Namespace policy; "replace"; "-f"; "-"; "-o"; "json"];
  if wasRunning then session policy "ai" else mret tt.
Definition configure (r : Request) (ai game : JSON) : Exec unit :=
  refuse negb (SpecFloat.SFeqb (replicas game) f0)
    with Plain "gaming is active; switch explicitly to AI or maintenance before serving configuration" ;;
  let wasRunning := SpecFloat.SFeqb (replicas ai) f1 in
  candidate ← of_result (servingCandidate policy ai (rq_Desired r));
  _ ← qualifySession policy "ai" candidate game;
  _ ← capacity policy candidate;
  _ ← revalidate policy r;
  apply_candidate ai candidate wasRunning.

Definition needs_model (d : Draft) : bool :=
  str_in (d_Action d) ["serving.configure"; "resources.configure"; "serving.start"; "serving.restart"]
  || ((d_Action d =s "profile.switch") && (d_Profile d =s "ai")).

(** The switch of [execute] over its action. *)
Definition transition (r : Request) (ai game : JSON) : Exec unit :=
  let d := rq_Draft r in let a := d_Action d in
  if a =s "profile.switch" then
    _ ← (if d_Profile d <>s "maintenance" then qualifySession policy (d_Profile d) ai game else mret tt);
    _ ← revalidate policy r; session policy (d_Profile d)
  else if a =s "profile.restore" then
    _ ← restore_checks r ai game; _ ← revalidate policy r; session policy "restore"
  else if a =s "serving.stop" then _ ← revalidate policy r; session policy "maintenance"
  else if a =s "serving.start" then _ ← qualifySession policy "ai" ai game; _ ← revalidate policy r; session policy "ai"
  else if a =s "serving.restart" then
    _ ← qualifySession policy "ai" ai game; _ ← revalidate policy r; _ ← session policy "maintenance"; session policy "ai"
  else configure r ai game.

Definition execute_body (r : Request) : Exec (option string) :=
  let d := rq_Draft r in let a := d_Action d in
  verified ← ask HVerify; _ ← of_result verified;
  _ ← revalidate policy r;
  if a =s "hardware.refresh" then data ← refreshHardware policy (rq_ID r); mret (Some data)
  else if MemoryAction a then data ← executeMemory Sum policy r; mret (Some data)
  else if PerformanceAction a then data ← executePerformance Sum policy r; mret (Some data)
  else
    _ ← checkHardware policy;
    if a =s "cpu-policy.export" then data ← exportCPUPolicy policy (rq_ID r); mret (Some data)
    else
      ai ← get_deployment policy (po_AIDeployment policy);
      game ← get_deployment policy (po_GameDeployment policy);
      refuse (deployment_uid ai <>s po_AIDeploymentUID policy) || (deployment_uid game <>s po_GameDeploymentUID policy)
        with Plain "Deployment UID changed from independent root policy; re-review target identity" ;;
      _ ← (if needs_model d then verifyModel policy (rq_Desired r) else mret tt);
      _ ← transition r ai game;
      mret None.

(** [execute]: the data, and the error with whether it is a [preflightFailure]. *)
Definition execute (r : Request) : Run host_answer (option string * option RunError) :=
  run_bind (λ sr : bool * result (option string), Ret match sr.2 with
    | Ok data => (data, None)
    | Err e => (None, Some (mkRunError (negb sr.1) (error_text e)))
    end) (execute_body r false).

(** ** The build gate after an operation *)

Record SessionState := mkSessionState { sn_Mode : string; sn_Phase : string; sn_Previous : Z * Z }.
Definition dec_SessionState : decoder SessionState := dec_lenient [
  at_key "mode" dec_string sn_Mode (λ x '(mkSessionState _ b c), mkSessionState x b c);
  at_key "phase" dec_string sn_Phase (λ x '(mkSessionState a _ c), mkSessionState a x c);
  at_key "previous" dec_previous sn_Previous (λ x '(mkSessionState a b _), mkSessionState a b x)].
Definition inhibit_path : string := "/run/workstation/build-inhibit".
Definition finishBuildGate : Exec unit :=
  trusted ← ask (HTrusted "/run/workstation" true);
  refuse match trusted with Trusted => false | _ => true end with Plain "untrusted" ;;
  f ← ask (HDecode (session_state policy));
  match f with
  | None => fault (Plain "open")
  | Some doc =>
    match v ← doc; dec_SessionState v (mkSessionState "" "" (0, 0)) with
    | None => fault (Plain "decode")
    | Some state =>
      refuse sn_Phase state <>s "ready" with Plain "legacy recovery remains incomplete" ;;
      if (sn_Mode state =s "ai") || ((sn_Mode state =s "restore") && ((sn_Previous state).1 =? 1)) then
        trusted ← ask (HTrusted inhibit_path false);
        match trusted with
        | Missing => mret tt
        | Untrusted => fault (Plain "untrusted")
        | Trusted =>
          r ← ask (HRemove inhibit_path); _ ← made r;
          r ← ask (HSyncDir "/run/workstation"); made r
        end
      else mret tt
    end
  end.
End HostRun.
