(* ===== verification/Effects.v ===== *)
(** What the helper's run may do to the workloads: an error that counts as a preflight
    refusal means that nothing was started, and whatever is started was preceded by every
    check of the policy. *)
From S2P Require Import MemoryBundle MemoryPlan PerfBundle.
From S2P Require Import Prelude Interact Json Tree Types Domain Safefile Store Source Wire Evidence HostPolicy HostExec HostJournal Kube Runtime Inventory Runs HostMemory HostPerf Exports HostRun.
#[local] Open Scope Z_scope.

Abbreviation changed h := (Exists (λ i : host_event, changes (projT1 i) = true) h).
Abbreviation unchanged h := (Forall (λ i : host_event, changes (projT1 i) = false) h).

Lemma not_changed h : unchanged h ↔ ¬ changed h.
Proof.
  rewrite <- Forall_Exists_neg. split; intros Hh; eapply Forall_impl; [exact Hh| |exact Hh|]; cbn; intros i; destruct (changes _); congruence.
Qed.

(** ** Computations that only look, and those that never forget *)

Definition keeps {A} (m : Exec A) : Prop := ∀ h s' r, runs m true h s' r → s' = true.
(** The flag says whether a change was started. *)
Definition honest {A} (m : Exec A) : Prop := ∀ s h s' r, runs m s h s' r →
  if s' then s = true ∨ changed h else s = false ∧ unchanged h.

Lemma looks_honest {A} (m : Exec A) : looks m → honest m.
Proof. intros Hm s h s' r [-> Hu]%Hm. destruct s; auto. Qed.
Lemma looks_keeps {A} (m : Exec A) : looks m → keeps m.
Proof. by intros Hm h s' r [-> _]%Hm. Qed.
Lemma keeps_both {A B} (m : Exec A) (f : A → Exec B) : keeps m → (∀ a, keeps (f a)) → keeps (m ≫= f).
Proof.
  intros Hm Hf h s' r [(e & _ & Hr)|(h1 & s1 & a & h2 & -> & H1 & H2)]%runs_bind; [by apply (Hm _ _ _ Hr)|].
  apply Hm in H1 as ->. by apply Hf in H2.
Qed.
Lemma honest_bind {A B} (m : Exec A) (f : A → Exec B) : honest m → (∀ a, honest (f a)) → honest (m ≫= f).
Proof.
  intros Hm Hf s h s' r [(e & _ & Hr)|(h1 & s1 & a & h2 & -> & H1 & H2)]%runs_bind; [by apply (Hm _ _ _ _ Hr)|].
  apply Hf in H2. apply Hm in H1. destruct s'.
  - destruct H2 as [->|H2]; [destruct H1 as [->|H1]; [by left|]|]; right; apply Exists_app; auto.
  - destruct H2 as [-> H2], H1 as [-> H1]. split; [done|]. by apply Forall_app.
Qed.
(** What follows a computation that always starts something before it succeeds. *)
Lemma honest_then {A B} (m : Exec A) (f : A → Exec B) :
  honest m → (∀ s h s' a, runs m s h s' (Ok a) → s' = true) → (∀ a, keeps (f a)) → honest (m ≫= f).
Proof.
  intros Hm Hs Hf s h s' r [(e & _ & Hr)|(h1 & s1 & a & h2 & -> & H1 & H2)]%runs_bind; [by apply (Hm _ _ _ _ Hr)|].
  pose proof (Hs _ _ _ _ H1) as ->. apply Hf in H2 as ->. apply Hm in H1 as [->|H1]; [by left|]. right. apply Exists_app. auto.
Qed.

#[local] Hint Resolve looks_honest looks_keeps : effects.
Abbreviation after J h m := (preceded changes J h m).
Ltac looks := quiet.

Section Effects.
Context `{Sha256} `{TemplateHash} `{JSONText} `{JSONRender} `{AnyText} `{FloatText} `{RFC3339} `{TimeText} (Sum : string → string) (policy : Policy).
#[local] Abbreviation kube := (kube policy).
#[local] Abbreviation qualifySession := (qualifySession policy).
#[local] Abbreviation session := (session policy).
#[local] Abbreviation revalidate := (revalidate policy).
#[local] Abbreviation get_deployment := (get_deployment policy).
#[local] Abbreviation execute_body := (execute_body Sum policy).
#[local] Abbreviation execute := (execute Sum policy).

#[local] Abbreviation observed := (observed policy).
#[local] Abbreviation qualified := (qualified policy).
#[local] Abbreviation hardware_current := (hardware_current policy).
#[local] Abbreviation model_verified := (model_verified policy).

(** ** The diagnostics change nothing *)

Lemma looks_collect args : is_session ("--config" :: po_WorkstationConfig policy :: args) = false → looks (collect policy args).
Proof. intros Ha. unfold collect. looks. apply quiet_run. unfold changes. change (is_session ("--config" :: po_WorkstationConfig policy :: args) || false = false). by rewrite Ha. Qed.
Lemma looks_refresh id : looks (refreshHardware policy id).
Proof. unfold refreshHardware, export_evidence. looks. by apply looks_collect. Qed.
Lemma looks_cpu id : looks (exportCPUPolicy policy id).
Proof. unfold exportCPUPolicy, planner_file. looks. by apply looks_collect. Qed.
Lemma reads_restore r ai game : reads (restore_checks policy r ai game).
Proof. unfold restore_checks. looks. Qed.
#[local] Hint Resolve looks_refresh looks_cpu reads_restore : effects.

(** ** The session switch *)

(** A switch refused before its command changed nothing; otherwise its command is the last
    interaction, and its success is the command's. *)
Lemma session_runs profile s h s' r : runs (session profile) s h s' r →
  (∃ e, r = Err e ∧ s' = s ∧ unchanged h) ∨
  s' = true ∧ ∃ h1 env o, h = h1 ++ [ev (HExec (workstationctl policy) (session_args policy profile) env true "") o] ∧ unchanged h1 ∧
    (r = Ok tt → ∃ out, o = RunExited true out).
Proof.
  unfold Runtime.session. intros [(e & -> & Hd)|(h1 & s1 & desired & h2 & -> & Hd & Hr)]%runs_bind.
  { left. exists e. split; [done|]. by apply (reads_looks _ (reads_desired policy _)) in Hd. }
  apply (reads_looks _ (reads_desired policy _)) in Hd as [-> Hd].
  assert (looks (if (desired =s "ai") || (desired =s "gaming")
    then document ← get_deployment (if desired =s "gaming" then po_GameDeployment policy else po_AIDeployment policy);
         _ ← qualifySession desired document document;
         mret (environment policy ++ [(if desired =s "gaming" then "WORKSTATION_SESSION_GAME_TEMPLATE_SHA256=" else "WORKSTATION_SESSION_AI_TEMPLATE_SHA256=") +:+ canonicalTemplateHash (template_of document)])
    else mret (environment policy))) as Henv by looks.
  apply runs_bind in Hr as [(e & -> & He)|(h3 & s3 & env & h4 & -> & He & Hr)].
  { left. exists e. apply Henv in He as [-> He]. split_and!; [done..|]. by apply Forall_app. }
  apply Henv in He as [-> He]. right.
  apply runs_bind in Hr as [(e & _ & [_ [=]])|(h5 & s5 & [] & h6 & -> & [-> [= ->]] & Hr)].
  assert (unchanged (h1 ++ h3)) as Hu by (by apply Forall_app).
  assert (∃ o, h6 = [ev (HExec (workstationctl policy) (session_args policy profile) env true "") o] ∧ s' = true ∧
    (r = Ok tt → ∃ out, o = RunExited true out)) as (o & -> & -> & Ho).
  { apply runs_bind in Hr as [(e & -> & Hr)|(h7 & s7 & out & h8 & -> & Hr & (-> & -> & ->)%runs_ret)].
    - apply runs_bind in Hr as [(e' & _ & (? & _ & _ & [=])%runs_ask)|(h7 & s7 & o & h8 & -> & (o' & -> & -> & [= ->])%runs_ask & (-> & -> & _)%runs_of)].
      exists o'. by rewrite app_nil_r.
    - apply runs_bind in Hr as [(e' & [=] & _)|(h9 & s9 & o & h10 & -> & (o' & -> & -> & [= ->])%runs_ask & (-> & -> & Hok)%runs_of)].
      exists o'. rewrite !app_nil_r. split_and!; [done..|]. intros _. destruct o' as [| |[] o'|]; try done. by exists o'. }
  split; [done|]. exists (h1 ++ h3), env, o. cbn. rewrite <- app_assoc. done.
Qed.
Lemma session_honest profile : honest (session profile).
Proof.
  intros s h s' r [(e & _ & -> & Hu)|(-> & h1 & env & o & -> & _)]%session_runs; [destruct s; auto|].
  right. apply Exists_app. right. by apply Exists_cons_hd.
Qed.
(** Success means that something was started. *)
Definition sure {A} (m : Exec A) : Prop := ∀ s h s' a, runs m s h s' (Ok a) → s' = true.
Lemma session_sure profile : sure (session profile).
Proof. intros s h s' a [(e & [=] & _)|(-> & _)]%session_runs. done. Qed.
Lemma session_keeps profile : keeps (session profile).
Proof. intros h s' r [(e & _ & -> & _)|(-> & _)]%session_runs; done. Qed.
Lemma sure_bind {A B} (m : Exec A) (f : A → Exec B) : (∀ a, sure (f a)) → sure (m ≫= f).
Proof. intros Hf s h s' b [(e & [=] & _)|(h1 & s1 & a & h2 & -> & _ & Hr)]%runs_bind. by apply Hf in Hr. Qed.
Lemma sure_then {A B} (m : Exec A) (f : A → Exec B) : sure m → (∀ a, keeps (f a)) → sure (m ≫= f).
Proof.
  intros Hm Hf s h s' b [(e & [=] & _)|(h1 & s1 & a & h2 & -> & Hr & Hk)]%runs_bind.
  apply Hm in Hr as ->. by apply Hf in Hk.
Qed.
Lemma sure_fault {A} e : sure (fault (A:=A) e).
Proof. by intros s h s' a (_ & _ & [=])%runs_fault. Qed.
#[local] Hint Resolve session_honest session_sure session_keeps sure_fault : effects.

Lemma keeps_run path args env lock input limit : keeps (runFixed path args env lock input limit).
Proof.
  apply keeps_both; [by intros h s' r (v & _ & -> & _)%runs_ask|]. intros o. apply looks_keeps, (quiet_of changes).
Qed.
Lemma keeps_kube input args : keeps (kube input args).
Proof. apply keeps_both; [apply keeps_run|]. intros b. apply looks_keeps. looks. Qed.
Lemma rest_keeps ai candidate wasRunning :
  keeps (stopped ← get_deployment (po_AIDeployment policy);
    refuse (deployment_uid stopped <>s po_AIDeploymentUID policy) || negb (SpecFloat.SFeqb (replicas stopped) f0)
           || (sha256_hex (template_of stopped) <>s sha256_hex (template_of ai))
      with Plain "deployment changed during stop; source is saved but live apply is refused" ;;
    _ ← kube (json_text (replacement candidate stopped)) ["-n"; po_Namespace policy; "replace"; "-f"; "-"; "-o"; "json"];
    if wasRunning : bool then session "ai" else mret tt).
Proof.
  apply keeps_both; [apply keeps_kube|]. intros stopped. cbn beta.
  match goal with |- keeps (if ?c then _ else _) => destruct c end; [apply looks_keeps, (quiet_of changes)|].
  apply keeps_both; [apply keeps_kube|]. intros _. destruct wasRunning; [auto with effects|]. apply looks_keeps, (quiet_of changes (Ok tt)).
Qed.
Lemma apply_honest ai candidate wasRunning : honest (apply_candidate policy ai candidate wasRunning).
Proof. apply honest_then; [auto with effects|apply session_sure|]. intros _. apply rest_keeps. Qed.
Lemma apply_sure ai candidate wasRunning : sure (apply_candidate policy ai candidate wasRunning).
Proof. apply sure_then; [auto with effects|]. intros _. apply rest_keeps. Qed.

(** ** The whole run *)

(** Split a run into its parts. *)
Ltac parts :=
  repeat first
    [ done
    | progress cbn beta iota zeta
    | solve [eauto with effects]
    | match goal with
      | |- ∀ _, _ => intro
      | |- honest (mbind _ _) => apply honest_bind
      | |- sure (mbind _ _) =>
        first [ apply sure_then; [solve [eauto with effects]|intros _; solve [apply looks_keeps; looks]] | apply sure_bind ]
      | |- honest (match ?c with _ => _ end) => destruct c
      | |- sure (match ?c with _ => _ end) => destruct c
      | |- honest _ => apply looks_honest; solve [looks]
      end ].
#[local] Hint Resolve apply_honest apply_sure : effects.

Lemma transition_honest r ai game : honest (transition policy r ai game).
Proof. unfold transition, configure. parts. Qed.
Lemma transition_sure r ai game : sure (transition policy r ai game).
Proof. unfold transition, configure. parts. Qed.
#[local] Hint Resolve transition_honest transition_sure : effects.

Lemma body_honest r : honest (execute_body r).
Proof. unfold HostRun.execute_body. parts. Qed.
(** The dispatch of [execute_body] over its action: a diagnostic, or a transition. *)
Lemma body_parts r :
  ∃ diagnostic transition, looks diagnostic ∧ sure transition ∧
    execute_body r = (verified ← ask HVerify; _ ← of_result verified; _ ← revalidate r;
      if readOnlyAction (d_Action (rq_Draft r)) then diagnostic else transition).
Proof.
  unfold HostRun.execute_body, readOnlyAction, EvidenceAction.
  destruct (d_Action (rq_Draft r) =s "hardware.refresh"); [eexists _, (fault (Plain "")); split; [|split; [apply sure_fault|reflexivity]]; looks|].
  destruct (MemoryAction (d_Action (rq_Draft r))); [rewrite orb_true_r; eexists _, (fault (Plain "")); split; [|split; [apply sure_fault|reflexivity]]; looks|].
  destruct (PerformanceAction (d_Action (rq_Draft r))); [rewrite !orb_true_r; eexists _, (fault (Plain "")); split; [|split; [apply sure_fault|reflexivity]]; looks|].
  rewrite !orb_false_r. cbn [orb]. destruct (d_Action (rq_Draft r) =s "cpu-policy.export").
  - eexists _, (fault (Plain "")); split; [|split; [apply sure_fault|reflexivity]]; looks.
  - eexists (fault (Plain "")), _. split; [apply (quiet_of changes (Err _))|]. split; [|reflexivity]. parts.
Qed.
Lemma body_looks r : readOnlyAction (d_Action (rq_Draft r)) = true → looks (execute_body r).
Proof. intros Hr. destruct (body_parts r) as (d & t & Hd & _ & ->). rewrite Hr. looks. Qed.
Lemma body_sure r : readOnlyAction (d_Action (rq_Draft r)) = false → sure (execute_body r).
Proof. intros Hr. destruct (body_parts r) as (d & t & _ & Ht & ->). rewrite Hr. parts. Qed.

Lemma execute_runs r h out : leaf (execute r) h out →
  ∃ s res, runs (execute_body r) false h s res ∧
    out = match res with Ok data => (data, None) | Err e => (None, Some (mkRunError (negb s) (error_text e))) end.
Proof.
  unfold HostRun.execute. intros (h1 & [s res] & h2 & -> & Hr & [-> ->])%(leaf_bind (E:=HostAct) (answer:=host_answer)).
  exists s, res. by rewrite app_nil_r.
Qed.

(** The helper accounts for what it did: a diagnostic never changes a workload, and the
    record of any other operation ends as failed exactly when the run started no command
    that changes one, neither a session switch nor a replacement of the Deployment; when
    something was started it ends as succeeded or asks for recovery. *)
Theorem run_accounts rec h data err : leaf (execute (hr_Request rec)) h (data, err) →
  if readOnlyAction (hr_Action rec) then unchanged h
  else (hr_State (run_outcome data err rec) = "failed" ↔ unchanged h) ∧
       (changed h → hr_State (run_outcome data err rec) = "succeeded" ∨ hr_State (run_outcome data err rec) = "recovery-required").
Proof.
  intros (s & res & Hr & Ho)%execute_runs. destruct (readOnlyAction (hr_Action rec)) eqn:Hro.
  { by apply body_looks in Hr as [_ Hr]. }
  pose proof (body_honest _ _ _ _ _ Hr) as Hh. unfold run_outcome.
  assert (EvidenceAction (hr_Action rec) = false) as He by (unfold readOnlyAction in Hro; by apply orb_false_iff in Hro as [_ Hro]).
  destruct res as [d|e]; injection Ho as -> ->; cbn beta iota.
  - apply body_sure in Hr; [subst s|done]. destruct Hh as [|Hh]; [done|]. unfold hr_Action, hr_Draft in *. cbn in *. rewrite He. cbn.
    split; [|by left]. split; [done|]. intros Hu%not_changed. done.
  - unfold hr_Action, hr_Draft in *. cbn in *. rewrite Hro. destruct s; cbn.
    + destruct Hh as [|Hh]; [done|]. split; [|by right]. split; [done|]. intros Hu%not_changed. done.
    + destruct Hh as [_ Hh]. split; [done|]. intros Hc. by apply not_changed in Hh.
Qed.

(** ** What precedes a change *)

(** The operations that end with the configured model being served. *)
Definition serves (d : Draft) : Prop :=
  d_Action d ∈ ["serving.configure"; "resources.configure"; "serving.start"; "serving.restart"] ∨ d_Action d = "profile.switch" ∧ d_Profile d = "ai".
(** The session profiles an operation may switch to. *)
Definition switches_to (d : Draft) (profile : string) : Prop :=
  d_Action d = "profile.switch" ∧ profile = d_Profile d ∨ d_Action d = "profile.restore" ∧ profile = "restore" ∨
  d_Action d = "serving.stop" ∧ profile = "maintenance" ∨ d_Action d = "serving.start" ∧ profile = "ai" ∨
  (d_Action d ∉ ["profile.switch"; "profile.restore"; "serving.stop"; "serving.start"]) ∧ (profile = "maintenance" ∨ profile = "ai").
(** What must be known before anything of an operation is started. *)
Record cleared (r : Request) (h : list host_event) : Prop := {
  cl_verified : ev HVerify (Ok tt) ∈ h;
  cl_valid : ∃ now src records, ev HValidation (now, src, records) ∈ h ∧ validate policy now src records r = Ok tt;
  cl_hardware : hardware_current h;
  cl_ai : ∃ d, observed h (get_object policy "deployment" (po_AIDeployment policy)) d ∧ deployment_uid d = po_AIDeploymentUID policy;
  cl_game : ∃ d, observed h (get_object policy "deployment" (po_GameDeployment policy)) d ∧ deployment_uid d = po_GameDeploymentUID policy;
  cl_model : serves (rq_Draft r) → model_verified (rq_Desired r) h }.
(** What must be known before a saved session is restored: the snapshot was read, and each
    workload it brings back is qualified as the cluster reports it, the AI workload with its
    model verified. *)
Definition restorable (r : Request) (h : list host_event) : Prop :=
  ∃ b ai_saved game_saved ai game, ev (HRead (session_state policy)) (Some b) ∈ h ∧ saved_session b = Some (ai_saved, game_saved) ∧
    observed h (get_object policy "deployment" (po_AIDeployment policy)) ai ∧ observed h (get_object policy "deployment" (po_GameDeployment policy)) game ∧
    (ai_saved = 1 → model_verified (rq_Desired r) h ∧ qualified "ai" ai h) ∧ (game_saved = 1 → qualified "gaming" game h).
Definition may_restore (r : Request) (h : list host_event) : Prop := d_Action (rq_Draft r) = "profile.restore" → restorable r h.
(** The candidate a replacement submits: rendered from the Deployment the cluster reported and
    the desired configuration, and itself qualified. *)
Definition prepared (r : Request) (candidate : JSON) (h : list host_event) : Prop :=
  ∃ ai, observed h (get_object policy "deployment" (po_AIDeployment policy)) ai ∧ servingCandidate policy ai (rq_Desired r) = Ok candidate ∧ qualified "ai" candidate h.
(** A switch to a workload, and a replacement. *)
Definition justified (r : Request) (e : HostAct) (h : list host_event) : Prop :=
  cleared r h ∧ may_restore r h ∧
  match e with
  | HExec path args _ _ input =>
    ((path = workstationctl policy ∧ ∃ profile, args = session_args policy profile ∧ switches_to (rq_Draft r) profile) ∨ (path = po_Kubectl policy ∧ is_replace args = true)) ∧
    (∀ profile, args = session_args policy profile → profile = "ai" ∨ profile = "gaming" →
       ∃ d, observed h (get_object policy "deployment" (if profile =s "gaming" then po_GameDeployment policy else po_AIDeployment policy)) d ∧ qualified profile d h) ∧
    (is_replace args = true → ∃ env out d candidate,
       ev (HExec (workstationctl policy) (session_args policy "maintenance") env true "") (RunExited true out) ∈ h ∧
       observed h (get_object policy "deployment" (po_AIDeployment policy)) d ∧
       deployment_uid d = po_AIDeploymentUID policy ∧ SpecFloat.SFeqb (replicas d) f0 = true ∧
       prepared r candidate h ∧ input = json_text (replacement candidate d))
  | _ => True
  end.

Lemma serves_needs d : serves d → needs_model d = true.
Proof. unfold serves, needs_model. intros [->%str_in_spec|[-> ->]]; [done|]. by rewrite orb_true_r. Qed.
Lemma cleared_mono r h h' : h ⊆ h' → cleared r h → cleared r h'.
Proof.
  intros Hs [Hv (now & src & rs & ? & ?) Hh (d & ? & ?) (g & ? & ?) Hm].
  split; [auto|exists now, src, rs; auto|eauto using hardware_mono|exists d; eauto using observed_mono|exists g; eauto using observed_mono|eauto using model_mono].
Qed.

Lemma restore_mono r h h' : h ⊆ h' → may_restore r h → may_restore r h'.
Proof.
  intros Hs Hr Ha. destruct (Hr Ha) as (b & a & g & ai & game & ? & ? & ? & ? & Hai & Hga). exists b, a, g, ai, game.
  split; [auto|]. split; [done|]. do 2 (split; [eauto using observed_mono|]). split.
  - intros []%Hai. split; [eauto using model_mono|eauto using qualified_mono].
  - intros ?%Hga. eauto using qualified_mono.
Qed.
Lemma prepared_mono r candidate h h' : h ⊆ h' → prepared r candidate h → prepared r candidate h'.
Proof. intros Hs (ai & ? & ? & ?). exists ai. eauto using observed_mono, qualified_mono. Qed.

(** ** The theorem on starting *)

Lemma profile_args p q : session_args policy p = session_args policy q → p = q.
Proof.
  unfold session_args. destruct (String.eqb_spec p "restore") as [->|Hp], (String.eqb_spec q "restore") as [->|Hq]; cbn; intros Heq; try done; by injection Heq.
Qed.

Lemma session_not_replace p : is_replace (session_args policy p) = false.
Proof. unfold is_replace, session_args. destruct (p =s "restore"); done. Qed.

Lemma after_exec J h0 path args env lock input limit : J (HExec path args env lock input) h0 → after J h0 (runFixed path args env lock input limit).
Proof.
  intros HJ s h s' r Hr h1 i h2 Heq Hi. assert (∃ o, h = [ev (HExec path args env lock input) o]) as [o ->].
  { apply runs_bind in Hr as [(e & _ & (v & -> & _)%runs_ask)|(ha & s1 & o & hb & -> & (v & -> & _)%runs_ask & (-> & _)%runs_of)]; by eexists. }
  destruct h1 as [|j h1]; injection Heq; [intros <- <-; by rewrite app_nil_r|]. by destruct h1.
Qed.
Lemma session_after r profile h0 : cleared r h0 → may_restore r h0 → switches_to (rq_Draft r) profile → after (justified r) h0 (session profile).
Proof.
  intros Hc Hres Hto. unfold Runtime.session. apply after_check; [apply reads_looks, reads_desired|]. intros s h1 desired Hd.
  assert (profile = "ai" ∨ profile = "gaming" → desired = profile) as Hdes.
  { intros Hp. unfold desired_profile in Hd. rewrite (neqb_str profile "restore") in Hd by (by destruct Hp; subst). by apply runs_ret in Hd as (_ & _ & [= ->]). }
  apply after_check; [looks|]. intros s2 h2 env Henv.
  assert (profile = "ai" ∨ profile = "gaming" → ∃ d, observed h2 (get_object policy "deployment" (if profile =s "gaming" then po_GameDeployment policy else po_AIDeployment policy)) d ∧ qualified profile d h2) as Hq.
  { intros Hp. rewrite (Hdes Hp) in Henv. assert ((profile =s "ai") || (profile =s "gaming") = true) as Hb by (by destruct Hp; subst).
    rewrite Hb in Henv. apply runs_bind in Henv as [(e & [=] & _)|(h3 & s3 & d & h4 & -> & Hg%kube_ok & Hr)].
    apply runs_bind in Hr as [(e & [=] & _)|(h5 & s5 & [] & h6 & -> & Hqu%qualify_ok & _)]. exists d.
    assert ((if profile =s "gaming" then d else d) = d) as Hdd by (by destruct (_ =s _)). rewrite Hdd in Hqu.
    split; [eapply observed_mono; [|done]|eapply qualified_mono; [|done]]; set_solver. }
  clear Henv Hd. apply after_bind; [by intros s0 h s' res [-> _] [|] i h2'|]. intros s0 h5 s1 [] [-> _].
  apply after_bind; [|intros; apply after_quiet, (quiet_of changes (Ok tt))]. apply after_exec.
  split; [eapply cleared_mono; [|exact Hc]; set_solver|]. split; [eapply restore_mono; [|exact Hres]; set_solver|].
  split; [left; split; [done|]; by exists profile|]. split; [|by rewrite session_not_replace]. intros p <-%profile_args Hp.
  destruct (Hq Hp) as (d & ? & ?). exists d. split; [eapply observed_mono; [|done]|eapply qualified_mono; [|done]]; set_solver.
Qed.

(** The helper's own replacement starts nothing else. *)
Lemma replace_after r h0 candidate d :
  cleared r h0 → may_restore r h0 → prepared r candidate h0 →
  (∃ env out, ev (HExec (workstationctl policy) (session_args policy "maintenance") env true "") (RunExited true out) ∈ h0) →
  observed h0 (get_object policy "deployment" (po_AIDeployment policy)) d → deployment_uid d = po_AIDeploymentUID policy → SpecFloat.SFeqb (replicas d) f0 = true →
  after (justified r) h0 (kube (json_text (replacement candidate d)) ["-n"; po_Namespace policy; "replace"; "-f"; "-"; "-o"; "json"]).
Proof.
  intros Hc Hres Hp (env & out & Hs) Ho Hu Hz. unfold Runtime.kube. apply after_bind; [|intros; apply after_quiet; looks]. apply after_exec.
  split; [done|]. split; [done|]. split; [by right|]. split; [|by intros _; exists env, out, d, candidate].
  intros profile Ha. exfalso. revert Ha. unfold session_args, kube_args. cbn. by destruct (_ =s _).
Qed.
(** An operation that is none of the four that only switch. *)
Definition configures (r : Request) : Prop := d_Action (rq_Draft r) ∉ ["profile.switch"; "profile.restore"; "serving.stop"; "serving.start"].
Lemma configures_may_restore r h : configures r → may_restore r h.
Proof. intros Hn Ha. exfalso. apply Hn. rewrite Ha. set_solver. Qed.
Lemma configures_to r p : configures r → p = "maintenance" ∨ p = "ai" → switches_to (rq_Draft r) p.
Proof. intros Hn Hp. by do 4 right. Qed.
Lemma apply_after r h0 ai candidate wasRunning : cleared r h0 → configures r → prepared r candidate h0 → after (justified r) h0 (apply_candidate policy ai candidate wasRunning).
Proof.
  intros Hc Hn Hp. pose proof (configures_may_restore r) as Hres. unfold apply_candidate. apply after_bind; [apply session_after; auto using configures_to|]. intros s h1 s1 [] Hse.
  apply after_check; [apply reads_looks, reads_deployment|]. intros s2 h2 stopped Hst%kube_ok.
  match goal with |- after _ _ (if ?c then _ else _) => destruct c eqn:Hok end; [apply after_quiet, (quiet_of changes (Err _))|]. bool_hyps.
  apply after_bind.
  - apply replace_after; [eapply cleared_mono; [|exact Hc]; set_solver|auto|eapply prepared_mono; [|exact Hp]; set_solver| |eapply observed_mono; [|done]; set_solver|done|done].
    apply session_runs in Hse as [(e & [=] & _)|(_ & h3 & env & o & -> & _ & Ho)]. destruct (Ho eq_refl) as [out ->]. exists env, out. set_solver.
  - intros s3 h3 s4 _ _. destruct wasRunning; [|apply after_quiet, (quiet_of changes (Ok tt))].
    apply session_after; [eapply cleared_mono; [|exact Hc]; set_solver|auto|auto using configures_to].
Qed.
Lemma configure_after r h0 ai game : cleared r h0 → configures r → observed h0 (get_object policy "deployment" (po_AIDeployment policy)) ai →
  after (justified r) h0 (configure policy r ai game).
Proof.
  intros Hc Hn Ho. unfold configure. destruct (negb _); [apply after_quiet, (quiet_of changes (Err _))|]. cbv zeta.
  apply after_check; [looks|]. intros s1 h1 candidate (-> & _ & Hcand)%runs_of.
  apply after_check; [looks|]. intros s2 h2 [] Hq%qualify_ok. apply after_check; [looks|]. intros s3 h3 [] _. apply after_check; [looks|]. intros s4 h4 [] _.
  apply apply_after; [eapply cleared_mono; [|exact Hc]; set_solver|done|]. exists ai.
  split; [eapply observed_mono; [|exact Ho]; set_solver|]. split; [done|]. eapply qualified_mono; [|exact Hq]. set_solver.
Qed.
(** The checks of a restore. *)
Lemma restore_ok r ai game h0 s h s' : observed h0 (get_object policy "deployment" (po_AIDeployment policy)) ai →
  observed h0 (get_object policy "deployment" (po_GameDeployment policy)) game → runs (restore_checks policy r ai game) s h s' (Ok tt) → restorable r (h0 ++ h).
Proof.
  intros Ha Hg. unfold restore_checks. intros [(e & [=] & _)|(h1 & s1 & b & h2 & -> & (v & -> & _ & [= ->])%runs_ask & Hr)]%runs_bind.
  destruct v as [b|]; [|by apply runs_fault in Hr as (_ & _ & [=])]. destruct (saved_session b) as [[a g]|] eqn:Hb; [|by apply runs_fault in Hr as (_ & _ & [=])].
  apply runs_bind in Hr as [(e & [=] & _)|(h3 & s3 & [] & h4 & -> & Hai & Hga)].
  exists b, a, g, ai, game. split; [set_solver|]. split; [done|]. do 2 (split; [eapply observed_mono; [|done]; set_solver|]). split.
  - intros ->. cbn in Hai. apply runs_bind in Hai as [(e & [=] & _)|(h5 & s5 & [] & h6 & -> & Hm%model_ok & Hq%qualify_ok)].
    split; [eapply model_mono; [|done]|eapply qualified_mono; [|done]]; set_solver.
  - intros ->. cbn in Hga. apply qualify_ok in Hga. eapply qualified_mono; [|exact Hga]. set_solver.
Qed.

Lemma transition_after r h0 ai game : cleared r h0 → observed h0 (get_object policy "deployment" (po_AIDeployment policy)) ai →
  observed h0 (get_object policy "deployment" (po_GameDeployment policy)) game → after (justified r) h0 (transition policy r ai game).
Proof.
  intros Hc Ha Hg. assert (∀ h, h0 ⊆ h → cleared r h) as Hc' by (intros h Hs; by eapply cleared_mono).
  unfold transition. set (a := d_Action (rq_Draft r)). assert (∀ h, a ≠ "profile.restore" → may_restore r h) as Hres by (by intros h Hne ?%Hne).
  destruct (String.eqb_spec a "profile.switch") as [Hs|Hs].
  { apply after_check; [looks|]. intros s1 h1 [] _. apply after_check; [looks|]. intros s2 h2 [] _.
    apply session_after; [apply Hc'; set_solver|by apply Hres; rewrite Hs|by left]. }
  destruct (String.eqb_spec a "profile.restore") as [Hr|Hr].
  { apply after_check; [looks|]. intros s1 h1 [] Hok%(restore_ok _ _ _ _ _ _ _ Ha Hg). apply after_check; [looks|]. intros s2 h2 [] _.
    apply session_after; [apply Hc'; set_solver|eapply (restore_mono _ (h0 ++ h1)); [set_solver|by intros _]|by right; left]. }
  destruct (String.eqb_spec a "serving.stop") as [Hp|Hp].
  { apply after_check; [looks|]. intros s1 h1 [] _. apply session_after; [apply Hc'; set_solver|auto|by do 2 right; left]. }
  destruct (String.eqb_spec a "serving.start") as [Ht|Ht].
  { apply after_check; [looks|]. intros s1 h1 [] _. apply after_check; [looks|]. intros s2 h2 [] _.
    apply session_after; [apply Hc'; set_solver|auto|by do 3 right; left]. }
  assert (configures r) as Hn by (unfold configures; fold a; set_solver).
  destruct (String.eqb_spec a "serving.restart") as [Hx|Hx]; [|by apply configure_after].
  apply after_check; [looks|]. intros s1 h1 [] _. apply after_check; [looks|]. intros s2 h2 [] _.
  apply after_bind; [apply session_after; [apply Hc'; set_solver|auto|auto using configures_to]|]. intros s3 h3 s4 [] _.
  apply session_after; [apply Hc'; set_solver|auto|auto using configures_to].
Qed.

(** C7: Nothing is started unseen: whatever change a run of the helper starts, before it the
    installed runtime was verified, the request passed the whole policy and the canonical
    source, the hardware report was root-owned, at most a day old and of this boot, both
    Deployments carried the reviewed identities, and a model that is to be served had exactly
    its reviewed files; a restore came after every workload of the saved session was found
    qualified, its model verified; a command switches only to a profile of its operation, and a
    switch to a workload came after a current qualification of the very Pod template and
    ConfigMaps the cluster reported; and a replacement of the Deployment submits the document
    rendered from the reported Deployment and the desired configuration, itself qualified, after
    the switch to maintenance had succeeded and the Deployment was seen without replicas. *)
Theorem changes_justified r h out h1 i h2 :
  leaf (execute r) h out → h = h1 ++ i :: h2 → changes (projT1 i) = true → justified r (projT1 i) h1.
Proof.
  intros (s & res & Hr & _)%execute_runs Heq Hi.
  enough (after (justified r) [] (execute_body r)) as Ha by exact (Ha _ _ _ _ Hr _ _ _ Heq Hi). clear Hr Heq Hi.
  destruct (readOnlyAction (d_Action (rq_Draft r))) eqn:Hro; [apply after_quiet, body_looks, Hro|].
  unfold readOnlyAction, EvidenceAction in Hro. rewrite !orb_false_iff in Hro. destruct Hro as [[Hhr Hcpu] [Hm Hp]].
  unfold HostRun.execute_body. rewrite Hhr, Hcpu, Hm, Hp.
  apply after_check; [looks|]. intros sa ha verified (v & -> & _ & [= <-])%runs_ask.
  apply after_check; [looks|]. intros sb hb [] (-> & _ & <-)%runs_of.
  apply after_check; [looks|]. intros sc hc [] Hv%valid_ok.
  apply after_check; [looks|]. intros sd hd [] Hh%hardware_ok.
  apply after_check; [looks|]. intros se he ai Hai%kube_ok.
  apply after_check; [looks|]. intros sf hf game Hga%kube_ok.
  match goal with |- after _ _ (if ?c then _ else _) => destruct c eqn:Hu end; [apply after_quiet, (quiet_of changes (Err _))|]. bool_hyps.
  apply after_check; [looks|]. intros sg hg [] Hmo.
  apply after_bind; [|intros; apply after_quiet, (quiet_of changes (Ok None))].
  apply transition_after; [|eapply observed_mono; [|exact Hai]; set_solver|eapply observed_mono; [|exact Hga]; set_solver].
  destruct Hv as (now & src & records & Hv & ?). split.
  - set_solver.
  - exists now, src, records. split; [set_solver|done].
  - eapply hardware_mono; [|done]. set_solver.
  - exists ai. split; [eapply observed_mono; [|done]; set_solver|done].
  - exists game. split; [eapply observed_mono; [|done]; set_solver|done].
  - intros Hn%serves_needs. rewrite Hn in Hmo. apply model_ok in Hmo. eapply model_mono; [|done]. set_solver.
Qed.
(** ** The evidence budget *)

(** No interaction of a kind, whatever the flag. *)
Definition never (P : HostAct → bool) {A} (m : Exec A) : Prop := ∀ s h s' r, runs m s h s' r → Forall (λ i, P (projT1 i) = false) h.
Lemma quiet_never P {A} (m : Exec A) : quiet P m → never P m.
Proof. by intros Hm s h s' r [_ Hh]%Hm. Qed.
Lemma never_bind P {A B} (m : Exec A) (f : A → Exec B) : never P m → (∀ a, never P (f a)) → never P (m ≫= f).
Proof.
  intros Hm Hf s h s' r [(e & _ & Hr)|(h1 & s1 & a & h2 & -> & K1 & K2)]%runs_bind; [by apply Hm in Hr|].
  apply Forall_app. split; [by apply Hm in K1|by apply Hf in K2].
Qed.
Lemma after_never P J {A} h0 (m : Exec A) : never P m → preceded P J h0 m.
Proof. intros Hm s h s' r Hu%Hm h1 i h2 -> Hi. apply Forall_app in Hu as [_ Hu]. apply Forall_cons in Hu as [Hu _]. congruence. Qed.
Ltac never :=
  repeat first
    [ match goal with |- ∀ _, _ => intro | |- never _ (mbind _ _) => apply never_bind end
    | solve [eauto with effects]
    | solve [apply quiet_never; quiet]
    | match goal with |- never _ (match ?c with _ => _ end) => destruct c end
    | progress cbn beta iota zeta ].

Lemma making_run path args env lock input limit : quiet making (runFixed path args env lock input limit).
Proof. by apply quiet_run. Qed.
Lemma making_kube input args : quiet making (kube input args).
Proof. by apply quiet_kube. Qed.
#[local] Hint Resolve making_run making_kube : effects.
Lemma session_makes_none profile : never making (session profile).
Proof. unfold Runtime.session. never. by intros s h s' r [-> _]. Qed.
Lemma collect_makes_none args : quiet making (collect policy args).
Proof. unfold collect. quiet. Qed.
#[local] Hint Resolve session_makes_none collect_makes_none : effects.
Lemma transition_makes_none r ai game : never making (transition policy r ai game).
Proof. unfold transition, configure, apply_candidate. never. Qed.
Lemma diagnostics_make_none id : quiet making (refreshHardware policy id) ∧ quiet making (exportCPUPolicy policy id).
Proof. unfold refreshHardware, export_evidence, exportCPUPolicy, planner_file. split; quiet. Qed.
#[local] Hint Resolve transition_makes_none : effects.

(** C24: Evidence stays within its budget: whenever a run of the helper makes a directory for
    new evidence, it had measured the storage of that kind of evidence and the free space
    before, and what is stored there, with the sealed source and eight MiB for an intake,
    eight MiB for a plan or the largest bundle and 64 MiB for an analysis, is at most four GiB
    and leaves 32 MiB of the file system free; the sums are exact for every size a file
    system reports up to 2^62 bytes. *)
Theorem evidence_bounded r h out h1 i h2 :
  leaf (execute r) h out → h = h1 ++ i :: h2 → making (projT1 i) = true → admitted policy r (projT1 i) h1.
Proof.
  intros (s & res & Hr & _)%execute_runs Heq Hi.
  enough (preceded making (admitted policy r) [] (execute_body r)) as Ha by exact (Ha _ _ _ _ Hr _ _ _ Heq Hi). clear Hr Heq Hi.
  unfold HostRun.execute_body. apply after_check; [quiet|]. intros sa ha verified _.
  apply after_check; [quiet|]. intros sb hb [] _.
  apply after_check; [quiet|]. intros sc hc [] _.
  destruct (_ =s "hardware.refresh"); [apply after_quiet; quiet; apply diagnostics_make_none|].
  destruct (MemoryAction _) eqn:Hm; [apply after_bind; [by apply executeMemory_admitted|intros; apply after_quiet; quiet]|].
  destruct (PerformanceAction _) eqn:Hp; [apply after_bind; [by apply executePerformance_admitted|intros; apply after_quiet; quiet]|].
  apply after_never. never. apply quiet_never, diagnostics_make_none.
Qed.
End Effects.

(** ** A concrete run *)

Module EffectsFixture.
#[export] Existing Instance render_hash.
#[export] Instance template_hash : TemplateHash := λ _, "".
#[export] Instance no_docs : JSONText := λ _, None.
#[export] Instance no_render : JSONRender := λ _, "".
#[export] Instance deployments : AnyText := λ t,
  Some (JObject [("metadata", JObject [("uid", JString (if t =s "game" then "u2" else "u1"))])]).
#[export] Instance no_floats : FloatText := {| parse_float := λ _, (f0, false); format_float := λ _, "" |}.
#[export] Instance no_rfc : RFC3339 := λ _, None.
#[export] Instance epoch : TimeText := λ _, Some 0.
Definition request : Request :=
  let c := DomainFixture.config in
  let d := mkDraft "serving.stop" "ws" (cf_Revision c) "" "" "" "" None None None None None in
  let r := mkRequest 1 "stop-0001" "bridge" "" d c in set_rq_PayloadHash (RequestHash r) r.
Definition stopping : record := accept_record HostFixture.policy 5 1000 request.
Definition absent : error := Plain "absent".
(** A host on which every check passes, without evidence. *)
Definition host (e : HostAct) : host_answer e :=
  match e with
  | HVerify => Ok tt
  | HValidation => (5, Document DomainFixture.config, ∅)
  | HNow => Hour
  | HRange keys => exist _ (elements keys) (Permutation_refl _)
  | HExec _ args _ _ _ => RunExited true (if str_in "game" args then "game" else "ai")
  | HRead _ => Some "boot"
  | HDecode _ => Some (Some (JObject [("collected_at", JString "t"); ("status", JString "observed")]))
  | HTrusted _ _ => Trusted
  | HModelTree _ => mkModelTree false false (λ _, false) false []
  | HMakeDir _ _ | HPublish _ _ _ | HRemove _ | HSyncDir _ => Ok tt
  | HMkdir _ _ | HCopyMemory _ _ _ | HSyncOutput _ | HCopyPerformance _ _ _ => Ok tt
  | HRecords => ∅
  | HTree _ => []
  | HBundle _ => (Err absent, [])
  | HTelemetry _ => Err absent
  | HObserve _ | HOutput _ _ _ => MemoryPlan.mkPlanFiles (Err absent) (Err absent) (Err absent) (Err absent) (λ _, Err absent) (Err absent) (Err absent)
      (Err absent) (Err absent) (λ _, Err absent) (λ _, Err absent) (λ _, Err absent) (λ _, Err absent) (λ _, Err absent)
  | HRawJSON _ => Err absent
  | HHashFile _ | HStatfs _ => None
  | HSafeRead _ _ => Err absent
  | HPerfBundle _ => (λ _, Err absent, Err absent, [])
  end.
Definition stopped := play host (execute (λ _, "") HostFixture.policy request).
Definition history : list host_event := default [] (fst <$> stopped).
Lemma played : is_some stopped = true.
Proof. vm_compute. reflexivity. Qed.
Lemma stopped_leaf : leaf (execute (λ _, "") HostFixture.policy request) history (default (None, None) (snd <$> stopped)).
Proof.
  unfold history. destruct stopped as [[h out]|] eqn:E; [exact (play_leaf host _ h out E)|].
  pose proof played as Hp. rewrite E in Hp. discriminate Hp.
Qed.
Lemma stopped_out : default (None, None) (snd <$> stopped) = (None, None) ∧ existsb (λ i, changes (projT1 i)) history = true.
Proof. split; vm_compute; reflexivity. Qed.
Lemma stopped_change : ∃ h1 i h2, history = h1 ++ i :: h2 ∧ changes (projT1 i) = true.
Proof.
  destruct stopped_out as [_ Hc]. apply existsb_exists in Hc as (i & Hi%list_elem_of_In & Hc).
  apply list_elem_of_split in Hi as (h1 & h2 & Hh). exists h1, i, h2. exact (conj Hh Hc).
Qed.
End EffectsFixture.
Import EffectsFixture.

Lemma run_accounts_witness : changed history ∧ hr_State (run_outcome None None stopping) = "succeeded".
Proof.
  pose proof (run_accounts (λ _, "") HostFixture.policy stopping history (default (None, None) (snd <$> stopped)).1 (default (None, None) (snd <$> stopped)).2) as Hr.
  rewrite (proj1 stopped_out) in Hr. cbn [fst snd] in Hr.
  assert (leaf (execute (λ _, "") HostFixture.policy (hr_Request stopping)) history (None, None)) as Hl by (rewrite <- (proj1 stopped_out); exact stopped_leaf).
  destruct (Hr Hl) as [Hf _]. split; [|vm_compute; reflexivity].
  destruct stopped_change as (h1 & i & h2 & -> & Hc). apply Exists_app. right. by apply Exists_cons_hd.
Defined.
Lemma changes_justified_witness : ∃ h1 i h2, history = h1 ++ i :: h2 ∧ cleared HostFixture.policy request h1.
Proof.
  destruct stopped_change as (h1 & i & h2 & Hh & Hc). exists h1, i, h2. split; [exact Hh|].
  exact (proj1 (changes_justified (λ _, "") HostFixture.policy request history _ h1 i h2 stopped_leaf Hh Hc)).
Defined.

(** ** A run that makes room for evidence *)

Module ExportRun.
Import ExportFixture.
Definition run := play host (execute PlanFixture.Sum policy request).
Definition trace : list host_event := default [] (fst <$> run).
Lemma run_ends : existsb (λ i, making (projT1 i)) trace = true.
Proof. vm_compute. reflexivity. Qed.
Lemma run_leaf : ∃ out, leaf (execute PlanFixture.Sum policy request) trace out.
Proof.
  pose proof run_ends as He. unfold trace in *. destruct run as [[h out]|] eqn:E; [|discriminate He]. exists out. exact (play_leaf host _ h out E).
Qed.
Lemma makes_room : ∃ h1 i h2, trace = h1 ++ i :: h2 ∧ making (projT1 i) = true.
Proof.
  pose proof run_ends as (i & Hi%list_elem_of_In & Hc)%existsb_exists.
  apply list_elem_of_split in Hi as (h1 & h2 & Hh). exists h1, i, h2. exact (conj Hh Hc).
Qed.
End ExportRun.

Lemma evidence_bounded_witness : ∃ h1 i h2, ExportRun.trace = h1 ++ i :: h2 ∧ making (projT1 i) = true ∧
  admitted ExportFixture.policy ExportFixture.request (projT1 i) h1.
Proof.
  destruct ExportRun.run_leaf as [out Hl]. destruct ExportRun.makes_room as (h1 & i & h2 & Hh & Hm). exists h1, i, h2. split; [exact Hh|]. split; [exact Hm|].
  refine (@evidence_bounded _ _ _ _ _ _ _ _ PlanFixture.Sum ExportFixture.policy ExportFixture.request ExportRun.trace out h1 i h2 Hl Hh Hm).
Defined.
