(* ===== verification/Cgroup.v ===== *)
(** The delegated cgroup of one build job ([internal/worker/cgroup.go]) and what its
    state says about a job whose worker is gone ([groupEmpty] and [restartDisposition]
    of [internal/worker/linux.go]). *)
From S2P Require Import Prelude Json Types Domain.
From stdpp Require Import pretty.
#[local] Open Scope Z_scope.

(** ** The file interface

    [cgroupFiles] of the source: what the worker may do to the delegated subtree.  The
    kernel's cgroup file system implements it in production, a table of files in the
    worker's tests. *)
Class cgroupFiles (FS : Type) := {
  cg_ReadFile : FS → string → option string;
  cg_WriteFile : FS → string → string → FS * bool;
  cg_Mkdir : FS → string → FS * bool }.

(** What the worker relies on: a write to one control file leaves the text of the others. *)
Class cgroupFrame (FS : Type) `{cgroupFiles FS} : Prop :=
  cg_frame fs p q data fs' b :
    cg_WriteFile fs p data = (fs', b) → p ≠ q → cg_ReadFile fs' q = cg_ReadFile fs q.

Definition requiredCgroupControllers : list string := ["cpu"; "memory"; "pids"].

Definition missingControllers (have : string) : list string :=
  List.filter (λ c, negb (str_in c (fields have))) requiredCgroupControllers.

Definition containsField (value want : string) : bool := str_in want (fields value).

(** [validID]: [^\[a-zA-Z0-9_-\]{8,100}$]. *)
Definition validID (id : string) : bool :=
  (8 <=? str_len id) && (str_len id <=? 100)
  && all_chars (λ c, is_alnum c || Ascii.eqb c "_"%char || Ascii.eqb c "-"%char) id.

Section Files.
Context {FS : Type} `{cgroupFiles FS}.

Definition initializeDelegatedCgroup (fs : FS) (root : string) (workerPID : Z) : FS * result unit :=
  let root := clean root in
  let control := path_join root "cgroup.subtree_control" in
  if negb (is_abs root) || (root =s "/") then (fs, Err (Plain "worker delegated cgroup root is invalid")) else
  match cg_ReadFile fs (path_join root "cgroup.procs") with
  | None => (fs, Err (Plain "worker delegated cgroup process placement is unreadable"))
  | Some procs =>
    if negb (Nat.eqb (length (fields procs)) 0)
    then (fs, Err (Plain "worker delegated cgroup has internal processes; DelegateSubgroup=supervisor is required")) else
    match cg_ReadFile fs (path_join (path_join root "supervisor") "cgroup.procs") with
    | None => (fs, Err (Plain "worker supervisor cgroup is unreadable"))
    | Some supervisor =>
      if negb (containsField supervisor (pretty workerPID))
      then (fs, Err (Plain "worker process is not in its delegated supervisor cgroup")) else
      match cg_ReadFile fs (path_join root "cgroup.controllers") with
      | None => (fs, Err (Plain "worker delegated cgroup v2 controllers are unavailable"))
      | Some available =>
        if negb (Nat.eqb (length (missingControllers available)) 0)
        then (fs, Err (Plain ("worker delegated cgroup lacks required controllers: "
                               +:+ String.concat ", " (missingControllers available)))) else
        match cg_ReadFile fs control with
        | None => (fs, Err (Plain "worker delegated cgroup controller state is unreadable"))
        | Some enabled =>
          match missingControllers enabled with
          | [] => (fs, Ok tt)
          | missing =>
            match cg_WriteFile fs control (String.concat " " (String.append "+" <$> missing)) with
            | (fs, false) => (fs, Err (Plain "worker cannot enable delegated cgroup controllers"))
            | (fs, true) =>
              match cg_ReadFile fs control with
              | None => (fs, Err (Plain "worker delegated cgroup controller state is unreadable after enablement"))
              | Some enabled =>
                match missingControllers enabled with
                | [] => (fs, Ok tt)
                | missing => (fs, Err (Plain ("worker delegated cgroup controllers did not remain enabled: "
                                               +:+ String.concat ", " missing)))
                end
              end
            end
          end
        end
      end
    end
  end.

(** The table of limits of a job. *)
Definition job_limits (memoryMiB jobs : Z) : list (string * string) := [
  ("memory.max", pretty (shl64 memoryMiB 20));
  ("memory.swap.max", "0");
  ("pids.max", "256");
  ("cpu.max", pretty (mul64 jobs 100000) +:+ " 100000")].

Fixpoint write_limits (fs : FS) (group : string) (limits : list (string * string)) : FS * result unit :=
  match limits with
  | [] => (fs, Ok tt)
  | (name, value) :: limits =>
    let path := path_join group name in
    match cg_WriteFile fs path value with
    | (fs, false) => (fs, Err (Plain ("worker cgroup cannot set " +:+ name)))
    | (fs, true) =>
      match cg_ReadFile fs path with
      | None => (fs, Err (Plain ("worker cgroup cannot read back " +:+ name)))
      | Some actual =>
        if String.concat " " (fields actual) <>s value
        then (fs, Err (Plain ("worker cgroup " +:+ name +:+ " did not retain requested limit")))
        else write_limits fs group limits
      end
    end
  end.

Definition createLimitedJobCgroup (fs : FS) (root id : string) (memoryMiB jobs : Z) : FS * result string :=
  if negb (validID id) then (fs, Err (Plain "invalid worker cgroup operation ID"))
  else if (memoryMiB <? 1) || (jobs <? 1) then (fs, Err (Plain "invalid worker cgroup limits"))
  else
    let group := path_join (clean root) ("bridge-" +:+ id) in
    match cg_Mkdir fs group with
    | (fs, false) => (fs, Err (Plain "worker cannot create delegated job cgroup"))
    | (fs, true) =>
      match write_limits fs group (job_limits memoryMiB jobs) with
      | (fs, Err e) => (fs, Err e)
      | (fs, Ok _) => (fs, Ok group)
      end
    end.
End Files.

(** ** Is a job's group empty? *)

(** The inner loop over one reading of [cgroup.events]. *)
Fixpoint populated_zero (lines : list string) : bool :=
  match lines with
  | [] => false
  | line :: lines =>
    match fields line with
    | [k; v] => if k =s "populated" then (if v =s "0" then true else if v =s "1" then false else populated_zero lines)
                else populated_zero lines
    | _ => populated_zero lines
    end
  end.

(** [reads i] is the content of [cgroup.events] at the i-th poll, [None] when it cannot be read. *)
Fixpoint poll_group (reads : nat → option string) (i fuel : nat) : result bool :=
  match fuel with
  | O => Ok false
  | S fuel =>
    match reads i with
    | None => Err (Plain "cgroup.events is unreadable")
    | Some events => if populated_zero (split_on newline events) then Ok true else poll_group reads (S i) fuel
    end
  end.
Definition groupEmpty (reads : nat → option string) : result bool := poll_group reads 0 30.

(** What [os.Lstat] says of the group's directory. *)
Inductive GroupStat := GroupAbsent | GroupUnusable | GroupDirectory (reads : nat → option string).

Definition uncertain (phase message : string) : Result := mkResult "recovery-required" phase message true [].

Definition restartDisposition (group : GroupStat) : Result :=
  match group with
  | GroupAbsent => uncertain "worker-restart" "prior build cgroup is absent; descendant termination cannot be proved"
  | GroupUnusable => uncertain "worker-restart" "prior build cgroup cannot be inspected; descendant termination cannot be proved"
  | GroupDirectory reads =>
    match groupEmpty reads with
    | Err _ => uncertain "worker-restart" "prior build cgroup state is unreadable; descendant termination cannot be proved"
    | Ok true => mkResult "failed" "worker-restart" "prior build outcome was not committed; its empty cgroup proves descendants stopped and artifacts remain unqualified" false []
    | Ok false => uncertain "worker-restart" "prior build descendants cannot be proved stopped; inspect delegated cgroup"
    end
  end.

(** ** Theorems *)

Section Limits.
Context {FS : Type} `{cgroupFrame FS}.

Definition retained (fs : FS) (group : string) (limit : string * string) : Prop :=
  ∃ text, cg_ReadFile fs (path_join group limit.1) = Some text ∧ String.concat " " (fields text) = limit.2.

Lemma write_limits_frame group limits : ∀ fs fs' r q,
  write_limits fs group limits = (fs', r) → (∀ l, l ∈ limits → path_join group l.1 ≠ q) →
  cg_ReadFile fs' q = cg_ReadFile fs q.
Proof.
  induction limits as [|[name value] limits IH]; intros fs fs' r q; simpl; [by intros [= <- <-]|].
  destruct (cg_WriteFile fs (path_join group name) value) as [fs1 b] eqn:Hw. intros Hr Hq.
  assert (cg_ReadFile fs1 q = cg_ReadFile fs q) as <-.
  { eapply cg_frame; [exact Hw|]. apply (Hq (name, value)). constructor. }
  destruct b; [|by injection Hr as <- <-].
  destruct (cg_ReadFile fs1 (path_join group name)); [|by injection Hr as <- <-].
  destruct (_ <>s _); [by injection Hr as <- <-|]. eapply IH; [exact Hr|]. intros. apply Hq. by constructor.
Qed.

Lemma write_limits_ok group limits : ∀ fs fs',
  NoDup limits.*1 → Forall (λ l, plain_name l.1 = true) limits →
  write_limits fs group limits = (fs', Ok tt) → Forall (retained fs' group) limits.
Proof.
  induction limits as [|[name value] limits IH]; intros fs fs' Hnd Hp; simpl; [constructor|].
  inversion Hnd as [|? ? Hnin Hnd']; subst. inversion Hp as [|? ? Hn Hp']; subst. simpl in *.
  destruct (cg_WriteFile _ _ _) as [fs1 []]; [|done].
  destruct (cg_ReadFile fs1 (path_join group name)) as [text|] eqn:Ht; [|done].
  destruct (_ <>s _) eqn:Hv; [done|]. bool_hyps. intros Hr. constructor; [|by eapply IH].
  exists text. split; [|done]. simpl. rewrite <- Ht. eapply write_limits_frame; [exact Hr|].
  intros [name' value'] Hin Heq. apply Hnin. simpl in Heq.
  rewrite Forall_forall in Hp'. apply path_join_inj in Heq as <-; [|by apply (Hp' _ Hin)|done].
  apply list_elem_of_fmap. by exists (name', value').
Qed.

(** A job's cgroup is handed to the build only when every limit of the accepted
    budget reads back from the kernel as it was requested: exactly [memoryMiB] MiB with
    no swap, 256 tasks and [jobs] CPUs, for every budget the worker's policy admits. *)
Lemma createLimitedJobCgroup_sound (fs fs' : FS) root id memoryMiB jobs group :
  createLimitedJobCgroup fs root id memoryMiB jobs = (fs', Ok group) → memoryMiB ≤ 49152 → jobs ≤ 16 →
  validID id = true ∧ group = path_join (clean root) ("bridge-" +:+ id) ∧ 1 ≤ memoryMiB ∧ 1 ≤ jobs ∧
  retained fs' group ("memory.max", pretty (memoryMiB * 1048576)) ∧ retained fs' group ("memory.swap.max", "0") ∧
  retained fs' group ("pids.max", "256") ∧ retained fs' group ("cpu.max", pretty (jobs * 100000) +:+ " 100000").
Proof.
  unfold createLimitedJobCgroup. intros Hc Hm Hj.
  destruct (validID id); cbn [negb] in Hc; [|done]. destruct (_ || _) eqn:Hb; [done|]. bool_hyps.
  destruct (cg_Mkdir _ _) as [fs1 []]; [|done].
  destruct (write_limits _ _ _) as [fs2 [[]|]] eqn:Hw; [|done]. injection Hc as <- <-.
  assert (shl64 memoryMiB 20 = memoryMiB * 1048576) as Hs.
  { unfold shl64. rewrite Z.shiftl_mul_pow2 by lia. apply wrap64_id. unfold in_int64. lia. }
  assert (mul64 jobs 100000 = jobs * 100000) as Hmul by (apply mul64_id; unfold in_int64; lia).
  apply write_limits_ok in Hw; [|by apply (bool_decide_unpack _); vm_compute|by repeat constructor].
  unfold job_limits in Hw. rewrite Hs, Hmul in Hw. rewrite !Forall_cons in Hw. naive_solver.
Qed.

Lemma missing_nil have : missingControllers have = [] → ∀ c, c ∈ requiredCgroupControllers → c ∈ fields have.
Proof.
  unfold missingControllers. generalize requiredCgroupControllers. intros l. induction l as [|c l IH]; simpl.
  - intros _ c Hc. by apply elem_of_nil in Hc.
  - destruct (str_in c (fields have)) eqn:Hs; simpl; [|done]. intros Hf k [->|Hk]%elem_of_cons; [|by apply IH].
    by apply str_in_spec.
Qed.

(** The names read before the write differ from the one written. *)
Lemma other_name dir dir' a b : plain_name a = true → plain_name b = true →
  List.last (chars a) " "%char ≠ List.last (chars b) " "%char → a ≠ "" → b ≠ "" → path_join dir a ≠ path_join dir' b.
Proof.
  destruct (path_join_prefix dir) as [p Hp], (path_join_prefix dir') as [p' Hp'].
  intros Ha Hb Hl Hna Hnb. rewrite Hp, Hp' by done. intros Heq. apply Hl.
  assert (∀ q n, n ≠ "" → List.last (chars (q +:+ n)) " "%char = List.last (chars n) " "%char) as Hlast.
  { intros q n Hn. induction q as [|c q IH]; [done|]. change (String c q +:+ n) with (String c (q +:+ n)). simpl.
    rewrite <- IH. destruct q, n; done. }
  by rewrite <- (Hlast p a), Heq, Hlast.
Qed.

(** The worker starts jobs below its delegated cgroup only when the delegation is
    usable: an absolute root holding no process of its own, the worker itself placed in
    the supervisor group, and the cpu, memory and pids controllers both available and,
    in the final state, enabled for the children. *)
Lemma initializeDelegatedCgroup_sound (fs fs' : FS) root pid :
  initializeDelegatedCgroup fs root pid = (fs', Ok tt) →
  let root := clean root in
  is_abs root = true ∧ root ≠ "/" ∧
  (∃ procs, cg_ReadFile fs' (path_join root "cgroup.procs") = Some procs ∧ fields procs = []) ∧
  (∃ sup, cg_ReadFile fs' (path_join (path_join root "supervisor") "cgroup.procs") = Some sup ∧ pretty pid ∈ fields sup) ∧
  (∃ ctl, cg_ReadFile fs' (path_join root "cgroup.subtree_control") = Some ctl ∧ {["cpu"; "memory"; "pids"]} ⊆@{gset string} list_to_set (fields ctl)).
Proof.
  unfold initializeDelegatedCgroup. cbv zeta. intros Hi.
  destruct (_ || _) eqn:Hb in Hi; [done|]. bool_hyps.
  destruct (cg_ReadFile fs (path_join (clean root) "cgroup.procs")) as [procs|] eqn:Hp; [|done].
  destruct (negb (Nat.eqb (length (fields procs)) 0)) eqn:Hl; [done|].
  destruct (cg_ReadFile fs (path_join (path_join (clean root) "supervisor") "cgroup.procs")) as [sup|] eqn:Hs; [|done].
  destruct (negb (containsField _ _)) eqn:Hc; [done|].
  destruct (cg_ReadFile fs (path_join (clean root) "cgroup.controllers")) as [av|]; [|done].
  destruct (negb (Nat.eqb (length (missingControllers av)) 0)); [done|].
  destruct (cg_ReadFile fs (path_join (clean root) "cgroup.subtree_control")) as [en|] eqn:He; [|done].
  apply negb_false_iff, Nat.eqb_eq, length_zero_iff_nil in Hl. apply negb_false_iff, str_in_spec in Hc.
  assert (∀ text, missingControllers text = [] → {["cpu"; "memory"; "pids"]} ⊆@{gset string} list_to_set (fields text)) as Hm.
  { intros text Hm c Hin. apply elem_of_list_to_set, (missing_nil _ Hm). unfold requiredCgroupControllers. set_solver. }
  split; [done|]. split; [done|].
  destruct (missingControllers en) as [|m ms] eqn:Hmiss.
  - injection Hi as <-. rewrite Hp, Hs, He. eauto 10.
  - destruct (cg_WriteFile _ _ _) as [fs1 []] eqn:Hw; [|done].
    destruct (cg_ReadFile fs1 _) as [ctl|] eqn:Hr; [|done].
    destruct (missingControllers ctl) eqn:Hmc; [|done]. injection Hi as <-. rewrite Hr.
    rewrite (cg_frame _ _ (path_join (clean root) "cgroup.procs") _ _ _ Hw), Hp by (intros He'; by apply path_join_inj in He').
    rewrite (cg_frame _ _ (path_join (path_join (clean root) "supervisor") "cgroup.procs") _ _ _ Hw), Hs by by apply other_name.
    eauto 10.
Qed.

End Limits.

Lemma populated_zero_line lines : populated_zero lines = true → ∃ l, l ∈ lines ∧ fields l = ["populated"; "0"].
Proof.
  induction lines as [|l lines IH]; simpl; [done|].
  destruct (fields l) as [|k [|v [|]]] eqn:Hf; try (intros (l' & ? & ?)%IH; exists l'; split; [by constructor|done]).
  destruct (String.eqb_spec k "populated") as [->|]; [|intros (l' & ? & ?)%IH; exists l'; split; [by constructor|done]].
  destruct (String.eqb_spec v "0") as [->|]; [intros _; exists l; split; [constructor|done]|].
  destruct (v =s "1"); [done|]. intros (l' & ? & ?)%IH. exists l'. split; [by constructor|done].
Qed.

Lemma poll_group_true reads : ∀ fuel i, poll_group reads i fuel = Ok true →
  ∃ j text, (i ≤ j < i + fuel)%nat ∧ reads j = Some text ∧ populated_zero (split_on newline text) = true.
Proof.
  induction fuel as [|fuel IH]; intros i; simpl; [done|]. destruct (reads i) as [text|] eqn:Hr; [|done].
  destruct (populated_zero _) eqn:Hp; [intros _; exists i, text; split; [lia|done]|].
  intros (j & t & ? & ?)%IH. exists j, t. split; [lia|done].
Qed.

(** After a restart the worker calls an unfinished build settled only on evidence: the
    disposition without [RecoveryRequired] is the failed one, and it is reached only when
    the job's own group could be inspected and one of at most thirty readings of its
    [cgroup.events] says the group holds no process. *)
Lemma restartDisposition_evidence group :
  re_RecoveryRequired (restartDisposition group) = false →
  re_State (restartDisposition group) = "failed" ∧
  ∃ reads i text line, group = GroupDirectory reads ∧ (i < 30)%nat ∧ reads i = Some text ∧
    line ∈ split_on newline text ∧ fields line = ["populated"; "0"].
Proof.
  destruct group as [| |reads]; [done..|]. unfold restartDisposition, groupEmpty.
  destruct (poll_group reads 0 30) as [[]|] eqn:Hg; [|done..]. intros _. split; [done|].
  apply poll_group_true in Hg as (i & text & Hi & Hr & (line & ? & ?)%populated_zero_line).
  exists reads, i, text, line. split_and!; [done|lia|done..].
Qed.

Lemma restartDisposition_terminal group : Terminal (re_State (restartDisposition group)) = true.
Proof. destruct group as [| |reads]; [done..|]. unfold restartDisposition. by destruct (groupEmpty reads) as [[]|]. Qed.

(** ** The table of files the worker's tests use *)

Module CgroupTable.

Definition table : Type := gmap string string.
#[export] Instance table_files : cgroupFiles table := {|
  cg_ReadFile fs p := fs !! p;
  cg_WriteFile fs p data := (<[p := data]> fs, true);
  cg_Mkdir fs p := (fs, true) |}.

#[export] Instance table_frame : cgroupFrame table.
Proof. intros fs p q data fs' b [= <- <-] Hne. by apply lookup_insert_ne. Qed.

Definition delegated : table := list_to_map [
  ("/sys/worker/cgroup.procs", ""); ("/sys/worker/supervisor/cgroup.procs", "41
42
"); ("/sys/worker/cgroup.controllers", "cpu io memory pids
"); ("/sys/worker/cgroup.subtree_control", "cpu memory pids")].

Definition drained (i : nat) : option string :=
  if Nat.ltb i 3 then Some "populated 1
frozen 0
" else Some "populated 0
frozen 0
".

End CgroupTable.
