(* ===== verification/Worker.v ===== *)
(** The unprivileged build worker ([internal/worker/worker.go]): the policy ceilings, the
    admission of one offline build at a time, its durable record per operation, restarts
    and the recovery fence.

    The state is the [Service] together with its state directory. [wk_files] is the
    directory by file stem; the number of its entries also counts the temporary files that
    failed saves leave behind, so it is an answer of the environment, as are the kernel, the
    reviewed source tree, the inhibition marker and the contained build. *)
From S2P Require Import Prelude Json Types Domain Cgroup.

Definition SourceCommit : string := "427291b5b34cd914a31b3fd3b61a68f6184f4b9f".
Definition SunshineCommit : string := "cb72dffa3233c5815cd5ba88f09f049dd679ba75".

Record Policy := mkPolicy {
  wp_Version : Z;
  wp_WorkerUID : Z;
  wp_APIUID : Z;
  wp_Socket : string;
  wp_StateDir : string;
  wp_CgroupRoot : string;
  wp_ScratchRoot : string;
  wp_CacheRoot : string;
  wp_InhibitPath : string;
  wp_SourceRoot : string;
  wp_SourceManifest : string;
  wp_SourceManifestSHA256 : string;
  wp_SourceRevision : string;
  wp_ROCmRoot : string;
  wp_GPUTarget : string;
  wp_HardwarePath : string;
  wp_ToolchainSHA256 : gmap string string;
  wp_SunshineSourceRoot : string;
  wp_SunshineManifest : string;
  wp_SunshineManifestSHA256 : string;
  wp_Jobs : Z;
  wp_MemoryMiB : Z;
  wp_ScratchGiB : Z;
  wp_CacheGiB : Z;
  wp_MaxLogBytes : Z;
  wp_MaxMinutes : Z }.

Record Request := mkRequest {
  wr_ID : string;
  wr_Actor : string;
  wr_Recipe : string;
  wr_Hash : string;
  wr_Budgets : CacheBudgets;
  wr_SourceRevision : string }.

Record Build := mkBuild {
  bd_Request : Request;
  bd_Result : Result;
  bd_UpdatedAt : time }.

Definition bd_ID (r : Build) : string := wr_ID (bd_Request r).
Definition set_bd_Result (v : Result) (r : Build) : Build := mkBuild (bd_Request r) v (bd_UpdatedAt r).
Definition set_bd_UpdatedAt (v : time) (r : Build) : Build := mkBuild (bd_Request r) (bd_Result r) v.

(** ** The installed policy *)

Definition digest_string : string → bool := hex_string 64.

(** [!filepath.IsAbs(v) || v == "/" || strings.ContainsAny(v, "\x00\r\n")]. *)
Definition bounded_path (v : string) : bool :=
  is_abs v && (v <>s "/")
  && all_chars (λ c, negb ((N_of_ascii c =? 0)%N || (N_of_ascii c =? 13)%N || (N_of_ascii c =? 10)%N)) v.

(** [LoadPolicy] after decoding a trusted file; [euid] is [os.Geteuid()]. *)
Definition LoadPolicy (euid : Z) (p : Policy) : result Policy :=
  reject negb (wp_Version p =? 1) || (wp_WorkerUID p =? 0) || negb (wp_WorkerUID p =? euid) || (wp_APIUID p =? wp_WorkerUID p)
    with Plain "worker requires its separate configured unprivileged UID" ;;
  reject (wp_Jobs p <? 1) || (wp_Jobs p >? 16) || (wp_MemoryMiB p <? 4096) || (wp_MemoryMiB p >? 49152)
      || (wp_ScratchGiB p <? 1) || (wp_CacheGiB p <? 1) || (wp_MaxLogBytes p <? 1024)
      || (wp_MaxLogBytes p >? Z.shiftl 16 20) || (wp_MaxMinutes p <? 1) || (wp_MaxMinutes p >? 720)
    with Plain "invalid worker bounds" ;;
  reject (wp_SourceRevision p <>s SourceCommit) || negb (digest_string (wp_SourceManifestSHA256 p))
    with Plain "worker source does not match reviewed recipe" ;;
  reject negb (forallb bounded_path [wp_Socket p; wp_StateDir p; wp_CgroupRoot p; wp_ScratchRoot p; wp_CacheRoot p;
                                      wp_InhibitPath p; wp_SourceRoot p; wp_SourceManifest p; wp_HardwarePath p])
    with Plain "worker policy requires explicit bounded absolute paths" ;;
  reject negb (forallb (λ name, digest_string (default "" (wp_ToolchainSHA256 p !! name)))
                ["cmake"; "ninja"; "ccache"; "cc"; "c++"; "bwrap"])
    with Plain "reviewed compiler/toolchain digests are required" ;;
  reject wp_InhibitPath p <>s "/run/workstation/build-inhibit"
    with Plain "worker must honor the legacy build inhibition marker" ;;
  Ok p.

(** ** Budgets *)

Definition set_budgets (jobs memory scratch cache : Z) (p : Policy) : Policy :=
  mkPolicy (wp_Version p) (wp_WorkerUID p) (wp_APIUID p) (wp_Socket p) (wp_StateDir p) (wp_CgroupRoot p)
    (wp_ScratchRoot p) (wp_CacheRoot p) (wp_InhibitPath p) (wp_SourceRoot p) (wp_SourceManifest p)
    (wp_SourceManifestSHA256 p) (wp_SourceRevision p) (wp_ROCmRoot p) (wp_GPUTarget p) (wp_HardwarePath p)
    (wp_ToolchainSHA256 p) (wp_SunshineSourceRoot p) (wp_SunshineManifest p) (wp_SunshineManifestSHA256 p)
    jobs memory scratch cache (wp_MaxLogBytes p) (wp_MaxMinutes p).
Definition set_source (root manifest sha revision : string) (p : Policy) : Policy :=
  mkPolicy (wp_Version p) (wp_WorkerUID p) (wp_APIUID p) (wp_Socket p) (wp_StateDir p) (wp_CgroupRoot p)
    (wp_ScratchRoot p) (wp_CacheRoot p) (wp_InhibitPath p) root manifest
    sha revision (wp_ROCmRoot p) (wp_GPUTarget p) (wp_HardwarePath p)
    (wp_ToolchainSHA256 p) (wp_SunshineSourceRoot p) (wp_SunshineManifest p) (wp_SunshineManifestSHA256 p)
    (wp_Jobs p) (wp_MemoryMiB p) (wp_ScratchGiB p) (wp_CacheGiB p) (wp_MaxLogBytes p) (wp_MaxMinutes p).

Definition executionPolicy (p : Policy) (r : Request) : result Policy :=
  let b := wr_Budgets r in
  reject negb (str_len (wr_SourceRevision r) =? 64)
      || (cb_BuildJobs b <? 1) || (cb_BuildJobs b >? wp_Jobs p)
      || (cb_BuildMemoryMiB b <? 4096) || (cb_BuildMemoryMiB b >? wp_MemoryMiB p)
      || (cb_ScratchGiB b <? 1) || (cb_ScratchGiB b >? wp_ScratchGiB p)
      || (cb_CompilerGiB b <? 1) || (cb_CompilerGiB b >? wp_CacheGiB p)
    with Plain "requested build/source budgets exceed installed worker ceilings" ;;
  let p := set_budgets (cb_BuildJobs b) (cb_BuildMemoryMiB b) (cb_ScratchGiB b) (cb_CompilerGiB b) p in
  if wr_Recipe r =s "sunshine-image" then
    reject (wp_SunshineSourceRoot p =s "") || (wp_SunshineManifest p =s "")
        || negb (str_len (wp_SunshineManifestSHA256 p) =? 64)
      with Plain "offline Sunshine source/base/package closure not staged" ;;
    Ok (set_source (wp_SunshineSourceRoot p) (wp_SunshineManifest p) (wp_SunshineManifestSHA256 p) SunshineCommit p)
  else Ok p.

(** Go division truncates towards zero, as [Z.quot]. *)
Definition buildJobs (available memoryLimit ceiling : Z) : result Z :=
  let budget := add64 (add64 available (-16384)) (-8192) in
  let limit := add64 memoryLimit (-8192) in
  let budget := if limit <? budget then limit else budget in
  let jobs := Z.quot budget 4096 in
  reject jobs <? 1 with Plain "insufficient available RAM after host and link reserves" ;;
  Ok (if jobs >? ceiling then ceiling else jobs).

(** [MemAvailable] of [/proc/meminfo] in MiB, zero when no line parses; the last line wins. *)
Fixpoint mem_available (available : Z) (lines : list string) : Z :=
  match lines with
  | [] => available
  | line :: lines =>
    mem_available
      match fields line with
      | [k; v; _] => if k =s "MemAvailable:" then match ParseInt v with Some kb => Z.quot kb 1024 | None => available end
                     else available
      | _ => available
      end lines
  end.

(** A file system's block count and block size. *)
Record Statfs := mkStatfs { sf_Blocks : Z; sf_Bsize : Z }.
Definition capacity (s : Statfs) : Z := mul64 (wrap64 (sf_Blocks s)) (sf_Bsize s).

(** The part of [runContained] that fixes the job's resources, between the input checks
    and the creation of the job directory. *)
Definition job_resources (meminfo : option string) (scratch cache : option Statfs) (p : Policy) : result Policy :=
  match meminfo with
  | None => Err (Plain "available host build memory is unknown")
  | Some mem =>
    match buildJobs (mem_available 0 (split_on newline mem)) (wp_MemoryMiB p) (wp_Jobs p) with
    | Err e => Err e
    | Ok jobs =>
      let p := set_budgets jobs (wp_MemoryMiB p) (wp_ScratchGiB p) (wp_CacheGiB p) p in
      match scratch with
      | None => Err (Plain "statfs")
      | Some s =>
        reject capacity s >? shl64 (wp_ScratchGiB p) 30
          with Plain "worker scratch must be a dedicated filesystem with capacity within scratch budget" ;;
        match cache with
        | None => Err (Plain "statfs")
        | Some c =>
          reject capacity c >? shl64 (wp_CacheGiB p) 30
            with Plain "worker ccache must be a dedicated filesystem within cache budget" ;;
          Ok p
        end
      end
    end
  end.

(** ** The bounded build log *)

(** [cappedWriter]: [cw_log] is what reached the log file. *)
Record cappedWriter := mkCapped { cw_log : list ascii; cw_remaining : Z }.
Definition capped_Write (p : list ascii) (w : cappedWriter) : cappedWriter * Z :=
  let n := Z.of_nat (length p) in
  if n >? cw_remaining w then
    (if cw_remaining w >? 0 then mkCapped (cw_log w ++ take (Z.to_nat (cw_remaining w)) p) 0 else w, n)
  else (mkCapped (cw_log w ++ p) (cw_remaining w - n), n).

(** ** The reviewed source tree *)

(** One entry [fs.WalkDir] visits: [te_digest] is [None] when the file cannot be read. *)
Record TreeEntry := mkTreeEntry {
  te_Path : string;
  te_Symlink : bool;
  te_Trusted : bool;
  te_Dir : bool;
  te_Digest : option string }.

(** What the environment shows of a source root and its manifest. *)
Record SourceTree := mkSourceTree {
  tr_ManifestTrusted : bool;
  tr_ManifestDigest : option string;
  tr_ManifestFiles : option (gmap string string);
  tr_RootOpens : bool;
  tr_Entries : list (option TreeEntry) }.

Fixpoint walk_source (files : gmap string string) (count : Z) (l : list (option TreeEntry)) : result Z :=
  match l with
  | [] => Ok count
  | None :: _ => Err (Plain "walk")
  | Some e :: l =>
    reject te_Symlink e with Plain "recipe source must not contain symlinks" ;;
    reject negb (te_Trusted e) with Plain "worker installed policy/source is not root-owned and immutable to worker" ;;
    if te_Dir e then walk_source files count l else
    match files !! te_Path e with
    | None => Err (Plain "unreviewed source file")
    | Some expected =>
      reject match te_Digest e with None => true | Some d => d <>s expected end
        with Plain "source digest mismatch" ;;
      walk_source files (count + 1) l
    end
  end.

Definition verifySource (trees : string → string → SourceTree) (p : Policy) : result unit :=
  let t := trees (wp_SourceRoot p) (wp_SourceManifest p) in
  reject negb (tr_ManifestTrusted t) with Plain "worker installed policy/source is not root-owned and immutable to worker" ;;
  match tr_ManifestDigest t with
  | None => Err (Plain "read")
  | Some sum =>
    reject sum <>s wp_SourceManifestSHA256 p with Plain "source manifest identity mismatch" ;;
    match tr_ManifestFiles t with
    | None => Err (Plain "invalid source manifest")
    | Some files =>
      reject Nat.eqb (size files) 0 || (Z.of_nat (size files) >? 30000) with Plain "invalid source manifest" ;;
      reject negb (tr_RootOpens t) with Plain "open" ;;
      match walk_source files 0 (tr_Entries t) with
      | Err e => Err e
      | Ok count =>
        reject negb (count =? Z.of_nat (size files)) with Plain "source manifest contains missing files" ;;
        Ok tt
      end
    end
  end.

(** ** The service and its state directory *)

(** [Corrupt]: does not decode.  Whether a file can be read is an answer of the environment. *)
Inductive RecordFile := Corrupt | Recorded (r : Build).

Record Service := mkService {
  wk_files : gmap string RecordFile;
  wk_running : bool;
  wk_persistenceFailed : bool;
  wk_recovery : gset string;
  (** [Service.cancel]: the operations whose context is live, and whether it was cancelled *)
  wk_cancel : gmap string bool }.

Definition set_wk_running (v : bool) (s : Service) : Service :=
  mkService (wk_files s) v (wk_persistenceFailed s) (wk_recovery s) (wk_cancel s).
Definition set_wk_persistenceFailed (v : bool) (s : Service) : Service :=
  mkService (wk_files s) (wk_running s) v (wk_recovery s) (wk_cancel s).
Definition set_wk_recovery (v : gset string) (s : Service) : Service :=
  mkService (wk_files s) (wk_running s) (wk_persistenceFailed s) v (wk_cancel s).
Definition set_wk_cancel (v : gmap string bool) (s : Service) : Service :=
  mkService (wk_files s) (wk_running s) (wk_persistenceFailed s) (wk_recovery s) v.

Definition save (now : time) (w : write_outcome) (r : Build) (s : Service) : Service * result unit :=
  let r := set_bd_UpdatedAt now r in
  let replaced := mkService (<[bd_ID r := Recorded r]> (wk_files s)) (wk_running s)
                    (wk_persistenceFailed s) (wk_recovery s) (wk_cancel s) in
  match w with
  | Written => (replaced, Ok tt)
  | WriteFailed true => (replaced, Err (Plain "save"))
  | WriteFailed false => (s, Err (Plain "save"))
  end.

(** [readable]: what [os.ReadFile] does with the file, when there is one. *)
Definition read (readable : bool) (id : string) (s : Service) : result Build :=
  reject negb (validID id) with Plain "invalid operation ID" ;;
  reject negb readable with Plain "operation record is absent or unreadable" ;;
  match wk_files s !! id with
  | Some (Recorded r) => Ok r
  | _ => Err (Plain "operation record is absent or unreadable")
  end.

(** [s.recovery\[id\] = true] when the result asks for recovery. *)
Definition remember_recovery (r : Build) (s : Service) : Service :=
  if re_RecoveryRequired (bd_Result r) then set_wk_recovery ({[bd_ID r]} ∪ wk_recovery s) s else s.

(** [New]: the loop over the directory entries, in their order. *)
Fixpoint load_records (clk : clock) (w : nat → write_outcome) (readable : string → bool) (group : string → GroupStat) (n : nat)
    (l : list string) (s : Service) : Service * result unit :=
  match l with
  | [] => (s, Ok tt)
  | name :: l =>
    if negb (readable name) then (s, Err (Plain "read")) else
    match wk_files s !! name with
    | None | Some Corrupt => (s, Err (Plain "worker state is corrupt"))
    | Some (Recorded r) =>
      if negb (validID (bd_ID r)) then (s, Err (Plain "worker record identity is invalid")) else
      if Terminal (re_State (bd_Result r)) then load_records clk w readable group n l (remember_recovery r s)
      else
        let r := set_bd_Result (restartDisposition (group (bd_ID r))) r in
        match save (clk n) (w n) r s with
        | (s, Err e) => (s, Err e)
        | (s, Ok _) => load_records clk w readable group (S n) l (remember_recovery r s)
        end
    end
  end.

Definition New (clk : clock) (w : nat → write_outcome) (listed : bool) (readable : string → bool) (group : string → GroupStat)
    (trees : string → string → SourceTree) (p : Policy) (files : gmap string RecordFile) : Service * result unit :=
  let s := mkService files false false ∅ ∅ in
  match verifySource trees p with
  | Err e => (s, Err e)
  | Ok _ =>
    if negb listed then (s, Err (Plain "readdir")) else
    load_records clk w readable group 0 (sort_files (elements (dom files))) s
  end.

(** ** The HTTP handler *)

Inductive Response :=
| HTTPError (code : Z) (message : string)
| Reply (code : Z) (r : Result)
| ReplyRecipes (l : list Recipe)
| NotFound
| Accepted.

Definition known_recipe (r : string) : bool :=
  (r =s "llama-hip") || (r =s "llama-vulkan") || (r =s "sunshine-image").

Definition Recipes (configured : bool) : list Recipe :=
  let status := if configured then "available" else "unavailable" in
  let reason := if configured then "" else "reviewed dedicated worker policy and staged source are required" in
  [ mkRecipe "llama-hip" SourceCommit status reason "managed build scratch/<operation>/build/bin/llama-{cli,bench}" "candidate-not-installed-not-qualified";
    mkRecipe "llama-vulkan" SourceCommit status reason "managed build scratch/<operation>/build/bin/llama-{cli,bench}" "candidate-not-installed-not-qualified";
    mkRecipe "sunshine-image" SunshineCommit "unavailable" "reviewed offline OCI base, complete signed apt inputs and rootless Buildah toolchain staging required" "managed build scratch/<operation>/sunshine.oci" "not-qualified";
    mkRecipe "therock" "b927c1865f37fa7bbecf5c7e35dee41b02afbb4f" "unsupported" "reference implements planning, not a complete supported TheRock build recipe" "none" "not-qualified" ].

Definition make_available (r : Recipe) : Recipe :=
  mkRecipe (rc_ID r) (rc_Revision r) "available" "" (rc_Output r) (rc_Qualification r).

Section Worker.
Context `{Sha256} (policy : Policy).

Definition Request_json (r : Request) : JSON := JObject [
  ("id", JString (wr_ID r)); ("actor", JString (wr_Actor r)); ("recipe", JString (wr_Recipe r));
  ("hash", JString (wr_Hash r)); ("budgets", CacheBudgets_json (wr_Budgets r));
  ("source_revision", JString (wr_SourceRevision r))].
Definition set_wr_Hash (v : string) (r : Request) : Request :=
  mkRequest (wr_ID r) (wr_Actor r) (wr_Recipe r) v (wr_Budgets r) (wr_SourceRevision r).
Definition RequestHash (r : Request) : string := sha256_hex (Request_json (set_wr_Hash "" r)).

(** What the environment answers during one request: the socket peer, [os.Lstat] of the
    inhibition marker ([true] unless it is provably absent), whether an existing record
    can be read, the directory listing, the source tree, the group of a job and the write of a record. *)
Record HandlerEnv := mkHandlerEnv {
  he_peer : option Z;
  he_inhibited : bool;
  he_readable : bool;
  he_entries : option Z;
  he_trees : string → string → SourceTree;
  he_group : string → GroupStat;
  he_now : time;
  he_write : write_outcome }.

Definition handle_recipes : Response :=
  ReplyRecipes (if wp_SunshineSourceRoot policy <>s "" then alter make_available 2%nat (Recipes true) else Recipes true).

Definition handle_validate (ev : HandlerEnv) (body : option Request) : Response :=
  match body with
  | None => HTTPError 400 "invalid named build plan"
  | Some request =>
    if (wr_Hash request <>s RequestHash request) || negb (known_recipe (wr_Recipe request))
    then HTTPError 400 "invalid named build plan" else
    match executionPolicy policy request with
    | Err (Plain m) | Err (Failure _ m) => HTTPError 409 m
    | Ok _ =>
      if he_inhibited ev then HTTPError 409 "new builds are inhibited"
      else Reply 200 (mkResult "succeeded" "validated" "build budgets fit installed worker ceilings; source and hardware will be rechecked before execution" false [])
    end
  end.

Definition handle_status (ev : HandlerEnv) (id : string) (s : Service) : Service * Response :=
  match read (he_readable ev) id s with
  | Err _ => (s, HTTPError 404 "operation unavailable")
  | Ok record =>
    if re_RecoveryRequired (bd_Result record) then
      let next := restartDisposition (he_group ev (bd_ID record)) in
      if re_RecoveryRequired next then (s, Reply 200 (bd_Result record))
      else
        let record := set_bd_Result next record in
        match save (he_now ev) (he_write ev) record s with
        | (s, Err _) => (s, HTTPError 404 "operation unavailable")
        | (s, Ok _) => (set_wk_recovery (wk_recovery s ∖ {[bd_ID record]}) s, Reply 200 next)
        end
    else (s, Reply 200 (bd_Result record))
  end.

Definition handle_cancel (id : string) (s : Service) : Service * Response :=
  match wk_cancel s !! id with
  | None => (s, HTTPError 409 "operation is not running")
  | Some _ => (set_wk_cancel (<[id := true]> (wk_cancel s)) s, Accepted)
  end.

Definition queued_build (req : Request) : Build :=
  mkBuild req (mkResult "queued" "accepted" "named offline build accepted" false []) zeroTime.

(** The third component is the record whose [run] is started. *)
Definition handle_execute (ev : HandlerEnv) (body : option Request) (s : Service) : Service * Response * option Build :=
  match body with
  | None => (s, HTTPError 400 "invalid recipe request", None)
  | Some req =>
    if negb (validID (wr_ID req)) || (wr_Hash req <>s RequestHash req) || negb (known_recipe (wr_Recipe req)) || (wr_Actor req =s "")
    then (s, HTTPError 400 "invalid recipe request", None) else
    match read (he_readable ev) (wr_ID req) s with
    | Ok existing =>
      if wr_Hash (bd_Request existing) <>s wr_Hash req then (s, HTTPError 409 "operation payload conflict", None)
      else (s, Reply 200 (bd_Result existing), None)
    | Err _ =>
      if wk_running s then (s, HTTPError 429 "worker queue is full", None)
      else if wk_persistenceFailed s || negb (bool_decide (wk_recovery s = ∅))
      then (s, HTTPError 503 "worker persistence or prior descendant recovery is unresolved", None) else
      match executionPolicy policy req with
      | Err (Plain m) | Err (Failure _ m) => (s, HTTPError 409 m, None)
      | Ok selected =>
        if match he_entries ev with None => true | Some n => n >=? 1024 end
        then (s, HTTPError 503 "worker record retention is full; owner archive required", None)
        else if he_inhibited ev then (s, HTTPError 409 "managed builds inhibited", None)
        else match verifySource (he_trees ev) selected with
        | Err _ => (s, HTTPError 409 "reviewed build source validation failed", None)
        | Ok _ =>
          let record := queued_build req in
          match save (he_now ev) (he_write ev) record s with
          | (s, Err _) => (s, HTTPError 503 "worker persistence unavailable", None)
          | (s, Ok _) =>
            (set_wk_cancel (<[wr_ID req := false]> (wk_cancel s)) (set_wk_running true s), Reply 202 (bd_Result record), Some record)
          end
        end
      end
    end
  end.

(** The routing of [Handler]; [body] is the decoded request, [None] when it does not
    decode to exactly one value of the expected shape within 4096 bytes. *)
Definition Handler (ev : HandlerEnv) (method path : string) (body : option Request) (s : Service)
    : Service * Response * option Build :=
  if negb match he_peer ev with Some uid => uid =? wp_APIUID policy | None => false end
  then (s, HTTPError 403 "peer not authorized", None)
  else if (method =s "GET") && (path =s "/recipes") then (s, handle_recipes, None)
  else if (method =s "POST") && (path =s "/validate") then (s, handle_validate ev body, None)
  else if (method =s "GET") && has_prefix path "/operations/" then
    (handle_status ev (trim_prefix path "/operations/") s, None)
  else if (method =s "POST") && has_prefix path "/cancel/" then
    (handle_cancel (trim_prefix path "/cancel/") s, None)
  else if (method <>s "POST") || (path <>s "/execute") then (s, NotFound, None)
  else handle_execute ev body s.

(** ** The run of one build *)

Definition running_build (r : Build) : Build :=
  set_bd_Result (mkResult "running" "compiling" "isolated named build in progress" false []) r.

(** The first critical section of [run], and the policy the contained build is called
    with; [Err] is the error that replaces the call. *)
Definition run_start (now : time) (w : write_outcome) (r : Build) (s : Service) : Service * Build * result Policy :=
  let r := running_build r in
  match save now w r s with
  | (s, Err e) => (s, r, Err e)
  | (s, Ok _) => (s, r, executionPolicy policy (bd_Request r))
  end.

(** What [runContained] returned, or the error that replaced it; [expired]: the deadline
    of the context passed. *)
Definition run_result (outcome : result Result) (cancelled expired : bool) (r : Build) : Build :=
  match outcome with
  | Ok v => set_bd_Result v r
  | Err e =>
    if cancelled || expired
    then set_bd_Result (mkResult "cancelled" "build-failed" "build cgroup stopped; candidate artifacts retained" false []) r
    else set_bd_Result (mkResult "failed" "build-failed" match e with Plain m | Failure _ m => m end false []) r
  end.

(** The last critical section of [run]. *)
Definition run_finish (now : time) (w : write_outcome) (outcome : result Result) (expired : bool) (r : Build) (s : Service) : Service :=
  let r := run_result outcome (default false (wk_cancel s !! bd_ID r)) expired r in
  let s := match save now w r s with
           | (s, Err _) => set_wk_persistenceFailed true s
           | (s, Ok _) => s
           end in
  let s := remember_recovery r s in
  set_wk_running false (set_wk_cancel (delete (bd_ID r) (wk_cancel s)) s).

End Worker.
