(* ===== verification/Contained.v ===== *)
(** The contained build ([runContained] of [internal/worker/linux.go]) and the offline OCI
    base it accepts ([internal/worker/sunshine.go]).

    Processes, the sandbox and the file system are the environment: what a started
    command returned, what [cgroup.events] read after each kill, what an output file
    holds.  The order of the checks, the kill-then-prove-empty protocol and the result
    are the code's. *)
From S2P Require Import Prelude Json Types Domain Cgroup Worker.
From stdpp Require Import pretty.
#[local] Open Scope Z_scope.

(** ** The hardware and toolchain evidence ([verifyBuildInputs]) *)

Record Evidence := mkEvidence {
  ev_Status : string;
  ev_CollectedAt : time;
  ev_GPUTarget : string;
  (** bus address and driver of each GPU *)
  ev_GPUs : list (string * string) }.

(** [bi_tool]: the digest of a resolved, trusted and readable tool. *)
Record BuildInputs := mkBuildInputs {
  bi_Trusted : bool;
  bi_Evidence : option Evidence;
  bi_BootTrusted : bool;
  bi_Boot : option string;
  bi_CurrentBoot : option string;
  bi_Tool : string → option string }.

Definition tool_names (recipe : string) : list string :=
  let names := ["cmake"; "ninja"; "ccache"; "cc"; "c++"; "bwrap"] in
  if recipe =s "llama-vulkan" then names ++ ["glslc"]
  else if recipe =s "sunshine-image" then ["bwrap"; "buildah"]
  else names ++ ["amdclang++"].

Definition evidence_ok (now : time) (p : Policy) (h : Evidence) : bool :=
  (ev_Status h =s "observed") && (ev_GPUTarget h =s wp_GPUTarget p)
  && match ev_GPUs h with
     | [(b0, d0); (b1, d1)] => (b0 <>s b1) && (d0 =s "amdgpu") && (d1 =s "amdgpu")
     | _ => false
     end
  && negb (time_sub now (ev_CollectedAt h) >? 24 * Hour) && negb (time_sub (ev_CollectedAt h) now >? Minute).

Definition verifyBuildInputs (now : time) (bi : BuildInputs) (p : Policy) (recipe : string) : result unit :=
  reject negb (bi_Trusted bi) with Plain "fresh root-owned hardware build evidence is unavailable" ;;
  match bi_Evidence bi with
  | None => Err (Plain "hardware build evidence is unavailable")
  | Some h =>
    reject negb (evidence_ok now p h) with Plain "hardware build evidence failed, stale or target changed" ;;
    reject negb (bi_BootTrusted bi) with Plain "worker installed policy/source is not root-owned and immutable to worker" ;;
    match bi_Boot bi with
    | None => Err (Plain "boot")
    | Some boot =>
      reject match bi_CurrentBoot bi with None => true | Some current => current <>s boot end
        with Plain "build evidence belongs to another boot" ;;
      reject negb (forallb (λ name, match bi_Tool bi name with
                                    | None => false
                                    | Some d => d =s default "" (wp_ToolchainSHA256 p !! name)
                                    end) (tool_names recipe))
        with Plain "installed compiler/toolchain changed since policy review" ;;
      Ok tt
    end
  end.

(** ** The commands *)

Definition sandboxArgs (p : Policy) (job : string) : list string :=
  ["--die-with-parent"; "--new-session"; "--unshare-all"; "--clearenv"; "--ro-bind"; "/usr"; "/usr"; "--symlink"; "usr/bin"; "/bin";
   "--symlink"; "usr/lib"; "/lib"; "--symlink"; "usr/lib"; "/lib64"; "--proc"; "/proc"; "--dev"; "/dev"; "--tmpfs"; "/tmp"; "--dir"; "/etc";
   "--ro-bind"; "/etc/ld.so.cache"; "/etc/ld.so.cache"; "--ro-bind"; wp_SourceRoot p; "/source"; "--bind"; job; "/build"; "--bind"; wp_CacheRoot p; "/ccache";
   "--setenv"; "PATH"; "/usr/bin"; "--setenv"; "HOME"; "/tmp"; "--setenv"; "LANG"; "C.UTF-8"; "--setenv"; "CCACHE_DIR"; "/ccache";
   "--setenv"; "CCACHE_CONFIGPATH"; "/dev/null"; "--setenv"; "CCACHE_MAXSIZE"; pretty (wp_CacheGiB p) +:+ "G"; "--chdir"; "/build"].

Definition cmake_command (p : Policy) (recipe : string) : list string :=
  ["/usr/bin/cmake"; "-S"; "/source"; "-B"; "/build/build"; "-G"; "Ninja"; "-DCMAKE_BUILD_TYPE=Release"; "-DGGML_NATIVE=ON";
   "-DCMAKE_FIND_USE_PACKAGE_REGISTRY=FALSE"; "-DCMAKE_FIND_USE_SYSTEM_PACKAGE_REGISTRY=FALSE"; "-DCMAKE_FIND_USE_PACKAGE_ROOT_PATH=FALSE";
   "-DCMAKE_FIND_USE_CMAKE_ENVIRONMENT_PATH=FALSE"; "-DCMAKE_C_COMPILER=/usr/bin/cc"; "-DCMAKE_CXX_COMPILER=/usr/bin/c++";
   "-DCMAKE_C_COMPILER_LAUNCHER=ccache"; "-DCMAKE_CXX_COMPILER_LAUNCHER=ccache";
   "-DCMAKE_JOB_POOLS=compile=" +:+ pretty (wp_Jobs p) +:+ ";link=1"; "-DCMAKE_JOB_POOL_COMPILE=compile"; "-DCMAKE_JOB_POOL_LINK=link"]
  ++ if recipe =s "llama-hip"
     then ["-DGGML_HIP=ON"; "-DCMAKE_HIP_ARCHITECTURES=" +:+ wp_GPUTarget p; "-DCMAKE_PREFIX_PATH=/opt/rocm"; "-DCMAKE_HIP_COMPILER=/opt/rocm/bin/amdclang++"]
     else ["-DGGML_VULKAN=ON"; "-DVulkan_GLSLC_EXECUTABLE=/usr/bin/glslc"].

Definition ninja_command (p : Policy) : list string :=
  ["/usr/bin/ninja"; "-C"; "/build/build"; "-j"; pretty (wp_Jobs p); "llama-cli"; "llama-bench"].

(** ** The offline base image *)

Definition steamBaseDigest : string := "f6bd0f5d88c6a5160fe765f61af9b33702b01cde45717b89f9ff390f104882dd".

(** One entry of the archive: [ta_Digest] is the SHA-256 of its bytes, [ta_Manifests] the
    digests its bytes list when they decode as an index, [ta_Config] the configuration
    digest when they decode as a manifest. *)
Record TarEntry := mkTarEntry {
  ta_Name : string;
  ta_Dir : bool;
  ta_Regular : bool;
  ta_Size : Z;
  ta_Digest : option string;
  ta_Manifests : option (list string);
  ta_Config : option string }.

(** The archive as read: [None] is a read error, which ends it. *)
Definition entry_name (h : TarEntry) : string := trim_prefix (ta_Name h) "./".
Definition blob_prefix : string := "blobs/sha256/".

Fixpoint verify_entries (expected : string) (seen : gset string) (hasIndex hasManifest : bool) (l : list (option TarEntry)) : result unit :=
  match l with
  | [] =>
    reject negb hasIndex || negb hasManifest with Plain "OCI base does not retain the exact reviewed Steam manifest digest" ;; Ok tt
  | None :: _ => Err (Plain "invalid base OCI archive")
  | Some h :: l =>
    let name := entry_name h in
    if ta_Dir h then verify_entries expected seen hasIndex hasManifest l else
    reject negb (ta_Regular h) || (name =s "") || is_abs name || contains name ".." || bool_decide (name ∈ seen)
        || (ta_Size h <? 0) || (ta_Size h >? Z.shiftl 32 30)
      with Plain "unsafe base OCI archive entry" ;;
    let seen := {[name]} ∪ seen in
    if name =s "index.json" then
      reject ta_Size h >? Z.shiftl 1 20 with Plain "oversized OCI index" ;;
      match ta_Manifests h with
      | None => Err (Plain "invalid OCI index")
      | Some ms => verify_entries expected seen (hasIndex || str_in ("sha256:" +:+ expected) ms) hasManifest l
      end
    else if has_prefix name blob_prefix then
      let digest := trim_prefix name blob_prefix in
      match ta_Digest h with
      | None => Err (Plain "read")
      | Some sum =>
        reject negb (str_len digest =? 64) || (sum <>s digest) with Plain "OCI blob digest mismatch" ;;
        verify_entries expected seen hasIndex (hasManifest || (digest =s expected)) l
      end
    else if name =s "oci-layout" then verify_entries expected seen hasIndex hasManifest l
    else Err (Plain "unexpected OCI base archive entry")
  end.

Definition verifyOCIArchive (l : list (option TarEntry)) (expected : string) : result unit :=
  verify_entries expected ∅ false false l.

Definition is_hexdigit (c : ascii) : bool := is_hex c || chr_between "A"%char "F"%char c.

Fixpoint ociConfigID (l : list (option TarEntry)) (manifest : string) : result string :=
  match l with
  | [] | None :: _ => Err (Plain "base OCI manifest configuration unavailable")
  | Some h :: l =>
    if entry_name h <>s blob_prefix +:+ manifest then ociConfigID l manifest else
    reject ta_Size h >? Z.shiftl 4 20 with Plain "base OCI manifest too large" ;;
    match ta_Config h with
    | None => Err (Plain "base OCI configuration identity invalid")
    | Some d =>
      reject negb (has_prefix d "sha256:") || negb (str_len d =? 71) with Plain "base OCI configuration identity invalid" ;;
      reject negb (all_chars is_hexdigit (trim_prefix d "sha256:")) with Plain "base OCI configuration digest invalid" ;;
      Ok d
    end
  end.

(** What the environment shows of the staged image inputs. *)
Record SunshineInputs := mkSunshineInputs {
  si_Base : option (list (option TarEntry));
  si_Deb : option string;
  si_Context : bool;
  si_Containerfile : bool }.

Definition buildah (args : list string) : list string :=
  ["/usr/bin/buildah"; "--storage-driver=vfs"; "--root=/build/storage"; "--runroot=/build/runroot"] ++ args.

Definition sunshineCommands (si : SunshineInputs) : result (list (list string)) :=
  match si_Base si with
  | None => Err (Plain "reviewed offline Steam base archive is missing")
  | Some base =>
    _ ← verifyOCIArchive base steamBaseDigest;
    configID ← ociConfigID base steamBaseDigest;
    match si_Deb si with
    | None => Err (Plain "open")
    | Some deb =>
      reject deb <>s "c87f226920ad83055a898be1f0c7540307593e92d8b0baf1f076909758db8ca0"
        with Plain "Sunshine package differs from reviewed release" ;;
      reject negb (si_Context si) with Plain "offline Sunshine package closure/context is incomplete" ;;
      reject negb (si_Containerfile si) with Plain "write" ;;
      Ok [buildah ["pull"; "--quiet"; "oci-archive:/source/base.oci"];
          buildah ["bud"; "--isolation=chroot"; "--pull=never"; "--network=none"; "--format=oci"; "--build-arg"; "BASE_IMAGE=" +:+ configID;
                   "--file"; "/build/Containerfile"; "--tag"; "localhost/bridge-sunshine:candidate"; "/source"];
          buildah ["push"; "localhost/bridge-sunshine:candidate"; "oci-archive:/build/sunshine.oci"]]
    end
  end.

(** ** The contained run *)

(** The answers of the environment to one call. *)
Record ContainEnv (FS : Type) := mkContainEnv {
  ct_euid : Z;
  ct_pid : Z;
  ct_now : time;
  ct_trusted : string → bool;
  (** the n-th look at the inhibition marker: [true] unless it is provably absent *)
  ct_inhibited : nat → bool;
  ct_trees : string → string → SourceTree;
  ct_inputs : BuildInputs;
  ct_meminfo : option string;
  ct_scratch : option Statfs;
  ct_cache : option Statfs;
  ct_mkdir : bool;
  (** the delegated root is a directory of the worker *)
  ct_root : bool;
  ct_cgroups : FS;
  (** the group opens, the log is created, the ccache policy is written *)
  ct_group_opens : bool;
  ct_log : bool;
  ct_ccache : bool;
  ct_sunshine : SunshineInputs;
  (** the exit of the n-th started command *)
  ct_command : nat → bool;
  (** the polls of [cgroup.events] after the kill that follows the n-th command *)
  ct_events : nat → nat → option string;
  (** digest and size of a regular output file *)
  ct_output : string → option (string * Z);
  ct_provenance : option (string * Z) }.
Arguments ct_euid {_} _. Arguments ct_pid {_} _. Arguments ct_now {_} _. Arguments ct_trusted {_} _ _.
Arguments ct_inhibited {_} _ _. Arguments ct_trees {_} _ _ _. Arguments ct_inputs {_} _. Arguments ct_meminfo {_} _.
Arguments ct_scratch {_} _. Arguments ct_cache {_} _. Arguments ct_mkdir {_} _. Arguments ct_root {_} _.
Arguments ct_cgroups {_} _. Arguments ct_group_opens {_} _. Arguments ct_log {_} _. Arguments ct_ccache {_} _.
Arguments ct_sunshine {_} _. Arguments ct_command {_} _ _. Arguments ct_events {_} _ _ _. Arguments ct_output {_} _ _.
Arguments ct_provenance {_} _.

Section Contained.
Context {FS : Type} `{cgroupFiles FS}.

Definition prepareJobCgroup (env : ContainEnv FS) (p : Policy) (r : Request) : result (FS * string) :=
  let root := clean (wp_CgroupRoot p) in
  reject negb (ct_root env) with Plain "worker delegated cgroup root is unavailable" ;;
  match initializeDelegatedCgroup (ct_cgroups env) root (ct_pid env) with
  | (_, Err e) => Err e
  | (fs, Ok _) =>
    match createLimitedJobCgroup fs root (wr_ID r) (wp_MemoryMiB p) (wp_Jobs p) with
    | (_, Err e) => Err e
    | (fs, Ok group) => Ok (fs, group)
    end
  end.

(** The commands of a recipe; the SDK and image checks come before the first of them. *)
Definition recipe_commands (env : ContainEnv FS) (p : Policy) (recipe : string) : result (list (list string)) :=
  reject (recipe =s "llama-hip") && ((wp_ROCmRoot p =s "") || negb (ct_trusted env (wp_ROCmRoot p)))
    with Plain "reviewed ROCm SDK root is unavailable" ;;
  if recipe =s "sunshine-image" then
    reject negb (ct_trusted env "/etc/containers/policy.json") with Plain "installed container signature policy is unavailable" ;;
    sunshineCommands (ct_sunshine env)
  else Ok [cmake_command p recipe; ninja_command p].

(** The loop over the commands; [Ok (Some r)] is the early return of the result [r], and
    the index counts the commands that were run. *)
Fixpoint run_commands (env : ContainEnv FS) (i : nat) (commands : list (list string)) : result (option Result) :=
  match commands with
  | [] => Ok None
  | _ :: commands =>
    reject ct_inhibited env (S i) with Plain "managed build inhibited before compilation phase" ;;
    if ct_command env i then run_commands env (S i) commands
    else match groupEmpty (ct_events env i) with
         | Ok true => Err (Plain "contained compiler failed; inspect bounded worker build log locally")
         | _ => Ok (Some (uncertain "descendant-check" "build cancellation could not prove every descendant stopped"))
         end
  end.

Definition output_names (recipe : string) : list string :=
  if recipe =s "sunshine-image" then ["sunshine.oci"] else ["build/bin/llama-cli"; "build/bin/llama-bench"].

(** [filepath.Base] of an output. *)
Definition output_base (relative : string) : string := default "" (last (split_on "/"%char relative)).

Fixpoint collect_outputs (env : ContainEnv FS) (p : Policy) (l : list string) : result (list Artifact) :=
  match l with
  | [] => Ok []
  | relative :: l =>
    match ct_output env relative with
    | None => Err (Plain "build output is missing or symlinked")
    | Some (digest, size) =>
      rest ← collect_outputs env p l;
      Ok (mkArtifact (output_base relative) digest size (wp_SourceRevision p) "candidate-not-installed-not-qualified" "" :: rest)
    end
  end.

(** What must hold before anything is created. *)
Definition contained_admission (env : ContainEnv FS) (p : Policy) (r : Request) : result Policy :=
  reject negb (wp_WorkerUID p =? ct_euid env) || (wp_WorkerUID p =? 0)
    with Plain "build executor must run as separate unprivileged worker" ;;
  reject negb (ct_trusted env "/usr/bin/bwrap") with Plain "reviewed root-owned bubblewrap is unavailable" ;;
  reject wp_GPUTarget p <>s "gfx1201" with Plain "discovered GPU compilation target requires policy review" ;;
  reject ct_inhibited env 0%nat with Plain "managed build is inhibited" ;;
  _ ← verifySource (ct_trees env) p;
  _ ← verifyBuildInputs (ct_now env) (ct_inputs env) p (wr_Recipe r);
  job_resources (ct_meminfo env) (ct_scratch env) (ct_cache env) p.

Definition runContained (env : ContainEnv FS) (p : Policy) (r : Request) : result Result :=
  p ← contained_admission env p r;
  reject negb (ct_mkdir env) with Plain "mkdir" ;;
  _ ← prepareJobCgroup env p r;
  reject negb (ct_group_opens env) with Plain "open" ;;
  reject negb (ct_log env) with Plain "log" ;;
  reject negb (ct_ccache env) with Plain "ccache policy" ;;
  commands ← recipe_commands env p (wr_Recipe r);
  early ← run_commands env 0 commands;
  match early with
  | Some v => Ok v
  | None =>
    match groupEmpty (ct_events env (length commands)) with
    | Ok true =>
      artifacts ← collect_outputs env p (output_names (wr_Recipe r));
      match ct_provenance env with
      | None => Err (Plain "provenance")
      | Some (digest, size) =>
        Ok (mkResult "succeeded" "candidate-built" "named recipe built; no installation, promotion or qualification" false
              (artifacts ++ [mkArtifact "provenance.json" digest size (wp_SourceRevision p) "built-not-installed-not-qualified" ""]))
      end
    | _ => Ok (uncertain "descendant-check" "worker descendants cannot be proved stopped")
    end
  end.

End Contained.
