(* ===== verification/Builds.v ===== *)
(** The build worker over time: one contained build at a time under the installed
    ceilings, each accepted operation built once over restarts unless its record could not
    be read when it was submitted again, and no build while an earlier one may still have
    processes. *)
From S2P Require Import Prelude Json Types Domain Cgroup Worker Contained.

(** ** Budgets and resources *)

Lemma mem_available_range lines : ∀ a, Z.abs a ≤ 2^53 → Z.abs (mem_available a lines) ≤ 2^53.
Proof.
  induction lines as [|line lines IH]; intros a Ha; simpl; [done|]. apply IH.
  destruct (fields line) as [|k [|v [|u []]]]; try done. destruct (k =s "MemAvailable:"); [|done].
  destruct (ParseInt v) as [kb|] eqn:Hp; [|done]. apply ParseInt_range in Hp. unfold in_int64 in Hp.
  rewrite <- Z.quot_abs by lia. apply Z.quot_le_upper_bound; simpl; lia.
Qed.

Lemma buildJobs_bounds available limit ceiling jobs :
  Z.abs available ≤ 2^53 → Z.abs limit ≤ 2^53 → 1 ≤ ceiling → buildJobs available limit ceiling = Ok jobs →
  1 ≤ jobs ≤ ceiling ∧ 4096 * jobs + 16384 + 8192 ≤ available ∧ 4096 * jobs + 8192 ≤ limit.
Proof.
  intros Ha Hl Hc. unfold buildJobs. cbv zeta.
  rewrite (add64_id available), !add64_id by (unfold in_int64; lia).
  destruct (_ <? 1) eqn:Hj; [done|]. bool_hyps. intros [= Heq].
  pose proof (Z.quot_rem' (if limit + -8192 <? available + -16384 + -8192 then limit + -8192 else available + -16384 + -8192) 4096) as Hq.
  pose proof (Z.rem_bound_pos (if limit + -8192 <? available + -16384 + -8192 then limit + -8192 else available + -16384 + -8192) 4096) as Hr.
  set (b := if limit + -8192 <? available + -16384 + -8192 then limit + -8192 else available + -16384 + -8192) in *.
  assert (b ≤ limit + -8192 ∧ b ≤ available + -16384 + -8192) as [Hb1 Hb2].
  { unfold b. destruct (_ <? _) eqn:Hlt; bool_hyps; lia. }
  assert (0 ≤ b) as Hb0. { destruct (Z_lt_le_dec b 0); [|done]. pose proof (Z.quot_opp_l b 4096). pose proof (Z.quot_pos (- b) 4096). lia. }
  destruct (Z.quot b 4096 >? ceiling) eqn:Hgt; bool_hyps; lia.
Qed.

(** The ceilings compose: under a policy that [LoadPolicy] installs and a budget that
    [executionPolicy] accepts, the contained build runs the requested number of jobs or
    fewer, keeps the requested memory limit, and that many 4 GiB jobs fit both in the
    available host memory beside the 16 GiB host and 8 GiB link reserves and in the job's
    own memory limit beside the link reserve; scratch and cache file systems hold no more
    than the requested budgets. *)
Theorem contained_resources_fit euid policy p r selected meminfo scratch cache final :
  LoadPolicy euid policy = Ok p → executionPolicy p r = Ok selected →
  wp_ScratchGiB p < 2^33 → wp_CacheGiB p < 2^33 →
  job_resources (Some meminfo) scratch cache selected = Ok final →
  let b := wr_Budgets r in let available := mem_available 0 (split_on newline meminfo) in
  1 ≤ wp_Jobs final ≤ cb_BuildJobs b ∧ cb_BuildJobs b ≤ wp_Jobs policy ≤ 16 ∧
  wp_MemoryMiB final = cb_BuildMemoryMiB b ∧ wp_MemoryMiB final ≤ wp_MemoryMiB policy ≤ 49152 ∧
  4096 * wp_Jobs final + 16384 + 8192 ≤ available ∧ 4096 * wp_Jobs final + 8192 ≤ wp_MemoryMiB final ∧
  (∃ s c, scratch = Some s ∧ cache = Some c ∧
     (in_int64 (sf_Blocks s) → in_int64 (sf_Blocks s * sf_Bsize s) → sf_Blocks s * sf_Bsize s ≤ cb_ScratchGiB b * 2^30) ∧
     (in_int64 (sf_Blocks c) → in_int64 (sf_Blocks c * sf_Bsize c) → sf_Blocks c * sf_Bsize c ≤ cb_CompilerGiB b * 2^30)).
Proof.
  intros Hl He Hs Hc Hj b available.
  assert (p = policy ∧ wp_Jobs policy ≤ 16 ∧ wp_MemoryMiB policy ≤ 49152) as (-> & Hpj & Hpm).
  { unfold LoadPolicy in Hl. split_hyp Hl. bool_hyps. done. }
  assert (wp_Jobs selected = cb_BuildJobs b ∧ wp_MemoryMiB selected = cb_BuildMemoryMiB b ∧
    wp_ScratchGiB selected = cb_ScratchGiB b ∧ wp_CacheGiB selected = cb_CompilerGiB b ∧
    1 ≤ cb_BuildJobs b ≤ wp_Jobs policy ∧ 4096 ≤ cb_BuildMemoryMiB b ≤ wp_MemoryMiB policy ∧
    1 ≤ cb_ScratchGiB b ≤ wp_ScratchGiB policy ∧ 1 ≤ cb_CompilerGiB b ≤ wp_CacheGiB policy) as (Ej & Em & Esc & Ec & ? & ? & ? & ?).
  { unfold executionPolicy in He. fold b in He. split_hyp He; bool_hyps; simpl; split_and!; try done; lia. }
  pose proof (mem_available_range (split_on newline meminfo) 0 ltac:(lia)) as Hav. fold available in Hav.
  unfold job_resources in Hj. fold available in Hj.
  destruct (buildJobs available _ _) as [jobs|] eqn:Hb; [|done].
  apply buildJobs_bounds in Hb; [|lia|lia|lia].
  destruct scratch as [s|]; [|done]. destruct (capacity s >? _) eqn:Hcs; [done|].
  destruct cache as [c|]; [|done]. destruct (capacity c >? _) eqn:Hcc; [done|]. injection Hj as <-. bool_hyps.
  assert (∀ x, 1 ≤ x < 2^33 → shl64 x 30 = x * 2^30) as Hsh.
  { intros x Hx. unfold shl64. rewrite Z.shiftl_mul_pow2 by lia. apply wrap64_id. unfold in_int64. lia. }
  assert (∀ f, in_int64 (sf_Blocks f) → in_int64 (sf_Blocks f * sf_Bsize f) → capacity f = sf_Blocks f * sf_Bsize f) as Hcap.
  { intros f Hf1 Hf2. unfold capacity. rewrite (wrap64_id _ Hf1). by apply mul64_id. }
  simpl in *. rewrite Hsh in Hcs, Hcc by lia. split_and!; try lia. exists s, c. split_and!; [done|done| |].
  - intros Hf1 Hf2. rewrite <- Hcap by done. lia.
  - intros Hf1 Hf2. rewrite <- Hcap by done. lia.
Qed.

(** ** Reviewed inputs *)

Definition tree_files (l : list (option TreeEntry)) : list TreeEntry :=
  List.filter (λ e, negb (te_Dir e)) (omap id l).

Lemma walk_source_ok files l : ∀ count n, walk_source files count l = Ok n →
  n = count + Z.of_nat (length (tree_files l)) ∧
  (∀ e, e ∈ omap id l → te_Symlink e = false ∧ te_Trusted e = true) ∧
  (∀ e, e ∈ tree_files l → ∃ d, files !! te_Path e = Some d ∧ te_Digest e = Some d).
Proof.
  induction l as [|[e|] l IH]; intros count n; csimpl; [intros [= <-]| |done].
  { split_and!; [unfold tree_files; simpl; lia| |]; intros e He; by apply elem_of_nil in He. }
  destruct (te_Symlink e) eqn:Hs; [done|]. destruct (negb (te_Trusted e)) eqn:Ht; [done|]. apply negb_false_iff in Ht.
  unfold tree_files in *. csimpl. destruct (te_Dir e); csimpl.
  - intros (-> & Hl & Hf)%IH. split_and!; [done| |done]. intros x [->|Hx]%elem_of_cons; auto.
  - destruct (files !! te_Path e) as [d|] eqn:Hd; [|done].
    destruct (te_Digest e) as [d'|] eqn:Hd'; [|done]. destruct (d' <>s d) eqn:Hne; [done|]. bool_hyps. subst d'.
    intros (-> & Hl & Hf)%IH. split_and!; [lia| |]; intros x [->|Hx]%elem_of_cons; eauto.
Qed.

(** Source verification is exact: when [verifySource] accepts, the files the walk finds
    are the files of the reviewed manifest, no more and no fewer, each with the reviewed
    digest, reached through trusted entries and no symbolic link, and the manifest itself
    is the one the policy names. *)
Theorem verifySource_exact trees p :
  verifySource trees p = Ok tt →
  let t := trees (wp_SourceRoot p) (wp_SourceManifest p) in
  NoDup (te_Path <$> tree_files (tr_Entries t)) →
  tr_ManifestDigest t = Some (wp_SourceManifestSHA256 p) ∧
  ∃ files, tr_ManifestFiles t = Some files ∧
    (∀ e, e ∈ omap id (tr_Entries t) → te_Symlink e = false ∧ te_Trusted e = true) ∧
    (∀ path digest, files !! path = Some digest ↔
       ∃ e, e ∈ tree_files (tr_Entries t) ∧ te_Path e = path ∧ te_Digest e = Some digest).
Proof.
  intros Hv t Hnd. unfold verifySource in Hv. fold t in Hv. destruct (negb _); [done|].
  destruct (tr_ManifestDigest t) as [sum|]; [|done]. destruct (sum <>s _) eqn:Hs; [done|]. bool_hyps. subst sum.
  split; [done|]. destruct (tr_ManifestFiles t) as [files|]; [|done]. exists files. split; [done|].
  destruct (_ || _); [done|]. destruct (negb _); [done|].
  destruct (walk_source files 0 _) as [n|] eqn:Hw; [|done]. destruct (negb _) eqn:Hn; [done|].
  apply negb_false_iff, Z.eqb_eq in Hn. apply walk_source_ok in Hw as (Hcount & Hl & Hf). split; [done|].
  intros path digest. split.
  - intros Hp. assert (path ∈ te_Path <$> tree_files (tr_Entries t)) as (e & -> & He)%list_elem_of_fmap.
    { apply (covers_all _ (dom files)); [done| | |by apply elem_of_dom].
      - intros x (e & -> & He)%list_elem_of_fmap. destruct (Hf e He) as (d & ? & _). by apply elem_of_dom.
      - rewrite length_fmap, size_dom. lia. }
    exists e. destruct (Hf e He) as (d & Hd & ?). split_and!; congruence.
  - intros (e & He & <- & Hd). destruct (Hf e He) as (d & ? & ?). congruence.
Qed.

Definition regular_entries (l : list (option TarEntry)) : list TarEntry :=
  List.filter (λ h, negb (ta_Dir h)) (omap id l).

(** What an accepted entry satisfies. *)
Definition entry_ok (h : TarEntry) : Prop :=
  is_abs (entry_name h) = false ∧ contains (entry_name h) ".." = false ∧
  (entry_name h = "index.json" ∨ entry_name h = "oci-layout" ∨
   ∃ d, has_prefix (entry_name h) blob_prefix = true ∧ trim_prefix (entry_name h) blob_prefix = d ∧ str_len d = 64 ∧ ta_Digest h = Some d).

Lemma verify_entries_ok expected l : ∀ seen hi hm, verify_entries expected seen hi hm l = Ok tt →
  Forall entry_ok (regular_entries l) ∧
  NoDup (entry_name <$> regular_entries l) ∧ (∀ h, h ∈ regular_entries l → entry_name h ∉ seen) ∧
  (hi = false → ∃ h ms, h ∈ regular_entries l ∧ entry_name h = "index.json" ∧ ta_Manifests h = Some ms ∧ "sha256:" +:+ expected ∈ ms) ∧
  (hm = false → ∃ h, h ∈ regular_entries l ∧ has_prefix (entry_name h) blob_prefix = true ∧
      trim_prefix (entry_name h) blob_prefix = expected ∧ ta_Digest h = Some expected).
Proof.
  induction l as [|[h|] l IH]; intros seen hi hm; simpl; [|unfold regular_entries; csimpl|done].
  { destruct (_ || _) eqn:Hb; [done|]. bool_hyps. intros _. destruct hi, hm; try done.
    split_and!; try done; [constructor..|]. intros h Hh. by apply elem_of_nil in Hh. }
  destruct (ta_Dir h) eqn:Hdir; csimpl; [apply IH|].
  destruct (negb (ta_Regular h) || (entry_name h =s "") || is_abs (entry_name h) || contains (entry_name h) ".."
    || bool_decide (entry_name h ∈ seen) || (ta_Size h <? 0) || (ta_Size h >? Z.shiftl 32 30)) eqn:Hb; [done|].
  bool_hyps.
  match goal with Hd : bool_decide _ = false |- _ => apply bool_decide_eq_false in Hd; rename Hd into Hnew end. fold (regular_entries l).
  assert (∀ hi' hm', verify_entries expected ({[entry_name h]} ∪ seen) hi' hm' l = Ok tt → entry_ok h →
    (hi = false → hi' = true → ∃ ms, entry_name h = "index.json" ∧ ta_Manifests h = Some ms ∧ "sha256:" +:+ expected ∈ ms) →
    (hm = false → hm' = true → has_prefix (entry_name h) blob_prefix = true ∧ trim_prefix (entry_name h) blob_prefix = expected ∧ ta_Digest h = Some expected) →
    Forall entry_ok (h :: regular_entries l) ∧
    NoDup (entry_name <$> h :: regular_entries l) ∧ (∀ x, x ∈ h :: regular_entries l → entry_name x ∉ seen) ∧
    (hi = false → ∃ x ms, x ∈ h :: regular_entries l ∧ entry_name x = "index.json" ∧ ta_Manifests x = Some ms ∧ "sha256:" +:+ expected ∈ ms) ∧
    (hm = false → ∃ x, x ∈ h :: regular_entries l ∧ has_prefix (entry_name x) blob_prefix = true ∧
      trim_prefix (entry_name x) blob_prefix = expected ∧ ta_Digest x = Some expected)) as Hgo.
  { intros hi' hm' (Hf & Hnd & Hseen & Hi & Hm)%IH Hok Hhi Hhm. split_and!.
    - by constructor.
    - csimpl. constructor; [|done]. intros (x & Hx & Hin)%list_elem_of_fmap. apply (Hseen x Hin). rewrite <- Hx. set_solver.
    - intros x [->|Hin]%elem_of_cons; [done|]. specialize (Hseen x Hin). set_solver.
    - intros Hf0. destruct hi'.
      + destruct (Hhi Hf0 eq_refl) as (ms & ?). exists h, ms. split; [by constructor|done].
      + destruct (Hi eq_refl) as (x & ms & ? & ?). exists x, ms. split; [by constructor|done].
    - intros Hf0. destruct hm'.
      + exists h. split; [by constructor|]. by apply Hhm.
      + destruct (Hm eq_refl) as (x & ? & ?). exists x. split; [by constructor|done]. }
  destruct (String.eqb_spec (entry_name h) "index.json") as [Hn|Hn].
  - destruct (ta_Size h >? Z.shiftl 1 20); [done|]. destruct (ta_Manifests h) as [ms|] eqn:Hms; [|done].
    intros Hv. apply Hgo in Hv; [exact Hv|unfold entry_ok; auto| |congruence].
    intros -> Hi. simpl in Hi. apply str_in_spec in Hi. eauto.
  - destruct (has_prefix (entry_name h) blob_prefix) eqn:Hp.
    + destruct (ta_Digest h) as [sum|] eqn:Hd; [|done].
      destruct (negb (str_len (trim_prefix (entry_name h) blob_prefix) =? 64) || (sum <>s trim_prefix (entry_name h) blob_prefix)) eqn:Hb'; [done|].
      bool_hyps. subst sum. intros Hv. apply Hgo in Hv; [exact Hv| |congruence|].
      * unfold entry_ok. split_and!; eauto 10.
      * intros -> Hm. simpl in Hm. apply String.eqb_eq in Hm. rewrite Hm in *. done.
    + destruct (String.eqb_spec (entry_name h) "oci-layout") as [Ho|Ho]; [|done].
      intros Hv. apply Hgo in Hv; [exact Hv|unfold entry_ok; auto|congruence..].
Qed.

(** The offline base image is exactly the reviewed one: an accepted archive holds only
    the index, the layout marker and blobs named by the digest of their own bytes, under
    distinct names that stay inside the archive; its index points at the reviewed
    manifest, and the blob of that digest is present. *)
Theorem verifyOCIArchive_exact l expected :
  verifyOCIArchive l expected = Ok tt →
  Forall entry_ok (regular_entries l) ∧ NoDup (entry_name <$> regular_entries l) ∧
  (∃ h ms, h ∈ regular_entries l ∧ entry_name h = "index.json" ∧ ta_Manifests h = Some ms ∧ "sha256:" +:+ expected ∈ ms) ∧
  (∃ h, h ∈ regular_entries l ∧ trim_prefix (entry_name h) blob_prefix = expected ∧ ta_Digest h = Some expected).
Proof.
  intros (Hf & Hnd & _ & Hi & Hm)%verify_entries_ok. split_and!; [done|done|by apply Hi|].
  destruct (Hm eq_refl) as (h & ? & _ & ?). by exists h.
Qed.

(** ** The contained build *)

Section Contained.
Context {FS : Type} `{cgroupFrame FS}.

(** The descendants of the job were seen gone after the [k]-th kill. *)
Definition seen_empty (env : ContainEnv FS) (k : nat) : Prop :=
  ∃ i text line, (i < 30)%nat ∧ ct_events env k i = Some text ∧ line ∈ split_on newline text ∧ fields line = ["populated"; "0"].

Lemma groupEmpty_seen (env : ContainEnv FS) k : groupEmpty (ct_events env k) = Ok true → seen_empty env k.
Proof.
  unfold groupEmpty. intros (i & text & Hi & Hr & (line & ? & ?)%populated_zero_line)%poll_group_true.
  exists i, text, line. split_and!; [lia|done..].
Qed.

Lemma run_commands_spec (env : ContainEnv FS) commands : ∀ i,
  match run_commands env i commands with
  | Ok None => ∀ k, (i ≤ k < i + length commands)%nat → ct_command env k = true ∧ ct_inhibited env (S k) = false
  | Ok (Some v) => v = uncertain "descendant-check" "build cancellation could not prove every descendant stopped"
  | Err e => e = Plain "managed build inhibited before compilation phase" ∨ ∃ k, ct_command env k = false ∧ seen_empty env k
  end.
Proof.
  induction commands as [|c commands IH]; intros i; simpl; [intros; lia|].
  destruct (ct_inhibited env (S i)) eqn:Hi; [by left|]. destruct (ct_command env i) eqn:Hc.
  - specialize (IH (S i)). destruct (run_commands env (S i) commands) as [[v|]|]; [done| |done].
    intros k Hk. destruct (decide (k = i)) as [->|]; [done|]. apply IH. lia.
  - destruct (groupEmpty (ct_events env i)) as [[]|] eqn:Hg; [|done..]. right. exists i. eauto using groupEmpty_seen.
Qed.

Lemma collect_outputs_ok (env : ContainEnv FS) p l artifacts : collect_outputs env p l = Ok artifacts →
  Forall2 (λ relative a, ct_output env relative = Some (ar_SHA256 a, ar_Size a) ∧ ar_Name a = output_base relative ∧
    ar_SourceRevision a = wp_SourceRevision p ∧ ar_Qualification a = "candidate-not-installed-not-qualified") l artifacts.
Proof.
  revert artifacts. induction l as [|o l IH]; intros artifacts; simpl; [intros [= <-]; constructor|].
  destruct (ct_output env o) as [[digest size]|] eqn:Ho; [|done]. intros (rest & Hr & [= <-])%bind_ok.
  constructor; [done|by apply IH].
Qed.

Lemma prepareJobCgroup_ok (env : ContainEnv FS) p r fs group : prepareJobCgroup env p r = Ok (fs, group) →
  ∃ fs0, createLimitedJobCgroup fs0 (clean (wp_CgroupRoot p)) (wr_ID r) (wp_MemoryMiB p) (wp_Jobs p) = (fs, Ok group).
Proof.
  unfold prepareJobCgroup. destruct (negb _); [done|]. destruct (initializeDelegatedCgroup _ _ _) as [fs1 [|]]; [|done].
  destruct (createLimitedJobCgroup _ _ _ _ _) as [fs2 [g|]] eqn:Hc; [|done]. intros [= <- <-]. eauto.
Qed.

(** The limits the kernel holds for the job's group. *)
Definition job_contained (id : string) (memoryMiB jobs : Z) (fs : FS) (group : string) : Prop :=
  validID id = true ∧ retained fs group ("memory.max", pretty.pretty (memoryMiB * 1048576)) ∧
  retained fs group ("memory.swap.max", "0") ∧ retained fs group ("pids.max", "256") ∧
  retained fs group ("cpu.max", pretty.pretty (jobs * 100000) +:+ " 100000").

Lemma job_resources_revision meminfo scratch cache p final :
  job_resources meminfo scratch cache p = Ok final → wp_SourceRevision final = wp_SourceRevision p ∧
    wp_MemoryMiB final = wp_MemoryMiB p ∧ wp_CgroupRoot final = wp_CgroupRoot p.
Proof. unfold job_resources. intros Hj. split_hyp Hj. done. Qed.

(** A contained build reports success only on evidence: the worker runs as its own
    unprivileged user, source, hardware and toolchain were verified, every limit of the
    job's group was read back, every command of the recipe was run uninhibited and
    succeeded, the group was seen empty after the final kill, and the artifacts are the
    named outputs with the digests read from them, tied to the verified source revision
    and unqualified. The only other result without an error asks for recovery. *)
Theorem runContained_success (env : ContainEnv FS) p r v :
  runContained env p r = Ok v →
  (re_State v = "recovery-required" ∧ re_RecoveryRequired v = true) ∨
  (re_State v = "succeeded" ∧ re_RecoveryRequired v = false ∧
   wp_WorkerUID p = ct_euid env ∧ wp_WorkerUID p ≠ 0 ∧ verifySource (ct_trees env) p = Ok tt ∧
   verifyBuildInputs (ct_now env) (ct_inputs env) p (wr_Recipe r) = Ok tt ∧
   ∃ final fs group commands,
     job_resources (ct_meminfo env) (ct_scratch env) (ct_cache env) p = Ok final ∧
     (wp_MemoryMiB p ≤ 49152 → wp_Jobs final ≤ 16 → job_contained (wr_ID r) (wp_MemoryMiB p) (wp_Jobs final) fs group) ∧
     recipe_commands env final (wr_Recipe r) = Ok commands ∧
     (∀ k, (k < length commands)%nat → ct_command env k = true ∧ ct_inhibited env (S k) = false) ∧
     seen_empty env (length commands) ∧
     ∃ outputs provenance, re_Artifacts v = outputs ++ [provenance] ∧
       Forall2 (λ relative a, ct_output env relative = Some (ar_SHA256 a, ar_Size a) ∧ ar_Name a = output_base relative ∧
         ar_SourceRevision a = wp_SourceRevision p ∧ ar_Qualification a = "candidate-not-installed-not-qualified")
         (output_names (wr_Recipe r)) outputs).
Proof.
  unfold runContained. intros (final & Ha & Hr)%bind_ok. destruct (negb (ct_mkdir env)); [done|].
  apply bind_ok in Hr as ([fs group] & Hp & Hr). do 3 (destruct (negb _); [done|]).
  apply bind_ok in Hr as (commands & Hc & Hr). apply bind_ok in Hr as (early & He & Hr).
  pose proof (run_commands_spec env commands 0) as Hrun. rewrite He in Hrun.
  destruct early as [v'|]; [injection Hr as <-; subst v'; by left|].
  destruct (groupEmpty (ct_events env (length commands))) as [[]|] eqn:Hg; [|injection Hr as <-; by left..].
  right. apply bind_ok in Hr as (outputs & Ho & Hr). destruct (ct_provenance env) as [[digest size]|]; [|done].
  injection Hr as <-. unfold contained_admission in Ha.
  destruct (_ || _) eqn:Hu in Ha; [done|]. bool_hyps. do 3 (destruct (ct_inhibited _ _) || destruct (negb _) || destruct (_ <>s _); try done).
  apply bind_ok in Ha as ([] & Hs & Ha). apply bind_ok in Ha as ([] & Hi & Ha).
  destruct (job_resources_revision _ _ _ _ _ Ha) as (Hrev & Hmem & Hroot). split_and!; [done..|].
  exists final, fs, group, commands. split_and!; [done| |done| |by apply groupEmpty_seen|].
  - intros Hm Hj. apply prepareJobCgroup_ok in Hp as (fs0 & Hp). rewrite Hmem in Hp.
    destruct (createLimitedJobCgroup_sound _ _ _ _ _ _ _ Hp) as (? & _ & _ & _ & ? & ? & ? & ?); done.
  - intros k Hk. apply Hrun. lia.
  - eexists _, _. split; [done|]. rewrite <- Hrev. by apply collect_outputs_ok.
Qed.

End Contained.

(** ** The worker's life *)

(** A [run] goroutine before and after its first critical section; after it, [next] is the
    policy of the contained build or the error that replaces the build. *)
Inductive Phase := Starting | Building (next : result Policy).

Record Life := mkLife {
  lf_s : Service;
  lf_up : bool;
  lf_runs : list (Build * Phase);
  (** ghost: every contained build that was entered, over all lives *)
  lf_built : list (Build * Policy);
  (** ghost: every submission of an operation that has a record which could not be read *)
  lf_missed : list string }.

(** A submission that misses the record of its operation. *)
Definition missed (ev : HandlerEnv) (method path : string) (body : option Request) (s : Service) : list string :=
  match body with
  | Some req =>
    if (method =s "POST") && (path =s "/execute") && negb (he_readable ev) && is_some (wk_files s !! wr_ID req) then [wr_ID req] else []
  | None => []
  end.
Definition builds_of (id : string) (l : Life) : nat := length (filter (λ b : Build * Policy, bd_ID b.1 = id) (lf_built l)).
Definition misses_of (id : string) (l : Life) : nat := length (filter (λ m, m = id) (lf_missed l)).

(** The operations a request or a critical section serializes on the mutex, a contained
    build between its two critical sections, and a stop or crash at any time followed by
    the next start; the worker stays down when [New] fails. *)
Section Life.
Context {FS : Type} `{cgroupFiles FS} `{Sha256} (policy : Policy).

Inductive life_step : Life → Life → Prop :=
| l_request l ev method path body s resp started :
    lf_up l = true → Handler policy ev method path body (lf_s l) = (s, resp, started) →
    life_step l (mkLife s true (lf_runs l ++ match started with Some r => [(r, Starting)] | None => [] end) (lf_built l)
      (missed ev method path body (lf_s l) ++ lf_missed l))
| l_start l before_ after_ now w r s r' next :
    lf_up l = true → lf_runs l = before_ ++ (r, Starting) :: after_ →
    run_start policy now w r (lf_s l) = (s, r', next) →
    life_step l (mkLife s true (before_ ++ (r', Building next) :: after_)
      (lf_built l ++ match next with Ok selected => [(r', selected)] | Err _ => [] end) (lf_missed l))
| l_finish l before_ after_ now w r next outcome expired :
    lf_up l = true → lf_runs l = before_ ++ (r, Building next) :: after_ →
    match next with
    | Err e => outcome = Err e
    | Ok selected => ∃ env : ContainEnv FS, outcome = runContained env selected (bd_Request r)
    end →
    life_step l (mkLife (run_finish now w outcome expired r (lf_s l)) true (before_ ++ after_) (lf_built l) (lf_missed l))
| l_restart l clk w listed readable group trees s r :
    New clk w listed readable group trees policy (wk_files (lf_s l)) = (s, r) →
    life_step l (mkLife s (is_ok r) [] (lf_built l) (lf_missed l)).

Definition life_initial : Life := mkLife (mkService ∅ false false ∅ ∅) false [] [] [].
Definition life_reachable (l : Life) : Prop := rtc life_step life_initial l.

(** ** The invariant *)

Definition needs_recovery (s : Service) (id : string) : Prop :=
  ∃ r, wk_files s !! id = Some (Recorded r) ∧ re_RecoveryRequired (bd_Result r) = true.
(** Builds of an operation that are accepted and not entered. *)
Definition waiting (l : list (Build * Phase)) : list string :=
  omap (λ x : Build * Phase, match x.2 with Starting => Some (bd_ID x.1) | Building _ => None end) l.
Definition pending_of (id : string) (l : list (Build * Phase)) : nat := length (filter (λ k, k = id) (waiting l)).
Definition records_of (id : string) (s : Service) : nat := if decide (is_Some (wk_files s !! id)) then 1 else 0.
Lemma records_mono id s s' : (is_Some (wk_files s !! id) → is_Some (wk_files s' !! id)) → (records_of id s ≤ records_of id s')%nat.
Proof. unfold records_of. intros Hs. destruct (decide (is_Some _)), (decide (is_Some (wk_files s' !! id))); naive_solver lia. Qed.

Record life_inv (l : Life) : Prop := {
  lv_key : ∀ id f, wk_files (lf_s l) !! id = Some f → ∃ r, f = Recorded r ∧ bd_ID r = id ∧ validID id = true;
  lv_fence : lf_up l = true → ∀ id, needs_recovery (lf_s l) id → id ∈ wk_recovery (lf_s l);
  lv_runs : lf_runs l = [] ∨ ∃ x, lf_runs l = [x];
  lv_running : lf_up l = true → wk_running (lf_s l) = negb (bool_decide (lf_runs l = []));
  lv_down : lf_up l = false → lf_runs l = [];
  (** the file of a live run records its unfinished request *)
  lv_record : ∀ r ph, (r, ph) ∈ lf_runs l → ∃ f, wk_files (lf_s l) !! bd_ID r = Some (Recorded f) ∧
    bd_Request f = bd_Request r ∧ re_RecoveryRequired (bd_Result f) = false ∧ re_RecoveryRequired (bd_Result r) = false;
  lv_next : ∀ r next, (r, Building next) ∈ lf_runs l → ∀ sel, next = Ok sel → (r, sel) ∈ lf_built l;
  (** a build was entered only for a recorded operation, and as often as it was accepted *)
  lv_built : ∀ r sel, (r, sel) ∈ lf_built l → is_Some (wk_files (lf_s l) !! bd_ID r) ∧ executionPolicy policy (bd_Request r) = Ok sel;
  lv_once : ∀ id, (builds_of id l + pending_of id (lf_runs l) ≤ records_of id (lf_s l) + misses_of id l)%nat }.

(** ** Effects *)

Definition recorded (r : Build) (s : Service) : Service :=
  mkService (<[bd_ID r := Recorded r]> (wk_files s)) (wk_running s) (wk_persistenceFailed s) (wk_recovery s) (wk_cancel s).

Lemma save_spec now w r s s' e : save now w r s = (s', e) →
  s' = recorded (set_bd_UpdatedAt now r) s ∨ (is_ok e = false ∧ s' = s).
Proof. unfold save. destruct w as [|[]]; intros [= <- <-]; auto. Qed.

Lemma save_ok now w r s s' : save now w r s = (s', Ok tt) → s' = recorded (set_bd_UpdatedAt now r) s.
Proof. unfold save. by destruct w as [|[]]; intros [=]. Qed.

(** Everything a request that misses the records [lost] can do to the service. *)
Inductive effect (lost : list string) (s : Service) : Service → option Build → Prop :=
| e_none : effect lost s s None
| e_cancel c : effect lost s (set_wk_cancel c s) None
| e_resolved id record next now keep :
    read true id s = Ok record → re_RecoveryRequired next = false →
    effect lost s (recorded (set_bd_UpdatedAt now (set_bd_Result next record))
      (if keep : bool then s else set_wk_recovery (wk_recovery s ∖ {[bd_ID record]}) s)) None
| e_queued req now :
    validID (wr_ID req) = true → wk_running s = false →
    effect lost s (recorded (set_bd_UpdatedAt now (queued_build req)) s) None
| e_started req now selected :
    validID (wr_ID req) = true → is_ok (read true (wr_ID req) s) = false ∨ lost = [wr_ID req] →
    wk_running s = false → wk_recovery s = ∅ → executionPolicy policy req = Ok selected →
    effect lost s (set_wk_cancel (<[wr_ID req := false]> (wk_cancel s))
      (set_wk_running true (recorded (set_bd_UpdatedAt now (queued_build req)) s))) (Some (queued_build req)).

Lemma read_readable readable id s r : read readable id s = Ok r → read true id s = Ok r.
Proof. unfold read. destruct (validID id), readable; done. Qed.
Lemma handle_status_effect lost ev id s s' resp : handle_status ev id s = (s', resp) → effect lost s s' None.
Proof.
  unfold handle_status. destruct (read _ id s) as [record|] eqn:Hr; [|intros [= <- _]; constructor]. apply read_readable in Hr.
  destruct (re_RecoveryRequired (bd_Result record)); [|intros [= <- _]; constructor].
  destruct (re_RecoveryRequired (restartDisposition _)) eqn:Hn; [intros [= <- _]; constructor|].
  destruct (save _ _ _ s) as [s1 e] eqn:Hs. apply save_spec in Hs.
  destruct e as [[]|]; intros [= <- _]; destruct Hs as [->|[? ->]]; try done; [|..|constructor].
  - apply (e_resolved lost s id record _ _ false Hr Hn).
  - apply (e_resolved lost s id record _ _ true Hr Hn).
Qed.

Lemma handle_execute_effect ev body s s' resp started :
  handle_execute policy ev body s = (s', resp, started) → effect (missed ev "POST" "/execute" body s) s s' started.
Proof.
  unfold handle_execute. destruct body as [req|]; [|intros [= <- _ <-]; constructor].
  destruct (negb (validID (wr_ID req)) || _ || _ || _) eqn:Hb; [intros [= <- _ <-]; constructor|]. bool_hyps.
  destruct (read _ (wr_ID req) s) as [old|] eqn:Hr; [destruct (_ <>s _); intros [= <- _ <-]; constructor|].
  destruct (wk_running s) eqn:Hrun; [intros [= <- _ <-]; constructor|].
  destruct (wk_persistenceFailed s || _) eqn:Hf; [intros [= <- _ <-]; constructor|]. bool_hyps.
  match goal with Hrec : bool_decide _ = true |- _ => apply bool_decide_eq_true in Hrec end.
  destruct (executionPolicy policy req) as [sel|e0] eqn:He; [|destruct e0; intros [= <- _ <-]; constructor].
  destruct (match he_entries ev with None => true | Some _ => _ end); [intros [= <- _ <-]; constructor|].
  destruct (he_inhibited ev); [intros [= <- _ <-]; constructor|].
  destruct (verifySource _ _) as [?|e1]; [|intros [= <- _ <-]; constructor].
  destruct (save _ _ _ s) as [s1 e2] eqn:Hs. apply save_spec in Hs.
  destruct e2 as [[]|]; intros [= <- _ <-]; destruct Hs as [->|[? ->]]; try done; [|..|constructor].
  - apply (e_started _ s req (he_now ev) sel); try done. destruct (he_readable ev) eqn:Hread; [left; by rewrite Hr|].
    destruct (wk_files s !! wr_ID req) eqn:Hf; [right; unfold missed; by rewrite Hread, Hf|left]. unfold read. rewrite Hf. by destruct (negb _).
  - by apply e_queued.
Qed.

Lemma Handler_effect ev method path body s s' resp started :
  Handler policy ev method path body s = (s', resp, started) → effect (missed ev method path body s) s s' started.
Proof.
  unfold Handler. destruct (negb _); [intros [= <- _ <-]; constructor|].
  destruct (_ && (path =s "/recipes")); [intros [= <- _ <-]; constructor|].
  destruct (_ && (path =s "/validate")); [intros [= <- _ <-]; constructor|].
  destruct (_ && has_prefix path "/operations/").
  { destruct (handle_status _ _ _) as [s1 r1] eqn:Hs. intros [= <- _ <-]. by eapply handle_status_effect. }
  destruct (_ && has_prefix path "/cancel/").
  { unfold handle_cancel. destruct (wk_cancel s !! _); intros [= <- _ <-]; constructor. }
  destruct (_ || _) eqn:Hroute; [intros [= <- _ <-]; constructor|]. bool_hyps. subst. apply handle_execute_effect.
Qed.

(** ** Restart *)

Lemma read_ok id s r : read true id s = Ok r → validID id = true ∧ wk_files s !! id = Some (Recorded r).
Proof. unfold read. destruct (validID id); simpl; [|done]. destruct (wk_files s !! id) as [[]|]; [done| |done]. by intros [= ->]. Qed.

(** The record a completed start leaves for a stored one. *)
Definition restarted (group : string → GroupStat) (r r' : Build) : Prop :=
  bd_Request r' = bd_Request r ∧
  if Terminal (re_State (bd_Result r)) then r' = r
  else bd_Result r' = restartDisposition (group (bd_ID r)).

Lemma load_records_ok clk w readable group l : ∀ n s s',
  NoDup l → (∀ id f, wk_files s !! id = Some f → ∃ r, f = Recorded r ∧ bd_ID r = id) →
  load_records clk w readable group n l s = (s', Ok tt) →
  wk_running s' = wk_running s ∧
  (∀ id, id ∉ l → wk_files s' !! id = wk_files s !! id) ∧
  (∀ id, id ∈ l → ∃ r r', wk_files s !! id = Some (Recorded r) ∧ wk_files s' !! id = Some (Recorded r') ∧
     validID id = true ∧ restarted group r r' ∧ (re_RecoveryRequired (bd_Result r') = true → id ∈ wk_recovery s')) ∧
  wk_recovery s ⊆ wk_recovery s'.
Proof.
  induction l as [|name l IH]; intros n s s' Hnd Hkey; simpl.
  { intros [= <-]. split_and!; [done|done| |done]. intros id Hid. by apply elem_of_nil in Hid. }
  inversion Hnd as [|? ? Hnin Hnd']; subst. destruct (negb (readable name)); [done|]. destruct (wk_files s !! name) as [[|r]|] eqn:Hr; [done| |done].
  destruct (Hkey _ _ Hr) as (r0 & [= <-] & HID). destruct (validID (bd_ID r)) eqn:Hv; simpl; [|done].
  assert (∀ r' s1 n1, bd_ID r' = name → restarted group r r' → wk_files s1 = <[name := Recorded r']> (wk_files s) →
    wk_running s1 = wk_running s → wk_recovery s1 = wk_recovery s →
    load_records clk w readable group n1 l (remember_recovery r' s1) = (s', Ok tt) →
    wk_running s' = wk_running s ∧
    (∀ id, id ∉ name :: l → wk_files s' !! id = wk_files s !! id) ∧
    (∀ id, id ∈ name :: l → ∃ r r', wk_files s !! id = Some (Recorded r) ∧ wk_files s' !! id = Some (Recorded r') ∧
      validID id = true ∧ restarted group r r' ∧ (re_RecoveryRequired (bd_Result r') = true → id ∈ wk_recovery s')) ∧
    wk_recovery s ⊆ wk_recovery s') as Hgo.
  { intros r' s1 n1 HID' Hres Hf1 Hrun1 Hrec1 Hl.
    assert (wk_files (remember_recovery r' s1) = wk_files s1 ∧ wk_running (remember_recovery r' s1) = wk_running s1 ∧
      wk_recovery s ⊆ wk_recovery (remember_recovery r' s1) ∧
      (re_RecoveryRequired (bd_Result r') = true → name ∈ wk_recovery (remember_recovery r' s1))) as (Hf & Hrn & Hsub & Hin).
    { unfold remember_recovery. destruct (re_RecoveryRequired _); simpl; rewrite ?Hrec1; set_solver. }
    apply IH in Hl as (Hrun & Hout & Hin' & Hsub'); [|done|].
    2:{ intros id f. rewrite Hf, Hf1. intros [[<- <-]|[Hne ?]]%lookup_insert_Some; eauto. }
    split_and!; [congruence| | |set_solver].
    - intros id [Hne Hid]%not_elem_of_cons. rewrite Hout, Hf, Hf1 by done. by rewrite lookup_insert_ne.
    - intros id [->|Hid]%elem_of_cons.
      + exists r, r'. rewrite (Hout name Hnin), Hf, Hf1, lookup_insert_eq. split_and!; [done|done|congruence|done|]. set_solver.
      + destruct (Hin' id Hid) as (r1 & r1' & H1 & ?). exists r1, r1'. rewrite Hf, Hf1, lookup_insert_ne in H1 by (intros <-; done). done. }
  destruct (Terminal (re_State (bd_Result r))) eqn:Ht.
  - intros Hl. apply (Hgo r s n); try done; [unfold restarted; by rewrite Ht|by rewrite insert_id].
  - destruct (save _ _ _ s) as [s1 [[]|]] eqn:Hs; [|done]. apply save_ok in Hs. subst s1. intros Hl.
    eapply (Hgo (set_bd_UpdatedAt (clk n) (set_bd_Result (restartDisposition (group (bd_ID r))) r))); [| | | | |exact Hl]; try done.
    + unfold restarted. by rewrite Ht.
    + simpl. unfold bd_ID in *. simpl. f_equal. done.
Qed.

Lemma New_ok clk w listed readable group trees files s :
  (∀ id f, files !! id = Some f → ∃ r, f = Recorded r ∧ bd_ID r = id) →
  New clk w listed readable group trees policy files = (s, Ok tt) →
  wk_running s = false ∧
  (∀ id, is_Some (wk_files s !! id) ↔ is_Some (files !! id)) ∧
  (∀ id r', wk_files s !! id = Some (Recorded r') → ∃ r, files !! id = Some (Recorded r) ∧ restarted group r r') ∧
  (∀ id, needs_recovery s id → id ∈ wk_recovery s).
Proof.
  intros Hkey. unfold New. destruct (verifySource _ _); [|done]. destruct (negb listed); [done|]. intros Hl.
  apply load_records_ok in Hl as (Hrun & Hout & Hin & _); [|unfold sort_files; rewrite sorting.merge_sort_Permutation; apply NoDup_elements|done].
  simpl in *. assert (∀ id, (∃ r r', files !! id = Some (Recorded r) ∧ wk_files s !! id = Some (Recorded r') ∧ restarted group r r' ∧
    (re_RecoveryRequired (bd_Result r') = true → id ∈ wk_recovery s)) ∨ (files !! id = None ∧ wk_files s !! id = None)) as Hall.
  { intros id. destruct (files !! id) as [f|] eqn:Hf.
    - left. destruct (Hin id) as (r & r' & ? & ? & _ & ? & ?); [by apply elem_of_sort_files, elem_of_elements, elem_of_dom|].
      exists r, r'. rewrite <- Hf. done.
    - right. split; [done|]. rewrite Hout; [done|]. intros Hid. apply elem_of_sort_files, elem_of_elements, elem_of_dom in Hid as [? ?]. congruence. }
  split_and!; [done| | |]; intros id; destruct (Hall id) as [(r & r' & Hr & Hr' & ? & ?)|[Hn Hn']].
  - rewrite Hr, Hr'. split; eauto.
  - rewrite Hn, Hn'. done.
  - intros r1 Hr1. rewrite Hr' in Hr1. injection Hr1 as <-. eauto.
  - intros r1 Hr1. congruence.
  - intros (r1 & Hr1 & ?). rewrite Hr' in Hr1. injection Hr1 as <-. auto.
  - intros (r1 & Hr1 & ?). congruence.
Qed.

(** ** Preservation *)

Lemma read_fresh l id : life_inv l → validID id = true → is_ok (read true id (lf_s l)) = false → wk_files (lf_s l) !! id = None.
Proof.
  intros Hi Hv. unfold read. rewrite Hv. simpl. destruct (wk_files (lf_s l) !! id) as [f|] eqn:Hf; [|done].
  by destruct (lv_key _ Hi _ _ Hf) as (r & -> & _).
Qed.

(** Writing the record of a key that may be written keeps the directory well formed. *)
Lemma recorded_key l r : life_inv l → validID (bd_ID r) = true →
  ∀ id f, wk_files (recorded r (lf_s l)) !! id = Some f → ∃ r', f = Recorded r' ∧ bd_ID r' = id ∧ validID id = true.
Proof.
  intros Hi Hv id f. simpl. intros [[<- <-]|[_ Hf]]%lookup_insert_Some; [by exists r|]. by apply (lv_key _ Hi).
Qed.

Lemma lookup_recorded r s k : is_Some (wk_files s !! k) → is_Some (wk_files (recorded r s) !! k).
Proof. intros. simpl. apply lookup_insert_is_Some. destruct (decide (bd_ID r = k)); auto. Qed.
Lemma once_kept l s up runs lost :
  (∀ id, builds_of id l + pending_of id (lf_runs l) ≤ records_of id (lf_s l) + misses_of id l)%nat →
  (∀ id, is_Some (wk_files (lf_s l) !! id) → is_Some (wk_files s !! id)) →
  (∀ id, pending_of id runs ≤ pending_of id (lf_runs l))%nat →
  ∀ id, (builds_of id (mkLife s up runs (lf_built l) (lost ++ lf_missed l)) + pending_of id runs ≤
    records_of id s + misses_of id (mkLife s up runs (lf_built l) (lost ++ lf_missed l)))%nat.
Proof.
  intros Hon Hs Hp id. pose proof (Hon id) as Ho. pose proof (records_mono id _ _ (Hs id)). specialize (Hp id).
  unfold builds_of, misses_of in *. cbn [lf_built lf_missed] in *. rewrite filter_app, length_app. lia.
Qed.
Lemma inv_request l ev method path body s resp started :
  life_inv l → lf_up l = true → Handler policy ev method path body (lf_s l) = (s, resp, started) →
  life_inv (mkLife s true (lf_runs l ++ match started with Some r => [(r, Starting)] | None => [] end) (lf_built l)
    (missed ev method path body (lf_s l) ++ lf_missed l)).
Proof.
  intros Hi Hup Hh. apply Handler_effect in Hh. destruct Hh as [|c|id record next now keep Hr Hn|req now Hv Hrun|req now sel Hv Hf Hrun Hrec He];
    rewrite ?app_nil_r; set (lost := missed ev method path body (lf_s l)) in *; clearbody lost.
  - destruct Hi. split; simpl; auto; [done|]. by apply once_kept.
  - destruct Hi. split; simpl; auto; [done|]. by apply once_kept.
  - apply read_ok in Hr as [Hv Hr]. destruct (lv_key _ Hi _ _ Hr) as (r0 & [= <-] & Hid & _).
    set (r' := set_bd_UpdatedAt now (set_bd_Result next record)).
    assert (∀ keep' : bool, wk_files (recorded r' (if keep' then lf_s l else set_wk_recovery (wk_recovery (lf_s l) ∖ {[bd_ID record]}) (lf_s l)))
      = <[id := Recorded r']> (wk_files (lf_s l))) as Hfiles.
    { intros keep'. destruct keep'; simpl; unfold r', bd_ID in *; simpl; by rewrite Hid. }
    destruct Hi as [Hk Hfe Hru Hrn Hdn Hrc Hnx Hbt Hon]. split; simpl; try done.
    + intros k f. specialize (Hfiles keep). simpl in Hfiles. rewrite Hfiles.
      intros [[<- <-]|[_ Hf]]%lookup_insert_Some; [by exists r'|by apply Hk].
    + intros _ k (r1 & Hr1 & Hreq). specialize (Hfiles keep). rewrite Hfiles in Hr1.
      apply lookup_insert_Some in Hr1 as [[_ [= <-]]|[Hne Hr1]]; [unfold r' in Hreq; simpl in Hreq; congruence|].
      pose proof (Hfe Hup k (ex_intro _ r1 (conj Hr1 Hreq))) as Hin. destruct keep; simpl; [done|]. set_solver.
    + intros _. rewrite <- Hrn by done. by destruct keep.
    + intros r ph Hin. destruct (Hrc r ph Hin) as (f & Hf & Hq & Hz & Hz'). specialize (Hfiles keep). simpl in Hfiles. rewrite Hfiles.
      destruct (decide (bd_ID r = id)) as [Heq|Hne]; [|rewrite lookup_insert_ne by done; eauto].
      rewrite Heq, lookup_insert_eq. exists r'. rewrite Heq, Hr in Hf. injection Hf as ->. done.
    + intros r sel Hin. destruct (Hbt r sel Hin) as [Hs ?]. split; [|done]. specialize (Hfiles keep). simpl in Hfiles. rewrite Hfiles.
      apply lookup_insert_is_Some. destruct (decide (id = bd_ID r)); auto.
    + apply once_kept; [done| |done]. intros k Hs. specialize (Hfiles keep). rewrite Hfiles. apply lookup_insert_is_Some. destruct (decide (id = k)); auto.
  - assert (lf_runs l = []) as Hnil.
    { pose proof (lv_running _ Hi Hup) as Hr'. rewrite Hrun in Hr'. symmetry in Hr'. by apply negb_false_iff, bool_decide_eq_true in Hr'. }
    set (q := set_bd_UpdatedAt now (queued_build req)).
    pose proof (recorded_key l q Hi Hv) as Hkey. destruct Hi as [Hk Hfe Hru Hrn Hdn Hrc Hnx Hbt Hon]. split; simpl; try done.
    + intros _ k (r1 & Hr1 & Hreq). simpl in Hr1. apply lookup_insert_Some in Hr1 as [[_ [= <-]]|[Hne Hr1]]; [done|]. apply Hfe; [done|by exists r1].
    + intros _. by apply Hrn.
    + rewrite Hnil. intros r ph Hin. by apply elem_of_nil in Hin.
    + intros r sel Hin. destruct (Hbt r sel Hin) as [Hs ?]. split; [|done]. apply lookup_insert_is_Some.
      destruct (decide (bd_ID q = bd_ID r)); auto.
    + apply once_kept; [done| |done]. intros k Hs. by apply lookup_recorded.
  - assert (is_Some (wk_files (lf_s l) !! wr_ID req) → lost = [wr_ID req]) as Hlost.
    { intros [f Hff]. destruct Hf as [Hf|Hf]; [|done]. apply (read_fresh _ _ Hi Hv) in Hf. congruence. }
    clear Hf. set (q := set_bd_UpdatedAt now (queued_build req)).
    pose proof (recorded_key l q Hi Hv) as Hkey. destruct Hi as [Hk Hfe Hru Hrn Hdn Hrc Hnx Hbt Hon].
    assert (lf_runs l = []) as Hnil.
    { pose proof (Hrn Hup) as Hr'. rewrite Hrun in Hr'. symmetry in Hr'. apply negb_false_iff, bool_decide_eq_true in Hr'. done. }
    rewrite Hnil in *. split; simpl; try done.
    + intros _ k (r1 & Hr1 & Hreq). simpl in Hr1. apply lookup_insert_Some in Hr1 as [[_ [= <-]]|[Hne Hr1]]; [done|]. apply Hfe; [done|by exists r1].
    + right. eauto.
    + intros r ph Hin. apply list_elem_of_singleton in Hin. injection Hin as -> ->. exists q. rewrite lookup_insert_eq. done.
    + intros r next Hin. apply list_elem_of_singleton in Hin. done.
    + intros r sel' Hin. destruct (Hbt r sel' Hin) as [Hs ?]. split; [|done]. apply lookup_insert_is_Some.
      destruct (decide (bd_ID q = bd_ID r)); auto.
    + intros k. specialize (Hon k). unfold builds_of, misses_of, pending_of, records_of in *. cbn [lf_built lf_missed waiting omap list_omap fst snd] in *.
      rewrite filter_app, length_app. cbn [wk_files recorded set_wk_running set_wk_cancel]. change (bd_ID (queued_build req)) with (wr_ID req). change (bd_ID q) with (wr_ID req).
      rewrite filter_cons, filter_nil. cbn [length] in *. destruct (decide (wr_ID req = k)) as [<-|Hj].
      * rewrite decide_True by (by rewrite lookup_insert_eq). cbn [length]. destruct (decide (is_Some _)) as [Hs|Hs]; [|lia].
        rewrite (Hlost Hs), filter_cons, decide_True by done. cbn [length]. lia.
      * rewrite lookup_insert_ne by done. cbn [length]. lia.
Qed.

Lemma single_run l before_ x after_ :
  life_inv l → lf_runs l = before_ ++ x :: after_ → before_ = [] ∧ after_ = [].
Proof.
  intros Hi Hr. destruct (lv_runs _ Hi) as [Hn|[y Hy]]; rewrite Hr in *; [by destruct before_|].
  destruct before_ as [|? []]; [|done..]. by injection Hy as _ ->.
Qed.

Lemma inv_start l before_ after_ now w r s r' next :
  life_inv l → lf_up l = true → lf_runs l = before_ ++ (r, Starting) :: after_ →
  run_start policy now w r (lf_s l) = (s, r', next) →
  life_inv (mkLife s true (before_ ++ (r', Building next) :: after_)
    (lf_built l ++ match next with Ok selected => [(r', selected)] | Err _ => [] end) (lf_missed l)).
Proof.
  intros Hi Hup Hr Hs. destruct (single_run _ _ _ _ Hi Hr) as [-> ->]. simpl in *.
  assert (r' = running_build r ∧ (s = recorded (set_bd_UpdatedAt now r') (lf_s l) ∨ s = lf_s l) ∧
    (∀ sel, next = Ok sel → executionPolicy policy (bd_Request r) = Ok sel)) as (-> & Hs' & Hnext).
  { unfold run_start in Hs. destruct (save _ _ _ _) as [s1 e] eqn:Hsv. apply save_spec in Hsv.
    destruct e as [[]|]; injection Hs as <- <- <-; split_and!; try done; destruct Hsv as [->|[? ->]]; auto. }
  set (r' := running_build r) in *. assert (bd_ID r' = bd_ID r ∧ bd_Request r' = bd_Request r) as [HID Hreq] by done.
  destruct (lv_record _ Hi r Starting) as (f & Hf & Hfq & Hfz & Hz); [rewrite Hr; constructor|].
  destruct (lv_key _ Hi _ _ Hf) as (f' & [= <-] & Hfid & Hv).
  assert (wk_running s = wk_running (lf_s l) ∧ wk_recovery s = wk_recovery (lf_s l) ∧
    (∃ g, wk_files s !! bd_ID r = Some (Recorded g) ∧ bd_Request g = bd_Request r ∧ re_RecoveryRequired (bd_Result g) = false) ∧
    (∀ k, k ≠ bd_ID r → wk_files s !! k = wk_files (lf_s l) !! k)) as (Hrun & Hrec & (g & Hg & Hgq & Hgz) & Hne).
  { destruct Hs' as [-> | ->]; split_and!; try done; eauto.
    - exists (set_bd_UpdatedAt now r'). split; [simpl; apply lookup_insert_eq|done].
    - intros k Hk. simpl. apply lookup_insert_ne. intros Heq. apply Hk. by rewrite <- Heq. }
  destruct Hi as [Hk Hfe Hru Hrn Hdn Hrc Hnx Hbt Hon].
  assert (∀ k, is_Some (wk_files (lf_s l) !! k) → is_Some (wk_files s !! k)) as Hsome.
  { intros k Hks. destruct (decide (k = bd_ID r)) as [->|Hkr]; [by rewrite Hg|by rewrite Hne]. }
  split; simpl; try done.
  - intros k q Hq. destruct (decide (k = bd_ID r)) as [->|Hkr]; [|rewrite Hne in Hq by done; by apply Hk].
    rewrite Hg in Hq. injection Hq as <-. exists g. split_and!; [done|unfold bd_ID; congruence|done].
  - intros _ k (r1 & Hr1 & Hreq1). rewrite Hrec. apply Hfe; [done|]. destruct (decide (k = bd_ID r)) as [->|Hkr]; [congruence|].
    rewrite Hne in Hr1 by done. by exists r1.
  - right. eauto.
  - intros _. rewrite Hrun, Hrn, Hr by done. done.
  - intros x ph Hin. apply list_elem_of_singleton in Hin. injection Hin as -> ->. exists g. done.
  - intros x nx Hin sel ->. apply list_elem_of_singleton in Hin. injection Hin as -> <-. apply elem_of_app. right. constructor.
  - intros x sel [Hin|Hin]%elem_of_app.
    + destruct (Hbt x sel Hin). auto.
    + destruct next as [sel'|]; [|by apply elem_of_nil in Hin]. apply list_elem_of_singleton in Hin. injection Hin as -> ->.
      split; [|by apply Hnext]. change (bd_ID r') with (bd_ID r). by rewrite Hg.
  - intros k. pose proof (records_mono k _ _ (Hsome k)). specialize (Hon k). rewrite Hr in Hon. unfold builds_of, misses_of, pending_of in *.
    cbn [lf_built lf_missed waiting omap list_omap fst snd length] in *. rewrite filter_app, length_app, filter_nil. rewrite filter_cons, filter_nil in Hon.
    destruct next as [sel|]; [rewrite filter_cons; cbn [fst]; change (bd_ID r') with (bd_ID r)|]; rewrite filter_nil; destruct (decide _); cbn [length] in *; lia.
Qed.

Lemma inv_finish l before_ after_ now w r next outcome expired :
  life_inv l → lf_up l = true → lf_runs l = before_ ++ (r, Building next) :: after_ →
  life_inv (mkLife (run_finish now w outcome expired r (lf_s l)) true (before_ ++ after_) (lf_built l) (lf_missed l)).
Proof.
  intros Hi Hup Hr. destruct (single_run _ _ _ _ Hi Hr) as [-> ->]. simpl in *.
  destruct (lv_record _ Hi r (Building next)) as (f & Hf & Hfq & Hfz & Hz); [rewrite Hr; constructor|].
  destruct (lv_key _ Hi _ _ Hf) as (f' & [= <-] & Hfid & Hv).
  set (s := run_finish now w outcome expired r (lf_s l)).
  set (r' := run_result outcome (default false (wk_cancel (lf_s l) !! bd_ID r)) expired r).
  assert (bd_Request r' = bd_Request r) as Hreq by (unfold r', run_result; destruct outcome; [done|]; by destruct (_ || _)).
  assert (wk_running s = false ∧ wk_recovery (lf_s l) ⊆ wk_recovery s ∧
    (re_RecoveryRequired (bd_Result r') = true → bd_ID r ∈ wk_recovery s) ∧
    (∃ g, wk_files s !! bd_ID r = Some (Recorded g) ∧ bd_Request g = bd_Request r ∧
      (re_RecoveryRequired (bd_Result g) = true → re_RecoveryRequired (bd_Result r') = true)) ∧
    (∀ k, k ≠ bd_ID r → wk_files s !! k = wk_files (lf_s l) !! k)) as (Hrun & Hrec & Hin' & (g & Hg & Hgq & Hgz) & Hne).
  { unfold s, run_finish. fold r'. assert (bd_ID r' = bd_ID r) as HID by (unfold bd_ID; congruence).
    assert (bd_ID (set_bd_UpdatedAt now r') = bd_ID r) as HID2 by exact HID.
    destruct (save now w r' (lf_s l)) as [s1 e] eqn:Hsv. apply save_spec in Hsv.
    assert (wk_recovery s1 = wk_recovery (lf_s l) ∧
      (∃ g, wk_files s1 !! bd_ID r = Some (Recorded g) ∧ bd_Request g = bd_Request r ∧
        (re_RecoveryRequired (bd_Result g) = true → re_RecoveryRequired (bd_Result r') = true)) ∧
      (∀ k, k ≠ bd_ID r → wk_files s1 !! k = wk_files (lf_s l) !! k)) as (Hrec & (g & Hg & Hgq & Hgz) & Hne).
    { destruct Hsv as [->|[_ ->]]; split_and!; try done.
      - exists (set_bd_UpdatedAt now r'). cbn [recorded wk_files]. rewrite HID2, lookup_insert_eq. done.
      - intros k Hk. cbn [recorded wk_files]. rewrite HID2. by apply lookup_insert_ne.
      - exists f. split_and!; [done|done|congruence]. }
    assert (∀ s2, wk_files s2 = wk_files s1 → wk_recovery s2 = wk_recovery (lf_s l) →
      let s3 := set_wk_running false (set_wk_cancel (delete (bd_ID r') (wk_cancel (remember_recovery r' s2))) (remember_recovery r' s2)) in
      wk_files s3 = wk_files s1 ∧ wk_recovery (lf_s l) ⊆ wk_recovery s3 ∧
      (re_RecoveryRequired (bd_Result r') = true → bd_ID r ∈ wk_recovery s3)) as Hlast.
    { intros s2 Hf2 Hr2. unfold remember_recovery. destruct (re_RecoveryRequired (bd_Result r')); cbn; rewrite ?HID, Hr2;
        (split_and!; [done|set_solver|set_solver]). }
    destruct e; [destruct (Hlast s1) as (Hf3 & ? & ?)|destruct (Hlast (set_wk_persistenceFailed true s1)) as (Hf3 & ? & ?)]; try done;
      (split_and!; [done|done|done|rewrite Hf3; by exists g|by rewrite Hf3]). }
  clearbody s. destruct Hi as [Hk Hfe Hru Hrn Hdn Hrc Hnx Hbt Hon]. split; simpl; try done.
  - intros k q Hq. destruct (decide (k = bd_ID r)) as [->|Hkr]; [|rewrite Hne in Hq by done; by apply Hk].
    rewrite Hg in Hq. injection Hq as <-. exists g. split_and!; [done|unfold bd_ID; congruence|done].
  - intros _ k (r1 & Hr1 & Hreq1). destruct (decide (k = bd_ID r)) as [->|Hkr].
    + rewrite Hg in Hr1. injection Hr1 as <-. auto.
    + rewrite Hne in Hr1 by done. apply Hrec, Hfe; [done|by exists r1].
  - by left.
  - intros x ph Hin. by apply elem_of_nil in Hin.
  - intros x nx Hin. by apply elem_of_nil in Hin.
  - intros x sel Hin. destruct (Hbt x sel Hin) as [Hs ?]. split; [|done].
    destruct (decide (bd_ID x = bd_ID r)) as [->|Hkr]; [by rewrite Hg|by rewrite Hne].
  - apply (once_kept l s true [] []); [done| |intros; unfold pending_of; cbn; lia].
    intros k Hs. destruct (decide (k = bd_ID r)) as [->|Hkr]; [by rewrite Hg|by rewrite Hne].
Qed.

Lemma remember_files r s : wk_files (remember_recovery r s) = wk_files s.
Proof. unfold remember_recovery. by destruct (re_RecoveryRequired _). Qed.

Lemma load_records_files clk w readable group l : ∀ n s s' e,
  (∀ id f, wk_files s !! id = Some f → ∃ r, f = Recorded r ∧ bd_ID r = id ∧ validID id = true) →
  load_records clk w readable group n l s = (s', e) →
  (∀ id f, wk_files s' !! id = Some f → ∃ r, f = Recorded r ∧ bd_ID r = id ∧ validID id = true) ∧
  (∀ id, is_Some (wk_files s !! id) → is_Some (wk_files s' !! id)).
Proof.
  induction l as [|name l IH]; intros n s s' e Hkey; simpl; [by intros [= <- <-]|].
  destruct (negb (readable name)); [by intros [= <- <-]|]. destruct (wk_files s !! name) as [[|r]|] eqn:Hr; [by intros [= <- <-]| |by intros [= <- <-]].
  destruct (Hkey _ _ Hr) as (r0 & [= <-] & HID & Hv). rewrite HID, Hv. simpl.
  destruct (Terminal _); [intros Hl; eapply IH in Hl; rewrite ?remember_files in *; [naive_solver|eauto]|].
  destruct (save _ _ _ s) as [s1 e1] eqn:Hs. apply save_spec in Hs.
  assert ((∀ id f, wk_files s1 !! id = Some f → ∃ r, f = Recorded r ∧ bd_ID r = id ∧ validID id = true) ∧
    (∀ id, is_Some (wk_files s !! id) → is_Some (wk_files s1 !! id))) as [Hk1 Hs1].
  { destruct Hs as [->|[_ ->]]; [|done]. split; [|intros; by apply lookup_recorded].
    intros id f. simpl. intros [[<- <-]|[_ ?]]%lookup_insert_Some; [|auto].
    eexists. split; [done|]. unfold bd_ID in *. simpl. by rewrite HID. }
  destruct e1 as [[]|]; [|by intros [= <- <-]]. intros Hl.
  eapply IH in Hl; rewrite ?remember_files in *; [naive_solver|eauto].
Qed.

Lemma inv_restart l clk w listed readable group trees s r :
  life_inv l → New clk w listed readable group trees policy (wk_files (lf_s l)) = (s, r) → life_inv (mkLife s (is_ok r) [] (lf_built l) (lf_missed l)).
Proof.
  intros Hi Hn. assert ((∀ id f, wk_files s !! id = Some f → ∃ r, f = Recorded r ∧ bd_ID r = id ∧ validID id = true) ∧
    (∀ id, is_Some (wk_files (lf_s l) !! id) → is_Some (wk_files s !! id))) as [Hk Hs].
  { unfold New in Hn. destruct (verifySource _ _); [|injection Hn as <- <-; split; [apply (lv_key _ Hi)|done]].
    destruct (negb listed); [injection Hn as <- <-; split; [apply (lv_key _ Hi)|done]|].
    exact (load_records_files clk w readable group _ 0 (mkService (wk_files (lf_s l)) false false ∅ ∅) s r (lv_key _ Hi) Hn). }
  assert (is_ok r = true → wk_running s = false ∧ ∀ id, needs_recovery s id → id ∈ wk_recovery s) as Hok.
  { intros Hr. destruct r as [[]|]; [|done]. apply New_ok in Hn as (? & _ & _ & ?); [done|].
    intros id f Hf. destruct (lv_key _ Hi _ _ Hf) as (q & ? & ? & _). eauto. }
  destruct Hi. split; simpl; try done.
  - intros Hr. by apply Hok.
  - by left.
  - intros Hr. by apply Hok.
  - intros x ph Hin. by apply elem_of_nil in Hin.
  - intros x nx Hin. by apply elem_of_nil in Hin.
  - intros x sel Hin. destruct (lv_built0 x sel Hin). auto.
  - apply (once_kept l s (is_ok r) [] []); [done..|intros; unfold pending_of; cbn; lia].
Qed.

Lemma life_reachable_inv l : life_reachable l → life_inv l.
Proof.
  apply (rtc_ind_r (λ l, life_inv l)).
  - split; simpl; try done; try (intros *; by rewrite ?lookup_empty, ?elem_of_nil).
    by left.
  - intros x y _ Hs Hi. destruct Hs; eauto using inv_request, inv_start, inv_finish, inv_restart.
Qed.

(** ** What callers rely on *)

(** C29: At any time at most one build is in flight, however requests, builds, crashes and
    restarts interleave; over all lives of the worker an operation is built at most once,
    and once more at most for each submission that could not read the record the operation
    already had (which the worker takes for an operation it does not know); and it is built
    only after its request was durably recorded, and only under the policy that
    [executionPolicy] derives from the installed ceilings. *)
Theorem builds_once (l : Life) :
  life_reachable l →
  (lf_runs l = [] ∨ ∃ x, lf_runs l = [x]) ∧
  (∀ id, (builds_of id l ≤ 1 + misses_of id l)%nat) ∧
  ∀ r sel, (r, sel) ∈ lf_built l → is_Some (wk_files (lf_s l) !! bd_ID r) ∧ executionPolicy policy (bd_Request r) = Ok sel.
Proof.
  intros Hi%life_reachable_inv. split_and!; [apply Hi| |apply Hi]. intros id. pose proof (lv_once _ Hi id).
  assert (records_of id (lf_s l) ≤ 1)%nat by (unfold records_of; destruct (decide _); lia). lia.
Qed.

(** The recovery fence: while the record of any operation asks for recovery, no request
    whatever starts a build; and the fence survives restarts, since it is rebuilt from the
    records. *)
Theorem recovery_fences_builds (l : Life) id ev method path body s resp started :
  life_reachable l → lf_up l = true → needs_recovery (lf_s l) id →
  Handler policy ev method path body (lf_s l) = (s, resp, started) → started = None.
Proof.
  intros Hi%life_reachable_inv Hup Hn Hh. apply (lv_fence _ Hi Hup) in Hn.
  apply Handler_effect in Hh. destruct Hh as [| | | |? ? ? ? ? ? Hrec]; [done..|]. rewrite Hrec in Hn. set_solver.
Qed.

(** A successful restart accounts for every record: nothing is lost or invented, the
    requests are the recorded ones, finished records are untouched, and an unfinished
    build is called failed only when its group was seen without a process, and asks for
    recovery otherwise. *)
Theorem restart_accounts (l : Life) clk w listed readable group trees s :
  life_reachable l → New clk w listed readable group trees policy (wk_files (lf_s l)) = (s, Ok tt) →
  (∀ id, is_Some (wk_files s !! id) ↔ is_Some (wk_files (lf_s l) !! id)) ∧
  ∀ id r', wk_files s !! id = Some (Recorded r') → ∃ r, wk_files (lf_s l) !! id = Some (Recorded r) ∧
    bd_Request r' = bd_Request r ∧ Terminal (re_State (bd_Result r')) = true ∧
    (Terminal (re_State (bd_Result r)) = true → r' = r) ∧
    (Terminal (re_State (bd_Result r)) = false →
      (re_RecoveryRequired (bd_Result r') = true ∧ id ∈ wk_recovery s) ∨
      (re_State (bd_Result r') = "failed" ∧ ∃ reads i text line, group id = GroupDirectory reads ∧ (i < 30)%nat ∧
         reads i = Some text ∧ line ∈ split_on newline text ∧ fields line = ["populated"; "0"])).
Proof.
  intros Hi%life_reachable_inv Hn. apply New_ok in Hn as (_ & Hdom & Hres & Hrec).
  2:{ intros id f Hf. destruct (lv_key _ Hi _ _ Hf) as (q & ? & ? & _). eauto. }
  split; [done|]. intros id r' Hr'. destruct (Hres id r' Hr') as (r & Hr & Hreq & Hst). exists r.
  destruct (lv_key _ Hi _ _ Hr) as (? & [= <-] & Hid & _). rewrite Hid in Hst.
  destruct (Terminal (re_State (bd_Result r))) eqn:Ht.
  - subst r'. by split_and!.
  - rewrite Hst. split_and!; [done|done|apply restartDisposition_terminal|done|]. intros _.
    destruct (re_RecoveryRequired (restartDisposition (group id))) eqn:Hq.
    + left. split; [done|]. apply Hrec. exists r'. by rewrite Hst.
    + right. by apply restartDisposition_evidence.
Qed.

(** Submission is idempotent: once an operation is recorded, and its record is read, repeating its request
    changes nothing and starts nothing; it returns the recorded result when the payload is
    the recorded one and is a conflict otherwise. *)
Theorem execute_idempotent ev req s old :
  he_peer ev = Some (wp_APIUID policy) → he_readable ev = true → validID (wr_ID req) = true → wr_Hash req = RequestHash req →
  known_recipe (wr_Recipe req) = true → wr_Actor req ≠ "" → wk_files s !! wr_ID req = Some (Recorded old) →
  Handler policy ev "POST" "/execute" (Some req) s =
    (s, if wr_Hash (bd_Request old) =s RequestHash req then Reply 200 (bd_Result old) else HTTPError 409 "operation payload conflict", None).
Proof.
  intros Hp Hread Hv Hh Hk Ha Hf. unfold Handler. rewrite Hp, Z.eqb_refl. cbn [negb andb orb String.eqb Ascii.eqb Bool.eqb].
  change (has_prefix "/execute" "/operations/") with false. change (has_prefix "/execute" "/cancel/") with false. cbn [andb].
  unfold handle_execute. rewrite Hv, Hk, (neqb_str _ _ Ha), Hh, eqb_str_refl. cbn [negb orb].
  unfold read. rewrite Hread, Hv, Hf. cbn [negb]. by destruct (_ =s RequestHash req).
Qed.

End Life.

(** ** A worker on a concrete machine *)

Module WorkerFixture.
#[local] Existing Instance render_hash.
Import CgroupTable.

Definition sha : string := String.concat "" (replicate 64 "a").
Definition tools : gmap string string :=
  list_to_map ((λ n, (n, sha)) <$> ["cmake"; "ninja"; "ccache"; "cc"; "c++"; "bwrap"; "glslc"]).
Definition policy : Policy :=
  mkPolicy 1 990 991 "/run/w.sock" "/var/lib/w" "/sys/worker" "/scratch" "/cache" "/run/workstation/build-inhibit"
    "/src" "/src.json" sha SourceCommit "" "gfx1201" "/hw.json" tools "" "" "" 8 32768 50 100 65536 60.
Definition budgets : CacheBudgets := mkCacheBudgets 0 50 0 4 16384 20.
Definition req (id : string) : Request :=
  let r := mkRequest id "owner" "llama-vulkan" "" budgets sha in set_wr_Hash (RequestHash r) r.
Definition selected : Policy := set_budgets 4 16384 20 50 policy.
Definition tree : SourceTree :=
  mkSourceTree true (Some sha) (Some {["main.c" := sha]}) true
    [Some (mkTreeEntry "." false true true None); Some (mkTreeEntry "main.c" false true false (Some sha))].
Definition trees (root manifest : string) : SourceTree := tree.
Definition ev (group : GroupStat) : HandlerEnv :=
  mkHandlerEnv (Some 991) false true (Some 0) trees (λ _, group) 5 Written.
Definition meminfo : string := "MemTotal: 131072000 kB
MemAvailable: 67108864 kB
".
Definition inputs : BuildInputs :=
  mkBuildInputs true (Some (mkEvidence "observed" 0 "gfx1201" [("0000:03:00.0", "amdgpu"); ("0000:04:00.0", "amdgpu")]))
    true (Some "boot") (Some "boot") (λ n, tools !! n).
(** A base image of the marker, the index and the reviewed manifest. *)
Definition base : list (option TarEntry) := [
  Some (mkTarEntry "oci-layout" false true 30 None None None);
  Some (mkTarEntry "./index.json" false true 300 None (Some ["sha256:" +:+ sha]) None);
  Some (mkTarEntry ("blobs/sha256/" +:+ sha) false true 500 (Some sha) None None)].
(** The contained build; [events] is what the group's [cgroup.events] reads. *)
Definition env (events : nat → option string) : ContainEnv table :=
  mkContainEnv table 990 42 5 (λ _, true) (λ _, false) trees inputs (Some meminfo) (Some (mkStatfs 1000 4096)) (Some (mkStatfs 2000 4096))
    true true delegated true true true (mkSunshineInputs None None true true) (λ _, true) (λ _, events)
    (λ n, Some (sha, 10)) (Some (sha, 20)).
Definition busy (i : nat) : option string := Some "populated 1
".

(** A build is accepted, started and ends with a group that stays populated. *)
Definition started_ := New (λ _, 1) (λ _, Written) true (λ _, true) (λ _, GroupAbsent) trees policy ∅.
Definition l0 : Life := mkLife (mkService ∅ false false ∅ ∅) true [] [] [].
Definition submitted := Handler policy (ev GroupAbsent) "POST" "/execute" (Some (req "build-0001")) (lf_s l0).
Definition build : Build := queued_build (req "build-0001").
Definition l1 : Life := mkLife submitted.1.1 true [(build, Starting)] [] [].
Definition running := run_start policy 6 Written build (lf_s l1).
Definition building : Build := running_build build.
Definition l2 : Life := mkLife running.1.1 true [(building, Building (Ok selected))] [(building, selected)] [].
Definition ended : Life :=
  mkLife (run_finish 7 Written (runContained (env busy) selected (req "build-0001")) false building (lf_s l2)) true [] [(building, selected)] [].
(** The worker stops in the middle of the build, and the group is found empty. *)
Definition restarted_ := New (λ _, 9) (λ _, Written) true (λ _, true) (λ _, GroupDirectory drained) trees policy (wk_files (lf_s l2)).

Definition reachable_l0 : life_reachable (FS := table) policy l0.
Proof. apply rtc_once. exact (l_restart policy life_initial (λ _, 1) (λ _, Written) true (λ _, true) (λ _, GroupAbsent) trees _ (Ok tt) eq_refl). Defined.

Lemma submitted_eq : submitted = (submitted.1.1, Reply 202 (bd_Result build), Some build).
Proof. vm_compute. reflexivity. Qed.
Lemma running_eq : running = (running.1.1, building, Ok selected).
Proof. vm_compute. reflexivity. Qed.

Lemma reachable_l1 : life_reachable (FS := table) policy l1.
Proof. eapply rtc_r; [exact reachable_l0|]. exact (l_request policy l0 (ev GroupAbsent) "POST" "/execute" (Some (req "build-0001")) _ _ (Some build) eq_refl submitted_eq). Qed.
Lemma reachable_l2 : life_reachable (FS := table) policy l2.
Proof. eapply rtc_r; [exact reachable_l1|]. exact (l_start policy l1 [] [] 6 Written build _ building (Ok selected) eq_refl eq_refl running_eq). Qed.
Lemma reachable_ended : life_reachable (FS := table) policy ended.
Proof.
  eapply rtc_r; [exact reachable_l2|].
  exact (l_finish policy l2 [] [] 7 Written building (Ok selected) _ false eq_refl eq_refl (ex_intro _ (env busy) eq_refl)).
Qed.
(** A build that succeeded is submitted again, and its record cannot be read. *)
Definition completed : Life :=
  mkLife (run_finish 7 Written (runContained (env drained) selected (req "build-0001")) false building (lf_s l2)) true [] [(building, selected)] [].
Definition unreadable : HandlerEnv := mkHandlerEnv (Some 991) false false (Some 0) trees (λ _, GroupAbsent) 8 Written.
Definition resubmitted := Handler policy unreadable "POST" "/execute" (Some (req "build-0001")) (lf_s completed).
Definition l3 : Life := mkLife resubmitted.1.1 true [(build, Starting)] [(building, selected)] ["build-0001"].
Definition rerunning := run_start policy 9 Written build (lf_s l3).
Definition rebuilt : Life := mkLife rerunning.1.1 true [(building, Building (Ok selected))] [(building, selected); (building, selected)] ["build-0001"].
Lemma resubmitted_eq : resubmitted = (resubmitted.1.1, Reply 202 (bd_Result build), Some build).
Proof. vm_compute. reflexivity. Qed.
Lemma rerunning_eq : rerunning = (rerunning.1.1, building, Ok selected).
Proof. vm_compute. reflexivity. Qed.
Lemma missed_eq : missed unreadable "POST" "/execute" (Some (req "build-0001")) (lf_s completed) = ["build-0001"].
Proof. vm_compute. reflexivity. Qed.
Lemma reachable_succeeded : life_reachable (FS := table) policy completed.
Proof.
  eapply rtc_r; [exact reachable_l2|].
  exact (l_finish policy l2 [] [] 7 Written building (Ok selected) _ false eq_refl eq_refl (ex_intro _ (env drained) eq_refl)).
Qed.
Lemma reachable_rebuilt : life_reachable (FS := table) policy rebuilt.
Proof.
  eapply rtc_r; [eapply rtc_r; [exact reachable_succeeded|]|].
  - pose proof (l_request (FS := table) policy completed unreadable "POST" "/execute" (Some (req "build-0001")) _ _ (Some build) eq_refl resubmitted_eq) as Hs.
    rewrite missed_eq in Hs. exact Hs.
  - exact (l_start policy l3 [] [] 9 Written build _ building (Ok selected) eq_refl eq_refl rerunning_eq).
Qed.
End WorkerFixture.

#[local] Existing Instance render_hash.
Import CgroupTable WorkerFixture.

Lemma contained_resources_fit_witness :
  job_resources (Some meminfo) (Some (mkStatfs 1000 4096)) (Some (mkStatfs 2000 4096)) selected =
    Ok (set_budgets 2 16384 20 50 policy) ∧
  4096 * wp_Jobs (set_budgets 2 16384 20 50 policy) + 8192 ≤ 16384.
Proof.
  assert (job_resources (Some meminfo) (Some (mkStatfs 1000 4096)) (Some (mkStatfs 2000 4096)) selected =
    Ok (set_budgets 2 16384 20 50 policy)) as Hj by (vm_compute; reflexivity).
  split; [exact Hj|].
  destruct (contained_resources_fit 990 policy policy (req "build-0001") selected meminfo _ _ _
    ltac:(vm_compute; reflexivity) ltac:(vm_compute; reflexivity) ltac:(vm_compute; reflexivity) ltac:(vm_compute; reflexivity) Hj)
    as (_ & _ & _ & _ & _ & Hm & _). exact Hm.
Defined.

Lemma verifySource_exact_witness :
  verifySource trees policy = Ok tt ∧
  ∃ e, e ∈ tree_files (tr_Entries tree) ∧ te_Path e = "main.c" ∧ te_Digest e = Some sha.
Proof.
  assert (verifySource trees policy = Ok tt) as Hv by (vm_compute; reflexivity). split; [exact Hv|].
  destruct (verifySource_exact trees policy Hv) as (_ & files & Hf & _ & Hall).
  - apply (bool_decide_unpack _). vm_compute. exact I.
  - apply Hall. injection Hf as <-. vm_compute. reflexivity.
Defined.

Lemma verifyOCIArchive_exact_witness :
  verifyOCIArchive base sha = Ok tt ∧ NoDup (entry_name <$> regular_entries base).
Proof.
  assert (verifyOCIArchive base sha = Ok tt) as Hv by (vm_compute; reflexivity).
  split; [exact Hv|]. exact (proj1 (proj2 (verifyOCIArchive_exact _ _ Hv))).
Defined.

Lemma runContained_success_witness :
  ∃ v, runContained (env CgroupTable.drained) selected (req "build-0001") = Ok v ∧ re_State v = "succeeded" ∧
    seen_empty (env CgroupTable.drained) 2.
Proof.
  destruct (runContained (env CgroupTable.drained) selected (req "build-0001")) as [v|e] eqn:Hr;
    [|exfalso; apply (f_equal is_ok) in Hr; vm_compute in Hr; discriminate].
  exists v. split; [reflexivity|].
  assert (re_RecoveryRequired v = false) as Hrr.
  { apply (f_equal (λ r, match r with Ok v => re_RecoveryRequired v | Err _ => true end)) in Hr.
    rewrite <- Hr. vm_compute. reflexivity. }
  destruct (runContained_success _ _ _ _ Hr) as [[_ Hrec]|(Hs & _ & _ & _ & _ & _ & final & fs & group & commands & _ & _ & Hc & _ & Hseen & _)];
    [rewrite Hrr in Hrec; discriminate|].
  split; [exact Hs|]. assert (length commands = 2%nat) as Hlen.
  { unfold recipe_commands in Hc. simpl in Hc. injection Hc as <-. reflexivity. }
  rewrite <- Hlen. exact Hseen.
Defined.

Lemma builds_once_witness :
  (builds_of "build-0001" ended ≤ 1)%nat ∧ lf_built ended = [(building, selected)].
Proof. split; [exact (proj1 (proj2 (builds_once policy ended reachable_ended)) "build-0001")|reflexivity]. Defined.

(** An operation whose build succeeded is built a second time when its record cannot be read
    at its next submission. *)
Example unreadable_record_rebuilds :
  life_reachable (FS := table) policy completed ∧
  (∃ r, wk_files (lf_s completed) !! "build-0001" = Some (Recorded r) ∧ re_State (bd_Result r) = "succeeded") ∧
  rtc (life_step (FS := table) policy) life_initial rebuilt ∧ builds_of "build-0001" rebuilt = 2%nat ∧ misses_of "build-0001" rebuilt = 1%nat.
Proof.
  split_and!; [exact reachable_succeeded| |exact reachable_rebuilt|vm_compute; reflexivity..].
  eexists. split; vm_compute; reflexivity.
Qed.

Lemma recovery_fences_builds_witness :
  needs_recovery (lf_s ended) "build-0001" ∧
  (Handler policy (ev GroupAbsent) "POST" "/execute" (Some (req "build-0002")) (lf_s ended)).2 = None.
Proof.
  assert (needs_recovery (lf_s ended) "build-0001") as Hn
    by (eexists; split; vm_compute; reflexivity).
  split; [exact Hn|].
  exact (recovery_fences_builds policy ended "build-0001" (ev GroupAbsent) "POST" "/execute" (Some (req "build-0002")) _ _ _
    reachable_ended eq_refl Hn (surjective_pairing2 _)).
Defined.

Lemma restart_accounts_witness :
  restarted_ = (restarted_.1, Ok tt) ∧
  ∃ r', wk_files restarted_.1 !! "build-0001" = Some (Recorded r') ∧ re_State (bd_Result r') = "failed" ∧
    re_RecoveryRequired (bd_Result r') = false ∧ Terminal (re_State (bd_Result r')) = true.
Proof.
  assert (restarted_ = (restarted_.1, Ok tt)) as Hn by (vm_compute; reflexivity). split; [exact Hn|].
  assert (∃ r', wk_files restarted_.1 !! "build-0001" = Some (Recorded r') ∧ re_State (bd_Result r') = "failed" ∧
    re_RecoveryRequired (bd_Result r') = false) as (r' & Hr' & Hs & Hrr) by (eexists; split_and!; vm_compute; reflexivity).
  exists r'. destruct (restart_accounts policy l2 (λ _, 9) (λ _, Written) true (λ _, true) (λ _, GroupDirectory CgroupTable.drained) trees _ reachable_l2 Hn)
    as [_ Hall]. destruct (Hall _ _ Hr') as (_ & _ & _ & Ht & _). exact (conj Hr' (conj Hs (conj Hrr Ht))).
Defined.

Lemma execute_idempotent_witness :
  ∃ old, wk_files (lf_s ended) !! "build-0001" = Some (Recorded old) ∧
    Handler policy (ev GroupAbsent) "POST" "/execute" (Some (req "build-0001")) (lf_s ended) = (lf_s ended, Reply 200 (bd_Result old), None).
Proof.
  assert (∃ old, wk_files (lf_s ended) !! "build-0001" = Some (Recorded old) ∧
    (wr_Hash (bd_Request old) =s RequestHash (req "build-0001")) = true) as (old & Hf & Hh) by (eexists; split; vm_compute; reflexivity).
  exists old. split; [exact Hf|].
  rewrite (execute_idempotent policy (ev GroupAbsent) (req "build-0001") (lf_s ended) old eq_refl eq_refl);
    [rewrite Hh; reflexivity|vm_compute; reflexivity..|discriminate|exact Hf].
Defined.
