(* ===== verification/Client.v ===== *)
(** The two Unix-socket services as the controller reaches them: the clients of the root
    helper ([internal/hostexec/protocol.go]) and of the build worker ([internal/worker/worker.go]),
    and the helper's request handler ([internal/hostexec/server.go]) over its executor.

    What the transport delivered is an argument: a service may be down, may answer text that
    does not decode, or may answer a status with a result. *)
From S2P Require Import Prelude Json Types Domain Store Source Cgroup Worker HostPolicy HostExec.
#[local] Open Scope Z_scope.


(** ** The client of the root helper *)

(** What one exchange delivered: the request could not be built, no answer, an answer that
    does not decode (fields decoded before the fault stay set), or a decoded answer. *)
Inductive HostAnswer :=
| HostUnsent (e : error)
| HostDown
| HostGarbled (partial : HostResult)
| HostAnswered (code : Z) (r : HostResult).

Definition host_call (socket : string) (a : HostAnswer) : HostResult * option error :=
  if socket =s "" then (HostResult0, Some (Plain "host executor socket is not configured")) else
  match a with
  | HostUnsent e => (HostResult0, Some e)
  | HostDown => (HostResult0, Some (Plain "host executor is unavailable; inspect its local service and recovery journal"))
  | HostGarbled partial => (partial, Some (Plain "invalid host executor response"))
  | HostAnswered code r =>
    if code >=? 400 then (r, Some (Plain ("host executor: " +:+ hs_Message r))) else (r, None)
  end.

(** [Client.Execute]. *)
Definition host_Execute (socket : string) (a : HostAnswer) : HostResult * option error := host_call socket a.
(** [Client.Status]. *)
Definition host_Status (socket id : string) (a : HostAnswer) : HostResult * option error :=
  if negb (validID id) then (HostResult0, Some (Plain "invalid operation ID")) else host_call socket a.

(** The typed answers carried in [Data]: the previews and artifacts are decoded strictly, the
    inventory is not; [decode] is that decoding. *)
Definition host_data {A} (decode : option string → result A) (socket : string) (a : HostAnswer) : result A :=
  match host_call socket a with (_, Some e) => Err e | (r, None) => decode (hs_Data r) end.
Definition host_Snapshot (decode : option string → option Inventory) : string → HostAnswer → result Inventory :=
  host_data (λ data, match decode data with Some v => Ok v | None => Err (Plain "invalid host inventory response") end).

(** ** The handler of the root helper *)

(** One request: the peer's user, the header and the path; the bodies as far as they decode
    strictly. *)
Record HostHttp := mkHostHttp {
  hq_UID : option Z;
  hq_Host : string;
  hq_Method : string;
  hq_Path : string;
  hq_Request : option Request;
  hq_Artifact : option (string * string) }.

(** What the executor's own calls answer during the request; texts are marshalled answers. *)
Record ServeEnv := mkServeEnv {
  sv_Submit : SubmitEnv;
  sv_PerformancePreview : Draft → Configuration → result string;
  sv_PerformanceArtifact : string → string → result string;
  sv_MemoryPreview : Draft → Configuration → result string;
  sv_MemoryArtifact : string → string → result string;
  sv_Snapshot : result string }.

(** The closure [fail]: every refusal is a result in state failed. *)
Definition failure_body (message : string) : HostResult := mkHostResult "" "failed" "" message None.
Definition refuse_with (code : Z) (message : string) : Z * HostResult := (code, failure_body message).
Definition data_body (code : Z) (r : result string) : Z * HostResult :=
  match r with
  | Err e => refuse_with code (error_text e)
  | Ok data => (200, mkHostResult "" "succeeded" "" "" (Some data))
  end.

Section Serve.
Context `{Sha256} (policy : Policy).

Definition serve_operation (ev : SubmitEnv) (uid : Z) (body : option Request) (x : Executor)
    : Executor * (Z * HostResult) * option record :=
  match body with
  | None => (x, refuse_with 400 "invalid typed helper request", None)
  | Some request =>
    match Submit policy ev uid request x with
    | (x, Err e, started) => (x, refuse_with 409 (error_text e), started)
    | (x, Ok r, started) => (x, (202, r), started)
    end
  end.
Definition serve_status (id : string) (x : Executor) : Z * HostResult :=
  if negb (validID id) then refuse_with 400 "invalid operation ID" else
  match Status x id with
  | Err e => refuse_with 404 (error_text e)
  | Ok r => (200, r)
  end.

(** The handler of [Serve]. *)
Definition host_Serve (ev : ServeEnv) (q : HostHttp) (x : Executor) : Executor * (Z * HostResult) * option record :=
  match hq_UID q with
  | None => (x, refuse_with 403 "Unix peer is not authorized", None)
  | Some uid =>
    if negb (uid =? po_AllowedUID policy) then (x, refuse_with 403 "Unix peer is not authorized", None) else
    if hq_Host q <>s "host-executor" then (x, refuse_with 400 "invalid host executor Host", None) else
    let post := hq_Method q =s "POST" in let get := hq_Method q =s "GET" in let path := hq_Path q in
    if post && (path =s "/v1/performance/preview") then
      (x, match hq_Request q with
          | None => refuse_with 400 "invalid performance request"
          | Some r => data_body 409 (sv_PerformancePreview ev (rq_Draft r) (rq_Desired r))
          end, None)
    else if post && (path =s "/v1/performance/artifact") then
      (x, match hq_Artifact q with
          | None => refuse_with 400 "invalid performance artifact request"
          | Some (id, name) => data_body 409 (sv_PerformanceArtifact ev id name)
          end, None)
    else if post && (path =s "/v1/memory/preview") then
      (x, match hq_Request q with
          | None => refuse_with 400 "invalid memory request"
          | Some r => data_body 409 (sv_MemoryPreview ev (rq_Draft r) (rq_Desired r))
          end, None)
    else if post && (path =s "/v1/memory/artifact") then
      (x, match hq_Artifact q with
          | None => refuse_with 400 "invalid memory artifact request"
          | Some (id, name) => data_body 409 (sv_MemoryArtifact ev id name)
          end, None)
    else if get && (path =s "/v1/inventory") then (x, data_body 503 (sv_Snapshot ev), None)
    else if post && (path =s "/v1/operations") then serve_operation (sv_Submit ev) uid (hq_Request q) x
    else if get && has_prefix path "/v1/operations/" then
      (x, serve_status (trim_prefix path "/v1/operations/") x, None)
    else (x, refuse_with 404 "fixed executor operation not found", None)
  end.

(** The two exchanges an operation needs, when the transport delivers. *)
Definition execute_request (uid : Z) (r : Request) : HostHttp :=
  mkHostHttp (Some uid) "host-executor" "POST" "/v1/operations" (Some r) None.
Definition status_request (uid : Z) (id : string) : HostHttp :=
  mkHostHttp (Some uid) "host-executor" "GET" ("/v1/operations/" +:+ id) None None.
Definition answered (a : Z * HostResult) : HostAnswer := HostAnswered a.1 a.2.
End Serve.

(** ** The client of the build worker *)

(** [WorkerAnswered] carries what the body decodes to, and the error of decoding it. *)
Inductive WorkerAnswer :=
| WorkerUnsent (e : error)
| WorkerDown
| WorkerAnswered (code : Z) (r : Result) (fault : option error).

Definition worker_call (path : string) (a : WorkerAnswer) : Result * option error :=
  match a with
  | WorkerUnsent e => (Result0, Some e)
  | WorkerDown => (Result0, Some (Plain "dedicated build worker unavailable"))
  | WorkerAnswered code r fault =>
    if negb (code =? 200) && negb (code =? 202) then
      let message := "build worker refused request (HTTP " +:+ pretty.pretty code +:+ ")" in
      ((if (path =s "/execute") || (path =s "/validate") then mkResult "failed" "executor-refused" message false [] else Result0),
       Some (Plain message))
    else if (path <>s "") && has_prefix path "/cancel/" then (mkResult "cancel-requested" "" "" false [], None)
    else (r, fault)
  end.

Definition worker_Execute : WorkerAnswer → Result * option error := worker_call "/execute".
Definition worker_Validate (a : WorkerAnswer) : option error := (worker_call "/validate" a).2.
Definition worker_Status (id : string) (a : WorkerAnswer) : Result * option error :=
  if negb (Cgroup.validID id) then (Result0, Some (Plain "invalid operation ID")) else worker_call ("/operations/" +:+ id) a.
Definition worker_Cancel (id : string) (a : WorkerAnswer) : option error :=
  if negb (Cgroup.validID id) then Some (Plain "invalid operation ID") else (worker_call ("/cancel/" +:+ id) a).2.
(** [Client.Recipes]. *)
Definition worker_Recipes (a : option (Z * (list Recipe * option error))) : result (list Recipe) :=
  match a with
  | None => Err (Plain "dedicated worker unavailable")
  | Some (code, (recipes, fault)) =>
    if negb (code =? 200) then Err (Plain "dedicated worker refused inventory")
    else match fault with Some e => Err e | None => Ok recipes end
  end.
Section WorkerHash.
Context `{Sha256}.
(** The request as sent: [r.Hash = RequestHash(r)]. *)
Definition hashed (r : Worker.Request) : Worker.Request := Worker.set_wr_Hash (Worker.RequestHash r) r.
End WorkerHash.

(** ** Facts *)

Lemma host_call_error socket a r e : host_call socket a = (r, Some e) →
  r = HostResult0 ∨ (∃ p, a = HostGarbled p ∧ r = p) ∨ ∃ code, a = HostAnswered code r ∧ 400 ≤ code.
Proof.
  unfold host_call. destruct (socket =s ""); [intros [= <- _]; auto|].
  destruct a as [e'| |p|code r']; [intros [= <- _]; auto|intros [= <- _]; auto|intros [= <- _]; eauto|].
  destruct (code >=? 400) eqn:Hc; [|done]. intros [= <- _]. right; right. exists code. split; [done|]. bool_hyps. lia.
Qed.

(** A refusal of the helper, whatever it refuses, reads as a result in state failed. *)
Lemma refuse_with_failed socket code message : socket ≠ "" → 400 ≤ code →
  host_call socket (answered (refuse_with code message)) = (failure_body message, Some (Plain ("host executor: " +:+ message))).
Proof.
  intros Hs Hc. unfold host_call. rewrite (neqb_str _ _ Hs). cbn [answered refuse_with fst snd].
  replace (code >=? 400) with true by (symmetry; rewrite Z.geb_leb; lia). done.
Qed.

Section Exchange.
Context `{Sha256} (policy : Policy).

(** An exchange that starts nothing leaves the executor as it was. *)
Lemma host_Serve_effect ev q x x' a started :
  host_Serve policy ev q x = (x', a, started) →
  x' = x ∧ started = None ∨
  ∃ uid r, hq_UID q = Some uid ∧ uid = po_AllowedUID policy ∧ hq_Request q = Some r ∧ hq_Method q = "POST" ∧ hq_Path q = "/v1/operations" ∧
    x' = (Submit policy (sv_Submit ev) uid r x).1.1 ∧ started = (Submit policy (sv_Submit ev) uid r x).2.
Proof.
  unfold host_Serve. destruct (hq_UID q) as [uid|]; [|intros [= <- _ <-]; auto].
  destruct (Z.eqb_spec uid (po_AllowedUID policy)) as [Hu|]; cbn [negb]; [|intros [= <- _ <-]; auto].
  destruct (negb (hq_Host q =s "host-executor")); [intros [= <- _ <-]; auto|].
  do 5 (match goal with |- (if ?c then _ else _) = _ → _ => destruct c; [intros [= <- _ <-]; auto|] end).
  destruct ((hq_Method q =s "POST") && (hq_Path q =s "/v1/operations")) eqn:Hp.
  - bool_hyps. unfold serve_operation. destruct (hq_Request q) as [r|]; [|intros [= <- _ <-]; auto].
    intros Hs. right. exists uid, r.
    destruct (Submit policy (sv_Submit ev) uid r x) as [[x1 [v|e]] st] eqn:E; cbn; injection Hs as <- _ <-; rewrite ?E; done.
  - match goal with |- (if ?c then _ else _) = _ → _ => destruct c end; intros Hs; injection Hs; intros; subst; left; done.
Qed.

Lemma trim_status id : trim_prefix ("/v1/operations/" +:+ id) "/v1/operations/" = id.
Proof.
  unfold trim_prefix. assert (has_prefix ("/v1/operations/" +:+ id) "/v1/operations/" = true) as ->.
  { unfold has_prefix. cbn. by destruct id. }
  change (String.length ("/v1/operations/" +:+ id)) with (15 + String.length id)%nat.
  change (String.length "/v1/operations/") with 15%nat. replace (15 + String.length id - 15)%nat with (String.length id) by lia.
  cbn [String.append String.substring]. induction id as [|c id IH]; [done|]. simpl in *. by f_equal.
Qed.

(** Asking for an operation answers its journal entry and changes nothing. *)
Lemma status_exchange ev id x : validID id = true →
  host_Serve policy ev (status_request (po_AllowedUID policy) id) x = (x, serve_status id x, None).
Proof.
  intros Hv. unfold host_Serve, status_request. cbn [hq_UID hq_Host hq_Method hq_Path]. rewrite Z.eqb_refl. cbn [negb String.eqb Ascii.eqb Bool.eqb andb].
  rewrite trim_status. assert (has_prefix ("/v1/operations/" +:+ id) "/v1/operations/" = true) as ->; [|done].
  unfold has_prefix. cbn. by destruct id.
Qed.
End Exchange.
