(* ===== verification/Live.v ===== *)
(** The live adapter ([internal/adapters/adapter.go], [memory.go], [performance.go]): how an
    accepted operation reaches the root helper, the build worker or the model stager, the
    dispatch record that makes it happen once, and the inspection that recovery rests on.

    A node of a method's tree is one call to another component, one section under the
    adapter's lock or one reading of the dispatch directory.  [begin_dispatch], [conclude] and [release] say what
    the locked sections do to the adapter's state; every other answer is the environment's. *)
From S2P Require Import Prelude Interact Json Types Catalog Config Wire Evidence Domain Source Engine Cgroup Worker HostPolicy HostExec MemoryBundle PerfBundle Client.
#[local] Open Scope Z_scope.

(** ** The dispatch record *)

Record dispatch := mkDispatch {
  dp_Kind : string;
  dp_Hash : string;
  dp_Result : Result;
  dp_Action : string;
  dp_SourceRevision : string }.
Definition set_dp_Result (v : Result) (r : dispatch) : dispatch :=
  mkDispatch (dp_Kind r) (dp_Hash r) v (dp_Action r) (dp_SourceRevision r).

(** A file of the dispatch directory: present but unreadable, not a record, or a record. *)
Inductive DispatchFile := Unread | Corrupt | Dispatched (r : dispatch).

Definition executionKind (action : string) : string :=
  if (action =s "model.stage") || (action =s "model.verify") || (action =s "caches.configure") then "local"
  else if action =s "build.start" then "worker" else "host".

(** [domain.Hash] of an execution. *)
Definition Execution_json (x : Execution) : JSON :=
  JObject [("id", JString (ex_ID x)); ("actor", JString (ex_Actor x)); ("plan", Plan_json (ex_Plan x))].
Definition ex_Action (x : Execution) : string := d_Action (pl_Draft (ex_Plan x)).
Definition ex_Revision (x : Execution) : string := cf_Revision (pl_Desired (ex_Plan x)).
(** A missing key of a map, or of a nil map, reads as the empty string. *)
Definition precondition (x : Execution) (k : string) : string :=
  default "" (pv_Preconditions (pl_Preview (ex_Plan x)) ≫= λ m, m !! k).

(** ** The adapter's state *)

(** [lv_files] by path; [lv_budget] is the stager's budget, [None] without a stager. *)
Record Live := mkLive {
  lv_files : gmap string DispatchFile;
  lv_active : gset string;
  lv_budget : option Z }.

(** ** Interactions *)

Inductive Act :=
(** [catalog.Import], [l.findModel], [readConfig] and whether a stager exists *)
| AImport
| AFind (id : string)
| AReadConfig
| AStager
(** the section of [Execute] that records the intent, the one that records the result, and
    the deferred removal of the active marker *)
| ABegin (x : Execution)
| AConclude (x : Execution) (r : Result)
| ARelease (id : string)
(** reading the active marker and the record *)
| ALookup (id : string)
| AReport (p : Progress)
(** one select: [true] when the context is done, [false] when the timer fired *)
| AWait
| AHostExecute (r : Request)
| AHostStatus (id : string)
| AWorkerExecute (r : Worker.Request)
| AWorkerStatus (id : string)
| AWorkerCancel (id : string)
| AStage (m : CatalogModel)
| AVerify (m : CatalogModel)
| AVerifyContent (m : CatalogModel)
| APresent (m : CatalogModel)
| ASetBudget (budget : Z).

Inductive Begun := Granted | Existing | Refused (e : error).

Definition answer (a : Act) : Type :=
  match a with
  | AImport => result CatalogInventory
  | AFind _ => result CatalogModel
  | AReadConfig => result Configuration
  | AStager => bool
  | ABegin _ => Begun
  | AConclude _ _ => result unit
  | ALookup _ => bool * option DispatchFile
  | AReport _ => option error
  | AWait => bool
  | AHostExecute _ | AHostStatus _ => HostResult * option error
  | AWorkerExecute _ | AWorkerStatus _ => Result * option error
  | AStage _ | AVerify _ | AVerifyContent _ => result (list Artifact)
  | APresent _ => result bool
  | ARelease _ | AWorkerCancel _ | ASetBudget _ => unit
  end.

Abbreviation Run := (Interact.Run answer).

(** ** Exports carried by a helper result *)

(** The members of an object as raw text, [json.Valid], and the digest of a text. *)
Class RawMembers := raw_texts : string → option (gmap string string).

Section Live.
Context `{Sha256} `{JSONText} `{JSONRender} `{RawMembers} `{TimeText} (Sum : string → string).

Definition valid_text (s : string) : bool := match json_docs s with Some [_] => true | _ => false end.

Fixpoint cpu_files (files : gmap string string) (revision : string) (names : list string) : result (list Artifact) :=
  match names with
  | [] => Ok []
  | name :: names =>
    match files !! name with
    | None => Err (Plain "CPU export missing expected file")
    | Some b =>
      reject negb (valid_text b) with Plain "CPU export missing expected file" ;;
      out ← cpu_files files revision names;
      Ok (mkArtifact name (Sum b) (str_len b) revision "offline-plan-not-applied" b :: out)
    end
  end.
Definition cpuArtifacts (data : string) (revision : string) : result (list Artifact) :=
  reject str_len data >? 2^20 with Plain "CPU export exceeds bounded artifact size" ;;
  match raw_texts data with
  | None => Err (Plain "invalid CPU export contract")
  | Some files =>
    reject negb (Z.of_nat (size files) =? 2) with Plain "invalid CPU export contract" ;;
    cpu_files files revision ["resource-plan.json"; "ansible-vars.json"]
  end.

Definition memoryArtifacts (data : string) (revision : string) : result (list Artifact) :=
  reject str_len data >? 128 * 2^10 with Plain "memory summary exceeds bound" ;;
  s ← Decode (λ v, dec_MemorySummary v MemorySummary0) (json_docs data);
  reject existsb (λ a, negb (PrivateName (ar_Name a)) || (ar_Content a <>s "") || negb (MemoryBundle.Digest (ar_SHA256 a))
                       || (ar_Size a <=? 0) || (ar_Size a >? 2 * 2^20)) (ms_Artifacts s)
    with Plain "private memory artifacts must contain only bounded metadata" ;;
  let b := json_text (MemorySummary_json s) in
  Ok (ms_Artifacts s ++ [mkArtifact "memory-summary.json" (Sum b) (str_len b) revision (ms_Status s) b]).

Definition performanceArtifacts (data : string) (revision : string) : result (list Artifact) :=
  reject str_len data >? 32 * 2^10 with Plain "performance summary exceeds bound" ;;
  s ← Decode (λ v, dec_PerformanceSummary v PerformanceSummary0) (json_docs data);
  _ ← ValidateSummary s;
  reject existsb (λ a, ar_SourceRevision a <>s revision) (ps_Artifacts s) with Plain "performance artifact source changed" ;;
  let b := json_text (PerformanceSummary_json s) in
  Ok (ps_Artifacts s ++ [mkArtifact "performance-summary.json" (Sum b) (str_len b) revision (ps_Status s) b]).

(** The chain of the three exports after a host result: each sets the artifacts and the error
    when its action succeeded. *)
Definition export_with (applies : bool) (export : string → string → result (list Artifact)) (revision : string)
    (hr : HostResult) (out : Result * option error) : Result * option error :=
  if applies && (hs_State hr =s "succeeded") then
    let with_artifacts l := mkResult (re_State out.1) (re_Phase out.1) (re_Message out.1) (re_RecoveryRequired out.1) l in
    match export (default "" (hs_Data hr)) revision with
    | Ok l => (with_artifacts l, None)
    | Err e => (with_artifacts [], Some e)
    end
  else out.
Definition host_result (hr : HostResult) : Result :=
  mkResult (hs_State hr) (hs_Phase hr) (hs_Message hr) (hs_State hr =s "recovery-required") [].
Definition host_exports (action revision : string) (hr : HostResult) (out : Result * option error) : Result * option error :=
  out |> export_with (action =s "cpu-policy.export") cpuArtifacts revision hr
      |> export_with (MemoryAction action) memoryArtifacts revision hr
      |> export_with (PerformanceAction action) performanceArtifacts revision hr.
(** The same chain in the inspections: only without an earlier error. *)
Definition inspect_with (applies : bool) (export : string → string → result (list Artifact)) (revision : string)
    (hr : HostResult) (out : Result * option error) : Result * option error :=
  match out.2 with None => export_with applies export revision hr out | Some _ => out end.
Definition inspect_host (action revision : string) (a : HostResult * option error) : Result * option error :=
  (host_result a.1, a.2)
    |> inspect_with (action =s "cpu-policy.export") cpuArtifacts revision a.1
    |> inspect_with (MemoryAction action) memoryArtifacts revision a.1
    |> inspect_with (PerformanceAction action) performanceArtifacts revision a.1.

(** ** Inspection by identifier *)

Definition identity_ok (id : string) : bool := negb (contains_any id "/\.") && negb (str_len id <? 8).
Definition refused_by_executor (r : Result) : bool := (re_State r =s "failed") && (re_Phase r =s "executor-refused").
Definition recovery (phase message : string) : Result := mkResult "recovery-required" phase message true [].
Definition err_absent : error := Plain "file does not exist".

Definition Inspect (id : string) : Run (Result * option error) :=
  if negb (identity_ok id) then mret (Result0, Some (Plain "invalid operation identity")) else
  found ← act (ALookup id);
  match snd found with
  | None => mret (Result0, Some err_absent)
  | Some Unread => mret (Result0, Some (Plain "read"))
  | Some Corrupt => mret (Result0, Some (Plain "corrupt adapter record"))
  | Some (Dispatched r) =>
    if dp_Kind r =s "host" then
      if refused_by_executor (dp_Result r) then mret (dp_Result r, None) else
      a ← act (AHostStatus id); mret (inspect_host (dp_Action r) (dp_SourceRevision r) a)
    else if dp_Kind r =s "worker" then act (AWorkerStatus id)
    else if negb (Terminal (re_State (dp_Result r)))
    then mret (recovery "local-effect-uncertain" "inspect managed partial/publication receipt and source; external effects are not retried", None)
    else mret (dp_Result r, None)
  end.

(** ** Execution *)

(** What one way of dispatching hands to the common end of [Execute]: its result and error,
    or what [Execute] returns at once. *)
Inductive Performed := Settled (r : Result) (e : option error) | Returned (r : Result) (e : option error).

Definition report (wanted : bool) (p : Progress) : Run (option error) :=
  if wanted then act (AReport p) else mret None.

(** The loop over the helper's status, and the results it ends with. *)
Fixpoint poll_host (wanted : bool) (fuel : nat) (id : string) (hr : HostResult) : Run (HostResult * option error + Performed) :=
  if Terminal (hs_State hr) then mret (inl (hr, None)) else
  match fuel with
  | O => Stuck
  | S fuel =>
    pe ← report wanted (mkProgress (hs_Phase hr) (hs_Message hr) 0);
    match pe with
    | Some e => mret (inr (Returned Result0 (Some e)))
    | None =>
      done ← act AWait;
      if (done : bool) then mret (inr (Returned (recovery "executor-detached" "helper continues independently; inspect its durable operation") None)) else
      a ← act (AHostStatus id);
      match snd a with
      | Some e => mret (inl (fst a, Some e))
      | None => poll_host wanted fuel id (fst a)
      end
    end
  end.

Definition set_d_revision (x : Execution) : Draft := set_d_SourceRevision (ex_Revision x) (pl_Draft (ex_Plan x)).
(** The helper's request for an execution. *)
Definition host_request (x : Execution) : Request :=
  let req := mkRequest ContractVersion (ex_ID x) (ex_Actor x) "" (set_d_revision x) (pl_Desired (ex_Plan x)) in
  set_rq_PayloadHash (RequestHash req) req.

Definition perform_host (wanted : bool) (fuel : nat) (x : Execution) : Run Performed :=
  a ← act (AHostExecute (host_request x));
  match snd a with
  | Some e =>
    mret (Settled (if hs_State (fst a) =s "failed" then mkResult "failed" "executor-refused" (hs_Message (fst a)) false [] else Result0) (Some e))
  | None =>
    out ← poll_host wanted fuel (ex_ID x) (fst a);
    match out with
    | inr p => mret p
    | inl (hr, e) => let out := host_exports (ex_Action x) (ex_Revision x) hr (host_result hr, e) in mret (Settled out.1 out.2)
    end
  end.

Fixpoint waitWorker (wanted : bool) (fuel : nat) (id : string) : Run (Result * option error) :=
  a ← act (AWorkerStatus id);
  match snd a with
  | Some e => mret (fst a, Some e)
  | None =>
    if Terminal (re_State (fst a)) then mret (fst a, None) else
    match fuel with
    | O => Stuck
    | S fuel =>
      pe ← report wanted (mkProgress (re_Phase (fst a)) (re_Message (fst a)) 0);
      match pe with
      | Some e => mret (fst a, Some e)
      | None =>
        done ← act AWait;
        if (done : bool) then
          _ ← act (AWorkerCancel id);
          mret (recovery "cancel-requested" "worker cancellation requested; inspect descendant/cgroup disposition", None)
        else waitWorker wanted fuel id
      end
    end
  end.

(** The worker's request; its client adds the hash. *)
Definition worker_request (x : Execution) : Worker.Request :=
  Worker.mkRequest (ex_ID x) (ex_Actor x) (d_Recipe (pl_Draft (ex_Plan x))) "" (cf_Caches (pl_Desired (ex_Plan x))) (ex_Revision x).
Definition perform_worker (wanted : bool) (fuel : nat) (x : Execution) : Run Performed :=
  a ← act (AWorkerExecute (worker_request x));
  match snd a with
  | Some e => mret (Settled (fst a) (Some e))
  | None => out ← waitWorker wanted fuel (ex_ID x); mret (Settled (fst out) (snd out))
  end.

(** The stager makes its own progress calls; [AStage] answers for the whole of it. *)
Definition local_effect (x : Execution) : Run (result (list Artifact)) :=
  let action := ex_Action x in
  if (action =s "model.stage") || (action =s "model.verify") then
    stager ← act AStager;
    if negb stager then mret (Err (Failure "unavailable" "managed model storage is unavailable")) else
    found ← act (AFind (d_Model (pl_Draft (ex_Plan x))));
    match found with
    | Err e => mret (Err e)
    | Ok m => if action =s "model.stage" then act (AStage m) else act (AVerify m)
    end
  else if action =s "caches.configure" then
    _ ← act (ASetBudget (shl64 (cb_ModelsGiB (cf_Caches (pl_Desired (ex_Plan x)))) 30)); mret (Ok [])
  else mret (Ok []).
Definition perform_local (x : Execution) : Run Performed :=
  r ← local_effect x;
  mret match r with
       | Ok artifacts => Settled (mkResult "succeeded" "completed" "managed asset/source operation completed; workload qualification unchanged" false artifacts) None
       | Err e => Settled Result0 (Some e)
       end.

Definition perform (wanted : bool) (fuel : nat) (x : Execution) : Run Performed :=
  let kind := executionKind (ex_Action x) in
  if kind =s "worker" then perform_worker wanted fuel x
  else if kind =s "host" then perform_host wanted fuel x
  else perform_local x.

(** What is recorded when the effect returned an error. *)
Definition proven (r : Result) : bool := Terminal (re_State r) && negb (re_RecoveryRequired r).
Definition adapter_outcome (kind : string) (r : Result) (e : option error) : Result :=
  match e with
  | None => r
  | Some e =>
    if proven r then r
    else if kind <>s "local" then mkResult "recovery-required" "adapter-failed" "executor outcome uncertain; inspect its durable journal" true []
    else mkResult "failed" "adapter-failed" (error_text e) false []
  end.

Definition finish_execution (x : Execution) (p : Performed) : Run (Result * option error) :=
  match p with
  | Returned r e => mret (r, e)
  | Settled r e =>
    let r := adapter_outcome (executionKind (ex_Action x)) r e in
    saved ← act (AConclude x r);
    match saved with
    | Err se => mret (Result0, Some se)
    | Ok _ => mret (r, e)
    end
  end.

Definition Execute (wanted : bool) (fuel : nat) (x : Execution) : Run (Result * option error) :=
  imported ← act AImport;
  match imported with
  | Err e => mret (mkResult "failed" "reference-preflight" (error_text e) false [], Some e)
  | Ok ref =>
    let expected := precondition x "reference_revision" in
    if (expected <>s "") && (expected <>s ci_SourceRevision ref)
    then mret (mkResult "failed" "source-drift" "reference source changed after planning; nothing was dispatched" false [],
               Some (Failure "source_drift" "reference source changed after planning"))
    else
      begun ← act (ABegin x);
      match begun with
      | Refused e => mret (Result0, Some e)
      | Existing => Inspect (ex_ID x)
      | Granted =>
        p ← perform wanted fuel x;
        out ← finish_execution x p;
        _ ← act (ARelease (ex_ID x));
        mret out
      end
  end.

(** ** Inspection of an execution *)

Definition inspectLocalExecution (x : Execution) : Run (Result * option error) :=
  if ex_Action x =s "caches.configure" then
    c ← act AReadConfig;
    mret (if match c with
             | Ok c => (cf_Revision c =s ex_Revision x) && bool_decide (cf_Caches c = cf_Caches (pl_Desired (ex_Plan x)))
             | Err _ => false
             end
          then (mkResult "succeeded" "local-cache-budget-observed" "durable managed cache budget matches the original local execution" false [], None)
          else (recovery "local-source-inspection-required" "cache budget source differs or is unavailable; no host or worker recovery was selected", None))
  else if (ex_Action x <>s "model.stage") && (ex_Action x <>s "model.verify")
  then mret (Result0, Some (Plain "unsupported local recovery action"))
  else
    stager ← act AStager;
    if negb stager
    then mret (recovery "model-storage-unavailable" "managed model storage is unavailable; local publication evidence cannot be inspected", None) else
    found ← act (AFind (d_Model (pl_Draft (ex_Plan x))));
    match found with
    | Err _ => mret (recovery "model-catalog-drift" "the original selected model is no longer in the reviewed catalog", None)
    | Ok m =>
      let expected := precondition x "reference_revision" in
      drifted ← (if expected =s "" then mret false
                 else ref ← act AImport;
                      mret (match ref with Ok ref => ci_SourceRevision ref <>s expected | Err _ => true end));
      if (drifted : bool)
      then mret (recovery "source-drift" "reviewed reference source changed or is unavailable; local publication remains fenced", None) else
      verified ← act (AVerify m);
      match verified with
      | Ok artifacts => mret (mkResult "succeeded" "local-publication-verified" "verified staged model receipt, hashes and reader permissions" false artifacts, None)
      | Err _ =>
        content ← act (AVerifyContent m);
        if is_ok content
        then mret (mkResult "failed" "local-publication-permissions-invalid" "published receipt and hashes verify, but reader permissions are invalid; explicitly rerun model.stage to repair this managed snapshot" false [], None)
        else
          present ← act (APresent m);
          match present with
          | Err _ => mret (recovery "local-publication-unknown" "managed model publication path cannot be inspected safely", None)
          | Ok false => mret (mkResult "failed" "local-interrupted-no-publication" "no published model snapshot exists; the interrupted local operation did not dispatch host or worker effects" false [], None)
          | Ok true => mret (recovery "local-publication-uncertain" "published model receipt, hashes or reader permissions are invalid; preserve the local recovery fence", None)
          end
      end
    end.

Definition execution_hash (x : Execution) : string := sha256_hex (Execution_json x).

Definition InspectExecution (x : Execution) : Run (Result * option error) :=
  if negb (identity_ok (ex_ID x)) then mret (Result0, Some (Plain "invalid operation identity")) else
  let kind := executionKind (ex_Action x) in
  found ← act (ALookup (ex_ID x));
  if fst found && (kind =s "local")
  then mret (mkResult "running" "local-execution-active" "local staging/verification is still active; no recovery probe was run" false [], None) else
  match snd found with
  | None =>
    if kind =s "local" then inspectLocalExecution x
    else mret (Result0, Some (Plain "executor dispatch record is absent; outcome is not proven"))
  | Some Unread => mret (Result0, Some (Plain "read"))
  | Some Corrupt => mret (Result0, Some (Plain "adapter dispatch record corrupt"))
  | Some (Dispatched r) =>
    if (dp_Hash r =s "") || (dp_Hash r <>s execution_hash x) || (dp_Kind r <>s kind)
    then mret (Result0, Some (Plain "adapter dispatch record does not bind the original execution"))
    else if (dp_Action r <>s "") && (dp_Action r <>s ex_Action x)
    then mret (Result0, Some (Plain "adapter dispatch action does not match the original execution"))
    else if (dp_SourceRevision r <>s "") && (dp_SourceRevision r <>s ex_Revision x)
    then mret (Result0, Some (Plain "adapter dispatch source revision does not match the original execution"))
    else if kind =s "local" then inspectLocalExecution x
    else if kind =s "worker" then act (AWorkerStatus (ex_ID x))
    else if refused_by_executor (dp_Result r) then mret (dp_Result r, None)
    else a ← act (AHostStatus (ex_ID x)); mret (inspect_host (ex_Action x) (ex_Revision x) a)
  end.

(** ** The locked sections *)

Context (StateDir : string).
Definition recordPath (id : string) : string := path_join (path_join StateDir "live-dispatch") (id +:+ ".json").

(** The record of the intent. *)
Definition intent_record (x : Execution) : dispatch :=
  mkDispatch (executionKind (ex_Action x)) (execution_hash x)
    (mkResult "running" "dispatch-intent" "durable adapter intent recorded" false []) (ex_Action x) (ex_Revision x).

(** [saveJSON] of a record, as its outcome shows: [Written], or an error that may have
    replaced the file. *)
Definition save_dispatch (w : write_outcome) (id : string) (r : dispatch) (lv : Live) : Live * result unit :=
  let written := mkLive (<[recordPath id := Dispatched r]> (lv_files lv)) (lv_active lv) (lv_budget lv) in
  match w with
  | Written => (written, Ok tt)
  | WriteFailed replaced => ((if replaced then written else lv), Err (Plain "save"))
  end.

Definition begin_dispatch (w : write_outcome) (x : Execution) (lv : Live) : Live * Begun :=
  match lv_files lv !! recordPath (ex_ID x) with
  | Some Corrupt => (lv, Refused (Plain "adapter dispatch record corrupt"))
  | Some (Dispatched r) =>
    if dp_Hash r <>s execution_hash x then (lv, Refused (Plain "adapter operation payload conflict")) else (lv, Existing)
  | Some Unread => (lv, Refused (Plain "adapter dispatch record cannot be read safely"))
  | None =>
    match save_dispatch w (ex_ID x) (intent_record x) lv with
    | (lv, Err e) => (lv, Refused e)
    | (lv, Ok _) => (mkLive (lv_files lv) ({[ex_ID x]} ∪ lv_active lv) (lv_budget lv), Granted)
    end
  end.
Definition conclude (w : write_outcome) (x : Execution) (r : Result) (lv : Live) : Live * result unit :=
  save_dispatch w (ex_ID x) (set_dp_Result r (intent_record x)) lv.
Definition release (id : string) (lv : Live) : Live :=
  mkLive (lv_files lv) (lv_active lv ∖ {[id]}) (lv_budget lv).
Definition set_budget (budget : Z) (lv : Live) : Live :=
  mkLive (lv_files lv) (lv_active lv) (match lv_budget lv with Some _ => Some budget | None => None end).
Definition lookup_dispatch (id : string) (lv : Live) : bool * option DispatchFile :=
  (bool_decide (id ∈ lv_active lv), lv_files lv !! recordPath id).
End Live.
