(* ===== verification/Dispatch.v ===== *)
(** The live adapter over time: histories of a method, the adapter under concurrent calls,
    failing writes and crashes, and what an execution or an inspection may conclude. *)
From S2P Require Import Prelude Interact Json Types FileTree Catalog Staging Published Config Wire Evidence Domain Source Engine Cgroup Worker HostPolicy HostExec MemoryBundle PerfBundle Client Live.
#[local] Open Scope Z_scope.

Abbreviation event := {e : Act & answer e}.

(** ** What interactions do *)

Definition dispatches (e : Act) : bool :=
  match e with AHostExecute _ | AWorkerExecute _ | AStage _ | ASetBudget _ => true | _ => false end.
(** Neither an effect nor a write of the dispatch directory. *)
Definition harmless (e : Act) : bool :=
  negb (dispatches e) && match e with ABegin _ | AConclude _ _ => false | _ => true end.

Abbreviation quiet := (every (λ e, harmless e = true)).

Section Dispatch.
Context `{Sha256} `{JSONText} `{JSONRender} `{RawMembers} `{TimeText} (Sum : string → string) (StateDir : string).
(** The entries of the embedded model list, which every lookup reads. *)
Context (modelData : list CatalogModel).
#[local] Abbreviation Execute := (Execute Sum).
#[local] Abbreviation InspectExecution := (InspectExecution Sum).
#[local] Abbreviation recordPath := (recordPath StateDir).

(** The request an execution may dispatch: to the helper its draft under the accepted
    revision, its desired configuration, identifier and actor, under the hash of the whole; to
    the worker its recipe, caches, identifier and actor; the staging of exactly the catalogue
    entry the draft names; the model budget of the desired configuration. *)
Definition bound (x : Execution) (e : Act) : Prop :=
  match e with
  | AHostExecute r => executionKind (ex_Action x) = "host" ∧
      rq_Version r = ContractVersion ∧ rq_ID r = ex_ID x ∧ rq_ExecutionIdentity r = ex_Actor x ∧
      rq_Draft r = set_d_SourceRevision (ex_Revision x) (pl_Draft (ex_Plan x)) ∧ rq_Desired r = pl_Desired (ex_Plan x) ∧
      rq_PayloadHash r = RequestHash r
  | AWorkerExecute r => executionKind (ex_Action x) = "worker" ∧
      r = Worker.mkRequest (ex_ID x) (ex_Actor x) (d_Recipe (pl_Draft (ex_Plan x))) "" (cf_Caches (pl_Desired (ex_Plan x))) (ex_Revision x)
  | AStage m => ex_Action x = "model.stage" ∧ m ∈ Selected modelData ∧ cm_ID m = d_Model (pl_Draft (ex_Plan x))
  | ASetBudget b => ex_Action x = "caches.configure" ∧ b = shl64 (cb_ModelsGiB (cf_Caches (pl_Desired (ex_Plan x)))) 30
  | _ => True
  end.

(** What the code behind an interaction is known to answer: the catalogue is compiled in. *)
Definition known (e : Act) : answer e → Prop :=
  match e return answer e → Prop with AFind id => λ v, v = Find modelData id | _ => λ _, True end.
Lemma Find_listed id m : Find modelData id = Ok m → m ∈ Selected modelData ∧ cm_ID m = id.
Proof.
  unfold Find. destruct (List.find _ _) as [m'|] eqn:Hf; [|done]. intros [= ->]. apply find_some in Hf as [Hm He]. bool_hyps.
  split; [by apply list_elem_of_In|done].
Qed.

(** No effect is left: only its own conclusion may be written. *)
Fixpoint spent {A} (x : Execution) (m : Run A) : Prop :=
  match m with
  | Ret _ | Stuck => True
  | Do e k => (harmless e = true ∨ ∃ r, e = AConclude x r) ∧ ∀ v, spent x (k v)
  end.
(** At most one effect is left, bound to the execution. *)
Fixpoint armed {A} (x : Execution) (m : Run A) : Prop :=
  match m with
  | Ret _ | Stuck => True
  | Do e k =>
    if dispatches e then bound x e ∧ ∀ v, spent x (k v)
    else (harmless e = true ∨ ∃ r, e = AConclude x r) ∧ ∀ v, known e v → armed x (k v)
  end.
(** Nothing happens before a grant. *)
Definition is_granted (b : Begun) : bool := match b with Granted => true | _ => false end.
Fixpoint fresh {A} (x : Execution) (m : Run A) : Prop :=
  match m with
  | Ret _ | Stuck => True
  | Do e k =>
    match e return (answer e → Run A) → (answer e → Prop) → Prop with
    | ABegin y => λ k rest, y = x ∧ ∀ v, if is_granted v then armed x (k v) else quiet (k v)
    | _ => λ k rest, harmless e = true ∧ ∀ v, rest v
    end k (λ v, fresh x (k v))
  end.

Lemma quiet_spent {A} x (m : Run A) : quiet m → spent x m.
Proof. induction m as [|e k IH|]; [done| |done]. intros [He Hk]. split; [by left|]. intros v. by apply IH. Qed.
Lemma spent_armed {A} x (m : Run A) : spent x m → armed x m.
Proof.
  induction m as [|e k IH|]; [done| |done]. intros [He Hk]. cbn. assert (dispatches e = false) as ->.
  { destruct He as [He|[r ->]]; [|done]. unfold harmless in He. by destruct (dispatches e). }
  split; [done|]. intros v _. by apply IH.
Qed.
Lemma quiet_fresh {A} x (m : Run A) : quiet m → fresh x m.
Proof. induction m as [|e k IH|]; [done| |done]. intros [He Hk]. destruct e; (try done); split; (try done); intros v; by apply IH. Qed.

Lemma spent_bind {A B} x (f : A → Run B) m : spent x m → (∀ a, spent x (f a)) → spent x (m ≫= f).
Proof. intros Hm Hf. induction m as [a|e k IH|]; [apply Hf| |done]. destruct Hm as [He Hk]. split; [done|]. intros v. by apply IH. Qed.
Lemma armed_bind {A B} x (f : A → Run B) m : armed x m → (∀ a, spent x (f a)) → armed x (m ≫= f).
Proof.
  intros Hm Hf. induction m as [a|e k IH|]; [apply spent_armed, Hf| |done]. cbn in *. destruct (dispatches e).
  - destruct Hm as [Hb Hk]. split; [done|]. intros v. by apply spent_bind.
  - destruct Hm as [He Hk]. split; [done|]. intros v Hv. apply IH. by apply Hk.
Qed.

Create HintDb run discriminated.
#[local] Hint Resolve quiet_spent spent_armed quiet_fresh : run.

Lemma Inspect_quiet id : quiet (Inspect Sum id).
Proof. unfold Inspect. every_act. Qed.
Lemma inspectLocal_quiet x : quiet (inspectLocalExecution x).
Proof. unfold inspectLocalExecution. every_act. Qed.
Lemma InspectExecution_quiet x : quiet (InspectExecution x).
Proof. unfold Live.InspectExecution. pose proof inspectLocal_quiet x. every_act. Qed.
Lemma report_quiet w p : quiet (report w p).
Proof. unfold report. every_act. Qed.
Lemma poll_quiet w fuel id : ∀ hr, quiet (poll_host w fuel id hr).
Proof.
  induction fuel as [|fuel IH]; intros hr; cbn [poll_host]; destruct (Terminal _); try done.
  apply every_bind; [apply report_quiet|]. every_act.
Qed.
Lemma wait_quiet w fuel id : quiet (waitWorker w fuel id).
Proof.
  induction fuel as [|fuel IH]; cbn [waitWorker]; every_act.
  apply report_quiet.
Qed.
Lemma perform_armed w fuel x : armed x (perform Sum w fuel x).
Proof.
  unfold perform. destruct (String.eqb_spec (executionKind (ex_Action x)) "worker") as [Hk|Hk].
  { split; [done|]. intros v. cbn. destruct (snd v); [exact I|]. apply quiet_spent, every_bind; [apply wait_quiet|]. every_act. }
  destruct (String.eqb_spec (executionKind (ex_Action x)) "host") as [Hh|Hh].
  { split; [done|]. intros v. cbn. destruct (snd v); [exact I|]. apply quiet_spent, every_bind; [apply poll_quiet|]. every_act. }
  apply armed_bind; [|done]. unfold local_effect. destruct (String.eqb_spec (ex_Action x) "model.stage") as [Hs|Hs]; cbn [orb].
  { split; [by left|]. intros stager _. destruct stager; [|exact I]. split; [by left|]. intros found Hf. destruct found as [m|]; [|exact I].
    change (Ok m = Find modelData (d_Model (pl_Draft (ex_Plan x)))) in Hf. symmetry in Hf. apply Find_listed in Hf as [Hm Hid]. split; [done|]. intros; exact I. }
  destruct (String.eqb_spec (ex_Action x) "model.verify") as [Hv|Hv].
  { split; [by left|]. intros stager _. destruct stager; [|exact I]. split; [by left|]. intros found _. destruct found as [m|]; [|exact I].
    split; [by left|]. intros; exact I. }
  destruct (String.eqb_spec (ex_Action x) "caches.configure"); [|exact I]. split; [done|]. intros; exact I.
Qed.
Lemma finish_spent x p : spent x (finish_execution x p).
Proof. unfold finish_execution. destruct p; [|exact I]. split; [by right; eexists|]. intros v. destruct v; exact I. Qed.

Lemma Execute_fresh w fuel x : fresh x (Execute w fuel x).
Proof.
  split; [done|]. intros imported. destruct imported as [ref|e]; [|exact I]. cbv zeta. cbn beta iota.
  cbn. match goal with |- context [if ?c then _ else _] => destruct c end; [exact I|].
  split; [done|]. intros begun. destruct begun; cbn [is_granted]; [|apply Inspect_quiet|exact I].
  apply armed_bind; [apply perform_armed|]. intros p. apply spent_bind; [apply finish_spent|]. intros out. split; [by left|]. intros; exact I.
Qed.

(** ** The adapter over time *)

(** What the locked sections do; every other interaction leaves the state alone and its
    answer to the environment. *)
Definition respond (e : Act) (lv : Live) : answer e → Live → Prop :=
  match e return answer e → Live → Prop with
  | ABegin x => λ v lv', ∃ w, begin_dispatch StateDir w x lv = (lv', v)
  | AConclude x r => λ v lv', ∃ w, conclude StateDir w x r lv = (lv', v)
  | ALookup id => λ v lv', v = lookup_dispatch StateDir id lv ∧ lv' = lv
  | ARelease id => λ _ lv', lv' = release id lv
  | ASetBudget b => λ _ lv', lv' = set_budget b lv
  | AFind id => λ v lv', v = Find modelData id ∧ lv' = lv
  | _ => λ _ lv', lv' = lv
  end.

(** One call in progress.  The phase is bookkeeping: it follows what the call has done. *)
Inductive Phase := Idle | Armed | Spent.
Record Call := mkCall {
  cl_x : Execution;
  cl_run : Run (Result * option error);
  cl_phase : Phase }.
Definition next_phase (e : Act) (v : answer e) (p : Phase) : Phase :=
  match e return answer e → Phase with
  | ABegin _ => λ v, if is_granted v then Armed else p
  | _ => λ _, if dispatches e then Spent else p
  end v.

Record System := mkSystem {
  ss_live : Live;
  ss_calls : list Call;
  (** the effects started so far, with the execution each was started for *)
  ss_log : list (Execution * Act) }.

Inductive live_step : System → System → Prop :=
| step_execute s x w fuel :
    live_step s (mkSystem (ss_live s) (mkCall x (Execute w fuel x) Idle :: ss_calls s) (ss_log s))
| step_inspect s x :
    live_step s (mkSystem (ss_live s) (mkCall x (InspectExecution x) Idle :: ss_calls s) (ss_log s))
| step_inspect_id s x :
    live_step s (mkSystem (ss_live s) (mkCall x (Inspect Sum (ex_ID x)) Idle :: ss_calls s) (ss_log s))
| step_act s l1 l2 c e k v lv :
    ss_calls s = l1 ++ c :: l2 → cl_run c = Do e k → respond e (ss_live s) v lv →
    live_step s (mkSystem lv (l1 ++ mkCall (cl_x c) (k v) (next_phase e v (cl_phase c)) :: l2)
      (if dispatches e then ss_log s ++ [(cl_x c, e)] else ss_log s))
| step_crash s budget :
    live_step s (mkSystem (mkLive (lv_files (ss_live s)) ∅ budget) [] (ss_log s)).

Inductive live_reachable : System → Prop :=
| reach_start lv : live_reachable (mkSystem lv [] [])
| reach_step s s' : live_reachable s → live_step s s' → live_reachable s'.

(** A record that binds an execution. *)
Definition binds (x : Execution) (r : dispatch) : Prop :=
  dp_Kind r = executionKind (ex_Action x) ∧ dp_Hash r = execution_hash x ∧ dp_Action r = ex_Action x ∧ dp_SourceRevision r = ex_Revision x.
Definition recorded (lv : Live) (x : Execution) : Prop :=
  ∃ r, lv_files lv !! recordPath (ex_ID x) = Some (Dispatched r) ∧ binds x r.

Definition armed_of (c : Call) : list Execution := match cl_phase c with Armed => [cl_x c] | _ => [] end.
(** The executions that have, or may still have, an effect. *)
Definition owners (s : System) : list Execution := (fst <$> ss_log s) ++ (ss_calls s ≫= armed_of).
Definition shaped (c : Call) : Prop :=
  match cl_phase c with Idle => fresh (cl_x c) (cl_run c) | Armed => armed (cl_x c) (cl_run c) | Spent => spent (cl_x c) (cl_run c) end.

Record live_inv (s : System) : Prop := {
  li_once : NoDup (recordPath ∘ ex_ID <$> owners s);
  li_recorded x : x ∈ owners s → recorded (ss_live s) x;
  li_spent c : c ∈ ss_calls s → cl_phase c = Spent → cl_x c ∈ fst <$> ss_log s;
  li_shaped c : c ∈ ss_calls s → shaped c;
  li_bound x e : (x, e) ∈ ss_log s → dispatches e = true ∧ bound x e }.

Lemma dispatch_files w id r lv lv' o : save_dispatch StateDir w id r lv = (lv', o) →
  lv_files lv' = <[recordPath id := Dispatched r]> (lv_files lv) ∨ lv_files lv' = lv_files lv ∧ o ≠ Ok tt.
Proof. unfold save_dispatch. destruct w as [|[]]; intros [= <- <-]; auto. Qed.

(** A grant writes the intent where nothing was; a refusal keeps what was there. *)
Lemma begin_files w x lv lv' v : begin_dispatch StateDir w x lv = (lv', v) →
  lv_files lv' = lv_files lv ∧ v ≠ Granted ∨
  lv_files lv !! recordPath (ex_ID x) = None ∧ lv_files lv' = <[recordPath (ex_ID x) := Dispatched (intent_record x)]> (lv_files lv).
Proof.
  unfold begin_dispatch. destruct (lv_files lv !! _) as [[| |r]|] eqn:Hf; [by intros [= <- <-]; left..| |].
  - destruct (dp_Hash r <>s _); intros [= <- <-]; by left.
  - destruct (save_dispatch _ _ _ _ _) as [lv1 [[]|e]] eqn:Hs; intros [= <- <-]; apply dispatch_files in Hs as [Hs|[Hs Ho]]; auto.
Qed.

Lemma intent_binds x r : binds x (set_dp_Result r (intent_record x)) ∧ binds x (intent_record x).
Proof. done. Qed.

Lemma recorded_insert lv lv' x r :
  lv_files lv' = <[recordPath (ex_ID x) := Dispatched r]> (lv_files lv) → binds x r → ∀ y,
  recorded lv y → (recordPath (ex_ID y) = recordPath (ex_ID x) → y = x) → recorded lv' y.
Proof.
  intros Hf Hb y (r' & Hr' & Hb') Heq. unfold recorded. rewrite Hf.
  destruct (decide (recordPath (ex_ID y) = recordPath (ex_ID x))) as [He|He].
  - rewrite He, lookup_insert_eq. rewrite (Heq He). eauto.
  - rewrite lookup_insert_ne by done. eauto.
Qed.

Lemma NoDup_fmap_inj {A B} (f : A → B) l a b : NoDup (f <$> l) → a ∈ l → b ∈ l → f a = f b → a = b.
Proof.
  intros Hnd (i & Hi)%list_elem_of_lookup (j & Hj)%list_elem_of_lookup Heq.
  assert (i = j) as ->; [|congruence].
  eapply (NoDup_lookup _ _ _ (f a)); [exact Hnd| |]; rewrite list_lookup_fmap; [by rewrite Hi|by rewrite Hj, Heq].
Qed.

Lemma respond_files e lv v lv' : respond e lv v lv' → harmless e = true ∨ dispatches e = true → lv_files lv' = lv_files lv.
Proof. destruct e; cbn; intros Hr He; try (by subst lv'); [by destruct Hr as [_ ->]|by destruct He|by destruct He|by destruct Hr as [_ ->]]. Qed.
Lemma respond_known e lv v lv' : respond e lv v lv' → known e v.
Proof. destruct e; try done. by intros [-> _]. Qed.

Lemma harmless_phase e v p : harmless e = true → next_phase e v p = p ∧ dispatches e = false.
Proof. destruct e; done. Qed.

Lemma armed_of_app l1 c l2 : (l1 ++ c :: l2) ≫= armed_of ≡ₚ armed_of c ++ ((l1 ++ l2) ≫= armed_of).
Proof.
  rewrite !bind_app. cbn. change (list_bind _ _ armed_of l2) with (l2 ≫= armed_of). rewrite !app_assoc. apply Permutation_app_tail, Permutation_app_comm.
Qed.

(** One call steps: what is left to show once its owner is accounted for. *)
Lemma live_inv_act s lv l1 l2 c c' log :
  live_inv s → ss_calls s = l1 ++ c :: l2 →
  NoDup (recordPath ∘ ex_ID <$> owners (mkSystem lv (l1 ++ c' :: l2) log)) →
  (∀ x, x ∈ owners (mkSystem lv (l1 ++ c' :: l2) log) → recorded lv x) →
  (cl_phase c' = Spent → cl_x c' ∈ fst <$> log) → shaped c' →
  (∃ new, log = ss_log s ++ new ∧ ∀ x e, (x, e) ∈ new → dispatches e = true ∧ bound x e) →
  live_inv (mkSystem lv (l1 ++ c' :: l2) log).
Proof.
  intros Hi Hc Hnd Hrec Hsp Hsh (new & -> & Hnew). split; cbn [ss_live ss_calls ss_log]; [done|done| | |].
  - intros d Hd Hp. rewrite elem_of_app, elem_of_cons in Hd. destruct Hd as [Hd|[->|Hd]]; [|auto|];
      (rewrite fmap_app; apply elem_of_app; left; apply (li_spent _ Hi); [|done]; rewrite Hc, elem_of_app, elem_of_cons; tauto).
  - intros d Hd. rewrite elem_of_app, elem_of_cons in Hd. destruct Hd as [Hd|[->|Hd]]; [|done|];
      (apply (li_shaped _ Hi); rewrite Hc, elem_of_app, elem_of_cons; tauto).
  - intros x e [Hx|Hx]%elem_of_app; [by apply (li_bound _ Hi)|auto].
Qed.

(** Rewriting the files at an owner's own path. *)
Lemma recorded_own s lv x r :
  live_inv s → x ∈ owners s → binds x r → lv_files lv = <[recordPath (ex_ID x) := Dispatched r]> (lv_files (ss_live s)) →
  ∀ y, y ∈ owners s → recorded lv y.
Proof.
  intros Hi Hx Hb Hf y Hy. apply (recorded_insert _ _ _ _ Hf Hb); [by apply (li_recorded _ Hi)|]. intros Heq.
  by apply (NoDup_fmap_inj (recordPath ∘ ex_ID) (owners s)); [apply Hi|..].
Qed.

(** The records of all owners after a step that is neither a grant nor a refusal. *)
Lemma respond_recorded s x e v lv :
  live_inv s → x ∈ owners s → (harmless e = true ∨ (∃ r, e = AConclude x r) ∨ dispatches e = true) →
  respond e (ss_live s) v lv → ∀ y, y ∈ owners s → recorded lv y.
Proof.
  intros Hi Hx He Hr y Hy. destruct He as [He|[[r ->]|He]].
  2:{ destruct Hr as [w Hs]. apply dispatch_files in Hs as [Hs|[Hs _]].
    + by apply (recorded_own s lv x _ Hi Hx (proj1 (intent_binds x r)) Hs).
    + unfold recorded. rewrite Hs. by apply (li_recorded _ Hi). }
  all: apply respond_files in Hr; [|auto]; unfold recorded; rewrite Hr; by apply (li_recorded _ Hi).
Qed.

(** The step of a call that was not granted anything. *)
Lemma fresh_step x e k v lv lv' : fresh x (Do e k : Run (Result * option error)) → respond e lv v lv' →
  dispatches e = false ∧
  (next_phase e v Idle = Idle ∧ fresh x (k v) ∧ lv_files lv' = lv_files lv ∨
   lv_files lv !! recordPath (ex_ID x) = None ∧ lv_files lv' = <[recordPath (ex_ID x) := Dispatched (intent_record x)]> (lv_files lv) ∧
   (next_phase e v Idle = Idle ∧ fresh x (k v) ∨ next_phase e v Idle = Armed ∧ armed x (k v))).
Proof.
  intros Hf Hr. destruct (match e with ABegin _ => true | _ => false end) eqn:He.
  - destruct e; try discriminate He. destruct Hf as [-> Hk]. specialize (Hk v). split; [done|]. destruct Hr as [w Hb].
    apply begin_files in Hb as [[Hs Hv]|[Hn Hs]].
    + left. cbn. destruct v; [done|..]; (split; [done|]; split; [by apply quiet_fresh|done]).
    + right. split; [done|]. split; [done|]. cbn. destruct v; [right|left..]; (split; [done|]); auto using quiet_fresh.
  - assert (harmless e = true ∧ ∀ v, fresh x (k v)) as [Hh Hk] by (destruct e; (done || exact Hf)).
    apply respond_files in Hr; [|by left]. destruct (harmless_phase e v Idle Hh) as [-> ->]. auto.
Qed.

(** The step of a call that may still have an effect, and of one that had it. *)
Lemma armed_step x e k v : armed x (Do e k : Run (Result * option error)) → known e v →
  dispatches e = true ∧ bound x e ∧ next_phase e v Armed = Spent ∧ spent x (k v) ∨
  dispatches e = false ∧ (harmless e = true ∨ ∃ r, e = AConclude x r) ∧ next_phase e v Armed = Armed ∧ armed x (k v).
Proof.
  cbn. destruct (dispatches e) eqn:Hd; intros [Hb Hk] Hv; [left|right].
  - split_and!; [done|done| |done]. by destruct e.
  - split; [done|]. split; [done|]. split; [|by apply Hk]. destruct Hb as [Hh|[r ->]]; [|done]. by apply harmless_phase.
Qed.
Lemma spent_step x e k v : spent x (Do e k : Run (Result * option error)) →
  dispatches e = false ∧ (harmless e = true ∨ ∃ r, e = AConclude x r) ∧ next_phase e v Spent = Spent ∧ spent x (k v).
Proof.
  intros [Hb Hk]. assert (dispatches e = false ∧ next_phase e v Spent = Spent) as [Hd Hp]; [|done].
  destruct Hb as [Hh|[r ->]]; [|done]. destruct (harmless_phase e v Spent Hh). auto.
Qed.

Lemma owners_at s lv l1 l2 c c' log : ss_calls s = l1 ++ c :: l2 →
  owners s ≡ₚ armed_of c ++ (fst <$> ss_log s) ++ ((l1 ++ l2) ≫= armed_of) ∧
  owners (mkSystem lv (l1 ++ c' :: l2) log) ≡ₚ armed_of c' ++ (fst <$> log) ++ ((l1 ++ l2) ≫= armed_of).
Proof.
  intros Hc. unfold owners. rewrite Hc. cbn [ss_calls ss_log]. rewrite !armed_of_app, !(Permutation_app_swap_app (_ <$> _)). done.
Qed.

Lemma log_same (log : list (Execution * Act)) : ∃ new, log = log ++ new ∧ ∀ x e, (x, e) ∈ new → dispatches e = true ∧ bound x e.
Proof. exists []. split; [by rewrite app_nil_r|]. intros ? ? Hx. by apply elem_of_nil in Hx. Qed.

(** No new owner. *)
Lemma live_inv_same s lv l1 l2 c c' log :
  live_inv s → ss_calls s = l1 ++ c :: l2 → armed_of c' ++ (fst <$> log) ≡ₚ armed_of c ++ (fst <$> ss_log s) →
  (∀ y, y ∈ owners s → recorded lv y) → (cl_phase c' = Spent → cl_x c' ∈ fst <$> log) → shaped c' →
  (∃ new, log = ss_log s ++ new ∧ ∀ x e, (x, e) ∈ new → dispatches e = true ∧ bound x e) →
  live_inv (mkSystem lv (l1 ++ c' :: l2) log).
Proof.
  intros Hi Hc Hp Hr. destruct (owners_at s lv l1 l2 c c' log Hc) as [Ho Ho'].
  assert (owners (mkSystem lv (l1 ++ c' :: l2) log) ≡ₚ owners s) as He by (rewrite Ho, Ho', !app_assoc; by apply Permutation_app_tail).
  apply (live_inv_act s lv l1 l2 c c' log Hi Hc).
  - rewrite He. apply Hi.
  - intros x. rewrite He. apply Hr.
Qed.
(** The owner a grant adds. *)
Lemma live_inv_grant s lv l1 l2 c m :
  live_inv s → ss_calls s = l1 ++ c :: l2 → cl_phase c = Idle → armed (cl_x c) m →
  lv_files (ss_live s) !! recordPath (ex_ID (cl_x c)) = None →
  lv_files lv = <[recordPath (ex_ID (cl_x c)) := Dispatched (intent_record (cl_x c))]> (lv_files (ss_live s)) →
  live_inv (mkSystem lv (l1 ++ mkCall (cl_x c) m Armed :: l2) (ss_log s)).
Proof.
  intros Hi Hc Hp Hm Hn Hf. destruct (owners_at s lv l1 l2 c (mkCall (cl_x c) m Armed) (ss_log s) Hc) as [Ho Ho'].
  assert (owners (mkSystem lv (l1 ++ mkCall (cl_x c) m Armed :: l2) (ss_log s)) ≡ₚ cl_x c :: owners s) as He.
  { rewrite Ho, Ho'. unfold armed_of at 1 3. rewrite Hp. done. }
  assert (∀ y, y ∈ owners s → recordPath (ex_ID y) ≠ recordPath (ex_ID (cl_x c))) as Hne.
  { intros y Hy Heq. destruct (li_recorded _ Hi y Hy) as (r & Hr & _). congruence. }
  apply (live_inv_act s lv l1 l2 c _ (ss_log s) Hi Hc); [rewrite He|intros y; rewrite He|done|done|].
  - apply NoDup_cons. split; [|apply Hi]. intros (y & Heq & Hy)%list_elem_of_fmap. by apply (Hne y Hy).
  - intros [->|Hy]%elem_of_cons; unfold recorded; rewrite Hf.
    + exists (intent_record (cl_x c)). split; [apply lookup_insert_eq|apply (intent_binds (cl_x c) Result0)].
    + rewrite lookup_insert_ne by (symmetry; by apply Hne). by apply (li_recorded _ Hi).
  - apply log_same.
Qed.

Lemma live_step_act s l1 l2 c e k v lv :
  live_inv s → ss_calls s = l1 ++ c :: l2 → cl_run c = Do e k → respond e (ss_live s) v lv →
  live_inv (mkSystem lv (l1 ++ mkCall (cl_x c) (k v) (next_phase e v (cl_phase c)) :: l2)
    (if dispatches e then ss_log s ++ [(cl_x c, e)] else ss_log s)).
Proof.
  intros Hi Hc Hrun Hr. assert (c ∈ ss_calls s) as Hin by (rewrite Hc; set_solver).
  pose proof (li_shaped _ Hi c Hin) as Hsh. pose proof (li_spent _ Hi c Hin) as Hsp.
  assert (cl_phase c = Armed → cl_x c ∈ owners s) as Harm.
  { intros Hp. unfold owners. apply elem_of_app. right. apply list_elem_of_bind. exists c. unfold armed_of. rewrite Hp. set_solver. }
  destruct c as [x m p]. unfold shaped in Hsh. cbn [cl_phase cl_x cl_run] in *. subst m.
  pose proof (log_same (ss_log s)) as Hnil.
  destruct p.
  - destruct (fresh_step _ _ _ _ _ _ Hsh Hr) as [-> Hf]. destruct Hf as [(-> & Hk & Hf)|(Hn & Hf & [[-> Hk]|[-> Hk]])].
    + apply (live_inv_same s _ _ _ _ _ _ Hi Hc); try done. unfold recorded. rewrite Hf. apply Hi.
    + apply (live_inv_same s _ _ _ _ _ _ Hi Hc); try done. intros y Hy. pose proof (li_recorded _ Hi y Hy) as Hy'.
      apply (recorded_insert _ _ x _ Hf (proj2 (intent_binds x Result0)) y Hy'). intros Heq. destruct Hy' as (r & Hr' & _). congruence.
    + by apply (live_inv_grant s lv l1 l2 (mkCall x (Do e k) Idle) (k v) Hi Hc).
  - specialize (Harm eq_refl). destruct (armed_step _ _ _ v Hsh (respond_known _ _ _ _ Hr)) as [(Hd & Hb & -> & Hk)|(-> & Hh & -> & Hk)].
    + rewrite Hd. apply (live_inv_same s _ _ _ _ _ _ Hi Hc); [|by apply (respond_recorded s x e v lv); auto|..|done|].
      * cbn. rewrite fmap_app. cbn. by rewrite Permutation_app_comm.
      * intros _. cbn. rewrite fmap_app. set_solver.
      * eexists. split; [done|]. by intros ? ? [= -> ->]%list_elem_of_singleton.
    + apply (live_inv_same s _ _ _ _ _ _ Hi Hc); [done| |done..]. apply (respond_recorded s x e v lv); naive_solver.
  - destruct (spent_step _ _ _ v Hsh) as (-> & Hh & -> & Hk). specialize (Hsp eq_refl).
    apply (live_inv_same s _ _ _ _ _ _ Hi Hc); [done| |done..]. apply (respond_recorded s x e v lv); [done| |naive_solver|done].
    unfold owners. set_solver.
Qed.

Lemma live_inv_step s s' : live_step s s' → live_inv s → live_inv s'.
Proof.
  assert (∀ s c, cl_phase c = Idle → fresh (cl_x c) (cl_run c) → live_inv s → live_inv (mkSystem (ss_live s) (c :: ss_calls s) (ss_log s))) as Hcall.
  { intros s0 c Hp Hf Hi. assert (owners (mkSystem (ss_live s0) (c :: ss_calls s0) (ss_log s0)) = owners s0) as Ho.
    { unfold owners. cbn. unfold armed_of at 1. by rewrite Hp. }
    split; [rewrite Ho; apply Hi|intros x; rewrite Ho; apply Hi| | |apply Hi]; cbn [ss_calls ss_log]; intros d [->|Hd]%elem_of_cons.
    - congruence.
    - by apply (li_spent _ Hi).
    - unfold shaped. by rewrite Hp.
    - by apply (li_shaped _ Hi). }
  intros [s0 x w fuel|s0 x|s0 x|s0 l1 l2 c e k v lv Hc Hr Hresp|s0 budget] Hi.
  - apply Hcall; [done|apply Execute_fresh|done].
  - apply Hcall; [done|apply quiet_fresh, InspectExecution_quiet|done].
  - apply Hcall; [done|apply quiet_fresh, Inspect_quiet|done].
  - by apply live_step_act.
  - assert (∀ x, x ∈ owners (mkSystem (mkLive (lv_files (ss_live s0)) ∅ budget) [] (ss_log s0)) → x ∈ owners s0) as Ho.
    { unfold owners. cbn. intros x. rewrite app_nil_r. set_solver. }
    split; cbn [ss_calls ss_log].
    + pose proof (li_once _ Hi) as Hnd. unfold owners in *. cbn. rewrite app_nil_r. rewrite fmap_app in Hnd. by apply NoDup_app in Hnd as [].
    + intros x Hx. apply Ho in Hx. by apply (li_recorded _ Hi).
    + intros c Hx. by apply elem_of_nil in Hx.
    + intros c Hx. by apply elem_of_nil in Hx.
    + apply Hi.
Qed.

Lemma live_reachable_inv s : live_reachable s → live_inv s.
Proof.
  induction 1 as [lv|s s' _ IH Hs]; [|by eapply live_inv_step].
  split; unfold owners; cbn; [constructor|..]; intros; by match goal with Hx : _ ∈ [] |- _ => apply elem_of_nil in Hx end.
Qed.


(** ** What an execution concludes *)

(** The state an executor answered. *)
Definition answer_state (i : event) : option string :=
  match projT1 i as e return answer e → option string with
  | AHostExecute _ | AHostStatus _ => λ v, Some (hs_State (fst v))
  | AWorkerExecute _ | AWorkerStatus _ => λ v, Some (re_State (fst v))
  | _ => λ _, None
  end (projT2 i).
Definition answered_state (h : list event) (s : string) : Prop := ∃ i, i ∈ h ∧ answer_state i = Some s.

Lemma answered_app h1 h2 s : answered_state h1 s ∨ answered_state h2 s → answered_state (h1 ++ h2) s.
Proof. intros [(i & ? & ?)|(i & ? & ?)]; exists i; rewrite elem_of_app; auto. Qed.
Lemma answered_cons i h s : answer_state i = Some s ∨ answered_state h s → answered_state (i :: h) s.
Proof. intros [?|(j & ? & ?)]; [exists i|exists j]; rewrite elem_of_cons; auto. Qed.
#[local] Hint Resolve answered_app answered_cons : run.

(** A result whose conclusion the engine may record without asking for recovery. *)
Definition concluded (h : list event) (r : Result) : Prop := re_RecoveryRequired r = true ∨ answered_state h (re_State r).
Lemma concluded_app h1 h2 r : concluded h2 r → concluded (h1 ++ h2) r.
Proof. intros [?|?]; [by left|right; auto with run]. Qed.
Lemma concluded_cons i h r : concluded h r → concluded (i :: h) r.
Proof. intros [?|?]; [by left|right; auto with run]. Qed.
#[local] Hint Resolve concluded_app concluded_cons : run.

(** What the engine records. *)
Lemma executed_concluded h r e : (proven r = true → answered_state h (re_State r)) → concluded h (executed_result r e).
Proof.
  intros Hp. unfold concluded. assert (∀ e', re_RecoveryRequired (fail_result e' true) = true) as Hfail.
  { intros e'. unfold fail_result. by destruct (default _ _). }
  assert (Terminal (re_State r) = true → re_RecoveryRequired r = true ∨ answered_state h (re_State r)) as Hr.
  { intros Ht. destruct (re_RecoveryRequired r) eqn:Hrr; [by left|right]. apply Hp. unfold proven. by rewrite Ht, Hrr. }
  unfold executed_result. destruct e as [e|].
  - destruct (Terminal (re_State r)); [rewrite andb_true_r|rewrite andb_false_r; auto]. destruct (negb _); auto.
  - destruct (Terminal (re_State r)); cbn [negb]; auto.
Qed.

Lemma poll_leaf w fuel id : ∀ hr h out, leaf (poll_host w fuel id hr) h out →
  match out with
  | inl (hr', e) => hr' = hr ∨ answered_state h (hs_State hr')
  | inr (Returned r e) => re_RecoveryRequired (executed_result r e) = true
  | inr (Settled _ _) => False
  end.
Proof.
  induction fuel as [|fuel IH]; intros hr h out; cbn [poll_host]; destruct (Terminal (hs_State hr)); try (intros [-> ->]; by left); [done|].
  intros (h1 & pe & h2 & -> & _ & Hl)%leaf_bind. destruct pe as [e|]; [destruct Hl as [-> ->]; by destruct e|].
  destruct Hl as (done & h3 & -> & Hl). cbn [run_bind] in Hl. destruct done; [by destruct Hl as [-> ->]|].
  destruct Hl as (a & h4 & -> & Hl). cbn in Hl. destruct (a.2) as [e|] eqn:Ha.
  - destruct Hl as [-> ->]. right. apply answered_app. right. apply answered_cons. right. apply answered_cons. by left.
  - apply IH in Hl. destruct out as [[hr' e]|[]]; [|done|done].
    right. apply answered_app. right. apply answered_cons. right. apply answered_cons. destruct Hl as [->|Hl]; [by left|by right].
Qed.

Lemma wait_leaf w fuel id : ∀ h out, leaf (waitWorker w fuel id) h out → concluded h out.1.
Proof.
  induction fuel as [|fuel IH]; intros h out; cbn [waitWorker]; intros (a & h1 & -> & Hl); cbn in Hl.
  all: destruct (a.2) as [e|] eqn:Ha; [destruct Hl as [-> ->]; right; apply answered_cons; by left|].
  all: destruct (Terminal (re_State a.1)); [destruct Hl as [-> ->]; right; apply answered_cons; by left|].
  { done. }
  apply leaf_bind in Hl as (h2 & pe & h3 & -> & _ & Hl). destruct pe as [e|]; [destruct Hl as [-> ->]; right; apply answered_cons; by left|].
  destruct Hl as (done & h4 & -> & Hl). cbn [run_bind] in Hl. apply concluded_cons, concluded_app, concluded_cons. destruct done.
  - destruct Hl as (? & h5 & -> & Hl). cbn in Hl. destruct Hl as [-> ->]. by left.
  - by apply IH.
Qed.

Lemma exports_state action revision hr out : re_State (host_exports Sum action revision hr out).1 = re_State out.1.
Proof.
  assert (∀ b f o, re_State (export_with b f revision hr o).1 = re_State o.1) as He.
  { intros b f o. unfold export_with. destruct (b && _); [|done]. by destruct (f _ _). }
  unfold host_exports. by rewrite !He.
Qed.

Lemma perform_leaf w fuel x h p : executionKind (ex_Action x) ≠ "local" → leaf (perform Sum w fuel x) h p →
  match p with
  | Settled r e => proven r = true → answered_state h (re_State r)
  | Returned r e => re_RecoveryRequired (executed_result r e) = true
  end.
Proof.
  intros Hk. unfold perform. destruct (String.eqb_spec (executionKind (ex_Action x)) "worker") as [Hw|Hw].
  { intros (a & h1 & -> & Hl). cbn in Hl. destruct (a.2) as [e|].
    - destruct Hl as [-> ->]. intros _. apply answered_cons. by left.
    - apply leaf_bind in Hl as (h2 & out & h3 & -> & Hl & [-> ->]). apply wait_leaf in Hl. rewrite app_nil_r.
      unfold proven. intros Hp. destruct Hl as [Hl|Hl]; [rewrite Hl, andb_false_r in Hp; done|]. apply answered_cons. by right. }
  destruct (String.eqb_spec (executionKind (ex_Action x)) "host") as [Hh|Hh].
  { intros (a & h1 & -> & Hl). cbn in Hl. destruct (a.2) as [e|].
    - destruct Hl as [-> ->]. destruct (String.eqb_spec (hs_State a.1) "failed") as [Hf|]; [|done].
      intros _. apply answered_cons. left. cbn. by rewrite Hf.
    - apply leaf_bind in Hl as (h2 & out & h3 & -> & Hl & Hout). apply poll_leaf in Hl. destruct out as [[hr e]|[]]; cbn in Hout; destruct Hout as [-> ->]; [|done|done].
      rewrite app_nil_r. intros _. rewrite exports_state. cbn. apply answered_cons. destruct Hl as [->|Hl]; [by left|by right]. }
  exfalso. revert Hk Hw Hh. unfold executionKind. destruct (_ || _); [done|]. by destruct (_ =s _).
Qed.

(** The answer that lets an execution dispatch. *)
Definition grants (i : event) : bool :=
  match projT1 i as e return answer e → bool with ABegin _ => is_granted | _ => λ _, false end (projT2 i).

Lemma harmless_grants h : Forall (λ i, harmless (projT1 i) = true) h → ∀ i, i ∈ h → grants i = false.
Proof. rewrite Forall_forall. intros Hh [e v] Hi. specialize (Hh _ Hi). by destruct e. Qed.

(** A history with a grant is the import, the grant, the effects and their conclusion. *)
Lemma granted_leaf w fuel x h out : leaf (Execute w fuel x) h out → (∃ i, i ∈ h ∧ grants i = true) →
  ∃ ref h1 p h2, h = ev AImport (Ok ref) :: ev (ABegin x) Granted :: h1 ++ h2 ++ [ev (ARelease (ex_ID x)) tt] ∧
    (precondition x "reference_revision" = "" ∨ precondition x "reference_revision" = ci_SourceRevision ref) ∧
    leaf (perform Sum w fuel x) h1 p ∧ leaf (finish_execution x p) h2 out.
Proof.
  intros (imported & h1 & -> & Hl) (i & Hi & Hg). apply elem_of_cons in Hi as [->|Hi]; [done|].
  cbn in Hl. destruct imported as [ref|e]; [|destruct Hl as [-> _]; by apply elem_of_nil in Hi].
  cbn in Hl. match type of Hl with leaf (if ?c then _ else _) _ _ => destruct c eqn:Hc end; [destruct Hl as [-> _]; by apply elem_of_nil in Hi|].
  destruct Hl as (begun & h2 & -> & Hl). cbn in Hl. destruct begun.
  - apply leaf_bind in Hl as (h3 & p & h4 & -> & Hp & Hl). apply leaf_bind in Hl as (h5 & out' & h6 & -> & Hf & Hl).
    destruct Hl as ([] & ? & -> & [-> ->]). exists ref, h3, p, h5. split_and!; [done| |done|done].
    apply andb_false_iff in Hc as [Hc|Hc]; apply negb_false_iff, String.eqb_eq in Hc; auto.
  - exfalso. apply elem_of_cons in Hi as [->|Hi]; [done|]. pose proof (harmless_grants _ (every_leaf _ _ _ _ (Inspect_quiet _) Hl) _ Hi). congruence.
  - exfalso. apply elem_of_cons in Hi as [->|Hi]; [done|]. destruct Hl as [-> _]. by apply elem_of_nil in Hi.
Qed.

(** C20: What a dispatched operation is recorded as is what an executor said: once an
    operation for the root helper or the build worker was granted its dispatch, whatever
    the calls, the progress callbacks and the writes of the record answered, the result
    the engine records either asks for recovery or carries a state that the executor
    itself answered during the run. *)
Theorem Execute_honest w fuel x h out :
  executionKind (ex_Action x) ≠ "local" → leaf (Execute w fuel x) h out → (∃ i, i ∈ h ∧ grants i = true) →
  re_RecoveryRequired (executed_result out.1 out.2) = true ∨ answered_state h (re_State (executed_result out.1 out.2)).
Proof.
  intros Hk Hl Hg. destruct (granted_leaf _ _ _ _ _ Hl Hg) as (ref & h1 & p & h2 & -> & _ & Hp & Hf).
  change (concluded (ev AImport (Ok ref) :: ev (ABegin x) Granted :: h1 ++ h2 ++ [ev (ARelease (ex_ID x)) tt]) (executed_result out.1 out.2)).
  apply concluded_cons, concluded_cons. apply perform_leaf in Hp; [|done]. destruct p as [r e|r e]; cbn in Hf; [|destruct Hf as [-> ->]; by left].
  destruct Hf as (saved & h7 & -> & Hf). cbn in Hf. destruct saved as [[]|se]; destruct Hf as [-> ->]; [|left; by destruct se].
  unfold concluded. destruct (executed_concluded h1 (adapter_outcome (executionKind (ex_Action x)) r e) e) as [Hc|Hc]; [|by left|right; auto with run].
  unfold adapter_outcome. destruct e as [e|]; [|done]. destruct (proven r) eqn:Hr; [auto|]. by rewrite (neqb_str _ _ Hk).
Qed.

(** ** Ending *)

(** The timer ticks of a history: 250 milliseconds each. *)
Definition ticks (h : list event) : nat :=
  length (List.filter (λ i, match projT1 i as e return answer e → bool with AWait => negb | _ => λ _, false end (projT2 i)) h).
Lemma ticks_app h1 h2 : ticks (h1 ++ h2) = (ticks h1 + ticks h2)%nat.
Proof. unfold ticks. by rewrite List.filter_app, length_app. Qed.

(** Methods without a polling loop never run out of fuel. *)
Lemma Inspect_total id : total (Inspect Sum id).
Proof. unfold Inspect. total. Qed.
Lemma inspectLocal_total x : total (inspectLocalExecution x).
Proof. unfold inspectLocalExecution. total. Qed.
Lemma InspectExecution_total x : total (InspectExecution x).
Proof. unfold Live.InspectExecution. pose proof inspectLocal_total x. total. Qed.
Lemma report_total w p : total (report w p).
Proof. unfold report. total. Qed.

Lemma ticks_cons i h : ticks (i :: h) = (ticks [i] + ticks h)%nat.
Proof. apply (ticks_app [i] h). Qed.
Lemma poll_starved w fuel id : ∀ hr h, starved (poll_host w fuel id hr) h → (fuel ≤ ticks h)%nat.
Proof.
  induction fuel as [|fuel IH]; intros hr h; [lia|]. cbn [poll_host]. destruct (Terminal (hs_State hr)); [done|].
  intros [Hs|(h1 & pe & h2 & -> & _ & Hs)]%starved_bind; [by apply total_starved in Hs; [|apply report_total]|].
  destruct pe as [e|]; [done|]. destruct Hs as (done & h3 & -> & Hs). cbn in Hs. destruct done; [done|].
  destruct Hs as (a & h4 & -> & Hs). cbn in Hs. destruct (a.2); [done|]. apply IH in Hs.
  rewrite ticks_app, ticks_cons, (ticks_cons (ev (AHostStatus id) a)). change (ticks [ev AWait false]) with 1%nat. lia.
Qed.
Lemma wait_starved w fuel id : ∀ h, starved (waitWorker w fuel id) h → (fuel ≤ ticks h)%nat.
Proof.
  induction fuel as [|fuel IH]; intros h; [lia|]. cbn [waitWorker]. intros (a & h1 & -> & Hs). cbn in Hs.
  destruct (a.2); [done|]. destruct (Terminal (re_State a.1)); [done|].
  apply starved_bind in Hs as [Hs|(h2 & pe & h3 & -> & _ & Hs)]; [by apply total_starved in Hs; [|apply report_total]|].
  destruct pe as [e|]; [done|]. destruct Hs as (done & h4 & -> & Hs). cbn in Hs. destruct done; [by destruct Hs as (? & ? & _ & [])|].
  apply IH in Hs. rewrite ticks_cons, ticks_app, (ticks_cons (ev AWait false)). change (ticks [ev AWait false]) with 1%nat. lia.
Qed.
Lemma finish_total x p : total (finish_execution x p).
Proof. unfold finish_execution. total. Qed.
Lemma local_total x : total (perform_local x).
Proof. unfold perform_local, local_effect. total. Qed.

(** An execution ends: the polling loops are the only unbounded part of [Execute], and
    whatever the executors answer, fuel for [fuel] polls runs out only after [fuel] timer
    ticks of 250 milliseconds without a terminal state and without the operation's context
    ending.  The inspections always end. *)
Theorem Execute_ends w fuel x :
  (∀ h, starved (Execute w fuel x) h → (fuel ≤ ticks h)%nat) ∧
  (∀ h, ¬ starved (InspectExecution x) h) ∧ (∀ h, ¬ starved (Inspect Sum (ex_ID x)) h).
Proof.
  split; [|split; [apply total_starved, InspectExecution_total|apply total_starved, Inspect_total]].
  intros h (imported & h1 & -> & Hs). cbn in Hs. destruct imported as [ref|e]; [|done]. cbn in Hs.
  match type of Hs with starved (if ?c then _ else _) _ => destruct c end; [done|].
  destruct Hs as (begun & h2 & -> & Hs). rewrite ticks_cons, (ticks_cons (ev (ABegin x) begun)). cbn in Hs. destruct begun; [|by apply total_starved in Hs; [|apply Inspect_total]|done].
  apply starved_bind in Hs as [Hs|(h3 & p & h4 & -> & _ & Hs)].
  - unfold perform in Hs. destruct (_ =s "worker"); [|destruct (_ =s "host")].
    + destruct Hs as (a & h3 & -> & Hs). cbn in Hs. destruct (a.2); [done|].
      apply starved_bind in Hs as [Hs|(? & ? & ? & -> & _ & Hs)]; [|done]. apply wait_starved in Hs. rewrite (ticks_cons (ev (AWorkerExecute _) a)). lia.
    + destruct Hs as (a & h3 & -> & Hs). cbn in Hs. destruct (a.2); [done|].
      apply starved_bind in Hs as [Hs|(? & out & ? & -> & _ & Hs)]; [|by destruct out as [[]|]]. apply poll_starved in Hs. rewrite (ticks_cons (ev (AHostExecute _) a)). lia.
    + by apply total_starved in Hs; [|apply local_total].
  - exfalso. apply starved_bind in Hs as [Hs|(? & ? & ? & -> & _ & Hs)]; [by apply total_starved in Hs; [|apply finish_total]|].
    by destruct Hs as (? & ? & _ & []).
Qed.

(** ** What an inspection may conclude *)

Lemma inspect_host_state action revision a : re_State (inspect_host Sum action revision a).1 = hs_State a.1.
Proof.
  assert (∀ b f o, re_State (inspect_with b f revision a.1 o).1 = re_State o.1) as He.
  { intros b f o. unfold inspect_with, export_with. destruct (o.2); [done|]. destruct (b && _); [|done]. by destruct (f _ _). }
  unfold inspect_host. by rewrite !He.
Qed.

(** Success of a local operation rests on the source or on a verification made now. *)
Definition local_evidence (x : Execution) (h : list event) (r : Result) : Prop :=
  (ex_Action x = "caches.configure" ∧ ∃ c, ev AReadConfig (Ok c) ∈ h ∧ cf_Revision c = ex_Revision x ∧ cf_Caches c = cf_Caches (pl_Desired (ex_Plan x)))
  ∨ ∃ m artifacts, ev (AFind (d_Model (pl_Draft (ex_Plan x)))) (Ok m) ∈ h ∧ ev (AVerify m) (Ok artifacts) ∈ h ∧ re_Artifacts r = artifacts.

Lemma inspectLocal_leaf x h out : leaf (inspectLocalExecution x) h out → out.2 = None → re_State out.1 = "succeeded" → local_evidence x h out.1.
Proof.
  unfold inspectLocalExecution. destruct (String.eqb_spec (ex_Action x) "caches.configure") as [Hc|Hc].
  { intros (c & h1 & -> & Hl). cbn in Hl. destruct Hl as [-> ->]. destruct c as [c|]; [|done].
    destruct (String.eqb_spec (cf_Revision c) (ex_Revision x)) as [Hr|]; [|done]. destruct (bool_decide_reflect (cf_Caches c = cf_Caches (pl_Desired (ex_Plan x)))) as [Hb|]; [|done].
    intros _ _. left. split; [done|]. exists c. split; [by left|done]. }
  destruct (_ && _); [by intros [-> ->]|]. intros (stager & h1 & -> & Hl). cbn in Hl. destruct stager; [|by destruct Hl as [-> ->]].
  destruct Hl as (found & h2 & -> & Hl). cbn in Hl. destruct found as [m|]; [|by destruct Hl as [-> ->]].
  apply leaf_bind in Hl as (h3 & drifted & h4 & -> & _ & Hl). destruct drifted; [by destruct Hl as [-> ->]|].
  destruct Hl as (verified & h5 & -> & Hl). cbn in Hl. destruct verified as [artifacts|].
  - destruct Hl as [-> ->]. intros _ _. right. exists m, artifacts. split_and!; [set_solver..|done].
  - destruct Hl as (content & h6 & -> & Hl). cbn in Hl. destruct (is_ok content); [by destruct Hl as [-> ->]|].
    destruct Hl as (present & h7 & -> & Hl). cbn in Hl. destruct present as [[]|]; by destruct Hl as [-> ->].
Qed.

(** A recovery probe changes nothing and concludes only for the original execution:
    it makes no effect and no write, it answers without error for a helper or worker
    operation only when the record on disk carries this execution's hash and kind, and
    then its state is the executor's own or the refusal recorded at dispatch; and it calls
    a local operation succeeded only on the source it read, or on a verification of the
    selected model, made by this probe. *)
Theorem InspectExecution_bound x h out : leaf (InspectExecution x) h out →
  Forall (λ i, harmless (projT1 i) = true) h ∧
  (out.2 = None →
     identity_ok (ex_ID x) = true ∧
     if executionKind (ex_Action x) =s "local" then re_State out.1 = "succeeded" → local_evidence x h out.1
     else ∃ active r, ev (ALookup (ex_ID x)) (active, Some (Dispatched r)) ∈ h ∧
       dp_Hash r = execution_hash x ∧ dp_Kind r = executionKind (ex_Action x) ∧
       (out.1 = dp_Result r ∧ refused_by_executor (dp_Result r) = true ∨ answered_state h (re_State out.1))).
Proof.
  intros Hl. split; [exact (every_leaf _ _ _ _ (InspectExecution_quiet _) Hl)|]. revert Hl. unfold Live.InspectExecution.
  destruct (identity_ok (ex_ID x)); [|by intros [-> ->]]. intros (found & h1 & -> & Hl) He. split; [done|]. cbn in Hl.
  destruct (String.eqb_spec (executionKind (ex_Action x)) "local") as [Hk|Hk].
  - intros Hs. assert (fst found = false → leaf (inspectLocalExecution x) h1 out → local_evidence x (ev (ALookup (ex_ID x)) found :: h1) out.1) as Hloc.
    { intros _ Hi. destruct (inspectLocal_leaf _ _ _ Hi He Hs) as [(? & c & ? & ?)|(m & a & ? & ? & ?)]; [left|right]; [split; [done|]; exists c|exists m, a]; set_solver. }
    destruct found as [[] [[| |r]|]]; cbn in Hl, Hloc; try (by destruct Hl as [-> ->]); [|by apply Hloc].
    repeat match type of Hl with leaf (if ?c then _ else _) _ _ => destruct c end; try (by destruct Hl as [-> ->]). by apply Hloc.
  - rewrite andb_false_r in Hl. destruct found as [active [[| |r]|]]; cbn in Hl; try (by destruct Hl as [-> ->]).
    match type of Hl with leaf (if ?c then _ else _) _ _ => destruct c eqn:Hb; [by destruct Hl as [-> ->]|] end.
    apply orb_false_iff in Hb as [[_ Hh]%orb_false_iff Hd]. apply negb_false_iff, String.eqb_eq in Hh, Hd.
    exists active, r. split; [by left|]. split; [done|]. split; [done|].
    do 2 (match type of Hl with leaf (if ?c then _ else _) _ _ => destruct c; [by destruct Hl as [-> ->]|] end).
    destruct (_ =s "worker"); [destruct Hl as (a & h2 & -> & [-> ->]); right; apply answered_cons; right; apply answered_cons; by left|].
    destruct (refused_by_executor (dp_Result r)); [destruct Hl as [-> ->]; by left|].
    destruct Hl as (a & h2 & -> & [-> ->]). right. rewrite inspect_host_state. apply answered_cons. right. apply answered_cons. by left.
Qed.

(** A helper's operation whose status request is refused is recorded as failed: the refusal
    is a result in state failed, which the polling loop takes for the operation's own.  The
    helper accepted the operation in state [hs_State hr] and never said that it ended. *)
Theorem refused_status_recorded_failed fuel x socket hr code message ref :
  executionKind (ex_Action x) = "host" → precondition x "reference_revision" = "" → socket ≠ "" → validID (ex_ID x) = true → 400 ≤ code →
  Terminal (hs_State hr) = false →
  let refusal := host_Status socket (ex_ID x) (answered (refuse_with code message)) in
  let r := mkResult "failed" "" message false [] in
  ∃ e, leaf (Execute false (S fuel) x)
    [ev AImport (Ok ref); ev (ABegin x) Granted; ev (AHostExecute (host_request x)) (hr, None); ev AWait false;
     ev (AHostStatus (ex_ID x)) refusal; ev (AConclude x r) (Ok tt); ev (ARelease (ex_ID x)) tt] (r, Some e) ∧
    executed_result r (Some e) = r.
Proof.
  intros Hk Hp Hs Hv Hc Ht refusal r. exists (Plain ("host executor: " +:+ message)).
  assert (refusal = (failure_body message, Some (Plain ("host executor: " +:+ message)))) as ->.
  { unfold refusal, host_Status. rewrite Hv. by apply refuse_with_failed. }
  split; [|done]. unfold Live.Execute. eexists _, _. split; [done|]. cbn. rewrite Hp. cbn. eexists _, _. split; [done|]. cbn.
  apply leaf_bind. unfold perform. rewrite Hk. cbn.
  exists [ev (AHostExecute (host_request x)) (hr, None); ev AWait false; ev (AHostStatus (ex_ID x)) (failure_body message, Some (Plain ("host executor: " +:+ message)))],
    (Settled r (Some (Plain ("host executor: " +:+ message)))), [ev (AConclude x r) (Ok tt); ev (ARelease (ex_ID x)) tt].
  split; [done|]. split.
  - eexists _, _. split; [done|]. cbn. rewrite Ht. cbn. eexists _, _. split; [done|]. eexists _, _. split; [done|]. cbn. split; [done|].
    unfold host_exports, export_with. cbn. by rewrite !andb_false_r.
  - cbn. eexists _, _. split; [done|]. cbn. eexists _, _. split; [done|]. done.
Qed.
End Dispatch.

(** ** Concrete runs *)

Module DispatchFixture.
#[export] Existing Instance render_hash.
#[export] Instance no_text : JSONText := λ _, None.
#[export] Instance no_render : JSONRender := λ _, "".
#[export] Instance no_members : RawMembers := λ _, None.
#[export] Instance no_time : TimeText := λ _, None.

Definition execution (action : string) : Execution :=
  mkExecution "op-000001" "u" (mkPlan "p" "u" (mkDraft action "ws" "" "" "" "" "" None None None None None) DomainFixture.config Preview0 0 0 "").
Definition ended : HostResult := mkHostResult "op-000001" "succeeded" "completed" "" None.
Definition recorded_dispatch : dispatch := intent_record (execution "profile.switch").
(** The helper finishes at once; everything else is refused or absent. *)
Definition oracle (e : Act) : answer e :=
  match e with
  | AImport => Ok (mkCatalogInventory [] "" "r" ∅)
  | ABegin _ => Granted
  | AConclude _ _ => Ok tt
  | ALookup _ => (false, Some (Dispatched recorded_dispatch))
  | AHostExecute _ | AHostStatus _ => (ended, None)
  | AWorkerExecute _ | AWorkerStatus _ => (Result0, Some (Plain "down"))
  | AFind _ | AReadConfig | AStage _ | AVerify _ | AVerifyContent _ | APresent _ => Err (Plain "absent")
  | AStager | AWait => true
  | AReport _ => None
  | ARelease _ | AWorkerCancel _ | ASetBudget _ => tt
  end.
Definition switched := play oracle (Execute (λ _, "") true 3 (execution "profile.switch")).
Definition probed := play oracle (InspectExecution (λ _, "") (execution "profile.switch")).
End DispatchFixture.

Import DispatchFixture.

Lemma Execute_honest_witness :
  ∃ h out, switched = Some (h, out) ∧
    (re_RecoveryRequired (executed_result out.1 out.2) = true ∨ answered_state h (re_State (executed_result out.1 out.2))).
Proof.
  destruct switched as [[h out]|] eqn:E; [|exfalso; vm_compute in E; discriminate].
  exists h, out. split; [done|].
  refine (Execute_honest (λ _, "") true 3 (execution "profile.switch") h out _ (play_leaf oracle _ h out E) _).
  - vm_compute. discriminate.
  - assert (existsb grants h = true) as Hg.
    { replace h with (default [] (fst <$> switched)) by (by rewrite E). vm_compute. reflexivity. }
    apply existsb_exists in Hg as (i & Hi & Hg). exists i. split; [by apply list_elem_of_In|done].
Defined.

Lemma InspectExecution_bound_witness :
  ∃ h out, probed = Some (h, out) ∧ out.2 = None ∧ Forall (λ i, harmless (projT1 i) = true) h.
Proof.
  destruct probed as [[h out]|] eqn:E; [|exfalso; vm_compute in E; discriminate].
  exists h, out. split; [done|]. split.
  - replace (out.2) with (default (Some err_absent) ((snd ∘ snd) <$> probed)) by (by rewrite E). vm_compute. reflexivity.
  - exact (proj1 (InspectExecution_bound (λ _, "") "/s" (execution "profile.switch") h out (play_leaf oracle _ h out E))).
Defined.

Definition stocked : list CatalogModel := [mkCatalogModel "" "Qwen/Qwen3.5-9B" "0123" "apache-2.0" "" [] 0 0 0 ""].
Definition staging : Execution :=
  mkExecution "op-000001" "u" (mkPlan "p" "u" (mkDraft "model.stage" "ws" "" "Qwen3.5-9B" "" "" "" None None None None None) DomainFixture.config Preview0 0 0 "").
Lemma advance lv lv' log x e k p v :
  live_reachable (λ _, "") "/s" stocked (mkSystem lv [mkCall x (Do e k) p] log) → respond "/s" stocked e lv v lv' →
  live_reachable (λ _, "") "/s" stocked (mkSystem lv' [mkCall x (k v) (next_phase e v p)] (if dispatches e then log ++ [(x, e)] else log)).
Proof. intros Hr Hv. eapply reach_step; [exact Hr|]. by apply (step_act _ _ _ (mkSystem lv [mkCall x (Do e k) p] log) [] [] (mkCall x (Do e k) p) e k v lv'). Qed.

