(* ===== verification/Api.v ===== *)
(** The management API ([internal/api]): routing, every handler over the engine and the
    store, and the response each gives.

    One request is one activation: [World] is what it may change, [Answers] what the
    environment answers it (clocks, write outcomes, fresh identifiers, the adapter, the
    optional evidence adapters, the advisor).  The static pages, the response encoder and
    the telemetry spans of [observe] are outside the model. *)
From S2P Require Import Prelude Json Types Domain Recovery Store Auth Source Engine Safefile Config Wire Evidence Http.
From stdpp Require Import sorting pretty.
#[local] Open Scope Z_scope.

(** ** Responses *)

Record Usage := mkUsage { us_InputTokens : Z; us_OutputTokens : Z; us_TotalTokens : Z }.
(** [advisor.Result]. *)
Record AdvisorResult := mkAdvisorResult {
  ar_SessionID : string;
  ar_Summary : string;
  ar_ToolCalls : Z;
  ar_ToolFailures : Z;
  ar_Usage : option Usage;
  ar_UsageProvisional : bool;
  ar_UsageSource : string;
  ar_CreationUncertain : bool;
  ar_CancellationRequested : bool;
  ar_CancellationAccepted : bool }.

Record BundleFile := mkBundleFile { bf_Path : string; bf_Content : string; bf_SHA256 : string }.
Record Bundle := mkBundle { bn_Harness : string; bn_Revision : string; bn_Files : list BundleFile; bn_Limitations : list string }.
Record TelemetryState := mkTelemetryState { ts_State : string; ts_ObservedAt : option time; ts_Reason : string }.
Record TelemetryValue := mkTelemetryValue {
  tv_Name : string; tv_Unit : string; tv_State : string; tv_Value : option float64; tv_ObservedAt : option time; tv_Reason : string }.
Record TelemetrySummary := mkTelemetrySummary {
  tm_ObservedAt : time; tm_Mode : string; tm_MutationStorageAvailable : bool; tm_Operations : TelemetryOperations;
  tm_MetricsExport : TelemetryState; tm_TracesExport : TelemetryState; tm_Backend : TelemetryState; tm_Values : list TelemetryValue }.

Inductive Payload :=
| PError (code message : string)
| PLive (mode : string) (healthy : bool)
| PSession (a : Actor) (csrf : string) (expires : time) (mode : string)
| PInventory (i : Inventory)
| PModels (l : list Model)
| PHardware (h : Hardware)
| PRecipes (l : list Recipe)
| PCaches (l : list Cache)
| PHarnesses (l : list Harness)
| PProfiles (available : bool) (reason : string)
| PConfiguration (c : Configuration)
| PPlan (p : Plan)
| POperation (o : Operation)
| POperations (l : list Operation)
| PBundle (b : Bundle)
| PCredentials (l : list CredentialInfo)
| PAudit (l : list Audit)
| PState (fields : list (string * string))
| PMemory (l : list MemorySummary)
| PMemorySummary (s : MemorySummary)
| PPerformanceSummary (s : PerformanceSummary)
| PArtifact (a : Artifact)
| PAdvice (r : AdvisorResult) (p : option Plan)
| PTelemetry (s : TelemetrySummary)
| PWeb.

Record Cookie := mkCookie { ck_Name : string; ck_Value : string; ck_Path : string; ck_HttpOnly : bool; ck_Secure : bool; ck_Strict : bool; ck_MaxAge : Z }.
Record Response := mkResponse { rs_Status : Z; rs_Header : list (string * string); rs_Cookies : list Cookie; rs_Payload : Payload }.

Definition reply (status : Z) (p : Payload) : Response := mkResponse status [] [] p.
(** [Server.fail] after the headers [h]. *)
Definition refuse (h : list (string * string)) (e : error) : Response :=
  let '(status, code, message) := fail e in mkResponse status h [] (PError code message).

(** ** The environment *)

Record MemoryAdapter := mkMemoryAdapter {
  ma_Preview : Draft → Configuration → result MemorySummary;
  ma_Artifact : string → string → result Artifact }.
Record PerformanceAdapter := mkPerformanceAdapter {
  pa_Preview : Draft → Configuration → result PerformanceSummary;
  pa_Artifact : string → string → result Artifact }.

(** One run of [Advisor.Advise]: the tools it calls, each with what the environment
    answers during the call and an identifier for a plan, and what it returns. *)
Inductive AdviceRun :=
| Advised (r : AdvisorResult) (err : option error)
| ToolCall (name : string) (ev : Env) (clk : clock) (id : string) (k : result JSON → AdviceRun).

Record Answers := mkAnswers {
  an_auth : clock;
  an_env : Env;
  an_stopping : bool;
  an_id : nat → string;
  an_export : string → result Bundle;
  an_memory : option MemoryAdapter;
  an_performance : option PerformanceAdapter;
  an_advisor : option AdviceRun;
  an_telemetry : TelemetryState * TelemetryState * (TelemetryState * list TelemetryValue) }.

Record World := mkWorld { wd_db : Store; wd_limiter : Limiter }.

(** ** Routes *)

Inductive Endpoint :=
| E_session | E_logout | E_inventory | E_telemetrySummary | E_memoryEvidence | E_memoryPreview | E_memoryArtifact
| E_memoryAdvice | E_memoryInspect | E_performancePreview | E_performanceArtifact | E_performanceInspect
| E_profiles | E_configuration | E_plan | E_getPlan | E_apply | E_operations | E_cancel | E_recover | E_export
| E_credentials | E_revoke | E_audit.

Definition v1 (l : list string) : list string := "api" :: "v1" :: l.
(** The routes [New] registers behind [authenticate]. *)
Definition routes : list (string * list string * Endpoint) := [
  ("GET", v1 ["auth"; "session"], E_session);
  ("POST", v1 ["auth"; "logout"], E_logout);
  ("GET", v1 ["status"], E_inventory);
  ("GET", v1 ["telemetry"; "summary"], E_telemetrySummary);
  ("GET", v1 ["memory"], E_memoryEvidence);
  ("POST", v1 ["memory"; "preview"], E_memoryPreview);
  ("POST", v1 ["memory"; "artifact"], E_memoryArtifact);
  ("POST", v1 ["memory"; "advice"], E_memoryAdvice);
  ("POST", v1 ["memory"; "inspect"], E_memoryInspect);
  ("POST", v1 ["performance"; "preview"], E_performancePreview);
  ("POST", v1 ["performance"; "artifact"], E_performanceArtifact);
  ("POST", v1 ["performance"; "inspect"], E_performanceInspect);
  ("GET", v1 ["models"], E_inventory);
  ("GET", v1 ["resources"], E_inventory);
  ("GET", v1 ["builds"], E_inventory);
  ("GET", v1 ["caches"], E_inventory);
  ("GET", v1 ["harnesses"], E_inventory);
  ("GET", v1 ["profiles"], E_profiles);
  ("GET", v1 ["config"], E_configuration);
  ("GET", v1 ["config"; "export"], E_configuration);
  ("POST", v1 ["plans"], E_plan);
  ("GET", v1 ["plans"; "{id}"], E_getPlan);
  ("POST", v1 ["operations"], E_apply);
  ("GET", v1 ["operations"], E_operations);
  ("GET", v1 ["operations"; "{id}"], E_operations);
  ("POST", v1 ["operations"; "{id}"; "cancel"], E_cancel);
  ("POST", v1 ["operations"; "{id}"; "recover"], E_recover);
  ("GET", v1 ["harnesses"; "{id}"; "export"], E_export);
  ("GET", v1 ["credentials"], E_credentials);
  ("POST", v1 ["credentials"; "{id}"; "revoke"], E_revoke);
  ("GET", v1 ["audit"], E_audit)].

(** The value of [{id}] when the segments match the pattern. *)
Fixpoint match_pattern (pat segs : list string) (id : string) : option string :=
  match pat, segs with
  | [], [] => Some id
  | p :: pat, s :: segs =>
    if p =s "{id}" then (if s =s "" then None else match_pattern pat segs s)
    else if p =s s then match_pattern pat segs id else None
  | _, _ => None
  end.
(** A [GET] route also serves [HEAD]. *)
Definition match_method (m method : string) : bool := (m =s method) || ((m =s "GET") && (method =s "HEAD")).

Fixpoint find_route (method : string) (segs : list string) (l : list (string * list string * Endpoint)) : option (Endpoint * string) :=
  match l with
  | [] => None
  | (m, pat, e) :: l =>
    if match_method m method then
      match match_pattern pat segs "" with Some id => Some (e, id) | None => find_route method segs l end
    else find_route method segs l
  end.

(** ** Handlers *)

Section Api.
Context `{NetParse} `{TokenHash} `{Sha256} `{Encoding} `{JSONText} `{JSONRender}.
(** [Server.Config], [Engine.Target], [Engine.Depth]. *)
Context (cfg : Config) (Target : string) (Depth : Z).

Definition answer (r : result Response) : Response := match r with Ok r => r | Err e => refuse [] e end.
(** The end of a mutating handler, and its checks before the mutation. *)
Definition conclude {A} (x : Store * result A) (k : A → Response) : Store * Response :=
  match x with (db, Ok a) => (db, k a) | (db, Err e) => (db, refuse [] e) end.
Definition checked {A} (db : Store) (r : result A) (k : A → Store * Response) : Store * Response :=
  match r with Ok a => k a | Err e => (db, refuse [] e) end.

Definition owner (a : Actor) : result unit :=
  reject a_Role a <>s "owner" with Failure "forbidden" "owner role required" ;; Ok tt.
Definition decode_body {A} (shape : decoder A) (zero : A) (r : HttpRequest) : result A := read_body (2^20) (λ v, shape v zero) r.
Definition no_query (r : HttpRequest) (message : string) : result unit :=
  reject (rq_RawQuery r <>s "") || rq_ForceQuery r with Failure "invalid" message ;; Ok tt.

(** *** Sessions and credentials *)

Definition secure_origin : bool := has_prefix (co_ExternalURL cfg) "https:".
Definition sessionCookie (now : time) (token : string) (expires : time) : Cookie :=
  mkCookie (BrowserSessionCookieName cfg) token "/" true secure_origin true (Z.quot (time_sub expires now) Second).
Definition expireSessionCookie (name : string) : Cookie := mkCookie name "" "/" true secure_origin true (-1).

Definition login (an : Answers) (r : HttpRequest) (w : World) : World * Response :=
  if negb (BrowserSessionsEnabled cfg)
  then (w, refuse [] (Failure "browser_disabled" "live browser management requires an explicitly configured dedicated trusted HTTPS management identity"))
  else if header r "Origin" <>s co_ExternalURL cfg
  then (w, refuse [] (Failure "forbidden" "browser login requires the configured same origin"))
  else
    let '(l, over) := limited (an_auth an 0%nat) r (wd_limiter w) in
    if over
    then (mkWorld (wd_db w) l, refuse [("Retry-After", "60")] (Failure "rate_limited" "authentication attempts limited; retry after one minute"))
    else match read_body 4096 (λ v, dec_string1 "credential" v "") r with
    | Err e => (mkWorld (wd_db w) l, refuse [] e)
    | Ok credential =>
      let ev := an_env an in
      let '(db, res) := Login (ev_clk ev 0%nat) (ev_write ev 0%nat) (an_id an 0%nat) (an_id an 1%nat) credential (BrowserSessionPurpose cfg) (wd_db w) in
      (mkWorld db l,
       match res with
       | Err e => refuse [] e
       | Ok (a, token, session) =>
         mkResponse 200 [] [sessionCookie (ev_clk ev 1%nat 0%nat) token (se_ExpiresAt session)]
           (PSession a (se_CSRF session) (se_ExpiresAt session) (co_Mode cfg))
       end)
    end.

Definition session (an : Answers) (a : Actor) (r : HttpRequest) (db : Store) : Response :=
  let '(csrf, expires) :=
    match rq_Cookie r !! BrowserSessionCookieName cfg with
    | None => ("", zeroTime)
    | Some token =>
      match SessionActor (ev_clk (an_env an) 0%nat) (AuthState db) token (BrowserSessionPurpose cfg) with
      | Ok (_, session) => (se_CSRF session, se_ExpiresAt session)
      | Err _ => ("", zeroTime)
      end
    end in
  reply 200 (PSession a csrf expires (co_Mode cfg)).

Definition logout (an : Answers) (a : Actor) (r : HttpRequest) (db : Store) : Store * Response :=
  let out := mkResponse 200 [] [expireSessionCookie (BrowserSessionCookieName cfg); expireSessionCookie "bridge_session"] (PState [("state", "logged-out")]) in
  match rq_Cookie r !! BrowserSessionCookieName cfg with
  | None => (db, out)
  | Some token => conclude (Update (ev_clk (an_env an) 0%nat) (ev_write (an_env an) 0%nat) (logout_tx a token) db) (λ _, out)
  end.

Definition credentials (a : Actor) (db : Store) : Response :=
  answer (_ ← owner a; Ok (reply 200 (PCredentials ((λ kv : string * Credential, Info kv.2) <$> map_to_list (s_Credentials (AuthState db)))))).

Definition revoke (an : Answers) (a : Actor) (r : HttpRequest) (id : string) (db : Store) : Store * Response :=
  checked db (_ ← owner a; decode_body dec_empty tt r) (λ _,
    conclude (api_revoke (ev_clk (an_env an) 0%nat) (ev_write (an_env an) 0%nat) a id db)
      (λ _, reply 200 (PState [("id", id); ("state", "revoked")]))).

Definition audit (a : Actor) (db : Store) : Response := answer (_ ← owner a; Ok (reply 200 (PAudit (AuditRecords db)))).

(** *** Inventory and source *)

Definition inventory (an : Answers) (r : HttpRequest) : Response :=
  answer (inv ← ad_Snapshot (ev_adapter (an_env an));
    let p := rq_Path r in
    Ok (reply 200
      (if p =s "/api/v1/models" then PModels (in_Models inv)
       else if p =s "/api/v1/resources" then PHardware (in_Hardware inv)
       else if p =s "/api/v1/builds" then PRecipes (in_Recipes inv)
       else if p =s "/api/v1/caches" then PCaches (in_Caches inv)
       else if p =s "/api/v1/harnesses" then PHarnesses (in_Harnesses inv)
       else PInventory inv))).

Definition profiles (an : Answers) : Response :=
  match ad_Snapshot (ev_adapter (an_env an)) with
  | Err _ => refuse [] (Failure "unavailable" "profile inventory is unavailable; inspect reference and helper dependencies")
  | Ok inv =>
    reply 200 (PProfiles (in_ClusterAvailable inv)
      (if in_ClusterAvailable inv then "dependency checks passed; exact qualification and mutable handover gates are checked during execution"
       else in_ClusterMessage inv))
  end.

Definition quote (s : string) : string := String "034" (s +:+ String "034" "").

Definition configuration (r : HttpRequest) (src : SourceFile) : Response :=
  answer (c ← Read src;
    Ok (mkResponse 200
          (("ETag", quote (cf_Revision c)) ::
           (if has_suffix (rq_Path r) "/export" then [("Content-Disposition", "attachment; filename=" +:+ quote "managed-source.json")] else []))
          [] (PConfiguration c))).

Definition export (an : Answers) (id : string) : Response :=
  answer (b ← an_export an id;
    Ok (mkResponse 200 [("Content-Disposition", "attachment; filename=" +:+ quote "client-bundle.json")] [] (PBundle b))).

(** *** Plans and operations *)

Definition plan (an : Answers) (a : Actor) (r : HttpRequest) (src : SourceFile) (db : Store) : Store * Response :=
  let ev := an_env an in
  checked db (decode_body dec_Draft Draft0 r) (λ d,
    conclude (CreatePlan Target (ev_clk ev 1%nat) (ev_clk ev 2%nat) (ev_write ev 2%nat) (an_id an 0%nat) (ev_adapter ev) a d src db)
      (λ p, reply 201 (PPlan p))).

Definition getPlan (a : Actor) (id : string) (db : Store) : Response :=
  match st_Plan db id with
  | None => refuse [] (Failure "not_found" "plan not found")
  | Some p => answer (_ ← (if EvidenceAction (d_Action (pl_Draft p)) then owner a else Ok tt); Ok (reply 200 (PPlan p)))
  end.

Definition apply (an : Answers) (a : Actor) (r : HttpRequest) (db : Store) : Store * Response :=
  let ev := an_env an in
  checked db (decode_body (dec_string2 "plan_id" "target") ("", "") r) (λ input,
    conclude (Apply Target Depth (ev_clk ev 0%nat) (ev_write ev 0%nat) (an_stopping an) (an_id an 0%nat) a input.1 input.2 (header r "Idempotency-Key") db)
      (λ op, mkResponse 202 [("Location", "/api/v1/operations/" +:+ op_ID op)] [] (POperation op))).

(** [Engine.Operations]: newest first. *)
Definition newer (o o' : Operation) : Prop := op_CreatedAt o' ≤ op_CreatedAt o.
#[export] Instance newer_dec o o' : Decision (newer o o').
Proof. unfold newer. apply _. Defined.
Definition Operations (db : Store) : list Operation := merge_sort newer ((map_to_list (OperationRecords db)).*2).

(** [strconv.FormatUint]. *)
Definition etag (revision : Z) : string := quote (pretty (Z.to_N revision)).

Definition operations (a : Actor) (id : string) (db : Store) : Response :=
  if id <>s "" then
    match engine_Operation db id with
    | Err e => refuse [] e
    | Ok o =>
      let h := [("ETag", etag (op_Revision o))] in
      if EvidenceAction (d_Action (pl_Draft (op_Plan o))) && (a_Role a <>s "owner")
      then refuse h (Failure "forbidden" "owner role required")
      else mkResponse 200 h [] (POperation o)
    end
  else reply 200 (POperations
    (if a_Role a <>s "owner"
     then filter (λ o, EvidenceAction (d_Action (pl_Draft (op_Plan o))) = false) (Operations db)
     else Operations db)).

(** [strings.Trim(s, quote)]. *)
Definition trim_quotes : string → string := trim_by (Ascii.eqb "034").

(** The revision [If-Match] names; zero when the header is absent. *)
Definition if_match (r : HttpRequest) : result Z :=
  let match_ := header r "If-Match" in
  rev ← (if match_ =s "" then Ok 0
         else match ParseUint (trim_quotes match_) with
              | None => Err (Failure "invalid" "invalid operation revision")
              | Some rev => Ok rev
              end);
  reject rev =? 0 with Failure "conflict" "If-Match with the observed operation revision is required" ;; Ok rev.

Definition cancel (an : Answers) (a : Actor) (r : HttpRequest) (id : string) (db : Store) : Store * Response :=
  checked db (_ ← decode_body dec_empty tt r; if_match r) (λ rev,
    conclude (Engine.Cancel (ev_clk (an_env an) 0%nat) (ev_write (an_env an) 0%nat) a id rev db) (λ o, reply 202 (POperation o))).

Definition recover (an : Answers) (a : Actor) (r : HttpRequest) (id : string) (src : SourceFile) (db : Store) : Store * Response :=
  checked db (decode_body dec_empty tt r) (λ _,
    conclude (Recover Target (an_env an) (an_id an 0%nat) a id src db) (λ p, reply 201 (PPlan p))).

(** *** Evidence *)

(** The summary of one memory operation: what its summary artifact decodes to (each one
    that decodes is reported), else what its record says. *)
Definition memory_summaries (o : Operation) : list MemorySummary :=
  let found := omap (λ a,
    if ar_Name a =s "memory-summary.json"
    then match Decode (λ v, dec_MemorySummary v MemorySummary0) (json_docs (ar_Content a)) with Ok v => Some v | Err _ => None end
    else None) (op_Artifacts o) in
  match found with
  | [] =>
    let digest := match d_Memory (pl_Draft (op_Plan o)) with Some m => mr_EvidenceSHA256 m | None => "" end in
    [mkMemorySummary (op_ID o) digest "incomplete" ("operation_" +:+ op_State o) 0 0 0 0 0 0 "" 0 ∅ 0 0 0 0 0 0 0 [] ∅ [] []]
  | _ => found
  end.

Definition memoryEvidence (a : Actor) (r : HttpRequest) (db : Store) : Response :=
  answer (_ ← owner a; _ ← no_query r "memory evidence accepts no query";
    Ok (reply 200 (PMemory (flat_map memory_summaries
          (filter (λ o, MemoryAction (d_Action (pl_Draft (op_Plan o))) = true) (Operations db)))))).

Definition here : Inventory := set_in_Target Target Inventory0.

Definition memoryPreview (an : Answers) (a : Actor) (r : HttpRequest) (src : SourceFile) : Response :=
  answer (_ ← owner a; d ← decode_body dec_Draft Draft0 r; c ← Read src;
    reject negb (MemoryAction (d_Action d)) with Failure "invalid" "memory preview requires a memory operation" ;;
    _ ← ValidateDraft (ev_clk (an_env an) 0%nat) d c here;
    match an_memory an with
    | None => Err (Failure "unavailable" "memory adapter unavailable")
    | Some ma =>
      match ma_Preview ma d c with
      | Err (Plain m) | Err (Failure _ m) => Err (Failure "invalid" m)
      | Ok v => Ok (reply 200 (PMemorySummary v))
      end
    end).

Definition memoryArtifact (an : Answers) (a : Actor) (r : HttpRequest) (db : Store) : Response :=
  answer (_ ← owner a; request ← decode_body (dec_string2 "operation_id" "name") ("", "") r;
    o ← engine_Operation db request.1;
    reject (d_Action (pl_Draft (op_Plan o)) <>s "memory.plan.export") || (op_State o <>s "succeeded")
      with Failure "conflict" "private memory export requires a completed plan operation" ;;
    match an_memory an with
    | None => Err (Failure "unavailable" "memory artifact adapter unavailable")
    | Some ma =>
      match ma_Artifact ma request.1 request.2 with
      | Err (Plain m) | Err (Failure _ m) => Err (Failure "conflict" m)
      | Ok artifact => Ok (reply 200 (PArtifact artifact))
      end
    end).

Definition memoryInspect (an : Answers) (a : Actor) (r : HttpRequest) (db : Store) : Store * Response :=
  checked db (_ ← owner a; decode_body (dec_string1 "operation_id") "" r) (λ id,
    conclude (InspectMemory (an_env an) a id db) (λ o, reply 200 (POperation o))).

Definition performanceOperationID : string → bool := hex_string 32.

Definition performancePreview (an : Answers) (a : Actor) (r : HttpRequest) (src : SourceFile) : Response :=
  answer (_ ← owner a; d ← decode_body dec_Draft Draft0 r; c ← Read src;
    reject negb (PerformanceAction (d_Action d))
      with Failure "invalid" "performance preview requires performance.export or performance.profile.select" ;;
    _ ← ValidateDraft (ev_clk (an_env an) 0%nat) d c here;
    match an_performance an with
    | None => Err (Failure "unavailable" "performance adapter unavailable")
    | Some pa =>
      match pa_Preview pa d c with
      | Err (Plain m) | Err (Failure _ m) => Err (Failure "invalid" m)
      | Ok s =>
        let p := default PerformanceRequest0 (d_Performance d) in
        reject (ps_Kind s <>s pr_Kind p) || (ps_SHA256 s <>s pr_EvidenceSHA256 p)
          with Failure "conflict" "performance preview identity changed" ;;
        Ok (reply 200 (PPerformanceSummary
          (mkPerformanceSummary (ps_Schema s) (pr_EvidenceID p) (ps_SHA256 s) (ps_Kind s) (ps_Status s) (ps_Reason s)
             (ps_ObservedAt s) (ps_Fields s) (ps_Limitations s) (ps_Preconditions s) (ps_Artifacts s))))
      end
    end).

Definition same_artifact (a e : Artifact) : bool :=
  (ar_Name a =s ar_Name e) && (ar_SHA256 a =s ar_SHA256 e) && (ar_Size a =? ar_Size e)
  && (ar_SourceRevision a =s ar_SourceRevision e) && (ar_Qualification a =s ar_Qualification e).

Definition performanceArtifact (an : Answers) (a : Actor) (r : HttpRequest) (db : Store) : Response :=
  answer (_ ← owner a; request ← decode_body (dec_string2 "operation_id" "name") ("", "") r;
    reject negb (performanceOperationID request.1) || (request.2 =s "") || (str_len request.2 >? 240)
      with Failure "invalid" "performance artifact requires an operation ID and exact artifact name" ;;
    o ← engine_Operation db request.1;
    reject negb (PerformanceAction (d_Action (pl_Draft (op_Plan o)))) || (op_State o <>s "succeeded")
      with Failure "conflict" "private performance artifact requires a completed performance operation" ;;
    match find (λ a, ar_Name a =s request.2) (op_Artifacts o) with
    | None => Err (Failure "not_found" "performance artifact is not recorded by this operation")
    | Some expected =>
      match an_performance an with
      | None => Err (Failure "unavailable" "performance adapter unavailable")
      | Some pa =>
        match pa_Artifact pa request.1 request.2 with
        | Err (Plain m) | Err (Failure _ m) => Err (Failure "conflict" m)
        | Ok artifact =>
          reject negb (same_artifact artifact expected)
            with Failure "conflict" "private performance artifact differs from the recorded operation" ;;
          Ok (reply 200 (PArtifact artifact))
        end
      end
    end).

Definition performanceInspect (an : Answers) (a : Actor) (r : HttpRequest) (db : Store) : Store * Response :=
  checked db (_ ← owner a; id ← decode_body (dec_string1 "operation_id") "" r;
      reject negb (performanceOperationID id) with Failure "invalid" "performance inspection requires an operation ID" ;; Ok id)
    (λ id, conclude (InspectPerformance (an_env an) a id db) (λ o, reply 200 (POperation o))).

Definition telemetrySummary (an : Answers) (a : Actor) (r : HttpRequest) (db : Store) : Response :=
  answer (_ ← owner a; _ ← no_query r "telemetry summary accepts no query parameters";
    let '(metrics, traces, (backend, values)) := an_telemetry an in
    let '(operations, healthy) := TelemetrySnapshot db in
    Ok (reply 200 (PTelemetry (mkTelemetrySummary (ev_clk (an_env an) 0%nat 0%nat) (co_Mode cfg) healthy operations metrics traces backend values)))).

(** *** The advisor *)

(** Every tool call checks the caller's credential again: without the CSRF token, which
    the request already presented. *)
Definition recheck (clk : clock) (r : HttpRequest) (v : State) : result Actor :=
  let h := header r "Authorization" in
  if has_prefix h bearer_prefix then Bearer clk v (trim_prefix h bearer_prefix)
  else match rq_Cookie r !! BrowserSessionCookieName cfg with
  | Some token => '(a, _) ← SessionActor clk v token (BrowserSessionPurpose cfg); Ok a
  | None => Err (Plain "http: named cookie not present")
  end.

Definition capacity_json (h : Hardware) (other : Z) (c : Configuration) : JSON := JObject [
  ("TotalMiB", JInt (hw_MemoryMiB h)); ("HostReserveMiB", JInt (hw_HostReserveMiB h));
  ("KubeReserveMiB", JInt (hw_KubeReserveMiB h)); ("OtherMiB", JInt other);
  ("RequestedMiB", JInt (rs_MemoryMiB (cf_Resources c))); ("SHMCeilingMiB", JInt (rs_SharedMemoryMiB (cf_Resources c)));
  ("DIMMs", JInt (hw_DIMMs h)); ("TopologyKnown", JBool (hw_TopologyKnown h))].

(** The tool handler: its answer, and the plan remembered for the rest of the run. *)
Definition advice_tool (a : Actor) (r : HttpRequest) (d : Draft) (other : Z) (c : Configuration) (summary : MemorySummary)
    (src : SourceFile) (name : string) (ev : Env) (clk : clock) (id : string) (db : Store) (plan : option Plan)
    : Store * option Plan * result JSON :=
  if match recheck clk r (AuthState db) with
     | Ok current => (a_ID current <>s a_ID a) || (a_Role current <>s "owner")
     | Err _ => true
     end
  then (db, plan, Err (Failure "forbidden" "owner session expired or revoked"))
  else if name =s "read_memory_evidence" then (db, plan, Ok (cloudMemory summary))
  else if name =s "explain_memory_capacity" then
    (db, plan, match ad_Snapshot (ev_adapter ev) with
               | Err _ => Err (Failure "unavailable" "capacity evidence unavailable")
               | Ok inv => Ok (capacity_json (in_Hardware inv) other c)
               end)
  else if name =s "request_memory_plan" then
    let '(db, plan, err) :=
      match plan with
      | Some _ => (db, plan, None)
      | None =>
        match CreatePlan Target (ev_clk ev 1%nat) (ev_clk ev 2%nat) (ev_write ev 2%nat) id (ev_adapter ev) a d src db with
        | (db, Err _) => (db, None, Some (Failure "invalid" "deterministic planning refused; owner must inspect evidence"))
        | (db, Ok p) => (db, Some p, None)
        end
      end in
    (db, plan, match err, plan with
               | None, Some p => Ok (JObject [("plan_id", JString (pl_ID p)); ("status", JString "owner_approval_required_export_only")])
               | Some e, _ => Err e
               | None, None => Err (Failure "internal" "")
               end)
  else (db, plan, Err (Failure "forbidden" "tool is not allowed")).

Fixpoint advise (a : Actor) (r : HttpRequest) (d : Draft) (other : Z) (c : Configuration) (summary : MemorySummary)
    (src : SourceFile) (run : AdviceRun) (db : Store) (plan : option Plan)
    : Store * option Plan * (AdvisorResult * option error) :=
  match run with
  | Advised res err => (db, plan, (res, err))
  | ToolCall name ev clk id k =>
    let '(db, plan, out) := advice_tool a r d other c summary src name ev clk id db plan in
    advise a r d other c summary src (k out) db plan
  end.

Definition Usage_json (u : Usage) : JSON := JObject [
  ("input_tokens", JInt (us_InputTokens u)); ("output_tokens", JInt (us_OutputTokens u)); ("total_tokens", JInt (us_TotalTokens u))].
Definition accounting (outcome : string) (res : AdvisorResult) : JSON := JObject (
  [("outcome", JString outcome)] ++ omit_str "session_id" (ar_SessionID res)
  ++ [("usage", match ar_Usage res with Some u => Usage_json u | None => JNull end);
      ("usage_provisional", JBool (ar_UsageProvisional res))]
  ++ omit_str "usage_source" (ar_UsageSource res)
  ++ [("creation_uncertain", JBool (ar_CreationUncertain res));
      ("cancellation_requested", JBool (ar_CancellationRequested res));
      ("cancellation_accepted", JBool (ar_CancellationAccepted res))]).

Definition advice_event (a : Actor) (action attemptID outcome : string) (clk : clock) (s : State) : result (State * unit) :=
  Ok (Event (clk 0%nat) (a_ID a) action attemptID outcome s, tt).

(** What must hold before any request may be paid for: the draft and the evidence view. *)
Definition advice_request (an : Answers) (a : Actor) (r : HttpRequest) (src : SourceFile)
    : result (MemoryRequest * Configuration * Draft * MemorySummary * AdviceRun) :=
  _ ← owner a; request ← decode_body dec_MemoryRequest MemoryRequest0 r;
  match an_advisor an with
  | Some run =>
    reject negb (av_Enabled (co_Advisor cfg)) || (co_Mode cfg <>s "live")
      with Failure "unavailable" "optional Agents API advisor is disabled; deterministic memory planning remains available" ;;
    c ← Read src;
    let d := mkDraft "memory.plan.export" Target (cf_Revision c) "" "" "" "" None None None (Some request) None in
    _ ← ValidateDraft (ev_clk (an_env an) 0%nat) d c here;
    match an_memory an with
    | None => Err (Failure "unavailable" "memory adapter unavailable")
    | Some ma =>
      match ma_Preview ma d c with
      | Err _ => Err (Failure "invalid" "selected evidence is unavailable, incomplete or stale; use deterministic preview")
      | Ok summary => Ok (request, c, d, summary, run)
      end
    end
  | None => Err (Failure "unavailable" "optional Agents API advisor is disabled; deterministic memory planning remains available")
  end.

Definition memoryAdvice (an : Answers) (a : Actor) (r : HttpRequest) (src : SourceFile) (db : Store) : Store * Response :=
  let ev := an_env an in
  checked db (advice_request an a r src) (λ '(request, c, d, summary, run),
    let attemptID := an_id an 0%nat in
    match Update (ev_clk ev 1%nat) (ev_write ev 1%nat) (advice_event a "memory.advice.requested" attemptID "outcome_not_observed") db with
    | (db, Err e) => (db, refuse [] e)
    | (db, Ok _) =>
      let h := [("X-Bridge-Advisory-ID", attemptID)] in
      let '(db, plan, (res, err)) := advise a r d (mr_OtherMiB request) c summary src run db None in
      let outcome := if is_some err then "failed_or_incomplete" else "completed" in
      match Update (ev_clk ev 3%nat) (ev_write ev 3%nat) (advice_event a "memory.advice.finished" attemptID (json_text (accounting outcome res))) db with
      | (db, Err e) => (db, refuse h e)
      | (db, Ok _) =>
        (db, if is_some err
             then refuse h (Failure "unavailable" ("Agents API advisory unavailable or bounded run ended; inspect audit attempt " +:+ attemptID +:+ " and retained plans before a new paid request. Unknown creation may already have started inference; cancellation acceptance is not proof of completion. Deterministic workflow remains available"))
             else mkResponse 200 h [] (PAdvice res plan))
      end
    end).

(** ** The service *)

Definition handle (e : Endpoint) (an : Answers) (a : Actor) (r : HttpRequest) (id : string) (src : SourceFile) (db : Store) : Store * Response :=
  match e with
  | E_session => (db, session an a r db)
  | E_logout => logout an a r db
  | E_inventory => (db, inventory an r)
  | E_telemetrySummary => (db, telemetrySummary an a r db)
  | E_memoryEvidence => (db, memoryEvidence a r db)
  | E_memoryPreview => (db, memoryPreview an a r src)
  | E_memoryArtifact => (db, memoryArtifact an a r db)
  | E_memoryAdvice => memoryAdvice an a r src db
  | E_memoryInspect => memoryInspect an a r db
  | E_performancePreview => (db, performancePreview an a r src)
  | E_performanceArtifact => (db, performanceArtifact an a r db)
  | E_performanceInspect => performanceInspect an a r db
  | E_profiles => (db, profiles an)
  | E_configuration => (db, configuration r src)
  | E_plan => plan an a r src db
  | E_getPlan => (db, getPlan a id db)
  | E_apply => apply an a r db
  | E_operations => (db, operations a id db)
  | E_cancel => cancel an a r id db
  | E_recover => recover an a r id src db
  | E_export => (db, export an id)
  | E_credentials => (db, credentials a db)
  | E_revoke => revoke an a r id db
  | E_audit => (db, audit a db)
  end.

(** The static pages behind the browser gate. *)
Definition browser (r : HttpRequest) : Response :=
  if negb (BrowserSessionsEnabled cfg)
  then refuse [] (Failure "browser_disabled" "live browser management is disabled; use a scoped CLI credential or configure a dedicated trusted HTTPS management identity")
  else if (rq_Method r <>s "GET") && (rq_Method r <>s "HEAD") then reply 405 PWeb
  else if (rq_Path r <>s "/") && (rq_Path r <>s "/app.js") && (rq_Path r <>s "/style.css") then reply 404 PWeb
  else reply 200 PWeb.

Definition live (db : Store) : Response := reply 200 (PLive (co_Mode cfg) (Healthy db)).

Definition serve (an : Answers) (r : HttpRequest) (src : SourceFile) (w : World) : World * Response :=
  match Http.guard cfg r with
  | Some e => (w, refuse [] e)
  | None =>
    if match_method "GET" (rq_Method r) && bool_decide (rq_Segments r = ["health"; "live"]) then (w, live (wd_db w))
    else if match_method "POST" (rq_Method r) && bool_decide (rq_Segments r = v1 ["auth"; "login"]) then login an r w
    else match find_route (rq_Method r) (rq_Segments r) routes with
    | None => (w, browser r)
    | Some (e, id) =>
      match authenticate cfg (an_auth an) r (AuthState (wd_db w)) (wd_limiter w) with
      | (l, over, Err err) => (mkWorld (wd_db w) l, refuse (if over then [("Retry-After", "60")] else []) err)
      | (l, _, Ok a) =>
        let '(db, out) := handle e an a r id src (wd_db w) in (mkWorld db l, out)
      end
    end
  end.
End Api.
