(* ===== verification/Access.v ===== *)
(** What the management API guarantees of its callers: who may change the state, what a
    role may change, what an answer may disclose, and what an advisory run may do. *)
From S2P Require Import Prelude Json Types Domain Recovery Store Auth Source Engine Journal Admission Safefile Config Wire Evidence Http Api.
#[local] Open Scope Z_scope.

(** ** Effects of a transaction *)

(** The credentials change only if [cred] holds; every operation and plan that is not
    there before has an action in [act]. *)
Record effect (cred : Prop) (act : string → Prop) (s s' : State) : Prop := {
  ef_credentials : s_Credentials s' = s_Credentials s ∨ cred;
  ef_operations id o : s_Operations s' !! id = Some o → s_Operations s !! id = Some o ∨ act (d_Action (pl_Draft (op_Plan o)));
  ef_plans id p : s_Plans s' !! id = Some p → s_Plans s !! id = Some p ∨ act (d_Action (pl_Draft p)) }.

Section Effects.
Context (cred : Prop) (act : string → Prop).
Implicit Types (s : State) (db : Store).
#[local] Abbreviation changes_within := (effect cred act).

Lemma effect_refl s : changes_within s s.
Proof. split; auto. Qed.
Lemma effect_trans s1 s2 s3 : changes_within s1 s2 → changes_within s2 s3 → changes_within s1 s3.
Proof.
  intros [Hc Ho Hp] [Hc' Ho' Hp']. split.
  - destruct Hc' as [->|]; auto.
  - intros id o [H|H]%Ho'; auto.
  - intros id p [H|H]%Hp'; auto.
Qed.
Lemma effect_same s s' :
  s_Credentials s' = s_Credentials s → s_Operations s' = s_Operations s → s_Plans s' = s_Plans s → changes_within s s'.
Proof. intros Hc Ho Hp. split; rewrite ?Hc, ?Ho, ?Hp; auto. Qed.
Lemma effect_prune now s : changes_within s (prune now s).
Proof.
  split; [by left; apply prune_Credentials| |].
  - intros id o Ho. left. eapply lookup_weaken; [exact Ho|apply prune_Operations_subseteq].
  - intros id p [? _]%prune_Plans. by left.
Qed.
Lemma effect_committed clk s : changes_within s (committed clk s).
Proof.
  split; [by left; apply committed_Credentials| |].
  - intros id o Ho. left. eapply lookup_weaken; [exact Ho|apply committed_subseteq].
  - intros id p. rewrite committed_Plans. intros [? _]%prune_Plans. by left.
Qed.

(** A transaction with the effect has it in the store, whatever the write does. *)
Lemma effect_Update `{Encoding} {A} clk w (fn : clock → State → result (State * A)) db db' r :
  (∀ clk s s' x, fn clk s = Ok (s', x) → changes_within s s') →
  Update clk w fn db = (db', r) → changes_within (st_state db) (st_state db').
Proof.
  intros Hfn. destruct r as [x|e].
  - intros (_ & v & Hv & ->)%Update_ok. eapply effect_trans; [apply effect_prune|].
    eapply effect_trans; [by eapply Hfn|apply effect_committed].
  - intros [-> _]%Update_err. apply effect_refl.
Qed.

(** ** The transactions behind the handlers *)

Context `{Sha256} `{Encoding} `{TokenHash} (Target : string) (Depth : Z).

Lemma effect_CreatePlan clk clk' w id ad a d src db db' r :
  (RoleAllows (a_Role a) (d_Action d) = true → act (d_Action d)) →
  CreatePlan Target clk clk' w id ad a d src db = (db', r) → changes_within (st_state db) (st_state db').
Proof.
  unfold CreatePlan. intros Hact. destruct (build_plan _ _ _ _ _ _ _ _) as [p|] eqn:Hb; [|intros [= <- _]; apply effect_refl].
  apply build_plan_ok in Hb as (c & inv & pv & Hpl).
  destruct (Update _ _ _ _) as [db1 res] eqn:Hu. intros Hc. assert (db' = db1) as -> by (destruct res; congruence).
  eapply effect_Update; [|exact Hu]. unfold create_plan_tx. intros clk0 s s' [] Hx. split_hyp Hx.
  split; [by left|by left|]. simpl. intros k q [[<- <-]|[? ?]]%lookup_insert_Some; [|by left].
  right. rewrite (pd_Draft _ _ _ _ _ _ _ _ _ _ _ _ Hpl). by apply Hact, (pd_role _ _ _ _ _ _ _ _ _ _ _ _ Hpl).
Qed.

Lemma apply_tx_credentials id a planID target key clk s s' op :
  apply_tx Target Depth id a planID target key clk s = Ok (s', op) → s_Credentials s' = s_Credentials s.
Proof. unfold apply_tx. cbv zeta. intros Ha. by split_hyp Ha. Qed.

Lemma effect_Apply clk w stopping id a planID target key db db' r :
  (∀ x, RoleAllows (a_Role a) x = true → act x) →
  Apply Target Depth clk w stopping id a planID target key db = (db', r) → changes_within (st_state db) (st_state db').
Proof.
  unfold Apply. intros Hact.
  destruct ((str_len key <? 8) || (str_len key >? 128)); [intros [= <- _]; apply effect_refl|].
  destruct (negb (all_chars _ key)); [intros [= <- _]; apply effect_refl|].
  destruct stopping; [intros [= <- _]; apply effect_refl|]. apply effect_Update. intros clk0 s s' op Ha. pose proof (apply_tx_credentials _ _ _ _ _ _ _ _ _ Ha) as Hc. apply apply_tx_ok in Ha as [(_ & Hacc & Ho & _ & Hp)|[-> _]]; [|apply effect_refl].
  split; [by left|rewrite Ho|rewrite Hp; auto].
  intros k x [[<- <-]|[? ?]]%lookup_insert_Some; [|by left]. right. apply Hact, Hacc.
Qed.

Lemma effect_Cancel clk w a id revision db db' r :
  (∀ x, RoleAllows (a_Role a) x = true → act x) →
  Engine.Cancel clk w a id revision db = (db', r) → changes_within (st_state db) (st_state db').
Proof.
  unfold Engine.Cancel. intros Hact. destruct (Update _ _ _ _) as [db1 res] eqn:Hu. intros Hc.
  assert (db' = db1) as -> by (destruct res; congruence). eapply effect_Update; [|exact Hu].
  intros clk0 s s' [] Hx. pose proof Hx as Hx'. unfold cancel_tx in Hx. split_hyp Hx. bool_hyps. split; [by left| |by left].
  apply cancel_tx_ok in Hx' as (o1 & o2 & Ho1 & _ & Ho2 & He & _). rewrite Ho2. simplify_eq.
  intros k x [[<- <-]|[? ?]]%lookup_insert_Some; [right|by left]. apply Hact.
  by rewrite (ev_Plan _ _ He).
Qed.

(** What only an owner reaches may end any operation. *)
Lemma effect_finish clk w id r db db' x :
  (∀ x, act x) → finish clk w id r db = (db', x) → changes_within (st_state db) (st_state db').
Proof.
  intros Hact. apply effect_Update. intros clk0 s s' [] Hf. split; [left|intros; right; apply Hact|].
  - unfold finish_tx in Hf. split_hyp Hf; done.
  - unfold finish_tx in Hf. split_hyp Hf; by left.
Qed.

Lemma effect_event clk w a action attempt outcome db db' r :
  Update clk w (advice_event a action attempt outcome) db = (db', r) → changes_within (st_state db) (st_state db').
Proof. apply effect_Update. intros clk0 s s' [] [= <-]. by apply effect_same. Qed.

Lemma effect_logout clk w a token db db' r :
  Update clk w (logout_tx a token) db = (db', r) → changes_within (st_state db) (st_state db').
Proof. apply effect_Update. intros clk0 s s' [] [= <-]. by apply effect_same. Qed.

Lemma effect_Login clk w token csrf credential purpose db db' r :
  Login clk w token csrf credential purpose db = (db', r) → changes_within (st_state db) (st_state db').
Proof.
  unfold Login. destruct (purpose =s ""); [intros [= <- _]; apply effect_refl|].
  destruct (Bearer _ _ _); [|intros [= <- _]; apply effect_refl].
  destruct (Update _ _ _ _) as [db1 res] eqn:Hu. intros Hl. assert (db' = db1) as -> by (destruct res as [[]|]; congruence).
  eapply effect_Update; [|exact Hu]. unfold login_tx. intros clk0 s s' [a0 se] Hx. split_hyp Hx. by apply effect_same.
Qed.

Lemma effect_revoke clk w a id db db' r :
  (a_Role a = "owner" → cred) → api_revoke clk w a id db = (db', r) → changes_within (st_state db) (st_state db').
Proof.
  unfold api_revoke. intros Hcred. destruct (String.eqb_spec (a_Role a) "owner"); [|intros [= <- _]; apply effect_refl]. simpl.
  apply effect_Update. unfold revoke_tx. intros clk0 s s' [] Hx. split_hyp Hx. split; [by right; apply Hcred|by left|by left].
Qed.

Lemma effect_Recover ev planID a id src db db' r :
  (a_Role a = "owner" → ∀ x, act x) →
  Recover Target ev planID a id src db = (db', r) → changes_within (st_state db) (st_state db').
Proof.
  unfold Recover. intros Hact. destruct (String.eqb_spec (a_Role a) "owner"); [|intros [= <- _]; apply effect_refl]. cbn [negb].
  assert (∀ db' r, recover_plan Target ev planID a id src db = (db', r) → changes_within (st_state db) (st_state db')) as Hplan.
  { unfold recover_plan. intros db1 r1. destruct (Read src) as [c|]; [|intros [= <- _]; apply effect_refl].
    destruct (RecoveryChain _ _) as [chain|[]]; [|intros [= <- _]; apply effect_refl..].
    apply effect_CreatePlan. intros _. by apply Hact. }
  destruct (engine_Operation db id) as [o|]; [|intros [= <- _]; apply effect_refl].
  destruct (negb (op_RecoveryRequired o)); [intros [= <- _]; apply effect_refl|]. cbv zeta.
  destruct (inspect _ _) as [r'|err]; [|apply Hplan].
  destruct (_ || _); [intros [= <- _]; apply effect_refl|]. destruct (_ && _ && _); [|apply Hplan].
  destruct (finish _ _ _ _ _) as [db1 x] eqn:Hf. intros Hr. assert (db' = db1) as -> by (destruct x; congruence).
  eapply effect_finish; [by apply Hact|exact Hf].
Qed.

Lemma effect_inspectEvidence ev a id performance db db' r :
  (a_Role a = "owner" → ∀ x, act x) →
  inspectEvidence ev a id performance db = (db', r) → changes_within (st_state db) (st_state db').
Proof.
  unfold inspectEvidence. intros Hact. destruct (String.eqb_spec (a_Role a) "owner"); [|intros [= <- _]; apply effect_refl]. cbn [negb].
  destruct (engine_Operation db id) as [o|]; [|intros [= <- _]; apply effect_refl]. cbv zeta.
  destruct (_ || _); [intros [= <- _]; apply effect_refl|]. destruct (negb (op_Dispatched o)); [intros [= <- _]; apply effect_refl|].
  destruct (inspect _ _) as [r'|err]; [|intros [= <- _]; apply effect_refl].
  destruct (_ || _); [intros [= <- _]; apply effect_refl|]. destruct (negb _); [intros [= <- _]; apply effect_refl|].
  destruct (finish _ _ _ _ _) as [db1 x] eqn:Hf. intros Hr. assert (db' = db1) as -> by (destruct x; congruence).
  eapply effect_finish; [by apply Hact|exact Hf].
Qed.
End Effects.

(** ** Advisory runs *)

Section Advice.
Context `{NetParse} `{TokenHash} `{Sha256} `{Encoding} `{JSONText} `{JSONRender} (cfg : Config) (Target : string).
Implicit Types (db : Store).

(** No operation appears, no credential changes, and a plan that appears is the run's. *)
Record advised (a : Actor) (d : Draft) (s s' : State) (plan plan' : option Plan) : Prop := {
  ad_credentials : s_Credentials s' = s_Credentials s;
  ad_operations : s_Operations s' ⊆ s_Operations s;
  ad_plans id p : s_Plans s' !! id = Some p →
    s_Plans s !! id = Some p ∨ (plan = None ∧ plan' = Some p ∧ pl_Draft p = d ∧ pl_Actor p = a_ID a);
  ad_kept p : plan = Some p → plan' = Some p }.

Lemma advised_same a d s s' plan :
  s_Credentials s' = s_Credentials s → s_Operations s' ⊆ s_Operations s → s_Plans s' ⊆ s_Plans s → advised a d s s' plan plan.
Proof. intros. split; try done. intros id p Hp. left. by eapply lookup_weaken. Qed.
Lemma advised_refl a d s plan : advised a d s s plan plan.
Proof. by apply advised_same. Qed.
Lemma advised_trans a d s1 s2 s3 p1 p2 p3 : advised a d s1 s2 p1 p2 → advised a d s2 s3 p2 p3 → advised a d s1 s3 p1 p3.
Proof.
  intros [Hc Ho Hp Hk] [Hc' Ho' Hp' Hk']. split; [congruence|by etrans| |auto].
  intros id p [Hin|(-> & -> & ? & ?)]%Hp'.
  - apply Hp in Hin as [?|(? & ? & ? & ?)]; [by left|right; auto].
  - destruct p1 as [q|]; [by specialize (Hk _ eq_refl)|by right].
Qed.

Lemma advised_event clk w a d action attempt outcome db db' r plan :
  Update clk w (advice_event a action attempt outcome) db = (db', r) → advised a d (st_state db) (st_state db') plan plan.
Proof.
  intros Hu. assert (∀ act, effect False act (st_state db) (st_state db')) as He by (intros; by eapply effect_event).
  destruct (He (λ _, False)) as [Hc Ho Hp]. apply advised_same; [by destruct Hc|apply map_subseteq_spec..].
  - intros id o Hx. by apply Ho in Hx as [|].
  - intros id p Hx. by apply Hp in Hx as [|].
Qed.

Lemma advised_tool a r d other c summary src name ev clk id db plan db' plan' out :
  advice_tool cfg Target a r d other c summary src name ev clk id db plan = (db', plan', out) →
  advised a d (st_state db) (st_state db') plan plan'.
Proof.
  unfold advice_tool. destruct (match recheck _ _ _ _ with Ok _ => _ | Err _ => _ end); [intros [= <- <- _]; apply advised_refl|].
  destruct (name =s "read_memory_evidence"); [intros [= <- <- _]; apply advised_refl|].
  destruct (name =s "explain_memory_capacity"); [intros [= <- <- _]; apply advised_refl|].
  destruct (name =s "request_memory_plan"); [|intros [= <- <- _]; apply advised_refl].
  destruct plan as [p|]; [intros [= <- <- _]; apply advised_refl|].
  destruct (CreatePlan _ _ _ _ _ _ _ _ _ _) as [db1 [p|e]] eqn:Hp; intros [= <- <- _].
  - assert (s_Credentials (st_state db1) = s_Credentials (st_state db)) as Hc.
    { eapply (effect_CreatePlan False (λ _, True)) in Hp; [|done]. by destruct Hp as [[]]. }
    apply CreatePlan_ok in Hp as ((c' & inv & pv & Hpl) & _ & _ & v & Hs & _ & Ho & _ & Hpp). split; [done|..|done].
    + rewrite Hs. etrans; [apply committed_subseteq|]. rewrite Ho. apply prune_Operations_subseteq.
    + intros k q. rewrite Hs, committed_Plans. intros [Hq _]%prune_Plans. rewrite Hpp in Hq.
      apply lookup_insert_Some in Hq as [[<- <-]|[_ [? _]%prune_Plans]]; [|by left].
      right. split_and!; [done..|apply Hpl|apply Hpl].
  - unfold CreatePlan in Hp. destruct (build_plan _ _ _ _ _ _ _ _); [|simplify_eq; apply advised_refl].
    destruct (Update _ _ _ _) as [db2 [|]] eqn:Hu; simplify_eq. apply Update_err in Hu as [-> _]. apply advised_refl.
Qed.

Lemma advised_run a r d other c summary src run : ∀ db plan db' plan' out,
  advise cfg Target a r d other c summary src run db plan = (db', plan', out) →
  advised a d (st_state db) (st_state db') plan plan'.
Proof.
  induction run as [res err|name ev clk id k IH]; intros db plan db' plan' out; cbn [advise].
  - intros [= <- <- _]. apply advised_refl.
  - destruct (advice_tool _ _ _ _ _ _ _ _ _ _ _ _ _ _ _) as [[db1 plan1] out1] eqn:Ht. intros Ha.
    eapply advised_trans; [by eapply advised_tool|by eapply IH].
Qed.

Lemma advice_request_ok an a r src request c d summary run :
  advice_request cfg Target an a r src = Ok (request, c, d, summary, run) →
  a_Role a = "owner" ∧ d_Action d = "memory.plan.export" ∧ an_advisor an = Some run ∧ co_Mode cfg = "live" ∧ av_Enabled (co_Advisor cfg) = true.
Proof.
  unfold advice_request, owner. intros Hr. destruct (String.eqb_spec (a_Role a) "owner"); [|done]. cbn in Hr.
  apply bind_ok in Hr as (m & _ & Hr). destruct (an_advisor an) as [run'|]; [|done].
  destruct (_ || _) eqn:Hl; [done|]. apply bind_ok in Hr as (c' & _ & Hr). apply bind_ok in Hr as (u & _ & Hr).
  destruct (an_memory an) as [ma|]; [|done]. destruct (ma_Preview _ _ _); [|done]. simplify_eq. bool_hyps. done.
Qed.

(** The run behind the handler, and when there is one. *)
Lemma memoryAdvice_advised an a r src db db' out :
  memoryAdvice cfg Target an a r src db = (db', out) →
  db' = db ∨ ∃ d plan, a_Role a = "owner" ∧ co_Mode cfg = "live" ∧ av_Enabled (co_Advisor cfg) = true ∧
    d_Action d = "memory.plan.export" ∧ advised a d (st_state db) (st_state db') None plan.
Proof.
  unfold memoryAdvice. cbv zeta.
  destruct (advice_request _ _ _ _ _ _) as [[[[[request c] d] summary] run]|] eqn:Hr; simpl; [|intros [= <- _]; by left].
  apply advice_request_ok in Hr as (Ho & Hd & _ & Hm & He).
  destruct (Update (ev_clk (an_env an) 1) _ _ _) as [db1 r1] eqn:Hu1. intros Hrest. right. exists d.
  pose proof (advised_event _ _ _ d _ _ _ _ _ _ None Hu1) as Hev. destruct r1 as [[]|]; [|injection Hrest as <- _; by exists None].
  destruct (advise _ _ _ _ _ _ _ _ _ _ _ _) as [[db2 plan] [res err]] eqn:Ha. apply advised_run in Ha.
  destruct (Update (ev_clk (an_env an) 3) _ _ _) as [db3 r3] eqn:Hu3. exists plan.
  assert (db' = db3) as -> by (destruct r3; congruence). split_and!; [done..|].
  eapply advised_trans; [exact Hev|]. eapply advised_trans; [exact Ha|by eapply advised_event].
Qed.

(** An advisory session can at most propose one plan. Whatever tools the provider calls,
    in whatever order and however often, and whatever the environment answers it: no
    operation is created or changed, no credential changes, and at most one new plan
    appears, for the exact export draft the owner selected and under the owner's identity;
    the state is touched at all only for an owner on a live policy with the advisor enabled. *)
Theorem memoryAdvice_bounded an a r src db db' out :
  memoryAdvice cfg Target an a r src db = (db', out) →
  s_Operations (st_state db') ⊆ s_Operations (st_state db) ∧
  s_Credentials (st_state db') = s_Credentials (st_state db) ∧
  (∃ proposed : option Plan, ∀ id p, s_Plans (st_state db') !! id = Some p →
     s_Plans (st_state db) !! id = Some p ∨
     (proposed = Some p ∧ d_Action (pl_Draft p) = "memory.plan.export" ∧ pl_Actor p = a_ID a)) ∧
  (db' ≠ db → a_Role a = "owner" ∧ co_Mode cfg = "live" ∧ av_Enabled (co_Advisor cfg) = true).
Proof.
  intros [->|(d & plan & Ho & Hm & He & Hd & [Hc Hop Hp _])]%memoryAdvice_advised; [split_and!; try done; exists None; auto|].
  split_and!; try done. exists plan. intros id p [?|(_ & -> & <- & ?)]%Hp; auto.
Qed.

Lemma memoryAdvice_within an a r src db db' out :
  memoryAdvice cfg Target an a r src db = (db', out) →
  effect (a_Role a = "owner") (λ x, RoleAllows (a_Role a) x = true) (st_state db) (st_state db').
Proof.
  intros [->|(d & plan & Ho & _ & _ & _ & [Hc Hop _ _])]%memoryAdvice_advised; [apply effect_refl|].
  split; [by left|intros id o Hx; left; by eapply lookup_weaken|intros; right; by rewrite Ho].
Qed.
End Advice.

(** ** The service *)

Section Service.
Context `{NetParse} `{TokenHash} `{Sha256} `{Encoding} `{JSONText} `{JSONRender} (cfg : Config) (Target : string) (Depth : Z).
Implicit Types (db : Store).

(** The endpoints that may write. *)
Definition mutating (e : Endpoint) : bool :=
  match e with
  | E_logout | E_memoryAdvice | E_memoryInspect | E_performanceInspect | E_plan | E_apply | E_cancel | E_recover | E_revoke => true
  | _ => false
  end.

Lemma handle_pure e an a r id src db : mutating e = false → (handle cfg Target Depth e an a r id src db).1 = db.
Proof. by destruct e. Qed.

Lemma conclude_eq {A} (x : Store * result A) k db' out : conclude x k = (db', out) → db' = x.1.
Proof. destruct x as [db [y|e]]; by intros [= <- _]. Qed.

Lemma checked_eq {A} db (x : result A) k db' out :
  checked db x k = (db', out) → (∃ y, x = Ok y ∧ k y = (db', out)) ∨ db' = db.
Proof. destruct x as [y|e]; simpl; [eauto|intros [= <- _]; auto]. Qed.

Lemma owner_ok {A} a (k : result A) x : (_ ← owner a; k) = Ok x → a_Role a = "owner" ∧ k = Ok x.
Proof. unfold owner. by destruct (String.eqb_spec (a_Role a) "owner"). Qed.

(** Every handler stays within the caller's role. *)
Lemma handle_effect e an a r id src db db' out :
  handle cfg Target Depth e an a r id src db = (db', out) →
  effect (a_Role a = "owner") (λ x, RoleAllows (a_Role a) x = true) (st_state db) (st_state db').
Proof.
  set (act := λ x, RoleAllows (a_Role a) x = true).
  assert (a_Role a = "owner" → ∀ x, act x) as Hall by (intros Ho x; unfold act, RoleAllows; by rewrite Ho).
  destruct (mutating e) eqn:Hm; [|intros Hh; rewrite <- (handle_pure e an a r id src db Hm), Hh; apply effect_refl].
  destruct e; try done; clear Hm; cbn [handle].
  - unfold logout. destruct (rq_Cookie r !! _) as [token|]; [|intros [= <- _]; apply effect_refl].
    intros Hc%conclude_eq. destruct (Update _ _ _ _) eqn:Hu. simpl in Hc. subst. by eapply effect_logout.
  - intros Ha. apply memoryAdvice_within in Ha. exact Ha.
  - unfold memoryInspect. intros [(y & _ & Hc%conclude_eq)|Heq]%checked_eq; [|rewrite Heq; apply effect_refl].
    destruct (InspectMemory _ _ _ _) eqn:Hu. simpl in Hc. subst. by eapply effect_inspectEvidence.
  - unfold performanceInspect. intros [(y & _ & Hc%conclude_eq)|Heq]%checked_eq; [|rewrite Heq; apply effect_refl].
    destruct (InspectPerformance _ _ _ _) eqn:Hu. simpl in Hc. subst. by eapply effect_inspectEvidence.
  - unfold plan. intros [(d & _ & Hc%conclude_eq)|Heq]%checked_eq; [|rewrite Heq; apply effect_refl].
    destruct (CreatePlan _ _ _ _ _ _ _ _ _ _) eqn:Hu. simpl in Hc. subst. by eapply effect_CreatePlan.
  - unfold apply. intros [(y & _ & Hc%conclude_eq)|Heq]%checked_eq; [|rewrite Heq; apply effect_refl].
    destruct (Apply _ _ _ _ _ _ _ _ _ _ _) eqn:Hu. simpl in Hc. subst. by eapply effect_Apply.
  - unfold cancel. intros [(y & _ & Hc%conclude_eq)|Heq]%checked_eq; [|rewrite Heq; apply effect_refl].
    destruct (Engine.Cancel _ _ _ _ _ _) eqn:Hu. simpl in Hc. subst. by eapply effect_Cancel.
  - unfold recover. intros [(y & _ & Hc%conclude_eq)|Heq]%checked_eq; [|rewrite Heq; apply effect_refl].
    destruct (Recover _ _ _ _ _ _ _) eqn:Hu. simpl in Hc. subst. by eapply effect_Recover.
  - unfold revoke. intros [(y & _ & Hc%conclude_eq)|Heq]%checked_eq; [|rewrite Heq; apply effect_refl].
    destruct (api_revoke _ _ _ _ _) eqn:Hu. simpl in Hc. subst. by eapply effect_revoke.
Qed.

(** ** Who is calling *)

Definition actor_of (c : Credential) : Actor := mkActor (cr_ID c) (cr_Name c) (cr_Role c).

(** The request presents a credential of [v] that is neither revoked nor expired, as a
    bearer token or through a session of this policy; a session request that is not a
    plain read also carries the configured origin and the session's CSRF token. *)
Inductive presents (clk : clock) (r : HttpRequest) (v : State) : Actor → Prop :=
| by_bearer k c i :
    has_prefix (header r "Authorization") bearer_prefix = true →
    s_Credentials v !! k = Some c → cr_Verifier c = Verifier (trim_prefix (header r "Authorization") bearer_prefix) →
    cr_Revoked c = false → clk i < cr_ExpiresAt c → presents clk r v (actor_of c)
| by_session token se c :
    header r "Authorization" = "" → BrowserSessionsEnabled cfg = true →
    rq_Cookie r !! BrowserSessionCookieName cfg = Some token → s_Sessions v !! Verifier token = Some se →
    se_Purpose se = BrowserSessionPurpose cfg → clk 0%nat ≤ se_ExpiresAt se →
    s_Credentials v !! se_CredentialID se = Some c → cr_Revoked c = false → clk 1%nat ≤ cr_ExpiresAt c →
    rq_Method r = "GET" ∨ rq_Method r = "HEAD" ∨
      (header r "Origin" = co_ExternalURL cfg ∧ header r "X-CSRF-Token" = se_CSRF se) →
    presents clk r v (actor_of c).

Lemma identify_presents clk r v a : identify cfg clk r v = Ok a → presents clk r v a.
Proof.
  unfold identify. cbv zeta. destruct (String.eqb_spec (header r "Authorization") "") as [Hh|Hh]; simpl.
  - destruct (BrowserSessionsEnabled cfg) eqn:Hb; [|done]. simpl.
    destruct (rq_Cookie r !! _) as [token|] eqn:Hc; [|done]. intros ([a' se] & Hs & Hr)%bind_ok.
    destruct (_ && _) eqn:Hm; [done|]. injection Hr as <-.
    apply SessionActor_ok in Hs as (_ & _ & Hse & Hp & Ht & c & Hcr & Hrev & Hct & ->). eapply by_session; try done.
    destruct (String.eqb_spec (rq_Method r) "GET"), (String.eqb_spec (rq_Method r) "HEAD"); auto.
    simpl in Hm. bool_hyps. auto.
  - destruct (has_prefix _ _) eqn:Hp; [|done]. simpl. intros (k & c & i & ? & ? & ? & ? & ->)%Bearer_ok. by eapply by_bearer.
Qed.

Lemma find_route_in method segs l e id :
  find_route method segs l = Some (e, id) → ∃ m pat, (m, pat, e) ∈ l ∧ match_method m method = true.
Proof.
  induction l as [|[[m pat] e'] l IH]; [done|]. cbn [find_route].
  assert (find_route method segs l = Some (e, id) → ∃ m0 pat0, (m0, pat0, e) ∈ (m, pat, e') :: l ∧ match_method m0 method = true) as Hl.
  { intros (m0 & pat0 & ? & ?)%IH. exists m0, pat0. split; [by constructor|done]. }
  destruct (match_method m method) eqn:Hm; [|exact Hl]. destruct (match_pattern pat segs ""); [|exact Hl].
  intros [= -> ->]. exists m, pat. split; [constructor|done].
Qed.

Lemma match_post method : match_method "POST" method = true → method = "POST".
Proof.
  unfold match_method. change ("POST" =s "GET") with false. rewrite andb_false_l, orb_false_r.
  intros Hm. symmetry. by apply String.eqb_eq.
Qed.

(** Only [POST] routes write. *)
Lemma mutating_post method segs e id :
  find_route method segs routes = Some (e, id) → mutating e = true → method = "POST".
Proof.
  intros (m & pat & Hin & Hmm)%find_route_in He.
  assert (forallb (λ x : string * list string * Endpoint, negb (mutating x.2) || (x.1.1 =s "POST")) routes = true) as Hall by reflexivity.
  rewrite forallb_forall in Hall. apply list_elem_of_In in Hin. specialize (Hall _ Hin). simpl in Hall. rewrite He in Hall.
  simpl in Hall. apply String.eqb_eq in Hall. rewrite Hall in Hmm. by apply match_post.
Qed.

(** How [serve] reaches a handler, or leaves the store alone. *)
Lemma serve_cases an r src w w' out :
  serve cfg Target Depth an r src w = (w', out) →
  (wd_db w' = wd_db w ∧ (∃ h e, out = refuse h e) ∨ wd_db w' = wd_db w ∧ (out = live cfg (wd_db w) ∨ out = browser cfg r)) ∨
  Http.guard cfg r = None ∧
  ((match_method "POST" (rq_Method r) = true ∧ rq_Segments r = v1 ["auth"; "login"] ∧ login cfg an r w = (w', out)) ∨
   ∃ e id a, find_route (rq_Method r) (rq_Segments r) routes = Some (e, id) ∧
     presents (λ i, an_auth an (S i)) r (AuthState (wd_db w)) a ∧
     handle cfg Target Depth e an a r id src (wd_db w) = (wd_db w', out)).
Proof.
  unfold serve. destruct (Http.guard cfg r) as [e|]; [intros [= <- <-]; left; left; eauto|].
  destruct (match_method "GET" _ && bool_decide _); [intros [= <- <-]; left; right; auto|].
  destruct (match_method "POST" (rq_Method r) && bool_decide (rq_Segments r = v1 ["auth"; "login"])) eqn:Hl.
  { apply andb_true_iff in Hl as [? ?%bool_decide_eq_true]. right. auto. }
  destruct (find_route _ _ routes) as [[e id]|] eqn:Hf; [|intros [= <- <-]; left; right; auto].
  unfold authenticate. destruct (identify cfg _ r _) as [a|err] eqn:Hi.
  - destruct (handle _ _ _ _ _ _ _ _ _ _) as [db1 out1] eqn:Hh. intros [= <- <-]. right. split; [done|]. right.
    exists e, id, a. eauto using identify_presents.
  - destruct (limited _ _ _) as [l over]. intros [= <- <-]. left. left. eauto.
Qed.

(** The request signs in: it carries, from the configured origin, one credential of [v] in its
    body, neither revoked nor expired at an instant at which this request read the clock. *)
Definition signs_in (an : Answers) (r : HttpRequest) (v : State) : Prop :=
  rq_Segments r = v1 ["auth"; "login"] ∧ header r "Origin" = co_ExternalURL cfg ∧ BrowserSessionsEnabled cfg = true ∧
  ∃ credential k c i, read_body 4096 (λ v, dec_string1 "credential" v "") r = Ok credential ∧
    s_Credentials v !! k = Some c ∧ cr_Verifier c = Verifier credential ∧ cr_Revoked c = false ∧ ev_clk (an_env an) 0%nat i < cr_ExpiresAt c.

(** C12: Nobody changes the state without a live credential. Whatever a request does, if the
    store differs afterwards then the request passed the host and origin guard, it was a
    [POST], and it was either a sign-in from the configured origin whose body carries a
    credential that is neither revoked nor expired when the request is served, or it presented a credential that is neither revoked nor expired, and, when it
    did so through the browser cookie, with the right origin and CSRF token. *)
Theorem serve_authority an r src w w' out :
  serve cfg Target Depth an r src w = (w', out) → wd_db w' ≠ wd_db w →
  Http.guard cfg r = None ∧ rq_Method r = "POST" ∧
  (signs_in an r (AuthState (wd_db w)) ∨ ∃ a, presents (λ i, an_auth an (S i)) r (AuthState (wd_db w)) a).
Proof.
  intros Hs Hne. apply serve_cases in Hs as [[[? _]|[? _]]|[Hg Hs]]; [done..|]. split; [done|].
  destruct Hs as [(Hm & Hseg & Hl)|(e & id & a & Hf & Hp & Hh)].
  - apply match_post in Hm. split; [done|]. left. split; [done|].
    revert Hl. unfold login. destruct (BrowserSessionsEnabled cfg) eqn:Hb; cbn [negb]; [|by intros [= <- _]].
    destruct (String.eqb_spec (header r "Origin") (co_ExternalURL cfg)) as [Ho|]; [|by intros [= <- _]]. cbn [negb].
    destruct (limited _ _ _) as [l []]; [by intros [= <- _]|]. destruct (read_body _ _ _) as [credential|] eqn:Hc; [|by intros [= <- _]].
    cbv zeta. unfold Login. destruct (_ =s ""); [by intros [= <- _]|].
    destruct (Bearer _ _ _) as [a|] eqn:Hbe; [|by intros [= <- _]]. intros _. split; [done|]. split; [done|].
    apply Bearer_ok in Hbe as (k & c & i & ? & ? & ? & ? & _). by exists credential, k, c, (10 + 2 * i)%nat.
  - destruct (mutating e) eqn:He; [|destruct Hne; pose proof (handle_pure e an a r id src (wd_db w) He) as Hd; by rewrite Hh in Hd].
    split; [by eapply mutating_post|]. eauto.
Qed.

(** C13: Nobody exceeds their role. Every operation record and every plan that is not in the
    store before a request has an action the presenting credential's role allows (so a
    viewer never creates or changes one, and an operator only profile switches and
    restores), and the set of credentials changes only for an owner. *)
Theorem serve_roles an r src w w' out :
  serve cfg Target Depth an r src w = (w', out) →
  let s := st_state (wd_db w) in let s' := st_state (wd_db w') in
  let caller a := presents (λ i, an_auth an (S i)) r (AuthState (wd_db w)) a in
  (∀ id o, s_Operations s' !! id = Some o → s_Operations s !! id = Some o ∨
     ∃ a, caller a ∧ RoleAllows (a_Role a) (d_Action (pl_Draft (op_Plan o))) = true) ∧
  (∀ id p, s_Plans s' !! id = Some p → s_Plans s !! id = Some p ∨
     ∃ a, caller a ∧ RoleAllows (a_Role a) (d_Action (pl_Draft p)) = true) ∧
  (s_Credentials s' = s_Credentials s ∨ ∃ a, caller a ∧ a_Role a = "owner").
Proof.
  intros Hs. cbv zeta. apply serve_cases in Hs as [[[-> _]|[-> _]]|[_ [(_ & _ & Hl)|(e & id & a & _ & Hp & Hh)]]]; [split_and!; auto..| |].
  - assert (effect False (λ _, False) (st_state (wd_db w)) (st_state (wd_db w'))) as [Hc Ho Hpl].
    { revert Hl. unfold login. destruct (negb _); [intros [= <- _]; apply effect_refl|]. destruct (negb _); [intros [= <- _]; apply effect_refl|].
      destruct (limited _ _ _) as [l []]; [intros [= <- _]; apply effect_refl|].
      destruct (read_body _ _ _) as [credential|]; [|intros [= <- _]; apply effect_refl]. cbv zeta.
      destruct (Login _ _ _ _ _ _ _) as [db1 res] eqn:Hli. intros [= <- _]. by eapply effect_Login. }
    split_and!; [intros id o [|[]]%Ho|intros id p [|[]]%Hpl|destruct Hc as [|[]]]; auto.
  - apply handle_effect in Hh as [Hc Ho Hpl].
    split_and!; [intros k o [|]%Ho|intros k p [|]%Hpl|destruct Hc as [|]]; eauto.
Qed.

(** ** What an answer discloses *)

Definition evidence_record (o : Operation) : bool := EvidenceAction (d_Action (pl_Draft (op_Plan o))).

(** Answers that carry owner-only material: evidence plans and operations, summaries,
    artifacts, advisory results, telemetry, the credential list and the audit log. *)
Definition discloses (p : Payload) : bool :=
  match p with
  | PPlan p => EvidenceAction (d_Action (pl_Draft p))
  | POperation o => evidence_record o
  | POperations l => existsb evidence_record l
  | PMemory _ | PMemorySummary _ | PPerformanceSummary _ | PArtifact _ | PAdvice _ _ | PTelemetry _ | PCredentials _ | PAudit _ => true
  | _ => false
  end.

Lemma refuse_discloses h e : discloses (rs_Payload (refuse h e)) = false.
Proof. unfold refuse. by destruct (fail e) as [[? ?] ?]. Qed.

Lemma answer_discloses x : discloses (rs_Payload (answer x)) = true → ∃ p, x = Ok p ∧ discloses (rs_Payload p) = true.
Proof. destruct x as [p|e]; simpl; [eauto|by rewrite refuse_discloses]. Qed.

Lemma conclude_discloses {A} (x : Store * result A) k db' out :
  conclude x k = (db', out) → discloses (rs_Payload out) = true → ∃ y, x = (db', Ok y) ∧ out = k y.
Proof. destruct x as [db [y|e]]; intros [= <- <-]; [eauto|by rewrite refuse_discloses]. Qed.

Lemma checked_discloses {A} db (x : result A) k db' out :
  checked db x k = (db', out) → discloses (rs_Payload out) = true → ∃ y, x = Ok y ∧ k y = (db', out).
Proof. destruct x as [y|e]; simpl; [eauto|intros [= <- <-]; by rewrite refuse_discloses]. Qed.

Lemma RoleAllows_evidence role action : RoleAllows role action = true → EvidenceAction action = true → role = "owner".
Proof.
  unfold RoleAllows. destruct (String.eqb_spec role "owner"); [done|]. intros [_ Ha]%andb_true_iff.
  by apply orb_true_iff in Ha as [Ha%String.eqb_eq|Ha%String.eqb_eq]; rewrite Ha.
Qed.

Lemma Cancel_role clk w a id revision db db' o :
  Engine.Cancel clk w a id revision db = (db', Ok o) → RoleAllows (a_Role a) (d_Action (pl_Draft (op_Plan o))) = true.
Proof.
  unfold Engine.Cancel. destruct (Update _ _ _ _) as [db1 [u|]] eqn:Hu; [|done]. intros [= -> He].
  apply Update_ok in Hu as (_ & v & Hv & ->). destruct u. pose proof Hv as Hv'. unfold cancel_tx in Hv. split_hyp Hv. bool_hyps.
  apply cancel_tx_ok in Hv' as (o1 & o2 & Ho1 & _ & Ho2 & Hev & _). simplify_eq.
  unfold engine_Operation, st_Operation in He. simpl in He.
  destruct (s_Operations (committed clk _) !! id) as [o'|] eqn:Ho'; [|done]. injection He as ->.
  eapply lookup_weaken in Ho'; [|apply committed_subseteq]. rewrite Ho2, lookup_insert_eq in Ho'. injection Ho' as <-.
  by rewrite (ev_Plan _ _ Hev).
Qed.

Lemma handle_discloses e an a r id src db db' out :
  handle cfg Target Depth e an a r id src db = (db', out) → discloses (rs_Payload out) = true → a_Role a = "owner".
Proof.
  destruct e; cbn [handle]; intros Hh Hd.
  all: try (injection Hh as <- <-).
  all: try (apply answer_discloses in Hd as (p & Hp & Hd); apply owner_ok in Hp; by destruct Hp).
  - unfold session in Hd. by destruct (match rq_Cookie r !! _ with Some _ => _ | None => _ end).
  - unfold logout in Hh. destruct (rq_Cookie r !! _); [|by simplify_eq]. by destruct (conclude_discloses _ _ _ _ Hh Hd) as (? & _ & ->).
  - unfold inventory in Hd. apply answer_discloses in Hd as (p & Hp & Hd). apply bind_ok in Hp as (inv & _ & Hp). injection Hp as <-.
    revert Hd. cbv zeta. repeat case_match; done.
  - unfold memoryAdvice in Hh. apply checked_discloses in Hh as ([[[[? ?] ?] ?] ?] & Hr & _); [|done].
    by apply advice_request_ok in Hr as [].
  - unfold memoryInspect in Hh. apply checked_discloses in Hh as (y & Hy & _); [|done]. by apply owner_ok in Hy as [].
  - unfold performanceInspect in Hh. apply checked_discloses in Hh as (y & Hy & _); [|done]. by apply owner_ok in Hy as [].
  - unfold profiles in Hd. destruct (ad_Snapshot _); [done|]. by rewrite refuse_discloses in Hd.
  - unfold configuration in Hd. apply answer_discloses in Hd as (p & Hp & Hd). apply bind_ok in Hp as (c & _ & Hp). by injection Hp as <-.
  - unfold plan in Hh. apply checked_discloses in Hh as (d & _ & Hh); [|done]. apply conclude_discloses in Hh as (p & Hp & ->); [|done].
    apply CreatePlan_ok in Hp as ((c & inv & pv & Hpl) & _). simpl in Hd.
    rewrite (pd_Draft _ _ _ _ _ _ _ _ _ _ _ _ Hpl) in Hd. eapply RoleAllows_evidence; [apply Hpl|done].
  - unfold getPlan in Hd. destruct (st_Plan db id) as [p|]; [|by rewrite refuse_discloses in Hd].
    apply answer_discloses in Hd as (p' & Hp & Hd). destruct (EvidenceAction _) eqn:He; [by apply owner_ok in Hp as []|].
    injection Hp as <-. simpl in Hd. congruence.
  - unfold apply in Hh. apply checked_discloses in Hh as (y & _ & Hh); [|done]. apply conclude_discloses in Hh as (op & Hop & ->); [|done].
    apply Apply_Update, Update_ok in Hop as (_ & v & Hv & _). simpl in Hd.
    apply apply_tx_ok in Hv as [(_ & Hacc & _)|(_ & _ & _ & _ & _ & Hr)]; eapply RoleAllows_evidence; try exact Hd; [apply Hacc|exact Hr].
  - unfold operations in Hd. destruct (id <>s ""); simpl in Hd.
    + destruct (engine_Operation db id) as [o|]; [|by rewrite refuse_discloses in Hd].
      destruct (String.eqb_spec (a_Role a) "owner"); [done|]. cbn [negb] in Hd. rewrite andb_true_r in Hd.
      destruct (EvidenceAction _) eqn:He; [by rewrite refuse_discloses in Hd|]. simpl in Hd. unfold evidence_record in Hd. congruence.
    + destruct (String.eqb_spec (a_Role a) "owner"); [done|]. simpl in Hd. apply existsb_exists in Hd as (o & Ho & He).
      apply list_elem_of_In, list_elem_of_filter in Ho as [Hf _]. unfold evidence_record in He. congruence.
  - unfold cancel in Hh. apply checked_discloses in Hh as (rev & _ & Hh); [|done]. apply conclude_discloses in Hh as (o & Ho & ->); [|done].
    apply Cancel_role in Ho. by eapply RoleAllows_evidence.
  - unfold recover in Hh. apply checked_discloses in Hh as (y & _ & Hh); [|done]. apply conclude_discloses in Hh as (p & Hp & ->); [|done].
    unfold Recover in Hp. by destruct (String.eqb_spec (a_Role a) "owner").
  - unfold export in Hd. apply answer_discloses in Hd as (p & Hp & Hd). apply bind_ok in Hp as (b & _ & Hp). by injection Hp as <-.
  - unfold revoke in Hh. apply checked_discloses in Hh as (y & _ & Hh); [|done]. by destruct (conclude_discloses _ _ _ _ Hh Hd) as (? & _ & ->).
Qed.

(** C14: Owner-only material stays with owners. An answer that carries an evidence plan or
    operation, an evidence or performance summary, an artifact, an advisory result,
    telemetry, the credential list or the audit log is only ever given to a request that
    presents a live owner credential. *)
Theorem evidence_confined an r src w w' out :
  serve cfg Target Depth an r src w = (w', out) → discloses (rs_Payload out) = true →
  ∃ a, presents (λ i, an_auth an (S i)) r (AuthState (wd_db w)) a ∧ a_Role a = "owner".
Proof.
  intros Hs Hd. apply serve_cases in Hs as [[[_ (h & e & ->)]|[_ [->| ->]]]|[_ [(_ & _ & Hl)|(e & id & a & _ & Hp & Hh)]]].
  - by rewrite refuse_discloses in Hd.
  - done.
  - unfold browser in Hd. repeat (case_match; try (by rewrite refuse_discloses in Hd)); done.
  - revert Hl Hd. unfold login. repeat (destruct (negb _); [intros [= _ <-]; by rewrite refuse_discloses|]).
    destruct (limited _ _ _) as [l []]; [intros [= _ <-]; by rewrite refuse_discloses|].
    destruct (read_body _ _ _); [|intros [= _ <-]; by rewrite refuse_discloses]. cbv zeta.
    destruct (Login _ _ _ _ _ _ _) as [db1 [[[a0 token] se]|err]]; intros [= _ <-]; [done|by rewrite refuse_discloses].
  - exists a. eauto using handle_discloses.
Qed.
End Service.

(** ** A live controller with one owner *)

Module ApiFixture.
#[export] Existing Instance ConfigFixture.parser.
#[export] Existing Instance AuthFixture.hash.
#[export] Existing Instance AuthFixture.enc.
#[export] Existing Instance render_hash.
#[export] Instance docs : JSONText := λ _, None.
#[export] Instance text : JSONRender := render.

Definition policy : Config :=
  let c := ConfigFixture.live in
  mkConfig (co_Mode c) (co_StateDir c) (co_SourcePath c) (co_Listen c) (co_AllowedHosts c) (co_ExternalURL c) (co_TLSCertFile c)
    (co_TLSKeyFile c) (co_BrowserSessions c) (co_OwnerUID c) (co_Target c) (co_Environment c) (co_ReferenceRoot c) (co_ModelRoot c)
    (co_CompilerCacheRoot c) (co_ShaderCacheRoot c) (co_HostSocket c) (co_WorkerSocket c) (co_ClientBaseURL c) (co_QueueDepth c)
    (co_OperationTimeoutSeconds c) (co_Telemetry c) (mkAdvisor true "model" "/etc/key" 10 4 6 true).
Definition cred : Credential := mkCredential "u" "owner" "owner" ("v" +:+ AuthFixture.secret) 0 (12 * Hour) false.
Definition db : Store := let s := set_s_Credentials {["u" := cred]} (NewState "live") in mkStore s false s.
Definition world : World := mkWorld db Limiter0.
Definition source : SourceFile := Document DomainFixture.config.
Definition ev : Env := mkEnv (λ _ _, 11 * Hour) (λ _, Written) Written
  (mkAdapter (Ok (DomainFixture.inventory 2)) (λ _ _, Ok Preview0) (λ _, Returned Result0 None) (λ _, Err (Plain "unknown")) None) false.
(** A provider that asks for the plan twice. *)
Definition run : AdviceRun :=
  ToolCall "request_memory_plan" ev (λ _, 11 * Hour) "p1" (λ _,
    ToolCall "request_memory_plan" ev (λ _, 11 * Hour) "p2" (λ _,
      Advised (mkAdvisorResult "s" "text" 2 0 None true "" false false false) None)).
Definition off : TelemetryState := mkTelemetryState "disabled" None "".
Definition answers : Answers := mkAnswers (λ _, 11 * Hour) ev false (λ n, if Nat.eqb n 0 then "p" else "q")
  (λ _, Err (Plain "none")) (Some (mkMemoryAdapter (λ _ _, Ok MemorySummary0) (λ _ _, Err (Plain "none")))) None (Some run) (off, off, (off, [])).
Definition request (method : string) (segs : list string) (body : JSON) : HttpRequest :=
  mkHttpRequest method ("/" +:+ String.concat "/" segs) segs "" false "bridge.example.net" "10.0.0.9"
    {["Authorization" := "Bearer " +:+ AuthFixture.secret; "Content-Type" := "application/json"]} ∅ (mkBody 200 (Some [body])).
Definition post_plan : HttpRequest := request "POST" (v1 ["plans"]) (Draft_json DomainFixture.configure).
Definition get_audit : HttpRequest := request "GET" (v1 ["audit"]) (JObject []).
Definition post_advice : HttpRequest := request "POST" (v1 ["memory"; "advice"])
  (MemoryRequest_json (mkMemoryRequest "evidence-1" (String.concat "" (repeat "0123456789abcdef" 4)) 100)).
Definition owner : Actor := mkActor "u" "owner" "owner".
Definition plan_result := serve policy "ws" 4 answers post_plan source world.
Definition audit_result := serve policy "ws" 4 answers get_audit source world.
Definition advice_result := memoryAdvice policy "ws" answers owner post_advice source db.
Definition plan_count (s : Store) : nat := size (s_Plans (st_state s)).
End ApiFixture.
Import ApiFixture.

Example fixture_plan : rs_Status plan_result.2 = 201 ∧ plan_count (wd_db plan_result.1) = 1%nat.
Proof. split; vm_compute; reflexivity. Qed.
Example fixture_advice : rs_Status advice_result.2 = 200 ∧ plan_count advice_result.1 = 1%nat.
Proof. split; vm_compute; reflexivity. Qed.

Lemma changed_plans db1 db2 : plan_count db1 ≠ plan_count db2 → db1 ≠ db2.
Proof. congruence. Qed.
Lemma plan_changed : wd_db plan_result.1 ≠ wd_db world.
Proof. apply changed_plans. vm_compute. discriminate. Qed.
Lemma advice_changed : advice_result.1 ≠ db.
Proof. apply changed_plans. vm_compute. discriminate. Qed.

Lemma serve_authority_witness :
  rq_Method post_plan = "POST" ∧
  (signs_in policy answers post_plan (AuthState (wd_db world)) ∨ ∃ a, presents policy (λ i, an_auth answers (S i)) post_plan (AuthState (wd_db world)) a).
Proof.
  exact (proj2 (serve_authority policy "ws" 4 answers post_plan source world plan_result.1 plan_result.2
                  (surjective_pairing _) plan_changed)).
Defined.

Lemma serve_roles_witness :
  s_Credentials (st_state (wd_db plan_result.1)) = s_Credentials (st_state (wd_db world)) ∨
  ∃ a, presents policy (λ i, an_auth answers (S i)) post_plan (AuthState (wd_db world)) a ∧ a_Role a = "owner".
Proof.
  exact (proj2 (proj2 (serve_roles policy "ws" 4 answers post_plan source world plan_result.1 plan_result.2 (surjective_pairing _)))).
Defined.

Lemma evidence_confined_witness :
  ∃ a, presents policy (λ i, an_auth answers (S i)) get_audit (AuthState (wd_db world)) a ∧ a_Role a = "owner".
Proof.
  assert (discloses (rs_Payload audit_result.2) = true) as Hd by (vm_compute; reflexivity).
  exact (evidence_confined policy "ws" 4 answers get_audit source world audit_result.1 audit_result.2 (surjective_pairing _) Hd).
Defined.

Lemma memoryAdvice_bounded_witness :
  s_Operations (st_state advice_result.1) ⊆ s_Operations (st_state db) ∧ co_Mode policy = "live".
Proof.
  destruct (memoryAdvice_bounded policy "ws" answers owner post_advice source db advice_result.1 advice_result.2
              (surjective_pairing _)) as (Ho & _ & _ & Hc).
  split; [exact Ho|]. exact (proj1 (proj2 (Hc advice_changed))).
Defined.
