(* ===== verification/Advice.v ===== *)
(** The memory adviser over a whole run: where it sends, what it asks of the workstation, that
    it ends, and what it reports of a session it may have started ([Advisor]). *)
From S2P Require Import Prelude Interact Json Types Config Wire Evidence Api Advisor.
#[local] Open Scope Z_scope.

Abbreviation cloud_event := {e : CloudAct & cloud_answer e}.
Abbreviation cev e v := (ev (answer := cloud_answer) e v).

(** ** What a history holds *)

Definition exchange_of (i : cloud_event) : option CloudRequest := match projT1 i with CExchange r => Some r | _ => None end.
Definition handler_of (i : cloud_event) : option string := match projT1 i with CHandler name => Some name | _ => None end.
Definition exchanges (h : list cloud_event) : list CloudRequest := omap exchange_of h.
(** The functions the local handler was asked for. *)
Definition handled (h : list cloud_event) : list string := omap handler_of h.
Definition body_bytes (r : CloudRequest) : Z := match cq_Body r with Some b => str_len b | None => 0 end.
Definition sent (l : list CloudRequest) : Z := foldr (λ r n, body_bytes r + n) 0 l.
Lemma sent_app l l' : sent (l ++ l') = sent l + sent l'.
Proof. unfold sent. induction l; cbn [foldr app]; lia. Qed.
(** A successful answer of the handler. *)
Definition answered_by (name : string) (h : list cloud_event) : Prop := ∃ out, cev (CHandler name) (Ok out) ∈ h.
(** Every plan was asked for after evidence and capacity had been read. *)
Definition planned_last (h : list cloud_event) : Prop := ∀ h1 o h2, h = h1 ++ cev (CHandler RequestMemoryPlan) o :: h2 →
  answered_by ReadMemoryEvidence h1 ∧ answered_by ExplainMemoryCapacity h1.

Lemma app_snoc {A} (h : list A) x h1 y h2 : h ++ [x] = h1 ++ y :: h2 → (h2 = [] ∧ h = h1 ∧ x = y) ∨ ∃ h3, h2 = h3 ++ [x] ∧ h = h1 ++ y :: h3.
Proof.
  destruct (rev h2) as [|z l] eqn:E.
  - apply (f_equal (@rev A)) in E. rewrite rev_involutive in E. subst h2. intros [-> [= ->]]%app_inj_tail. by left.
  - apply (f_equal (@rev A)) in E. rewrite rev_involutive in E. cbn in E. subst h2. rewrite app_comm_cons, app_assoc.
    intros [-> ->]%app_inj_tail. right. by exists (rev l).
Qed.
Lemma answered_mono name h h' : answered_by name h → answered_by name (h ++ h').
Proof. intros [out Hi]. exists out. apply elem_of_app. by left. Qed.
Lemma planned_snoc h i : planned_last h → (handler_of i = Some RequestMemoryPlan → answered_by ReadMemoryEvidence h ∧ answered_by ExplainMemoryCapacity h) →
  planned_last (h ++ [i]).
Proof.
  intros Hp Hi h1 o h2 [(-> & -> & ->)|(h3 & -> & ->)]%app_snoc; [by apply Hi|]. by eapply Hp.
Qed.

Section Advice.
Context `{NetParse} `{JSONText} `{JSONRender} `{RawArguments} (Sum : string → string) (policy : Advisor) (key : string).

(** Where a request may go, and with which credential. *)
Definition confined (r : CloudRequest) : Prop :=
  (∃ path u, cq_URL r = apiOrigin +:+ path ∧ url_Parse (cq_URL r) = Some u ∧ u_Scheme u = "https" ∧ u_Host u = "api.openai.com" ∧
    u_User u = false ∧ has_prefix (u_Path u) sessionsPath = true ∧ u_Fragment u = "") ∧
  (∃ idempotency, cq_Header r = headers key idempotency (cq_Body r)) ∧ body_bytes r ≤ maxResponseBytes.

(** ** One exchange *)

Lemma exchange_leaf limits method path idem body h limits' out : leaf (exchange key limits method path idem body) h (limits', out) →
  (h = [] ∧ (bg_requests limits ≤ bg_requests limits' ≤ Z.max (bg_requests limits) maxRequests) ∧ bg_bytes limits ≤ bg_bytes limits' ∧ ∃ e, out = inl (Other e)) ∨
  ∃ r a, h = [cev (CExchange r) a] ∧ confined r ∧ cq_Method r = method ∧ cq_URL r = apiOrigin +:+ path ∧ cq_Body r = (json_text <$> body) ∧
    bg_requests limits < maxRequests ∧ bg_requests limits' = bg_requests limits + 1 ∧
    bg_bytes limits + body_bytes r ≤ bg_bytes limits' ∧ bg_bytes limits + body_bytes r ≤ maxTotalBytes ∧
    match out with
    | inr data => ∃ code, a = CloudAnswered code data true ∧ 200 ≤ code < 300
    | inl (ProviderStatus code) => ∃ data readable, a = CloudAnswered code data readable
    | inl (Other _) => True
    end.
Proof.
  unfold exchange. destruct (_ || _) eqn:Hb; [intros [-> [= -> ->]]; left; split_and!; eauto; lia|]. bool_hyps. cbv zeta.
  destruct (endpoint path) as [url|] eqn:He; [|intros [-> [= -> ->]]; left; unfold maxRequests in *; cbn; split_and!; eauto; lia].
  set (n := match json_text <$> body with Some b => str_len b | None => 0 end).
  assert (0 ≤ n) as Hn by (subst n; destruct (json_text <$> body); unfold str_len; lia).
  destruct (n >? maxResponseBytes) eqn:Hm; [intros [-> [= -> ->]]; left; unfold maxRequests in *; cbn; split_and!; eauto; lia|].
  cbn [bg_bytes bg_requests]. destruct (bg_bytes limits + n >? maxTotalBytes) eqn:Ht; [intros [-> [= -> ->]]; left; unfold maxRequests in *; cbn; split_and!; eauto; lia|].
  intros (a & h' & -> & Hl). right. exists (mkCloudRequest method url (headers key idem (json_text <$> body)) (json_text <$> body)), a.
  unfold endpoint in He. destruct (url_Parse (apiOrigin +:+ path)) as [u|] eqn:Hu; [|done].
  match type of He with (if ?c then _ else _) = _ => destruct c eqn:Hc end; [done|]. injection He as <-. bool_hyps.
  assert (confined (mkCloudRequest method (apiOrigin +:+ path) (headers key idem (json_text <$> body)) (json_text <$> body))) as Hconf.
  { split; [exists path, u; cbn; split_and!; done|]. split; [by exists idem|]. unfold body_bytes. cbn. fold n. lia. }
  assert (body_bytes (mkCloudRequest method (apiOrigin +:+ path) (headers key idem (json_text <$> body)) (json_text <$> body)) = n) as -> by done.
  destruct a as [|expired|code data readable]; cbn in Hl.
  - destruct Hl as [-> [= -> ->]]. cbn. split_and!; done || lia.
  - destruct expired; destruct Hl as [-> [= -> ->]]; cbn; split_and!; done || lia.
  - destruct (_ || _) eqn:Hcode.
    + destruct Hl as [-> [= -> ->]]. cbn. split_and!; eauto; done || lia.
    + bool_hyps. destruct (negb readable || _ || _) eqn:Hr; destruct Hl as [-> [= -> ->]]; cbn.
      * split_and!; try (done || lia). unfold str_len, maxResponseBytes in *. lia.
      * bool_hyps. subst readable. split_and!; try (done || lia); unfold str_len, maxResponseBytes in *; [lia|]. exists code. split; [done|lia].
Qed.

(** ** What every part of a run keeps *)

Definition function_names : list string := [ReadMemoryEvidence; ExplainMemoryCapacity; RequestMemoryPlan].
(** A turn that ended was read. *)
Definition ended (h : list cloud_event) : Prop := ∃ r code data t,
  cev (CExchange r) (CloudAnswered code data true) ∈ h ∧ (∃ more, read_turns data = Some ([t], more)) ∧ tn_Status t ∈ ["completed"; "failed"; "cancelled"].
Record Facts (h : list cloud_event) (s : Adv) : Prop := {
  fa_requests : Z.of_nat (length (exchanges h)) ≤ bg_requests (ad_Limits s) ≤ maxRequests;
  fa_bytes : sent (exchanges h) ≤ bg_bytes (ad_Limits s) ∧ sent (exchanges h) ≤ maxTotalBytes;
  fa_confined : Forall confined (exchanges h);
  fa_once : NoDup (handled h);
  fa_names : ∀ name, name ∈ handled h → name ∈ function_names;
  fa_plan : planned_last h;
  fa_calls : 0 ≤ ar_ToolCalls (ad_Result s) ≤ Z.max 0 (av_MaxToolCalls policy);
  fa_ended : ad_Terminal s = true → ended h }.
(** The outcomes kept are those of the calls made. *)
Record Live (h : list cloud_event) (s : Adv) : Prop := {
  lv_facts : Facts h s;
  lv_cached : ∀ name, name ∈ handled h → is_Some (ad_Tools s !! name);
  lv_success : ∀ name t, ad_Tools s !! name = Some t → to_Success t = true → answered_by name h }.

Definition triple {A} (P : list cloud_event → Adv → Prop) (m : Advising A) (Q : A → list cloud_event → Adv → Prop) : Prop :=
  ∀ h0 s h s' r, P h0 s → leaf (m s) h (s', r) → match r with Ok a => Q a (h0 ++ h) s' | Err _ => Facts (h0 ++ h) s' end.
Abbreviation keeps m := (triple Live m (λ _, Live)).

Lemma triple_ret {A} (Q : A → _ → _ → Prop) a : triple (Q a) (mret a) Q.
Proof. intros h0 s h s' r HP [-> [= -> ->]]. by rewrite app_nil_r. Qed.
Lemma triple_weaken {A} P P' (Q Q' : A → list cloud_event → Adv → Prop) m : triple P m Q → (∀ h s, P' h s → P h s) → (∀ a h s, Q a h s → Q' a h s) → triple P' m Q'.
Proof. intros Hm HP HQ h0 s h s' r K0 Hl. pose proof (Hm _ _ _ _ _ (HP _ _ K0) Hl) as Hr. destruct r; auto. Qed.
Lemma keeps_pre {A} (P : _ → _ → Prop) (m : Advising A) : keeps m → (∀ h s, P h s → Live h s) → triple P m (λ _, Live).
Proof. intros Hm HP. by eapply triple_weaken. Qed.
Lemma triple_pre {A} (P P' : _ → _ → Prop) (m : Advising A) Q : (∀ h s, P' h s → P h s) → triple P m Q → triple P' m Q.
Proof. intros HP Hm. by eapply triple_weaken. Qed.
Lemma triple_bind {A B} P (Q : A → _ → _ → Prop) (R : B → _ → _ → Prop) m f :
  triple P m Q → (∀ a, triple (Q a) (f a) R) → triple P (m ≫= f) R.
Proof.
  intros Hm Hf h0 s h s' r HP (h1 & [s1 r1] & h2 & -> & K1 & K2)%leaf_bind. specialize (Hm _ _ _ _ _ HP K1). cbn in K2. rewrite app_assoc.
  destruct r1 as [a|e]; [by apply (Hf a _ _ _ _ _ Hm)|]. destruct K2 as [-> [= -> ->]]. by rewrite app_nil_r.
Qed.
Lemma keeps_then {A B} (m : Advising A) (f : A → Advising B) : keeps m → (∀ a, keeps (f a)) → keeps (m ≫= f).
Proof. apply triple_bind. Qed.
Lemma keeps_done {A} (a : A) : keeps (mret a).
Proof. apply (triple_ret (λ _, Live)). Qed.
Lemma triple_stop {A} (P : _ → _ → Prop) (Q : A → _ → _ → Prop) e : (∀ h s, P h s → Facts h s) → triple P (stop e) Q.
Proof. intros HP h0 s h s' r Hp [-> [= -> ->]]. rewrite app_nil_r. by apply HP. Qed.
Lemma keeps_stop {A} e : keeps (@stop A e).
Proof. apply triple_stop. by intros h s []. Qed.
(** Looking at the state: what follows may rely on it. *)
Lemma triple_state {A} (P : _ → _ → Prop) (Q : A → _ → _ → Prop) f : (∀ s0, triple (λ h s, P h s ∧ s = s0) (f s0) Q) → triple P (current_state ≫= f) Q.
Proof. intros Hf h0 s h s' r HP Hl. by apply (Hf s h0 s h s' r). Qed.
Lemma keeps_check {A} (r : result A) : keeps (check r).
Proof. intros h0 s h s' r' HP [-> [= -> ->]]. rewrite app_nil_r. destruct r; [done|apply HP]. Qed.
Lemma keeps_state : keeps current_state.
Proof. intros h0 s h s' r HP [-> [= -> ->]]. by rewrite app_nil_r. Qed.
(** An assignment that leaves the budget, the tools and the counts alone. *)
Lemma keeps_assign f : (∀ s, ad_Limits (f s) = ad_Limits s ∧ ad_Tools (f s) = ad_Tools s ∧ ad_Terminal (f s) = ad_Terminal s ∧
  ar_ToolCalls (ad_Result (f s)) = ar_ToolCalls (ad_Result s)) → keeps (assign f).
Proof.
  intros Hf h0 s h s' r [[] Hc Hs] [-> [= -> ->]]. rewrite app_nil_r. destruct (Hf s) as (K1 & K2 & K3 & K4).
  split; [split|..]; rewrite ?K1, ?K2, ?K3, ?K4; done.
Qed.
Lemma keeps_result g : (∀ r, ar_ToolCalls (g r) = ar_ToolCalls r) → keeps (assign (set_ad_Result g)).
Proof. intros Hg. apply keeps_assign. intros []. cbn. by rewrite Hg. Qed.
(** An interaction that is neither an exchange nor a call of the handler. *)
Lemma quiet_event i h s : exchange_of i = None → handler_of i = None → Live h s → Live (h ++ [i]) s.
Proof.
  intros Hx Hh [[] Hc Hs]. assert (exchanges (h ++ [i]) = exchanges h) as He by (unfold exchanges; rewrite omap_app; cbn; by rewrite Hx, app_nil_r).
  assert (handled (h ++ [i]) = handled h) as Hd by (unfold handled; rewrite omap_app; cbn; by rewrite Hh, app_nil_r).
  split; [split|..]; rewrite ?He, ?Hd; try done.
  - apply planned_snoc; [done|]. by rewrite Hh.
  - intros Ht. destruct (fa_ended0 Ht) as (r & c & d & t & Hi & Hrest). exists r, c, d, t. split; [set_solver|done].
  - intros name t Ht Hsu. by apply answered_mono, (Hs _ t).
Qed.
Lemma keeps_expired : keeps expired.
Proof.
  unfold expired. apply keeps_then; [|intros []; [apply keeps_stop|apply keeps_done]].
  intros h0 s h s' r HP (v & h' & -> & -> & [= -> ->]). by apply quiet_event.
Qed.
Lemma facts_exchange r a h s s' n : confined r → n = bg_requests (ad_Limits s) → bg_requests (ad_Limits s') = n + 1 → n < maxRequests →
  bg_bytes (ad_Limits s) + body_bytes r ≤ bg_bytes (ad_Limits s') → bg_bytes (ad_Limits s) + body_bytes r ≤ maxTotalBytes →
  ad_Tools s' = ad_Tools s → ad_Terminal s' = ad_Terminal s → ad_Result s' = ad_Result s →
  Live h s → Live (h ++ [cev (CExchange r) a]) s'.
Proof.
  intros Hr -> Hn Hlt Hb Hmax Ht Hte Hre [[] Hc Hs].
  assert (exchanges (h ++ [cev (CExchange r) a]) = exchanges h ++ [r]) as He by (unfold exchanges; by rewrite omap_app).
  assert (handled (h ++ [cev (CExchange r) a]) = handled h) as Hd by (unfold handled; rewrite omap_app; cbn; by rewrite app_nil_r).
  split; [split|..]; rewrite ?He, ?Hd, ?Ht, ?Hte, ?Hre; try done.
  - rewrite length_app. cbn. lia.
  - rewrite sent_app. unfold sent at 2 4. cbn. lia.
  - by apply Forall_app_2; [|constructor].
  - by apply planned_snoc.
  - intros Htt. destruct (fa_ended0 Htt) as (r' & c & d & t & Hi & Hrest). exists r', c, d, t. split; [set_solver|done].
  - intros name t Htt Hsu. by apply answered_mono, (Hs _ t).
Qed.
(** A request, and what an answer it gives was. *)
Definition received (a : Fault + string) (h : list cloud_event) : Prop :=
  match a with inr data => ∃ r code, cev (CExchange r) (CloudAnswered code data true) ∈ h | inl _ => True end.
Lemma ask_cloud_keeps method path idem body : triple Live (ask_cloud key method path idem body) (λ a h s, Live h s ∧ received a h).
Proof.
  intros h0 s h s' r HP (h1 & [l out] & h2 & -> & K1 & [-> [= -> ->]])%leaf_bind. cbn. rewrite app_nil_r.
  apply exchange_leaf in K1 as [(-> & Hr & Hb & e & ->)|(rq & a & -> & Hc & _ & _ & _ & Hlt & Hn & Hb & Hm & Ha)].
  - rewrite app_nil_r. destruct s. cbn in *. split; [|done]. destruct HP as [[] ? ?]. split; [split|..]; try done; cbn in *; lia.
  - split; [|by destruct out as [|data]; [|destruct Ha as (code & -> & _); exists rq, code; set_solver]].
    apply (facts_exchange rq a h0 s (set_ad_Limits l s) _ Hc eq_refl); destruct s; cbn in *; done || lia.
Qed.
Lemma keeps_cloud method path idem body : keeps (ask_cloud key method path idem body).
Proof. eapply triple_weaken; [apply ask_cloud_keeps|done|by intros a h s []]. Qed.
Lemma keeps_session method path body : keeps (ask_session key method path body).
Proof. unfold ask_session. apply keeps_then; [apply keeps_cloud|intros; apply keeps_done]. Qed.
(** A value that was read stays read. *)
Definition value_read {A} (decode : string → option A) (v : A) (h : list cloud_event) : Prop :=
  ∃ r code data, cev (CExchange r) (CloudAnswered code data true) ∈ h ∧ decode data = Some v.
Lemma ask_value_keeps {A} (decode : string → option A) path : triple Live (ask_value key decode path) (λ v h s, Live h s ∧ value_read decode v h).
Proof.
  eapply triple_bind; [apply ask_cloud_keeps|]. intros [f|data]; [by apply triple_stop; intros h s [[] _]|].
  destruct (decode data) as [v|] eqn:Hd; [|by apply triple_stop; intros h s [[] _]].
  intros h0 s h s' r [HP (rq & code & Hi)] [-> [= -> ->]]. rewrite app_nil_r. split; [done|]. by exists rq, code, data.
Qed.
Lemma keeps_value {A} (decode : string → option A) path : keeps (ask_value key decode path).
Proof. eapply triple_weaken; [apply ask_value_keeps|done|by intros a h s []]. Qed.

Ltac keep :=
  repeat first
    [ match goal with
      | |- ∀ _, _ => intro
      | |- triple _ (mret _) _ => apply keeps_done
      | |- triple _ (stop _) _ => apply keeps_stop
      | |- triple _ (check _) _ => apply keeps_check
      | |- triple _ current_state _ => apply keeps_state
      | |- triple _ expired _ => apply keeps_expired
      | |- triple _ (ask_session _ _ _ _) _ => apply keeps_session
      | |- triple _ (ask_cloud _ _ _ _ _) _ => apply keeps_cloud
      | |- triple _ (ask_value _ _ _) _ => apply keeps_value
      | |- triple _ (mbind _ _) _ => apply keeps_then
      | |- triple _ (record_usage _ _) _ => apply keeps_result; intros []; done
      | |- triple _ (assign (set_ad_Result _)) _ => apply keeps_result; intros []; done
      | |- triple _ (match ?c with _ => _ end) _ => destruct c
      end
    | progress cbn beta iota zeta ].

(** ** Tools *)

Lemma keeps_record_call call : keeps (record_call policy call).
Proof.
  unfold record_call. apply triple_state. intros s0. destruct (ad_Calls s0 !! _).
  { apply keeps_pre; [keep|by intros h s []]. }
  destruct (_ >=? _) eqn:Hlim; [apply triple_stop; by intros h s [[] _]|]. bool_hyps.
  intros h0 s h s' r [HP ->] [-> [= -> ->]]. rewrite app_nil_r. destruct s0 as [l [] t tl cl rt], HP as [[] Hc Hs]. cbn in *.
  split; [split|..]; try done. cbn in *. lia.
Qed.
(** The handler is asked for one function. *)
Lemma handler_event name out h s : Facts h s → name ∈ function_names → name ∉ handled h →
  (name = RequestMemoryPlan → answered_by ReadMemoryEvidence h ∧ answered_by ExplainMemoryCapacity h) → Facts (h ++ [cev (CHandler name) out]) s.
Proof.
  intros [] Hn Hnew Hp. assert (exchanges (h ++ [cev (CHandler name) out]) = exchanges h) as He by (unfold exchanges; rewrite omap_app; cbn; by rewrite app_nil_r).
  assert (handled (h ++ [cev (CHandler name) out]) = handled h ++ [name]) as Hd by (unfold handled; by rewrite omap_app).
  split; rewrite ?He, ?Hd; try done.
  - apply NoDup_app. split; [done|]. split; [|apply NoDup_singleton]. intros x Hx ->%list_elem_of_singleton. done.
  - intros x [Hx| ->%list_elem_of_singleton]%elem_of_app; auto.
  - apply planned_snoc; [done|]. intros [= ->]. auto.
  - intros Ht. destruct (fa_ended0 Ht) as (r & c & d & t & Hi & Hrest). exists r, c, d, t. split; [set_solver|done].
Qed.
Lemma succeeded_ok h s name : Live h s → succeeded (ad_Tools s) name = true → answered_by name h.
Proof. intros [_ _ Hs]. unfold succeeded. destruct (ad_Tools s !! name) as [t|] eqn:Ht; [|done]. by apply Hs. Qed.
Lemma keeps_tool_outcome call : fc_Name call ∈ function_names → keeps (tool_outcome call).
Proof.
  intros Hname. unfold tool_outcome. apply triple_state. intros s0. destruct (ad_Tools s0 !! fc_Name call) as [t|] eqn:Ht.
  { apply keeps_pre; [keep|by intros h s []]. }
  destruct (_ && _) eqn:Hplan; [apply triple_stop; by intros h s [[] _]|].
  intros h0 s h s' r [HP ->] (out & h' & -> & Hl). cbn in Hl.
  assert (fc_Name call ∉ handled h0) as Hnew by (intros Hi; apply (lv_cached _ _ HP) in Hi; rewrite Ht in Hi; by destruct Hi).
  assert (Facts (h0 ++ [cev (CHandler (fc_Name call)) out]) s0) as Hf.
  { apply handler_event; [apply HP|done..|]. intros Hp. rewrite Hp in Hplan. cbn in Hplan. bool_hyps. split; by eapply succeeded_ok. }
  assert (∀ t s1, ad_Tools s1 = ad_Tools s0 → Facts (h0 ++ [cev (CHandler (fc_Name call)) out]) s1 → (to_Success t = true → ∃ text, out = Ok text) →
    Live (h0 ++ [cev (CHandler (fc_Name call)) out]) (set_ad_Tools (<[fc_Name call := t]>) s1)) as Hlive.
  { intros t s1 Hts [] Hok. destruct HP as [_ Hc Hs]. destruct s1 as [l res te tl cl rt]. cbn in *. subst tl.
    assert (handled (h0 ++ [cev (CHandler (fc_Name call)) out]) = handled h0 ++ [fc_Name call]) as Hd by (unfold handled; by rewrite omap_app).
    split; [split; done|..]; cbn.
    - rewrite Hd. intros name [Hi| ->%list_elem_of_singleton]%elem_of_app; [|by rewrite lookup_insert_eq].
      destruct (decide (name = fc_Name call)) as [->|]; [by rewrite lookup_insert_eq|]. rewrite lookup_insert_ne by done. auto.
    - intros name t'. destruct (decide (name = fc_Name call)) as [->|].
      + rewrite lookup_insert_eq. intros [= <-] [text ->]%Hok. exists text. set_solver.
      + rewrite lookup_insert_ne by done. intros Hi Hsu. by apply answered_mono, (Hs name t'). }
  destruct out as [text|e].
  - destruct (negb (sendable text)); cbn in Hl; destruct Hl as [-> [= -> ->]]; [done|]. apply Hlive; eauto.
  - destruct Hl as [-> [= -> ->]]. apply Hlive; [by destruct s0|by destruct s0 as [? [] ? ? ? ?], Hf; split|done].
Qed.
Lemma keeps_serve_call call : keeps (serve_call Sum policy key call).
Proof.
  unfold serve_call. apply keeps_then; [apply keeps_expired|]. intros []. apply triple_state. intros s0.
  destruct (negb (validCall call (ad_Root s0))) eqn:Hv; [apply triple_stop; by intros h s [[] _]|].
  unfold validCall in Hv. bool_hyps. apply keeps_pre; [|by intros h s []].
  apply keeps_then; [apply keeps_record_call|]. intros []. apply keeps_then; [apply keeps_tool_outcome; by apply str_in_spec|]. keep.
Qed.
Lemma keeps_serve_calls calls : keeps (serve_calls Sum policy key calls).
Proof. induction calls; cbn [serve_calls]; [keep|]. apply keeps_then; [apply keeps_serve_call|done]. Qed.

(** ** The turn *)

Lemma keeps_pages pages : ∀ path turnID after text seen, keeps (final_pages key pages path turnID after text seen).
Proof. induction pages as [|pages IH]; intros; cbn [final_pages]; keep. apply IH. Qed.
Lemma keeps_end t more : tn_Status t ∈ ["completed"; "failed"; "cancelled"] →
  triple (λ h s, Live h s ∧ value_read read_turns ([t], more) h) (assign set_ad_Terminal) (λ _, Live).
Proof.
  intros Hst h0 s h s' r [[[] Hc Hs] (rq & code & data & Hi & Hd)] [-> [= -> ->]]. rewrite app_nil_r. destruct s. cbn in *.
  split; [split|..]; try done. intros _. exists rq, code, data, t. split; [done|]. split; [by exists more|done].
Qed.
(** Steps that leave what was read. *)
Lemma triple_read {A} {V} (decode : string → option V) v (m : Advising A) : keeps m →
  triple (λ h s, Live h s ∧ value_read decode v h) m (λ _ h s, Live h s ∧ value_read decode v h).
Proof.
  intros Hm h0 s h s' r [HP (rq & code & data & Hi & Hd)] Hl. pose proof (Hm _ _ _ _ _ HP Hl) as Hr. destruct r; [|done].
  split; [done|]. exists rq, code, data. split; [set_solver|done].
Qed.
Lemma keeps_read_turn path current t more : triple (λ h s, Live h s ∧ value_read read_turns ([t], more) h) (read_turn key path current t) (λ _, Live).
Proof.
  unfold read_turn. apply triple_state. intros s0.
  destruct (_ || _); [apply triple_stop; by intros h s [[[] _] _]|].
  apply (triple_pre (λ h s, Live h s ∧ value_read read_turns ([t], more) h)); [by intros h s []|].
  eapply (triple_bind _ (λ _ h s, Live h s ∧ value_read read_turns ([t], more) h)); [apply triple_read, keeps_assign; by intros []|].
  intros []. eapply (triple_bind _ (λ _ h s, Live h s ∧ value_read read_turns ([t], more) h)); [apply triple_read; keep|]. intros [].
  eapply (triple_bind _ (λ _ h s, Live h s ∧ value_read read_turns ([t], more) h)); [apply triple_read; keep|]. intros [].
  destruct (String.eqb_spec (tn_Status t) "completed") as [Hst|].
  { eapply triple_bind; [apply (keeps_end t more); rewrite Hst; set_solver|]. intros []. keep; apply keeps_pages. }
  destruct (str_in _ _) eqn:Hst.
  - eapply triple_bind; [apply (keeps_end t more); apply str_in_spec in Hst; set_solver|]. intros []. keep.
  - apply keeps_pre; [keep|by intros h s []].
Qed.
Lemma keeps_check_session current : keeps (check_session current).
Proof. unfold check_session. keep. Qed.
Lemma keeps_pass path current : keeps (pass Sum policy key path current).
Proof.
  unfold pass. apply keeps_then; [apply keeps_check_session|]. intros [].
  eapply triple_bind; [apply ask_value_keeps|]. intros [l more]. cbn beta.
  destruct (_ || _) eqn:Hm; [apply triple_stop; by intros h s [[] _]|]. cbn [fst snd] in *. bool_hyps.
  eapply (triple_bind _ (λ _, Live)).
  { destruct l as [|t [|]]; [apply keeps_pre; [keep|by intros h s []]| |cbn in *; lia]. apply keeps_read_turn. }
  intros [[]|]; [keep|]. destruct (_ >? _); [keep|]. apply keeps_then; [apply keeps_state|]. intros s0.
  apply keeps_then; [destruct (_ <>s _); [apply keeps_serve_calls|keep]|]. intros [].
  apply keeps_then; [|intros []; keep]. intros h0 s h s' r HP (v & h' & -> & -> & [= -> ->]). by apply quiet_event.
Qed.
Lemma keeps_poll fuel : ∀ path current, keeps (poll Sum policy key fuel path current).
Proof.
  induction fuel as [|fuel IH]; intros path current; cbn [poll]; [by intros h0 s h s' r _ []|].
  apply keeps_then; [apply keeps_pass|]. intros [[]|]; [keep|]. keep. apply IH.
Qed.
Lemma keeps_create : keeps (create policy key).
Proof. unfold create. keep. Qed.
Lemma keeps_session_run fuel : keeps (session_run Sum policy key fuel).
Proof. unfold session_run. apply keeps_then; [apply keeps_create|]. intros current. apply keeps_then; [apply keeps_state|]. intros s0. apply keeps_poll. Qed.

Lemma live_start : Live [] Adv0.
Proof.
  split; [split|..]; cbn; try done; try (unfold maxRequests, maxTotalBytes; lia); [by apply NoDup_nil| | |].
  - by intros name ?%elem_of_nil.
  - intros [] o h2 Heq; discriminate Heq.
  - by intros name ?%elem_of_nil.
Qed.

(** ** A whole run *)

Lemma run_parts h res err : leaf (admitted_run Sum policy key) h (res, err) → ∃ h1 s r h2,
  h = h1 ++ h2 ∧ leaf (session_run Sum policy key (Z.to_nat maxRequests + 1) Adv0) h1 (s, r) ∧ leaf (settle key (s, r)) h2 (res, err) ∧ Facts h1 s.
Proof.
  intros (h1 & [s r] & h2 & -> & K1 & K2)%leaf_bind. exists h1, s, r, h2. split_and!; try done.
  pose proof (keeps_session_run _ [] _ _ _ _ live_start K1) as Hr. by destruct r; [apply Hr|].
Qed.
Lemma settle_parts s r h res err : leaf (settle key (s, r)) h (res, err) →
  ar_ToolCalls res = ar_ToolCalls (ad_Result s) ∧ handled h = [] ∧ Forall confined (exchanges h) ∧ (length (exchanges h) ≤ 1)%nat ∧
  sent (exchanges h) ≤ maxResponseBytes.
Proof.
  unfold settle. destruct r as [[]|e]; [by intros [-> [= -> ->]]; split_and!; cbn; try done; constructor|].
  destruct (_ && _); [|by intros [-> [= -> ->]]; split_and!; cbn; try done; constructor].
  intros (h1 & [l out] & h2 & -> & K1 & [-> [= -> ->]])%leaf_bind. rewrite app_nil_r. split; [by destruct (ad_Result s)|].
  apply exchange_leaf in K1 as [(-> & _)|(rq & a & -> & Hc & _)]; [by split_and!; cbn; try done; constructor|].
  cbn. pose proof (proj2 (proj2 Hc)). split_and!; [done|by constructor|lia|lia].
Qed.
(** C15: The adviser reaches one service and three local functions.  Whatever the provider and
    the local handler answer, a run makes at most 65 requests, the request of a cancellation
    included, with at most 1 MiB and one more bounded body sent; each goes to the
    sessions of the fixed origin over TLS, with the credential in its own header; the local
    handler is asked for each of the three functions at most once, and for a plan only after
    it had answered evidence and capacity; and no more calls are counted than the policy
    allows. *)
Theorem Advise_confined h res err : leaf (admitted_run Sum policy key) h (res, err) →
  (length (exchanges h) ≤ 65)%nat ∧ sent (exchanges h) ≤ maxTotalBytes + maxResponseBytes ∧ Forall confined (exchanges h) ∧
  NoDup (handled h) ∧ (∀ name, name ∈ handled h → name ∈ function_names) ∧ planned_last h ∧
  0 ≤ ar_ToolCalls res ≤ Z.max 0 (av_MaxToolCalls policy).
Proof.
  intros (h1 & s & r & h2 & -> & _ & (-> & Hh & Hc & Hl & Hs)%settle_parts & [])%run_parts.
  unfold exchanges, handled in *. rewrite !omap_app, length_app, sent_app, Hh, app_nil_r. split_and!; try done; try lia.
  - unfold maxRequests in *. lia.
  - by apply Forall_app_2.
  - intros k1 o k2 [(k & -> & Heq)|(k & -> & Heq)]%app_eq_inv.
    + destruct k as [|x k]; [|injection Heq as <- _; by eapply fa_plan0].
      cbn in Heq. subst h2. cbn in Hh. discriminate Hh.
    + subst h2. rewrite omap_app in Hh. cbn in Hh. apply (f_equal length) in Hh. rewrite length_app in Hh. cbn in Hh. lia.
Qed.

(** ** A run ends *)

Abbreviation used s := (bg_requests (ad_Limits s)).
(** A part that ends and moves the state along a preorder. *)
Definition along (R : relation Adv) {A} (m : Advising A) : Prop := ∀ s, total (m s) ∧ ∀ h s' r, leaf (m s) h (s', r) → R s s'.
Lemma along_bind R `{!Transitive R} {A B} (m : Advising A) (f : A → Advising B) : along R m → (∀ a, along R (f a)) → along R (m ≫= f).
Proof.
  intros Hm Hf s. destruct (Hm s) as [Ht Hl]. split.
  - apply total_bind; [done|]. intros [s1 [a|e]]; [apply (Hf a s1)|done].
  - intros h s' r (h1 & [s1 r1] & h2 & -> & K1 & K2)%leaf_bind. apply Hl in K1. cbn in K2.
    destruct r1 as [a|e]; [apply (Hf a s1) in K2; by etransitivity|]. by destruct K2 as [-> [= -> ->]].
Qed.
Lemma along_return (R : relation Adv) {A} f (r : Adv → result A) : (∀ s, R s (f s)) → along R (λ s, Ret (f s, r s)).
Proof. intros Hf s. split; [done|]. by intros h s' r' [-> [= -> ->]]. Qed.
Lemma along_request R `{!Reflexive R} e : along R (request_of e).
Proof. intros s. split; [done|]. by intros h s' r (v & h' & -> & -> & [= -> ->]). Qed.
(** Requests made, within their limit; and what is known of the session. *)
Definition spends : relation Adv := λ s s', used s ≤ used s' ≤ Z.max (used s) maxRequests.
Definition standing (r : AdvisorResult) : string * bool * bool * bool :=
  (ar_SessionID r, ar_CreationUncertain r, ar_CancellationRequested r, ar_CancellationAccepted r).
Definition same_session : relation Adv := λ s s', standing (ad_Result s') = standing (ad_Result s).
#[local] Instance spends_refl : Reflexive spends.
Proof. intros s. unfold spends. lia. Qed.
#[local] Instance spends_trans : Transitive spends.
Proof. intros s s' s''. unfold spends. lia. Qed.
#[local] Instance same_refl : Reflexive same_session.
Proof. done. Qed.
#[local] Instance same_trans : Transitive same_session.
Proof. intros s s' s''. unfold same_session. congruence. Qed.
Abbreviation steady m := (along spends m).
Lemma total_exchange limits method path idem body : total (exchange key limits method path idem body).
Proof.
  unfold exchange. destruct (_ || _); [done|]. cbv zeta. destruct (endpoint path); [|done]. destruct (_ >? _); [done|]. destruct (_ >? _); [done|].
  intros [|[]|code data readable]; [done..|]. cbn [total]. destruct (_ || _); [done|]. by destruct (_ || _).
Qed.
Lemma steady_cloud method path idem body : steady (ask_cloud key method path idem body).
Proof.
  intros s. split; [apply total_bind; [apply total_exchange|done]|].
  intros h s' r (h1 & [l out] & h2 & -> & K1 & [-> [= -> ->]])%leaf_bind. unfold spends.
  apply exchange_leaf in K1 as [(-> & ? & _)|(rq & a & -> & _ & _ & _ & _ & ? & ? & _)]; destruct s; cbn in *; unfold maxRequests in *; lia.
Qed.
Lemma same_cloud method path idem body : along same_session (ask_cloud key method path idem body).
Proof.
  intros s. split; [apply steady_cloud|]. intros h s' r (h1 & [l out] & h2 & -> & K1 & [-> [= -> ->]])%leaf_bind. by destruct s.
Qed.
Section Along.
Context (R : relation Adv) `{!Reflexive R} `{!Transitive R}.
Hypothesis along_cloud : ∀ method path idem body, along R (ask_cloud key method path idem body).
Hypothesis along_assign : ∀ f, (∀ s, ad_Limits (f s) = ad_Limits s ∧ standing (ad_Result (f s)) = standing (ad_Result s)) → along R (assign f).
Ltac along :=
  repeat first
    [ match goal with
      | |- ∀ _, _ => intro
      | |- along _ (mret _) => by apply along_return
      | |- along _ (stop _) => by apply along_return
      | |- along _ (check _) => by apply along_return
      | |- along _ current_state => by apply along_return
      | |- along _ (assign _) => apply along_assign; intros [? [] ? ? ? ?]; done
      | |- along _ (record_usage _ _) => apply along_assign; intros [? [] ? ? ? ?]; done
      | |- along _ (request_of _) => apply along_request; apply _
      | |- along _ (ask_cloud _ _ _ _ _) => apply along_cloud
      | |- along _ (mbind _ _) => apply along_bind; [apply _|..]
      | |- along _ (match ?c with _ => _ end) => destruct c
      end
    | progress cbn beta iota zeta ].
Lemma along_session method path body : along R (ask_session key method path body).
Proof. unfold ask_session. along. Qed.
Lemma along_value {A} (decode : string → option A) path : along R (ask_value key decode path).
Proof. unfold ask_value. along. Qed.
Lemma along_calls calls : along R (serve_calls Sum policy key calls).
Proof. induction calls; cbn [serve_calls]; [along|]. unfold serve_call, expired, record_call, tool_outcome. along; apply IHcalls. Qed.
Lemma along_pages pages : ∀ path turnID after text seen, along R (final_pages key pages path turnID after text seen).
Proof. induction pages as [|pages IH]; intros; cbn [final_pages]; [along|]. apply along_bind; [apply _|apply along_value|]. along. apply IH. Qed.
Lemma along_turn path current t : along R (read_turn key path current t).
Proof. unfold read_turn, finalText. along; apply along_pages. Qed.
Lemma along_check current : along R (check_session current).
Proof. unfold check_session. along. Qed.
(** The part of a pass after the turns were read. *)
Definition rest (path : string) (current : session) (l : list turn * bool) : Advising (option unit) :=
  halt l.2 || (1 <? Z.of_nat (length l.1)) with "advisor exceeded its single-turn boundary" ;;
  ended ← (match l.1 with t :: _ => read_turn key path current t | [] => mret None end : Advising (option unit));
  match ended with
  | Some tt => mret (Some tt)
  | None =>
    halt Z.of_nat (length (sn_RequiredActions current)) >? av_MaxToolCalls policy with "advisor function-call limit exceeded" ;;
    s ← current_state;
    _ ← (if ad_Root s <>s "" then serve_calls Sum policy key (sn_RequiredActions current) else mret tt);
    e ← request_of CTimer;
    match e with Some e => stop e | None => mret None end
  end.
Lemma along_rest path current l : along R (rest path current l).
Proof. unfold rest. along; first [apply along_turn|apply along_calls]. Qed.
Lemma along_pass path current : along R (pass Sum policy key path current).
Proof. unfold pass. apply along_bind; [apply _|apply along_check|]. intros []. apply along_bind; [apply _|apply along_value|]. apply along_rest. Qed.
End Along.
Lemma spends_assign f : (∀ s, ad_Limits (f s) = ad_Limits s) → steady (assign f).
Proof. intros Hf. apply along_return. intros s. unfold spends. rewrite Hf. lia. Qed.
Lemma spends_ok f : (∀ s, ad_Limits (f s) = ad_Limits s ∧ standing (ad_Result (f s)) = standing (ad_Result s)) → steady (assign f).
Proof. intros Hf. apply spends_assign. intros s. apply Hf. Qed.
Lemma same_ok f : (∀ s, ad_Limits (f s) = ad_Limits s ∧ standing (ad_Result (f s)) = standing (ad_Result s)) → along same_session (assign f).
Proof. intros Hf. apply along_return. intros s. apply Hf. Qed.
Definition steady_check := along_check spends spends_ok.
Definition steady_rest := along_rest spends steady_cloud spends_ok.
Definition steady_pass := along_pass spends steady_cloud spends_ok.
Definition steady_session := along_session spends steady_cloud.
Lemma value_uses {A} (decode : string → option A) path s h s' v : leaf (ask_value key decode path s) h (s', Ok v) → used s + 1 ≤ used s'.
Proof.
  intros (h1 & [s1 [[f|data]|e]] & h2 & -> & K1 & K2)%leaf_bind; cbn in K2; [by destruct K2 as [-> [= ->]]| |by destruct K2 as [-> [= ->]]].
  apply leaf_bind in K1 as (h3 & [l out] & h4 & -> & K1 & [-> Heq]). cbn in Heq. injection Heq as -> <-.
  apply exchange_leaf in K1 as [(-> & _ & _ & e & [=])|(rq & a & -> & _ & _ & _ & _ & _ & Hn & _)].
  destruct (decode data); destruct K2 as [-> [= -> ->]]. destruct s. cbn in *. lia.
Qed.
(** A pass makes a request. *)
Lemma pass_uses path current s h s' a : leaf (pass Sum policy key path current s) h (s', Ok a) → used s + 1 ≤ used s'.
Proof.
  intros (h1 & [s1 [[]|e]] & h2 & -> & K1 & K2)%leaf_bind; [|by destruct K2 as [-> [= -> ->]]]. apply steady_check in K1. unfold spends in K1. cbn [snd fst] in K2.
  apply leaf_bind in K2 as (h3 & [s2 [l|e]] & h4 & -> & K2 & K3); [|by destruct K3 as [-> [= -> ->]]].
  apply value_uses in K2. cbn [fst snd] in K3. pose proof (proj2 (steady_rest path current l s2) _ _ _ K3) as Hr. unfold spends in Hr. lia.
Qed.
Lemma poll_total fuel : ∀ path current s, used s ≤ maxRequests < used s + Z.of_nat fuel → total (poll Sum policy key fuel path current s).
Proof.
  induction fuel as [|fuel IH]; intros path current s Hs; [lia|]. cbn [poll]. apply total_after; [apply steady_pass|].
  intros h [s1 [[[]|]|e]] Hl; cbn [snd fst]; [done| |done]. pose proof (proj2 (steady_pass path current s) _ _ _ Hl) as Hp. unfold spends in Hp. apply pass_uses in Hl.
  apply total_after; [apply steady_session|]. intros h' [s2 [[next [f|]]|e]] Hl'; cbn [snd fst]; [done| |done].
  apply steady_session in Hl'. unfold spends in Hl'. apply IH. lia.
Qed.
(** C17: A run of the adviser ends: no answer of the provider or of the local handler keeps its
    polling going beyond the requests of its budget. *)
Theorem Advise_ends : total (admitted_run Sum policy key) ∧ ∀ h, ¬ starved (admitted_run Sum policy key) h.
Proof.
  enough (total (admitted_run Sum policy key)) as Ht by (split; [done|by apply total_starved]).
  apply total_bind; [|intros [s [[]|e]]; cbn [settle]; [done|]; destruct (_ && _); [|done]; apply total_bind; [apply total_exchange|done]].
  assert (steady (create policy key)) as Hc.
  { unfold create. apply along_bind; [apply _|apply steady_session|]. intros [current [[]|]]; cbn beta iota; repeat first [apply spends_assign; by intros []|by apply along_return|apply along_bind; [apply _|..]|match goal with |- ∀ _ : unit, along _ _ => intros [] | |- along _ (if ?c then _ else _) => destruct c end]. }
  apply total_after; [apply Hc|]. intros h [s [current|e]] Hl; cbn [snd fst]; [|done].
  pose proof (proj2 (Hc Adv0) _ _ _ Hl) as Hu. unfold spends in Hu. change (used Adv0) with 0 in Hu. apply poll_total. cbn [fst]. unfold maxRequests in *. lia.
Qed.

(** ** What a run reports *)

Lemma skip_length ordered : ∀ n l, (length l ≤ n)%nat → (length (skip_space ordered l) ≤ length l)%nat.
Proof.
  induction n as [|n IH]; intros [|a l] Hn; cbn [skip_space length] in *; try lia. destruct (is_space a); [specialize (IH l); lia|].
  destruct l as [|b l]; [done|]. destruct (if ordered then _ else _); [specialize (IH l); cbn [length] in *; lia|].
  destruct l as [|c l]; [done|]. destruct (if ordered then _ else _); [|done]. specialize (IH l). cbn [length] in *. lia.
Qed.
Lemma trim_length t : str_len (TrimSpace t) ≤ str_len t.
Proof.
  unfold TrimSpace, str_len. assert (∀ l, String.length (String.string_of_list_ascii l) = length l) as Hl by (induction l; cbn; congruence).
  assert (∀ t, length (chars t) = String.length t) as Hc by (induction t0; cbn; congruence).
  rewrite Hl, length_rev, <- Hc. pose proof (skip_length false _ (rev (skip_space true (chars t))) ltac:(reflexivity)) as K1.
  pose proof (skip_length true _ (chars t) ltac:(reflexivity)) as K2. rewrite length_rev in K1. lia.
Qed.
Lemma len_append a b : str_len (a +:+ b) = str_len a + str_len b.
Proof. unfold str_len. enough (String.length (a +:+ b) = String.length a + String.length b)%nat by lia. induction a as [|c a IH]; [done|]. exact (f_equal S IH). Qed.
Lemma parts_bounded parts : ∀ text text', append_parts parts text = Ok text' → str_len text ≤ maxSummaryBytes → str_len text' ≤ maxSummaryBytes.
Proof.
  induction parts as [|[kind part] parts IH]; intros text text'; cbn [append_parts]; [by intros [= ->]|].
  destruct (kind =s _); [|apply IH]. destruct (_ >? _) eqn:Hg; [done|]. bool_hyps. intros Hr _. apply IH in Hr; [done|].
  rewrite !len_append. change (str_len (String newline "")) with 1. lia.
Qed.
Lemma items_bounded turnID l : ∀ text text', append_items turnID l text = Ok text' → str_len text ≤ maxSummaryBytes → str_len text' ≤ maxSummaryBytes.
Proof.
  induction l as [|i l IH]; intros text text'; cbn [append_items]; [by intros [= ->]|]. intros (t & Ht & Hr)%bind_ok Hb. apply IH in Hr; [done|].
  destruct (final_part _ _); [by eapply parts_bounded|by injection Ht as <-].
Qed.
(** An explanation: text, within its bound. *)
Definition explanation (t : string) : Prop := t ≠ "" ∧ str_len t ≤ maxSummaryBytes.
Lemma pages_text pages : ∀ path turnID after text seen s h s' t, str_len text ≤ maxSummaryBytes →
  leaf (final_pages key pages path turnID after text seen s) h (s', Ok t) → explanation t.
Proof.
  induction pages as [|pages IH]; intros path turnID after text seen s h s' t Hb; cbn [final_pages]; [by intros [_ [=]]|].
  intros (h1 & [s1 [[[data more] last]|e]] & h2 & -> & _ & K)%leaf_bind; cbn [fst snd] in K; [|by destruct K as [_ [=]]].
  destruct (append_items turnID data text) as [text'|e] eqn:Ha; [|by destruct K as [_ [=]]]. apply items_bounded in Ha; [|done].
  destruct (negb more).
  - destruct (String.eqb_spec (TrimSpace text') "") as [|Hne]; [by destruct K as [_ [=]]|]. destruct K as [_ [= _ ->]]. split; [done|].
    pose proof (trim_length text'). lia.
  - destruct (_ || _); [by destruct K as [_ [=]]|]. by eapply IH.
Qed.
(** Reading leaves all but the budget. *)
Definition charged : relation Adv := λ s s', ∃ l, s' = set_ad_Limits l s.
#[local] Instance charged_refl : Reflexive charged.
Proof. intros s. exists (ad_Limits s). by destruct s. Qed.
#[local] Instance charged_trans : Transitive charged.
Proof. intros s s' s'' [l ->] [l' ->]. exists l'. by destruct s. Qed.
Lemma charged_cloud method path idem body : along charged (ask_cloud key method path idem body).
Proof. intros s. split; [apply steady_cloud|]. intros h s' r (h1 & [l out] & h2 & -> & K1 & [-> [= -> ->]])%leaf_bind. by exists l. Qed.
Lemma leaf_ok {A B} (m : Advising A) (f : A → Advising B) s h s' b : leaf ((m ≫= f) s) h (s', Ok b) →
  ∃ h1 s1 a h2, leaf (m s) h1 (s1, Ok a) ∧ leaf (f a s1) h2 (s', Ok b).
Proof. intros (h1 & [s1 [a|e]] & h2 & -> & K1 & K2)%leaf_bind; [by exists h1, s1, a, h2|by destruct K2 as [_ [=]]]. Qed.
Definition concluded (s : Adv) : Prop := ad_Terminal s = true ∧ explanation (ar_Summary (ad_Result s)).
Lemma turn_text path current t s h s' : leaf (read_turn key path current t s) h (s', Ok (Some tt)) → concluded s'.
Proof.
  unfold read_turn. intros (h1 & s1 & s1' & h2 & _ & Hl)%leaf_ok. destruct (_ || _); [by destruct Hl as [_ [=]]|].
  apply leaf_ok in Hl as (h3 & s2 & [] & h4 & _ & (h5 & s3 & [] & h6 & _ & (h7 & s4 & [] & h8 & _ & Hl)%leaf_ok)%leaf_ok).
  destruct (_ =s _).
  - apply leaf_ok in Hl as (h9 & s5 & [] & h10 & [_ [= ->]] & Hl). destruct (sn_RequiredActions current); [|by destruct Hl as [_ [=]]].
    apply leaf_ok in Hl as (h11 & s6 & text & h12 & Hp & (h13 & s7 & [] & h14 & [_ [= ->]] & [_ [= ->]])%leaf_ok).
    pose proof (proj2 (along_pages charged charged_cloud 4 path (tn_ID t) "" "" ∅ _) _ _ _ Hp) as [l ->].
    apply pages_text in Hp; [|done]. by destruct s4 as [? [] ? ? ? ?].
  - destruct (str_in _ _); [apply leaf_ok in Hl as (? & ? & [] & ? & _ & [_ [=]])|]. destruct (negb _); by destruct Hl as [_ [=]].
Qed.
Lemma pass_text path current s h s' : leaf (pass Sum policy key path current s) h (s', Ok (Some tt)) → concluded s'.
Proof.
  intros (h1 & s1 & [] & h2 & _ & (h3 & s2 & [l more] & h4 & _ & Hl)%leaf_ok)%leaf_ok. cbn [fst snd] in Hl. destruct (_ || _); [by destruct Hl as [_ [=]]|].
  apply leaf_ok in Hl as (h5 & s3 & [[]|] & h6 & Ht & Hl).
  - destruct Hl as [_ [= ->]]. destruct l as [|t l]; [by destruct Ht as [_ [=]]|]. by eapply turn_text.
  - destruct (_ >? _); [by destruct Hl as [_ [=]]|]. apply leaf_ok in Hl as (? & ? & ? & ? & _ & (? & ? & ? & ? & _ & (? & ? & [e|] & ? & _ & Hl)%leaf_ok)%leaf_ok); by destruct Hl as [_ [=]].
Qed.
Lemma poll_text fuel : ∀ path current s h s', leaf (poll Sum policy key fuel path current s) h (s', Ok tt) → concluded s'.
Proof.
  induction fuel as [|fuel IH]; intros path current s h s'; [by intros []|]. cbn [poll]. intros (h1 & s1 & [[]|] & h2 & Hp & Hl)%leaf_ok.
  - destruct Hl as [_ [= ->]]. by eapply pass_text.
  - apply leaf_ok in Hl as (h3 & s2 & [next [f|]] & h4 & _ & Hl); [by destruct Hl as [_ [=]]|]. by eapply IH.
Qed.
(** Polling knows of the session what its creation left. *)
Lemma poll_same fuel : ∀ path current s h s' r, leaf (poll Sum policy key fuel path current s) h (s', r) → same_session s s'.
Proof.
  induction fuel as [|fuel IH]; intros path current s h s' r; [by intros []|]. cbn [poll].
  intros (h1 & [s1 [[[]|]|e]] & h2 & -> & Hp & Hl)%leaf_bind; cbn [fst snd] in Hl; apply (along_pass same_session same_cloud same_ok) in Hp.
  - by destruct Hl as [_ [= -> _]].
  - apply leaf_bind in Hl as (h3 & [s2 [[next [f|]]|e]] & h4 & -> & Hs & Hl); cbn [fst snd] in Hl; apply (along_session same_session same_cloud) in Hs.
    + destruct Hl as [_ [= -> _]]. by etransitivity.
    + apply IH in Hl. by do 2 (etransitivity; [eassumption|]).
    + destruct Hl as [_ [= -> _]]. by etransitivity.
  - by destruct Hl as [_ [= -> _]].
Qed.
(** The provider declined to start a session. *)
Definition declined (h : list cloud_event) : Prop := ∃ r code data readable,
  h = [cev (CExchange r) (CloudAnswered code data readable)] ∧ 400 ≤ code < 500 ∧ code ≠ 408.
(** What a request for a session leaves: a status that was refused came with no session. *)
Lemma session_status method path body s h s' current f : leaf (ask_session key method path body s) h (s', Ok (current, Some f)) →
  match f with
  | ProviderStatus code => current = session0 ∧ ∃ q data readable, h = [cev (CExchange q) (CloudAnswered code data readable)]
  | Other _ => True
  end.
Proof.
  intros (h1 & [s1 [a|e]] & h2 & -> & Hc & Hl)%leaf_bind; cbn [fst snd] in Hl; [|by destruct Hl as [_ [=]]].
  apply leaf_bind in Hc as (h3 & [l out] & h4 & -> & Hx & [-> Heq]). cbn in Heq. injection Heq as -> <-.
  destruct a as [f'|data]; [|destruct (read_session data); destruct Hl as [_ [=]]; by subst f]. destruct Hl as [-> [= _ -> ->]]. rewrite !app_nil_r.
  destruct f' as [code|]; [|done]. split; [done|].
  apply exchange_leaf in Hx as [(_ & _ & _ & e & [=])|(q & a & -> & _ & _ & _ & _ & _ & _ & _ & _ & data & readable & ->)]. by exists q, data, readable.
Qed.
(** What a creation leaves known: the session, or that there may be one, or that there is none. *)
Lemma create_settled h s r : leaf (create policy key Adv0) h (s, r) →
  ar_CancellationRequested (ad_Result s) = false ∧ ar_CancellationAccepted (ad_Result s) = false ∧
  (ar_SessionID (ad_Result s) ≠ "" → safeID (ar_SessionID (ad_Result s)) = true) ∧
  match r with
  | Ok _ => ar_SessionID (ad_Result s) ≠ ""
  | Err _ => ar_CreationUncertain (ad_Result s) = true ∨ declined h
  end.
Proof.
  intros (h1 & [s1 [[current fault]|e]] & h2 & -> & Hs & Hl)%leaf_bind; cbn [fst snd] in Hl.
  2: { by apply leaf_bind in Hs as (? & [? [a|?]] & ? & _ & (? & [] & ? & _ & _ & [_ [=]])%leaf_bind & [_ [=]]). }
  pose proof (proj2 (along_session same_session same_cloud _ _ _ _) _ _ _ Hs) as K1. unfold same_session, standing in K1. cbn in K1. injection K1 as K1 K2 K3 K4.
  destruct fault as [f|].
  - apply session_status in Hs. 
    destruct f as [code|e].
    + destruct Hs as (-> & q & data & readable & ->). destruct s1 as [? [] ? ? ? ?]. cbn in *. destruct (_ || _) eqn:Hcode; cbn in Hl; destruct Hl as [-> [= -> ->]]; cbn; (split; [done|]; split; [done|]; split; [done|]); [by left|].
      right. bool_hyps. exists q, code, data, readable. split; [done|]. lia.
    + apply leaf_bind in Hl as (k1 & [s2 r2] & k2 & -> & Ha & Hl). destruct s1 as [? [] ? ? ? ?]. cbn in *. subst.
      destruct (safeID _) eqn:Hid; destruct Ha as [-> [= -> ->]]; cbn in Hl; destruct Hl as [-> [= -> ->]]; cbn; (split; [done|]; split; [done|]; split; [done|]); by left.
  - destruct s1 as [? [] ? ? ? ?]. cbn in *. subst. destruct (safeID (sn_ID current)) eqn:Hid; cbn in Hl; destruct Hl as [-> [= -> ->]]; cbn; (split; [done|]; split; [done|]; split; [done|]); [|by left].
    intros Heq. by rewrite Heq in Hid.
Qed.
(** What [url.Parse] answers for the address of the events of a session: an HTTPS URL of the
    fixed host, below the path of the sessions. *)
Definition events_url (id : string) : string := "https://api.openai.com/v1/agents/sessions/" +:+ id +:+ "/events".
Definition parses_events : Prop := ∀ id, safeID id = true → ∃ u, url_Parse (events_url id) = Some u ∧
  u_Scheme u = "https" ∧ u_Host u = "api.openai.com" ∧ u_User u = false ∧ u_Fragment u = "" ∧ has_prefix (u_Path u) sessionsPath = true.
Definition cancel_event : JSON := JObject [("events", JArray [JObject [("type", JString "agent.session.input.cancel")]])].
(** The request that asks for the cancellation of a session. *)
Definition cancels (id : string) (r : CloudRequest) : Prop :=
  cq_Method r = "POST" ∧ cq_URL r = events_url id ∧ cq_Body r = Some (json_text cancel_event).
(** A run ends with such a request, answered [a]. *)
Definition cancelled (id : string) (h : list cloud_event) (a : CloudAnswer) : Prop :=
  ∃ r, last h = Some (cev (CExchange r) a) ∧ cancels id r.
(** With a fresh budget the request of a cancellation is made. *)
Lemma cancel_exchange id h l out : parses_events → str_len (json_text cancel_event) ≤ maxResponseBytes → safeID id = true →
  leaf (exchange key (mkBudget 0 0) "POST" (session_path id +:+ "/events") "" (Some cancel_json)) h (l, out) →
  ∃ a, cancelled id h a ∧ match out with inr data => ∃ code, a = CloudAnswered code data true ∧ 200 ≤ code < 300 | inl _ => True end.
Proof.
  intros Hp Hl Hid Hx. assert (h ≠ []) as Hne.
  { intros ->. destruct (Hp id Hid) as (u & Hu & Hs & Hh & Hus & Hf & Hpa). revert Hx. unfold exchange, endpoint. cbn [bg_requests bg_bytes].
    change (apiOrigin +:+ session_path id +:+ "/events") with (events_url id). rewrite Hu, Hs, Hh, Hus, Hpa, Hf. cbn -[json_text].
    change cancel_json with cancel_event. unfold maxResponseBytes, maxTotalBytes in *.
    rewrite !Z.add_0_l. do 3 (match goal with |- leaf (if ?c then _ else _) _ _ → _ => destruct c eqn:?; [lia|] end). by intros (a & h' & [=] & _). }
  apply exchange_leaf in Hx as [(-> & _)|(q & a & -> & _ & Hm & Hu & Hb & _ & _ & _ & _ & Ho)]; [done|].
  exists a. split; [exists q; split; [done|]; split; [done|]; split; done|]. by destruct out.
Qed.
(** C16: What a run of the adviser reports of it.  It succeeds only with a nonempty explanation
    of at most [maxSummaryBytes] after a turn that ended was read; when it fails, the session it
    knows of has ended, or the last thing the run did was to send the provider the cancellation
    of that very session; a failed run that knows of no session reports that there may be one,
    unless the provider declined the only request with a status that says so; a cancellation is
    reported as requested only when that request was made, and as accepted only when the
    provider answered it with success.  Assumed of the libraries: the address of a session's
    events parses as the HTTPS URL it spells, and the text of the fixed cancellation event is
    not longer than a response may be. *)
Theorem Advise_honest h res err : parses_events → str_len (json_text cancel_event) ≤ maxResponseBytes →
  leaf (admitted_run Sum policy key) h (res, err) →
  match err with
  | None => ended h ∧ explanation (ar_Summary res) ∧ ar_CancellationRequested res = false
  | Some _ => (ar_SessionID res ≠ "" → ended h ∨ ∃ a, cancelled (ar_SessionID res) h a) ∧
              (ar_SessionID res = "" → ar_CreationUncertain res = true ∨ declined h)
  end ∧
  (ar_CancellationRequested res = true → ∃ a, cancelled (ar_SessionID res) h a) ∧
  (ar_CancellationAccepted res = true → ∃ code data, cancelled (ar_SessionID res) h (CloudAnswered code data true) ∧ 200 ≤ code < 300).
Proof.
  intros Hp Hlen (h1 & s & r & h2 & -> & Hrun & Hset & Hf)%run_parts.
  assert (ar_CancellationRequested (ad_Result s) = false ∧ ar_CancellationAccepted (ad_Result s) = false ∧
    (ad_Terminal s = true → ended h1) ∧ (r = Ok tt → concluded s) ∧ (ar_SessionID (ad_Result s) = "" → ar_CreationUncertain (ad_Result s) = true ∨ declined h1) ∧
    (ar_SessionID (ad_Result s) ≠ "" → safeID (ar_SessionID (ad_Result s)) = true)) as (K1 & K2 & K3 & K4 & K5 & K6).
  { apply leaf_bind in Hrun as (k1 & [s1 [current|e]] & k2 & -> & (C1 & C2 & C4 & C3)%create_settled & Hl); cbn [fst snd] in Hl.
    - pose proof (poll_same _ _ _ _ _ _ _ Hl) as Hk. unfold same_session, standing in Hk. injection Hk as Q1 Q2 Q3 Q4. rewrite Q1, Q3, Q4. split_and!; [done|done|apply Hf| |by intros ?%C3|done].
      intros ->. eapply poll_text. exact Hl.
    - destruct Hl as [-> [= -> ->]]. rewrite app_nil_r in *. split_and!; try done. apply Hf. }
  unfold settle in Hset. destruct r as [[]|e].
  - destruct Hset as [-> [= -> ->]]. rewrite app_nil_r. destruct (K4 eq_refl) as [Ht Hx]. split; [by split_and!; [apply K3|..]|]. by rewrite K1, K2.
  - destruct (_ && _) eqn:Hc; bool_hyps.
    + apply leaf_bind in Hset as (k1 & [l out] & k2 & -> & Hx & [-> [= -> ->]]). rewrite app_nil_r.
      apply (cancel_exchange _ _ _ _ Hp Hlen) in Hx as (a & (q & Hlast & Hq) & Ho); [|by apply K6].
      assert (cancelled (ar_SessionID (ad_Result s)) (h1 ++ k1) a) as Hca by (exists q; rewrite last_app, Hlast; done).
      destruct (ad_Result s) eqn:Hres. cbn in *. split; [split; [right; by exists a|done]|]. split; [by exists a|].
      destruct out as [f|data]; [done|]. destruct Ho as (code & -> & Hcode). by exists code, data.
    + destruct Hset as [-> [= -> ->]]. rewrite app_nil_r. rewrite K1, K2. split; [|done]. split; [|done].
      intros Hid. left. apply K3. destruct (ad_Terminal s); [done|]. destruct (String.eqb_spec (ar_SessionID (ad_Result s)) ""); done.
Qed.
End Advice.

(** ** Concrete runs *)

Module AdviceFixture.
Definition call (name : string) : JSON := JObject [
  ("call_id", JString ("c-" +:+ name)); ("name", JString name); ("turn_id", JString "t1"); ("type", JString "function_call")].
Definition session_json (status : string) (calls : list JSON) : JSON := JObject [
  ("environment", JObject [("type", JString "none")]); ("id", JString "s1"); ("object", JString "agent.session");
  ("required_actions", JArray calls); ("status", JString status)].
Definition turns_json (status : string) : JSON := JObject [
  ("data", JArray [JObject [("id", JString "t1"); ("session_id", JString "s1"); ("status", JString status)]]); ("has_more", JBool false)].
Definition items_json : JSON := JObject [
  ("data", JArray [JObject [("content", JArray [JObject [("text", JString "Half of the memory is free."); ("type", JString "output_text")]]);
    ("phase", JString "final_answer"); ("role", JString "assistant"); ("status", JString "completed"); ("turn_id", JString "t1"); ("type", JString "message")]]);
  ("has_more", JBool false)].
(** The documents the provider answers, by a name each. *)
Definition documents : list (string * JSON) := [
  ("asking", session_json "requires_action" (call <$> function_names)); ("idle", session_json "idle" []);
  ("waiting", turns_json "waiting"); ("completed", turns_json "completed"); ("items", items_json); ("{}", JObject [])].
#[export] Instance docs : JSONText := λ s, option_map (λ kv, [kv.2]) (List.find (λ kv, kv.1 =s s) documents).
#[export] Instance text : JSONRender := λ _, "body".
#[export] Instance raw : RawArguments := λ _, ["{}"; "{}"; "{}"].
#[export] Instance parser : NetParse := {|
  ParseIP _ := None; SplitHostPort _ := None; EqualFold := String.eqb;
  url_Parse s := if has_prefix s apiOrigin then Some (mkURL "https" "" false "api.openai.com" "api.openai.com" "" (trim_prefix s apiOrigin) "" "" false "" "") else None |}.
Definition policy : Advisor := mkAdvisor true "model" "/etc/key" 60 4 6 true.
Definition contains_text (part t : string) : bool := match String.index 0 part t with Some _ => true | None => false end.
(** A provider that answers the creation with one document and the turns with another. *)
Definition provider (created turns : string) (r : CloudRequest) : CloudAnswer :=
  if contains_text "/events" (cq_URL r) then CloudAnswered 202 "{}" true else
  if contains_text "/turns" (cq_URL r) then CloudAnswered 200 turns true else
  if contains_text "/items" (cq_URL r) then CloudAnswered 200 "items" true else
  if cq_Method r =s "POST" then CloudAnswered 201 created true else CloudAnswered 500 "" true.
Definition oracle (created turns : string) (e : CloudAct) : cloud_answer e :=
  match e with CExchange r => provider created turns r | CHandler _ => Ok "{}" | CContext | CTimer => None end.
Definition run : Run cloud_answer (AdvisorResult * option error) := admitted_run (λ _, "key") policy "credential-of-the-advisor".
Definition played (created turns : string) := play (oracle created turns) run.
End AdviceFixture.
Import AdviceFixture.

(** A run that calls the three functions, loses its session and cancels it. *)
Definition cancelled_run (h : list cloud_event) (res : AdvisorResult) (err : option error) : bool :=
  bool_decide (handled h = function_names) && Nat.eqb (length (exchanges h)) 7 && (ar_ToolCalls res =? 3) && is_some err && ar_CancellationAccepted res.
Lemma Advise_confined_witness : ∃ h res err, leaf run h (res, err) ∧ cancelled_run h res err = true ∧
  Forall (confined "credential-of-the-advisor") (exchanges h) ∧ planned_last h.
Proof.
  assert (match played "asking" "waiting" with Some (h, (res, err)) => cancelled_run h res err | None => false end = true) as Hp by (vm_compute; reflexivity).
  unfold played in Hp. destruct (play (oracle "asking" "waiting") run) as [[h [res err]]|] eqn:Hr; [|discriminate Hp]. apply play_leaf in Hr.
  exists h, res, err. split; [exact Hr|]. split; [exact Hp|]. destruct (Advise_confined _ _ _ h res err Hr) as (_ & _ & Hc & _ & _ & Hl & _). exact (conj Hc Hl).
Defined.
(** A run that completes. *)
Definition completed_run (res : AdvisorResult) (err : option error) : bool :=
  negb (is_some err) && (ar_Summary res =s "Half of the memory is free.") && (ar_SessionID res =s "s1").
Lemma skip_origin s : String.substring 22 (String.length (apiOrigin +:+ s) - 22) (apiOrigin +:+ s) = s.
Proof.
  change (String.length (apiOrigin +:+ s)) with (22 + String.length s)%nat. replace (22 + String.length s - 22)%nat with (String.length s) by lia.
  cbn [apiOrigin String.append String.substring]. induction s as [|c s IH]; [done|]. simpl in *. by f_equal.
Qed.
Lemma fixture_parses : parses_events.
Proof.
  intros id _. unfold events_url. change ("https://api.openai.com/v1/agents/sessions/" +:+ id +:+ "/events") with (apiOrigin +:+ ("/v1/agents/sessions/" +:+ id +:+ "/events")).
  set (path := "/v1/agents/sessions/" +:+ id +:+ "/events"). assert (has_prefix (apiOrigin +:+ path) apiOrigin = true) as Hp by (unfold has_prefix; cbn; by destruct path).
  eexists. unfold url_Parse, parser. rewrite Hp. split; [reflexivity|]. cbn. do 4 (split; [reflexivity|]).
  unfold trim_prefix. rewrite Hp. change (String.length apiOrigin) with 22%nat. rewrite skip_origin. subst path. cbn. by destruct (id +:+ "/events").
Qed.
(** A run that completes, and one that fails and has its session cancelled. *)
Lemma Advise_honest_witness :
  (∃ h res err, leaf run h (res, err) ∧ completed_run res err = true ∧ ended h) ∧
  ∃ h res err, leaf run h (res, err) ∧ cancelled_run h res err = true ∧ ∃ code data, cancelled (ar_SessionID res) h (CloudAnswered code data true) ∧ 200 ≤ code < 300.
Proof.
  assert (str_len (json_text cancel_event) ≤ maxResponseBytes) as Hlen by (vm_compute; discriminate). split.
  - assert (match played "idle" "completed" with Some (h, (res, err)) => completed_run res err | None => false end = true) as Hp by (vm_compute; reflexivity).
    unfold played in Hp. destruct (play (oracle "idle" "completed") run) as [[h [res err]]|] eqn:Hr; [|discriminate Hp]. apply play_leaf in Hr.
    exists h, res, err. split; [exact Hr|]. split; [exact Hp|]. pose proof (proj1 (Advise_honest _ _ _ h res err fixture_parses Hlen Hr)) as Hh. destruct err; [discriminate Hp|]. exact (proj1 Hh).
  - assert (match played "asking" "waiting" with Some (h, (res, err)) => cancelled_run h res err | None => false end = true) as Hp by (vm_compute; reflexivity).
    unfold played in Hp. destruct (play (oracle "asking" "waiting") run) as [[h [res err]]|] eqn:Hr; [|discriminate Hp]. apply play_leaf in Hr.
    exists h, res, err. split; [exact Hr|]. split; [exact Hp|]. apply (proj2 (proj2 (Advise_honest _ _ _ h res err fixture_parses Hlen Hr))).
    unfold cancelled_run in Hp. apply andb_true_iff in Hp as [_ Hp]. exact Hp.
Defined.
