(* ===== verification/Harness.v ===== *)
(** The native client configuration bundles ([internal/catalog/harness.go]) and what the
    developer's own machine does with them ([internal/client/bundle.go]): verification, the
    configuration of a new directory, and the command a launch runs.

    The directory is a [Disk] of [Provenance]; making a directory and writing a file may fail
    at any point.  Rendering and parsing of JSON text are arguments. *)
From S2P Require Import Prelude Json Types Catalog Config Wire Evidence Api HostPolicy Provenance.
#[local] Open Scope Z_scope.

Record ClientProfile := mkClientProfile {
  cp_Harness : string;
  cp_BaseURL : string;
  cp_Model : string;
  cp_Context : Z;
  cp_MaxOutput : Z }.
Record BundleMetadata := mkBundleMetadata {
  bm_Schema : Z;
  bm_Status : string;
  bm_DefaultHarness : string;
  bm_PreferenceOrder : list string;
  bm_AutomaticFallback : bool;
  bm_BaseURL : string;
  bm_Model : string;
  bm_Context : Z;
  bm_MaxOutput : Z;
  bm_OutputLimitSupport : gmap string string;
  bm_ConfigSHA256 : gmap string string;
  bm_Sources : gmap string (gmap string string) }.
Definition BundleMetadata0 : BundleMetadata := mkBundleMetadata 0 "" "" [] false "" "" 0 0 ∅ ∅ ∅.
Definition BundleMetadata_json (m : BundleMetadata) : JSON := JObject [
  ("schema", JInt (bm_Schema m)); ("status", JString (bm_Status m)); ("default_harness", JString (bm_DefaultHarness m));
  ("preference_order", JArray (JString <$> bm_PreferenceOrder m)); ("automatic_fallback", JBool (bm_AutomaticFallback m));
  ("base_url", JString (bm_BaseURL m)); ("model", JString (bm_Model m)); ("context_tokens", JInt (bm_Context m));
  ("max_output_tokens", JInt (bm_MaxOutput m)); ("output_limit_support", JMap JString (bm_OutputLimitSupport m));
  ("config_sha256", JMap JString (bm_ConfigSHA256 m)); ("sources", JMap (JMap JString) (bm_Sources m))].
Definition dec_BundleMetadata : decoder BundleMetadata := dec_lenient [
  at_key "schema" dec_int bm_Schema (λ x '(mkBundleMetadata _ b c d e f g h i j k l), mkBundleMetadata x b c d e f g h i j k l);
  at_key "status" dec_string bm_Status (λ x '(mkBundleMetadata a _ c d e f g h i j k l), mkBundleMetadata a x c d e f g h i j k l);
  at_key "default_harness" dec_string bm_DefaultHarness (λ x '(mkBundleMetadata a b _ d e f g h i j k l), mkBundleMetadata a b x d e f g h i j k l);
  at_key "preference_order" (dec_list "" dec_string) bm_PreferenceOrder (λ x '(mkBundleMetadata a b c _ e f g h i j k l), mkBundleMetadata a b c x e f g h i j k l);
  at_key "automatic_fallback" dec_bool bm_AutomaticFallback (λ x '(mkBundleMetadata a b c d _ f g h i j k l), mkBundleMetadata a b c d x f g h i j k l);
  at_key "base_url" dec_string bm_BaseURL (λ x '(mkBundleMetadata a b c d e _ g h i j k l), mkBundleMetadata a b c d e x g h i j k l);
  at_key "model" dec_string bm_Model (λ x '(mkBundleMetadata a b c d e f _ h i j k l), mkBundleMetadata a b c d e f x h i j k l);
  at_key "context_tokens" dec_int bm_Context (λ x '(mkBundleMetadata a b c d e f g _ i j k l), mkBundleMetadata a b c d e f g x i j k l);
  at_key "max_output_tokens" dec_int bm_MaxOutput (λ x '(mkBundleMetadata a b c d e f g h _ j k l), mkBundleMetadata a b c d e f g h x j k l);
  at_key "output_limit_support" (dec_map "" dec_string) bm_OutputLimitSupport (λ x '(mkBundleMetadata a b c d e f g h i _ k l), mkBundleMetadata a b c d e f g h i x k l);
  at_key "config_sha256" (dec_map "" dec_string) bm_ConfigSHA256 (λ x '(mkBundleMetadata a b c d e f g h i j _ l), mkBundleMetadata a b c d e f g h i j x l);
  at_key "sources" (dec_map ∅ (dec_map "" dec_string)) bm_Sources (λ x '(mkBundleMetadata a b c d e f g h i j k _), mkBundleMetadata a b c d e f g h i j k x)].

(** [json.MarshalIndent] with two spaces, and [json.Unmarshal] into an [any]: objects without
    repeated keys in the order of their keys, numbers as floats. *)
Class JSONIndent := json_indent : JSON → string.
Class AnyValue := any_value : string → option JSON.

Section Harness.
Context `{NetParse} `{JSONText} `{JSONRender} `{JSONIndent} `{AnyValue} (Sum : string → string).

(** ** The profile *)

Definition host_char (c : ascii) : bool := is_alnum c || Ascii.eqb c "."%char || Ascii.eqb c "-"%char.
Definition host_name (s : string) : bool := match s with String c t => is_alnum c && all_chars host_char t | EmptyString => false end.
Definition model_char (c : ascii) : bool := is_alnum c || existsb (Ascii.eqb c) ["_"%char; "."%char; "/"%char; ":"%char; "-"%char].
Definition port_refused (port : string) : bool :=
  (port <>s "") && match ParseInt port with Some n => (n <? 1) || (n >? 65535) | None => true end.
Definition harness_names : list string := ["qwen"; "dsh"; "hermes"].
Definition ValidateClient (p : ClientProfile) : result unit :=
  reject negb (str_in (cp_Harness p) harness_names) with Plain "harness must be qwen, dsh or hermes" ;;
  match url_Parse (cp_BaseURL p) with
  | None => Err (Plain "endpoint must be a credential-free /v1 URL")
  | Some u =>
    reject u_User u || (u_RawQuery u <>s "") || (u_Fragment u <>s "") || (u_Path u <>s "/v1") || (u_Opaque u <>s "")
      with Plain "endpoint must be a credential-free /v1 URL" ;;
    reject (u_Scheme u =s "http") && (u_Hostname u <>s "127.0.0.1") && (u_Hostname u <>s "localhost")
      with Plain "HTTP client endpoints require a loopback tunnel" ;;
    reject negb (u_Scheme u =s "http") && ((u_Scheme u <>s "https") || negb (host_name (u_Hostname u))) with Plain "endpoint must use HTTPS" ;;
    reject port_refused (u_Port u) with Plain "endpoint port is invalid" ;;
    reject negb (headed_name model_char 0 199 (cp_Model p)) || contains (cp_Model p) ".." with Plain "invalid served model identifier" ;;
    reject (cp_Context p <? 2048) || (cp_Context p >? 262144) || (cp_MaxOutput p <? 128) || (cp_MaxOutput p >? Z.quot (cp_Context p) 2)
      with Plain "context must be 2048..262144; output must be 128..half the context" ;;
    Ok tt
  end.

(** ** The native configurations *)

Definition api_key_variable : string := "WORKSTATION_AGENT_API_KEY".
Definition qwen_settings (p : ClientProfile) : JSON := JObject [
  ("context", JObject [("fileName", JArray [JString "AGENTS.md"; JString "QWEN.md"])]);
  ("general", JObject [("enableAutoUpdate", JBool false)]);
  ("model", JObject [("name", JString (cp_Model p))]);
  ("modelProviders", JObject [("openai", JArray [JObject [
    ("baseUrl", JString (cp_BaseURL p)); ("envKey", JString api_key_variable);
    ("generationConfig", JObject [
      ("contextWindowSize", JInt (cp_Context p)); ("maxRetries", JInt 1); ("samplingParams", JObject [("max_tokens", JInt (cp_MaxOutput p))]);
      ("streamIdleTimeoutMs", JInt 180000); ("timeout", JInt 120000)]);
    ("id", JString (cp_Model p)); ("name", JString "Workstation local Qwen")]])]);
  ("privacy", JObject [("usageStatisticsEnabled", JBool false)]);
  ("security", JObject [("auth", JObject [("selectedType", JString "openai")]); ("folderTrust", JObject [("enabled", JBool true)])]);
  ("telemetry", JObject [("enabled", JBool false)]);
  ("tools", JObject [("approvalMode", JString "default")])].
Definition dsh_settings (p : ClientProfile) : JSON := JObject [
  ("agent-default-model", JObject [("model", JString (cp_Model p)); ("provider", JString "workstation")]);
  ("llm-pi-ai", JObject [("providers", JObject [("workstation", JObject [
    ("api", JString "openai-completions"); ("apiKeyEnv", JString api_key_variable); ("baseURL", JString (cp_BaseURL p));
    ("models", JArray [JObject [
      ("contextWindow", JInt (cp_Context p)); ("id", JString (cp_Model p)); ("input", JArray [JString "text"]); ("maxTokens", JInt (cp_MaxOutput p))]])])])])].
Definition hermes_config (p : ClientProfile) : JSON := JObject [
  ("approvals", JObject [("mode", JString "manual")]);
  ("auxiliary", JObject [
    ("background_review", JObject [("enabled", JBool false)]); ("compression", JObject [("provider", JString "main")]);
    ("title_generation", JObject [("enabled", JBool false)])]);
  ("compression", JObject [("enabled", JBool true); ("protect_last_n", JInt 20); ("target_ratio", JFloat f0_2); ("threshold", JFloat f0_5)]);
  ("fallback_providers", JArray []);
  ("mcp_servers", JObject []);
  ("model", JObject [
    ("api_key", JString "${WORKSTATION_AGENT_API_KEY}"); ("base_url", JString (cp_BaseURL p)); ("context_length", JInt (cp_Context p));
    ("default", JString (cp_Model p)); ("provider", JString "custom")]);
  ("terminal", JObject [("backend", JString "local")])].
Definition put_text (v : JSON) : string := json_indent v +:+ String newline "".
Definition native_configs (p : ClientProfile) : list (string * (string * JSON)) :=
  [("qwen", ("qwen/settings.json", qwen_settings p)); ("dsh", ("dsh/settings.yaml", dsh_settings p)); ("hermes", ("hermes/config.yaml", hermes_config p))].
Definition pin (k : string) : string := default "" (HarnessPins !! k).
Definition sources_pinned : gmap string (gmap string string) := list_to_map [
  ("qwen", list_to_map [("repository", "https://github.com/QwenLM/qwen-code"); ("commit", pin "QWEN_CODE_COMMIT"); ("version", pin "QWEN_CODE_VERSION")]);
  ("dsh", list_to_map [("repository", "https://github.com/deepseek-ai/deepseek-harness"); ("commit", pin "DSH_COMMIT")]);
  ("hermes", list_to_map [("repository", "https://github.com/NousResearch/hermes-agent"); ("commit", pin "HERMES_AGENT_COMMIT")])].
Definition limit_support : gmap string string :=
  list_to_map [("qwen", "request"); ("dsh", "request-default"); ("hermes", "unsupported-provider-owned")].
Definition native_metadata (p : ClientProfile) : BundleMetadata :=
  mkBundleMetadata 1 "configured-not-qualified" (cp_Harness p) harness_names false (cp_BaseURL p) (cp_Model p) (cp_Context p) (cp_MaxOutput p)
    limit_support (list_to_map ((λ c, (c.1, Sum (put_text c.2.2))) <$> native_configs p)) sources_pinned.
Definition NativeBundle (p : ClientProfile) : result (gmap string string) :=
  _ ← ValidateClient p;
  Ok (list_to_map (("bundle.json", put_text (BundleMetadata_json (native_metadata p))) :: ((λ c, (c.2.1, put_text c.2.2)) <$> native_configs p))).

(** ** Verification *)

Definition text_of (files : gmap string string) (path : string) : string := default "" (files !! path).
Definition read_metadata (text : string) : option BundleMetadata := v ← unmarshal text; dec_BundleMetadata v BundleMetadata0.
Definition native_path (harness : string) : string :=
  if harness =s "qwen" then "qwen/settings.json" else if harness =s "dsh" then "dsh/settings.yaml"
  else if harness =s "hermes" then "hermes/config.yaml" else "".
Definition VerifyNative (files : gmap string string) (selected mode : string) : result ClientProfile :=
  match read_metadata (text_of files "bundle.json") with
  | None => Err (Plain "invalid bundle metadata")
  | Some m =>
    let selected := if selected =s "" then bm_DefaultHarness m else selected in
    let p := mkClientProfile selected (bm_BaseURL m) (bm_Model m) (bm_Context m) (bm_MaxOutput m) in
    reject negb (bm_Schema m =? 1) || bm_AutomaticFallback m || (String.concat "," (bm_PreferenceOrder m) <>s "qwen,dsh,hermes")
      with Plain "unsupported bundle contract" ;;
    reject (mode <>s "cli") && (mode <>s "acp") with Plain "mode must be cli or acp" ;;
    reject (selected =s "dsh") && (mode <>s "acp") with Plain "pinned DSH supports ACP only, no interactive CLI profile" ;;
    expected ← NativeBundle p;
    match read_metadata (text_of expected "bundle.json") with
    | None => Err (Plain "bundle source pins or capability contract differ from reviewed revisions")
    | Some canonical =>
      reject (bm_Status m <>s bm_Status canonical) || negb (bool_decide (bm_Sources m = bm_Sources canonical))
          || negb (bool_decide (bm_OutputLimitSupport m = bm_OutputLimitSupport canonical))
        with Plain "bundle source pins or capability contract differ from reviewed revisions" ;;
      let path := native_path selected in
      reject Sum (text_of files path) <>s default "" (bm_ConfigSHA256 m !! selected) with Plain "native bundle checksum mismatch" ;;
      match any_value (text_of files path), any_value (text_of expected path) with
      | Some actual, Some canonical =>
        reject json_text actual <>s json_text canonical with Plain (selected +:+ " native route, budget or policy differs from pinned schema") ;;
        Ok p
      | _, _ => Err (Plain "native bundle is malformed")
      end
    end
  end.

(** ** The client's machine *)

Definition nativePaths : list string := ["bundle.json"; "qwen/settings.json"; "dsh/settings.yaml"; "hermes/config.yaml"].
Fixpoint read_bundle_files (l : list BundleFile) (files : gmap string string) : result (gmap string string) :=
  match l with
  | [] => Ok files
  | f :: l =>
    reject negb (str_in (bf_Path f) nativePaths) || (str_len (bf_Content f) >? 2^20)
      with Plain "native bundle contains an unsupported path or oversized file" ;;
    reject is_some (files !! bf_Path f) with Plain "native bundle contains a duplicate file" ;;
    reject Sum (bf_Content f) <>s bf_SHA256 f with Plain "native bundle file digest mismatch" ;;
    read_bundle_files l (<[bf_Path f := bf_Content f]> files)
  end.
Fixpoint verify_each (files : gmap string string) (names : list string) : result unit :=
  match names with
  | [] => Ok tt
  | h :: names => _ ← VerifyNative files h (if h =s "dsh" then "acp" else "cli"); verify_each files names
  end.
Definition VerifyBundle (b : Bundle) : result (gmap string string) :=
  reject negb (Nat.eqb (length (bn_Files b)) (length nativePaths)) with Plain "native bundle must contain the four reviewed files" ;;
  files ← read_bundle_files (bn_Files b) ∅;
  _ ← verify_each files harness_names;
  reject negb (str_in (bn_Harness b) harness_names) with Plain "unknown bundle harness" ;;
  Ok files.

(** How far the write of a new file gets: not created, a part, everything without being
    durable, or all of it. *)
Inductive NewFile := NotCreated | Partial (n : Z) | NotSynced | DirectoryNotSynced | Created.
Definition make_entry (d : Disk) (l : list string) (e : Entry) : Disk := mkDisk (<[l := e]> (dk_entries d)) (dk_broken d).
Definition WriteNewFile (d : Disk) (uid : Z) (l : list string) (data : string) (w : NewFile) : Disk * result unit :=
  let refused := Err (Plain "output must be a new file in an existing directory") in
  let failed := Err (Plain "output write failed; inspect the incomplete owner-only file") in
  match dk_entries d !! l, dk_entries d !! removelast l with
  | None, Some (EDir _ _) =>
    match w with
    | NotCreated => (d, refused)
    | Partial n => (make_entry d l (EFile uid 384 (take_bytes n data)), failed)
    | NotSynced => (make_entry d l (EFile uid 384 data), failed)
    | DirectoryNotSynced => (make_entry d l (EFile uid 384 data), Err (Plain "directory could not be synced"))
    | Created => (make_entry d l (EFile uid 384 data), Ok tt)
    end
  | _, _ => (d, refused)
  end.
Definition WriteArtifact (d : Disk) (uid : Z) (a : Artifact) (l : list string) (w : NewFile) : Disk * result unit :=
  if ar_Content a =s "" then (d, Err (Plain "artifact has no downloadable content; inspect its managed output and provenance on the target")) else
  if negb (str_len (ar_Content a) =? ar_Size a) || (Sum (ar_Content a) <>s ar_SHA256 a)
  then (d, Err (Plain "artifact size or SHA-256 verification failed")) else WriteNewFile d uid l (ar_Content a) w.

(** [os.Mkdir], when it does not fail otherwise. *)
Definition Mkdir (d : Disk) (uid : Z) (l : list string) (made : bool) : Disk * result unit :=
  match dk_entries d !! l, dk_entries d !! removelast l with
  | None, Some (EDir _ _) => if made then (make_entry d l (EDir uid 448), Ok tt) else (d, Err ErrIO)
  | _, _ => (d, Err ErrIO)
  end.
Fixpoint make_directories (d : Disk) (uid : Z) (base : list string) (made : string → bool) (names : list string) : Disk * result unit :=
  match names with
  | [] => (d, Ok tt)
  | h :: names =>
    match Mkdir d uid (base ++ [h]) (made h) with
    | (d, Ok _) => make_directories d uid base made names
    | (d, Err e) => (d, Err e)
    end
  end.
Fixpoint write_files (d : Disk) (uid : Z) (base : list string) (files : gmap string string) (w : string → NewFile) (paths : list string) : Disk * result unit :=
  match paths with
  | [] => (d, Ok tt)
  | p :: paths =>
    match WriteNewFile d uid (base ++ components p) (text_of files p) (w p) with
    | (d, Ok _) => write_files d uid base files w paths
    | (d, Err e) => (d, Err (Plain "bundle incomplete; do not launch"))
    end
  end.
(** The native files in the order they are written. *)
Definition publication : list string := ["dsh/settings.yaml"; "hermes/config.yaml"; "qwen/settings.json"; "bundle.json"].
Definition ConfigureBundle (d : Disk) (uid : Z) (b : Bundle) (base : list string) (made : string → bool) (w : string → NewFile) : Disk * result unit :=
  match VerifyBundle b with
  | Err e => (d, Err e)
  | Ok files =>
    match Mkdir d uid base (made "") with
    | (d, Err _) => (d, Err (Plain "bundle directory must be new; existing client configuration is never overwritten"))
    | (d, Ok _) =>
      match make_directories d uid base made harness_names with
      | (d, Err e) => (d, Err e)
      | (d, Ok _) => write_files d uid base files w publication
      end
    end
  end.

(** [os.OpenFile] without following a link, of a bounded regular file. *)
Definition read_nofollow (d : Disk) (l : list string) (max : Z) : result string :=
  '(q, e) ← named d false l;
  match e with
  | EFile _ _ content => reject (str_len content >? max) || dk_broken d q with ErrIO ;; Ok content
  | _ => Err ErrIO
  end.
Definition dec_BundleFile : decoder BundleFile := dec_struct [
  at_key "path" dec_string bf_Path (λ x '(mkBundleFile _ b c), mkBundleFile x b c);
  at_key "content" dec_string bf_Content (λ x '(mkBundleFile a _ c), mkBundleFile a x c);
  at_key "sha256" dec_string bf_SHA256 (λ x '(mkBundleFile a b _), mkBundleFile a b x)].
Definition dec_Bundle : decoder Bundle := dec_struct [
  at_key "harness" dec_string bn_Harness (λ x '(mkBundle _ b c d), mkBundle x b c d);
  at_key "revision" dec_string bn_Revision (λ x '(mkBundle a _ c d), mkBundle a x c d);
  at_key "files" (dec_list (mkBundleFile "" "" "") dec_BundleFile) bn_Files (λ x '(mkBundle a b _ d), mkBundle a b x d);
  at_key "limitations" (dec_list "" dec_string) bn_Limitations (λ x '(mkBundle a b c _), mkBundle a b c x)].
Definition ReadBundleFile (d : Disk) (l : list string) : result Bundle :=
  text ← read_nofollow d l (5 * 2^20);
  b ← strictDecode dec_Bundle (mkBundle "" "" [] []) (json_docs text);
  _ ← VerifyBundle b;
  Ok b.

Definition real_directory (d : Disk) (l : list string) : bool := match Lstat d l with Ok (EDir _ _) => true | _ => false end.
Fixpoint read_native (d : Disk) (base : list string) (paths : list string) (files : gmap string string) : result (gmap string string) :=
  match paths with
  | [] => Ok files
  | p :: paths =>
    let l := components p in
    reject match removelast l with [] => false | parent => negb (real_directory d (base ++ parent)) end
      with Plain "native configuration directory is missing or symlinked" ;;
    content ← read_nofollow d (base ++ l) (2^20);
    read_native d base paths (<[p := content]> files)
  end.
Definition readNativeDirectory (d : Disk) (base : list string) : result (gmap string string) :=
  reject negb (real_directory d base) with Plain "bundle directory must be a regular directory" ;;
  read_native d base nativePaths ∅.

(** ** The launch *)

Record LaunchSpec := mkLaunchSpec { ln_Executable : string; ln_Arguments : list string; ln_Environment : list string }.
(** The machine: the user, the system, the environment and the search path. *)
Record Machine := mkMachine { mc_euid : Z; mc_GOOS : string; mc_env : string → option string; mc_look : string → option string }.
Definition inherited : list string := ["PATH"; "HOME"; "USER"; "LOGNAME"; "SHELL"; "TERM"; "COLORTERM"; "LANG"; "LC_ALL"; "TMPDIR"].
Definition qwen_policy (goos : string) : string :=
  if goos =s "darwin" then "/Library/Application Support/QwenCode/settings.json" else "/etc/qwen-code/settings.json".
Definition qwen_free (mc : Machine) (d : Disk) (own : string) : result unit :=
  reject negb (IsNotExist (Lstat d (components (qwen_policy (mc_GOOS mc)))))
    with Plain "existing or unreadable Qwen system policy requires an owner-reviewed merge" ;;
  let existing := default "" (mc_env mc "QWEN_CODE_SYSTEM_SETTINGS_PATH") in
  reject (existing <>s "") && (existing <>s own) with Plain "existing QWEN_CODE_SYSTEM_SETTINGS_PATH requires owner review" ;; Ok tt.
Definition launch_key (mc : Machine) (p : ClientProfile) : result string :=
  let key := default "" (mc_env mc api_key_variable) in
  if key <>s "" then Ok key else
  reject has_prefix (cp_BaseURL p) "https://" with Plain "HTTPS inference requires WORKSTATION_AGENT_API_KEY from a supported local secret input" ;;
  Ok "local-tunnel".
Definition inherited_env (mc : Machine) : list string :=
  omap (λ k, (λ v, k +:+ "=" +:+ v) <$> mc_env mc k) inherited.
Definition client_env (p : ClientProfile) (key : string) : list string :=
  ["WORKSTATION_AGENT_API_KEY=" +:+ key; "OPENAI_API_KEY=" +:+ key; "OPENAI_BASE_URL=" +:+ cp_BaseURL p; "OPENAI_MODEL=" +:+ cp_Model p].
Definition harness_env (dir : string) (p : ClientProfile) : list string :=
  if cp_Harness p =s "qwen" then
    ["QWEN_CODE_SYSTEM_SETTINGS_PATH=" +:+ path_join dir "qwen/settings.json"; "QWEN_HOME=" +:+ path_join dir "qwen"; "QWEN_RUNTIME_DIR=" +:+ path_join dir "qwen";
     "QWEN_MODEL=" +:+ cp_Model p; "QWEN_USAGE_STATISTICS_ENABLED=false"; "QWEN_TELEMETRY_ENABLED=false"]
  else if cp_Harness p =s "dsh" then ["DSH_HOME=" +:+ path_join dir "dsh"; "DSH_PERMISSION_MODE=workspace-write"; "DSH_TELEMETRY_MODE=DISABLED"]
  else if cp_Harness p =s "hermes" then ["HERMES_HOME=" +:+ path_join dir "hermes"] else [].
Definition harness_args (p : ClientProfile) (mode : string) : list string :=
  if cp_Harness p =s "qwen" then ["--auth-type"; "openai"; "--model"; cp_Model p; "--approval-mode"; "default"] ++ (if mode =s "acp" then ["--acp"] else [])
  else if cp_Harness p =s "dsh" then ["--profile"; "acp"]
  else if cp_Harness p =s "hermes" then (if mode =s "acp" then ["acp"] else ["chat"]) else [].
(** [PrepareLaunch] of an absolute directory. *)
Definition PrepareLaunch (mc : Machine) (d : Disk) (dir selected mode : string) : result LaunchSpec :=
  reject mc_euid mc =? 0 with Plain "developer clients must run as an unprivileged local user" ;;
  reject (mc_GOOS mc <>s "linux") && (mc_GOOS mc <>s "darwin") with Plain "developer client launch supports macOS and Linux" ;;
  files ← readNativeDirectory d (components dir);
  p ← VerifyNative files selected mode;
  _ ← (if cp_Harness p =s "qwen" then qwen_free mc d (path_join dir "qwen/settings.json") else Ok tt);
  key ← launch_key mc p;
  match mc_look mc (cp_Harness p) with
  | None => Err (Plain "selected client is not installed locally; Bridge does not install harnesses")
  | Some executable => Ok (mkLaunchSpec executable (harness_args p mode) (inherited_env mc ++ client_env p key ++ harness_env dir p))
  end.
End Harness.
