(* ===== verification/Launch.v ===== *)
(** What the client machine may rely on of a native bundle ([Harness]): a configuration that
    is complete or cannot be launched, and launches that run only what was pinned. *)
From S2P Require Import Prelude FileTree Json Types Catalog Config Wire Evidence Api HostPolicy Provenance Trust Harness.
#[local] Open Scope Z_scope.

(** ** Writing *)

#[local] Abbreviation entry d l := (dk_entries d !! l).
(** Every entry is in a directory. *)
Definition tree_disk (d : Disk) : Prop := ∀ l x e, entry d (l ++ [x]) = Some e → ∃ u m, entry d l = Some (EDir u m).
(** What was there stays as it was. *)
Definition kept (d d' : Disk) : Prop := dk_broken d' = dk_broken d ∧ ∀ l e, entry d l = Some e → entry d' l = Some e.
#[export] Instance kept_refl : Reflexive kept.
Proof. by intros d. Qed.
#[export] Instance kept_trans : Transitive kept.
Proof. intros d d' d'' [K1 K2] [K3 K4]. split; [congruence|]. intros l e Hl. by apply K4, K2. Qed.

Lemma make_entry_new d l e : entry d l = None → kept d (make_entry d l e).
Proof. intros Hl. split; [done|]. intros l' e' Hl'. cbn. rewrite lookup_insert_ne; [done|]. intros ->. congruence. Qed.
Lemma make_entry_tree d l x e : tree_disk d → (∃ u m, entry d l = Some (EDir u m)) → entry d (l ++ [x]) = None → tree_disk (make_entry d (l ++ [x]) e).
Proof.
  intros Ht Hl Hn l' x' e'. cbn. assert (l ≠ l ++ [x]) as Hne by (intros Hx; apply (f_equal length) in Hx; rewrite length_app in Hx; cbn in Hx; lia).
  destruct (decide (l' ++ [x'] = l ++ [x])) as [Heq|Hx].
  - apply app_inj_tail in Heq as [-> ->]. intros _. rewrite lookup_insert_ne by done. done.
  - rewrite lookup_insert_ne by done. intros Hi. apply Ht in Hi as (u & m & Hu). exists u, m. rewrite lookup_insert_ne; [done|]. intros <-. congruence.
Qed.
(** The outcomes of one creation: nothing, or a new entry in a directory. *)
Definition creates (d : Disk) (l : list string) (d' : Disk) : Prop := d' = d ∨ ∃ e, entry d l = None ∧ (∃ u m, entry d (removelast l) = Some (EDir u m)) ∧ d' = make_entry d l e.
Lemma creates_kept d l d' : creates d l d' → kept d d'.
Proof. intros [->|(e & Hn & _ & ->)]; [done|by apply make_entry_new]. Qed.
Lemma creates_other d l d' l' : creates d l d' → l' ≠ l → entry d' l' = entry d l'.
Proof. intros [->|(e & _ & _ & ->)] Hne; [done|]. cbn. by rewrite lookup_insert_ne. Qed.
Lemma creates_tree d l d' : l ≠ [] → creates d l d' → tree_disk d → tree_disk d'.
Proof.
  intros Hl [->|(e & Hn & Hd & ->)] Ht; [done|]. destruct l as [|x l _] using rev_ind; [done|]. rewrite removelast_last in Hd. by apply make_entry_tree.
Qed.
Lemma WriteNewFile_creates d uid l data w d' r : WriteNewFile d uid l data w = (d', r) →
  creates d l d' ∧ (r = Ok tt → entry d' l = Some (EFile uid 384 data)).
Proof.
  unfold WriteNewFile. destruct (entry d l) eqn:Hl; [intros [= <- <-]; split; [by left|done]|].
  destruct (entry d (removelast l)) as [[u m| | |]|] eqn:Hp; [|intros [= <- <-]; split; [by left|done]..].
  destruct w; intros [= <- <-]; (split; [|try done]); try (by left); try (right; eexists; split_and!; eauto; fail).
  intros _. cbn. apply lookup_insert_eq.
Qed.
Lemma Mkdir_creates d uid l made d' r : Mkdir d uid l made = (d', r) → creates d l d' ∧ (r = Ok tt → entry d l = None ∧ entry d' l = Some (EDir uid 448)).
Proof.
  unfold Mkdir. destruct (entry d l) eqn:Hl; [intros [= <- <-]; split; [by left|done]|].
  destruct (entry d (removelast l)) as [[u m| | |]|] eqn:Hp; [|intros [= <- <-]; split; [by left|done]..].
  destruct made; intros [= <- <-]; [|split; [by left|done]]. split; [right; eexists; split_and!; eauto|]. intros _. split; [done|]. apply lookup_insert_eq.
Qed.
Lemma make_directories_kept uid base made names : ∀ d d' r, make_directories d uid base made names = (d', r) →
  kept d d' ∧ (tree_disk d → tree_disk d') ∧ ∀ l, l ∉ ((λ h, base ++ [h]) <$> names) → entry d' l = entry d l.
Proof.
  induction names as [|h names IH]; intros d d' r; cbn [make_directories]; [by intros [= <- <-]|].
  destruct (Mkdir d uid (base ++ [h]) (made h)) as [d1 [[]|e]] eqn:Hm; apply Mkdir_creates in Hm as [Hc _].
  - intros Hr. apply IH in Hr as (K1 & K2 & K3). split; [|split].
    + etransitivity; [by eapply creates_kept|done].
    + intros Ht. apply K2. eapply creates_tree; [|done..]. by destruct base.
    + intros l Hl. rewrite fmap_cons in Hl. apply not_elem_of_cons in Hl as [Hl1 Hl2]. rewrite K3 by done. by eapply creates_other.
  - intros [= <- <-]. split; [by eapply creates_kept|]. split; [intros Ht; eapply creates_tree; [|done..]; by destruct base|].
    intros l Hl. rewrite fmap_cons in Hl. apply not_elem_of_cons in Hl as [Hl1 Hl2]. by eapply creates_other.
Qed.

Section Files.
Context (uid : Z) (base : list string) (files : gmap string string) (w : string → NewFile).
#[local] Abbreviation place p := (base ++ components p).
Definition written (d : Disk) (p : string) : Prop := entry d (place p) = Some (EFile uid 384 (text_of files p)).
Lemma write_files_kept paths : ∀ d d' r, write_files d uid base files w paths = (d', r) →
  Forall (λ p, components p ≠ []) paths →
  kept d d' ∧ (tree_disk d → tree_disk d') ∧ (∀ l, l ∉ ((λ p, place p) <$> paths) → entry d' l = entry d l) ∧ (r = Ok tt → ∀ p, p ∈ paths → written d' p).
Proof.
  induction paths as [|p paths IH]; intros d d' r; cbn [write_files]; [intros [= <- <-] _; split_and!; try done; by intros _ p ?%elem_of_nil|].
  destruct (WriteNewFile d uid (place p) (text_of files p) (w p)) as [d1 [[]|e]] eqn:Hm; apply WriteNewFile_creates in Hm as [Hc Hw]; intros Hr [Hp Hps]%Forall_cons;
    (assert (place p ≠ []) as Hne by (by destruct base, (components p))).
  - apply IH in Hr as (K1 & K2 & K3 & K4); [|done]. split_and!.
    + etransitivity; [by eapply creates_kept|done].
    + intros Ht. apply K2. by eapply creates_tree.
    + intros l Hl. rewrite fmap_cons in Hl. apply not_elem_of_cons in Hl as [Hl1 Hl2]. rewrite K3 by done. by eapply creates_other.
    + intros Hok q [->|Hq]%elem_of_cons; [by apply (proj2 K1), Hw|by apply K4].
  - injection Hr as <- <-. split_and!; [by eapply creates_kept|intros Ht; by eapply creates_tree| |done].
    intros l Hl. rewrite fmap_cons in Hl. apply not_elem_of_cons in Hl as [Hl1 Hl2]. by eapply creates_other.
Qed.
(** A file that appears was written after all before it were complete. *)
Lemma written_before a : ∀ d d' r p b, write_files d uid base files w (a ++ p :: b) = (d', r) →
  Forall (λ p, components p ≠ []) (a ++ p :: b) → (∀ q, q ∈ a → place q ≠ place p) →
  entry d (place p) = None → is_Some (entry d' (place p)) → ∀ q, q ∈ a → written d' q.
Proof.
  induction a as [|q a IH]; intros d d' r p b Hr Hc Hne Hp Hs x Hx; [by apply elem_of_nil in Hx|]. cbn [app write_files] in Hr. apply Forall_cons in Hc as [_ Hc].
  destruct (WriteNewFile d uid (place q) (text_of files q) (w q)) as [d1 [[]|e]] eqn:Hm; apply WriteNewFile_creates in Hm as [Hcr Hw].
  - assert (entry d1 (place p) = None) as Hp1.
    { rewrite (creates_other _ _ _ _ Hcr); [done|]. intros Heq. by apply (Hne q); [apply list_elem_of_here|]. }
    apply elem_of_cons in Hx as [->|Hx].
    + apply write_files_kept in Hr as ((_ & K) & _); [|done]. by apply K, Hw.
    + eapply IH; [exact Hr|done| |done..]. intros y Hy. apply Hne. by apply list_elem_of_further.
  - injection Hr as <- <-. rewrite (creates_other _ _ _ _ Hcr) in Hs; [rewrite Hp in Hs; by destruct Hs|].
    intros Heq. by apply (Hne q); [apply list_elem_of_here|].
Qed.
End Files.

(** ** Reading back *)

Definition dirs_to (d : Disk) (l : list string) : Prop := ∀ k, (0 < k ≤ length l)%nat → ∃ e, entry d ([] ++ take k l) = Some e ∧ is_dir e = true.
Lemma tree_dirs d l : tree_disk d → (∃ u m, entry d l = Some (EDir u m)) → dirs_to d l.
Proof.
  intros Ht. induction l as [|x l IH] using rev_ind; intros (u & m & Hl) k Hk; [cbn in Hk; lia|]. rewrite length_app in Hk. cbn in *.
  destruct (decide (k = length l + 1)%nat) as [->|]; [exists (EDir u m); rewrite firstn_all2 by (rewrite length_app; cbn; lia); done|].
  rewrite take_app_le by lia. apply IH; [by eapply Ht|lia].
Qed.
Lemma named_literal d l x : plain (l ++ [x]) → dirs_to d l → named d false (l ++ [x]) = match entry d (l ++ [x]) with Some e => Ok (l ++ [x], e) | None => Err ErrAbsent end.
Proof.
  intros [Hl Hx]%Forall_app Hd. apply Forall_cons in Hx as [Hx _]. unfold named. rewrite resolve_dirs by done. rewrite app_nil_l, disk_resolve_plain by done.
  destruct (entry d (l ++ [x])) as [[]|] eqn:He; cbn; by rewrite ?He.
Qed.
Lemma dirs_snoc d l x : dirs_to d l → (∃ u m, entry d (l ++ [x]) = Some (EDir u m)) → dirs_to d (l ++ [x]).
Proof.
  intros Hd (u & m & He) k Hk. rewrite length_app in Hk. cbn in *. destruct (decide (k = length l + 1)%nat) as [->|].
  - exists (EDir u m). rewrite firstn_all2 by (rewrite length_app; cbn; lia). done.
  - rewrite take_app_le by lia. apply Hd. lia.
Qed.
Lemma directory_literal d l x : plain (l ++ [x]) → dirs_to d l → real_directory d (l ++ [x]) = true → ∃ u m, entry d (l ++ [x]) = Some (EDir u m).
Proof.
  intros Hp Hd. unfold real_directory, Lstat. rewrite named_literal by done. destruct (entry d (l ++ [x])) as [[u m| | |]|]; cbn; try done. by exists u, m.
Qed.
Lemma nofollow_literal d l x max c : plain (l ++ [x]) → dirs_to d l → read_nofollow d (l ++ [x]) max = Ok c → ∃ u m, entry d (l ++ [x]) = Some (EFile u m c).
Proof.
  intros Hp Hd. unfold read_nofollow. rewrite named_literal by done. destruct (entry d (l ++ [x])) as [[| u m c'| |]|]; cbn; try done.
  destruct (_ || _); [done|]. intros [= <-]. by exists u, m.
Qed.
Lemma native_distinct : NoDup nativePaths.
Proof. apply (bool_decide_unpack _). by vm_compute. Qed.
Lemma nested_place d base h f max c : plain base → plain [h; f] → dirs_to d base → real_directory d (base ++ [h]) = true →
  read_nofollow d (base ++ [h; f]) max = Ok c → ∃ u m, entry d (base ++ [h; f]) = Some (EFile u m c).
Proof.
  intros Hb [Hh Hf]%Forall_cons Hd Hr Hc. change [h; f] with ([h] ++ [f]) in *. rewrite app_assoc in *.
  assert (plain (base ++ [h])) as Hbh by (apply Forall_app; split; [done|by constructor]).
  apply directory_literal in Hr; [|done..]. eapply nofollow_literal; [apply Forall_app; by split|by apply dirs_snoc|done].
Qed.
(** The native files are read from their places, below a directory without links. *)
Lemma read_native_places d base paths : ∀ files files', plain base → dirs_to d base → (∀ p, p ∈ paths → p ∈ nativePaths) → NoDup paths →
  read_native d base paths files = Ok files' →
  (∀ p, p ∉ paths → files' !! p = files !! p) ∧ ∀ p, p ∈ paths → ∃ u m, entry d (base ++ components p) = Some (EFile u m (text_of files' p)).
Proof.
  induction paths as [|p paths IH]; intros files files' Hb Hd Hin Hnd; cbn [read_native]; [intros [= <-]; split; [done|by intros p ?%elem_of_nil]|].
  apply NoDup_cons in Hnd as [Hnew Hnd]. intros Hr.
  match type of Hr with (if ?c then _ else _) = _ => destruct c eqn:Hpar end; [done|]. apply bind_ok in Hr as (content & Hc & Hr).
  apply IH in Hr as [K1 K2]; [|done|done|intros q Hq; apply Hin; by apply list_elem_of_further|done].
  assert (∃ u m, entry d (base ++ components p) = Some (EFile u m content)) as (u & m & He).
  { assert (p ∈ nativePaths) as Hp by apply Hin, list_elem_of_here. unfold nativePaths in Hp.
    repeat (apply elem_of_cons in Hp as [->|Hp]); [| | | |by apply elem_of_nil in Hp].
    1: apply nofollow_literal in Hc; [done|apply Forall_app; split; [done|by repeat constructor]|done].
    all: match type of Hc with context [components ?t] => let l := eval vm_compute in (components t) in change (components t) with l in * end.
    all: cbn in Hpar; bool_hyps; eapply nested_place; [done|by repeat constructor|done|exact Hpar|exact Hc]. }
  split.
  - intros q Hq. apply not_elem_of_cons in Hq as [Hq1 Hq2]. rewrite K1 by done. by rewrite lookup_insert_ne.
  - intros q [->|Hq]%elem_of_cons; [|by apply K2]. exists u, m. unfold text_of. rewrite K1 by done. by rewrite lookup_insert_eq.
Qed.

Section Bundles.
Context `{NetParse} `{JSONText} `{JSONRender} `{JSONIndent} `{AnyValue} (Sum : string → string).

(** C31: Configuring a bundle changes nothing that exists, and never leaves a partial one to
    launch.  Whatever fails on the way, a directory that was new and can be read as a bundle
    afterwards holds the three native configurations exactly as they were verified, because
    the metadata file is written last; and on success all four files are in place. *)
Theorem ConfigureBundle_complete d uid b parent x made w d' r : tree_disk d → plain (parent ++ [x]) → (∃ u m, entry d parent = Some (EDir u m)) →
  ConfigureBundle Sum d uid b (parent ++ [x]) made w = (d', r) →
  kept d d' ∧
  (r = Ok tt → ∃ files, VerifyBundle Sum b = Ok files ∧ ∀ p, p ∈ nativePaths → written uid (parent ++ [x]) files d' p) ∧
  (entry d (parent ++ [x]) = None → ∀ files', readNativeDirectory d' (parent ++ [x]) = Ok files' →
   ∃ files, VerifyBundle Sum b = Ok files ∧ ∀ p, p ∈ nativePaths → p ≠ "bundle.json" → text_of files' p = text_of files p).
Proof.
  set (base := parent ++ [x]). intros Ht Hplain Hpar. unfold ConfigureBundle.
  assert (∀ p, p ∈ nativePaths → p ∈ publication) as Hpub.
  { intros p. unfold nativePaths, publication. rewrite !elem_of_cons. tauto. }
  assert (dirs_to d parent) as Hdp by (by apply tree_dirs).
  assert (entry d base = None → ∀ d2, kept d d2 → entry d2 (base ++ ["bundle.json"]) = None → tree_disk d2 → ∀ files', readNativeDirectory d2 base ≠ Ok files') as Hnone.
  { intros Hb d2 Hk Hno Ht2 files' Hr. unfold readNativeDirectory in Hr. destruct (negb _) eqn:Hreal; [done|]. bool_hyps.
    assert (dirs_to d2 parent) as Hd2 by (apply tree_dirs; [done|]; destruct Hpar as (u & m & Hu); exists u, m; by apply (proj2 Hk)).
    apply directory_literal in Hreal; [|done..]. apply read_native_places in Hr as [_ Hr]; [|done|by apply tree_dirs|done|apply native_distinct].
    destruct (Hr "bundle.json") as (u & m & He); [by apply list_elem_of_here|]. change (components "bundle.json") with ["bundle.json"] in He. congruence. }
  assert (entry d base = None → entry d (base ++ ["bundle.json"]) = None) as Hfresh.
  { intros Hb. destruct (entry d (base ++ ["bundle.json"])) eqn:He; [|done]. apply Ht in He as (u & m & He). congruence. }
  destruct (VerifyBundle Sum b) as [files|e] eqn:Hv.
  2: { intros [= <- <-]. split_and!; [done|done|]. intros Hb files' Hr. by eapply Hnone in Hr; [|auto..]. }
  destruct (Mkdir d uid base (made "")) as [d1 [[]|e]] eqn:Hm; pose proof (Mkdir_creates _ _ _ _ _ _ Hm) as [Hc1 Hok1].
  2: { intros [= <- <-]. pose proof (creates_kept _ _ _ Hc1). split_and!; [done|done|]. intros Hb files' Hr.
       eapply Hnone in Hr; [done|done|done| |eapply creates_tree; [|done..]; by destruct parent].
       rewrite (creates_other _ _ _ _ Hc1); [auto|]. intros Hx. apply (f_equal length) in Hx. rewrite length_app in Hx. cbn in Hx. lia. }
  destruct (Hok1 eq_refl) as [Hb Hb1]. pose proof (creates_kept _ _ _ Hc1) as Kd1.
  assert (tree_disk d1) as Ht1 by (eapply creates_tree; [|done..]; by destruct parent).
  assert (∀ q, entry d1 (base ++ [q]) = None) as Hempty.
  { intros q. rewrite (creates_other _ _ _ _ Hc1); [|intros Hx; apply (f_equal length) in Hx; rewrite length_app in Hx; cbn in Hx; lia].
    destruct (entry d (base ++ [q])) eqn:He; [|done]. apply Ht in He as (u & m & He). congruence. }
  destruct (make_directories d1 uid base made harness_names) as [d2 [[]|e]] eqn:Hmk; apply make_directories_kept in Hmk as (K2 & T2 & O2);
    (assert (entry d2 (base ++ ["bundle.json"]) = None) as Hno by (rewrite O2; [apply Hempty|]; intros Hi; apply list_elem_of_fmap in Hi as (h & Heq & Hi); apply app_inj_2 in Heq as [_ [= <-]]; [|done]; unfold harness_names in Hi; repeat (apply elem_of_cons in Hi as [[=]|Hi]); by apply elem_of_nil in Hi)).
  2: { intros [= <- <-]. split_and!; [by etransitivity|done|]. intros _ files' Hr. eapply Hnone in Hr; [done|done|by etransitivity|done|auto]. }
  intros Hw. assert (Forall (λ p, components p ≠ []) publication) as Hcomp by (by repeat constructor).
  pose proof (write_files_kept uid base files w _ _ _ _ Hw Hcomp) as (K3 & T3 & O3 & W3).
  assert (kept d d') as Kall by (etransitivity; [exact Kd1|]; by etransitivity). split; [done|]. split.
  - intros Hok. exists files. split; [done|]. intros p Hp. apply W3; auto.
  - intros _ files' Hr. exists files. split; [done|].
    destruct (entry d' (base ++ ["bundle.json"])) as [e|] eqn:He; [|by eapply Hnone in Hr; [|auto..]].
    assert (∀ q, q ∈ ["dsh/settings.yaml"; "hermes/config.yaml"; "qwen/settings.json"] → written uid base files d' q) as Hbefore.
    { eapply (written_before uid base files w _ d2 d' r "bundle.json" []); [exact Hw|done| |exact Hno|change (is_Some (entry d' (base ++ ["bundle.json"]))); by rewrite He].
      intros q Hq Heq. apply app_inv_head in Heq. revert Heq. repeat (apply elem_of_cons in Hq as [->|Hq]; [done|]). by apply elem_of_nil in Hq. }
    unfold readNativeDirectory in Hr. destruct (negb _); [done|].
    apply read_native_places in Hr as [_ Hr]; [|done|apply tree_dirs; [auto|exists uid, 448; apply (proj2 K3), (proj2 K2), Hb1]|done|apply native_distinct].
    intros p Hp Hne. destruct (Hr p Hp) as (u & m & Hx). assert (written uid base files d' p) as Hy.
    { apply Hbefore. unfold nativePaths in Hp. revert Hp. rewrite !elem_of_cons. tauto. }
    unfold written in Hy. congruence.
Qed.

(** ** Launching *)

(** The settings an accepted file spells, up to the formatting of its JSON. *)
Definition spells (files : gmap string string) (p : ClientProfile) : Prop := ∃ cfg actual pinned,
  (cp_Harness p, (native_path (cp_Harness p), cfg)) ∈ native_configs p ∧
  any_value (text_of files (native_path (cp_Harness p))) = Some actual ∧ any_value (put_text cfg) = Some pinned ∧ json_text actual = json_text pinned.
(** Where the credential of the client may be sent. *)
Definition endpoint_secure (url : string) : Prop := ∃ u, url_Parse url = Some u ∧ u_User u = false ∧
  (u_Scheme u = "https" ∨ u_Scheme u = "http" ∧ u_Hostname u ∈ ["127.0.0.1"; "localhost"]).
Lemma ValidateClient_endpoint p : ValidateClient p = Ok tt → endpoint_secure (cp_BaseURL p) ∧ cp_Harness p ∈ harness_names.
Proof.
  unfold ValidateClient. destruct (negb (str_in _ _)) eqn:Hh; [done|]. bool_hyps. apply str_in_spec in Hh.
  destruct (url_Parse (cp_BaseURL p)) as [u|] eqn:Hu; [|done]. destruct (_ || _) eqn:Hg; [done|]. bool_hyps. destruct (_ && _ && _) eqn:Hhttp; [done|].
  destruct (negb (u_Scheme u =s "http") && _) eqn:Hs; [done|]. intros _. split; [|done]. exists u. split_and!; [done..|].
  destruct (String.eqb_spec (u_Scheme u) "http") as [Heq|_]; cbn in *; bool_hyps; [right; split; [done|]|left; by destruct (String.eqb_spec (u_Scheme u) "https")].
  destruct (String.eqb_spec (u_Hostname u) "127.0.0.1") as [->|]; [apply list_elem_of_here|]. destruct (String.eqb_spec (u_Hostname u) "localhost") as [->|]; [|done].
  apply list_elem_of_further, list_elem_of_here.
Qed.
Lemma VerifyNative_spells files selected mode p : VerifyNative Sum files selected mode = Ok p →
  ValidateClient p = Ok tt ∧ spells files p ∧ mode ∈ ["cli"; "acp"] ∧ (cp_Harness p = "dsh" → mode = "acp") ∧ (selected ≠ "" → cp_Harness p = selected).
Proof.
  unfold VerifyNative. destruct (read_metadata _) as [m|]; [|done]. cbv zeta. set (sel := if selected =s "" then bm_DefaultHarness m else selected).
  destruct (_ || _ || _); [done|]. destruct (_ && _) eqn:Hmode; [done|]. destruct ((sel =s "dsh") && _) eqn:Hdsh; [done|].
  set (q := mkClientProfile sel (bm_BaseURL m) (bm_Model m) (bm_Context m) (bm_MaxOutput m)).
  intros (expected & Hn & Hr)%bind_ok. destruct (read_metadata _) as [c|]; [|done]. destruct (_ || _ || _); [done|]. destruct (negb (Sum _ =s _)); [done|].
  destruct (any_value (text_of files _)) as [a|] eqn:Ha; [|done]. destruct (any_value (text_of expected _)) as [b|] eqn:Hb; [|done].
  destruct (String.eqb_spec (json_text a) (json_text b)) as [Hab|]; [|done]. injection Hr as <-.
  unfold NativeBundle in Hn. apply bind_ok in Hn as ([] & Hv & [= <-]). split; [done|]. split; [|split; [|split]].
  - pose proof (proj2 (ValidateClient_endpoint q Hv)) as Hin. unfold spells. change (cp_Harness q) with sel in *. unfold harness_names in Hin.
    repeat (apply elem_of_cons in Hin as [Hin|Hin]); [rewrite Hin in *..|by apply elem_of_nil in Hin].
    + exists (qwen_settings q), a, b. split_and!; [apply list_elem_of_here|done..].
    + exists (dsh_settings q), a, b. split_and!; [apply list_elem_of_further, list_elem_of_here|done..].
    + exists (hermes_config q), a, b. split_and!; [apply list_elem_of_further, list_elem_of_further, list_elem_of_here|done..].
  - destruct (String.eqb_spec mode "cli") as [->|]; [apply list_elem_of_here|]. destruct (String.eqb_spec mode "acp") as [->|]; [|done]. apply list_elem_of_further, list_elem_of_here.
  - cbn. intros ->. cbn in Hdsh. by destruct (String.eqb_spec mode "acp").
  - intros Hne. cbn. unfold sel. by destruct (String.eqb_spec selected "").
Qed.
(** The parts of a machine a launch looks at. *)
Definition launch_inputs (mc mc' : Machine) : Prop :=
  mc_euid mc = mc_euid mc' ∧ mc_GOOS mc = mc_GOOS mc' ∧ (∀ name, mc_look mc name = mc_look mc' name) ∧
  ∀ k, k ∈ api_key_variable :: "QWEN_CODE_SYSTEM_SETTINGS_PATH" :: inherited → mc_env mc k = mc_env mc' k.
Lemma launch_same mc mc' d dir selected mode : launch_inputs mc mc' → PrepareLaunch Sum mc d dir selected mode = PrepareLaunch Sum mc' d dir selected mode.
Proof.
  intros (E1 & E2 & E3 & E4). unfold PrepareLaunch, qwen_free, launch_key. rewrite E1, E2.
  rewrite (E4 api_key_variable) by apply list_elem_of_here. rewrite (E4 "QWEN_CODE_SYSTEM_SETTINGS_PATH") by (apply list_elem_of_further, list_elem_of_here).
  assert (inherited_env mc = inherited_env mc') as ->.
  { unfold inherited_env. assert (∀ k, k ∈ inherited → mc_env mc k = mc_env mc' k) as Hi by (intros k Hk; by apply E4, list_elem_of_further, list_elem_of_further).
    clear E4. induction inherited as [|k l IH]; [done|]. cbn. rewrite (Hi k) by apply list_elem_of_here. rewrite IH by (intros x Hx; by apply Hi, list_elem_of_further). done. }
  destruct (_ =? 0); [done|]. destruct (_ && _); [done|]. destruct (readNativeDirectory _ _) as [files|]; [|done]. cbn.
  destruct (VerifyNative _ _ _ _) as [p|]; [|done]. cbn. by rewrite E3.
Qed.
(** C32: A launch is pinned.  It is never root's, runs only the installed command of one of the
    three clients with the arguments fixed for the chosen mode (the DSH profile only over ACP),
    and only when the client's settings file spells the reviewed configuration of a valid
    profile, whose endpoint is HTTPS or a loopback tunnel; without a key an HTTPS endpoint is
    refused; and of the environment it depends on nothing but the API key, the ten inherited
    variables and, to refuse a foreign one, the Qwen policy path. *)
Theorem PrepareLaunch_pinned mc d dir selected mode sp : PrepareLaunch Sum mc d dir selected mode = Ok sp →
  mc_euid mc ≠ 0 ∧
  (∃ p files, ValidateClient p = Ok tt ∧ readNativeDirectory d (components dir) = Ok files ∧ spells files p ∧
    endpoint_secure (cp_BaseURL p) ∧ cp_Harness p ∈ harness_names ∧ (selected ≠ "" → cp_Harness p = selected) ∧
    mc_look mc (cp_Harness p) = Some (ln_Executable sp) ∧ ln_Arguments sp = harness_args p mode ∧
    mode ∈ ["cli"; "acp"] ∧ (cp_Harness p = "dsh" → mode = "acp") ∧
    (has_prefix (cp_BaseURL p) "https://" = true → ∃ key, key ≠ "" ∧ mc_env mc api_key_variable = Some key)) ∧
  ∀ mc', launch_inputs mc mc' → PrepareLaunch Sum mc' d dir selected mode = Ok sp.
Proof.
  intros Hl. assert (∀ mc', launch_inputs mc mc' → PrepareLaunch Sum mc' d dir selected mode = Ok sp) as Hsame by (intros mc' Hi; by rewrite <- (launch_same mc)).
  unfold PrepareLaunch in Hl. destruct (mc_euid mc =? 0) eqn:Hroot; [done|]. bool_hyps. destruct (_ && _); [done|]. apply bind_ok in Hl as (files & Hf & Hl).
  apply bind_ok in Hl as (p & Hv & Hl). apply bind_ok in Hl as ([] & _ & Hl). apply bind_ok in Hl as (key & Hk & Hl).
  destruct (mc_look mc (cp_Harness p)) as [ex|] eqn:Hx; [|done]. injection Hl as <-. apply VerifyNative_spells in Hv as (Hv & Hs & Hm & Hd & Hsel).
  destruct (ValidateClient_endpoint p Hv) as [He Hin]. split; [done|]. split; [|done]. exists p, files. split_and!; try done.
  intros Hp. unfold launch_key in Hk. cbv zeta in Hk. destruct (mc_env mc api_key_variable) as [k|]; cbn [default from_option id] in Hk; [|by rewrite Hp in Hk].
  exists k. split; [|done]. destruct (String.eqb_spec k ""); [by rewrite Hp in Hk|done].
Qed.
End Bundles.

(** ** A concrete bundle *)

(** A profile, its rendered files by a name each, and a machine that holds them. *)
Module LaunchFixture.
Definition profile : ClientProfile := mkClientProfile "qwen" "https://gpu.example/v1" "Qwen3.5-9B" 4096 2048.
Definition hash (s : string) : string := "sha256 of " +:+ s.
Definition kind (v : JSON) : string :=
  match v with
  | JObject ((k, _) :: _) => if k =s "schema" then "metadata" else if k =s "context" then "qwen" else if k =s "agent-default-model" then "dsh" else "hermes"
  | _ => ""
  end.
(** Metadata is told apart by its default harness. *)
Definition shown (v : JSON) : string :=
  match v with JObject (_ :: _ :: ("default_harness", JString h) :: _) => "metadata of " +:+ h | _ => kind v end.
#[export] Instance shows : JSONIndent := shown.
#[export] Instance texts : JSONRender := shown.
Definition of_harness (h : string) : ClientProfile := mkClientProfile h (cp_BaseURL profile) (cp_Model profile) (cp_Context profile) (cp_MaxOutput profile).
Definition find_text (l : list JSON) (s : string) : option JSON := List.find (λ v, put_text v =s s) l.
#[export] Instance docs : JSONText := λ s, (λ v, [v]) <$> find_text ((λ h, BundleMetadata_json (native_metadata hash (of_harness h))) <$> harness_names) s.
#[export] Instance values : AnyValue := find_text ((λ c, c.2.2) <$> native_configs profile).
#[export] Instance parser : NetParse := {|
  ParseIP _ := None; SplitHostPort _ := None; EqualFold := String.eqb;
  url_Parse s := if s =s "https://gpu.example/v1" then Some (mkURL "https" "" false "gpu.example" "gpu.example" "" "/v1" "" "" false "" "") else None |}.
Definition own_files : gmap string string := match NativeBundle hash profile with Ok files => files | Err _ => ∅ end.
Definition exported : Bundle := mkBundle "qwen" "" ((λ p, mkBundleFile p (text_of own_files p) (hash (text_of own_files p))) <$> nativePaths) [].
Definition home : Disk := mkDisk {[[] := EDir 0 493; ["home"] := EDir 0 493; ["home"; "u"] := EDir 1000 448]} (λ _, false).
Definition all_made (_ : string) : bool := true.
(** The third file is cut short. *)
Definition cut_short (p : string) : NewFile := if p =s "qwen/settings.json" then Partial 4 else Created.
Definition configured (w : string → NewFile) := ConfigureBundle hash home 1000 exported (["home"; "u"] ++ ["bundle"]) all_made w.
Definition machine (key : option string) : Machine := mkMachine 1000 "linux" (λ k, if k =s api_key_variable then key else if k =s "HOME" then Some "/home/u" else None)
  (λ name, Some ("/usr/bin/" +:+ name)).
Lemma home_tree : tree_disk home.
Proof.
  intros l x e Hl. assert (l = [] ∨ l = ["home"]) as [->| ->]; [unfold home in Hl; cbn [dk_entries] in Hl|by eexists _, _..].
  repeat (apply lookup_insert_Some in Hl as [[Hl _]|[_ Hl]]; [by destruct l as [|? [|? []]]; cbn in Hl; simplify_eq; auto|]).
  apply lookup_singleton_Some in Hl as [Hl _]. by destruct l as [|? [|? []]]; cbn in Hl; simplify_eq; auto.
Qed.
End LaunchFixture.
Import LaunchFixture.

(** A configuration that fails at its third file cannot be read as a bundle; a complete one
    can, and is the bundle's. *)
Lemma ConfigureBundle_complete_witness :
  (configured cut_short).2 ≠ Ok tt ∧ (∀ p, p ∈ nativePaths → written 1000 ["home"; "u"; "bundle"] own_files (configured (λ _, Created)).1 p).
Proof.
  split; [by vm_compute|].
  destruct (ConfigureBundle_complete hash home 1000 exported ["home"; "u"] "bundle" all_made (λ _, Created) _ _
    home_tree ltac:(by repeat constructor) ltac:(by eexists _, _) (surjective_pairing _)) as (_ & K & _).
  destruct K as (files & Hf & Hw); [by vm_compute|]. replace own_files with files; [exact Hw|].
  assert (VerifyBundle hash exported = Ok own_files) as Ho by (vm_compute; reflexivity). congruence.
Defined.
(** With a key the client of the complete bundle runs; what it runs is the installed command. *)
Lemma PrepareLaunch_pinned_witness : ∃ sp,
  PrepareLaunch hash (machine (Some "key")) (configured (λ _, Created)).1 "/home/u/bundle" "" "cli" = Ok sp ∧
  ∃ p, cp_Harness p ∈ harness_names ∧ mc_look (machine (Some "key")) (cp_Harness p) = Some (ln_Executable sp).
Proof.
  destruct (PrepareLaunch hash (machine (Some "key")) (configured (λ _, Created)).1 "/home/u/bundle" "" "cli") as [sp|e] eqn:Hl; [|exfalso; revert Hl; by vm_compute].
  exists sp. split; [reflexivity|]. destruct (PrepareLaunch_pinned hash _ _ _ _ _ _ Hl) as (_ & (p & files & _ & _ & _ & _ & Hin & _ & Hx & _) & _).
  exists p. split; [exact Hin|exact Hx].
Defined.
