(* ===== verification/Adapters.v ===== *)
(** The rest of the adapters ([internal/adapters/adapter.go], [memory.go], [performance.go]):
    inventory, the validation of a draft and its preview, the client bundle, and the
    demonstration adapter.  [Live] holds the execution and inspection of the live adapter.

    What the live adapter reads is a record of answers; the sections of the demonstration
    adapter under its lock are functions of its state and of the outcome of their write. *)
From S2P Require Import Prelude Interact Json Types Catalog Config Wire Evidence Domain Source Engine Worker HostPolicy HostExec Client Live Api Provenance Harness.
#[local] Open Scope Z_scope.

(** ** The catalogue as inventory *)

Section Catalogue.
Context (modelData : list CatalogModel).

Definition model_file (f : CatalogFile) : ModelFile :=
  if cf_Algorithm f =s "sha256" then mkModelFile (cf_Path f) (cf_Digest f) "" (cf_Size f) "" else mkModelFile (cf_Path f) "" (cf_Digest f) (cf_Size f) "".
(** [models]; [stager] is the status a stager reports for a model. *)
Definition model_entry (stager : option (CatalogModel → string)) (m : CatalogModel) : Model :=
  mkModel (cm_ID m) (cm_Repository m) (cm_Revision m) (cm_Quantization m) (cm_License m) (cm_Size m)
    (match stager with Some status => status m | None => cm_Status m end) "target-qualification-required" (cm_GPUs m) (model_file <$> cm_Files m).
Definition models (stager : option (CatalogModel → string)) : list Model := model_entry stager <$> Selected modelData.
End Catalogue.
Definition harnesses : list Harness := [
  mkHarness "qwen" (pin "QWEN_CODE_VERSION") ["cli"; "acp"] ["existing system policy requires reviewed merge"; "local tools require user approval"];
  mkHarness "dsh" (pin "DSH_COMMIT") ["acp"] ["no interactive CLI profile in pinned revision"];
  mkHarness "hermes" (pin "HERMES_AGENT_COMMIT") ["cli"; "acp"] ["output token cap is provider-owned and cannot be enforced by this client"]].

(** ** The client bundle *)

Section BundleExport.
Context `{Sha256} `{NetParse} `{JSONIndent} (Sum : string → string).

Definition export_profile (harness endpoint : string) (c : Configuration) : ClientProfile :=
  mkClientProfile harness endpoint (sv_Model (cf_Serving c)) (sv_Context (cf_Serving c)) (Z.min 4096 (Z.quot (sv_Context (cf_Serving c)) 2)).
Definition bundle_file (files : gmap string string) (name : string) : BundleFile :=
  mkBundleFile name (text_of files name) (Sum (text_of files name)).
Definition exportBundle (harness endpoint : string) (c : Configuration) : result Bundle :=
  files ← NativeBundle Sum (export_profile harness endpoint c);
  Ok (mkBundle harness (sha256_hex (JMap JString HarnessPins))
        (bundle_file files <$> sort_strings (map_to_list files).*1)
        ["configured-not-qualified; client launch is explicit and local"; "no automatic fallback, management credentials or RAG inheritance"; "Hermes output token cap is provider-owned"]).
End BundleExport.

(** ** Previews *)

Section Preview.
Context `{Sha256}.

(** Go compares the structs field by field, floats with [==]. *)
Definition same_serving (a b : Serving) : bool :=
  (sv_Model a =s sv_Model b) && (sv_Context a =? sv_Context b) && (sv_Concurrency a =? sv_Concurrency b)
  && SpecFloat.SFeqb (sv_MemoryFraction a) (sv_MemoryFraction b) && (sv_CPUOffloadGiB a =? sv_CPUOffloadGiB b)
  && (sv_MaxRequestTokens a =? sv_MaxRequestTokens b) && (sv_MaxOutputTokens a =? sv_MaxOutputTokens b).
Definition section_changes (c n : Configuration) : list Change :=
  change same_serving Serving_json "serving" (cf_Serving c) (cf_Serving n)
  ++ change (λ a b, bool_decide (a = b)) Resources_json "resources" (cf_Resources c) (cf_Resources n)
  ++ change (λ a b, bool_decide (a = b)) CacheBudgets_json "caches" (cf_Caches c) (cf_Caches n).
Definition consequences (action : string) : list string :=
  if str_in action ["profile.switch"; "profile.restore"] then
    ["all conflicting AI workloads are unloaded before GPU handover; incoming requests fail during transition"; "build inhibition prevents new managed compilations only; it does not suspend existing builds"]
  else if str_in action ["serving.configure"; "resources.configure"; "serving.restart"] then
    ["persist managed source separately, gracefully stop serving, wait for pods and DRM holders, then apply and verify readiness"]
  else if action =s "model.stage" then
    ["download the complete pinned snapshot into managed persistent storage; retained partial files consume budget; staging does not qualify a model"]
  else if action =s "build.start" then ["execute reviewed source as an isolated unprivileged worker; output remains an unqualified candidate"]
  else if action =s "cpu-policy.export" then ["export a host maintenance plan; CPU Manager state and host policy are unchanged"] else [].
Definition preview (d : Draft) (c : Configuration) (revision : string) : Preview :=
  mkPreview (section_changes c (Desired c d)) (consequences (d_Action d)) [] (Some {["reference_revision" := revision]}).
(** Preconditions, a consequence and warnings added to a preview. *)
Definition with_evidence (s : gmap string string) (consequence : string) (warnings : list string) (p : Preview) : Preview :=
  mkPreview (pv_Changes p) (pv_Consequences p ++ [consequence]) (pv_Warnings p ++ warnings) (Some (s ∪ default ∅ (pv_Preconditions p))).
Definition defaultConfig : Configuration :=
  let c := mkConfiguration "" (mkServing "Qwen3.5-9B" 4096 2 f0_8 0 0 0) (mkResources 20 32768 16384 1 "") (mkCacheBudgets 100 100 20 8 32768 50) in
  set_cf_Revision (ContentRevision c) c.
End Preview.

(** ** The live adapter *)

Record LiveOptions := mkLiveOptions {
  lo_StateDir : string;
  lo_Target : string;
  lo_Environment : string;
  lo_ReferenceRoot : string;
  lo_ModelRoot : string;
  lo_HardwarePath : string;
  lo_SourcePath : string;
  lo_HostSocket : string;
  lo_WorkerSocket : string;
  lo_ClientBaseURL : string;
  lo_CompilerCacheRoot : string;
  lo_ShaderCacheRoot : string;
  lo_ModelBudgetBytes : Z }.
(** What the adapter is answered: the reference, the stager's status of a model (without a
    stager, nothing), the worker, the helper, the source file and the use of a cache root. *)
Record LiveAnswers := mkLiveAnswers {
  la_Import : result CatalogInventory;
  la_Stager : option (CatalogModel → string);
  la_Recipes : result (list Recipe);
  la_WorkerValidate : Worker.Request → option error;
  la_Snapshot : result Inventory;
  la_MemoryPreview : Draft → Configuration → result MemorySummary;
  la_PerformancePreview : Draft → Configuration → result PerformanceSummary;
  la_Config : result Configuration;
  la_CacheUsage : string → string → Z → Cache }.

Section LiveAdapter.
Context `{Sha256} `{NetParse} `{JSONIndent} (Sum : string → string) (modelData : list CatalogModel) (o : LiveOptions) (an : LiveAnswers).

(** [NewLive] up to the construction of its parts. *)
Definition NewLive (directory_made : bool) : result unit :=
  reject negb (str_in (lo_Environment o) ["dev"; "tst"; "int"]) with Plain "live target requires explicit dev, tst or int classification" ;;
  reject (lo_Target o =s "") || (lo_ReferenceRoot o =s "") || (lo_StateDir o =s "") || (lo_SourcePath o =s "")
    with Plain "explicit live adapter paths and target are required" ;;
  _ ← la_Import an;
  reject negb directory_made with Plain "mkdir" ;; Ok tt.

Definition stager_absent : string := "unavailable — managed model storage requires owner setup".
Definition set_md_Status (v : string) (m : Model) : Model :=
  mkModel (md_ID m) (md_Repository m) (md_Revision m) (md_Quantization m) (md_License m) (md_Size m) v (md_Qualification m) (md_GPUCount m) (md_Files m).
Definition live_models : list Model :=
  let l := models modelData (la_Stager an) in if is_some (la_Stager an) then l else set_md_Status stager_absent <$> l.
Definition live_recipes : list Recipe :=
  if lo_WorkerSocket o =s "" then Recipes false else match la_Recipes an with Ok recipes => recipes | Err _ => Recipes false end.
Definition live_caches : list Cache :=
  match la_Config an with
  | Ok c => [la_CacheUsage an "models" (lo_ModelRoot o) (shl64 (cb_ModelsGiB (cf_Caches c)) 30);
             la_CacheUsage an "compiler" (lo_CompilerCacheRoot o) (shl64 (cb_CompilerGiB (cf_Caches c)) 30);
             la_CacheUsage an "shader" (lo_ShaderCacheRoot o) (shl64 (cb_ShaderGiB (cf_Caches c)) 30)]
  | Err _ => []
  end.
Definition unknown_hardware : Hardware := mkHardware "unknown" zeroTime "" "" 0 0 "unknown" "unknown" 0 0 false "" false 0 0 0 0 0 0 [] [].
Definition live_inventory (revision : string) (available : bool) (message profile : string) (hw : Hardware) (serving : ServingStatus) : Inventory :=
  mkInventory "live" (lo_Target o) (lo_Environment o) revision available message profile serving hw live_models live_recipes live_caches harnesses.
Definition unknown_serving : ServingStatus := mkServingStatus "unknown" None "unknown" "Host executor unavailable; no fixture fallback." zeroTime "".
Definition live_Snapshot : result Inventory :=
  ref ← la_Import an;
  let unknown message := live_inventory (ci_SourceRevision ref) false message "unknown" unknown_hardware unknown_serving in
  Ok (if lo_HostSocket o =s "" then unknown "host executor inventory probe required" else
      match la_Snapshot an with
      | Ok h => live_inventory (ci_SourceRevision ref) (in_ClusterAvailable h) (in_ClusterMessage h) (in_Profile h) (in_Hardware h) (in_ServingStatus h)
      | Err _ => unknown "host executor or scoped cluster inventory unavailable"
      end).

Definition cluster_actions : list string :=
  ["profile.switch"; "profile.restore"; "serving.start"; "serving.stop"; "serving.restart"; "serving.configure"; "resources.configure"].
Definition validate_build (d : Draft) (c : Configuration) : option error :=
  let next := Desired c d in
  la_WorkerValidate an (Worker.mkRequest "validate-build" "validated-plan" (d_Recipe d) "" (cf_Caches next) (cf_Revision next)).
Definition live_Validate (clk : clock) (d : Draft) (c : Configuration) : result Preview :=
  let target := set_in_Target (lo_Target o) Inventory0 in
  if PerformanceAction (d_Action d) then
    _ ← ValidateDraft clk d c target;
    s ← la_PerformancePreview an d c;
    Ok (with_evidence (ps_Preconditions s) "Generate owner-private analysis/selection artifacts only. No source update, rollout, warmup, code execution, cache deletion or qualification."
          (ps_Limitations s) (preview d c (cf_Revision c)))
  else if MemoryAction (d_Action d) then
    ref ← la_Import an;
    _ ← ValidateDraft clk d c target;
    s ← la_MemoryPreview an d c;
    Ok (with_evidence (ms_Preconditions s) "Export evidence/candidate/rollback only. No source update, Pod resize, restart or qualification."
          (ms_Limitations s) (preview d c (ci_SourceRevision ref)))
  else
    inv ← live_Snapshot;
    _ ← ValidateDraft clk d c inv;
    reject str_in (d_Action d) ["model.stage"; "model.verify"] && negb (is_some (la_Stager an))
      with Failure "unavailable" "managed model storage is unavailable; restore its reviewed persistent mount" ;;
    match (if d_Action d =s "build.start" then validate_build d c else None) with
    | Some e => Err (Failure "unavailable" (error_text e))
    | None =>
      reject str_in (d_Action d) cluster_actions && negb (in_ClusterAvailable inv) with Failure "unavailable" (in_ClusterMessage inv) ;;
      let p := preview d c (in_SourceRevision inv) in
      Ok (mkPreview (pv_Changes p) (pv_Consequences p)
            (pv_Warnings p ++ ["hardware and exact workload qualification are independently enforced by root-owned executor policy"])
            (Some (<["hardware_boot_id" := hw_BootID (in_Hardware inv)]> (default ∅ (pv_Preconditions p)))))
    end.
Definition live_Export (harness : string) : result Bundle :=
  c ← la_Config an; exportBundle Sum harness (lo_ClientBaseURL o) c.
End LiveAdapter.
