(* ===== verification/Demo.v ===== *)
(** The demonstration adapter ([internal/adapters/adapter.go], [memory.go], [performance.go]):
    a recorded state with simulated effects, its restart, and an execution in sections under
    its lock. *)
From S2P Require Import Prelude Interact Json Types Catalog Config Wire MemoryBundle Evidence Domain Source Engine Worker HostMemory HostPerf HostPolicy HostExec Client Live Api Provenance Harness Adapters.
#[local] Open Scope Z_scope.

Record demoState := mkDemoState {
  dm_Profile : string;
  dm_Previous : string;
  dm_Staged : gmap string bool;
  dm_Results : gmap string Result;
  dm_Configuration : Configuration }.
(** The adapter with the state in its file, which an absent file does not hold. *)
Record Demo := mkDemo { de_state : demoState; de_file : option demoState; de_Fault : string; de_Hardware : option Hardware }.
Definition set_dm_Profiles profile previous '(mkDemoState _ _ c d e) := mkDemoState profile previous c d e.
Definition set_dm_Staged (m : string) '(mkDemoState a b c d e) := mkDemoState a b (<[m := true]> c) d e.
Definition set_dm_Result (id : string) (r : Result) '(mkDemoState a b c d e) := mkDemoState a b c (<[id := r]> d) e.
Definition set_dm_Configuration x '(mkDemoState a b c d _) := mkDemoState a b c d x.
Definition set_de_state x '(mkDemo _ b c d) := mkDemo x b c d.
Definition set_de_Fault x '(mkDemo a b _ d) := mkDemo a b x d.

(** [saveJSON] of the state. *)
Definition save_state (w : write_outcome) (d : Demo) : Demo * option error :=
  match w with
  | Written => (mkDemo (de_state d) (Some (de_state d)) (de_Fault d) (de_Hardware d), None)
  | WriteFailed replaced => (mkDemo (de_state d) (if replaced then Some (de_state d) else de_file d) (de_Fault d) (de_Hardware d), Some (Plain "save"))
  end.

Section Demo.
Context `{Sha256} `{NetParse} `{JSONText} `{JSONIndent} `{JSONRender} `{TimeText} (Sum : string → string) (modelData : list CatalogModel).

(** ** Start *)

Definition fresh_state : demoState := mkDemoState "maintenance" "ai" ∅ ∅ defaultConfig.
Definition interrupted : Result := recovery "demo-restart" "DEMO: interrupted fixture effect requires explicit recovery".
Definition settle_interrupted (s : demoState) : demoState :=
  mkDemoState (dm_Profile s) (dm_Previous s) (dm_Staged s) ((λ r, if Terminal (re_State r) then r else interrupted) <$> dm_Results s) (dm_Configuration s).
(** [NewDemo]; the file is absent, unreadable or a state. *)
Definition NewDemo (file : option (result demoState)) (w : write_outcome) : result Demo :=
  s ← match file with
      | None => Ok fresh_state
      | Some (Err e) => Err e
      | Some (Ok s) => Ok (settle_interrupted s)
      end;
  let old := match file with Some (Ok s) => Some s | _ => None end in
  match save_state w (mkDemo s old "" None) with (d, None) => Ok d | (_, Some e) => Err e end.

(** ** Inventory and validation *)

Definition demoHardware (now : time) : Hardware :=
  mkHardware "DEMO fixture, not observed target hardware" now "demo-boot-1" "demo-boot-1" 65536 2 "unknown — expected DDR5-5600"
    "unknown — DIMM count is not bandwidth evidence" 48 2 true "static" true 12288 6144 0 6 0 0
    [mkGPU "0000:41:00.0" "expected Radeon AI PRO R9700 (fixture)" "/dev/dri/renderD129" 32768;
     mkGPU "0000:81:00.0" "expected Radeon AI PRO R9700 (fixture)" "/dev/dri/renderD128" 32768]
    ["DEMO: expected hardware represented by a generated fixture"; "two separate VRAM pools; no physical-device placement support"].
Definition demo_model (s : demoState) (m : Model) : Model :=
  mkModel (md_ID m) (md_Repository m) (md_Revision m) (md_Quantization m) (md_License m) (md_Size m)
    (if default false (dm_Staged s !! md_ID m) then "DEMO simulated staging; no model weights downloaded" else md_Status m)
    "DEMO simulated qualification only" (md_GPUCount m) (md_Files m).
Definition demo_cache (name : string) (gib : Z) : Cache := mkCache name 0 (shl64 gib 30) "DEMO fixture" [].
Definition demo_Snapshot (target : string) (now : time) (d : Demo) : Inventory :=
  let s := de_state d in let b := cf_Caches (dm_Configuration s) in
  mkInventory "demo" target "dev" "demo-reference-v1" true "DEMO fixture: no real cluster contacted" (dm_Profile s) ServingStatus0
    (default (demoHardware now) (de_Hardware d)) (demo_model s <$> models modelData None) (Recipes true)
    [demo_cache "models" (cb_ModelsGiB b); demo_cache "compiler" (cb_CompilerGiB b); demo_cache "shader" (cb_ShaderGiB b)] harnesses.

Definition demo_MemoryPreview (d : Draft) (c : Configuration) : result MemorySummary :=
  _ ← ValidateMemoryRequest d;
  match d_Memory d with
  | None => Err (Plain "memory request")
  | Some m =>
    let mib := rs_MemoryMiB (cf_Resources c) in
    let summary status reason candidate cold warm :=
      mkMemorySummary (mr_EvidenceID m) (mr_EvidenceSHA256 m) status reason mib mib candidate candidate (rs_SharedMemoryMiB (cf_Resources c)) (mr_OtherMiB m)
        "" 0 ∅ 0 0 0 0 0 cold warm [] (list_to_map [("memory_manifest", mr_EvidenceSHA256 m); ("memory_source", cf_Revision c)])
        ["DEMO: no host observation, cloud call, planner execution, RAM saving or qualification."] [] in
    let export := d_Action d =s "memory.plan.export" in
    reject (mr_EvidenceID m =s "demo-incomplete") && export with Failure "invalid" "DEMO: missing cold/warm observations and final telemetry" ;;
    reject (mr_EvidenceID m =s "demo-refused") && export with Failure "invalid" "DEMO: memory PSI/OOM event; reduction is not justified" ;;
    Ok (if export then summary "plan-only-unqualified" "DEMO_synthetic_candidate" (sub64 mib 256) 2 2
        else if mr_EvidenceID m =s "demo-incomplete" then summary "incomplete" "missing_cold_warm_final_samples" 0 0 0
        else summary "demo-only" "synthetic_memory_fixture_not_hardware" 0 0 0)
  end.
Definition demo_PerformancePreview (d : Draft) (c : Configuration) : result PerformanceSummary :=
  _ ← ValidatePerformanceRequest d;
  match d_Performance d with
  | None => Err (Plain "performance request")
  | Some p =>
    reject pr_EvidenceID p =s "demo-refused" with Failure "invalid" "DEMO: incompatible model/workload identity or undeclared experiment difference" ;;
    let '(status, reason) :=
      if pr_Kind p =s "profile-selection" then ("selected-unqualified", "DEMO_owner_selected_configuration_only_not_deployed")
      else if pr_EvidenceID p =s "demo-incomplete" then ("incomplete", "missing_required_observations")
      else ("demo-only-unqualified", "synthetic_evidence_not_hardware") in
    Ok (mkPerformanceSummary 1 (pr_EvidenceID p) (pr_EvidenceSHA256 p) (pr_Kind p) status reason zeroTime
          [mkPerformanceField "throughput" "unknown" "tokens/s" "not-measured"]
          ["DEMO: fixture only; no measured gain, code execution, inference, workload change, cache deletion or qualification."]
          (list_to_map [("performance_manifest", pr_EvidenceSHA256 p); ("performance_source", cf_Revision c)]) [])
  end.
Definition demo_Validate (clk : clock) (target : string) (now : time) (d : Draft) (c : Configuration) (demo : Demo) : result Preview :=
  let inv := demo_Snapshot target now demo in
  _ ← ValidateDraft clk d c inv;
  let p := preview d c (in_SourceRevision inv) in
  p ← (if PerformanceAction (d_Action d) then
         s ← demo_PerformancePreview d c;
         Ok (with_evidence (ps_Preconditions s) "Analysis/selection export only. No deployment, source defaults, cache deletion or code execution." (ps_Limitations s) p)
       else Ok p);
  p ← (if MemoryAction (d_Action d) then
         s ← demo_MemoryPreview d c;
         Ok (with_evidence (ms_Preconditions s) "DEMO evidence export only; no resource change or qualification." [] p)
       else Ok p);
  Ok (set_pv_Warnings (pv_Warnings p ++ ["DEMO: effects are simulated and do not qualify hardware"]) p).

(** ** Execution *)

Definition record_result (id : string) (r : Result) (w : write_outcome) (d : Demo) : Demo * option error :=
  save_state w (set_de_state (set_dm_Result id r (de_state d)) d).
(** The section that starts an execution: the recorded result, the failure of its write, or
    the fault it is to simulate. *)
Inductive DemoBegun := Recorded (r : Result) | Unsaved (r : Result) (e : error) | Begun (fault : string).
Definition demo_begin (x : Execution) (w : write_outcome) (d : Demo) : Demo * DemoBegun :=
  match dm_Results (de_state d) !! ex_ID x with
  | Some r => (d, Recorded r)
  | None =>
    let r := mkResult "running" "preflight" "DEMO fixture preflight" false [] in
    match record_result (ex_ID x) r w d with
    | (d, Some e) => (d, Unsaved r e)
    | (d, None) => (set_de_Fault "" d, Begun (de_Fault d))
    end
  end.
(** The simulated effect of an action. *)
Definition demo_effect (a : Draft) (s : demoState) : demoState :=
  let action := d_Action a in
  if action =s "profile.switch" then
    if dm_Profile s <>s d_Profile a then set_dm_Profiles (d_Profile a) (dm_Profile s) s else s
  else if action =s "profile.restore" then set_dm_Profiles (dm_Previous s) (dm_Profile s) s
  else if action =s "model.stage" then set_dm_Staged (d_Model a) s
  else if str_in action ["serving.start"; "serving.restart"] then set_dm_Profiles "ai" (dm_Previous s) s
  else if action =s "serving.stop" then set_dm_Profiles "maintenance" (dm_Previous s) s else s.
Definition demo_artifacts (a : Draft) : list Artifact :=
  if d_Action a =s "build.start" then [mkArtifact "demo-build-result" (sha256_hex (JString (d_Recipe a))) 0 SourceCommit "DEMO-only-not-compiled" ""] else [].
(** The section that finishes it. *)
Definition demo_finish (x : Execution) (w : write_outcome) (d : Demo) : Demo * (Result * option error) :=
  let a := pl_Draft (ex_Plan x) in
  let missing := (d_Action a =s "model.verify") && negb (default false (dm_Staged (de_state d) !! d_Model a)) in
  let r := if missing then mkResult "failed" "verify" "DEMO: stage model fixture before verification" false []
           else mkResult "succeeded" "completed" "DEMO fixture operation completed; no real external effect" false (demo_artifacts a) in
  let s := if missing then de_state d else set_dm_Configuration (pl_Desired (ex_Plan x)) (demo_effect a (de_state d)) in
  let '(d, e) := record_result (ex_ID x) r w (set_de_state s d) in
  (d, (r, e)).

(** An execution: the sections, the progress reports and the waits between its phases. *)
Inductive DemoAct :=
| DBegin (x : Execution)
| DProgress (p : Progress)
| DWait
| DRecord (id : string) (r : Result)
| DFinish (x : Execution).
Definition demo_answer (a : DemoAct) : Type :=
  match a with
  | DBegin _ => DemoBegun
  | DProgress _ => option error
  | DWait => bool
  | DRecord _ _ => option error
  | DFinish _ => (Result * option error)
  end.
#[local] Abbreviation DemoRun := (Interact.Run demo_answer).
Definition demo_phases : list string := ["preflight"; "source-observed"; "external-effect"; "readiness"].
(** The phases; [Some] ends the execution. *)
Fixpoint demo_walk (wanted : bool) (fault : string) (x : Execution) (phases : list string) : DemoRun (option (Result * option error)) :=
  match phases with
  | [] => mret None
  | phase :: phases =>
    pe ← (if wanted then act (DProgress (mkProgress phase ("DEMO: " +:+ phase) 0)) else mret None : DemoRun (option error));
    match pe with
    | Some e => mret (Some (Result0, Some e))
    | None =>
      if str_in fault [phase; "occupied-gpu"; "incomplete-proc"] then
        let r := recovery phase ("DEMO fault: " +:+ fault +:+ "; previous snapshot retained, AI restart refused") in
        e ← act (DRecord (ex_ID x) r); mret (Some (r, e))
      else
        cancelled ← act DWait;
        if (cancelled : bool) then
          let r := mkResult "cancelled" phase "DEMO fixture cancellation observed" false [] in
          e ← act (DRecord (ex_ID x) r); mret (Some (r, e))
        else demo_walk wanted fault x phases
    end
  end.
Definition demo_effects (wanted : bool) (x : Execution) : DemoRun (Result * option error) :=
  begun ← act (DBegin x);
  match begun with
  | Recorded r => mret (r, None)
  | Unsaved r e => mret (r, Some e)
  | Begun fault =>
    out ← demo_walk wanted fault x demo_phases;
    match out with Some out => mret out | None => act (DFinish x) end
  end.
(** The exports are one section. *)
Definition executeMemory (x : Execution) (w : write_outcome) (d : Demo) : Demo * (Result * option error) :=
  match demo_MemoryPreview (pl_Draft (ex_Plan x)) (pl_Desired (ex_Plan x)) with
  | Err e => (d, (mkResult "failed" "memory-refused" (error_text e) false [], Some e))
  | Ok s =>
    let s := if ex_Action x =s "memory.evidence.import" then set_ms_Identity (ex_ID x) (Evidence.ms_SHA256 s) s else s in
    let artifacts := match memoryArtifacts Sum (json_text (MemorySummary_json s)) (ex_Revision x) with Ok a => a | Err _ => [] end in
    let r := mkResult "succeeded" "demo-memory-export" "DEMO: unqualified fixture evidence only; no source or workload change" false artifacts in
    let '(d, e) := record_result (ex_ID x) r w d in (d, (r, e))
  end.
Definition executePerformance (x : Execution) (w : write_outcome) (d : Demo) : Demo * (Result * option error) :=
  match demo_PerformancePreview (pl_Draft (ex_Plan x)) (pl_Desired (ex_Plan x)) with
  | Err e => (d, (mkResult "failed" "performance-refused" (error_text e) false [], Some e))
  | Ok s =>
    match performanceArtifacts Sum (json_text (PerformanceSummary_json s)) (ex_Revision x) with
    | Err e => (d, (Result0, Some e))
    | Ok artifacts =>
      let r := mkResult "succeeded" "demo-performance-export" "DEMO evidence analysis only; no source, workload or cache mutation" false artifacts in
      let '(d, e) := record_result (ex_ID x) r w d in (d, (r, e))
    end
  end.

Definition demo_Inspect (id : string) (d : Demo) : result Result :=
  match dm_Results (de_state d) !! id with Some r => Ok r | None => Err (Plain "demo executor has no dispatch record") end.
Definition demo_PerformanceArtifact (id name : string) (d : Demo) : result Artifact :=
  let missing := Err (Failure "not_found" "demo artifact does not exist") in
  match dm_Results (de_state d) !! id with
  | Some r =>
    if (re_State r =s "succeeded") && (name =s "performance-summary.json")
    then match List.find (λ a, ar_Name a =s name) (re_Artifacts r) with Some a => Ok a | None => missing end else missing
  | None => missing
  end.
Definition demo_MemoryArtifact (id name : string) : result Artifact :=
  Err (Failure "unavailable" "demo does not export executable Pod patches; use the source contract fixtures").
Definition demo_Export (harness : string) (d : Demo) : result Bundle :=
  exportBundle Sum harness "http://127.0.0.1:18000/v1" (dm_Configuration (de_state d)).
End Demo.
