(* ===== verification/Planning.v ===== *)
(** Planning and client bundles through the live adapter, and the demonstration adapter
    ([Adapters], [Demo]): what a preview has checked, that an exported bundle is one the
    client machine accepts, and that a demonstration runs an execution once. *)
From S2P Require Import Prelude Interact Json Types Catalog Config Wire Evidence Domain Source Engine Worker HostPolicy HostExec Client Live Api Provenance Harness Launch Adapters Demo.
From stdpp Require Import sorting.
#[local] Open Scope Z_scope.

(** ** Maps and lists survive their encoding *)

Lemma dec_entries_map {A} (zero : A) (d : decoder A) (json : A → JSON) l : ∀ m, NoDup l.*1 → (∀ k, k ∈ l.*1 → m !! k = None) →
  (∀ k x, (k, x) ∈ l → d (json x) zero = Some x) → dec_entries zero d (prod_map id json <$> l) m = Some (list_to_map l ∪ m).
Proof.
  induction l as [|[k x] l IH]; intros m Hn Hm Hd; [cbn; by rewrite (left_id_L ∅ (∪))|]. apply NoDup_cons in Hn as [Hk Hn]. cbn [fmap list_fmap prod_map dec_entries id fst snd].
  rewrite (Hd k x) by apply list_elem_of_here. cbn. rewrite IH; [|done| |intros ? ? ?; eapply Hd; by apply list_elem_of_further].
  - f_equal. cbn. rewrite <- insert_union_r by (by apply not_elem_of_list_to_map_1). by rewrite insert_union_l.
  - intros k' Hk'. rewrite lookup_insert_ne by (intros ->; done). apply Hm. by apply list_elem_of_further.
Qed.
Lemma dec_map_JMap {A} (zero : A) (d : decoder A) (json : A → JSON) m : (∀ k x, m !! k = Some x → d (json x) zero = Some x) →
  dec_map zero d (JMap json m) ∅ = Some m.
Proof.
  intros Hd. unfold dec_map, JMap. rewrite dec_entries_map.
  - by rewrite (right_id_L ∅ (∪)), list_to_map_to_list.
  - apply NoDup_fst_map_to_list.
  - intros k _. apply lookup_empty.
  - intros k x Hi. eapply Hd. by apply elem_of_map_to_list.
Qed.
Lemma dec_strings l : dec_list "" dec_string (JArray (JString <$> l)) [] = Some l.
Proof. cbn [dec_list]. induction l as [|s l IH]; [done|]. cbn [fmap list_fmap dec_elements]. cbn. by rewrite IH. Qed.
Lemma dec_string_map m : dec_map "" dec_string (JMap JString m) ∅ = Some m.
Proof. by apply dec_map_JMap. Qed.
Lemma BundleMetadata_decoded m : in_int64 (bm_Schema m) → in_int64 (bm_Context m) → in_int64 (bm_MaxOutput m) →
  dec_BundleMetadata (BundleMetadata_json m) BundleMetadata0 = Some m.
Proof.
  intros H1 H2 H3. unfold dec_BundleMetadata, BundleMetadata_json, dec_lenient.
  match goal with |- dec_members ?fs (List.filter ?p ?l) _ = _ => change (List.filter p l) with l end.
  unfold BundleMetadata0. destruct m. simpl in H1, H2, H3.
  repeat (erewrite dec_field; [|reflexivity|first [apply dec_int_ok; assumption|reflexivity|apply dec_strings|apply dec_string_map|apply dec_map_JMap; intros; apply dec_string_map]]).
  reflexivity.
Qed.

Lemma keys_lookup {A} (m : gmap string A) n : n ∈ (map_to_list m).*1 ↔ is_Some (m !! n).
Proof.
  rewrite list_elem_of_fmap. split.
  - intros ([k x] & -> & Hi). exists x. by apply elem_of_map_to_list.
  - intros [x Hx]. exists (n, x). split; [done|]. by apply elem_of_map_to_list.
Qed.

(** ** An exported bundle is accepted *)

Section Bundle.
Context `{Sha256} `{NetParse} `{JSONText} `{JSONRender} `{JSONIndent} `{AnyValue} (Sum : string → string).
(** Rendered metadata reads back as it was, and a rendered configuration is a document. *)
Definition for_harness (p : ClientProfile) (h : string) : ClientProfile := mkClientProfile h (cp_BaseURL p) (cp_Model p) (cp_Context p) (cp_MaxOutput p).
Definition reads_back (p : ClientProfile) : Prop :=
  (∀ h, h ∈ harness_names → let v := BundleMetadata_json (native_metadata Sum (for_harness p h)) in unmarshal (put_text v) = Some v) ∧
  ∀ h path cfg, (h, (path, cfg)) ∈ native_configs p → is_Some (any_value (put_text cfg)).

Lemma NativeBundle_files p files : NativeBundle Sum p = Ok files →
  ValidateClient p = Ok tt ∧ text_of files "bundle.json" = put_text (BundleMetadata_json (native_metadata Sum p)) ∧
  (∀ h path cfg, (h, (path, cfg)) ∈ native_configs p → text_of files path = put_text cfg) ∧ dom files = list_to_set nativePaths.
Proof.
  unfold NativeBundle. intros ([] & Hv & Hf)%bind_ok. match type of Hf with Ok ?m = _ => assert (files = m) as -> by congruence end. split; [done|]. split; [done|]. split.
  - intros h path cfg Hi. unfold native_configs in Hi. repeat (apply elem_of_cons in Hi as [[= -> -> ->]|Hi]; [reflexivity|]). by apply elem_of_nil in Hi.
  - rewrite dom_list_to_map_L. done.
Qed.
Lemma profile_ranged p : ValidateClient p = Ok tt → in_int64 (cp_Context p) ∧ in_int64 (cp_MaxOutput p) ∧ cp_Harness p ∈ harness_names.
Proof.
  intros Hv. split_and!; [| |by apply ValidateClient_endpoint]; unfold ValidateClient in Hv; destruct (negb (str_in _ _)); try done; destruct (url_Parse _); try done;
    do 5 (match type of Hv with (if ?c then _ else _) = _ => destruct c; [discriminate Hv|] end);
    match type of Hv with (if ?c then _ else _) = _ => destruct c eqn:Hb; [discriminate Hv|] end; bool_hyps; unfold in_int64; [lia|].
  assert (cp_Context p ÷ 2 ≤ cp_Context p) by (apply Z.quot_le_upper_bound; lia). lia.
Qed.
Lemma harness_profile p h : h ∈ harness_names → ValidateClient p = Ok tt → ValidateClient (for_harness p h) = Ok tt.
Proof. intros Hh%str_in_spec Hv. unfold ValidateClient, for_harness in *. cbn [cp_Harness cp_BaseURL cp_Model cp_Context cp_MaxOutput]. rewrite Hh. cbn [negb]. destruct (negb _); [done|exact Hv]. Qed.
Lemma VerifyNative_own p files h mode : reads_back p → NativeBundle Sum p = Ok files → h ∈ harness_names → mode ∈ ["cli"; "acp"] → (h = "dsh" → mode = "acp") →
  ∃ q, VerifyNative Sum files h mode = Ok q.
Proof.
  intros [metadata_text rendered_value] (Hv & Hmeta & Hcfg & _)%NativeBundle_files Hh Hm Hd. destruct (profile_ranged p Hv) as (Hc & Ho & Hown).
  assert (for_harness p (cp_Harness p) = p) as Hself by (by destruct p).
  assert (read_metadata (text_of files "bundle.json") = Some (native_metadata Sum p)) as Hread.
  { unfold read_metadata. pose proof (metadata_text _ Hown) as Hm1. rewrite Hself in Hm1. cbv zeta in Hm1. rewrite Hmeta, Hm1. cbn [mbind option_bind]. by apply BundleMetadata_decoded. }
  unfold VerifyNative. rewrite Hread. cbv zeta.
  assert ((if h =s "" then bm_DefaultHarness (native_metadata Sum p) else h) = h) as -> by (unfold harness_names in Hh; repeat (apply elem_of_cons in Hh as [->|Hh]; [done|]); by apply elem_of_nil in Hh).
  change (mkClientProfile h (bm_BaseURL (native_metadata Sum p)) (bm_Model (native_metadata Sum p)) (bm_Context (native_metadata Sum p)) (bm_MaxOutput (native_metadata Sum p))) with (for_harness p h).
  set (q := for_harness p h).
  assert (ValidateClient q = Ok tt) as Hq by (by apply (harness_profile p)).
  destruct (negb (bm_Schema _ =? 1) || _ || _) eqn:E1; [done|]. clear E1.
  assert ((mode <>s "cli") && (mode <>s "acp") = false) as -> by (repeat (apply elem_of_cons in Hm as [->|Hm]; [done|]); by apply elem_of_nil in Hm).
  assert ((h =s "dsh") && (mode <>s "acp") = false) as -> by (destruct (String.eqb_spec h "dsh") as [Heq|]; [by rewrite (Hd Heq)|done]).
  destruct (NativeBundle Sum q) as [expected|e] eqn:Hn; [|unfold NativeBundle in Hn; rewrite Hq in Hn; discriminate Hn].
  apply NativeBundle_files in Hn as (_ & Hmeta' & Hcfg' & _). cbn [mbind result_bind].
  assert (read_metadata (text_of expected "bundle.json") = Some (native_metadata Sum q)) as ->.
  { unfold read_metadata. pose proof (metadata_text h Hh) as Hm1. cbv zeta in Hm1. fold q in Hm1. rewrite Hmeta', Hm1. cbn [mbind option_bind]. by apply BundleMetadata_decoded. }
  rewrite !bool_decide_eq_true_2 by done. cbn [negb orb]. replace (bm_Status (native_metadata Sum p) =s bm_Status (native_metadata Sum q)) with true by done. cbn [negb orb].
  assert (∃ cfg, (h, (native_path h, cfg)) ∈ native_configs p ∧ (h, (native_path h, cfg)) ∈ native_configs q) as (cfg & Hi & Hi').
  { unfold harness_names in Hh. repeat (apply elem_of_cons in Hh as [->|Hh]); [| | |by apply elem_of_nil in Hh].
    - exists (qwen_settings p). split; apply list_elem_of_here.
    - exists (dsh_settings p). split; apply list_elem_of_further, list_elem_of_here.
    - exists (hermes_config p). split; apply list_elem_of_further, list_elem_of_further, list_elem_of_here. }
  rewrite (Hcfg _ _ _ Hi), (Hcfg' _ _ _ Hi').
  assert (bm_ConfigSHA256 (native_metadata Sum p) !! h = Some (Sum (put_text cfg))) as ->.
  { cbn [bm_ConfigSHA256 native_metadata]. apply elem_of_list_to_map_1'.
    - intros y Hy. apply list_elem_of_fmap in Hy as ([h' [path' cfg']] & [= -> ->] & Hy). cbn.
      assert (native_path h' = path') as <- by (unfold native_configs in Hy; repeat (apply elem_of_cons in Hy as [[= -> -> ->]|Hy]; [done|]); by apply elem_of_nil in Hy).
      by rewrite <- (Hcfg _ _ _ Hi), <- (Hcfg _ _ _ Hy).
    - apply list_elem_of_fmap. by exists (h, (native_path h, cfg)). }
  cbn [default]. rewrite String.eqb_refl. cbn [negb]. destruct (rendered_value _ _ _ Hi) as [v ->]. rewrite String.eqb_refl. by eexists.
Qed.

(** The files of a bundle, read in their order, are those it was made of. *)
Lemma read_bundle_ok files names : ∀ acc, NoDup names → (∀ n, n ∈ names → n ∈ nativePaths ∧ str_len (text_of files n) ≤ 2^20 ∧ acc !! n = None) →
  read_bundle_files Sum (bundle_file Sum files <$> names) acc = Ok (list_to_map ((λ n, (n, text_of files n)) <$> names) ∪ acc).
Proof.
  induction names as [|n names IH]; intros acc Hn Hall; [cbn; by rewrite (left_id_L ∅ (∪))|]. apply NoDup_cons in Hn as [Hnew Hn].
  destruct (Hall n (list_elem_of_here _ _)) as (Hin & Hlen & Hacc). cbn [fmap list_fmap read_bundle_files bundle_file bf_Path bf_Content bf_SHA256].
  apply str_in_spec in Hin. rewrite Hin. destruct (Z.gtb_spec (str_len (text_of files n)) (2^20)); [lia|]. cbn [negb orb]. rewrite Hacc, String.eqb_refl. cbn [is_some negb].
  assert (n ∉ ((λ n, (n, text_of files n)) <$> names).*1) as Hout by (rewrite <- list_fmap_compose; intros (x & -> & Hx)%list_elem_of_fmap; done).
  change (read_bundle_files Sum (bundle_file Sum files <$> names) (<[n:=text_of files n]> acc) = Ok (<[n := text_of files n]> (list_to_map ((λ n, (n, text_of files n)) <$> names)) ∪ acc)).
  rewrite IH; [|done|].
  - f_equal. rewrite <- insert_union_r by (by apply not_elem_of_list_to_map_1). by rewrite insert_union_l.
  - intros x Hx. destruct (Hall x (list_elem_of_further _ _ _ Hx)) as (K1 & K2 & K3). split_and!; [done..|]. rewrite lookup_insert_ne; [done|]. intros ->. done.
Qed.
Lemma verify_each_ok files names : (∀ h, h ∈ names → ∃ q, VerifyNative Sum files h (if h =s "dsh" then "acp" else "cli") = Ok q) → verify_each Sum files names = Ok tt.
Proof.
  induction names as [|h names IH]; intros Hall; [done|]. cbn [verify_each]. destruct (Hall h (list_elem_of_here _ _)) as [q ->]. cbn [mbind result_bind].
  apply IH. intros x Hx. by apply Hall, list_elem_of_further.
Qed.
(** C35: A client machine accepts what the workstation exports: every bundle that [exportBundle]
    makes, whose files are within the limit of one MiB, passes [VerifyBundle], which gives back
    exactly the files of the native bundle of the profile. *)
Theorem export_verifies harness endpoint c b : reads_back (export_profile harness endpoint c) →
  exportBundle Sum harness endpoint c = Ok b → (∀ f, f ∈ bn_Files b → str_len (bf_Content f) ≤ 2^20) →
  ∃ files, VerifyBundle Sum b = Ok files ∧ NativeBundle Sum (export_profile harness endpoint c) = Ok files.
Proof.
  intros Hback (files & Hn & Hb)%bind_ok Hlen. injection Hb as <-. cbn [bn_Files] in Hlen. exists files. split; [|done].
  pose proof (NativeBundle_files _ _ Hn) as (Hv & _ & _ & Hdom). set (names := sort_strings (map_to_list files).*1) in *.
  assert (names ≡ₚ (map_to_list files).*1) as Hperm by (unfold names, sort_strings; by rewrite merge_sort_Permutation).
  assert (∀ n, n ∈ names ↔ n ∈ nativePaths) as Hnames.
  { intros n. rewrite Hperm, <- (elem_of_list_to_set (C := gset string) n nativePaths), <- Hdom, elem_of_dom. apply keys_lookup. }
  assert (NoDup names) as Hnd by (rewrite Hperm; apply NoDup_fst_map_to_list).
  assert (length names = length nativePaths) as Hl.
  { apply Permutation_length, NoDup_Permutation; [done|apply native_distinct|done]. }
  unfold VerifyBundle. cbn [bn_Files bn_Harness]. rewrite length_fmap, Hl, Nat.eqb_refl. cbn [negb].
  rewrite read_bundle_ok; [|done|].
  2: { intros n Hi. split_and!; [by apply Hnames| |apply lookup_empty]. apply (Hlen (bundle_file Sum files n)). by apply list_elem_of_fmap_2. }
  rewrite (right_id_L ∅ (∪)). assert (list_to_map ((λ n, (n, text_of files n)) <$> names) = files) as ->.
  { apply map_eq. intros n. destruct (files !! n) as [t|] eqn:Hf.
    - apply elem_of_list_to_map_1'; [by intros y (x & [= -> ->] & _)%list_elem_of_fmap; unfold text_of; rewrite Hf|].
      apply list_elem_of_fmap. exists n. unfold text_of. rewrite Hf. split; [done|]. rewrite Hperm. apply list_elem_of_fmap. exists (n, t). split; [done|]. by apply elem_of_map_to_list.
    - apply not_elem_of_list_to_map_1. rewrite <- list_fmap_compose. intros (x & -> & Hx)%list_elem_of_fmap. cbn in Hf. rewrite Hperm in Hx.
      apply list_elem_of_fmap in Hx as ([y t] & -> & Hx). apply elem_of_map_to_list in Hx. cbn in Hf. congruence. }
  cbn [mbind result_bind]. rewrite verify_each_ok.
  - cbn [mbind result_bind]. pose proof (proj2 (ValidateClient_endpoint _ Hv)) as Hh. change (cp_Harness (export_profile harness endpoint c)) with harness in Hh.
    apply str_in_spec in Hh. by rewrite Hh.
  - intros h Hh. apply (VerifyNative_own (export_profile harness endpoint c)); [done..| |intros ->; done].
    destruct (h =s "dsh"); [apply list_elem_of_further, list_elem_of_here|apply list_elem_of_here].
Qed.
End Bundle.

(** ** What a preview has checked *)

Section Gate.
Context `{Sha256} `{NetParse} (modelData : list CatalogModel) (o : LiveOptions) (an : LiveAnswers).
(** The preconditions of an evidence summary are those of the preview. *)
Definition carries (s : gmap string string) (p : Preview) : Prop := ∃ conditions, pv_Preconditions p = Some conditions ∧ s ⊆ conditions.
Lemma with_evidence_carries s line warnings q p : Ok (with_evidence s line warnings q) = Ok p → pv_Changes p = pv_Changes q ∧ carries s p.
Proof. intros [= <-]. split; [done|]. eexists. split; [reflexivity|]. apply map_union_subseteq_l. Qed.
(** What the request needs of the machine, beyond a valid draft. *)
Definition machine_ready (d : Draft) (c : Configuration) : Prop :=
  (d_Action d ∈ ["model.stage"; "model.verify"] → is_Some (la_Stager an)) ∧
  (d_Action d = "build.start" → validate_build an d c = None) ∧
  (d_Action d ∈ cluster_actions → ∃ h, la_Snapshot an = Ok h ∧ in_ClusterAvailable h = true).
Lemma live_Snapshot_available inv : live_Snapshot modelData o an = Ok inv → in_Target inv = lo_Target o ∧
  (in_ClusterAvailable inv = true → ∃ h, la_Snapshot an = Ok h ∧ in_ClusterAvailable h = true).
Proof.
  unfold live_Snapshot. intros (ref & _ & Hi)%bind_ok. destruct (lo_HostSocket o =s ""); [injection Hi as <-; done|].
  destruct (la_Snapshot an) as [h|e]; injection Hi as <-; [|done]. split; [done|]. intros Hc. by exists h.
Qed.
Lemma performance_not_memory a : PerformanceAction a = true → MemoryAction a = false.
Proof. unfold PerformanceAction. destruct (String.eqb_spec a "performance.export") as [->|]; [done|]. by destruct (String.eqb_spec a "performance.profile.select") as [->|]. Qed.
(** Two serving sections differ when a field does, the memory fraction as a float. *)
Definition serving_differs (a b : Serving) : Prop :=
  sv_Model a ≠ sv_Model b ∨ sv_Context a ≠ sv_Context b ∨ sv_Concurrency a ≠ sv_Concurrency b ∨
  SpecFloat.SFeqb (sv_MemoryFraction a) (sv_MemoryFraction b) = false ∨ sv_CPUOffloadGiB a ≠ sv_CPUOffloadGiB b ∨
  sv_MaxRequestTokens a ≠ sv_MaxRequestTokens b ∨ sv_MaxOutputTokens a ≠ sv_MaxOutputTokens b.
(** The changes shown between two configurations: each of the three sections, from its old to
    its new value, exactly when the two differ, at most once and in a fixed order. *)
Definition shows_differences (shown : list Change) (c n : Configuration) : Prop :=
  (ch_Field <$> shown) `sublist_of` ["serving"; "resources"; "caches"] ∧
  ∀ x, x ∈ shown ↔
    x = mkChange "serving" (Serving_json (cf_Serving c)) (Serving_json (cf_Serving n)) ∧ serving_differs (cf_Serving c) (cf_Serving n) ∨
    x = mkChange "resources" (Resources_json (cf_Resources c)) (Resources_json (cf_Resources n)) ∧ cf_Resources c ≠ cf_Resources n ∨
    x = mkChange "caches" (CacheBudgets_json (cf_Caches c)) (CacheBudgets_json (cf_Caches n)) ∧ cf_Caches c ≠ cf_Caches n.
Lemma same_serving_spec a b : same_serving a b = false ↔ serving_differs a b.
Proof. unfold same_serving, serving_differs. rewrite !andb_false_iff, !String.eqb_neq, !Z.eqb_neq. tauto. Qed.
Lemma change_spec {A} (same : A → A → bool) json name a b x (differ : Prop) : (same a b = false ↔ differ) →
  x ∈ change same json name a b ↔ x = mkChange name (json a) (json b) ∧ differ.
Proof. intros Hd. unfold change. rewrite <- Hd. destruct (same a b); rewrite ?elem_of_nil, ?list_elem_of_singleton; naive_solver. Qed.
Lemma change_field {A} (same : A → A → bool) json name a b : (ch_Field <$> change same json name a b) `sublist_of` [name].
Proof. unfold change. destruct (same a b); [apply sublist_nil_l|done]. Qed.
Lemma section_changes_shows c n : shows_differences (section_changes c n) c n.
Proof.
  split.
  - unfold section_changes. rewrite !fmap_app. apply (sublist_app _ ["serving"] _ ["resources"; "caches"]); [apply change_field|].
    apply (sublist_app _ ["resources"] _ ["caches"]); apply change_field.
  - intros x. unfold section_changes. rewrite !elem_of_app.
    rewrite (change_spec _ _ _ _ _ _ (serving_differs (cf_Serving c) (cf_Serving n))) by apply same_serving_spec.
    rewrite (change_spec _ _ _ _ _ _ (cf_Resources c ≠ cf_Resources n)) by apply bool_decide_eq_false.
    by rewrite (change_spec _ _ _ _ _ _ (cf_Caches c ≠ cf_Caches n)) by apply bool_decide_eq_false.
Qed.
(** C6: A preview of the live adapter is a checked one.  Its changes are exactly the sections in
    which the desired configuration differs from the current one, with both values; the draft was valid for an inventory of this very
    target; an evidence request carries the preconditions of its evidence; and every other
    request was accepted only with the managed model storage it needs, a build the worker has
    validated, and a cluster the root helper itself reported available. *)
Theorem live_Validate_gate clk d c p : live_Validate modelData o an clk d c = Ok p →
  shows_differences (pv_Changes p) c (Desired c d) ∧
  (∃ inv, in_Target inv = lo_Target o ∧ ValidateDraft clk d c inv = Ok tt) ∧
  (PerformanceAction (d_Action d) = true → ∃ s, la_PerformancePreview an d c = Ok s ∧ carries (ps_Preconditions s) p) ∧
  (MemoryAction (d_Action d) = true → ∃ s, la_MemoryPreview an d c = Ok s ∧ carries (ms_Preconditions s) p) ∧
  (EvidenceAction (d_Action d) = false → machine_ready d c ∧ ∃ inv, live_Snapshot modelData o an = Ok inv ∧ ValidateDraft clk d c inv = Ok tt ∧
     carries {["reference_revision" := in_SourceRevision inv; "hardware_boot_id" := hw_BootID (in_Hardware inv)]} p).
Proof.
  unfold live_Validate, EvidenceAction. destruct (PerformanceAction (d_Action d)) eqn:Hperf.
  { assert (MemoryAction (d_Action d) = false) as -> by (by apply performance_not_memory).
    intros ([] & Hv & (s & Hs & Hp)%bind_ok)%bind_ok. apply with_evidence_carries in Hp as [Kp Kc].
    split; [rewrite Kp; apply section_changes_shows|]. split_and!; [by exists (set_in_Target (lo_Target o) Inventory0)|by exists s|done|done]. }
  destruct (MemoryAction (d_Action d)) eqn:Hmem.
  { intros (ref & Href & ([] & Hv & (s & Hs & Hp)%bind_ok)%bind_ok)%bind_ok. apply with_evidence_carries in Hp as [Kp Kc].
    split; [rewrite Kp; apply section_changes_shows|]. split_and!; [by exists (set_in_Target (lo_Target o) Inventory0)|done|by exists s|done]. }
  intros (inv & Hi & ([] & Hv & Hp)%bind_ok)%bind_ok. destruct (live_Snapshot_available _ Hi) as [Ht Ha].
  destruct (str_in _ _ && negb (is_some _)) eqn:Hst; [done|]. destruct (if _ =s "build.start" then _ else _) eqn:Hb; [done|].
  destruct (str_in _ cluster_actions && _) eqn:Hcl; [done|]. injection Hp as <-.
  split; [apply section_changes_shows|]. split_and!; [by exists inv|done|done|]. intros _. split; [split_and!|].
  - intros Hin%str_in_spec. rewrite Hin in Hst. by destruct (la_Stager an).
  - intros Heq. rewrite Heq in Hb. exact Hb.
  - intros Hin%str_in_spec. rewrite Hin in Hcl. cbn in Hcl. bool_hyps. auto.
  - exists inv. split_and!; [done|done|]. eexists. split; [reflexivity|].
    cbn [preview pv_Preconditions default from_option id]. rewrite <- !insert_empty. by rewrite insert_insert_ne.
Qed.
End Gate.

(** The bundle of the concrete profile, on the texts of [LaunchFixture]. *)
Import LaunchFixture.
Module ExportFixture.
#[export] Instance digest : Sha256 := λ _, "digest".
Definition exported_bundle : Bundle := match exportBundle hash "qwen" "https://gpu.example/v1" defaultConfig with Ok b => b | Err _ => mkBundle "" "" [] [] end.
Lemma texts_read_back : reads_back hash (export_profile "qwen" "https://gpu.example/v1" defaultConfig).
Proof.
  split.
  - intros h Hh. unfold harness_names in Hh. repeat (apply elem_of_cons in Hh as [->|Hh]; [vm_compute; reflexivity|]). by apply elem_of_nil in Hh.
  - assert (forallb (λ c, is_some (any_value (put_text c.2.2))) (native_configs (export_profile "qwen" "https://gpu.example/v1" defaultConfig)) = true) as Hb by (vm_compute; reflexivity).
    intros h path cfg Hi. pose proof (proj1 (forallb_forall _ _) Hb (h, (path, cfg)) (proj1 (list_elem_of_In _ _) Hi)) as K. clear Hb Hi.
    cbn [snd] in K. destruct (any_value (put_text cfg)) as [v|]; [exists v; reflexivity|discriminate K].
Qed.
Lemma bundle_small : ∀ f, f ∈ bn_Files exported_bundle → str_len (bf_Content f) ≤ 2^20.
Proof.
  assert (forallb (λ f, str_len (bf_Content f) <=? 2^20) (bn_Files exported_bundle) = true) as Hb by (vm_compute; reflexivity).
  intros f Hf. apply Z.leb_le. apply (proj1 (forallb_forall _ _) Hb). by apply list_elem_of_In.
Qed.
End ExportFixture.
Import ExportFixture.
Lemma export_verifies_witness : length (bn_Files exported_bundle) = 4%nat ∧ ∃ files, VerifyBundle hash exported_bundle = Ok files.
Proof.
  split; [vm_compute; reflexivity|].
  assert (exportBundle hash "qwen" "https://gpu.example/v1" defaultConfig = Ok exported_bundle) as Hx by (vm_compute; reflexivity).
  destruct (export_verifies hash _ _ _ _ texts_read_back Hx bundle_small) as (files & Hv & _).
  exists files. exact Hv.
Defined.
Module GateFixture.
Definition options : LiveOptions := mkLiveOptions "/state" "gpu-1" "dev" "/ref" "/models" "/hw" "/source" "/host.sock" "" "https://gpu.example/v1" "" "" 0.
Definition answers (up : bool) : LiveAnswers := mkLiveAnswers (Ok (mkCatalogInventory [] "" "rev-1" ∅)) None (Ok []) (λ _, None)
  (Ok (live_inventory [] options (mkLiveAnswers (Err ErrIO) None (Err ErrIO) (λ _, None) (Err ErrIO) (λ _ _, Err ErrIO) (λ _ _, Err ErrIO) (Err ErrIO) (λ n _ _, demo_cache n 0)) "" up "starting" "ai" unknown_hardware unknown_serving))
  (λ _ _, Err ErrIO) (λ _ _, Err ErrIO) (Err ErrIO) (λ n _ _, demo_cache n 0).
Definition switch : Draft := mkDraft "profile.switch" "gpu-1" (cf_Revision defaultConfig) "" "ai" "" "" None None None None None.
Definition gate (up : bool) := live_Validate [] options (answers up) (λ _, zeroTime) switch defaultConfig.
End GateFixture.
Import GateFixture.
(** With the cluster up the switch is previewed, and the cluster was up; while it starts, the
    switch is refused with the helper's message. *)
Lemma live_Validate_gate_witness : gate false = Err (Failure "unavailable" "starting") ∧ ∃ p h, gate true = Ok p ∧
  la_Snapshot (answers true) = Ok h ∧ in_ClusterAvailable h = true.
Proof.
  split; [vm_compute; reflexivity|]. destruct (gate true) as [p|e] eqn:Hg; [|exfalso; revert Hg; by vm_compute].
  destruct (live_Validate_gate _ _ _ _ _ _ _ Hg) as (_ & _ & _ & _ & K). destruct (K eq_refl) as ((_ & _ & Hh) & _).
  destruct Hh as (h & Hs & Hc); [apply list_elem_of_here|]. exists p, h. split; [reflexivity|]. split; [exact Hs|exact Hc].
Defined.
