(* ===== verification/Records.v ===== *)
(** How the management client reads the records of the API ([json.Unmarshal] into
    [domain.Operation], [Plan] and [Configuration], unknown members skipped) and how it
    prints them. *)
From S2P Require Import Prelude Json Types Config Wire Evidence.
From Stdlib Require Import SpecFloat.
#[local] Open Scope Z_scope.

(** [json.Unmarshal] of a member into an [any]. *)
Class AnyMember := any_member : JSON → JSON.
Definition dec_uint64 : decoder Z := λ v cur,
  match v with JNull => Some cur | JInt z => if (0 <=? z) && (z <? 2^64) then Some z else None | _ => None end.
(** A map that may be nil. *)
Definition dec_string_map : decoder (option (gmap string string)) := λ v cur,
  match v with JNull => Some None | _ => Some <$> dec_map "" dec_string v (default ∅ cur) end.

Definition read_Serving : decoder Serving := dec_lenient serving_members.
Definition read_Resources : decoder Resources := dec_lenient resources_members.
Definition read_CacheBudgets : decoder CacheBudgets := dec_lenient caches_members.
Definition read_Draft : decoder Draft := dec_lenient (draft_members_of read_Serving read_Resources read_CacheBudgets
  (dec_lenient memory_members) (dec_lenient performance_members)).
Definition read_Artifact : decoder Artifact := dec_lenient artifact_members.
Definition read_Configuration : decoder Configuration := dec_lenient [
  at_key "revision" dec_string cf_Revision (λ x '(mkConfiguration _ b c d), mkConfiguration x b c d);
  at_key "serving" read_Serving cf_Serving (λ x '(mkConfiguration a _ c d), mkConfiguration a x c d);
  at_key "resources" read_Resources cf_Resources (λ x '(mkConfiguration a b _ d), mkConfiguration a b x d);
  at_key "caches" read_CacheBudgets cf_Caches (λ x '(mkConfiguration a b c _), mkConfiguration a b c x)].
Definition read_Progress : decoder Progress := dec_lenient [
  at_key "phase" dec_string pg_Phase (λ x '(mkProgress _ b c), mkProgress x b c);
  at_key "message" dec_string pg_Message (λ x '(mkProgress a _ c), mkProgress a x c);
  at_key "bytes" dec_int pg_Bytes (λ x '(mkProgress a b _), mkProgress a b x)].

Section Records.
Context `{TimeText} `{AnyMember}.
Definition dec_any : decoder JSON := λ v _, Some (any_member v).
Definition Change0 : Change := mkChange "" JNull JNull.
Definition read_Change : decoder Change := dec_lenient [
  at_key "field" dec_string ch_Field (λ x '(mkChange _ b c), mkChange x b c);
  at_key "before" dec_any ch_Before (λ x '(mkChange a _ c), mkChange a x c);
  at_key "after" dec_any ch_After (λ x '(mkChange a b _), mkChange a b x)].
Definition read_Preview : decoder Preview := dec_lenient [
  at_key "changes" (dec_list Change0 read_Change) pv_Changes (λ x '(mkPreview _ b c d), mkPreview x b c d);
  at_key "consequences" (dec_list "" dec_string) pv_Consequences (λ x '(mkPreview a _ c d), mkPreview a x c d);
  at_key "warnings" (dec_list "" dec_string) pv_Warnings (λ x '(mkPreview a b _ d), mkPreview a b x d);
  at_key "preconditions" dec_string_map pv_Preconditions (λ x '(mkPreview a b c _), mkPreview a b c x)].
Definition read_Plan : decoder Plan := dec_lenient [
  at_key "id" dec_string pl_ID (λ x '(mkPlan _ b c d e f g h), mkPlan x b c d e f g h);
  at_key "actor" dec_string pl_Actor (λ x '(mkPlan a _ c d e f g h), mkPlan a x c d e f g h);
  at_key "draft" read_Draft pl_Draft (λ x '(mkPlan a b _ d e f g h), mkPlan a b x d e f g h);
  at_key "desired" read_Configuration pl_Desired (λ x '(mkPlan a b c _ e f g h), mkPlan a b c x e f g h);
  at_key "preview" read_Preview pl_Preview (λ x '(mkPlan a b c d _ f g h), mkPlan a b c d x f g h);
  at_key "created_at" dec_time pl_CreatedAt (λ x '(mkPlan a b c d e _ g h), mkPlan a b c d e x g h);
  at_key "expires_at" dec_time pl_ExpiresAt (λ x '(mkPlan a b c d e f _ h), mkPlan a b c d e f x h);
  at_key "hash" dec_string pl_Hash (λ x '(mkPlan a b c d e f g _), mkPlan a b c d e f g x)].
Definition read_Operation : decoder Operation := dec_lenient [
  at_key "id" dec_string op_ID (λ x '(mkOperation _ b c d e f g h i j k l m n o p), mkOperation x b c d e f g h i j k l m n o p);
  at_key "actor" dec_string op_Actor (λ x '(mkOperation a _ c d e f g h i j k l m n o p), mkOperation a x c d e f g h i j k l m n o p);
  at_key "plan" read_Plan op_Plan (λ x '(mkOperation a b _ d e f g h i j k l m n o p), mkOperation a b x d e f g h i j k l m n o p);
  at_key "state" dec_string op_State (λ x '(mkOperation a b c _ e f g h i j k l m n o p), mkOperation a b c x e f g h i j k l m n o p);
  at_key "phase" dec_string op_Phase (λ x '(mkOperation a b c d _ f g h i j k l m n o p), mkOperation a b c d x f g h i j k l m n o p);
  at_key "message" dec_string op_Message (λ x '(mkOperation a b c d e _ g h i j k l m n o p), mkOperation a b c d e x g h i j k l m n o p);
  at_key "revision" dec_uint64 op_Revision (λ x '(mkOperation a b c d e f _ h i j k l m n o p), mkOperation a b c d e f x h i j k l m n o p);
  at_key "created_at" dec_time op_CreatedAt (λ x '(mkOperation a b c d e f g _ i j k l m n o p), mkOperation a b c d e f g x i j k l m n o p);
  at_key "updated_at" dec_time op_UpdatedAt (λ x '(mkOperation a b c d e f g h _ j k l m n o p), mkOperation a b c d e f g h x j k l m n o p);
  at_key "source_updated" dec_bool op_SourceUpdated (λ x '(mkOperation a b c d e f g h i _ k l m n o p), mkOperation a b c d e f g h i x k l m n o p);
  at_key "dispatched" dec_bool op_Dispatched (λ x '(mkOperation a b c d e f g h i j _ l m n o p), mkOperation a b c d e f g h i j x l m n o p);
  at_key "live_applied" dec_bool op_LiveApplied (λ x '(mkOperation a b c d e f g h i j k _ m n o p), mkOperation a b c d e f g h i j k x m n o p);
  at_key "recovery_required" dec_bool op_RecoveryRequired (λ x '(mkOperation a b c d e f g h i j k l _ n o p), mkOperation a b c d e f g h i j k l x n o p);
  at_key "cancel_requested" dec_bool op_CancelRequested (λ x '(mkOperation a b c d e f g h i j k l m _ o p), mkOperation a b c d e f g h i j k l m x o p);
  at_key "events" (dec_list (mkProgress "" "" 0) read_Progress) op_Events (λ x '(mkOperation a b c d e f g h i j k l m n _ p), mkOperation a b c d e f g h i j k l m n x p);
  at_key "artifacts" (dec_list Artifact0 read_Artifact) op_Artifacts (λ x '(mkOperation a b c d e f g h i j k l m n o _), mkOperation a b c d e f g h i j k l m n o x)].
End Records.

Definition Progress_json (p : Progress) : JSON := JObject (
  [("phase", JString (pg_Phase p)); ("message", JString (pg_Message p))] ++ omit_int "bytes" (pg_Bytes p)).
Definition Operation_json (o : Operation) : JSON := JObject (
  [("id", JString (op_ID o)); ("actor", JString (op_Actor o)); ("plan", Plan_json (op_Plan o)); ("state", JString (op_State o));
   ("phase", JString (op_Phase o)); ("message", JString (op_Message o)); ("revision", JInt (op_Revision o));
   ("created_at", JTime (op_CreatedAt o)); ("updated_at", JTime (op_UpdatedAt o)); ("source_updated", JBool (op_SourceUpdated o));
   ("dispatched", JBool (op_Dispatched o)); ("live_applied", JBool (op_LiveApplied o)); ("recovery_required", JBool (op_RecoveryRequired o));
   ("cancel_requested", JBool (op_CancelRequested o)); ("events", JArray (Progress_json <$> op_Events o))]
  ++ omit_list "artifacts" Artifact_json (op_Artifacts o)).
