(* ===== verification/Remote.v ===== *)
(** The management client ([internal/client/client.go]): its configuration and credential,
    one request over it, and the redaction of what a refusing server echoes.

    The HTTP transport is an interaction; TLS, the CA pool and name resolution are outside,
    except for the choice to dial [localhost] literally. *)
From S2P Require Import Prelude Interact Json Types Config Wire Evidence Provenance.
From stdpp Require Import pretty.
#[local] Open Scope Z_scope.

(** ** Configuration *)

Record ClientConfig := mkClientConfig { cc_Endpoint : string; cc_CredentialFile : string; cc_CAFile : string; cc_TimeoutSeconds : Z }.
Definition dec_ClientConfig : decoder ClientConfig := dec_struct [
  at_key "endpoint" dec_string cc_Endpoint (λ x '(mkClientConfig _ b c d), mkClientConfig x b c d);
  at_key "credential_file" dec_string cc_CredentialFile (λ x '(mkClientConfig a _ c d), mkClientConfig a x c d);
  at_key "ca_file" dec_string cc_CAFile (λ x '(mkClientConfig a b _ d), mkClientConfig a b x d);
  at_key "timeout_seconds" dec_int cc_TimeoutSeconds (λ x '(mkClientConfig a b c _), mkClientConfig a b c x)].
(** A strict decoding of one document, with the errors of a bad and of another document. *)
Definition one_document {A} (bad extra : error) (dec : decoder A) (zero : A) (docs : option (list JSON)) : result A :=
  match docs with
  | Some (v :: rest) => match dec v zero with None => Err bad | Some a => reject negb (Nat.eqb (length rest) 0) with extra ;; Ok a end
  | _ => Err bad
  end.
Definition LoadConfig `{JSONText} (d : Disk) (path : string) : result ClientConfig :=
  match ReadFile d path with
  | Err e => Err (Plain "open context")
  | Ok text => one_document (Plain "read context") (Plain "context must contain one JSON object") dec_ClientConfig (mkClientConfig "" "" "" 0) (json_docs (take_bytes (64 * 2^10) text))
  end.

(** The credential file at its inspection and when it is opened, and whether it is then the
    same file. *)
Definition ReadCredential (uid : Z) (before : Disk) (opened : Disk) (same : bool) (path : string) : result string :=
  match Lstat before (components path) with
  | Err _ => Err (Plain "cannot read credential file")
  | Ok (EFile owner mode content) =>
    reject negb (Z.land mode 63 =? 0) || (str_len content >? 4096) with Plain "credential must be an owner-only regular file of at most 4096 bytes" ;;
    reject negb (owner =? uid) with Plain "credential file must belong to the current account" ;;
    match named opened false (components path) with
    | Err _ | Ok (_, ELink _ _) => Err (Plain "cannot open credential file")
    | Ok (q, e) =>
      reject negb same with Plain "credential file changed while opening" ;;
      match e with
      | EFile _ _ text =>
        reject dk_broken opened q || (str_len text >? 4096) with Plain "cannot read credential file" ;;
        let token := TrimSpace text in
        reject (token =s "") || existsb (λ c, existsb (N.eqb (N_of_ascii c)) [13; 10; 9; 32]%N) (chars token)
          with Plain "credential file must contain one token" ;;
        Ok token
      | _ => Err (Plain "cannot read credential file")
      end
    end
  | Ok _ => Err (Plain "credential must be an owner-only regular file of at most 4096 bytes")
  end.

Record RemoteClient := mkRemoteClient { rm_endpoint : string; rm_credential : string; rm_seconds : Z; rm_dials_loopback : bool }.
Section New.
Context `{NetParse}.
Definition is_loopback (u : URL) : bool :=
  match ParseIP (u_Hostname u) with Some ip => ip_Loopback ip | None => u_Hostname u =s "localhost" end.
(** [New]; [ca] tells whether the CA file can be read and holds certificates. *)
Definition remote_New (c : ClientConfig) (credential : result string) (ca : option bool) : result RemoteClient :=
  match url_Parse (cc_Endpoint c) with
  | None => Err (Plain "endpoint must be an HTTP(S) origin without credentials, path, query or fragment")
  | Some u =>
    reject (u_Host u =s "") || u_User u || (u_RawQuery u <>s "") || (u_Fragment u <>s "") || ((u_Path u <>s "") && (u_Path u <>s "/"))
      with Plain "endpoint must be an HTTP(S) origin without credentials, path, query or fragment" ;;
    reject (u_Scheme u <>s "https") && negb ((u_Scheme u =s "http") && is_loopback u) with Plain "non-loopback management endpoints require HTTPS" ;;
    credential ← credential;
    _ ← (if cc_CAFile c =s "" then Ok tt else
         match ca with
         | None => Err (Plain "cannot read management CA file")
         | Some valid => reject negb valid with Plain "management CA file has no valid certificates" ;; Ok tt
         end);
    let seconds := if cc_TimeoutSeconds c =? 0 then 30 else cc_TimeoutSeconds c in
    reject (seconds <? 1) || (seconds >? 3600) with Plain "timeout_seconds must be between 1 and 3600" ;;
    Ok (mkRemoteClient (trim_suffix (cc_Endpoint c) "/") credential seconds ((u_Scheme u =s "http") && (u_Hostname u =s "localhost")))
  end.
End New.

(** ** Redaction *)

(** [strings.Contains], and [strings.ReplaceAll] of a text that is not empty: [skip] bytes
    belong to an occurrence that was replaced. *)
Fixpoint occurs (w s : string) : bool := String.prefix w s || match s with String _ t => occurs w t | EmptyString => false end.
Fixpoint replace_from (old new : string) (skip : nat) (s : string) : string :=
  match s with
  | EmptyString => ""
  | String c t =>
    match skip with
    | S skip => replace_from old new skip t
    | O => if String.prefix old s then new +:+ replace_from old new (String.length old - 1) t else String c (replace_from old new 0 t)
    end
  end.
Definition ReplaceAll (s old new : string) : string := replace_from old new 0 s.

(** ** A request *)

Record ManagementRequest := mkManagementRequest {
  mq_Method : string; mq_URL : string; mq_Header : list (string * string); mq_Body : option JSON }.
(** What became of it: it could not be built, was not answered (with the error of an expired
    context), or was, with the body as far as it was read. *)
Inductive RemoteAnswer := Unbuilt | Undelivered (expired : option error) | Delivered (status : Z) (body : option string).
Inductive RemoteError :=
| APIError (status : Z) (code message : string)
| Expired (e : error)
| Unavailable (message : string).
Inductive Outcome (A : Type) := Got (a : A) | Refused (e : RemoteError).
Arguments Got {A} a.
Arguments Refused {A} e.

Record Envelope := mkEnvelope { en_Error : option JSON; en_Code : string; en_Message : string }.
Definition dec_Envelope : decoder Envelope := dec_lenient [
  at_key "error" dec_raw (λ _, JNull) (λ x '(mkEnvelope _ b c), mkEnvelope (Some x) b c);
  at_key "code" dec_string en_Code (λ x '(mkEnvelope a _ c), mkEnvelope a x c);
  at_key "message" dec_string en_Message (λ x '(mkEnvelope a b _), mkEnvelope a b x)].
Definition dec_nested : decoder (string * string) := dec_lenient [
  at_key "code" dec_string fst (λ x p, (x, p.2)); at_key "message" dec_string snd (λ x p, (p.1, x))].
Definition or_else (s fallback : string) : string := if s =s "" then fallback else s.
Definition maxManagementBytes : Z := 8 * 2^20.

Section Do.
Context `{JSONText}.
(** The code and message of a refusal: the outer members, then those of its [error]. *)
Definition refusal (body : string) : string * string :=
  let plain := ("request_failed", "management request was refused") in
  match (v ← unmarshal body; dec_Envelope v (mkEnvelope None "" "")) with
  | None => plain
  | Some e =>
    let outer := (or_else (en_Code e) plain.1, or_else (en_Message e) plain.2) in
    match en_Error e with
    | None => outer
    | Some raw => match dec_nested raw ("", "") with
                  | Some nested => (or_else nested.1 outer.1, or_else nested.2 outer.2)
                  | None => outer
                  end
    end
  end.
Definition redacted (credential s : string) : string := ReplaceAll s credential "[redacted]".
Definition management_path (path : string) : bool :=
  has_prefix path "/api/v1/" && negb (contains path "..") && negb (contains_any path "?#\").
Definition management_headers (credential idempotency ifMatch : string) (body : bool) : list (string * string) :=
  [("Authorization", "Bearer " +:+ credential); ("Accept", "application/json")]
  ++ (if body then [("Content-Type", "application/json")] else [])
  ++ (if idempotency =s "" then [] else [("Idempotency-Key", idempotency)])
  ++ (if ifMatch =s "" then [] else [("If-Match", ifMatch)]).
Definition management_request (c : RemoteClient) (method path idempotency ifMatch : string) (body : option JSON) : ManagementRequest :=
  mkManagementRequest method (rm_endpoint c +:+ path) (management_headers (rm_credential c) idempotency ifMatch (is_some body)) body.
Definition read_answer {A} (c : RemoteClient) (dec : decoder A) (zero : A) (answer : RemoteAnswer) : Outcome A :=
  match answer with
  | Unbuilt => Refused (Unavailable "invalid management request")
  | Undelivered (Some e) => Refused (Expired e)
  | Undelivered None => Refused (Unavailable "management request failed: check endpoint, TLS identity and deadline")
  | Delivered _ None => Refused (Unavailable "cannot read management response")
  | Delivered status (Some b) =>
    if str_len b >? maxManagementBytes then Refused (Unavailable "management response exceeds size limit") else
    if (status <? 200) || (status >=? 300) then
      let '(code, message) := refusal b in Refused (APIError status (redacted (rm_credential c) code) (redacted (rm_credential c) message))
    else if b =s "" then Got zero else
    match (v ← unmarshal b; dec v zero) with Some a => Got a | None => Refused (Unavailable "management response is not valid JSON") end
  end.

(** [do] over any set of interactions in which a request is one. *)
Section Over.
Context {E : Type} {answer : E → Type} (send : ManagementRequest → Interact.Run answer RemoteAnswer).
Definition remote_do {A} (c : RemoteClient) (method path idempotency ifMatch : string) (body : option JSON) (dec : decoder A) (zero : A) : Interact.Run answer (Outcome A) :=
  if negb (management_path path) then mret (Refused (Unavailable "invalid management API path")) else
  v ← send (management_request c method path idempotency ifMatch body); mret (read_answer c dec zero v).
Definition Do_ {A} (c : RemoteClient) (method path idempotency : string) (body : option JSON) (dec : decoder A) (zero : A) : Interact.Run answer (Outcome A) :=
  remote_do c method path idempotency "" body dec zero.
Definition quotation : string := String (ascii_of_nat 34) "".
Definition DoRevision {A} (c : RemoteClient) (method path : string) (revision : Z) (body : option JSON) (dec : decoder A) (zero : A) : Interact.Run answer (Outcome A) :=
  if revision =? 0 then mret (Refused (Unavailable "observed operation revision is required")) else
  remote_do c method path "" (quotation +:+ pretty revision +:+ quotation) body dec zero.
End Over.
End Do.
