(* ===== verification/Secrecy.v ===== *)
(** Where the credential of the management client may go ([Remote]): to the configured
    endpoint, over TLS or loopback, and not into an error. *)
From S2P Require Import Prelude Interact Json Types Config Wire Evidence Provenance Remote.
#[local] Open Scope Z_scope.

(** ** Replacing every occurrence *)

Definition without (c : ascii) (s : string) : bool := all_chars (λ x, negb (Ascii.eqb c x)) s.
(** A credential that the marker neither contains nor can complete. *)
Definition redactable (w : string) : bool := (w <>s "") && without "["%char w && without "]"%char w && negb (occurs w "redacted").
#[local] Abbreviation marker := "[redacted]" (only parsing).

Lemma prefix_cons x w c s : String.prefix (String x w) (String c s) = true → x = c ∧ String.prefix w s = true.
Proof. cbn. destruct (ascii_dec x c); [done|discriminate]. Qed.
Lemma without_cons c x w : without c (String x w) = true → c ≠ x ∧ without c w = true.
Proof. unfold without. cbn. intros [Hx Hw]%andb_true_iff. split; [|done]. intros ->. by rewrite Ascii.eqb_refl in Hx. Qed.
(** What starts a redacted text starts the text. *)
Lemma prefix_replaced old : ∀ s w, without "["%char w = true → String.prefix w (replace_from old marker 0 s) = true → String.prefix w s = true.
Proof.
  induction s as [|c s IH]; intros w Hw Hp; [done|]. destruct w as [|x w]; [done|]. apply without_cons in Hw as [Hx Hw]. cbn [replace_from] in Hp.
  destruct (String.prefix old (String c s)); [by apply prefix_cons in Hp as [-> _]|]. apply prefix_cons in Hp as [-> Hp%IH]; [|done].
  cbn. by destruct (ascii_dec c c).
Qed.
(** A text without the closing bracket cannot reach beyond it. *)
Lemma prefix_before w : ∀ v X, without "]"%char w = true → String.prefix w (v +:+ String "]"%char X) = true → String.prefix w v = true.
Proof.
  induction w as [|x w IH]; intros v X Hw Hp; [by destruct v|]. apply without_cons in Hw as [Hx Hw].
  destruct v as [|c v]; [by apply prefix_cons in Hp as [-> _]|]. apply (prefix_cons x w c (v +:+ String "]"%char X)) in Hp as [-> Hp%IH]; [|done]. cbn. by destruct (ascii_dec c c).
Qed.
Lemma occurs_cons w c s : occurs w (String c s) = false ↔ String.prefix w (String c s) = false ∧ occurs w s = false.
Proof. cbn [occurs]. apply orb_false_iff. Qed.
(** No occurrence starts in the marker or in the pieces between. *)
Lemma marker_free old X v : without "]"%char old = true → old ≠ "" → occurs old v = false → occurs old X = false → occurs old (v +:+ String "]"%char X) = false.
Proof.
  intros Hb Hne. revert X. induction v as [|c v IH]; intros X Hv HX.
  - apply occurs_cons. split; [|done]. destruct (String.prefix old (String "]" X)) eqn:Hp; [|done]. apply (prefix_before old "" X) in Hp; [|done]. by destruct old.
  - apply occurs_cons in Hv as [Hp Hv]. apply (occurs_cons old c (v +:+ String "]"%char X)). split; [|by apply IH].
    destruct (String.prefix old (String c (v +:+ String "]"%char X))) eqn:Hp'; [|done]. apply (prefix_before old (String c v) X) in Hp'; [congruence|done].
Qed.
Lemma replaced_free old : redactable old = true → ∀ s skip, occurs old (replace_from old marker skip s) = false.
Proof.
  intros Hr. unfold redactable in Hr. bool_hyps. rename select (without "[" old = true) into Hopen. rename select (without "]" old = true) into Hclose.
  assert (occurs old "[redacted" = false) as Hmark.
  { apply occurs_cons. split; [|done]. destruct (String.prefix old "[redacted") eqn:Hp; [|done]. destruct old as [|x w]; [done|].
    apply without_cons in Hopen as [Hx _]. by apply prefix_cons in Hp as [-> _]. }
  induction s as [|c s IH]; intros skip.
  - cbn. rewrite orb_false_r. by destruct old.
  - cbn [replace_from]. destruct skip as [|skip]; [|apply IH]. destruct (String.prefix old (String c s)) eqn:Hp.
    + apply (marker_free old _ "[redacted"); [done|done|done|apply IH].
    + apply occurs_cons. split; [|apply IH]. destruct (String.prefix old (String c (replace_from old marker 0 s))) eqn:Hq; [|done].
      destruct old as [|x w]; [done|]. apply without_cons in Hopen as [_ Hopen]. apply prefix_cons in Hq as [-> Hq%prefix_replaced]; [|done].
      cbn in Hp. destruct (ascii_dec c c); congruence.
Qed.

(** ** The client *)

Section Client.
Context `{NetParse} `{JSONText}.
(** Where a client may send its credential: an origin over HTTPS, or over HTTP a loopback
    address or the name [localhost], which is then dialled as the loopback address whatever
    name resolution says. *)
Definition protected_endpoint (endpoint : string) (dials_loopback : bool) : Prop := ∃ u, url_Parse endpoint = Some u ∧ u_Host u ≠ "" ∧ u_User u = false ∧
  (u_Scheme u = "https" ∨ u_Scheme u = "http" ∧ ((∃ ip, ParseIP (u_Hostname u) = Some ip ∧ ip_Loopback ip = true) ∨ u_Hostname u = "localhost" ∧ dials_loopback = true)).
(** A file that only its owner may read. *)
Definition owner_only (d : Disk) (uid : Z) (path : string) : Prop := ∃ mode content, Lstat d (components path) = Ok (EFile uid mode content) ∧ Z.land mode 63 = 0.
Lemma ReadCredential_ok uid d d' same path token : ReadCredential uid d d' same path = Ok token → owner_only d uid path ∧ token ≠ "" ∧ same = true.
Proof.
  unfold ReadCredential, owner_only. destruct (Lstat d _) as [[| owner mode content | |]|]; try done. destruct (negb _ || _) eqn:Hm; [done|]. destruct (negb (owner =? uid)) eqn:Ho; [done|].
  bool_hyps. destruct (named _ _ _) as [[q e]|]; [|done]. destruct e as [| u m text | |]; try done; destruct same; cbn [negb]; try done.
  destruct (_ || _); [done|]. cbv zeta. destruct ((TrimSpace text =s "") || _) eqn:Ht; [done|]. bool_hyps. intros [= <-]. split; [exists mode, content; by rewrite Ho|done].
Qed.
Lemma remote_New_ok cfg credential ca c : remote_New cfg credential ca = Ok c → credential = Ok (rm_credential c) ∧ protected_endpoint (cc_Endpoint cfg) (rm_dials_loopback c) ∧ rm_endpoint c = trim_suffix (cc_Endpoint cfg) "/".
Proof.
  unfold remote_New, protected_endpoint. destruct (url_Parse (cc_Endpoint cfg)) as [u|] eqn:Hu; [|done]. destruct (_ || _ || _ || _ || _) eqn:Ho; [done|]. bool_hyps.
  destruct ((u_Scheme u <>s "https") && _) eqn:Hs; [done|]. intros (t & -> & ([] & _ & Hr)%bind_ok)%bind_ok.
  cbv zeta in Hr. destruct (_ || _) eqn:Hsec in Hr; [done|]. injection Hr as <-. cbn. split; [done|]. split; [|done].
  exists u. split; [done|]. split; [done|]. split; [done|]. apply andb_false_iff in Hs as [Hs|Hs]; bool_hyps; [by left|right]. split; [done|].
  rename select (is_loopback u = true) into Hb. unfold is_loopback in Hb. destruct (ParseIP (u_Hostname u)) as [ip|]; [left; by exists ip|right]. bool_hyps.
  split; [done|]. apply andb_true_iff. split; by apply String.eqb_eq.
Qed.

(** The interactions of one request. *)
Definition answered (_ : ManagementRequest) : Type := RemoteAnswer.
#[local] Abbreviation sent := (act (answer := answered)).
(** The error texts of the client's own. *)
Definition own_texts : list string := ["invalid management API path"; "invalid management request"; "management request failed: check endpoint, TLS identity and deadline";
  "cannot read management response"; "management response exceeds size limit"; "management response is not valid JSON"].
(** The one request that may carry the credential: below the endpoint of the configuration, as
    the caller asked, with the credential in the Authorization header alone. *)
Definition carries (cfg : ClientConfig) (token method path idempotency ifMatch : string) (body : option JSON) (q : ManagementRequest) : Prop :=
  mq_URL q = trim_suffix (cc_Endpoint cfg) "/" +:+ path ∧ mq_Method q = method ∧ mq_Body q = body ∧
  ∃ rest, mq_Header q = ("Authorization", "Bearer " +:+ token) :: rest ∧
    rest ⊆ [("Accept", "application/json"); ("Content-Type", "application/json"); ("Idempotency-Key", idempotency); ("If-Match", ifMatch)].
Lemma management_request_carries cfg c method path idempotency ifMatch body : rm_endpoint c = trim_suffix (cc_Endpoint cfg) "/" →
  carries cfg (rm_credential c) method path idempotency ifMatch body (management_request c method path idempotency ifMatch body).
Proof.
  intros He. split; [by cbn; rewrite He|]. split; [done|]. split; [done|]. eexists. split; [reflexivity|].
  destruct (is_some body), (idempotency =s ""), (ifMatch =s ""); cbn; set_solver.
Qed.
Lemma read_answer_own {A} c (dec : decoder A) zero v m : read_answer c dec zero v = Refused (Unavailable m) → m ∈ own_texts.
Proof.
  unfold read_answer, own_texts. destruct v as [|[]|st [b|]]; try done; try (intros [= <-]; set_solver). destruct (_ >? _); [intros [= <-]; set_solver|].
  destruct (_ || _); [by destruct (refusal b)|]. destruct (b =s ""); [done|]. destruct (_ ≫= _); [done|]. intros [= <-]; set_solver.
Qed.
(** C11: The credential of the management client is private.  It is read from a file that only
    its account can read; it leaves only in the Authorization header of the one request the
    client makes, which goes to a versioned path below the endpoint of the configuration, over
    HTTPS or to the loopback address; whatever the server answers, the error a caller sees is one
    of six fixed texts, the expiry of the caller's own context, or the server's code and message
    in which a credential that the redaction marker can hide ([redactable]) does not occur; and
    success means that the server answered with a success status and a document of the expected
    type within eight MiB. *)
Theorem management_private {A} uid d d' same ca cfg c method path idempotency ifMatch body (dec : decoder A) zero h r :
  remote_New cfg (ReadCredential uid d d' same (cc_CredentialFile cfg)) ca = Ok c →
  leaf (remote_do sent c method path idempotency ifMatch body dec zero) h r →
  ∃ token, ReadCredential uid d d' same (cc_CredentialFile cfg) = Ok token ∧ token ≠ "" ∧
  owner_only d uid (cc_CredentialFile cfg) ∧ protected_endpoint (cc_Endpoint cfg) (rm_dials_loopback c) ∧
  (h = [] ∨ ∃ q v, h = [ev (answer := answered) q v] ∧ carries cfg token method path idempotency ifMatch body q ∧
    has_prefix path "/api/v1/" = true ∧ contains path ".." = false ∧ contains_any path "?#\" = false) ∧
  (∀ m, r = Refused (Unavailable m) → m ∈ own_texts) ∧
  (∀ status code message, r = Refused (APIError status code message) → redactable token = true →
    occurs token code = false ∧ occurs token message = false) ∧
  (∀ a, r = Got a → ∃ q status b, h = [ev (answer := answered) q (Delivered status (Some b))] ∧
    200 ≤ status < 300 ∧ str_len b ≤ maxManagementBytes ∧ (b = "" ∧ a = zero ∨ ∃ v, unmarshal b = Some v ∧ dec v zero = Some a)).
Proof.
  intros (Hcred & Hprot & He)%remote_New_ok Hl. exists (rm_credential c). split; [done|]. apply ReadCredential_ok in Hcred as (Hown & Hne & _).
  split; [done|]. split; [done|]. split; [done|]. unfold remote_do in Hl.
  destruct (negb (management_path path)) eqn:Hp; [destruct Hl as [-> ->]; split; [by left|]; split; [intros m [= <-]; unfold own_texts; set_solver|done]|].
  unfold management_path in Hp. bool_hyps. apply leaf_bind in Hl as (h1 & v & h2 & -> & (v' & h3 & -> & [-> ->]) & [-> ->]). cbn [app].
  split; [right; eexists _, v'; split; [reflexivity|]; split; [by apply management_request_carries|done]|]. split; [intros m; apply read_answer_own|]. split.
  - intros status code message Hr Hw. unfold read_answer in Hr. destruct v' as [|[]|st [b|]]; try done. destruct (_ >? _); [done|].
    destruct (_ || _); [|destruct (b =s ""); [done|]; by destruct (_ ≫= _)]. destruct (refusal b) as [x y]. injection Hr as <- <- <-. split; by apply replaced_free.
  - intros a Hr. unfold read_answer in Hr. destruct v' as [|[]|st [b|]]; try done. destruct (Z.gtb_spec (str_len b) maxManagementBytes); [done|].
    destruct (_ || _) eqn:Hst; [by destruct (refusal b)|]. bool_hyps. eexists _, st, b. split; [reflexivity|]. split; [lia|]. split; [lia|].
    destruct (String.eqb_spec b "") as [->|_]; [left; split; congruence|right]. destruct (unmarshal b) as [w|]; cbn in Hr; [|done]. exists w. split; [done|]. destruct (dec w zero); [congruence|done].
Qed.
End Client.

(** A server that refuses and echoes the credential it was sent. *)
Module SecrecyFixture.
Definition refused_body : JSON := JObject [("error", JObject [("code", JString "denied"); ("message", JString "token wsb-0123 is revoked, wsb-0123")])].
#[export] Instance documents : JSONText := λ s, if s =s "refused" then Some [refused_body] else None.
#[export] Instance parser : NetParse := {|
  ParseIP _ := None; SplitHostPort _ := None; EqualFold := String.eqb;
  url_Parse s := if s =s "https://gpu.example" then Some (mkURL "https" "" false "gpu.example" "gpu.example" "" "" "" "" false "" "") else None |}.
Definition home : Disk := mkDisk {[["token"] := EFile 1000 384 "wsb-0123"]} (λ _, false).
Definition config : ClientConfig := mkClientConfig "https://gpu.example" "/token" "" 0.
Definition made_client : result RemoteClient := remote_New config (ReadCredential 1000 home home true "/token") None.
Definition client : RemoteClient := match made_client with Ok c => c | Err _ => mkRemoteClient "" "" 0 false end.
Definition asked : option (list {r : ManagementRequest & answered r} * Outcome JSON) :=
  play (λ _, Delivered 403 (Some "refused")) (Do_ act client "GET" "/api/v1/status" "" None dec_raw JNull).
End SecrecyFixture.
Import SecrecyFixture.
Lemma management_private_witness : made_client = Ok client ∧ ∃ h, asked = Some (h, Refused (APIError 403 "denied" "token [redacted] is revoked, [redacted]")) ∧
  occurs "wsb-0123" "token [redacted] is revoked, [redacted]" = false.
Proof.
  assert (made_client = Ok client) as Hm by (vm_compute; reflexivity). split; [exact Hm|].
  destruct asked as [[h r]|] eqn:Ha; [|exfalso; revert Ha; vm_compute; discriminate].
  assert (match asked with Some (_, r) => r | None => Got JNull end = Refused (APIError 403 "denied" "token [redacted] is revoked, [redacted]")) as Hr by (vm_compute; reflexivity).
  rewrite Ha in Hr. subst r. exists h. split; [reflexivity|].
  destruct (management_private 1000 home home true None config client "GET" "/api/v1/status" "" "" None dec_raw JNull h _ Hm (play_leaf _ _ _ _ Ha)) as (w & Hw & _ & _ & _ & _ & _ & Hs & _).
  assert (ReadCredential 1000 home home true "/token" = Ok "wsb-0123") as Hr' by (vm_compute; reflexivity). assert (w = "wsb-0123") as -> by (cbn [cc_CredentialFile config] in Hw; congruence).
  exact (proj2 (Hs _ _ _ eq_refl (eq_refl : redactable "wsb-0123" = true))).
Defined.
