(* ===== verification/Commands.v ===== *)
(** The command line ([internal/cli]): its flags, the commands that talk to the service
    over the management client, the local ones, and the exit codes.

    A command is a tree of interactions: requests, files, the local operations of [Harness],
    the administration and the sealing of evidence, and the deadline.  What is printed is the
    document handed to the encoder. *)
From S2P Require Import Prelude Interact Json Types Domain Config Wire MemoryBundle Evidence Api Records Provenance Harness Remote.
#[local] Open Scope Z_scope.

(** ** Flags *)

(** [time.ParseDuration], and [%q]. *)
Class SpanText := parse_duration : string → option duration.
Class GoQuoted := quote : string → string.
Inductive FlagValue := FText (s : string) | FBool (b : bool) | FSpan (d : duration).
#[local] Abbreviation FlagSet := (list (string * FlagValue)).
Definition ErrHelp : error := Plain "flag: help requested".
Fixpoint flag_value (name : string) (fs : FlagSet) : option FlagValue :=
  match fs with [] => None | (k, v) :: fs => if k =s name then Some v else flag_value name fs end.
Definition set_flag (name : string) (v : FlagValue) (fs : FlagSet) : FlagSet := (λ kv, if kv.1 =s name then (kv.1, v) else kv) <$> fs.
Definition flag_text (name : string) (fs : FlagSet) : string := match flag_value name fs with Some (FText s) => s | _ => "" end.
Definition flag_span (name : string) (fs : FlagSet) : duration := match flag_value name fs with Some (FSpan d) => d | _ => 0 end.

Section Flags.
Context `{SpanText} `{GoQuoted}.
(** [strconv.ParseBool]. *)
Definition parse_bool (s : string) : option bool :=
  if str_in s ["1"; "t"; "T"; "true"; "TRUE"; "True"] then Some true
  else if str_in s ["0"; "f"; "F"; "false"; "FALSE"; "False"] then Some false else None.
Definition set_value (name text : string) (v : FlagValue) (fs : FlagSet) : result FlagSet :=
  match v with
  | FText _ => Ok (set_flag name (FText text) fs)
  | FSpan _ => match parse_duration text with
               | Some d => Ok (set_flag name (FSpan d) fs)
               | None => Err (Plain ("invalid value " +:+ quote text +:+ " for flag -" +:+ name +:+ ": parse error"))
               end
  | FBool _ => match parse_bool text with
               | Some b => Ok (set_flag name (FBool b) fs)
               | None => Err (Plain ("invalid boolean value " +:+ quote text +:+ " for -" +:+ name +:+ ": parse error"))
               end
  end.
(** An argument as a flag: its name with the value given by [=]; [None] ends the flags. *)
Definition flag_of (s : string) : option (string * option string) :=
  match s with
  | String "-"%char (String c rest) =>
    let body := if Ascii.eqb c "-"%char then rest else String c rest in
    match body with
    | String x tail => Some match cut_equals tail with Some (n, v) => (String x n, Some v) | None => (body, None) end
    | EmptyString => Some ("", None)
    end
  | _ => None
  end.
Definition bad_syntax (s name : string) : bool := match name with String c _ => Ascii.eqb c "-"%char || Ascii.eqb c "="%char | EmptyString => true end.
(** [FlagSet.Parse]: the values and the arguments that are left. *)
Fixpoint parse_flags (fs : FlagSet) (args : list string) : result (FlagSet * list string) :=
  match args with
  | [] => Ok (fs, [])
  | s :: rest =>
    if s =s "--" then Ok (fs, rest) else
    match flag_of s with
    | None => Ok (fs, args)
    | Some (name, given) =>
      reject bad_syntax s name with Plain ("bad flag syntax: " +:+ s) ;;
      match flag_value name fs with
      | None => if str_in name ["help"; "h"] then Err ErrHelp else Err (Plain ("flag provided but not defined: -" +:+ name))
      | Some (FBool b) => fs ← set_value name (default "true" given) (FBool b) fs; parse_flags fs rest
      | Some v =>
        match given, rest with
        | Some text, _ => fs ← set_value name text v fs; parse_flags fs rest
        | None, text :: rest => fs ← set_value name text v fs; parse_flags fs rest
        | None, [] => Err (Plain ("flag needs an argument: -" +:+ name))
        end
      end
    end
  end.
(** The flags of a command, when they parse and nothing is left. *)
Definition only_flags (names : list string) (args : list string) : option FlagSet :=
  match parse_flags ((λ n, (n, FText "")) <$> names) args with Ok (fs, []) => Some fs | _ => None end.
End Flags.

(** ** Interactions *)

Inductive CliAct :=
| KSend (r : ManagementRequest)
| KPrint (v : JSON)
| KUsage
| KNotice (text : string)
| KLoad (path : string)
| KNew (c : ClientConfig)
| KInput (path : string)
| KWrite (path data : string)
| KConfigure (b : Bundle) (directory : string)
| KBundle (path : string)
| KLaunch (directory name mode : string)
| KAdmin (config action role name path : string) (ttl : duration)
| KSeal (directory source hardware boot : string)
| KContext
| KTick.
Definition cli_answer (e : CliAct) : Type :=
  match e with
  | KSend _ => RemoteAnswer
  | KPrint _ => bool
  | KUsage | KNotice _ => unit
  | KLoad _ => result ClientConfig
  | KNew _ => result RemoteClient
(** the documents of a file, when it can be opened *)
  | KInput _ => option (option (list JSON))
  | KWrite _ _ | KConfigure _ _ | KLaunch _ _ _ => option error
  | KBundle _ => result Bundle
  | KAdmin _ _ _ _ _ _ => result JSON
  | KSeal _ _ _ _ => (string * option error)
(** the error of the context, and the end of the context or the ticker *)
  | KContext | KTick => option error
  end.
#[local] Abbreviation Cli := (Interact.Run cli_answer).

(** ** Output and exit codes *)

Definition texts (l : list (string * string)) : JSON := JObject ((λ kv, (kv.1, JString kv.2)) <$> l).
Definition output (v : JSON) : Cli Z := ok ← act (KPrint v); mret (if (ok : bool) then 0 else 5).
Definition failure (status : Z) (code message : string) : Cli Z :=
  ok ← act (KPrint (JObject [("error", texts [("code", code); ("message", message)])])); mret status.
Definition DeadlineExceeded : error := Plain "context deadline exceeded".
Definition api_exit (status : Z) : Z :=
  if existsb (Z.eqb status) [400; 413; 422] then 2 else if existsb (Z.eqb status) [401; 403] then 3
  else if existsb (Z.eqb status) [409; 412] then 4 else 5.
Definition report (e : RemoteError) : Cli Z :=
  match e with
  | APIError status code message => failure (api_exit status) code message
  | Expired e => if bool_decide (e = DeadlineExceeded) then failure 8 "deadline" "deadline exceeded; submitted operations continue until their durable result"
                 else failure 5 "unavailable" ("management request deadline or cancellation: " +:+ error_text e)
  | Unavailable message => failure 5 "unavailable" message
  end.
Definition report_error (e : error) : Cli Z := report (Unavailable (error_text e)).
Definition validID : string → bool := hex_string 32.
Definition usage_error (message : string) : Cli Z := failure 2 "usage" message.
(** [containsFlag]. *)
Definition containsFlag (args : list string) (want : string) : bool := existsb (λ a, (a =s want) || has_prefix a (want +:+ "=")) args.

Section Commands.
Context `{Sha256} `{NetParse} `{JSONText} `{JSONRender} `{JSONIndent} `{AnyValue} `{TimeText} `{AnyMember} `{SpanText} `{GoQuoted} (Sum : string → string).

Definition send (r : ManagementRequest) : Cli RemoteAnswer := act (KSend r).
Definition ask_service {A} (c : RemoteClient) (method path idempotency : string) (body : option JSON) (dec : decoder A) (zero : A) (k : A → Cli Z) : Cli Z :=
  out ← Do_ send c method path idempotency body dec zero;
  match (out : Outcome A) with Got a => k a | Refused e => report e end.
(** [readJSON]. *)
Definition readJSON {A} (path : string) (dec : decoder A) (zero : A) : Cli (result A) :=
  docs ← act (KInput path);
  mret match (docs : option (option (list JSON))) with
       | None => Err (Plain "cannot open JSON input")
       | Some docs => one_document (Plain "invalid typed JSON input") (Plain "input must contain exactly one JSON object") dec zero docs
       end.
Definition write_new (path data : string) (k : Cli Z) : Cli Z :=
  e ← act (KWrite path data); match (e : option error) with Some e => report_error e | None => k end.

(** ** Artifacts *)

Definition operation_path (id : string) : string := "/api/v1/operations/" +:+ id.
Definition operation_json (id : string) : JSON := texts [("operation_id", id)].
(** [client.WriteArtifact]. *)
Definition artifact_refusal (a : Artifact) : option error :=
  if ar_Content a =s "" then Some (Plain "artifact has no downloadable content; inspect its managed output and provenance on the target") else
  if negb (str_len (ar_Content a) =? ar_Size a) || (Sum (ar_Content a) <>s ar_SHA256 a) then Some (Plain "artifact size or SHA-256 verification failed") else None.
Definition same_artifact (a expected : Artifact) : bool :=
  (ar_Name a =s ar_Name expected) && (ar_SHA256 a =s ar_SHA256 expected) && (ar_Size a =? ar_Size expected)
  && (ar_SourceRevision a =s ar_SourceRevision expected) && (ar_Qualification a =s ar_Qualification expected).
Definition fetch_artifact (c : RemoteClient) (component id : string) (expected : Artifact) (k : Artifact → Cli Z) : Cli Z :=
  ask_service c "POST" ("/api/v1/" +:+ component +:+ "/artifact") "" (Some (texts [("operation_id", id); ("name", ar_Name expected)])) read_Artifact Artifact0 (λ a,
    if same_artifact a expected then k a
    else report_error (Plain ("private " +:+ component +:+ " artifact differs from the recorded operation; refresh its evidence"))).
Definition export_artifact (path : string) (a : Artifact) : Cli Z :=
  match artifact_refusal a with
  | Some e => report_error e
  | None => write_new path (ar_Content a) (output (texts [("output", path); ("sha256", ar_SHA256 a); ("status", "exported")]))
  end.
Definition run_artifact (c : RemoteClient) (rest : list string) : Cli Z :=
  match rest with
  | id :: args =>
    if negb (validID id) then usage_error "artifact requires an operation ID" else
    let wrong := usage_error "artifact requires --name ARTIFACT_NAME --output NEW_FILE" in
    match only_flags ["name"; "output"] args with
    | None => wrong
    | Some fs =>
      let name := flag_text "name" fs in let path := flag_text "output" fs in
      if (name =s "") || (path =s "") then wrong else
      ask_service c "GET" (operation_path id) "" None read_Operation Operation0 (λ op,
        match List.find (λ a, ar_Name a =s name) (op_Artifacts op) with
        | None => failure 2 "not_found" "operation does not contain that artifact"
        | Some a =>
          let action := d_Action (pl_Draft (op_Plan op)) in
          if (action =s "memory.plan.export") && PrivateName (ar_Name a) then fetch_artifact c "memory" id a (export_artifact path)
          else if PerformanceAction action then fetch_artifact c "performance" id a (export_artifact path)
          else export_artifact path a
        end)
    end
  | [] => usage_error "artifact requires an operation ID"
  end.
Definition run_export_source (c : RemoteClient) (rest : list string) : Cli Z :=
  let wrong := usage_error "export-source requires --output NEW_FILE" in
  match only_flags ["output"] rest with
  | None => wrong
  | Some fs =>
    let path := flag_text "output" fs in
    if path =s "" then wrong else
    ask_service c "GET" "/api/v1/config/export" "" None read_Configuration Configuration0 (λ cfg,
      if cf_Revision cfg <>s ContentRevision cfg then failure 2 "integrity" "source export revision does not match its content" else
      write_new path (put_text (Configuration_json cfg)) (output (texts [("output", path); ("revision", cf_Revision cfg); ("status", "exported")])))
  end.

(** ** Reading and changing *)

Definition read_commands : list string :=
  ["status"; "models"; "config"; "resources"; "profiles"; "builds"; "caches"; "harnesses"; "operations"; "memory"; "audit"; "telemetry"].
Definition run_read (c : RemoteClient) (command : string) (rest : list string) : Cli Z :=
  let path := "/api/v1/" +:+ command +:+ (if command =s "telemetry" then "/summary" else "") in
  let ask path := ask_service c "GET" path "" None dec_raw JNull output in
  match rest with
  | [] => ask path
  | [id] => if command =s "operations" then
              if negb (validID id) then failure 2 "invalid" "operation ID must be 32 lowercase hex characters" else ask (path +:+ "/" +:+ id)
            else usage_error "unexpected command arguments"
  | _ => usage_error "unexpected command arguments"
  end.
(** A typed file given by [--file]. *)
Definition with_file {A} (wrong : Cli Z) (rest : list string) (dec : decoder A) (zero : A) (k : A → Cli Z) : Cli Z :=
  match only_flags ["file"] rest with
  | None => wrong
  | Some fs =>
    if flag_text "file" fs =s "" then wrong else
    r ← readJSON (flag_text "file" fs) dec zero;
    match (r : result A) with Err e => failure 2 "invalid" (error_text e) | Ok a => k a end
  end.
Definition post_plan (c : RemoteClient) (d : Draft) : Cli Z :=
  ask_service c "POST" "/api/v1/plans" "" (Some (Draft_json d)) read_Plan Plan0 (λ p, output (Plan_json p)).
Definition run_plan (c : RemoteClient) (rest : list string) : Cli Z :=
  with_file (usage_error "plan requires --file DRAFT.json") rest dec_Draft Draft0 (post_plan c).
Definition run_apply (c : RemoteClient) (rest : list string) : Cli Z :=
  let wrong := usage_error "apply requires --plan ID --target EXACT_TARGET --idempotency-key KEY" in
  match only_flags ["plan"; "target"; "idempotency-key"] rest with
  | None => wrong
  | Some fs =>
    let id := flag_text "plan" fs in let target := flag_text "target" fs in let key := flag_text "idempotency-key" fs in
    if negb (validID id) || (target =s "") || (key =s "") then wrong else
    ask_service c "POST" "/api/v1/operations" key (Some (texts [("plan_id", id); ("target", target)])) read_Operation Operation0 (λ op, output (Operation_json op))
  end.
Definition settled_exit (state : string) : Z := if state =s "succeeded" then 0 else if state =s "recovery-required" then 7 else 6.
Fixpoint wait (polls : nat) (c : RemoteClient) (path : string) : Cli Z :=
  match polls with
  | O => Stuck
  | S polls =>
    out ← Do_ send c "GET" path "" None read_Operation Operation0;
    match (out : Outcome Operation) with
    | Refused e =>
      expired ← act KContext;
      match (expired : option error) with Some e => report (Expired e) | None => report e end
    | Got op =>
      if Terminal (op_State op) then ok ← act (KPrint (Operation_json op)); mret (settled_exit (op_State op)) else
      ended ← act KTick;
      match (ended : option error) with Some e => report (Expired e) | None => wait polls c path end
    end
  end.
Definition run_cancel (c : RemoteClient) (path : string) : Cli Z :=
  ask_service c "GET" path "" None read_Operation Operation0 (λ op,
    out ← DoRevision send c "POST" (path +:+ "/cancel") (op_Revision op) (Some (JObject [])) dec_raw JNull;
    match (out : Outcome JSON) with Got v => output v | Refused e => report e end).
Definition run_operation (polls : nat) (c : RemoteClient) (command : string) (rest : list string) : Cli Z :=
  match rest with
  | [id] =>
    if negb (validID id) then usage_error (command +:+ " requires an operation ID") else
    let path := operation_path id in
    if command =s "wait" then wait polls c path else
    if command =s "cancel" then run_cancel c path else
    ask_service c "POST" (path +:+ "/" +:+ command) "" (Some (JObject [])) dec_raw JNull output
  | _ => usage_error (command +:+ " requires an operation ID")
  end.

(** ** Evidence *)

Definition run_inspect (c : RemoteClient) (component command : string) (args : list string) : Cli Z :=
  match args with
  | [id] =>
    if negb (validID id) then usage_error (command +:+ " requires an operation ID") else
    ask_service c "POST" ("/api/v1/" +:+ component +:+ "/inspect") "" (Some (operation_json id)) read_Operation Operation0 (λ op, output (Operation_json op))
  | _ => usage_error (command +:+ " requires an operation ID")
  end.
Definition refuse_invalid (r : result unit) (k : Cli Z) : Cli Z := match r with Err e => failure 2 "invalid" (error_text e) | Ok _ => k end.
Definition set_d_Memory (m : MemoryRequest) : Draft := mkDraft "memory.plan.export" "" "" "" "" "" "" None None None (Some m) None.
Definition runMemory (c : RemoteClient) (command : string) (args : list string) : Cli Z :=
  if command =s "memory-inspect" then run_inspect c "memory" command args else
  let wrong := usage_error (command +:+ " requires --file with typed JSON input") in
  if command =s "memory-preview" then
    with_file wrong args dec_Draft Draft0 (λ d,
      if negb (MemoryAction (d_Action d)) then failure 2 "invalid" "memory-preview requires memory.evidence.import or memory.plan.export" else
      refuse_invalid (ValidateMemoryRequest d) (ask_service c "POST" "/api/v1/memory/preview" "" (Some (Draft_json d)) dec_raw JNull output))
  else
    with_file wrong args dec_MemoryRequest MemoryRequest0 (λ m,
      refuse_invalid (ValidateMemoryRequest (set_d_Memory m)) (ask_service c "POST" "/api/v1/memory/advice" "" (Some (MemoryRequest_json m)) dec_raw JNull output)).
Definition runPerformance (c : RemoteClient) (command : string) (args : list string) : Cli Z :=
  if command =s "performance-inspect" then run_inspect c "performance" command args else
  with_file (usage_error (command +:+ " requires --file with typed JSON input")) args dec_Draft Draft0 (λ d,
    if negb (PerformanceAction (d_Action d)) then failure 2 "invalid" (command +:+ " requires performance.export or performance.profile.select") else
    if (command =s "performance-select") && (d_Action d <>s "performance.profile.select") then failure 2 "invalid" "performance-select requires performance.profile.select" else
    refuse_invalid (ValidatePerformanceRequest d)
      (if command =s "performance-select" then post_plan c d
       else ask_service c "POST" "/api/v1/performance/preview" "" (Some (Draft_json d)) dec_raw JNull output)).
Definition runMemorySeal (args : list string) : Cli Z :=
  let wrong := usage_error "memory-seal requires --directory ABSOLUTE_DIRECTORY --source-revision SHA256 --hardware-sha256 SHA256 --boot-id UUID" in
  match only_flags ["directory"; "source-revision"; "hardware-sha256"; "boot-id"] args with
  | None => wrong
  | Some fs =>
    let directory := flag_text "directory" fs in let source := flag_text "source-revision" fs in
    let hardware := flag_text "hardware-sha256" fs in let boot := flag_text "boot-id" fs in
    if existsb (λ s, s =s "") [directory; source; hardware; boot] then wrong else
    sealed ← act (KSeal directory source hardware boot);
    match (sealed : string * option error) with
    | (sha, None) => output (texts [("directory", directory); ("manifest_sha256", sha); ("status", "sealed-unqualified")])
    | (sha, Some e) =>
      expired ← act KContext;
      match (expired : option error) with
      | Some _ => failure 8 "deadline" "local memory sealing interrupted; inspect retained evidence before retrying"
      | None =>
        ok ← act (KPrint (JObject [("error", texts [("code", "invalid"); ("message", error_text e)]); ("manifest_sha256", JString sha); ("status", JString "unqualified")]));
        mret 2
      end
    end
  end.

(** ** Client bundles and administration *)

Definition read_Bundle : decoder Bundle := dec_lenient [
  at_key "harness" dec_string bn_Harness (λ x '(mkBundle _ b c d), mkBundle x b c d);
  at_key "revision" dec_string bn_Revision (λ x '(mkBundle a _ c d), mkBundle a x c d);
  at_key "files" (dec_list (mkBundleFile "" "" "") (dec_lenient [
    at_key "path" dec_string bf_Path (λ x '(mkBundleFile _ b c), mkBundleFile x b c);
    at_key "content" dec_string bf_Content (λ x '(mkBundleFile a _ c), mkBundleFile a x c);
    at_key "sha256" dec_string bf_SHA256 (λ x '(mkBundleFile a b _), mkBundleFile a b x)])) bn_Files (λ x '(mkBundle a b _ d), mkBundle a b x d);
  at_key "limitations" (dec_list "" dec_string) bn_Limitations (λ x '(mkBundle a b c _), mkBundle a b c x)].
Definition Bundle_json (b : Bundle) : JSON := JObject [
  ("harness", JString (bn_Harness b)); ("revision", JString (bn_Revision b));
  ("files", JArray ((λ f, texts [("path", bf_Path f); ("content", bf_Content f); ("sha256", bf_SHA256 f)]) <$> bn_Files b));
  ("limitations", JArray (JString <$> bn_Limitations b))].
Definition configured (directory name : string) : JSON := texts [("directory", directory); ("harness", name); ("status", "configured-not-qualified")].
Definition configure (b : Bundle) (directory name : string) : Cli Z :=
  e ← act (KConfigure b directory); match (e : option error) with Some e => report_error e | None => output (configured directory name) end.
Definition runRemoteHarness (c : RemoteClient) (args : list string) : Cli Z :=
  match args with
  | action :: name :: rest =>
    if negb (str_in name harness_names) then failure 2 "invalid" "select qwen, dsh or hermes" else
    match only_flags ["output"; "directory"] rest with
    | None => usage_error "invalid harness options"
    | Some fs =>
      if (action <>s "export") && (action <>s "configure") then usage_error "remote harness supports export or configure" else
      ask_service c "GET" ("/api/v1/harnesses/" +:+ name +:+ "/export") "" None read_Bundle (mkBundle "" "" [] []) (λ b,
        match VerifyBundle Sum b with
        | Err e => failure 2 "integrity" (error_text e)
        | Ok _ =>
          if action =s "export" then
            let path := flag_text "output" fs in
            if path =s "" then usage_error "export requires --output NEW_FILE" else
            write_new path (put_text (Bundle_json b)) (output (texts [("output", path); ("status", "exported-not-qualified")]))
          else
            let directory := flag_text "directory" fs in
            if directory =s "" then usage_error "configure requires --directory NEW_DIRECTORY" else configure b directory name
        end)
    end
  | _ => usage_error "harness requires export|configure NAME"
  end.
Definition starting : string := "Starting an explicitly selected local client. Tools execute on this client; no automatic fallback. Hermes output caps remain provider-owned.".
Definition runLocalHarness (args : list string) : Cli Z :=
  match args with
  | action :: name :: rest =>
    let wrong := usage_error "local harness requires --directory DIRECTORY" in
    match parse_flags [("directory", FText ""); ("bundle", FText ""); ("mode", FText "cli")] rest with
    | Ok (fs, []) =>
      let directory := flag_text "directory" fs in
      if directory =s "" then wrong else
      if action =s "configure" then
        if flag_text "bundle" fs =s "" then usage_error "offline configure requires --bundle FILE" else
        b ← act (KBundle (flag_text "bundle" fs));
        match (b : result Bundle) with
        | Err e => report_error e
        | Ok b => if bn_Harness b <>s name then failure 2 "invalid" "selected harness differs from the exported bundle" else configure b directory name
        end
      else if action <>s "launch" then usage_error "unsupported local client command" else
        u ← act (KNotice starting);
        e ← act (KLaunch directory name (flag_text "mode" fs));
        match (e : option error) with Some e => report_error e | None => mret 0 end
    | _ => wrong
    end
  | _ => usage_error "local harness requires configure|launch NAME"
  end.
Definition runAdmin (args : list string) : Cli Z :=
  match args with
  | [] => usage_error "admin requires bootstrap, recover, issue, list or revoke"
  | action :: rest =>
    let wrong := usage_error "admin requires --config FILE" in
    match parse_flags [("config", FText ""); ("role", FText "owner"); ("name", FText "owner"); ("output", FText ""); ("ttl", FSpan (24 * Hour))] rest with
    | Ok (fs, []) =>
      if flag_text "config" fs =s "" then wrong else
      let path := flag_text "output" fs in
      if str_in action ["bootstrap"; "recover"; "issue"] && (path =s "") then usage_error "credential creation requires --output NEW_OWNER_ONLY_FILE" else
      if negb (str_in action ["bootstrap"; "recover"; "issue"; "list"; "revoke"]) then usage_error "unsupported local administration action" else
      r ← act (KAdmin (flag_text "config" fs) action (flag_text "role" fs) (flag_text "name" fs) path (flag_span "ttl" fs));
      match (r : result JSON) with Err e => report_error e | Ok v => output v end
    | _ => wrong
    end
  end.

(** ** The program *)

Definition global_flags : FlagSet := [("context", FText ""); ("endpoint", FText ""); ("credential-file", FText ""); ("ca-file", FText "");
  ("deadline", FSpan (30 * Second)); ("json", FBool false)].
Definition overridden (fs : FlagSet) (c : ClientConfig) : ClientConfig :=
  mkClientConfig (or_else (flag_text "endpoint" fs) (cc_Endpoint c)) (or_else (flag_text "credential-file" fs) (cc_CredentialFile c))
    (or_else (flag_text "ca-file" fs) (cc_CAFile c)) (cc_TimeoutSeconds c).
(** A command of the service. *)
Definition run_command (polls : nat) (c : RemoteClient) (command : string) (rest : list string) : Cli Z :=
  if command =s "artifact" then run_artifact c rest
  else if command =s "export-source" then run_export_source c rest
  else if str_in command read_commands then run_read c command rest
  else if str_in command ["memory-preview"; "memory-advice"; "memory-inspect"] then runMemory c command rest
  else if str_in command ["performance-preview"; "performance-select"; "performance-inspect"] then runPerformance c command rest
  else if command =s "plan" then run_plan c rest
  else if command =s "apply" then run_apply c rest
  else if str_in command ["wait"; "cancel"; "recover"] then run_operation polls c command rest
  else if command =s "harness" then runRemoteHarness c rest
  else usage_error "unknown command; run bridgectl help".
Definition shown_usage : Cli Z := u ← act KUsage; mret 0.
Definition run_remote (polls : nat) (fs : FlagSet) (command : string) (rest : list string) : Cli Z :=
  let context := flag_text "context" fs in
  cfg ← (if context =s "" then mret (Ok (mkClientConfig "http://127.0.0.1:8080" "" "" 0)) else act (KLoad context) : Cli (result ClientConfig));
  match (cfg : result ClientConfig) with
  | Err e => report_error e
  | Ok cfg =>
    c ← act (KNew (overridden fs cfg));
    match (c : result RemoteClient) with Err e => report_error e | Ok c => run_command polls c command rest end
  end.
Definition cli_Run (polls : nat) (args : list string) : Cli Z :=
  match parse_flags global_flags args with
  | Err e => if bool_decide (e = ErrHelp) then shown_usage else usage_error (error_text e)
  | Ok (fs, rest) =>
    match rest with
    | [] => shown_usage
    | command :: rest =>
      if str_in command ["help"; "--help"] then shown_usage else
      if (flag_span "deadline" fs <? 1000000) || (flag_span "deadline" fs >? 24 * Hour) then failure 2 "invalid" "deadline must be between 1ms and 24h" else
      if command =s "admin" then runAdmin rest else
      if command =s "memory-seal" then runMemorySeal rest else
      match rest with
      | action :: _ =>
        if (command =s "harness") && ((action =s "launch") || ((action =s "configure") && containsFlag (command :: rest) "--bundle"))
        then runLocalHarness rest else run_remote polls fs command rest
      | [] => run_remote polls fs command rest
      end
    end
  end.
End Commands.
