(* ===== verification/Exits.v ===== *)
(** What a run of the command line may do and what its exit code says ([Commands]). *)
From S2P Require Import Prelude Interact Json Types Domain Config Wire MemoryBundle Evidence Api Records Provenance Harness Remote Commands.
#[local] Open Scope Z_scope.

#[local] Abbreviation Cli := (Interact.Run cli_answer).
Definition cli_events : Type := list {e : CliAct & cli_answer e}.

(** ** Requests *)

(** No request, and requests of which only the last may post. *)
Fixpoint quiet {A} (m : Cli A) : Prop :=
  match m with Ret _ | Stuck => True | Do e k => (match e with KSend _ => False | _ => True end) ∧ ∀ v, quiet (k v) end.
Fixpoint orderly {A} (m : Cli A) : Prop :=
  match m with
  | Ret _ | Stuck => True
  | Do e k => match e return (cli_answer e → Cli A) → Prop with
              | KSend r => λ k, (mq_Method r = "GET" ∧ ∀ v, orderly (k v)) ∨ (mq_Method r = "POST" ∧ ∀ v, quiet (k v))
              | _ => λ k, ∀ v, orderly (k v)
              end k
  end.
Definition methods (h : cli_events) : list string := omap (λ i, match projT1 i with KSend r => Some (mq_Method r) | _ => None end) h.

Lemma methods_send r v h : methods (ev (KSend r) v :: h) = mq_Method r :: methods h.
Proof. done. Qed.
Lemma quiet_orderly {A} (m : Cli A) : quiet m → orderly m.
Proof. induction m as [a|e k IH|]; [done| |done]. intros [He Hk]. destruct e; (done || (intros w; by apply IH)). Qed.
Lemma still_bind {A B} (m : Cli A) (f : A → Cli B) : quiet m → (∀ a, quiet (f a)) → quiet (m ≫= f).
Proof. intros Hm Hf. induction m as [a|e k IH|]; [apply Hf| |done]. destruct Hm as [He Hk]. split; [done|]. intros v. by apply IH. Qed.
Lemma still_then {A B} (m : Cli A) (f : A → Cli B) : quiet m → (∀ a, orderly (f a)) → orderly (m ≫= f).
Proof.
  intros Hm Hf. induction m as [a|e k IH|]; [apply Hf| |done]. destruct Hm as [He Hk].
  destruct e; (done || (intros w; by apply IH)).
Qed.
Lemma quiet_leaf {A} (m : Cli A) : ∀ h a, quiet m → leaf m h a → methods h = [].
Proof. induction m as [b|e k IH|]; intros h a; [by intros _ [-> _]| |done]. intros [He Hk] (v & h' & -> & Hl). apply IH in Hl; [|done]. by destruct e. Qed.
Lemma orderly_leaf {A} (m : Cli A) : ∀ h a, orderly m → leaf m h a → ∃ n, methods h = replicate n "GET" ∨ methods h = replicate n "GET" ++ ["POST"].
Proof.
  induction m as [b|e k IH|]; intros h a; [intros _ [-> _]; exists 0%nat; by left| |done]. intros Ho (v & h' & -> & Hl).
  destruct e as [r| | | | | | | | | | | | | |]; try (by eapply IH in Hl).
  destruct Ho as [[Hr Hk]|[Hr Hk]].
  - apply IH in Hl as (n & Hn); [|done]. exists (S n). rewrite methods_send, Hr. destruct Hn as [->| ->]; [by left|by right].
  - exists 0%nat. right. by rewrite methods_send, Hr, (quiet_leaf _ _ _ (Hk v) Hl).
Qed.

(** ** Exit codes *)

(** An answer after which the command cannot report success. *)
Definition accepted (v : RemoteAnswer) : bool :=
  match v with Delivered status (Some b) => (200 <=? status) && (status <? 300) && (str_len b <=? maxManagementBytes) | _ => false end.
Definition fine (e : CliAct) : cli_answer e → bool :=
  match e with
  | KSend _ => accepted
  | KPrint _ | KUsage | KNotice _ | KContext | KTick => λ _, true
  | KLoad _ => λ r, match r with Ok _ => true | Err _ => false end
  | KNew _ => λ r, match r with Ok _ => true | Err _ => false end
  | KInput _ => is_some
  | KWrite _ _ | KConfigure _ _ | KLaunch _ _ _ => λ r, negb (is_some r)
  | KBundle _ => λ r, match r with Ok _ => true | Err _ => false end
  | KAdmin _ _ _ _ _ _ => λ r, match r with Ok _ => true | Err _ => false end
  | KSeal _ _ _ _ => λ r, negb (is_some r.2)
  end.
Fixpoint nonzero (m : Cli Z) : Prop := match m with Ret z => z ≠ 0 | Stuck => True | Do e k => ∀ v, nonzero (k v) end.
Fixpoint honest (m : Cli Z) : Prop :=
  match m with Ret _ | Stuck => True | Do e k => ∀ v, if fine e v then honest (k v) else nonzero (k v) end.
Lemma nonzero_leaf (m : Cli Z) : ∀ h a, nonzero m → leaf m h a → a ≠ 0.
Proof. induction m as [b|e k IH|]; intros h a; [by intros Hb [_ ->]| |done]. intros Hk (v & h' & _ & Hl). by eapply IH in Hl. Qed.
Lemma honest_leaf (m : Cli Z) : ∀ h, honest m → leaf m h 0 → Forall (λ i : {e : CliAct & cli_answer e}, fine (projT1 i) (projT2 i) = true) h.
Proof.
  induction m as [b|e k IH|]; intros h; [intros _ [-> _]; constructor| |done]. intros Hk (v & h' & -> & Hl). specialize (Hk v).
  destruct (fine e v) eqn:Hf; [|by apply (nonzero_leaf _ _ _ Hk) in Hl]. constructor; [done|]. by apply (IH v).
Qed.

(** ** Printing and refusing *)

Lemma output_ok v : quiet (output v) ∧ honest (output v).
Proof. split; [split; [done|intros []; exact I]|intros []; exact I]. Qed.
Lemma failure_ok status code message : status ≠ 0 → quiet (failure status code message) ∧ nonzero (failure status code message).
Proof. intros Hs. split; [split; [done|intros; exact I]|intros v; exact Hs]. Qed.
Lemma api_exit_range status : api_exit status ∈ [2; 3; 4; 5].
Proof. unfold api_exit. destruct (existsb _ _); [set_solver|]. destruct (existsb _ _); [set_solver|]. destruct (existsb _ _); set_solver. Qed.
Lemma report_ok e : quiet (report e) ∧ nonzero (report e).
Proof.
  destruct e as [status code message|e|message]; [|cbn [report]; destruct (bool_decide _)|]; apply failure_ok; try lia.
  pose proof (api_exit_range status) as Hr. intros Hz. rewrite Hz in Hr. set_solver.
Qed.
Lemma nonzero_honest m : nonzero m → honest m.
Proof. induction m as [b|e k IH|]; [done| |done]. intros Hk v. destruct (fine e v); [apply IH|]; apply Hk. Qed.

(** ** Commands *)

(** A continuation that posts nothing more, and one that may. *)
Section Conduct.
Context `{Sha256} `{NetParse} `{JSONText} `{JSONRender} `{JSONIndent} `{AnyValue} `{TimeText} `{AnyMember} `{SpanText} `{GoQuoted} (Sum : string → string).
Definition conducted (m : Cli Z) : Prop := quiet m ∧ honest m.
Definition proper (m : Cli Z) : Prop := orderly m ∧ honest m.
Lemma conducted_proper m : conducted m → proper m.
Proof. intros [Hq Hh]. split; [by apply quiet_orderly|done]. Qed.
Lemma output_settled v : conducted (output v).
Proof. apply output_ok. Qed.
Lemma failure_settled status code message : status ≠ 0 → conducted (failure status code message).
Proof. intros [Hq Hn]%(failure_ok status code message). split; [done|by apply nonzero_honest]. Qed.
Lemma report_settled e : conducted (report e).
Proof. destruct (report_ok e) as [Hq Hn]. split; [done|by apply nonzero_honest]. Qed.
(** One interaction that is no request: what follows a bad answer must fail. *)
Lemma local_settled e k : (match e with KSend _ => False | _ => True end) → (∀ v, quiet (k v) ∧ if fine e v then honest (k v) else nonzero (k v)) → conducted (act e ≫= k).
Proof. intros He Hk. split; [split; [done|]|]; intros v; apply Hk. Qed.
Lemma local_proper e k : (match e with KSend _ => False | _ => True end) → (∀ v, orderly (k v) ∧ if fine e v then honest (k v) else nonzero (k v)) → proper (act e ≫= k).
Proof. intros He Hk. split; [|intros v; apply Hk]. destruct e; (done || (intros w; apply Hk)). Qed.

Lemma read_answer_got {A} c (dec : decoder A) zero v a : read_answer c dec zero v = Got a → accepted v = true.
Proof.
  unfold read_answer, accepted. destruct v as [|[]|st [b|]]; try done. destruct (Z.gtb_spec (str_len b) maxManagementBytes); [done|].
  destruct (_ || _) eqn:Hst; [by destruct (refusal b)|]. bool_hyps. intros _. rewrite !andb_true_iff. split_and!; lia.
Qed.
(** A request of a fixed method, its answer handled by [k]. *)
Lemma asked_conduct {A} c method path idem ifm body (dec : decoder A) zero (k : Outcome A → Cli Z) (Q : Cli Z → Prop) :
  method = "GET" ∧ Q = orderly ∨ method = "POST" ∧ Q = quiet → (∀ m, quiet m → Q m) →
  (∀ a, Q (k (Got a)) ∧ honest (k (Got a))) → (∀ e, quiet (k (Refused e)) ∧ nonzero (k (Refused e))) → proper (remote_do send c method path idem ifm body dec zero ≫= k).
Proof.
  intros Hm HQ Hgot Href. unfold remote_do. destruct (negb _); [apply conducted_proper; split; [apply Href|apply nonzero_honest, Href]|].
  assert (∀ v, Q (k (read_answer c dec zero v)) ∧ if accepted v then honest (k (read_answer c dec zero v)) else nonzero (k (read_answer c dec zero v))) as Hv.
  { intros v. destruct (read_answer c dec zero v) as [a|e] eqn:Hr; [rewrite (read_answer_got _ _ _ _ _ Hr); apply Hgot|].
    destruct (Href e) as [Hq Hn]. split; [by apply HQ|]. destruct (accepted v); [by apply nonzero_honest|done]. }
  split; [|intros v; apply Hv]. cbn. destruct Hm as [[-> ->]|[-> ->]]; [left|right]; (split; [done|intros v; apply Hv]).
Qed.
Lemma ask_get {A} c path idem body (dec : decoder A) zero k : (∀ a, proper (k a)) → proper (ask_service c "GET" path idem body dec zero k).
Proof. intros Hk. unfold ask_service, Do_. apply (asked_conduct _ _ _ _ _ _ _ _ _ orderly); [by left|apply quiet_orderly|apply Hk|apply report_ok]. Qed.
Lemma ask_post {A} c path idem body (dec : decoder A) zero k : (∀ a, conducted (k a)) → proper (ask_service c "POST" path idem body dec zero k).
Proof. intros Hk. unfold ask_service, Do_. apply (asked_conduct _ _ _ _ _ _ _ _ _ quiet); [by right|done|apply Hk|apply report_ok]. Qed.
End Conduct.
Create HintDb cli discriminated.
#[export] Hint Resolve output_settled report_settled conducted_proper : cli.
#[export] Hint Extern 1 (conducted (failure _ _ _)) => (apply failure_settled; discriminate) : cli.
#[export] Hint Extern 1 (conducted (usage_error _)) => (apply failure_settled; discriminate) : cli.
#[export] Hint Extern 1 (conducted (report_error _)) => (apply report_settled) : cli.
#[export] Hint Extern 2 (proper _) => (apply conducted_proper) : cli.

(** Closes the conduct of a command by its structure. *)
Ltac conduct :=
  repeat first
    [ done
    | progress intros
    | progress cbn beta iota zeta
    | match goal with
      | |- proper (ask_service _ "GET" _ _ _ _ _ _) => apply ask_get
      | |- proper (ask_service _ "POST" _ _ _ _ _ _) => apply ask_post
      | |- conducted (output _) => apply output_settled
      | |- conducted (failure _ _ _) => apply failure_settled; discriminate
      | |- conducted (usage_error _) => apply failure_settled; discriminate
      | |- conducted (report_error _) => apply report_settled
      | |- conducted (report _) => apply report_settled
      | |- proper (output _) => apply conducted_proper
      | |- proper (failure _ _ _) => apply conducted_proper
      | |- proper (usage_error _) => apply conducted_proper
      | |- proper (report_error _) => apply conducted_proper
      | |- conducted (match ?c with _ => _ end) => destruct c
      | |- proper (match ?c with _ => _ end) => destruct c
      end ].

Section Programs.
Context `{Sha256} `{NetParse} `{JSONText} `{JSONRender} `{JSONIndent} `{AnyValue} `{TimeText} `{AnyMember} `{SpanText} `{GoQuoted} (Sum : string → string).

Lemma write_new_settled path data k : conducted k → conducted (write_new path data k).
Proof. intros [Kq Kh]. apply local_settled; [done|]. intros [e|]; [apply report_ok|done]. Qed.
Lemma export_artifact_settled path a : conducted (export_artifact Sum path a).
Proof. unfold export_artifact. destruct (artifact_refusal _ _); [conduct|]. apply write_new_settled. conduct. Qed.
Lemma fetch_proper c component id a k : (∀ x, conducted (k x)) → proper (fetch_artifact c component id a k).
Proof. intros Hk. unfold fetch_artifact. conduct. Qed.
Lemma run_artifact_proper c rest : proper (run_artifact Sum c rest).
Proof.
  unfold run_artifact. conduct; try (apply fetch_proper; intros); try apply conducted_proper; apply export_artifact_settled.
Qed.
Lemma run_export_source_proper c rest : proper (run_export_source c rest).
Proof. unfold run_export_source. conduct; apply conducted_proper, write_new_settled; conduct. Qed.
Lemma run_read_proper c command rest : proper (run_read c command rest).
Proof. unfold run_read. conduct. Qed.
Lemma with_file_proper {A} wrong rest (dec : decoder A) zero k : conducted wrong → (∀ a, proper (k a)) → proper (with_file wrong rest dec zero k).
Proof.
  intros Hw Hk. unfold with_file. destruct (only_flags _ _) as [fs|]; [|by apply conducted_proper]. destruct (_ =s _); [by apply conducted_proper|].
  unfold readJSON. apply (local_proper (KInput _)); [done|]. intros [docs|]; cbn [is_some fine].
  - destruct (one_document _ _ _ _ _); [apply Hk|]. destruct (failure_settled 2 "invalid" (error_text e)) as [Hq Hh]; [done|]. split; [by apply quiet_orderly|done].
  - destruct (failure_ok 2 "invalid" "cannot open JSON input") as [Hq Hn]; [done|]. split; [by apply quiet_orderly|exact Hn].
Qed.
Lemma post_plan_proper c d : proper (post_plan c d).
Proof. unfold post_plan. conduct. Qed.
Lemma run_apply_proper c rest : proper (run_apply c rest).
Proof. unfold run_apply. conduct. Qed.
Lemma wait_proper polls c path : proper (wait polls c path).
Proof.
  induction polls as [|polls IH]; [done|]. cbn [wait]. unfold Do_. apply (asked_conduct _ _ _ _ _ _ _ _ _ orderly); [by left|apply quiet_orderly| |].
  - intros op. destruct (Terminal _); [split; [by intros|intros v; exact I]|]. apply (local_proper KTick); [done|]. intros [e|]; cbn [fine]; [|apply IH].
    destruct (report_settled (Expired e)) as [Hq Hh]. split; [by apply quiet_orderly|done].
  - intros e. split; [split; [done|]|]; intros [x|]; apply report_ok.
Qed.
Lemma run_cancel_proper c path : proper (run_cancel c path).
Proof.
  unfold run_cancel. apply ask_get. intros op. unfold DoRevision. destruct (_ =? 0); [apply conducted_proper, report_settled|].
  apply (asked_conduct _ _ _ _ _ _ _ _ _ quiet); [by right|done|intros v; apply output_settled|apply report_ok].
Qed.
Lemma run_operation_proper polls c command rest : proper (run_operation polls c command rest).
Proof. unfold run_operation. conduct; [apply wait_proper|apply run_cancel_proper]. Qed.
Lemma run_inspect_proper c component command args : proper (run_inspect c component command args).
Proof. unfold run_inspect. conduct. Qed.
Lemma refuse_invalid_proper r k : proper k → proper (refuse_invalid r k).
Proof. intros Hk. unfold refuse_invalid. conduct. Qed.
Lemma runMemory_proper c command args : proper (runMemory c command args).
Proof.
  unfold runMemory. conduct; [apply run_inspect_proper|..]; (apply with_file_proper; [conduct|intros]); conduct; apply refuse_invalid_proper; conduct.
Qed.
Lemma runPerformance_proper c command args : proper (runPerformance c command args).
Proof.
  unfold runPerformance. conduct; [apply run_inspect_proper|]. apply with_file_proper; [conduct|]. conduct; apply refuse_invalid_proper; conduct; apply post_plan_proper.
Qed.
Lemma runMemorySeal_settled args : conducted (runMemorySeal args).
Proof.
  unfold runMemorySeal. conduct; apply (local_settled (KSeal _ _ _ _)); [done|]. intros [sha [e|]]; cbn [fine is_some negb snd]; [|apply output_settled].
  split; [split; [done|]|]; intros [x|]; try (apply failure_ok; discriminate); [split; [done|by intros]|by intros v].
Qed.
Lemma configure_settled b directory name : conducted (configure b directory name).
Proof. apply (local_settled (KConfigure _ _)); [done|]. intros [e|]; [apply report_ok|apply output_settled]. Qed.
Lemma runRemoteHarness_proper c args : proper (runRemoteHarness Sum c args).
Proof. unfold runRemoteHarness. conduct; [apply conducted_proper, write_new_settled; conduct|apply conducted_proper, configure_settled]. Qed.
Lemma runLocalHarness_settled args : conducted (runLocalHarness args).
Proof.
  unfold runLocalHarness. conduct.
  - apply (local_settled (KBundle _)); [done|]. intros [b|e]; cbn [fine]; [|apply report_ok].
    destruct (bn_Harness b <>s _); [exact (failure_settled 2 _ _ ltac:(discriminate))|apply configure_settled].
  - apply (local_settled (KNotice _)); [done|]. intros u. apply (local_settled (KLaunch _ _ _)); [done|]. intros [e|]; [apply report_ok|done].
Qed.
Lemma runAdmin_settled args : conducted (runAdmin args).
Proof. unfold runAdmin. conduct; apply (local_settled (KAdmin _ _ _ _ _ _)); [done|]. intros [v|e]; [apply output_settled|apply report_ok]. Qed.
Lemma run_command_proper polls c command rest : proper (run_command Sum polls c command rest).
Proof.
  unfold run_command. conduct; auto using run_artifact_proper, run_export_source_proper, run_read_proper, runMemory_proper, runPerformance_proper, run_operation_proper, runRemoteHarness_proper, run_apply_proper.
  unfold run_plan. apply with_file_proper; [conduct|]. apply post_plan_proper.
Qed.
Lemma run_remote_proper polls fs command rest : proper (run_remote Sum polls fs command rest).
Proof.
  unfold run_remote. cbv zeta.
  assert (∀ cfg : result ClientConfig, proper match cfg with Err e => report_error e | Ok cfg => c ← act (KNew (overridden fs cfg)); match (c : result RemoteClient) with Err e => report_error e | Ok c => run_command Sum polls c command rest end end) as Hk.
  { intros [cfg|e]; [|conduct]. apply (local_proper (KNew _)); [done|]. intros [c|e]; cbn [fine]; [apply run_command_proper|].
    destruct (report_ok (Unavailable (error_text e))) as [Hq Hn]. split; [by apply quiet_orderly|exact Hn]. }
  destruct (flag_text "context" fs =s ""); [apply (Hk (Ok _))|]. apply (local_proper (KLoad _)); [done|]. intros [cfg|e]; cbn [fine]; [apply (Hk (Ok cfg))|].
  destruct (report_ok (Unavailable (error_text e))) as [Hq Hn]. split; [by apply quiet_orderly|exact Hn].
Qed.
(** The commands that never talk to the service. *)
Definition local_command (fs : list (string * FlagValue)) (args : list string) : Prop := ∃ command rest, args = command :: rest ∧
  (command ∈ ["admin"; "memory-seal"] ∨ command = "harness" ∧ ∃ more, rest = "launch" :: more).
Lemma cli_Run_proper polls args : proper (cli_Run Sum polls args) ∧
  ∀ fs rest, parse_flags global_flags args = Ok (fs, rest) → local_command fs rest → quiet (cli_Run Sum polls args).
Proof.
  unfold cli_Run. assert (conducted shown_usage) as Hu by (split; [split; [done|by intros]|by intros]).
  destruct (parse_flags global_flags args) as [[fs rest]|e] eqn:Hp; [|split; [apply conducted_proper; destruct (bool_decide _); [done|conduct]|done]].
  assert (∀ m : Cli Z, conducted m → proper m ∧ ∀ fs' rest', Ok (fs, rest) = Ok (fs', rest') → local_command fs' rest' → quiet m) as Hs.
  { intros m Hm. split; [by apply conducted_proper|]. intros. apply Hm. }
  destruct rest as [|command rest]; [by apply Hs|]. destruct (str_in command _); [by apply Hs|]. destruct (_ || _); [apply Hs; conduct|].
  destruct (String.eqb_spec command "admin") as [->|Hadmin]; [apply Hs, runAdmin_settled|].
  destruct (String.eqb_spec command "memory-seal") as [->|Hseal]; [apply Hs, runMemorySeal_settled|].
  assert (∀ fs' rest', Ok (fs, command :: rest) = Ok (fs', rest') → local_command fs' rest' → command = "harness" ∧ ∃ more, rest = "launch" :: more) as Hl.
  { intros fs' rest' [= <- <-] (w & r & [= <- <-] & [Hw|Hw]); [|done]. unfold list_to_set in Hw. apply elem_of_cons in Hw as [->|Hw%list_elem_of_singleton]; congruence. }
  destruct rest as [|action more]; [split; [apply run_remote_proper|]; intros fs' rest' He Hc; by destruct (Hl _ _ He Hc) as (_ & ? & [=])|].
  destruct ((command =s "harness") && _) eqn:Hh; [apply Hs, runLocalHarness_settled|]. split; [apply run_remote_proper|].
  intros fs' rest' He Hc. destruct (Hl _ _ He Hc) as (-> & m & [= -> ->]). by rewrite String.eqb_refl in Hh.
Qed.

(** C10: The command line posts at most once.  Whatever the service, the files and the clock
    answer, a run sends only GET requests and at most one POST, as its last request; it never
    repeats one that changes something.  Administration, sealing and the launch of a client
    send nothing at all. *)
Theorem cli_posts_once polls args h code : leaf (cli_Run Sum polls args) h code →
  (∃ n, methods h = replicate n "GET" ∨ methods h = replicate n "GET" ++ ["POST"]) ∧
  ∀ fs rest, parse_flags global_flags args = Ok (fs, rest) → local_command fs rest → methods h = [].
Proof.
  intros Hl. destruct (cli_Run_proper polls args) as [[Ho _] Hq]. split; [by eapply orderly_leaf|]. intros fs rest Hp Hc. by eapply quiet_leaf; [eapply Hq|].
Qed.
(** C33: Exit code 0 hides no failure: every request was answered with a success status within
    the limit, every configuration, credential, input and bundle was read, every file was
    written, and the administration, the sealing, the configuration of a bundle and the launch
    reported no error. *)
Theorem cli_zero_honest polls args h : leaf (cli_Run Sum polls args) h 0 → Forall (λ i : {e : CliAct & cli_answer e}, fine (projT1 i) (projT2 i) = true) h.
Proof. intros Hl. destruct (cli_Run_proper polls args) as [[_ Hh] _]. by apply (honest_leaf _ _ Hh). Qed.
End Programs.

(** ** Every run ends *)

(** The waits of a run that were not the end of its context. *)
Definition ticks (h : cli_events) : nat := length (List.filter (λ i : {e : CliAct & cli_answer e}, match i with existT KTick None => true | _ => false end) h).
Section Ends.
Context `{Sha256} `{NetParse} `{JSONText} `{JSONRender} `{JSONIndent} `{AnyValue} `{TimeText} `{AnyMember} `{SpanText} `{GoQuoted} (Sum : string → string).
(** Whatever is answered, a run that has not ended has waited [n] times. *)
Definition patient {A} (n : nat) (m : Cli A) : Prop := ∀ h, starved m h → ticks h = n.
Lemma patient_total {A} n (m : Cli A) : total m → patient n m.
Proof. intros Ht h Hs. by apply total_starved in Hs. Qed.
Lemma waits_app h h' : ticks (h ++ h') = (ticks h + ticks h')%nat.
Proof. unfold ticks. by rewrite List.filter_app, length_app. Qed.
Lemma ask_total {A} c method path idem body (dec : decoder A) zero k : (∀ a, total (k a)) → total (ask_service c method path idem body dec zero k).
Proof. intros Hk. unfold ask_service, Do_, remote_do, send. total; try apply Hk; unfold report, failure; total. Qed.
Lemma output_total v : total (output v).
Proof. by intros []. Qed.
Lemma failure_total status code message : total (failure status code message).
Proof. by intros v. Qed.
Lemma reported_total e : total (report e).
Proof. destruct e; [|cbn; destruct (bool_decide _)|]; apply failure_total. Qed.
Lemma wait_patient polls c path : patient polls (wait polls c path).
Proof.
  induction polls as [|polls IH]; intros h; cbn [wait]; [by intros ->|]. intros Hs. apply starved_bind in Hs as [Hs|(h1 & out & h2 & -> & Hl & Hs)].
  - exfalso. revert Hs. apply total_starved. unfold Do_, remote_do, send. total.
  - assert (ticks h1 = 0)%nat as Hz.
    { unfold Do_, remote_do, send in Hl. destruct (negb _); [by destruct Hl as [-> _]|]. by apply leaf_bind in Hl as (h3 & v & h4 & -> & (v' & h5 & -> & [-> ->]) & [-> ->]). }
    rewrite waits_app, Hz. cbn [Nat.add]. destruct out as [op|e].
    + destruct (Terminal _); [exfalso; revert Hs; apply total_starved; by intros v|]. apply starved_bind in Hs as [(v & h' & -> & [])|(h3 & x & h4 & -> & (v & h5 & -> & [-> ->]) & Hs)].
      destruct v as [e|]; [exfalso; revert Hs; apply total_starved, reported_total|]. apply IH in Hs. cbn [app]. change (ticks (ev KTick None :: h4)) with (S (ticks h4)). by rewrite Hs.
    + exfalso. revert Hs. apply total_starved. intros [x|]; apply reported_total.
Qed.
End Ends.
Ltac ends :=
  repeat first
    [ done
    | progress intros
    | progress cbn beta iota zeta
    | match goal with
      | |- total (ask_service _ _ _ _ _ _ _ _) => apply ask_total
      | |- total (output _) => apply output_total
      | |- total (failure _ _ _) => apply failure_total
      | |- total (usage_error _) => apply failure_total
      | |- total (report_error _) => apply reported_total
      | |- total (report _) => apply reported_total
      | |- total (mbind _ _) => apply total_bind
      | |- total (mret _) => exact I
      | |- total (act _) => intro; exact I
      | |- total (match ?c with _ => _ end) => destruct c
      end ].
Section EndsAll.
Context `{Sha256} `{NetParse} `{JSONText} `{JSONRender} `{JSONIndent} `{AnyValue} `{TimeText} `{AnyMember} `{SpanText} `{GoQuoted} (Sum : string → string).
Lemma run_command_patient polls c command rest : patient polls (run_command Sum polls c command rest).
Proof.
  assert (total (run_artifact Sum c rest)) by (unfold run_artifact, fetch_artifact, export_artifact, write_new; ends).
  assert (total (run_export_source c rest)) by (unfold run_export_source, write_new; ends).
  assert (total (run_read c command rest)) by (unfold run_read; ends).
  assert (total (runMemory c command rest)) by (unfold runMemory, run_inspect, with_file, readJSON, refuse_invalid; ends).
  assert (total (runPerformance c command rest)) by (unfold runPerformance, run_inspect, with_file, readJSON, refuse_invalid, post_plan; ends).
  assert (total (run_plan c rest)) by (unfold run_plan, with_file, readJSON, post_plan; ends).
  assert (total (run_apply c rest)) by (unfold run_apply; ends).
  assert (total (runRemoteHarness Sum c rest)) by (unfold runRemoteHarness, write_new, configure; ends).
  unfold run_command. repeat (match goal with |- patient _ (if ?b then _ else _) => destruct b end; [try (by apply patient_total)|]); [|apply patient_total, failure_total].
  unfold run_operation. destruct rest as [|id []]; [apply patient_total; ends| |apply patient_total; ends]. destruct (negb _); [apply patient_total; ends|].
  cbv zeta. destruct (command =s "wait"); [apply wait_patient|]. apply patient_total. unfold run_cancel, DoRevision, remote_do, send. ends.
Qed.
Lemma patient_act {A} n e (k : cli_answer e → Cli A) : e ≠ KTick → (∀ v, patient n (k v)) → patient n (act e ≫= k).
Proof. intros He Hk h (v & h' & -> & Hs). apply Hk in Hs. rewrite <- Hs. by destruct e. Qed.
Lemma run_remote_patient polls fs command rest : patient polls (run_remote Sum polls fs command rest).
Proof.
  unfold run_remote. cbv zeta.
  assert (∀ cfg : result ClientConfig, patient polls match cfg with Err e => report_error e | Ok cfg => c ← act (KNew (overridden fs cfg)); match (c : result RemoteClient) with Err e => report_error e | Ok c => run_command Sum polls c command rest end end) as Hk.
  { intros [cfg|e]; [|apply patient_total; ends]. apply patient_act; [done|]. intros [c|e]; [apply run_command_patient|apply patient_total; ends]. }
  destruct (_ =s ""); [exact (Hk (Ok _))|]. by apply patient_act.
Qed.
(** A run of the command line ends.  It makes a bounded number of interactions, except for
    [wait], which polls as often as the ticker fires: a run that has not ended after [polls]
    polls has seen the ticker fire, and not the deadline, that many times. *)
Theorem cli_ends polls args h : starved (cli_Run Sum polls args) h → ticks h = polls.
Proof.
  assert (total shown_usage) by ends. assert (∀ args, total (runAdmin args)) by (intros; unfold runAdmin; ends).
  assert (∀ args, total (runMemorySeal args)) by (intros; unfold runMemorySeal; ends).
  assert (∀ args, total (runLocalHarness args)) by (intros; unfold runLocalHarness, configure; ends).
  revert h. change (patient polls (cli_Run Sum polls args)). unfold cli_Run.
  destruct (parse_flags _ _) as [[fs rest]|e]; [|apply patient_total; ends]. destruct rest as [|command rest]; [by apply patient_total|].
  repeat (match goal with |- patient _ (if ?b then _ else _) => destruct b end; [by apply patient_total; auto using failure_total|]).
  destruct rest as [|action more]; [apply run_remote_patient|]. destruct (_ && _); [by apply patient_total|apply run_remote_patient].
Qed.
End EndsAll.

(** ** A concrete service *)

Module CliFixture.
#[export] Instance digest : Sha256 := λ _, "digest".
#[export] Instance times : TimeText := λ _, Some 0.
#[export] Instance members : AnyMember := id.
#[export] Instance spans : SpanText := λ s, if s =s "1m" then Some Minute else None.
#[export] Instance quotes : GoQuoted := id.
#[export] Instance shows : JSONIndent := λ _, "text".
#[export] Instance renders : JSONRender := λ _, "text".
#[export] Instance values : AnyValue := λ _, None.
#[export] Instance parser : NetParse := {| ParseIP _ := None; SplitHostPort _ := None; EqualFold := String.eqb; url_Parse _ := None |}.
Definition operation (state : string) : JSON := JObject [
  ("id", JString "op"); ("state", JString state); ("revision", JInt 7); ("plan", JObject [("draft", JObject [("action", JString "profile.switch")])]); ("events", JArray [])].
#[export] Instance documents : JSONText := λ s, Some [operation s].
Definition id32 : string := "0123456789abcdef0123456789abcdef".
Definition service (state : string) (e : CliAct) : cli_answer e :=
  match e with
  | KSend _ => Delivered 200 (Some state)
  | KPrint _ => true
  | KUsage | KNotice _ => tt
  | KLoad _ => Err ErrIO
  | KNew _ => Ok (mkRemoteClient "https://gpu.example" "key" 30 false)
  | KInput _ => None
  | KWrite _ _ | KConfigure _ _ | KLaunch _ _ _ => None
  | KBundle _ => Err ErrIO
  | KAdmin _ _ _ _ _ _ => Ok JNull
  | KSeal _ _ _ _ => ("", None)
  | KContext | KTick => Some DeadlineExceeded
  end.
Definition run (state : string) (args : list string) := play (service state) (cli_Run (λ s, s) 3 args).
Definition exit_of (r : option (list {e : CliAct & cli_answer e} * Z)) : option Z := snd <$> r.
(** The requests of a run with their conditions. *)
Definition posted (r : option (list {e : CliAct & cli_answer e} * Z)) : list (string * string) :=
  match r with
  | Some (h, _) => omap (λ i, match projT1 i with
                              | KSend q => Some (mq_Method q, default "" (snd <$> List.find (λ kv, kv.1 =s "If-Match") (mq_Header q)))
                              | _ => None end) h
  | None => []
  end.
Example wait_exits : (λ s, exit_of (run s ["wait"; id32])) <$> ["succeeded"; "failed"; "recovery-required"; "running"] = [Some 0; Some 6; Some 7; Some 8].
Proof. vm_compute. reflexivity. Qed.
End CliFixture.
Import CliFixture.
(** A cancellation reads the operation and posts once, for the revision it has read. *)
Lemma cli_posts_once_witness : posted (run "running" ["--deadline"; "1m"; "cancel"; id32]) = [("GET", ""); ("POST", quotation +:+ "7" +:+ quotation)] ∧
  ∃ h, run "running" ["--deadline"; "1m"; "cancel"; id32] = Some (h, 0) ∧ ∃ n, methods h = replicate n "GET" ∨ methods h = replicate n "GET" ++ ["POST"].
Proof.
  split; [vm_compute; reflexivity|]. assert (exit_of (run "running" ["--deadline"; "1m"; "cancel"; id32]) = Some 0) as He by (vm_compute; reflexivity).
  destruct (run "running" ["--deadline"; "1m"; "cancel"; id32]) as [[h z]|] eqn:Hr; [|discriminate He]. injection He as ->. exists h. split; [reflexivity|].
  exact (proj1 (cli_posts_once (λ s, s) 3 ["--deadline"; "1m"; "cancel"; id32] h 0 (play_leaf _ _ _ _ Hr))).
Defined.
Lemma cli_zero_honest_witness : ∃ h, run "succeeded" ["wait"; id32] = Some (h, 0) ∧ Forall (λ i : {e : CliAct & cli_answer e}, fine (projT1 i) (projT2 i) = true) h.
Proof.
  assert (exit_of (run "succeeded" ["wait"; id32]) = Some 0) as He by (vm_compute; reflexivity).
  destruct (run "succeeded" ["wait"; id32]) as [[h z]|] eqn:Hr; [|discriminate He]. injection He as ->. exists h. split; [reflexivity|].
  exact (cli_zero_honest (λ s, s) 3 ["wait"; id32] h (play_leaf _ _ _ _ Hr)).
Defined.
(** The history of a run that has not ended. *)
Fixpoint unfinished {A} (o : ∀ e, cli_answer e) (m : Cli A) : option cli_events :=
  match m with Ret _ => None | Stuck => Some [] | Do e k => cons (ev e (o e)) <$> unfinished o (k (o e)) end.
Lemma unfinished_starved {A} o (m : Cli A) : ∀ h, unfinished o m = Some h → starved m h.
Proof.
  induction m as [a|e k IH|]; intros h; cbn; [done| |by intros [= <-]]. destruct (unfinished o (k (o e))) as [h'|] eqn:Hu; [|done].
  intros [= <-]. exists (o e), h'. split; [done|]. by apply IH.
Qed.
(** A service that stays busy, and a deadline that does not come. *)
Definition patience (e : CliAct) : cli_answer e := match e with KTick => None | e => service "running" e end.
Lemma cli_ends_witness : ∃ h, unfinished patience (cli_Run (λ s, s) 3 ["wait"; id32]) = Some h ∧ ticks h = 3%nat.
Proof.
  destruct (unfinished patience (cli_Run (λ s, s) 3 ["wait"; id32])) as [h|] eqn:Hu; [|exfalso; revert Hu; vm_compute; discriminate].
  exists h. split; [reflexivity|]. exact (cli_ends (λ s, s) 3 ["wait"; id32] h (unfinished_starved _ _ _ Hu)).
Defined.
