(* ===== verification/Sealing.v ===== *)
(** The evidence directories themselves ([internal/memory/seal.go], [evidence.go] and
    [internal/performance/bundle.go]): reading and hashing a bundle of a disk, sealing it with
    a new manifest, and copying it into a new directory.

    [MemoryBundle] and [PerfBundle] decide what a sealed bundle is from what is read; here
    the reading is from a [Disk] of [Provenance], and writing may fail at any point. *)
From S2P Require Import Prelude MemoryBundle PerfBundle Json Types Config Wire Evidence Api HostPolicy Provenance Harness.
#[local] Open Scope Z_scope.

Section Sealing.
Context `{Sha256} `{JSONText} `{JSONIndent} (Sum : string → string).
#[local] Abbreviation entry d l := (dk_entries d !! l).

(** ** Reading *)

(** The path and all its parents are there and none is a link. *)
Definition unlinked_path (d : Disk) (l : list string) : bool :=
  forallb (λ k, match entry d (take k l) with Some (ELink _ _) | None => false | Some _ => true end) (seq 0 (S (length l))).
Definition bounded_content (d : Disk) (l : list string) (limit : Z) : result string :=
  match entry d l with
  | Some (EFile _ _ c) => reject (str_len c >? limit) || dk_broken d l with Plain "memory file type or size refused" ;; Ok c
  | _ => Err (Plain "memory file type or size refused")
  end.
(** [memory.Read]. *)
Definition memory_Read (d : Disk) (l : list string) (limit : Z) : result string :=
  reject negb (unlinked_path d l) with Plain "memory evidence symlink refused" ;; bounded_content d l limit.
(** [safefile.CheckPath], and [Read]: what is there of the path has no links and leads
    through directories. *)
Definition check_path (d : Disk) (l : list string) : result unit :=
  reject existsb (λ k, match entry d (take k l) with Some (ELink _ _) => true | _ => false end) (seq 0 (S (length l))) with Plain "symlink paths are forbidden" ;;
  reject existsb (λ k, match entry d (take k l) with Some (EDir _ _) | None => false | Some _ => true end) (seq 0 (length l)) with ErrNotDir ;;
  Ok tt.
Definition disk_Read (d : Disk) (l : list string) (limit : Z) : result string := _ ← check_path d l; bounded_content d l limit.
(** [HashFile], unless its context ends. *)
Definition memory_MaxFile : Z := 256 * 2^20.
Definition HashFile (d : Disk) (l : list string) (stopped : bool) : option (string * Z) :=
  if stopped then None else match bounded_content d l memory_MaxFile with Ok c => Some (Sum c, str_len c) | Err _ => None end.

(** ** Verification *)

(** A directory as the walk visits it: itself, then what is below. *)
Definition visited (d : Disk) (root : list string) : list (list string * Provenance.Entry) :=
  match entry d root with Some e => if is_dir e then below d root else [([], e)] | None => [] end.
(** The walk: an entry whose context ended, or a directory that cannot be read, stops it. *)
Definition walked {A} (d : Disk) (root : list string) (ended : string → bool) (f : list string → Provenance.Entry → A) : list (option A) :=
  flat_map (λ v : list string * Provenance.Entry, (if ended (slash_path v.1) then None else Some (f v.1 v.2)) :: (if is_dir v.2 && dk_broken d (root ++ v.1) then [None] else []))
    (visited d root).

Definition MemoryManifest0 : MemoryBundle.Manifest := MemoryBundle.mkManifest 0 "" "" "" "" [] ∅.
Definition dec_MemoryManifest : decoder MemoryBundle.Manifest := dec_struct [
  at_key "schema" dec_int mf_Schema (λ x '(MemoryBundle.mkManifest _ b c d e f g), MemoryBundle.mkManifest x b c d e f g);
  at_key "kind" dec_string mf_Kind (λ x '(MemoryBundle.mkManifest a _ c d e f g), MemoryBundle.mkManifest a x c d e f g);
  at_key "boot_id" dec_string mf_BootID (λ x '(MemoryBundle.mkManifest a b _ d e f g), MemoryBundle.mkManifest a b x d e f g);
  at_key "hardware_sha256" dec_string mf_HardwareSHA256 (λ x '(MemoryBundle.mkManifest a b c _ e f g), MemoryBundle.mkManifest a b c x e f g);
  at_key "source_revision" dec_string mf_SourceRevision (λ x '(MemoryBundle.mkManifest a b c d _ f g), MemoryBundle.mkManifest a b c d x f g);
  at_key "observations" (dec_list "" dec_string) mf_Observations (λ x '(MemoryBundle.mkManifest a b c d e _ g), MemoryBundle.mkManifest a b c d e x g);
  at_key "files" (dec_map "" dec_string) mf_Files (λ x '(MemoryBundle.mkManifest a b c d e f _), MemoryBundle.mkManifest a b c d e f x)].
(** The encoder writes a nil slice as [null]. *)
Definition MemoryManifest_json (m : MemoryBundle.Manifest) : JSON := JObject [
  ("schema", JInt (mf_Schema m)); ("kind", JString (mf_Kind m)); ("boot_id", JString (mf_BootID m));
  ("hardware_sha256", JString (mf_HardwareSHA256 m)); ("source_revision", JString (mf_SourceRevision m));
  ("observations", match mf_Observations m with [] => JNull | l => JArray (JString <$> l) end); ("files", JMap JString (mf_Files m))].
Definition read_manifest (d : Disk) (root : list string) : result (string * result MemoryBundle.Manifest) :=
  b ← memory_Read d (root ++ ["manifest.json"]) (64 * 2^10);
  Ok (Sum b, Decode (λ v, dec_MemoryManifest v MemoryManifest0) (json_docs b)).
(** [memory.Verify]; [ended] tells at which entries the context has ended. *)
Definition memory_Verify (d : Disk) (root : list string) (want : string) (ended : string → bool) : result MemoryBundle.Manifest :=
  MemoryBundle.Verify (read_manifest d root)
    (walked d root ended (λ rel e, MemoryBundle.mkEntry (slash_path rel) (is_link e) (is_dir e) (HashFile d (root ++ rel) (ended (slash_path rel))))) want.
Definition performance_Verify (d : Disk) (root : list string) (want : string) (ended : string → bool) : result PerfBundle.Manifest :=
  PerfBundle.Verify Sum (λ name, disk_Read d (root ++ components name) PerfBundle.MaxFile) (disk_Read d (root ++ ["manifest.json"]) (64 * 2^10))
    (walked d root ended (λ rel e, mkPerfEntry (slash_path rel) (is_link e) (Z.land (entry_mode e) 511) (is_dir e) (disk_Read d (root ++ rel) PerfBundle.MaxFile))) want.

(** ** Copying *)

Definition ErrStopped : error := Plain "context canceled".
(** Where a new entry named [l] is made: its parent is followed through links. *)
Definition made_at (d : Disk) (l : list string) : result (list string) :=
  match l with [] => Err ErrIO | _ => q ← resolve d true 40 [] (removelast l); Ok (q ++ [List.last l ""]) end.
(** [os.MkdirAll] of [rel] below the directory [at_]; [made] tells which creations succeed. *)
Fixpoint make_parents (d : Disk) (uid : Z) (made : list string → bool) (at_ rel : list string) : Disk * result unit :=
  match rel with
  | [] => (d, Ok tt)
  | x :: rel =>
    let l := at_ ++ [x] in
    match entry d l with
    | Some (EDir _ _) => make_parents d uid made l rel
    | Some _ => (d, Err ErrNotDir)
    | None =>
      match Mkdir d uid l (made l) with
      | (d, Ok _) => make_parents d uid made l rel
      | (d, Err e) => (d, Err e)
      end
    end
  end.
(** What can be read of a source file, whose path [Verify] found free of links. *)
Definition source_content (d : Disk) (l : list string) : option string :=
  match entry d l with Some (EFile _ _ c) => if dk_broken d l then None else Some (take_bytes (memory_MaxFile + 1) c) | _ => None end.
(** One new file of the copy; a source that cannot be read leaves at most an empty file. *)
Definition copy_file (d : Disk) (uid : Z) (src dst : list string) (w : NewFile) : Disk * result unit :=
  match entry d src with
  | None => (d, Err ErrAbsent)
  | Some _ =>
    let '(d', r) := match source_content d src with
                    | Some c => WriteNewFile d uid dst c w
                    | None => WriteNewFile d uid dst "" (match w with NotCreated => NotCreated | _ => Partial 0 end)
                    end in
    (d', match r with Ok _ => Ok tt | Err _ => Err ErrIO end)
  end.
(** The loop over the names; [store] is how one file gets from its source to its place, and
    [stopped] tells at which names the loop finds its context ended. *)
Fixpoint copy_names (store : Disk → string → list string → Disk * result unit) (stopped : string → bool) (d : Disk) (uid : Z) (made : list string → bool) (dst : list string) (names : list string) : Disk * result unit :=
  match names with
  | [] => (d, Ok tt)
  | n :: names =>
    if stopped n then (d, Err ErrStopped) else
    match make_parents d uid made dst (removelast (components n)) with
    | (d, Err e) => (d, Err e)
    | (d, Ok _) =>
      match store d n (dst ++ components n) with
      | (d, Err e) => (d, Err e)
      | (d, Ok _) => copy_names store stopped d uid made dst names
      end
    end
  end.
(** [memory.Copy]; [ended] tells when its context ends in each verification, [synced] whether
    every directory of the copy is synced. *)
Definition memory_Copy (d : Disk) (uid : Z) (src dst : list string) (want : string) (ended : nat → string → bool) (made : list string → bool) (w : string → NewFile) (synced : bool) : Disk * result MemoryBundle.Manifest :=
  match memory_Verify d src want (ended 0%nat) with
  | Err e => (d, Err e)
  | Ok m =>
    match made_at d dst with
    | Err e => (d, Err e)
    | Ok real =>
      match Mkdir d uid real (made real) with
      | (d, Err e) => (d, Err e)
      | (d, Ok _) =>
        match copy_names (λ d n l, copy_file d uid (src ++ components n) l (w n)) (λ _, false) d uid made real (sort_strings ("manifest.json" :: elements (dom (mf_Files m)))) with
        | (d, Err e) => (d, Err e)
        | (d, Ok _) =>
          (d, _ ← memory_Verify d src want (ended 1%nat);
              _ ← memory_Verify d dst want (ended 2%nat);
              reject negb synced with ErrIO ;; Ok m)
        end
      end
    end
  end.

(** [safefile.CreateSecret] on a disk, for the account [uid] and no given owner: a failed
    write leaves part of the file only if it cannot be removed either. *)
Inductive SecretFile := SecretRefused | SecretFailed (n : Z) (owned removed : bool) | SecretCreated.
Definition secret_owner (uid owner : Z) : Z := if uid =? 0 then owner else uid.
Definition disk_CreateSecret (d : Disk) (uid : Z) (l : list string) (data : string) (w : SecretFile) : Disk * result unit :=
  match check_path d l with
  | Err e => (d, Err e)
  | Ok _ =>
    match entry d (removelast l) with
    | Some (EDir owner mode) =>
      if negb (Z.land mode 63 =? 0) then (d, Err (Plain "credential output directory must be owner-only (0700)")) else
      match entry d l, w with
      | Some _, _ | None, SecretRefused => (d, Err ErrIO)
      | None, SecretFailed n owned removed =>
        (if removed then d else make_entry d l (EFile (if owned then secret_owner uid owner else uid) 384 (take_bytes n data)), Err ErrIO)
      | None, SecretCreated => (make_entry d l (EFile (secret_owner uid owner) 384 data), Ok tt)
      end
    | _ => (d, Err ErrNotDir)
    end
  end.
(** [performance.Copy]; [order] is the order of the runtime's iteration over the files. *)
Definition performance_Copy (d : Disk) (uid : Z) (src dst : list string) (want : string) (ended : nat → string → bool) (stopped : string → bool) (made : list string → bool) (w : string → SecretFile) (order : list string → list string) : Disk * result unit :=
  match performance_Verify d src want (ended 0%nat) with
  | Err e => (d, Err e)
  | Ok m =>
    match check_path d dst with
    | Err e => (d, Err e)
    | Ok _ =>
      match Mkdir d uid dst (made dst) with
      | (d, Err e) => (d, Err e)
      | (d, Ok _) =>
        let store d n l :=
          match disk_Read d (src ++ components n) PerfBundle.MaxFile with
          | Err e => (d, Err e)
          | Ok b => disk_CreateSecret d uid l b (w n)
          end in
        match copy_names store stopped d uid made dst ("manifest.json" :: order (elements (dom (pm_Files m)))) with
        | (d, Err e) => (d, Err e)
        | (d, Ok _) => (d, _ ← performance_Verify d dst want (ended 1%nat); _ ← performance_Verify d src want (ended 2%nat); Ok tt)
        end
      end
    end
  end.

(** ** Sealing *)

(** What the walk of [Seal] collects: the identifiers of the observations and the digests. *)
Definition observation_of (rel : string) : option string :=
  match split_on "/"%char rel with
  | "observations" :: id :: _ :: _ => if MemoryBundle.ObservationID id then Some id else None
  | _ => None
  end.
Definition seal_entry (d : Disk) (root : list string) (ended : string → bool) (rel : list string) (e : Provenance.Entry) (seen : gset string * gmap string string) : result (gset string * gmap string string) :=
  reject is_link e || negb (Z.land (entry_mode e) 63 =? 0) with Plain "evidence must already be owner-private, without symlinks" ;;
  if is_dir e then Ok seen else
  reject slash_path rel =s "manifest.json" with Plain "evidence is already sealed; never overwrite its manifest" ;;
  let ids := match observation_of (slash_path rel) with Some id => {[id]} ∪ seen.1 | None => seen.1 end in
  match HashFile d (root ++ rel) (ended (slash_path rel)) with
  | Some (hash, _) => Ok (ids, <[slash_path rel := hash]> seen.2)
  | None => Err ErrIO
  end.
(** The manifest of what is there, and its file. *)
Definition sealed_manifest (d : Disk) (root : list string) (source hardware boot : string) (ended : string → bool) : result MemoryBundle.Manifest :=
  '(ids, files) ← WalkDir d (path_of root) (seal_entry d root ended) (∅, ∅);
  Ok (MemoryBundle.mkManifest 1 "sglang-memory-evidence" boot hardware source (sort_strings (elements ids)) files).
(** [Seal]; its root is canonical and absolute, which [clean] tells.  The hash comes with the
    error of a bundle that is retained although [Verify] refuses it. *)
Definition Seal (d : Disk) (uid : Z) (clean : bool) (root : list string) (source hardware boot : string) (ended : nat → string → bool) (w : SecretFile) : Disk * (string * option error) :=
  if negb clean then (d, ("", Some (Plain "evidence directory must be canonical and absolute"))) else
  match check_path d root with
  | Err e => (d, ("", Some e))
  | Ok _ =>
    if negb (MemoryBundle.Digest source) || negb (MemoryBundle.Digest hardware) then (d, ("", Some (Plain "source revision and hardware SHA-256 are required"))) else
    match sealed_manifest d root source hardware boot (ended 0%nat) with
    | Err e => (d, ("", Some e))
    | Ok m =>
      let b := put_text (MemoryManifest_json m) in
      match disk_CreateSecret d uid (root ++ ["manifest.json"]) b w with
      | (d, Err e) => (d, ("", Some e))
      | (d, Ok _) =>
        (d, (Sum b, match memory_Verify d root (Sum b) (ended 1%nat) with
                    | Ok _ => None
                    | Err _ => Some (Plain "sealed evidence retained but invalid; inspect its bounded layout, do not approve it")
                    end))
      end
    end
  end.
End Sealing.
