(* ===== verification/Sealed.v ===== *)
(** What the evidence directories may be relied on for ([Sealing]): writing changes nothing
    that exists, a finished copy holds exactly the bytes of its source, and a sealed bundle
    lists every file that was there. *)
From stdpp Require Import sorting.
From S2P Require Import Prelude FileTree MemoryBundle PerfBundle Json Types Config Wire Evidence Api HostPolicy Provenance Trust Harness Launch Planning Sealing.
#[local] Open Scope Z_scope.
#[local] Abbreviation entry d l := (dk_entries d !! l).
#[local] Abbreviation plain l := (Forall (λ n, plain_name n = true) l).

(** ** Writing below a directory *)

(** What was there stays, and what is new lies at or below [at_]. *)
Definition within (at_ : list string) (d d' : Disk) : Prop := kept d d' ∧ ∀ l, entry d' l = entry d l ∨ at_ `prefix_of` l.
#[local] Instance within_refl at_ : Reflexive (within at_).
Proof. intros d. split; [split; [done|auto]|by left]. Qed.
#[local] Instance within_trans at_ : Transitive (within at_).
Proof.
  intros d d' d'' [[K1 K2] K3] [[L1 L2] L3]. split; [split; [congruence|auto]|]. intros l.
  destruct (L3 l) as [->|]; [|by right]. apply K3.
Qed.
Lemma within_kept at_ d d' : within at_ d d' → kept d d'.
Proof. by intros []. Qed.
Lemma within_weaken a b d d' : a `prefix_of` b → within b d d' → within a d d'.
Proof. intros Hp [K1 K2]. split; [done|]. intros l. destruct (K2 l) as [->|Hb]; [by left|right; by trans b]. Qed.
Lemma within_make a l d e : a `prefix_of` l → entry d l = None → within a d (make_entry d l e).
Proof.
  intros Hp Hn. split; [by apply make_entry_new|]. intros l'. destruct (decide (l' = l)) as [->|]; [by right|]. left. cbn. by rewrite lookup_insert_ne.
Qed.
Lemma within_creates a l d d' : a `prefix_of` l → creates d l d' → within a d d'.
Proof. intros Hp [->|(e & Hn & _ & ->)]; [done|by apply within_make]. Qed.
#[local] Hint Resolve prefix_app_r : core.

Lemma make_parents_within uid made rel : ∀ at_ d d' r, make_parents d uid made at_ rel = (d', r) → within at_ d d'.
Proof.
  induction rel as [|x rel IH]; intros at_ d d' r; cbn [make_parents]; [by intros [= <- <-]|]. cbv zeta.
  assert (at_ `prefix_of` at_ ++ [x]) as Hp by auto. destruct (entry d (at_ ++ [x])) as [[]|]; try (by intros [= <- <-]).
  - intros Hr. eapply within_weaken; [done|]. by eapply IH.
  - destruct (Mkdir d uid (at_ ++ [x]) _) as [d1 [[]|e]] eqn:Hm; apply Mkdir_creates in Hm as [Hc _].
    + intros Hr. trans d1; [by eapply within_creates|]. eapply within_weaken; [done|]. by eapply IH.
    + intros [= <- <-]. by eapply within_creates.
Qed.

(** One file of a loop: [store] keeps to its place and does what [stored] says. *)
Section Loop.
Context (store : Disk → string → list string → Disk * result unit) (stored : Disk → Disk → string → list string → Prop).
Hypothesis store_ok : ∀ d n l d' r, store d n l = (d', r) → within l d d' ∧ (r = Ok tt → stored d d' n l).
Lemma copy_names_within stopped uid made dst names : ∀ d d' r, copy_names store stopped d uid made dst names = (d', r) →
  within dst d d' ∧ (r = Ok tt → ∀ n, n ∈ names → ∃ d0 d1, kept d d0 ∧ stored d0 d1 n (dst ++ components n) ∧ kept d1 d').
Proof.
  induction names as [|n names IH]; intros d d' r; cbn [copy_names]; [intros [= <- <-]; split; [done|by intros _ n ?%elem_of_nil]|].
  destruct (stopped n); [by intros [= <- <-]|].
  destruct (make_parents d uid made dst _) as [d1 [[]|e]] eqn:Hm; apply make_parents_within in Hm; [|by intros [= <- <-]].
  destruct (store d1 n _) as [d2 [[]|e]] eqn:Hs; apply store_ok in Hs as [Hw Hst]; apply (within_weaken dst) in Hw; auto.
  - intros Hr. apply IH in Hr as [K1 K2]. split; [by trans d1; [|trans d2]|]. intros Hok x [->|Hx]%elem_of_cons.
    + exists d1, d2. split; [by eapply within_kept|]. split; [by apply Hst|by eapply within_kept].
    + destruct (K2 Hok x Hx) as (d3 & d4 & L1 & L2 & L3). exists d3, d4. split; [|done].
      etransitivity; [by eapply within_kept|]. etransitivity; [by eapply within_kept|done].
  - intros [= <- <-]. split; [by trans d1|done].
Qed.
End Loop.

(** ** Names *)

Lemma NoDup_omap_inj {A B} (f : A → option B) l : (∀ x y z, f x = Some z → f y = Some z → x ∈ l → y ∈ l → x = y) → NoDup l → NoDup (omap f l).
Proof.
  intros Hf Hn. induction Hn as [|x l Hx Hn IH]; [constructor|]. cbn [omap list_omap]. assert (NoDup (omap f l)) as Hl.
  { apply IH. intros a b z Ha Hb Hia Hib. by eapply Hf; [..|apply list_elem_of_further|apply list_elem_of_further]. }
  destruct (f x) as [z|] eqn:Hz; [|done]. constructor; [|done]. rewrite list_elem_of_omap. intros (y & Hy & Hz').
  apply Hx. by rewrite (Hf x y z Hz Hz' (list_elem_of_here _ _) (list_elem_of_further _ _ _ Hy)).
Qed.
Lemma omap_sublist {A B} (f : A → option B) (g : A → B) l : (∀ a b, f a = Some b → b = g a) → omap f l `sublist_of` g <$> l.
Proof.
  intros Hf. induction l as [|a l IH]; [done|]. cbn [omap list_omap fmap list_fmap]. destruct (f a) as [b|] eqn:Ha; [rewrite (Hf a b Ha); by constructor|by constructor].
Qed.
Lemma below_distinct d q : NoDup (below d q).*1.
Proof.
  unfold below. set (l := merge_sort path_le _). assert (NoDup l) as Hl.
  { unfold l. rewrite merge_sort_Permutation. apply NoDup_omap_inj; [|apply NoDup_map_to_list].
    intros [k e] [k' e'] z; cbn [fst]. case_bool_decide as Hk; [|done]. intros [= <-]. case_bool_decide as Hk'; [|done]. intros [= Hz] Hi Hi'.
    assert (k = k') as -> by (rewrite <- (take_drop (length q) k), <- (take_drop (length q) k'); congruence).
    apply elem_of_map_to_list in Hi, Hi'. congruence. }
  eapply sublist_NoDup; [exact Hl|]. clear Hl. generalize l. clear l. intros l. induction l as [|x l IH]; [done|]. cbn [omap list_omap].
  destruct (entry d (q ++ x)); cbn; by constructor.
Qed.
Lemma slash_components rel : plain rel → rel ≠ [] → components (slash_path rel) = rel.
Proof.
  intros Hp Hne. unfold components. destruct rel as [|x rel]; [done|]. unfold slash_path.
  change (split_on "/"%char (String.concat "/" (x :: rel))) with (parts (join_path (x :: rel))). rewrite parts_join by done. by apply filter_plain.
Qed.
Lemma slash_inj a b : plain a → plain b → slash_path a = slash_path b → a = b.
Proof.
  assert (∀ l, plain l → l ≠ [] → slash_path l ≠ ".") as Hdot.
  { intros l Hp Hne Hd. pose proof (slash_components l Hp Hne) as Hc. rewrite Hd in Hc. change (components ".") with ["."] in Hc. subst l. by apply Forall_inv in Hp. }
  intros Ha Hb Hs. destruct (decide (a = [])) as [->|Hna], (decide (b = [])) as [->|Hnb]; [done|by destruct (Hdot b)|by destruct (Hdot a)|].
  by rewrite <- (slash_components a), Hs, slash_components.
Qed.

(** ** What a verification has read *)

Section Verified.
Context `{Sha256} `{JSONText} `{JSONIndent} (Sum : string → string).
Lemma visited_entry d root rel e : (rel, e) ∈ visited d root → entry d (root ++ rel) = Some e.
Proof.
  unfold visited. destruct (entry d root) as [e'|] eqn:He; [|by intros ?%elem_of_nil]. destruct (is_dir e'); [apply elem_of_disk_below|].
  intros [= -> ->]%list_elem_of_singleton. by rewrite app_nil_r.
Qed.
Lemma visited_plain d root : named_disk d → Forall (λ v : list string * Provenance.Entry, plain v.1) (visited d root).
Proof. intros Hn. apply Forall_forall. intros [rel e] Hi%visited_entry. by apply Hn, Forall_app in Hi as [_ ?]. Qed.
Lemma visited_distinct d root : named_disk d → NoDup ((λ v : list string * Provenance.Entry, slash_path v.1) <$> visited d root).
Proof.
  intros Hn. pose proof (visited_plain d root Hn) as Hp. rewrite Forall_forall in Hp. assert (NoDup (visited d root).*1) as Hd.
  { unfold visited. destruct (entry d root) as [e|]; [|constructor]. destruct (is_dir e); [apply below_distinct|apply NoDup_singleton]. }
  revert Hp Hd. generalize (visited d root). intros l. induction l as [|v l IH]; [constructor|]. intros Hp. cbn. intros [Hv Hd]%NoDup_cons. constructor.
  - intros (w & Hs & Hw)%list_elem_of_fmap. apply slash_inj in Hs; [|by apply Hp, list_elem_of_here|by apply Hp, list_elem_of_further].
    apply Hv. rewrite Hs. apply list_elem_of_fmap. by exists w.
  - apply IH; [|done]. intros x Hx. by apply Hp, list_elem_of_further.
Qed.
Lemma walked_elem {A} d root ended (f : list string → Provenance.Entry → A) a :
  a ∈ omap id (walked d root ended f) → ∃ rel e, entry d (root ++ rel) = Some e ∧ a = f rel e.
Proof.
  rewrite list_elem_of_omap. intros (o & Ho & Hid). cbv [id] in Hid. subst o. unfold walked in Ho. apply list_elem_of_In, in_flat_map in Ho as ([rel e] & Hi & Ho).
  apply list_elem_of_In, visited_entry in Hi. exists rel, e. split; [done|]. apply list_elem_of_In in Ho. cbn [fst snd] in Ho.
  apply elem_of_cons in Ho as [Ho|Ho]; [destruct (ended _); congruence|]. destruct (_ && _); [|by apply elem_of_nil in Ho]. by apply list_elem_of_singleton in Ho.
Qed.
Lemma walked_sublist {A} d root ended (f : list string → Provenance.Entry → A) :
  omap id (walked d root ended f) `sublist_of` (λ v : list string * Provenance.Entry, f v.1 v.2) <$> visited d root.
Proof.
  unfold walked. induction (visited d root) as [|v l IH]; [done|]. cbn [flat_map fmap list_fmap]. rewrite omap_app.
  assert (omap id (if is_dir v.2 && dk_broken d (root ++ v.1) then [@None A] else []) = []) as Hb by (by destruct (_ && _)).
  destruct (ended _); cbn [app omap list_omap]; cbv [id]; fold (@id (option A)); rewrite Hb; by constructor.
Qed.
Lemma bounded_content_ok d l limit c : bounded_content d l limit = Ok c → ∃ u m, entry d l = Some (EFile u m c) ∧ dk_broken d l = false ∧ str_len c ≤ limit.
Proof.
  unfold bounded_content. destruct (entry d l) as [[|u m c'| |]|]; try done. destruct (_ || _) eqn:Hb; [done|]. intros [= ->]. exists u, m. bool_hyps. split; [done|]. split; [done|lia].
Qed.
Lemma HashFile_ok d l stopped hash n : HashFile Sum d l stopped = Some (hash, n) → ∃ u m c, entry d l = Some (EFile u m c) ∧ dk_broken d l = false ∧ hash = Sum c ∧ n = str_len c ∧ n ≤ memory_MaxFile.
Proof.
  unfold HashFile. destruct stopped; [done|]. destruct (bounded_content _ _ _) as [c|] eqn:Hc; [|done]. intros [= <- <-].
  apply bounded_content_ok in Hc as (u & m & Hc & Hb & Hl). by exists u, m, c.
Qed.
Lemma list_filter_sublist {A} (p : A → bool) l : List.filter p l `sublist_of` l.
Proof. induction l as [|a l IH]; [done|]. cbn. destruct (p a); by constructor. Qed.

(** The digest of a content that was read whole. *)
Definition file_at (d : Disk) (l : list string) (c : string) : Prop := ∃ u m, entry d l = Some (EFile u m c) ∧ dk_broken d l = false ∧ str_len c ≤ memory_MaxFile.
Lemma memory_Verify_ok d root want ended m : named_disk d → memory_Verify Sum d root want ended = Ok m →
  (∃ b, file_at d (root ++ ["manifest.json"]) b ∧ Sum b = want ∧ Decode (λ v, dec_MemoryManifest v MemoryManifest0) (json_docs b) = Ok m) ∧
  (∀ n hash, mf_Files m !! n = Some hash → ∃ c, file_at d (root ++ components n) c ∧ hash = Sum c).
Proof.
  intros Hn Hv. unfold memory_Verify in Hv. apply Verify_verified in Hv as [Hr Hvf].
  - split.
    + unfold read_manifest in Hr. apply bind_ok in Hr as (b & Hb & [= Hw Hd]). exists b. split; [|done]. unfold memory_Read in Hb.
      destruct (negb _); [done|]. apply bounded_content_ok in Hb as (u & md & He & Hbr & Hlen). exists u, md. split; [done|]. split; [done|]. unfold memory_MaxFile. lia.
    + intros n hash Hf. pose proof (proj1 (vf_files _ _ Hvf n hash) Hf) as (e & k & He & Hp & Hh). apply list_elem_of_In, List.filter_In in He as [He Hc].
      apply list_elem_of_In, walked_elem in He as (rel & x & Hx & ->). cbn [en_Path en_Hash en_Dir] in *.
      apply HashFile_ok in Hh as (u & md & c & Hc' & Hbr & -> & -> & Hlen). exists c. split; [|done].
      assert (root ++ components n = root ++ rel) as ->; [|by exists u, md]. rewrite <- Hp.
      assert (rel ≠ [] → components (slash_path rel) = rel) as Hs by (apply slash_components; by apply Hn, Forall_app in Hx as [_ ?]).
      destruct rel as [|y rel]; [|by rewrite Hs]. rewrite app_nil_r in Hx.
      exfalso. apply (vf_names _ _ Hvf) in Hf as [_ [Hb|(id & f & _ & _ & Ho)]]; [|by rewrite <- Hp in Ho].
      rewrite <- Hp in Hb. revert Hb. apply (bool_decide_unpack (slash_path [] ∉ baseline_allowed)). vm_compute. exact I.
  - eapply sublist_NoDup; [exact (visited_distinct d root Hn)|]. unfold bundle_files.
    etransitivity; [apply fmap_sublist, list_filter_sublist|]. etransitivity; [apply fmap_sublist, walked_sublist|].
    rewrite <- list_fmap_compose. reflexivity.
Qed.

(** ** Copies *)

Lemma copy_file_ok d uid src dst w d' r : copy_file d uid src dst w = (d', r) →
  within dst d d' ∧ (r = Ok tt → ∃ u m c, entry d src = Some (EFile u m c) ∧ entry d' dst = Some (EFile uid 384 (take_bytes (memory_MaxFile + 1) c))).
Proof.
  unfold copy_file, source_content. destruct (entry d src) as [e|] eqn:He; [|by intros [= <- <-]].
  destruct e as [|u m c| |]; try destruct (dk_broken d src);
    (match goal with |- context [WriteNewFile d uid dst ?data ?w'] => destruct (WriteNewFile d uid dst data w') as [d1 r1] eqn:Hw end; intros [= <- <-];
     apply WriteNewFile_creates in Hw as Hc; destruct Hc as [Hc Hok]; split; [by eapply within_creates|]); destruct r1 as [[]|]; try done;
    try (exfalso; revert Hw; unfold WriteNewFile; destruct (entry d dst), (entry d (removelast dst)) as [[]|], w; done).
  intros _. exists u, m, c. split; [done|]. by apply Hok.
Qed.
Lemma resolve_straight d follow n l : ∀ cur q, resolve d follow n cur l = Ok q → plain l → (∀ k u t, (0 < k)%nat → entry d (cur ++ take k l) ≠ Some (ELink u t)) → q = cur ++ l.
Proof.
  induction l as [|x l IH]; intros cur q; [rewrite disk_resolve_nil, app_nil_r; by intros [= ->]|]. intros Hr [Hx Hl]%Forall_cons Hk. rewrite disk_resolve_plain in Hr by done.
  pose proof (λ u t, Hk 1%nat u t ltac:(lia)) as Hk1. cbn [take] in Hk1. rewrite take_0 in Hk1. destruct (entry d (cur ++ [x])) as [[u m|u m c|u t|u m]|] eqn:He; [| |by destruct (Hk1 u t)| |done].
  - change (x :: l) with ([x] ++ l). rewrite app_assoc. apply IH; [done..|]. intros k u' t' Hk'. rewrite <- app_assoc. apply (Hk (S k)). lia.
  - destruct l; [congruence|done].
  - destruct l; [congruence|done].
Qed.
Lemma unlinked_path_ok d l : unlinked_path d l = true → ∀ k u t, entry d (take k l) ≠ Some (ELink u t).
Proof.
  unfold unlinked_path. intros Hl k u t He. rewrite forallb_forall in Hl. destruct (decide (k ≤ length l)%nat) as [Hk|Hk].
  - specialize (Hl k). rewrite He in Hl. discriminate Hl. apply in_seq. lia.
  - specialize (Hl (length l)). rewrite firstn_all in Hl. rewrite take_ge in He by lia. rewrite He in Hl. discriminate Hl. apply in_seq. lia.
Qed.
Lemma memory_Verify_manifest d root want ended m : memory_Verify Sum d root want ended = Ok m →
  unlinked_path d (root ++ ["manifest.json"]) = true ∧
  ∃ b u md, entry d (root ++ ["manifest.json"]) = Some (EFile u md b) ∧ Sum b = want ∧ Decode (λ v, dec_MemoryManifest v MemoryManifest0) (json_docs b) = Ok m.
Proof.
  unfold memory_Verify, MemoryBundle.Verify, read_manifest, memory_Read. intros Hv. apply bind_ok in Hv as ([sum decoded] & (b & Hb & [= <- <-])%bind_ok & Hv).
  destruct (unlinked_path _ _); [|done]. split; [done|]. apply bounded_content_ok in Hb as (u & md & He & _ & _).
  destruct (negb (MemoryBundle.Digest want) || (Sum b <>s want)) eqn:Hw; [done|]. apply bind_ok in Hv as (m' & Hm & Hv). bool_hyps. exists b, u, md. split; [done|]. split; [done|].
  repeat (match type of Hv with (if ?c then _ else _) = _ => destruct c; [discriminate Hv|] | _ ≫= _ = Ok _ => apply bind_ok in Hv as (? & _ & Hv) end). congruence.
Qed.
Lemma take_bytes_all n c : str_len c ≤ n → take_bytes n c = c.
Proof.
  revert n. induction c as [|a c IH]; intros n Hn; cbn [take_bytes]; [done|]. unfold str_len in *. cbn [String.length] in Hn.
  destruct (n <=? 0) eqn:Hz; [lia|]. rewrite IH by lia. done.
Qed.
(** What the loop of [memory_Copy] does with one name. *)
Definition memory_stored (uid : Z) (src : list string) (d d' : Disk) (n : string) (l : list string) : Prop :=
  ∃ u m c, entry d (src ++ components n) = Some (EFile u m c) ∧ entry d' l = Some (EFile uid 384 (take_bytes (memory_MaxFile + 1) c)).
Lemma made_unlinked d d' l real : plain l → kept d d' → made_at d l = Ok real → unlinked_path d' (l ++ ["manifest.json"]) = true → real = l.
Proof.
  intros Hp [_ Hk] Hm Hu. unfold made_at in Hm. destruct l as [|x l]; [done|]. set (p := removelast (x :: l)) in *.
  assert (x :: l = p ++ [List.last (x :: l) ""]) as Hl by (by apply app_removelast_last). apply bind_ok in Hm as (q & Hq & [= <-]).
  apply resolve_straight in Hq as ->; [by rewrite app_nil_l|rewrite Hl in Hp; by apply Forall_app in Hp as [? _]|].
  intros k u t Hk0 He. rewrite app_nil_l in He. destruct (decide (k ≤ length p)%nat) as [Hle|Hgt].
  - apply (unlinked_path_ok _ _ Hu k u t). apply Hk. rewrite Hl, <- app_assoc, take_app_le by done. done.
  - rewrite take_ge in He by lia. apply (unlinked_path_ok _ _ Hu (length p) u t). apply Hk. rewrite Hl, <- app_assoc, take_app_length. done.
Qed.
(** C23: [memory.Copy] preserves evidence.  Whatever fails, nothing that exists changes and new
    entries lie in the new directory only; a destination that exists is refused untouched; and
    a copy that succeeds was made of a verified bundle, verifies itself as the same one, and
    has, for the manifest and every file it lists, exactly the bytes of the source in a file
    that only the account can read. *)
Theorem Copy_faithful d uid src dst want ended made w synced d' r :
  named_disk d → plain dst → memory_Copy Sum d uid src dst want ended made w synced = (d', r) →
  (d' = d ∨ ∃ real, made_at d dst = Ok real ∧ entry d real = None ∧ within real d d') ∧
  (∀ real, made_at d dst = Ok real → is_Some (entry d real) → d' = d ∧ ∀ m, r ≠ Ok m) ∧
  (∀ m, r = Ok m → memory_Verify Sum d src want (ended 0%nat) = Ok m ∧ memory_Verify Sum d' dst want (ended 2%nat) = Ok m ∧ entry d dst = None ∧
    ∀ n, n = "manifest.json" ∨ n ∈ dom (mf_Files m) → ∃ c, file_at d (src ++ components n) c ∧ entry d' (dst ++ components n) = Some (EFile uid 384 c)).
Proof.
  intros Hn Hpd. unfold memory_Copy. destruct (memory_Verify Sum d src want (ended 0%nat)) as [m0|] eqn:Hv0; [|intros [= <- <-]; split; [by left|done]].
  destruct (made_at d dst) as [real|] eqn:Hreal; [|intros [= <- <-]; split; [by left|done]].
  destruct (Mkdir d uid real (made real)) as [d1 [[]|e]] eqn:Hmk; apply Mkdir_creates in Hmk as [Hc Hnew]; [|intros [= <- <-]; split; [|split; [|done]]].
  2: destruct Hc as [->|(e' & Hnone & Hdir & ->)]; [by left|right; exists real; split; [done|]; split; [done|]; by apply within_make].
  2: intros real' [= <-] [x Hx]; destruct Hc as [->|(e' & Hnone & _)]; [done|congruence].
  destruct (Hnew eq_refl) as [Hnone _]. assert (within real d d1) as Hw1 by (by eapply within_creates).
  destruct (copy_names _ _ _ _ _ _ _) as [d2 r2] eqn:Hcopy.
  apply (copy_names_within _ (memory_stored uid src)) in Hcopy as [Hw2 Hst]; [|intros *; apply copy_file_ok].
  assert (within real d d2) as Hw by (by trans d1).
  intros Hr. assert (d' = d2 ∧ ∀ m, r = Ok m → m0 = m ∧ r2 = Ok tt ∧ ∃ m2, memory_Verify Sum d2 dst want (ended 2%nat) = Ok m2) as [-> Hok].
  { destruct r2 as [[]|e2]; [|by injection Hr as <- <-]. injection Hr as <- <-. split; [done|]. intros m (m1 & _ & (m2 & Hv2 & Hs)%bind_ok)%bind_ok.
    destruct (negb synced); [done|]. injection Hs as ->. eauto. }
  split; [right; by exists real|]. split; [intros real' [= <-] [x Hx]; congruence|].
  intros m Hm. destruct (Hok m Hm) as (-> & Hr2 & m2 & Hv2). specialize (Hst Hr2).
  destruct (memory_Verify_manifest _ _ _ _ _ Hv2) as (Hu & b2 & u2 & md2 & Hb2 & Hsum2 & Hdec2).
  assert (real = dst) as -> by (eapply made_unlinked; [..|exact Hu]; [done|by eapply within_kept|done]).
  destruct (memory_Verify_ok _ _ _ _ _ Hn Hv0) as [(b & Hb & Hsum & Hdec) Hfiles].
  assert (∀ n, n = "manifest.json" ∨ n ∈ dom (mf_Files m) → ∃ c, file_at d (src ++ components n) c ∧ entry d2 (dst ++ components n) = Some (EFile uid 384 c)) as Hall.
  { intros n Hin. assert (∃ c, file_at d (src ++ components n) c) as (c & u & md & Hx & Hbr & Hlen).
    { destruct Hin as [->|[hash Hh]%elem_of_dom]; [by exists b|]. destruct (Hfiles n hash Hh) as (c & Hx & _). by exists c. }
    exists c. split; [by exists u, md|]. destruct (Hst n) as (d3 & d4 & [_ K1] & (u' & md' & c' & Hx' & Hd) & [_ K2]).
    { unfold sort_strings. rewrite merge_sort_Permutation. destruct Hin as [->|Hin]; [apply list_elem_of_here|by apply list_elem_of_further, elem_of_elements]. }
    destruct (within_kept _ _ _ Hw1) as [_ K0]. apply K0, K1 in Hx. rewrite Hx in Hx'. injection Hx' as <- <- <-.
    rewrite take_bytes_all in Hd by lia. by apply K2. }
  split; [done|]. split; [|done]. rewrite Hv2. destruct (Hall "manifest.json") as (c & (u & md & Hx & _) & Hd); [by left|].
  destruct Hb as (u' & md' & Hb & _). change (components "manifest.json") with ["manifest.json"] in *. congruence.
Qed.

(** The same of [performance.Copy], whose files are read whole within their limit. *)
Lemma disk_CreateSecret_ok d uid l data w d' r : disk_CreateSecret d uid l data w = (d', r) →
  (d' = d ∨ ∃ u c, entry d l = None ∧ d' = make_entry d l (EFile u 384 c)) ∧
  (r = Ok tt → check_path d l = Ok tt ∧ entry d l = None ∧ ∃ u owner mode, d' = make_entry d l (EFile u 384 data) ∧ entry d (removelast l) = Some (EDir owner mode) ∧ Z.land mode 63 = 0).
Proof.
  unfold disk_CreateSecret. destruct (check_path d l) as [[]|]; [|intros [= <- <-]; split; [by left|done]].
  destruct (entry d (removelast l)) as [[owner mode| | |]|] eqn:Hp; try (intros [= <- <-]; split; [by left|done]).
  destruct (Z.land mode 63 =? 0) eqn:Hm; cbn [negb]; [|intros [= <- <-]; split; [by left|done]]. destruct (entry d l) eqn:Hl; [intros [= <- <-]; split; [by left|done]|].
  destruct w as [|n owned removed|]; intros [= <- <-]; (split; [|try done]); try (by left).
  - destruct removed; [by left|]. right. by eexists _, _.
  - right. by eexists _, _.
  - intros _. split; [done|]. split; [done|]. eexists _, owner, mode. split; [done|]. split; [done|lia].
Qed.
Lemma secret_within d uid l data w d' r : disk_CreateSecret d uid l data w = (d', r) → within l d d'.
Proof. intros Hs. apply disk_CreateSecret_ok in Hs as [[->|(u & c & Hn & ->)] _]; [done|by apply within_make]. Qed.
Definition performance_stored (src : list string) (d d' : Disk) (n : string) (l : list string) : Prop :=
  kept d d' ∧ ∃ u u' m c, entry d (src ++ components n) = Some (EFile u m c) ∧ entry d' l = Some (EFile u' 384 c).
Theorem performance_Copy_faithful d uid src dst want ended stopped made w order d' r :
  (∀ l, order l ≡ₚ l) → performance_Copy Sum d uid src dst want ended stopped made w order = (d', r) →
  within dst d d' ∧ (is_Some (entry d dst) → d' = d ∧ r ≠ Ok tt) ∧
  (r = Ok tt → ∃ m m', performance_Verify Sum d src want (ended 0%nat) = Ok m ∧ performance_Verify Sum d' dst want (ended 1%nat) = Ok m' ∧ entry d dst = None ∧
    ∀ n, n = "manifest.json" ∨ n ∈ dom (pm_Files m) → ∃ u u' mode c, entry d' (src ++ components n) = Some (EFile u mode c) ∧ entry d' (dst ++ components n) = Some (EFile u' 384 c)).
Proof.
  intros Ho. unfold performance_Copy. destruct (performance_Verify Sum d src want _) as [m|] eqn:Hv; [|by intros [= <- <-]].
  destruct (check_path d dst) as [[]|]; [|by intros [= <- <-]].
  destruct (Mkdir d uid dst (made dst)) as [d1 [[]|e]] eqn:Hmk; [|intros [= <- <-]].
  2: { unfold Mkdir in Hmk. destruct (entry d dst), (entry d (removelast dst)) as [[]|], (made dst); by injection Hmk as <-. }
  apply Mkdir_creates in Hmk as [Hc Hnew]. destruct (Hnew eq_refl) as [Hnone _]. assert (within dst d d1) as Hw1 by (by eapply within_creates).
  cbv zeta. destruct (copy_names _ _ _ _ _ _ _) as [d2 r2] eqn:Hcopy.
  apply (copy_names_within _ (performance_stored src)) in Hcopy as [Hw2 Hst].
  2: { intros d0 n l d3 r3. destruct (disk_Read d0 _ _) as [b|] eqn:Hb; [|by intros [= <- <-]]. intros Hs. apply secret_within in Hs as Hw. split; [done|]. intros Hok.
    apply disk_CreateSecret_ok in Hs as [_ Hs]. destruct (Hs Hok) as (_ & _ & u & _ & _ & -> & _). apply bind_ok in Hb as ([] & _ & (u' & md & He & _ & Hlen)%bounded_content_ok).
    split; [by eapply within_kept|]. exists u', u, md, b. split; [done|]. apply lookup_insert_eq. }
  intros Hr. assert (d' = d2 ∧ (r = Ok tt → r2 = Ok tt ∧ ∃ m', performance_Verify Sum d2 dst want (ended 1%nat) = Ok m')) as [-> Hok].
  { destruct r2 as [[]|e2]; [|by injection Hr as <- <-]. injection Hr as <- <-. split; [done|]. intros (m' & Hm' & _)%bind_ok. eauto. }
  split; [by trans d1|]. split; [intros [x Hx]; congruence|]. intros Hr2. destruct (Hok Hr2) as [Hr3 [m' Hm']]. exists m, m'. do 3 (split; [done|]).
  intros n Hn. destruct (Hst Hr3 n) as (d3 & d4 & _ & ([_ K3] & u & u' & md & c & Hs & Hd) & [_ K]).
  { rewrite Ho. destruct Hn as [->|Hn]; [apply list_elem_of_here|by apply list_elem_of_further, elem_of_elements]. }
  exists u, u', md, c. split; [by apply K, K3|by apply K].
Qed.

(** ** Seals *)

Lemma MemoryManifest_decoded m : mf_Schema m = 1 → dec_MemoryManifest (MemoryManifest_json m) MemoryManifest0 = Some m.
Proof.
  destruct m as [s k b h r o f]. cbn [mf_Schema]. intros ->. unfold dec_MemoryManifest, MemoryManifest_json, MemoryManifest0. cbv beta iota delta [dec_struct]. cbn [mf_Schema mf_Kind mf_BootID mf_HardwareSHA256 mf_SourceRevision mf_Observations mf_Files].
  repeat (erewrite dec_field; [|reflexivity|first [reflexivity|apply dec_string_map|destruct o; [reflexivity|apply dec_strings]]]). reflexivity.
Qed.
(** What the walk has put into the manifest. *)
Lemma seal_walk d root ended l : ∀ ids files ids' files', walk_entries d (seal_entry Sum d root ended) root l (ids, files) = Ok (ids', files') →
  NoDup ((λ v : list string * Provenance.Entry, slash_path v.1) <$> l) →
  (∀ n, n ∉ ((λ v : list string * Provenance.Entry, slash_path v.1) <$> l) → files' !! n = files !! n) ∧
  (∀ rel e, (rel, e) ∈ l → is_link e = false ∧ Z.land (entry_mode e) 63 = 0 ∧
    (if is_dir e then files' !! slash_path rel = files !! slash_path rel else slash_path rel ≠ "manifest.json" ∧ ∃ c, file_at d (root ++ rel) c ∧ files' !! slash_path rel = Some (Sum c))).
Proof.
  induction l as [|[rel e] l IH]; intros ids files ids' files'; cbn [walk_entries]; [intros [= <- <-] _; split; [done|by intros ? ? ?%elem_of_nil]|].
  intros ([ids1 files1] & Hs & Hr)%bind_ok. destruct (is_dir e && _); [done|]. cbn [fmap list_fmap fst]. intros [Hni Hnd]%NoDup_cons.
  unfold seal_entry in Hs. destruct (is_link e || _) eqn:Hl; [done|]. bool_hyps. destruct (IH _ _ _ _ Hr Hnd) as [K1 K2].
  destruct (is_dir e) eqn:Hd.
  - injection Hs as <- <-. split; [intros n Hn; apply K1; intros Hin; by apply Hn, list_elem_of_further|]. intros r x [[= -> ->]|Hx]%elem_of_cons; [|by apply K2].
    split; [done|]. split; [lia|]. rewrite Hd. by apply K1.
  - destruct (String.eqb_spec (slash_path rel) "manifest.json") as [|Hm]; [done|]. cbv zeta in Hs. destruct (HashFile _ _ _ _) as [[hash n]|] eqn:Hh; [|done]. injection Hs as <- <-.
    apply HashFile_ok in Hh as (u & md & c & Hc & Hb & -> & -> & Hlen). split.
    + intros k Hk. apply not_elem_of_cons in Hk as [Hk1 Hk2]. rewrite K1 by done. by rewrite lookup_insert_ne.
    + intros r x [[= -> ->]|Hx]%elem_of_cons.
      * split; [done|]. split; [lia|]. rewrite Hd. split; [done|]. exists c. split; [by exists u, md|]. rewrite K1 by done. apply lookup_insert_eq.
      * destruct (K2 r x Hx) as (L1 & L2 & L3). split; [done|]. split; [done|]. destruct (is_dir x); [|done]. rewrite L3. cbn [snd]. rewrite lookup_insert_ne; [done|].
        intros Heq. apply Hni. rewrite Heq. apply list_elem_of_fmap. by exists (r, x).
Qed.
Lemma check_path_ok d l : check_path d l = Ok tt → ∀ k u t, entry d (take k l) ≠ Some (ELink u t).
Proof.
  unfold check_path. destruct (existsb _ (seq 0 (S (length l)))) eqn:Hl; [done|]. intros _ k u t He. apply existsb_false in Hl. rewrite Forall_forall in Hl.
  destruct (decide (k ≤ length l)%nat) as [Hk|Hk].
  - specialize (Hl k). rewrite He in Hl. discriminate Hl. apply list_elem_of_In, in_seq. lia.
  - specialize (Hl (length l)). rewrite firstn_all in Hl. rewrite take_ge in He by lia. rewrite He in Hl. discriminate Hl. apply list_elem_of_In, in_seq. lia.
Qed.
(** The manifest of a directory: everything below is private and no link, and the files it
    lists are those that are there, with their digests. *)
Definition lists (d : Disk) (root : list string) (m : MemoryBundle.Manifest) : Prop :=
  (∀ rel e, entry d (root ++ rel) = Some e → is_link e = false ∧ Z.land (entry_mode e) 63 = 0) ∧
  ∀ n hash, mf_Files m !! n = Some hash ↔ ∃ rel c, n = slash_path rel ∧ file_at d (root ++ rel) c ∧ hash = Sum c.
Lemma sealed_manifest_ok d root source hardware boot ended m : named_disk d → plain root → check_path d root = Ok tt → (∃ u md, entry d root = Some (EDir u md)) →
  sealed_manifest Sum d root source hardware boot ended = Ok m →
  mf_Schema m = 1 ∧ mf_SourceRevision m = source ∧ mf_HardwareSHA256 m = hardware ∧ mf_BootID m = boot ∧ lists d root m.
Proof.
  intros Hn Hp Hcp (u & md & Hroot). unfold sealed_manifest. intros ([ids files] & Hw & [= <-])%bind_ok. do 4 (split; [done|]). cbn [mf_Files].
  unfold WalkDir in Hw. rewrite components_path in Hw by done. apply bind_ok in Hw as ([q e] & Hq & Hw). unfold named in Hq. apply bind_ok in Hq as (q' & Hr & Hq).
  apply resolve_straight in Hr as ->; [|done|intros k u' t' _; rewrite app_nil_l; by apply check_path_ok]. rewrite app_nil_l, Hroot in Hq. injection Hq as <- <-. cbn [is_dir] in Hw.
  assert (visited d root = below d root) as Hvis by (unfold visited; by rewrite Hroot).
  pose proof (visited_distinct d root Hn) as Hd. rewrite Hvis in Hd. destruct (seal_walk _ _ _ _ _ _ _ _ Hw Hd) as [K1 K2].
  assert (∀ rel e, entry d (root ++ rel) = Some e → (rel, e) ∈ below d root) as Hin by (intros; by apply elem_of_disk_below).
  unfold lists. cbn [mf_Files]. split.
  - intros rel e He. by destruct (K2 rel e (Hin _ _ He)) as (? & ? & _).
  - intros n hash. split.
    + intros Hf. destruct (decide (n ∈ (λ v : list string * Provenance.Entry, slash_path v.1) <$> below d root)) as [Hi|Hi]; [|by rewrite K1, lookup_empty in Hf].
      apply list_elem_of_fmap in Hi as ([rel e] & -> & Hi). cbn [fst] in *. destruct (K2 rel e Hi) as (_ & _ & K). destruct (is_dir e); [by rewrite K, lookup_empty in Hf|].
      destruct K as (_ & c & Hc & Hl). exists rel, c. split; [done|]. split; [done|]. congruence.
    + intros (rel & c & -> & (u' & md' & Hc & _) & ->). destruct (K2 rel _ (Hin _ _ Hc)) as (_ & _ & K). cbn [is_dir] in K. destruct K as (_ & c' & (u2 & md2 & Hc' & _) & Hl). congruence.
Qed.
(** C22: [Seal] never overwrites and hides nothing.  Whatever fails, the only change is a new
    manifest.json, readable by the account alone, in the directory itself; what is sealed
    already is refused untouched.  A seal that succeeds names the revision, hardware and boot
    it was given, found nothing but private directories and files, lists exactly the files
    that are there under their digests, and is accepted by [Verify] under the hash returned,
    as that manifest. *)
Theorem Seal_sealed d uid clean root source hardware boot ended w d' hash err :
  named_disk d → plain root → Seal Sum d uid clean root source hardware boot ended w = (d', (hash, err)) →
  (d' = d ∨ ∃ u c, entry d (root ++ ["manifest.json"]) = None ∧ d' = make_entry d (root ++ ["manifest.json"]) (EFile u 384 c)) ∧
  (is_Some (entry d (root ++ ["manifest.json"])) → d' = d ∧ err ≠ None) ∧
  (err = None → ∃ m u, let text := put_text (MemoryManifest_json m) in sealed_manifest Sum d root source hardware boot (ended 0%nat) = Ok m ∧
    d' = make_entry d (root ++ ["manifest.json"]) (EFile u 384 text) ∧ hash = Sum text ∧
    mf_SourceRevision m = source ∧ mf_HardwareSHA256 m = hardware ∧ mf_BootID m = boot ∧ lists d root m ∧
    (json_docs text = Some [MemoryManifest_json m] → memory_Verify Sum d' root hash (ended 1%nat) = Ok m)).
Proof.
  intros Hn Hp. unfold Seal. destruct (negb clean); [intros [= <- <- <-]; split; [by left|done]|].
  destruct (check_path d root) as [[]|] eqn:Hcp; [|intros [= <- <- <-]; split; [by left|done]].
  destruct (_ || _); [intros [= <- <- <-]; split; [by left|done]|].
  destruct (sealed_manifest _ _ _ _ _ _ _) as [m|] eqn:Hm; [|intros [= <- <- <-]; split; [by left|done]]. cbv zeta.
  destruct (disk_CreateSecret _ _ _ _ _) as [d1 [[]|e]] eqn:Hc; apply disk_CreateSecret_ok in Hc as [Hd Hok]; intros [= <- <- <-].
  - destruct (Hok eq_refl) as (_ & Hnone & u & owner & mode & -> & Hdir & _). rewrite removelast_last in Hdir. split; [right; by eexists _, _|].
    split; [intros [x Hx]; congruence|]. destruct (memory_Verify _ _ _ _ _) as [m'|] eqn:Hv; [|done]. intros _. pose proof Hm as Hm'.
    apply sealed_manifest_ok in Hm as (Hs & K1 & K2 & K3 & K4); [|done..|by exists owner, mode]. exists m, u. do 7 (split; [done|]). intros Hlaw.
    apply memory_Verify_manifest in Hv as (_ & b & u' & md' & Hb & _ & Hdec). cbn in Hb. rewrite lookup_insert_eq in Hb. injection Hb as <- <- <-.
    rewrite Hlaw in Hdec. apply Decode_ok in Hdec as (v & [= <-] & Hv' & _). rewrite MemoryManifest_decoded in Hv' by done. congruence.
  - split; [destruct Hd as [->|]; [by left|by right]|]. split; [|done]. intros [x Hx]. split; [|done]. destruct Hd as [->|(? & ? & Hnone & _)]; [done|congruence].
Qed.
End Verified.

(** ** A concrete directory *)

Module SealFixture.
#[export] Instance digest : Sha256 := λ _, "digest".
Definition hash : string := "aaaaaaaaaaaaaaaaaaaaaaaaaaaaaaaaaaaaaaaaaaaaaaaaaaaaaaaaaaaaaaaa".
Definition boot : string := "01234567-89ab-cdef-0123-456789abcdef".
Definition manifest : MemoryBundle.Manifest := MemoryBundle.mkManifest 1 "sglang-memory-evidence" boot hash hash [] (list_to_map ((λ n, (n, hash)) <$> BaselineFiles)).
#[export] Instance shows : JSONIndent := λ _, "manifest".
#[export] Instance documents : JSONText := λ _, Some [MemoryManifest_json manifest].
Definition before : Disk := mkDisk (list_to_map (([], EDir 0 493) :: (["evidence"], EDir 1000 448)
  :: ((λ n, (["evidence"; n], EFile 1000 384 n)) <$> BaselineFiles))) (λ _, false).
Definition sealed : Disk * (string * option error) := Seal (λ _, hash) before 1000 true ["evidence"] hash hash boot (λ _ _, false) SecretCreated.
Definition copied : Disk * result MemoryBundle.Manifest := memory_Copy (λ _, hash) sealed.1 0 ["evidence"] ["copy"] hash (λ _ _, false) (λ _, true) (λ _, Created) true.
Definition plainly (d : Disk) : bool := forallb (λ kv : list string * Provenance.Entry, forallb plain_name kv.1) (map_to_list (dk_entries d)).
Lemma plainly_named d : plainly d = true → named_disk d.
Proof.
  unfold plainly. rewrite forallb_forall. intros Hd l e He%elem_of_map_to_list%list_elem_of_In%Hd. cbn in He. rewrite forallb_forall in He.
  apply Forall_forall. intros x Hx%list_elem_of_In. by apply He.
Qed.
End SealFixture.
Import SealFixture.
Lemma before_named : named_disk before.
Proof. apply plainly_named. vm_compute. reflexivity. Qed.
Lemma sealed_named : named_disk sealed.1.
Proof. apply plainly_named. vm_compute. reflexivity. Qed.
Lemma plain_single x : plain_name x = true → plain [x].
Proof. intros Hx. by constructor. Qed.
Lemma Seal_sealed_witness : sealed.2 = (SealFixture.hash, None) ∧ lists (λ _, SealFixture.hash) before ["evidence"] SealFixture.manifest ∧
  memory_Verify (λ _, SealFixture.hash) sealed.1 ["evidence"] SealFixture.hash (λ _, false) = Ok SealFixture.manifest.
Proof.
  assert (sealed.2 = (SealFixture.hash, None)) as Hs by (vm_compute; reflexivity). split; [exact Hs|].
  assert (sealed_manifest (λ _, SealFixture.hash) before ["evidence"] SealFixture.hash SealFixture.hash boot (λ _, false) = Ok SealFixture.manifest) as Hm by (vm_compute; reflexivity).
  destruct sealed as [d' [hash err]] eqn:Hd. cbn [snd fst] in *. injection Hs as -> ->. unfold sealed in Hd.
  destruct (Seal_sealed _ _ _ _ _ _ _ _ _ _ _ _ _ before_named (plain_single "evidence" eq_refl) Hd) as (_ & _ & Hok).
  destruct (Hok eq_refl) as (m & u & Hm' & _ & _ & _ & _ & _ & Hl & Hv). rewrite Hm in Hm'. injection Hm' as <-. split; [exact Hl|]. exact (Hv eq_refl).
Defined.
Lemma Copy_faithful_witness : copied.2 = Ok SealFixture.manifest ∧
  memory_Verify (λ _, SealFixture.hash) copied.1 ["copy"] SealFixture.hash (λ _, false) = Ok SealFixture.manifest ∧
  dk_entries copied.1 !! ["copy"; "workload.json"] = Some (EFile 0 384 "workload.json").
Proof.
  assert (copied.2 = Ok SealFixture.manifest) as Hr by (vm_compute; reflexivity). split; [exact Hr|].
  destruct copied as [d' r] eqn:Hd. cbn [snd fst] in *. subst r. unfold copied in Hd.
  destruct (Copy_faithful _ _ _ _ _ _ _ _ _ _ _ _ sealed_named (plain_single "copy" eq_refl) Hd) as (_ & _ & Hok).
  destruct (Hok _ eq_refl) as (_ & Hv & _ & Hf). split; [exact Hv|]. destruct (Hf "workload.json") as (c & (u & md & Hc & _) & Hd').
  - right. apply (bool_decide_unpack _). vm_compute. exact I.
  - assert (dk_entries sealed.1 !! (["evidence"] ++ components "workload.json") = Some (EFile 1000 384 "workload.json")) as Hw by (vm_compute; reflexivity).
    rewrite Hw in Hc. injection Hc as <- <- <-. exact Hd'.
Defined.
