(* ===== verification/Opening.v ===== *)
(** What the controller opens when it starts ([internal/config/config.go], [internal/store/store.go]
    and the lock of [internal/safefile/files.go]): its policy, which must be protected from those it
    governs, and its store, which one process holds at a time and a start never overwrites.

    A file is read from the [Disk] of [Provenance]; the locks that processes hold are a set of
    places.  [encoding/json] on the state is an argument. *)
From S2P Require Import Prelude Json Types Config Wire Evidence Store Provenance Trust Harness Launch Sealing Sealed.
#[local] Open Scope Z_scope.
#[local] Abbreviation entry d l := (dk_entries d !! l).
#[local] Abbreviation plain l := (Forall (λ n, plain_name n = true) l).

(** ** The policy *)

Definition dec_Telemetry : decoder Telemetry := dec_struct [
  at_key "enabled" dec_bool tl_Enabled (λ x '(mkTelemetry _ b c d), mkTelemetry x b c d);
  at_key "otlp_endpoint" dec_string tl_OTLPEndpoint (λ x '(mkTelemetry a _ c d), mkTelemetry a x c d);
  at_key "trace_sample_ratio" dec_float tl_TraceSampleRatio (λ x '(mkTelemetry a b _ d), mkTelemetry a b x d);
  at_key "prometheus_url" dec_string tl_PrometheusURL (λ x '(mkTelemetry a b c _), mkTelemetry a b c x)].
Definition dec_AdvisorPolicy : decoder Advisor := dec_struct [
  at_key "enabled" dec_bool av_Enabled (λ x '(mkAdvisor _ b c d e f g), mkAdvisor x b c d e f g);
  at_key "model" dec_string av_Model (λ x '(mkAdvisor a _ c d e f g), mkAdvisor a x c d e f g);
  at_key "api_key_file" dec_string av_APIKeyFile (λ x '(mkAdvisor a b _ d e f g), mkAdvisor a b x d e f g);
  at_key "timeout_seconds" dec_int av_TimeoutSeconds (λ x '(mkAdvisor a b c _ e f g), mkAdvisor a b c x e f g);
  at_key "max_tool_calls" dec_int av_MaxToolCalls (λ x '(mkAdvisor a b c d _ f g), mkAdvisor a b c d x f g);
  at_key "max_sessions_per_hour" dec_int av_MaxSessionsPerHour (λ x '(mkAdvisor a b c d e _ g), mkAdvisor a b c d e x g);
  at_key "project_budget_acknowledged" dec_bool av_ProjectBudgetAcknowledged (λ x '(mkAdvisor a b c d e f _), mkAdvisor a b c d e f x)].
Definition Config0 : Config :=
  mkConfig "" "" "" "" [] "" "" "" false 0 "" "" "" "" "" "" "" "" "" 0 0 (mkTelemetry false "" f0 "") (mkAdvisor false "" "" 0 0 0 false).
Definition dec_Config : decoder Config := dec_struct [
  at_key "mode" dec_string co_Mode (λ x '(mkConfig _ b c d e f g h i j k l m n o p q r s t u v w), mkConfig x b c d e f g h i j k l m n o p q r s t u v w);
  at_key "state_dir" dec_string co_StateDir (λ x '(mkConfig a _ c d e f g h i j k l m n o p q r s t u v w), mkConfig a x c d e f g h i j k l m n o p q r s t u v w);
  at_key "source_path" dec_string co_SourcePath (λ x '(mkConfig a b _ d e f g h i j k l m n o p q r s t u v w), mkConfig a b x d e f g h i j k l m n o p q r s t u v w);
  at_key "listen" dec_string co_Listen (λ x '(mkConfig a b c _ e f g h i j k l m n o p q r s t u v w), mkConfig a b c x e f g h i j k l m n o p q r s t u v w);
  at_key "allowed_hosts" (dec_list "" dec_string) co_AllowedHosts (λ x '(mkConfig a b c d _ f g h i j k l m n o p q r s t u v w), mkConfig a b c d x f g h i j k l m n o p q r s t u v w);
  at_key "external_url" dec_string co_ExternalURL (λ x '(mkConfig a b c d e _ g h i j k l m n o p q r s t u v w), mkConfig a b c d e x g h i j k l m n o p q r s t u v w);
  at_key "tls_cert_file" dec_string co_TLSCertFile (λ x '(mkConfig a b c d e f _ h i j k l m n o p q r s t u v w), mkConfig a b c d e f x h i j k l m n o p q r s t u v w);
  at_key "tls_key_file" dec_string co_TLSKeyFile (λ x '(mkConfig a b c d e f g _ i j k l m n o p q r s t u v w), mkConfig a b c d e f g x i j k l m n o p q r s t u v w);
  at_key "browser_sessions" dec_bool co_BrowserSessions (λ x '(mkConfig a b c d e f g h _ j k l m n o p q r s t u v w), mkConfig a b c d e f g h x j k l m n o p q r s t u v w);
  at_key "owner_uid" dec_int co_OwnerUID (λ x '(mkConfig a b c d e f g h i _ k l m n o p q r s t u v w), mkConfig a b c d e f g h i x k l m n o p q r s t u v w);
  at_key "target" dec_string co_Target (λ x '(mkConfig a b c d e f g h i j _ l m n o p q r s t u v w), mkConfig a b c d e f g h i j x l m n o p q r s t u v w);
  at_key "environment" dec_string co_Environment (λ x '(mkConfig a b c d e f g h i j k _ m n o p q r s t u v w), mkConfig a b c d e f g h i j k x m n o p q r s t u v w);
  at_key "reference_root" dec_string co_ReferenceRoot (λ x '(mkConfig a b c d e f g h i j k l _ n o p q r s t u v w), mkConfig a b c d e f g h i j k l x n o p q r s t u v w);
  at_key "model_root" dec_string co_ModelRoot (λ x '(mkConfig a b c d e f g h i j k l m _ o p q r s t u v w), mkConfig a b c d e f g h i j k l m x o p q r s t u v w);
  at_key "compiler_cache_root" dec_string co_CompilerCacheRoot (λ x '(mkConfig a b c d e f g h i j k l m n _ p q r s t u v w), mkConfig a b c d e f g h i j k l m n x p q r s t u v w);
  at_key "shader_cache_root" dec_string co_ShaderCacheRoot (λ x '(mkConfig a b c d e f g h i j k l m n o _ q r s t u v w), mkConfig a b c d e f g h i j k l m n o x q r s t u v w);
  at_key "host_socket" dec_string co_HostSocket (λ x '(mkConfig a b c d e f g h i j k l m n o p _ r s t u v w), mkConfig a b c d e f g h i j k l m n o p x r s t u v w);
  at_key "worker_socket" dec_string co_WorkerSocket (λ x '(mkConfig a b c d e f g h i j k l m n o p q _ s t u v w), mkConfig a b c d e f g h i j k l m n o p q x s t u v w);
  at_key "client_base_url" dec_string co_ClientBaseURL (λ x '(mkConfig a b c d e f g h i j k l m n o p q r _ t u v w), mkConfig a b c d e f g h i j k l m n o p q r x t u v w);
  at_key "queue_depth" dec_int co_QueueDepth (λ x '(mkConfig a b c d e f g h i j k l m n o p q r s _ u v w), mkConfig a b c d e f g h i j k l m n o p q r s x u v w);
  at_key "operation_timeout_seconds" dec_int co_OperationTimeoutSeconds (λ x '(mkConfig a b c d e f g h i j k l m n o p q r s t _ v w), mkConfig a b c d e f g h i j k l m n o p q r s t x v w);
  at_key "telemetry" dec_Telemetry co_Telemetry (λ x '(mkConfig a b c d e f g h i j k l m n o p q r s t u _ w), mkConfig a b c d e f g h i j k l m n o p q r s t u x w);
  at_key "advisor" dec_AdvisorPolicy co_Advisor (λ x '(mkConfig a b c d e f g h i j k l m n o p q r s t u v _), mkConfig a b c d e f g h i j k l m n o p q r s t u v x)].
(** The loop over the path and its parents. *)
Fixpoint guarded_parents (d : Disk) (up : list string) : result unit :=
  e ← Lstat d (rev up);
  reject negb (trusted_entry e) with Plain "live policy and all parent directories must be root-owned and protected" ;;
  match up with [] => Ok tt | _ :: up => guarded_parents d up end.
(** [config.Load]; the last arguments are those of [Validate]. *)
Definition config_Load `{NetParse} `{JSONText} (d : Disk) (path : string) (sy : Safefile.Sys) (fs : Safefile.FileSystem) (home : string) (linux : bool) : result Config :=
  reject negb (is_abs path) || (clean path <>s path) with Plain "path must be absolute and canonical" ;;
  let l := components path in
  b ← disk_Read d l 65536;
  c ← Decode (λ v, dec_Config v Config0) (json_docs b);
  _ ← Validate sy fs home linux c;
  i ← Stat d l;
  owner ← Lstat d l;
  let uid := entry_uid owner in
  reject negb (Z.land (entry_mode i) 18 =? 0) with Plain "configuration must not be group/world writable" ;;
  reject (co_Mode c =s "live") && negb (uid =? 0) with Plain "live service policy must be root-owned" ;;
  _ ← (if co_Mode c =s "live" then guarded_parents d (rev l) else Ok tt);
  reject (co_Mode c =s "demo") && negb (uid =? co_OwnerUID c) && negb (uid =? 0) with Plain "demo policy must belong to its explicitly allowed owner" ;;
  Ok c.

(** ** The store *)

(** The places that processes have locked. *)
Abbreviation Locks := (gset (list string)).
(** [safefile.Acquire]: [opens] tells whether the file can be opened or created, [owned] whether
    a privileged process can give it to the owner of its directory. *)
Definition Acquire (d : Disk) (uid : Z) (held : Locks) (l : list string) (opens owned : bool) : Disk * Locks * result unit :=
  match check_path d l with
  | Err e => (d, held, Err e)
  | Ok _ =>
    let opened : Disk * option (Z * Z * string) :=
      match entry d l, entry d (removelast l) with
      | Some (EFile u m c), _ => (d, if opens then Some (u, m, c) else None)
      | Some _, _ => (d, None)
      | None, Some (EDir _ _) => if opens then (make_entry d l (EFile uid 384 ""), Some (uid, 384, "")) else (d, None)
      | None, _ => (d, None)
      end in
    match opened with
    | (d, None) => (d, held, Err ErrIO)
    | (d, Some (u, m, c)) =>
      if negb (Z.land m 63 =? 0) then (d, held, Err (Plain "unsafe lock file")) else
      let owner := match entry d (removelast l) with Some p => if uid =? 0 then Some (entry_uid p) else None | None => None end in
      if is_some owner && negb owned then (d, held, Err ErrIO) else
      let d := match owner with Some o => make_entry d l (EFile o m c) | None => d end in
      if bool_decide (l ∈ held) then (d, held, Err (Plain "state is exclusively locked; stop the service before local administration"))
      else (d, {[l]} ∪ held, Ok tt)
    end
  end.
Definition Lock_Close (held : Locks) (l : list string) : Locks := held ∖ {[l]}.

Section Open.
Context `{JSONText} (state_text : State → string) (state_of : State → JSON → option (State * bool)).
(** [persist] of a first state, by a replacement that succeeds, or fails before or after its
    rename. *)
Definition first_write (d : Disk) (uid : Z) (l : list string) (s : State) (w : write_outcome) : Disk * result unit :=
  let b := state_text s in
  let owner := match entry d (removelast l) with Some p => secret_owner uid (entry_uid p) | None => uid end in
  if str_len b >? MaxBytes then (d, Err (Plain "state budget exhausted")) else
  match w with
  | Written => (make_entry d l (EFile owner 384 b), Ok tt)
  | WriteFailed replaced => (if replaced then make_entry d l (EFile owner 384 b) else d, Err ErrIO)
  end.
(** [store.Open]; [state_of] decodes over a new state and tells whether all its maps
    are there. *)
Definition store_Open (d : Disk) (uid : Z) (held : Locks) (dir : list string) (mode : string) (made : list string → bool) (opens owned : bool) (w : write_outcome) : Disk * Locks * result State :=
  if (mode <>s "demo") && (mode <>s "live") then (d, held, Err (Plain "explicit adapter mode required")) else
  match check_path d dir with
  | Err e => (d, held, Err e)
  | Ok _ =>
    match make_parents d uid made [] dir with
    | (d, Err e) => (d, held, Err e)
    | (d, Ok _) =>
      match entry d dir with
      | None => (d, held, Err ErrAbsent)
      | Some i =>
        if negb (Z.land (entry_mode i) 63 =? 0) then (d, held, Err (Plain "state directory must be owner-only (0700)")) else
        let lock := dir ++ ["store.lock"] in let path := dir ++ ["state.json"] in
        match Acquire d uid held lock opens owned with
        | (d, held, Err e) => (d, held, Err e)
        | (d, held, Ok _) =>
          match entry d path with
          | None =>
            match first_write d uid path (NewState mode) w with
            | (d, Err e) => (d, Lock_Close held lock, Err e)
            | (d, Ok _) => (d, held, Ok (NewState mode))
            end
          | Some _ =>
            match (disk_Read d path MaxBytes ≫= (λ b, Decode (state_of (NewState mode)) (json_docs b))) with
            | Err _ => (d, Lock_Close held lock, Err (Plain "state cannot be read; restore a verified stopped-service backup"))
            | Ok (s, maps) =>
              if negb (s_Schema s =? 1) || (s_Mode s <>s mode) || negb maps
              then (d, Lock_Close held lock, Err (Plain "state schema or demo/live mode mismatch"))
              else (d, held, Ok s)
            end
          end
        end
      end
    end
  end.

(** ** What a start establishes *)

Lemma Acquire_ok d uid held l opens owned d' held' r : Acquire d uid held l opens owned = (d', held', r) →
  (∀ k, k ≠ l → entry d' k = entry d k) ∧ (r = Ok tt → (l ∉ held) ∧ held' = ({[l]} ∪ held)) ∧ (r ≠ Ok tt → held' = held).
Proof.
  unfold Acquire. destruct (check_path d l) as [[]|]; [|by intros [= <- <- <-]]. cbv zeta.
  set (opened := match entry d l with Some _ => _ | None => _ end). assert (∀ k, k ≠ l → entry opened.1 k = entry d k) as Ho.
  { intros k Hk. unfold opened. destruct (entry d l) as [[]|], (entry d (removelast l)) as [[]|], opens; try done; cbn; by rewrite lookup_insert_ne. }
  destruct opened as [d1 [[[u m] c]|]]; cbn [fst] in Ho; [|by intros [= <- <- <-]].
  destruct (negb _); [by intros [= <- <- <-]|]. set (owner := match entry d1 (removelast l) with Some _ => _ | None => _ end).
  destruct (_ && _); [by intros [= <- <- <-]|]. case_bool_decide as Hl; intros [= <- <- <-].
  - split; [|done]. intros k Hk. rewrite <- Ho by done. destruct owner; [|done]. cbn. by rewrite lookup_insert_ne.
  - split; [|done]. intros k Hk. rewrite <- Ho by done. destruct owner; [|done]. cbn. by rewrite lookup_insert_ne.
Qed.
(** A start that fails has changed nothing and holds nothing. *)
Ltac refuse_start := intros [= <- <- <-]; split; [intros; solve [eauto]|split; [done|done]].
(** A start is safe.  Whatever fails, everything that was there stays as it was, the lock file's
    owner aside, the state file included; a start that fails holds no lock.  One that succeeds
    found its directory private and the lock free, and holds it; its state has the schema and
    mode it was asked for, and is either a new one, written because there was none, or what the
    file holds. *)
Theorem store_Open_safe d uid held dir mode made opens owned w d' held' r :
  let lock := dir ++ ["store.lock"] in let path := dir ++ ["state.json"] in
  store_Open d uid held dir mode made opens owned w = (d', held', r) →
  (∀ l e, l ≠ lock → entry d l = Some e → entry d' l = Some e) ∧
  (∀ e, r = Err e → held' = held) ∧
  (∀ s, r = Ok s → mode ∈ ["demo"; "live"] ∧ (lock ∉ held) ∧ held' = ({[lock]} ∪ held) ∧ s_Mode s = mode ∧ s_Schema s = 1 ∧
    (∃ e, entry d' dir = Some e ∧ Z.land (entry_mode e) 63 = 0) ∧
    ((s = NewState mode ∧ entry d path = None ∧ ∃ u, entry d' path = Some (EFile u 384 (state_text s))) ∨
     ∃ u m b, entry d' path = Some (EFile u m b) ∧ str_len b ≤ MaxBytes ∧ Decode (state_of (NewState mode)) (json_docs b) = Ok (s, true))).
Proof.
  intros lock path. unfold store_Open. fold lock path. destruct ((mode <>s "demo") && (mode <>s "live")) eqn:Hmode; [by intros [= <- <- <-]|].
  destruct (check_path d dir) as [[]|]; [|by intros [= <- <- <-]].
  destruct (make_parents d uid made [] dir) as [d1 [[]|e1]] eqn:Hm; apply make_parents_within, within_kept in Hm as [_ K1]; [|refuse_start].
  destruct (entry d1 dir) as [i|] eqn:Hi; [|refuse_start]. destruct (Z.land (entry_mode i) 63 =? 0) eqn:Hp; cbn [negb]; [|refuse_start]. cbv zeta.
  destruct (Acquire _ _ _ _ _ _) as [[d2 held2] [[]|e2]] eqn:Ha; apply Acquire_ok in Ha as (K2 & Hok & Hno).
  2: { intros [= <- <- <-]. split; [|split; [intros; by apply Hno|done]]. intros l e Hl He. rewrite K2 by done. by apply K1. }
  destruct (Hok eq_refl) as [Hfree ->]. assert (Lock_Close ({[lock]} ∪ held) lock = held) as Hclose by (unfold Lock_Close; set_solver).
  assert (∀ l e, l ≠ lock → entry d l = Some e → entry d2 l = Some e) as K3 by (intros l e Hl He; rewrite K2 by done; by apply K1).
  assert (mode ∈ ["demo"; "live"]) as Hin by (apply str_in_spec; cbn; destruct (mode =s "demo"), (mode =s "live"); done).
  assert (path ≠ lock) as Hpl by (intros [= ?]%app_inj_tail_iff || (unfold path, lock; intros [_ [=]]%app_inj_tail)).
  assert (entry d2 dir = Some i) as Hdir. { rewrite K2; [done|]. unfold lock. intros Heq%(f_equal length). rewrite length_app in Heq. cbn in Heq. lia. }
  assert (path ≠ dir) as Hpd by (unfold path; intros Heq%(f_equal length); rewrite length_app in Heq; cbn in Heq; lia).
  destruct (entry d2 path) as [x|] eqn:Hx.
  - destruct (mbind _ (disk_Read d2 path MaxBytes)) as [[s maps]|] eqn:Hr; [|rewrite Hclose; refuse_start].
    destruct (negb (s_Schema s =? 1) || _ || _) eqn:Hs; [rewrite Hclose; refuse_start|]. intros [= <- <- <-]. split; [done|]. split; [done|]. intros s' [= <-]. bool_hyps.
    do 4 (split; [done|]). split; [lia|]. split; [exists i; split; [done|lia]|]. right. apply bind_ok in Hr as (b & Hb & Hdec). apply bind_ok in Hb as ([] & _ & (u & m & He & _ & Hlen)%bounded_content_ok).
    exists u, m, b. split; [done|]. split; [done|]. by destruct maps.
  - assert (entry d path = None) as Hnone by (destruct (entry d path) as [y|] eqn:Hy; [|done]; apply K3 in Hy; [congruence|done]).
    assert (∀ u c, let d3 := make_entry d2 path (EFile u 384 c) in (∀ l e, l ≠ lock → entry d l = Some e → entry d3 l = Some e) ∧ entry d3 dir = Some i) as Hmade.
    { intros u c. cbn. split; [|by rewrite lookup_insert_ne]. intros l e Hl He. rewrite lookup_insert_ne; [by apply K3|]. intros ->. congruence. }
    unfold first_write. cbv zeta. destruct (_ >? MaxBytes); [rewrite Hclose; refuse_start|]. destruct w as [|[]].
    + intros [= <- <- <-]. edestruct Hmade as [L1 L2]. split; [exact L1|]. split; [done|]. intros s [= <-]. do 5 (split; [done|]). split; [exists i; split; [exact L2|lia]|].
      left. split; [done|]. split; [done|]. eexists. apply lookup_insert_eq.
    + rewrite Hclose. edestruct Hmade as [L1 L2]. intros [= <- <- <-]. split; [exact L1|]. by split.
    + rewrite Hclose. refuse_start.
Qed.
End Open.

(** A policy that is loaded is protected: it was read whole from its place, through no link,
    is valid, and nobody but its owner can write it; a live one belongs to root, as do its
    directories, which nobody else can write either; a demo one belongs to its owner or root. *)
Lemma guarded_climb d up : guarded_parents d up = Ok tt → climb d None up = Ok tt.
Proof.
  induction up as [|x up IH]; cbn [guarded_parents climb]; intros (e & He & Hg)%bind_ok; rewrite He; cbn [mbind result_bind]; destruct (negb (trusted_entry e)); try done.
  by apply IH.
Qed.
Theorem config_Load_guarded `{NetParse} `{JSONText} d path sy fs home linux c : config_Load d path sy fs home linux = Ok c →
  let l := components path in
  path = path_of l ∧ Validate sy fs home linux c = Ok tt ∧
  (∃ u m b, entry d l = Some (EFile u m b) ∧ str_len b ≤ 65536 ∧ Decode (λ v, dec_Config v Config0) (json_docs b) = Ok c ∧ Z.land m 18 = 0 ∧
    (co_Mode c = "live" → u = 0) ∧ (co_Mode c = "demo" → u = co_OwnerUID c ∨ u = 0)) ∧
  (co_Mode c = "live" → secured d l).
Proof.
  intros Hl l. unfold config_Load in Hl. destruct (_ || _) eqn:Hp; [done|]. bool_hyps. destruct (clean_absolute path) as [Hpl Hpath]; [done..|]. fold l in Hl, Hpl, Hpath.
  apply bind_ok in Hl as (b & (cp & Hcp & (u & m & He & _ & Hlen)%bounded_content_ok)%bind_ok & Hl). destruct cp.
  apply bind_ok in Hl as (c' & Hdec & Hl). apply bind_ok in Hl as ([] & Hval & Hl).
  assert (∀ follow, named d follow l = Ok (l, EFile u m b) ∨ ∃ e, named d follow l = Err e) as Hn.
  { intros follow. unfold named. destruct (resolve d follow 40 [] l) as [q|e] eqn:Hr; [|right; by exists e].
    apply resolve_straight in Hr as ->; [|done|intros k u' t' _; rewrite app_nil_l; by apply check_path_ok]. cbn. rewrite He. by left. }
  unfold Stat, Lstat in Hl. destruct (Hn true) as [Ht|[e Ht]]; rewrite Ht in Hl; [|done]. destruct (Hn false) as [Hf|[e Hf]]; rewrite Hf in Hl; [|done]. cbn [mbind result_bind entry_mode entry_uid] in Hl.
  destruct (negb (Z.land m 18 =? 0)) eqn:Hw; [done|]. destruct ((co_Mode c' =s "live") && negb (u =? 0)) eqn:Hroot; [done|].
  apply bind_ok in Hl as ([] & Hg & Hl). destruct (_ && negb (u =? 0)) eqn:Hdemo in Hl; [done|]. injection Hl as ->.
  split; [done|]. split; [done|]. split.
  - exists u, m, b. bool_hyps. do 3 (split; [done|]). split; [lia|]. split.
    + intros Hm. rewrite Hm in Hroot. cbn in Hroot. bool_hyps. lia.
    + intros Hm. rewrite Hm in Hdemo. cbn in Hdemo. bool_hyps. destruct (u =? co_OwnerUID c) eqn:E1, (u =? 0) eqn:E2; try done; lia.
  - intros Hm. rewrite Hm in Hg. cbn in Hg. apply guarded_climb, climb_secured in Hg as [Hs _]; rewrite rev_involutive in *; done.
Qed.

(** ** A concrete start *)

Module OpeningFixture.
Import ConfigFixture.
Definition policy : JSON := JObject [
  ("mode", JString "live"); ("state_dir", JString "/var/lib/bridge"); ("source_path", JString "/var/lib/bridge/source.json"); ("listen", JString "10.0.0.5:8443");
  ("allowed_hosts", JArray [JString "bridge.example.net"]); ("external_url", JString "https://bridge.example.net"); ("tls_cert_file", JString "/etc/cert"); ("tls_key_file", JString "/etc/key");
  ("browser_sessions", JBool true); ("owner_uid", JInt 1000); ("target", JString "ws"); ("environment", JString "dev"); ("reference_root", JString "/opt/ref"); ("model_root", JString "/models");
  ("compiler_cache_root", JString "/cache/c"); ("shader_cache_root", JString "/cache/s"); ("host_socket", JString "/run/h.sock"); ("worker_socket", JString "/run/w.sock");
  ("client_base_url", JString ""); ("queue_depth", JInt 4); ("operation_timeout_seconds", JInt 600);
  ("telemetry", JObject [("enabled", JBool true); ("otlp_endpoint", JString "https://10.0.0.5:4318"); ("trace_sample_ratio", JFloat f0_5)])].
#[export] Instance documents : JSONText := λ s, if s =s "policy" then Some [policy] else if s =s "state" then Some [JString "state"] else None.
Definition disk (mode : Z) : Disk := mkDisk (list_to_map [
  ([], EDir 0 493); (["etc"], EDir 0 493); (["etc"; "bridge.json"], EFile 0 mode "policy");
  (["var"], EDir 0 493); (["var"; "bridge"], EDir 1000 448)]) (λ _, false).
Definition start (d : Disk) (held : gset (list string)) : Disk * gset (list string) * result State :=
  store_Open (λ _, "state") (λ s _, Some (s, true)) d 1000 held ["var"; "bridge"] "live" (λ _, true) true true Written.
Example live_loaded : config_Load (disk 420) "/etc/bridge.json" sys ∅ "/root" true = Ok live.
Proof. vm_compute. reflexivity. Qed.
Example writable_refused : config_Load (disk 438) "/etc/bridge.json" sys ∅ "/root" true = Err (Plain "configuration must not be group/world writable").
Proof. vm_compute. reflexivity. Qed.
(** A second start finds the lock; one after the first has closed reads what it wrote. *)
Example started : let s := start (disk 420) ∅ in let again := start s.1.1 s.1.2 in let later := start s.1.1 (Lock_Close s.1.2 ["var"; "bridge"; "store.lock"]) in
  (s.2, is_ok again.2, later.2, dk_entries later.1.1 !! ["var"; "bridge"; "state.json"]) = (Ok (NewState "live"), false, Ok (NewState "live"), Some (EFile 1000 384 "state")).
Proof. vm_compute. reflexivity. Qed.
End OpeningFixture.
