(* ===== verification/Metrics.v ===== *)
(** Telemetry ([internal/telemetry]): the summary over fixed Prometheus queries
    ([prometheus.go]) with its cache, and the recorder's states and labels ([telemetry.go]).

    A summary is a tree of interactions: readings of the clock and requests to the backend.
    The exporters of the OpenTelemetry SDK and the HTTP transport are outside: an export is
    its outcome, a request its answer. *)
From S2P Require Import Prelude Interact Json Types Domain Config Wire Evidence Tree Api.
From Stdlib Require Import SpecFloat.
#[local] Open Scope Z_scope.

(** ** The fixed queries *)

(** The expressions with each apostrophe for a double quote. *)
Definition quoted (s : string) : string :=
  String.string_of_list_ascii ((λ c, if Ascii.eqb c "'"%char then ascii_of_nat 34 else c) <$> String.list_ascii_of_string s).
Record SummaryQuery := mkSummaryQuery { sq_name : string; sq_unit : string; sq_expression : string; sq_freshness : string }.
Definition psu_present (e : string) : string := e +:+ " and on(job,instance) (workstation_psu_available{job='node'} == 1)".
Definition energy_present (e : string) : string := e +:+ " and on(job,instance) (workstation_psu_energy_available{job='node'} == 1)".
Definition summaryQueries : list SummaryQuery := [
  mkSummaryQuery "host_memory_available" "By" (quoted "sum(node_memory_MemAvailable_bytes{job='node'})")
    (quoted "min(timestamp(node_memory_MemAvailable_bytes{job='node'}))");
  mkSummaryQuery "host_memory_pressure_waiting" "ratio" (quoted "sum(rate(node_pressure_memory_waiting_seconds_total{job='node'}[5m]))")
    (quoted "min(timestamp(node_pressure_memory_waiting_seconds_total{job='node'}))");
  mkSummaryQuery "sglang_queued_requests" "{request}" (quoted "sum(sglang:num_queue_reqs{job='sglang',priority=''})")
    (quoted "min(timestamp(sglang:num_queue_reqs{job='sglang',priority=''}))");
  mkSummaryQuery "sglang_time_to_first_token_p95" "s"
    (quoted "histogram_quantile(0.95,sum by(le)(rate(sglang:time_to_first_token_seconds_bucket{job='sglang'}[5m])))")
    (quoted "min(timestamp(sglang:time_to_first_token_seconds_count{job='sglang'}))");
  mkSummaryQuery "psu_output_power" "W" (quoted (psu_present "(workstation_psu_output_power_watts{job='node'} >= 0)"))
    (quoted (psu_present "workstation_psu_sample_timestamp_seconds{job='node'}"));
  mkSummaryQuery "psu_output_energy_estimated" "J" (quoted (energy_present "(workstation_psu_output_energy_joules_total{job='node'} >= 0)"))
    (quoted (energy_present "workstation_psu_energy_sample_timestamp_seconds{job='node'}"));
  mkSummaryQuery "psu_energy_covered" "s" (quoted (energy_present "(workstation_psu_energy_covered_seconds_total{job='node'} >= 0)"))
    (quoted (energy_present "workstation_psu_energy_sample_timestamp_seconds{job='node'}"))].

Definition missing_value (reason : string) (q : SummaryQuery) : TelemetryValue := mkTelemetryValue (sq_name q) (sq_unit q) "missing" None None reason.
Definition gpu_value : TelemetryValue := mkTelemetryValue "gpu_telemetry" "" "unavailable" None None "requires_qualified_gpu_metrics".
Definition missingValues (reason : string) : list TelemetryValue := (missing_value reason <$> summaryQueries) ++ [gpu_value].

(** ** One query *)

(** What a request came to: no answer, or a status with the body, when it could be read
    within 64 KiB. *)
Inductive BackendAnswer := NoBackend | Backend (status : Z) (body : option string).
Inductive PromAct := PNow | PGet (url : string).
Definition prom_answer (e : PromAct) : Type := match e with PNow => time | PGet _ => BackendAnswer end.
#[local] Abbreviation PromRun := (Interact.Run prom_answer).

(** [url.QueryEscape]. *)
Definition upper_hex (n : N) : ascii := ascii_of_N (if (n <? 10)%N then 48 + n else 55 + n)%N.
Definition escape_char (c : ascii) : list ascii :=
  if is_alnum c || existsb (Ascii.eqb c) ["-"%char; "_"%char; "."%char; "~"%char] then [c] else
  if Ascii.eqb c " "%char then ["+"%char] else ["%"%char; upper_hex (N_of_ascii c / 16); upper_hex (N_of_ascii c mod 16)].
Definition query_escape (s : string) : string := String.string_of_list_ascii (String.list_ascii_of_string s ≫= escape_char).

Record PromWire := mkPromWire { pw_Status : string; pw_ResultType : string; pw_Result : list (list JSON) }.
Definition dec_sample : decoder (list JSON) := dec_lenient [at_key "value" (dec_list JNull dec_raw) id (λ x _, x)].
Definition dec_data : decoder (string * list (list JSON)) := dec_lenient [
  at_key "resultType" dec_string fst (λ x p, (x, p.2)); at_key "result" (dec_list [] dec_sample) snd (λ x p, (p.1, x))].
Definition dec_PromWire : decoder PromWire := dec_lenient [
  at_key "status" dec_string pw_Status (λ x '(mkPromWire _ b c), mkPromWire x b c);
  at_key "data" dec_data (λ w, (pw_ResultType w, pw_Result w)) (λ x '(mkPromWire a _ _), mkPromWire a x.1 x.2)].

Definition errNoSeries : error := Plain "no finite aggregate series".
Definition finite (f : float64) : bool := match f with S754_nan | S754_infinity _ => false | _ => true end.

Section Prometheus.
Context `{NetParse} `{JSONText} `{FloatText}.

(** The one finite value of a vector. *)
Definition read_sample (body : string) : result float64 :=
  match (v ← unmarshal body; dec_PromWire v (mkPromWire "" "" [])) with
  | None => Err (Plain "invalid backend response")
  | Some w =>
    reject (pw_Status w <>s "success") || (pw_ResultType w <>s "vector") with Plain "invalid backend response" ;;
    match pw_Result w with
    | [[_; raw]] =>
      match dec_string raw "" with
      | None => Err (Plain "invalid backend value")
      | Some text => let '(f, ok) := parse_float text in reject negb ok || negb (finite f) with errNoSeries ;; Ok f
      end
    | _ => Err errNoSeries
    end
  end.
Definition query_url (endpoint expression : string) : string :=
  endpoint +:+ "/api/v1/query?query=" +:+ query_escape expression +:+ "&timeout=1s".
Definition query (endpoint expression : string) : PromRun (result float64) :=
  answer ← act (PGet (query_url endpoint expression));
  mret match answer with
       | NoBackend => Err (Plain "backend request failed")
       | Backend status body =>
         reject negb (status =? 200) with Plain "backend status failed" ;;
         match body with None => Err (Plain "backend response exceeds bound") | Some b => read_sample b end
       end.

(** ** The summary *)

Definition is_no_series (e : error) : bool := bool_decide (e = errNoSeries).
Definition stale_after : duration := 90 * Second.
Definition stale_reason : string := "source_sample_older_than_90_seconds".
Definition set_tv_State s r '(mkTelemetryValue a b _ c d _) := mkTelemetryValue a b s c d r.
(** The source timestamp, when it names a time. *)
Definition usable_stamp (now : time) (stamp : result float64) : option time :=
  match stamp with
  | Err _ => None
  | Ok s => if SFltb s f0 || SFltb (float_of (now / Second + 10)) s then None else Some (int64_of s * Second)
  end.
(** One row, with whether its query failed. *)
Definition refresh_row (endpoint : string) (now : time) (q : SummaryQuery) : PromRun (TelemetryValue * bool) :=
  let row := missing_value "no_series" q in
  value ← query endpoint (sq_expression q);
  match value with
  | Err e => mret (if is_no_series e then (row, false) else (set_tv_State "error" "query_failed" row, true))
  | Ok f =>
    stamp ← query endpoint (sq_freshness q);
    mret match stamp with
         | Err e => if is_no_series e then (set_tv_State "missing" "source_timestamp_unavailable" row, false)
                    else (set_tv_State "error" "source_timestamp_query_failed" row, true)
         | Ok _ =>
           match usable_stamp now stamp with
           | None => (set_tv_State "missing" "source_timestamp_unavailable" row, false)
           | Some t =>
             let row state reason := mkTelemetryValue (sq_name q) (sq_unit q) state (Some f) (Some t) reason in
             (if time_sub now t >? stale_after then row "stale" stale_reason else row "available" "recent_source_sample", false)
           end
         end
  end.
Fixpoint refresh_rows (endpoint : string) (now : time) (qs : list SummaryQuery) : PromRun (list TelemetryValue * bool) :=
  match qs with
  | [] => mret ([], false)
  | q :: qs => row ← refresh_row endpoint now q; rows ← refresh_rows endpoint now qs; mret (row.1 :: rows.1, row.2 || rows.2)
  end.
Definition refreshed (now : time) (v : TelemetryValue) : TelemetryValue :=
  match tv_ObservedAt v with
  | Some t => if (tv_State v =s "available") && (time_sub now t >? stale_after) then set_tv_State "stale" stale_reason v else v
  | None => v
  end.
Definition currentFreshness (values : list TelemetryValue) (now : time) : list TelemetryValue := refreshed now <$> values.

Record Prometheus := mkPrometheus { pm_endpoint : string; pm_until : time; pm_state : TelemetryState; pm_values : list TelemetryValue }.
Definition NewPrometheus (endpoint : string) : Prometheus := mkPrometheus endpoint zeroTime (mkTelemetryState "" None "") [].
(** A summary with the cache it leaves; [busy] when another call holds the refresh. *)
Definition Summary (p : Prometheus) (busy : bool) : PromRun ((TelemetryState * list TelemetryValue) * Prometheus) :=
  let kept (state reason missing : string) : PromRun ((TelemetryState * list TelemetryValue) * Prometheus) := mret ((mkTelemetryState state None reason, missingValues missing), p) in
  if pm_endpoint p =s "" then kept "not_configured" "prometheus_url_not_configured" "backend_not_configured" else
  match ValidateTelemetryEndpoint (pm_endpoint p) with
  | Err _ => kept "error" "invalid_backend_policy" "invalid_backend_policy"
  | Ok _ =>
    if (busy : bool) then kept "unavailable" "refresh_in_progress" "refresh_in_progress" else
    now ← act PNow;
    if before now (pm_until p) then
      now ← act PNow;
      mret ((pm_state p, currentFreshness (pm_values p) now), p)
    else
      now ← act PNow;
      out ← refresh_rows (pm_endpoint p) now summaryQueries;
      let '(rows, failed) := (out : list TelemetryValue * bool) in
      done ← act PNow;
      let state := mkTelemetryState (if failed then "error" else "available") (Some now)
                     (if failed then "one_or_more_queries_failed" else "fixed_queries_completed") in
      let values := rows ++ [gpu_value] in
      mret ((state, values), mkPrometheus (pm_endpoint p) (done + 30 * Second) state values)
  end.
End Prometheus.

(** ** The recorder *)

(** What the recorder knows of the exports; [rc_on] when it has exporters. *)
Record Recorder := mkRecorder { rc_on : bool; rc_metrics : TelemetryState; rc_traces : TelemetryState }.
Definition export_disabled : TelemetryState := mkTelemetryState "not_configured" None "export_disabled".
(** The environment as [KEY=value] pairs; [exporters] are the outcomes of the two exporters. *)
Definition telemetry_New `{NetParse} (c : Telemetry) (environ : list (string * string)) (exporters : bool * bool) : result Recorder :=
  _ ← Telemetry_Validate c;
  if negb (tl_Enabled c) then Ok (mkRecorder false export_disabled export_disabled) else
  reject existsb (λ kv, has_prefix kv.1 "OTEL_" && (kv.2 <>s "")) environ
    with Plain "enabled telemetry requires OTEL_* environment overrides to be unset; use service policy" ;;
  reject negb exporters.1 with Plain "telemetry metrics initialization failed" ;;
  reject negb exporters.2 with Plain "telemetry traces initialization failed" ;;
  let pending := mkTelemetryState "pending" None "no_export_attempt" in
  Ok (mkRecorder true pending
        (if SFeqb (tl_TraceSampleRatio c) f0 then mkTelemetryState "not_configured" None "sampling_disabled" else pending)).
Definition recorder_Status (r : option Recorder) : TelemetryState * TelemetryState :=
  match r with Some r => (rc_metrics r, rc_traces r) | None => (export_disabled, export_disabled) end.
Definition exported (metrics : bool) (now : time) (failed : bool) (r : Recorder) : Recorder * option error :=
  let s := if failed then mkTelemetryState "error" (Some now) "export_failed" else mkTelemetryState "available" (Some now) "last_export_succeeded" in
  (if metrics then mkRecorder (rc_on r) s (rc_traces r)
   else if ts_Reason (rc_traces r) <>s "sampling_disabled" then mkRecorder (rc_on r) (rc_metrics r) s else r,
   if failed then Some (Plain "telemetry export failed") else None).

(** The labels of a measurement. *)
Definition recorded_methods : list string := ["GET"; "POST"; "HEAD"].
Definition recorded_actions : list string := [
  "serving.configure"; "resources.configure"; "caches.configure"; "serving.start"; "serving.stop"; "serving.restart"; "model.stage"; "model.verify";
  "profile.switch"; "profile.restore"; "hardware.refresh"; "build.start"; "cpu-policy.export"; "operation.reconcile"; "memory.evidence.import";
  "memory.plan.export"; "performance.export"; "performance.profile.select"].
Definition http_labels (method route : string) (status : Z) : list (string * JSON) := [
  ("http.request.method", JString (if str_in method recorded_methods then method else "OTHER")); ("http.route", JString route);
  ("http.response.status_code", JInt status); ("outcome", JString (if status >=? 400 then "failure" else "success"))].
Definition operation_labels (action state : string) : list (string * JSON) := [
  ("bridge.operation.action", JString (if str_in action recorded_actions then action else "other"));
  ("outcome", JString (if Terminal state then state else "unknown"))].
