(* ===== verification/Summaries.v ===== *)
(** What a telemetry summary may be relied on for ([Metrics]): its rows, the age of what it
    calls available, and the requests it makes. *)
From S2P Require Import Prelude Interact Json Types Config Wire Evidence Tree Api Metrics.
From Stdlib Require Import SpecFloat.
From stdpp Require Import pretty.
#[local] Open Scope Z_scope.

(** ** Rows *)

Definition row_names : list string := (sq_name <$> summaryQueries) ++ ["gpu_telemetry"].
(** A row with a value has a finite one with the time of its source. *)
Definition sampled (v : TelemetryValue) : Prop :=
  match tv_Value v, tv_ObservedAt v with
  | Some f, Some _ => finite f = true ∧ tv_State v ∈ ["available"; "stale"]
  | None, None => tv_State v ∈ ["missing"; "unavailable"; "error"]
  | _, _ => False
  end.
(** Of an available row the source is at most 90 seconds older than [now]. *)
Definition recent (now : time) (v : TelemetryValue) : Prop :=
  tv_State v = "available" → ∃ t, tv_ObservedAt v = Some t ∧ now - t ≤ 90 * Second.
Definition table (values : list TelemetryValue) : Prop := tv_Name <$> values = row_names ∧ Forall sampled values.

Lemma time_sub_le a b d : - 2^63 < d < 2^63 - 1 → (time_sub a b >? d) = false → a - b ≤ d.
Proof. unfold time_sub. intros Hd Hg. rewrite Z.gtb_ltb in Hg. bool_hyps. lia. Qed.
Lemma missing_table reason : table (missingValues reason) ∧ ∀ now, Forall (recent now) (missingValues reason).
Proof.
  assert (∀ q, sampled (missing_value reason q)) as Hs by (intros q; apply list_elem_of_here).
  assert (sampled gpu_value) as Hg by (apply list_elem_of_further, list_elem_of_here).
  split; [split; [reflexivity|]|intros now]; (apply Forall_app; split; [apply Forall_fmap, Forall_true|repeat constructor]); done.
Qed.
Lemma refreshed_row now v : sampled v → sampled (refreshed now v) ∧ recent now (refreshed now v) ∧ tv_Name (refreshed now v) = tv_Name v.
Proof.
  destruct v as [a b s f t r]. unfold refreshed, sampled, recent. cbn [tv_ObservedAt tv_State tv_Value].
  destruct f as [f|], t as [t|]; intros Hs; try done; [|split; [done|]; split; [|done]; cbn; intros Hav; rewrite Hav in Hs; set_solver].
  destruct (String.eqb_spec s "available") as [->|Hne]; cbn [andb]; [|split; [done|]; split; [by intros Ha|done]].
  destruct (time_sub now t >? stale_after) eqn:Hold.
  - cbn. split; [split; [apply Hs|apply list_elem_of_further, list_elem_of_here]|]. split; [discriminate|done].
  - split; [done|]. split; [|done]. intros _. exists t. split; [done|]. apply time_sub_le in Hold; [done|]. unfold stale_after, Second. lia.
Qed.

Section Requests.
Context `{NetParse} `{JSONText} `{FloatText}.

(** ** Requests *)

Definition events : Type := (list {e : PromAct & prom_answer e}).
(** A history that contains another. *)
Ltac within := solve [let z := fresh in let H := fresh in intros z H; rewrite ?elem_of_app, ?elem_of_cons in H; repeat first [rewrite elem_of_app|rewrite elem_of_cons]; rewrite ?elem_of_nil in H; tauto].
(** The one finite number a successful answer holds. *)
Definition says (body : string) (f : float64) : Prop :=
  ∃ doc wire x raw text, unmarshal body = Some doc ∧ dec_PromWire doc (mkPromWire "" "" []) = Some wire ∧
    pw_Status wire = "success" ∧ pw_ResultType wire = "vector" ∧ pw_Result wire = [[x; raw]] ∧
    dec_string raw "" = Some text ∧ parse_float text = (f, true) ∧ finite f = true.
Definition told (endpoint expression : string) (h : events) (f : float64) : Prop :=
  ∃ body, ev (PGet (query_url endpoint expression)) (Backend 200 (Some body)) ∈ h ∧ says body f.
(** The value of a row and the time of its source are what the backend told for the two
    queries of the row; the time is whole seconds, not negative and at most ten seconds ahead
    of the clock. *)
Definition dated (endpoint : string) (h : events) (v : TelemetryValue) : Prop :=
  ∀ f t, tv_Value v = Some f → tv_ObservedAt v = Some t → ∃ q stamp now,
    q ∈ summaryQueries ∧ sq_name q = tv_Name v ∧ told endpoint (sq_expression q) h f ∧ told endpoint (sq_freshness q) h stamp ∧
    ev PNow now ∈ h ∧ t = int64_of stamp * Second ∧ SFltb stamp f0 = false ∧ SFltb (float_of (now / Second + 10)) stamp = false.
(** The cache holds what the calls of the history [past] were told. *)
Definition cache_ok (past : events) (p : Prometheus) : Prop :=
  pm_until p = zeroTime ∨ table (pm_values p) ∧ Forall (dated (pm_endpoint p) past) (pm_values p).
Lemma told_mono endpoint e h h' f : h ⊆ h' → told endpoint e h f → told endpoint e h' f.
Proof. intros Hs (b & ? & ?). exists b. auto. Qed.
Lemma dated_mono endpoint h h' v : h ⊆ h' → dated endpoint h v → dated endpoint h' v.
Proof.
  intros Hs Hd f t Hf Ht. destruct (Hd f t Hf Ht) as (q & s & now & ? & ? & Hv & Hs' & Hn & ? & ? & ?). exists q, s, now.
  split_and!; try done; [exact (told_mono _ _ _ _ _ Hs Hv)|exact (told_mono _ _ _ _ _ Hs Hs')|by apply Hs].
Qed.
Lemma dated_missing endpoint h v : tv_Value v = None → dated endpoint h v.
Proof. intros Hv f t. by rewrite Hv. Qed.
Lemma dated_missings endpoint h reason : Forall (dated endpoint h) (missingValues reason).
Proof. apply Forall_app. split; [apply Forall_fmap, Forall_true; intros q|repeat constructor]; by apply dated_missing. Qed.
Lemma dated_refreshed endpoint h now v : dated endpoint h v → dated endpoint h (refreshed now v).
Proof. unfold refreshed. destruct v as [a b s f t r]. cbn. destruct t; [|done]. by destruct (_ && _). Qed.
Lemma read_says body f : read_sample body = Ok f → says body f.
Proof.
  unfold read_sample, says. destruct (unmarshal body) as [doc|]; [|done]. cbn [mbind option_bind]. destruct (dec_PromWire doc _) as [w|] eqn:Hw; [|done].
  destruct (_ || _) eqn:Hs; [done|]. bool_hyps. destruct (pw_Result w) as [|[|x [|raw []]] []] eqn:Hr; try done. destruct (dec_string raw "") as [text|] eqn:Ht; [|done].
  destruct (parse_float text) as [g ok] eqn:Hp. destruct (negb ok || negb (finite g)) eqn:Hg; [done|]. bool_hyps. intros [= <-]. subst ok.
  by exists doc, w, x, raw, text.
Qed.
Definition gets (h : events) : list string := omap (λ i, match projT1 i with PGet u => Some u | PNow => None end) h.
Definition of_queries (endpoint : string) (h : events) : Prop :=
  Forall (λ u, ∃ q, q ∈ summaryQueries ∧ (u = query_url endpoint (sq_expression q) ∨ u = query_url endpoint (sq_freshness q))) (gets h).
Lemma gets_app h h' : gets (h ++ h') = gets h ++ gets h'.
Proof. apply omap_app. Qed.
Lemma query_leaf endpoint e h r : leaf (query endpoint e) h r → gets h = [query_url endpoint e] ∧ ∀ f, r = Ok f → finite f = true ∧ told endpoint e h f.
Proof.
  unfold query. intros Hl. leaf_inv Hl. cbn. split; [done|]. intros f. destruct v as [|status body]; [done|]. destruct (negb _) eqn:Hs; [done|]. bool_hyps. subst status.
  destruct body as [b|]; [|done]. intros Hb%read_says. split; [by destruct Hb as (? & ? & ? & ? & ? & ? & ? & ? & ? & ? & ? & ? & ?)|].
  exists b. split; [apply list_elem_of_here|done].
Qed.
Lemma refresh_row_leaf endpoint now q past h r : q ∈ summaryQueries → ev PNow now ∈ past → leaf (refresh_row endpoint now q) h r →
  dated endpoint (past ++ h) r.1 ∧ sampled r.1 ∧ recent now r.1 ∧ tv_Name r.1 = sq_name q ∧ of_queries endpoint h ∧ (length (gets h) ≤ 2)%nat.
Proof.
  intros Hq Hnow Hl. unfold refresh_row in Hl. apply leaf_bind in Hl as (h1 & v & h2 & -> & [Hg Hf]%query_leaf & Hl). unfold of_queries. rewrite gets_app, Hg.
  assert (∀ u, u = query_url endpoint (sq_expression q) ∨ u = query_url endpoint (sq_freshness q) →
    ∃ q, q ∈ summaryQueries ∧ (u = query_url endpoint (sq_expression q) ∨ u = query_url endpoint (sq_freshness q))) as Hu by (intros u Hu; by exists q).
  destruct v as [f|e].
  - apply leaf_bind in Hl as (h3 & s & h4 & -> & [Hg2 Hf2]%query_leaf & [-> ->]). rewrite app_nil_r, Hg2.
    assert (∀ r1 : TelemetryValue * bool, dated endpoint (past ++ h1 ++ h3) r1.1 ∧ sampled r1.1 ∧ recent now r1.1 ∧ tv_Name r1.1 = sq_name q →
      dated endpoint (past ++ h1 ++ h3) r1.1 ∧ sampled r1.1 ∧ recent now r1.1 ∧ tv_Name r1.1 = sq_name q ∧
      Forall (λ u, ∃ q, q ∈ summaryQueries ∧ (u = query_url endpoint (sq_expression q) ∨ u = query_url endpoint (sq_freshness q))) ([query_url endpoint (sq_expression q)] ++ [query_url endpoint (sq_freshness q)]) ∧
      (length ([query_url endpoint (sq_expression q)] ++ [query_url endpoint (sq_freshness q)]) ≤ 2)%nat) as Hw.
    { intros r1 (K0 & K1 & K2 & K3). split_and!; try done. repeat constructor; auto. }
    apply Hw. destruct s as [s|e].
    + destruct (Hf f eq_refl) as [Hfin Htold], (Hf2 s eq_refl) as [_ Htold2]. destruct (usable_stamp now (Ok s)) as [t|] eqn:Hstamp.
      * assert (∀ state reason, dated endpoint (past ++ h1 ++ h3) (mkTelemetryValue (sq_name q) (sq_unit q) state (Some f) (Some t) reason)) as Hd.
        { intros state reason g u [= <-] [= <-]. exists q, s, now. unfold usable_stamp in Hstamp. destruct (_ || _) eqn:Hbad; [done|]. bool_hyps. injection Hstamp as <-.
          split_and!; try done; [| |by apply elem_of_app; left]; eapply told_mono; [|done| |done]; within. }
        destruct (time_sub now t >? stale_after) eqn:Hold; (split; [apply Hd|]); clear Hd; cbn.
        -- split; [split; [auto|apply list_elem_of_further, list_elem_of_here]|]. split; [discriminate|done].
        -- split; [split; [auto|apply list_elem_of_here]|]. split; [|done]. intros _. exists t. split; [done|].
           apply time_sub_le in Hold; [done|]. unfold stale_after, Second. lia.
      * split; [by apply dated_missing|]. cbn. split; [apply list_elem_of_here|]. split; [discriminate|done].
    + destruct (is_no_series e); (split; [by apply dated_missing|]); cbn; (split; [|split; [discriminate|done]]); [apply list_elem_of_here|apply list_elem_of_further, list_elem_of_further, list_elem_of_here].
  - destruct Hl as [-> ->]. rewrite app_nil_r. split; [destruct (is_no_series e); by apply dated_missing|]. split; [|split; [|split; [|split; [repeat constructor; auto|cbn; lia]]]].
    + destruct (is_no_series e); cbn; [apply list_elem_of_here|apply list_elem_of_further, list_elem_of_further, list_elem_of_here].
    + destruct (is_no_series e); discriminate.
    + by destruct (is_no_series e).
Qed.
Lemma refresh_rows_leaf endpoint now past qs : ev PNow now ∈ past → ∀ h r, (∀ q, q ∈ qs → q ∈ summaryQueries) → leaf (refresh_rows endpoint now qs) h r →
  Forall (dated endpoint (past ++ h)) r.1 ∧ Forall sampled r.1 ∧ Forall (recent now) r.1 ∧ tv_Name <$> r.1 = sq_name <$> qs ∧ of_queries endpoint h ∧ (length (gets h) ≤ 2 * length qs)%nat.
Proof.
  intros Hnow. induction qs as [|q qs IH]; intros h r Hin Hl; cbn [refresh_rows] in Hl.
  - destruct Hl as [-> ->]. split_and!; constructor.
  - apply leaf_bind in Hl as (h1 & a & h2 & -> & (K0 & K1 & K2 & K3 & K4 & K5)%(refresh_row_leaf _ _ _ past) & Hl); [|apply Hin, list_elem_of_here|done].
    apply leaf_bind in Hl as (h3 & b & h4 & -> & (L0 & L1 & L2 & L3 & L4 & L5)%IH & [-> ->]); [|intros x Hx; by apply Hin, list_elem_of_further].
    rewrite app_nil_r. unfold of_queries in *. rewrite gets_app, length_app. split_and!; [|by constructor|by constructor|cbn; by rewrite K3, L3|by apply Forall_app|cbn; lia].
    constructor; [eapply dated_mono; [|done]; within|]. eapply Forall_impl; [exact L0|]. intros v. apply dated_mono. within.
Qed.

(** ** A summary *)

Definition honest_call (past : events) (p : Prometheus) (busy : bool) (h : events) (vs : list TelemetryValue) (p' : Prometheus) : Prop :=
  (table vs ∧ Forall (dated (pm_endpoint p) (past ++ h)) vs ∧ ∃ now, (ev PNow now ∈ h ∨ h = []) ∧ Forall (recent now) vs) ∧
  cache_ok (past ++ h) p' ∧ pm_endpoint p' = pm_endpoint p ∧
  of_queries (pm_endpoint p) h ∧ (length (gets h) ≤ 14)%nat ∧
  (gets h ≠ [] → busy = false ∧ ValidateTelemetryEndpoint (pm_endpoint p) = Ok tt).
Lemma idle_call past p busy reason : cache_ok past p → honest_call past p busy [] (missingValues reason) p.
Proof.
  intros Hp. destruct (missing_table reason) as [K1 K2]. unfold honest_call. rewrite app_nil_r.
  split; [split; [done|split; [apply dated_missings|exists 0; split; [by right|done]]]|].
  split; [done|]. split; [done|]. split; [constructor|]. split; [cbn; lia|done].
Qed.
(** C34: A telemetry summary never dresses up the data.  Its rows are always the eight fixed
    ones, in their order; a row has a value exactly when it is available or stale, and the
    value is finite and dated, and value and date are what the backend told for the two
    queries of the row, in this call or in the earlier one that filled the cache; and a row is
    called available only if its source was at most 90 seconds old at a reading of the clock
    in this very call, whether the value was queried now or kept.  At most fourteen requests are made, each for a query of
    the compiled list at an endpoint that passed the policy; none while another call refreshes. *)
Theorem Summary_honest past p busy h st vs p' : cache_ok past p → (∀ now, ev PNow now ∈ h → zeroTime ≤ now) →
  leaf (Summary p busy) h ((st, vs), p') → honest_call past p busy h vs p'.
Proof.
  intros Hp Hclock Hl. unfold Summary in Hl.
  destruct (pm_endpoint p =s "") eqn:He; [destruct Hl as [-> [= -> -> ->]]; by apply idle_call|].
  destruct (ValidateTelemetryEndpoint (pm_endpoint p)) as [[]|e] eqn:Hv; [|destruct Hl as [-> [= -> -> ->]]; by apply idle_call].
  destruct busy; [destruct Hl as [-> [= -> -> ->]]; by apply idle_call|].
  apply leaf_bind in Hl as (h1 & t & h2 & -> & (t' & h3 & -> & [-> ->]) & Hl). cbn [app] in *.
  assert (zeroTime ≤ t') as Ht by (apply Hclock, list_elem_of_here).
  destruct (before t' (pm_until p)) eqn:Hb.
  - apply leaf_bind in Hl as (h1 & n & h3 & -> & (n' & h4 & -> & [-> ->]) & [-> [= -> -> ->]]). cbn [app].
    assert (table (pm_values p) ∧ Forall (dated (pm_endpoint p) past) (pm_values p)) as [[Hn Hs] Hd].
    { destruct Hp as [Hz|]; [|done]. unfold before in Hb. bool_hyps. lia. }
    assert (Forall (dated (pm_endpoint p) (past ++ [ev PNow t'; ev PNow n'])) (pm_values p)) as Hd'.
    { eapply Forall_impl; [exact Hd|]. intros v. apply dated_mono. within. }
    split; [|split; [by right|split; [done|split; [constructor|split; [cbn; lia|done]]]]]. split; [|split].
    + split.
      * rewrite <- Hn. unfold currentFreshness. rewrite <- list_fmap_compose. apply list_fmap_ext. intros k v Hk.
        apply refreshed_row. by eapply (proj1 (Forall_lookup _ _) Hs).
      * unfold currentFreshness. apply Forall_fmap. eapply Forall_impl; [exact Hs|]. intros v Hx. by apply refreshed_row.
    + unfold currentFreshness. apply Forall_fmap. eapply Forall_impl; [exact Hd'|]. intros v. apply dated_refreshed.
    + exists n'. split; [left; apply list_elem_of_further, list_elem_of_here|]. unfold currentFreshness. apply Forall_fmap. eapply Forall_impl; [exact Hs|]. intros v Hx. by apply refreshed_row.
  - apply leaf_bind in Hl as (h1 & n & h3 & -> & (n' & h4 & -> & [-> ->]) & Hl).
    apply leaf_bind in Hl as (h1 & [rows failed] & h4 & -> & (K0 & K1 & K2 & K3 & K4 & K5)%(refresh_rows_leaf _ _ (past ++ [ev PNow n'])) & Hl); [|apply elem_of_app; right; apply list_elem_of_here|done].
    apply leaf_bind in Hl as (h5 & m & h6 & -> & (m' & h7 & -> & [-> ->]) & [-> [= -> -> ->]]). cbn [fst app] in *.
    assert (gets (ev PNow t' :: ev PNow n' :: h1 ++ [ev PNow m']) = gets h1) as Hg.
    { change (gets (ev PNow t' :: ev PNow n' :: h1 ++ [ev PNow m'])) with (gets (h1 ++ [ev PNow m'])). rewrite gets_app. apply app_nil_r. }
    assert (sampled gpu_value ∧ recent n' gpu_value) as [Gs Gr] by (split; [apply list_elem_of_further, list_elem_of_here|discriminate]).
    assert (table (rows ++ [gpu_value])) as Htab by (split; [rewrite fmap_app, K3; done|apply Forall_app; split; [done|by constructor]]).
    assert (Forall (dated (pm_endpoint p) (past ++ ev PNow t' :: ev PNow n' :: h1 ++ [ev PNow m'])) (rows ++ [gpu_value])) as Hd.
    { apply Forall_app. split; [|constructor; [by apply dated_missing|constructor]]. eapply Forall_impl; [exact K0|]. intros v. apply dated_mono. within. }
    unfold honest_call, of_queries in *. rewrite Hg. split; [|split; [by right|split; [done|split; [done|split; [exact K5|done]]]]]. split; [done|]. split; [done|].
    exists n'. split; [left; apply list_elem_of_further, list_elem_of_here|]. apply Forall_app. split; [done|by constructor].
Qed.
End Requests.

(** ** A concrete backend *)

Module SummaryFixture.
Definition second (n : Z) : time := n * Second.
#[export] Instance numbers : FloatText := {| parse_float s := (match ParseInt s with Some n => float_of n | None => f0 end, is_some (ParseInt s)); format_float _ := "" |}.
#[export] Instance parser : NetParse := {|
  ParseIP s := if s =s "127.0.0.1" then Some (mkIPAddr true false false) else None; SplitHostPort _ := None; EqualFold := String.eqb;
  url_Parse s := if s =s "http://127.0.0.1:9090" then Some (mkURL "http" "" false "127.0.0.1:9090" "127.0.0.1" "9090" "" "" "" false "" "") else None |}.
Definition vector (value : string) : JSON := JObject [
  ("status", JString "success"); ("data", JObject [("resultType", JString "vector"); ("result", JArray [JObject [("value", JArray [JInt 0; JString value])]])])].
#[export] Instance documents : JSONText := λ s, Some [vector s].
(** Values are 7, their source is a time of its own. *)
Definition backend (now source : Z) (e : PromAct) : prom_answer e :=
  match e with
  | PNow => second now
  | PGet u => Backend 200 (Some (if existsb (λ q, u =s query_url "http://127.0.0.1:9090" (sq_freshness q)) summaryQueries then pretty source else "7"))
  end.
Definition asked (p : Prometheus) (now source : Z) := play (backend now source) (Summary p false).
Definition states (values : list TelemetryValue) : list string := tv_State <$> values.
Definition reading_ok (i : {e : PromAct & prom_answer e}) : bool :=
  match projT1 i as e return prom_answer e → bool with PNow => λ t, zeroTime <=? t | PGet _ => λ _, true end (projT2 i).
End SummaryFixture.
Import SummaryFixture.
Definition first_call := asked (NewPrometheus "http://127.0.0.1:9090") 1000 930.
Definition later_call := match first_call with Some (_, (_, p)) => asked p 1025 930 | None => None end.
Definition outcome (call : option (events * ((TelemetryState * list TelemetryValue) * Prometheus))) : nat * list string :=
  match call with Some (h, ((_, vs), _)) => (length (gets h), states vs) | None => (0%nat, []) end.
(** A first call queries; a call 25 seconds later keeps the values, which are by then too old. *)
Lemma Summary_honest_witness :
  outcome first_call = (14%nat, replicate 7 "available" ++ ["unavailable"]) ∧ outcome later_call = (0%nat, replicate 7 "stale" ++ ["unavailable"]) ∧
  ∃ h st vs p', first_call = Some (h, ((st, vs), p')) ∧ honest_call [] (NewPrometheus "http://127.0.0.1:9090") false h vs p'.
Proof.
  split; [vm_compute; reflexivity|]. split; [vm_compute; reflexivity|].
  assert (match first_call with Some (h, _) => forallb reading_ok h | None => false end = true) as Hc by (vm_compute; reflexivity).
  destruct first_call as [[h [[st vs] p']]|] eqn:Ha; [|discriminate Hc].
  exists h, st, vs, p'. split; [reflexivity|]. apply (Summary_honest [] _ _ _ st); [by left| |exact (play_leaf _ _ _ _ Ha)].
  intros now Hn%list_elem_of_In. exact (proj1 (Z.leb_le _ _) (proj1 (forallb_forall _ _) Hc _ Hn)).
Defined.
